(* ===== verification/_CoqProject ===== *)
-Q . S2P
Prelude.v
RustStr.v
Fmt.v
Utf8.v
BTree.v
Trim.v
Json.v
Ip.v
HostnameTree.v
Http.v
RefHttp.v
MatchRequest.v
Service.v
Upstream.v
Route.v
Gateway.v
Middleware.v
Model.v
PluginRepo.v
Config.v
ConfigService.v
FsConfig.v
FsRefine.v
Plugins.v
Limit.v
Shell.v
ShellRun.v
AiTypes.v
AiUtil.v
AiProg.v
AiLimit.v
AiBucket.v
AiRules.v
AiQueue.v
AiJobs.v
AiJobsRun.v
AiJobsSafe.v
WasmAbi.v
WasmShared.v
WasmConfig.v
WasmState.v
WasmHost.v
WasmVm.v
WasmGuest.v
WasmQueue.v
WasmQueueRun.v
WasmShell.v
WasmLoad.v
K8sTypes.v
K8sConv.v
K8sRoundtrip.v
K8sWasm.v
K8sStore.v
K8sStoreFacts.v
K8sCluster.v
K8sWatch.v
Admin.v
AdminRun.v
AdminServer.v
AdminPlugin.v
AxumServer.v
Observability.v
Traverse.v
FsModel.v
SlidingWindow.v
Retry.v
Body.v
Startup.v
AiAdmin.v
