(* ===== verification/Prelude.v ===== *)
(** * Spacegate: a verification library of the API gateway

    Spacegate is an HTTP gateway: listeners accept connections, sniff their protocol and hand
    requests to a gateway service, which runs plugin layers, routes the request by host,
    method, path, query and headers to a rule of a route, balances between the backends of the
    rule, and sends the request to an upstream or answers it itself. This library models that
    path, the plugin repository that is updated while requests are served, the built-in
    plugins, the shell that turns a stored configuration into running gateways and follows its
    changes, the AI gateway service, a job queue with rate limits behind the gateway, and the
    WebAssembly plugins: the host that runs proxy-wasm guests in the filter chain, and the guest
    that sends requests to the AI gateway service. The configuration is kept in memory, in Redis,
    in files or in the objects of a Kubernetes cluster, and edited through an administration
    server. All are executable definitions translated
    from the Rust sources, with theorems that state what they do.

    ** Conventions

    A service is a function from a request to a response ([Http.Service]); [None] is a panic of
    the task. State that the source shares (locks, cells, drop signals, Redis) is explicit and
    passed from operation to operation; concurrency is an arbitrary list of atomic operations.
    A [Result] is [Prelude.result] and [?] is the notation [let? x := e in k]. Machine integers
    are [Z], with the wrap-around written where the source can overflow. Strings are the bytes
    of the UTF-8 text. A [HashMap] that is iterated is the list of its entries in the order of
    the visit, and a theorem holds for every order. The functions of the AI service, which wait
    for Redis and HTTP between any two effects, are programs ([AiProg.Prog]): trees of commands
    with a continuation for every reply, which are run, traced and interleaved.

    Code that is not in the repository is an interface: a class of operations ([HttpLib],
    [Runtime], [Client], [FileSystem], [StdOrder], [Base64], [PluginEnv], [Redis],
    [MatchParsers], [ConfigFormat], [FsLib], [TlsLib], [AiLib], [RedisPx], [KvEnv],
    [WasmState.HeaderLib], [WasmHost.HostEnv], [WasmVm.VmLib], [WasmConfig.YamlLib],
    [JsonLib], [WasmQueue.ProxyWasm], [WasmLoad.LoadLib], [K8sConv.KubeText],
    [K8sStore.KubeApi], [K8sStore.HashOrder], [K8sWatch.TargetHash], [Admin.AdminLib],
    [AdminPlugin.InstanceHttp], [AdminPlugin.SchemaLib], [AxumServer.Listener], [FsModel.DocLib],
    [Body.BodyUtil], [AiAdmin.SchemaText], [Retry.RandomRange], [Startup.HostLib]) whose documented behaviour, where a theorem needs it, is a class of laws ([HttpLaws],
    [RuntimeLaws], and so on). Each class of laws has a reference instance, so every theorem is
    applied to concrete values in its witness.

    ** The files

    - [Prelude]: results, machine integers, generic lemmas on options and lists, the tactics
      [case_all] and [crush], the hint database [spacegate].
    - [RustStr]: the operations of [str] the source uses, and the theory of splitting a path
      into its non-empty segments. [Trim]: trimming of white space. [Fmt]: writing and reading
      numbers. [Utf8]: valid and lossy decoding of bytes. [Json]: JSON values. [BTree]: the std [BTreeMap] as a sorted list. [Ip]: the std parser and printer of IP addresses.
    - [HostnameTree]: [kernel/src/service/http_route/match_hostname.rs]. The tree of host
      patterns is proved to implement a table of patterns with the most specific match
      ([host_lookup_refines]); insertion is read back ([set_then_get]).
    - [Http]: requests, responses, extensions, matchers, and the interface of the HTTP
      libraries; [RefHttp] is its reference instance.
    - [MatchRequest]: [match_request.rs], [utils/query_kv.rs]. The theorems say exactly which
      paths and queries a matcher accepts, and what a rewrite makes of a path.
    - [Service]: [helper_layers], [utils/fold_box_layers.rs], [extension/defer.rs]. Folding of
      layers, the timeout future, the reloadable service, the balancer and its policies.
    - [Body]: [body.rs], [body/observer.rs]. Bodies as what their polls give; an observer changes
      nothing and is told the end exactly once ([observer_transparent]).
    - [Upstream]: [backend_service.rs], [http_client_service.rs], [static_file_service.rs]. A
      static file is below the served directory.
    - [Route]: [service/http_route.rs], [utils/schema_port.rs]. What a backend sends and how
      its response is marked.
    - [Gateway]: [service/http_gateway.rs]. The router built from the routes never indexes out
      of bounds and selects the first accepting rule of the highest priority, whatever the
      order of the route map; a reload replaces the router behind the same plugins.
    - [Middleware]: request identifiers, authorization, message framing, client addresses, user
      groups, extractors, and the dispatch of a connection ([service.rs], [listener.rs]).
    - [Model]: [model/src/plugin.rs]. Identities of plugin instances and their text forms.
    - [PluginRepo]: [plugin/src/{lib,instance,mount,layer,error}.rs]. The repository as a state
      with operations; an invariant of every run, the meaning of a hot update for mounted
      layers, and the tracking of mount points.
    - [Plugins]: [plugin/src/plugins] and [plugin/src/model.rs], each plugin an instance of the
      class [PluginRepo.Plugin].
    - [Limit]: the Redis plugins and their Lua scripts. The scripts implement one fixed window
      per client; what a fixed window guarantees; the bound of the counting plugin.
    - [SlidingWindow], [Retry]: the plugins [status] and [retry], which the build leaves out. The
      counter of a window counts what it should ([window_count_bounds]); a retry ends
      ([retry_ends]).
    - [Config]: [model/src], and the conversion in [shell/src]: gateways, routes, matchers, MCP
      routes. A compiled MCP route accepts exactly the requests of its endpoints.
    - [ConfigService]: [config/src/service.rs], its memory and Redis backends. Backends are
      instances of the traits' classes; the contract [Readable] says what a client may rely on,
      and the Redis backend meets it ([redis_readable]) under any edits ([redis_edits_refine]).
    - [FsConfig], [FsRefine]: [config/src/service/fs]. The file backend over a directory tree
      whose operations may fail; an edit that rewrites the tree has the effect of the edit on
      the configuration ([fs_modify_refines]).
    - [Traverse]: the passes over the plugin references of a configuration and their laws.
      [FsModel]: [fs/model.rs], the configuration as one document; what is written is read back
      ([document_roundtrip]).
    - [Shell]: [shell/src/server.rs], [shell/src/config.rs]. A construction of routers and
      gateways over the plugin repository, the store of running gateways, and the handler of
      configuration events, as one state passed along.
    - [ShellRun]: backend, event queue and shell as a transition system, for any backend with
      the contract [Readable]: it never panics and settles in what is stored
      ([shell_converges]), and live tasks are those of the store ([live_tasks_are_stored]).

    The AI gateway service, [binary/ai-gateway-service/src/app]:
    - [AiTypes]: [types.rs], [config.rs]. Settings and their sources, data, errors.
    - [AiUtil]: [util.rs], [metrics.rs]. Headers, keys, the calendar, responses, histograms.
    - [AiProg]: programs, their traces, the interleaving of tasks ([system]), and the rule that
      proves what is known when a task issues a command ([wp_system]).
    - [AiLimit]: [ratelimit.rs], the token bucket script of [types.rs], the check of
      [handlers.rs]. [AiBucket]: the script implements one bucket per tenant, and what a bucket
      guarantees. [AiRules]: rules by their keys are a table with the most specific match.
    - [AiQueue]: [object_store.rs], priorities and streams of [queue.rs]. [AiJobs]: the rest of
      [queue.rs], [callback.rs], [result_store.rs], [wait_subscriber.rs], [handlers.rs].
    - [AiAdmin]: [admin.rs], the schema of the queue plugin's configuration: its annotations keep
      it ([schema_extensions_keep]), and what it describes the plugin reads
      ([plugin_reads_schema_config]).
    - [AiJobsRun]: specifications of these programs for any replies. [AiJobsSafe]: what the
      queue guarantees: an entry is acknowledged only when its job is done
      ([acknowledged_is_settled]), an accepted job is stored ([accepted_job_is_stored]), a job
      is called a bounded number of times ([deliveries_bounded]), and the bytes of requests and
      answers are the client's and the upstream's.

    The WebAssembly host, [crates/plugin-wasm/src], and the queue plugin,
    [plugins/wasm/ai-gateway-queue/src/lib.rs]. A guest is any function from the state of its
    host to an outcome, so a theorem about the host holds for hostile guests; a theorem about an
    honest guest says what the guest does.
    - [WasmAbi]: the encoding of header maps in the memory of a guest ([pairs_roundtrip]), and
      the codes of the ABI. [WasmShared]: [shared_data.rs]: key-value data with compare and set
      ([cas_set_exclusive]) and queues ([queues_refine]). [WasmConfig]: [config.rs] and the
      limits it sets.
    - [WasmState]: the state of a virtual machine and of its contexts. [WasmHost]: the host
      functions of [host_fn.rs] over linear memory; a header map the host hands out is the one
      the guest decodes ([header_pairs_delivered]). [WasmVm]: [vm.rs], one callback or one
      request on a machine, with the answers of its calls as a list of results.
    - [WasmGuest]: guests and what the host does with them: a request waits for its own calls
      only ([waits_for_own_calls]), the open calls are bounded ([open_calls_bounded]), and an
      answered request leaves no context ([answered_request_frees_context]).
    - [WasmQueue]: the queue plugin over the functions of its SDK. [WasmQueueRun]: the SDK
      implemented by the host, and the plugin in it: the gateway's answer is the abstract
      specification of the plugin ([queue_plugin_refines]).
    - [WasmShell]: [shell.rs], the pools of machines as fair locks, for every interleaving of
      requests: each is served once ([requests_are_queued_once]), in turn ([served_in_turn]).
    - [WasmLoad]: [fetch.rs] and the module cache of [runtime.rs]: a module with a pinned digest
      is run only if its bytes have it ([pinned_modules_verified]), and image references are
      read as they are written ([oci_reference_roundtrip]).

    The Kubernetes backend, [crates/config/src/service/k8s] and [model/src/ext/k8s]:
    - [K8sTypes]: the custom resources, and the objects of the Gateway API with the fields the
      source uses.
    - [K8sConv]: [convert/route_k8s_conv.rs], [filter_k8s_conv.rs], [gateway_k8s_conv.rs]. Rules,
      backends, routes and gateways to objects and back. [K8sRoundtrip]: what the cluster keeps
      of a rule ([rule_reads_back]), which requests it then accepts ([stored_rule_accepts]), and
      of the parameters of a gateway ([parameters_read_back]).
    - [K8sWasm]: [convert/higress_wasm_plugin_conv.rs]. The plugin instances of WasmPlugin
      objects; each that is attached is found again ([wasm_plugins_resolve]).
    - [K8sStore]: [mod.rs], [retrieve.rs], [create.rs], [update.rs], [delete.rs], [discovery.rs].
      The backend as instances of the traits' classes over the requests of an API server.
      [K8sStoreFacts]: an edit leaves exactly the bindings it asks for
      ([bindings_after_update]), for every server with the laws [KubeLaws]; [K8sCluster]: such a
      server, and runs of the backend in it.
    - [K8sWatch]: [listen.rs]. What the watches announce ([route_changes_announced]).

    The administration server, [binary/admin-server/src], and what all parts share:
    - [Admin]: versions, tokens and the endpoints of the configuration, over any backend.
      [AdminRun]: requests as tasks whose steps interleave: who can change the configuration
      ([edits_guarded]); an edit is applied to what its client read when requests do not overlap
      ([no_lost_update]), and what a login is worth ([login_grants]). [AdminServer]: libraries and
      a backend to run it on, and what goes wrong when requests overlap.
    - [AdminPlugin]: [service/plugin.rs], [service/discovery.rs]. The cache of plugin attributes
      ([attributes_fresh]), the health of instances, orders to reload.
    - [AxumServer]: [crates/extension/axum]. The web server of the shell and its plugins.
    - [Startup]: [binary/spacegate/src], and the entry points of [shell/src/lib.rs]: the backend a
      process starts with, and the plugin libraries it loads.
    - [Observability]: [kernel/src/observability.rs], the call of [kernel/src/service.rs], and
      [shell/src/observability.rs]. Fields of plugins are well formed ([telemetry_well_formed]),
      samples add up ([metrics_add_up]).

    ** Recursion and fuel

    Recursion follows the data. Where the source loops over the rest of a text, the fuel is the
    length of the text plus one and totality is proved ([MatchRequest.query_kv_total],
    [Fmt.log2_fuel]); a retry has one unit for each attempt ([Retry.retry_ends]); the parts of an upload each take bytes away, so the length of the text is
    enough fuel ([AiJobsRun.full_parts_done]); a program is a finite tree, so it ends with any
    replies, and an endless loop is any number of its rounds; no theorem assumes that a
    function returns.

    ** What is not modelled

    Sockets, TLS, the flow of bodies through the services, spans and debug logs, exporters; poisoned locks; the wrap-around of
    the 64-bit counters of drop signals; Lua numbers that are not integers below [2 ^ 53]; the
    JSON schemas; derived serde code. The Windows watcher of the file backend, the parsing of
    command lines, and the plugins [decompression] and [status] of earlier versions, which do not
    compile, are left out, and the page of the plugin [status]. Of the Kubernetes backend the API server and its
    watchers are interfaces, times in status conditions are left out, and an edit runs without
    other writers between its requests. Of the wasm host, the compiler
    and linker (wasmtime), the accounting of fuel and epochs in [engine.rs], and the threads
    that answer calls are not modelled: a run of a guest is a function that may trap. The
    marshalling of the guest's SDK is an interface whose laws the host's functions meet
    ([WasmQueueRun.host_sdk_laws]).
    The shell is built without the feature [k8s]. Of the AI service the start of the process,
    the axum wrappers of the administration, and the text of its metrics endpoint are left out;
    panics of its tasks and the order of metric updates among awaited tasks are not modelled.

    ** Where the code differs from its documentation

    The theorems state what the code does. Among the differences they make precise: the
    hostnames of routes have no effect ([Gateway.hostnames_inert]), an exact rewrite never
    rewrites ([MatchRequest.exact_rewrite_inert]), the last pair of a query is never matched
    ([MatchRequest.query_exact_iff]), the redirect plugin forwards
    ([Plugins.redirect_inert]), a "set" header is appended ([Plugins.header_modifier_spec]), a
    mono plugin instance is lost in a serialised map ([Model.plugin_id_roundtrip]), and an
    updated instance reports its first configuration ([PluginRepo.mounted_layer_updates]), routes
    lose their names in a reload ([Shell.reload_loses_route_names]), a random rule without
    backends panics ([Shell.create_router_outcome]), and a gateway that is created twice leaves
    its first task running ([ShellRun.recreated_gateway_leaks]). In the AI service a client can
    miss the notification of its result ([AiJobsSafe.lost_wakeup]), a failed upload leaves its
    job in the stream ([AiJobsSafe.failed_upload_is_queued]), a job in the dead letter stream
    has no result ([AiJobsSafe.buried_job_not_found]), and a clock that is set back credits
    tokens twice ([AiBucket.clock_set_back]). In the wasm host a request whose body is too large
    leaves its context ([WasmGuest.body_too_large_leaks]), and headers a guest adds to a response are
    lost when it has no hook for the body ([WasmGuest.response_header_lost]); the queue plugin ignores a configuration
    nested the way its documentation nests it ([WasmQueue.nested_configuration_ignored]); a
    pool keyed by a fixed header can wait beside a free machine
    ([WasmShell.waits_beside_a_free_machine]); a pinned digest is dropped with the rest of a URL
    after a hash sign ([WasmLoad.hash_sign_defeats_the_pin]), an empty digest accepts any bytes
    ([WasmLoad.empty_digest_accepts]), and a look-up path can leave the module directory
    ([WasmLoad.lookup_path_escapes]). A Kubernetes cluster loses the headers of a match without
    methods ([K8sRoundtrip.header_condition_lost]) and the certificates of all TLS listeners but
    the last ([K8sCluster.https_listener_becomes_http]), stores routes that it then refuses to
    read, replace or delete ([K8sCluster.unreadable_route_stuck]), and its watch of routes misses
    changes behind a restart ([K8sWatch.restart_misses_changes]) and ends at the first error
    ([K8sWatch.error_ends_watch]). The administration server lets two edits with one version pass
    when they overlap ([AdminServer.two_edits_one_version]) and counts requests without a token
    ([AdminServer.unauthenticated_request_counts]); the global web server does not serve after a
    restart ([AxumServer.restart_does_not_serve]). The configuration as one document loses the
    settings of an anonymous plugin that is used twice ([FsModel.shared_plugin_loses_spec]), and
    the counter of the plugin [status] panics with its default interval
    ([SlidingWindow.default_interval_panics]). *)

From stdpp Require Export prelude gmap strings list numbers sorting.
From Stdlib Require Export ZArith Ascii Lia.

(** ** Results

    Rust's [Result<T, E>]; [Err] carries the error value of the source. *)

Inductive result (A E : Type) : Type :=
| Ok (a : A)
| Err (e : E).
Arguments Ok {A E} a.
Arguments Err {A E} e.

Definition result_bind {A B E} (r : result A E) (k : A → result B E) : result B E :=
  match r with Ok a => k a | Err e => Err e end.

Definition result_map {A B E} (f : A → B) (r : result A E) : result B E :=
  match r with Ok a => Ok (f a) | Err e => Err e end.

(** [r.ok()] *)
Definition result_ok {A E} (r : result A E) : option A :=
  match r with Ok a => Some a | Err _ => None end.

(** [o.ok_or(e)] *)
Definition ok_or {A E} (o : option A) (e : E) : result A E :=
  match o with Some a => Ok a | None => Err e end.

Declare Scope rust_scope.
Delimit Scope rust_scope with rust.

(** The [?] operator of the source. *)
Notation "'let?' x ':=' e 'in' k" := (result_bind e (λ x, k))
  (at level 10, x name, e at level 100, k at level 200) : rust_scope.
Notation "'let?' ' p ':=' e 'in' k" := (result_bind e (λ x, match x with p => k end))
  (at level 10, p strict pattern, e at level 100, k at level 200) : rust_scope.

Open Scope rust_scope.

(** [o1.or(o2)] *)
Definition opt_or {A} (o1 o2 : option A) : option A :=
  match o1 with Some _ => o1 | None => o2 end.

(** ** Machine integers *)

(** Unsigned and two's complement wrap-around at [w] bits. *)
Definition uwrap (w z : Z) : Z := z mod 2 ^ w.
Definition swrap (w z : Z) : Z := (z + 2 ^ (w - 1)) mod 2 ^ w - 2 ^ (w - 1).

Definition in_unsigned (w z : Z) : Prop := (0 ≤ z < 2 ^ w)%Z.
Definition in_signed (w z : Z) : Prop := (- 2 ^ (w - 1) ≤ z < 2 ^ (w - 1))%Z.

Lemma uwrap_id w z : in_unsigned w z → uwrap w z = z.
Proof. intros H. by apply Z.mod_small. Qed.

Lemma swrap_id w z : (0 < w)%Z → in_signed w z → swrap w z = z.
Proof.
  intros Hw [H1 H2]. unfold swrap. rewrite Z.mod_small; [lia|].
  assert (2 ^ w = 2 * 2 ^ (w - 1))%Z as ->; [|lia].
  rewrite <- Z.pow_succ_r by lia. f_equal; lia.
Qed.

(** ** Tactics and hints shared by the development *)

Create HintDb spacegate.

(** Case analysis on every [match] and [decide] of the goal, with the equations
    simplified. *)
Ltac case_all := repeat (case_decide || case_match); simplify_eq/=.
(** [case_all] followed by the closing tactics that finish most branches. *)
Ltac crush := case_all; try done; eauto with spacegate; try lia; try naive_solver.

(** ** Options and lists *)

Section lists.
Context {A B : Type}.
Implicit Types (l : list A).

Lemma opt_or_None_r (o : option A) : opt_or o None = o.
Proof. by destruct o. Qed.

Lemma opt_or_assoc (a b c : option A) : opt_or a (opt_or b c) = opt_or (opt_or a b) c.
Proof. by destruct a. Qed.

Lemma opt_or_Some (a b : option A) x :
  opt_or a b = Some x ↔ a = Some x ∨ (a = None ∧ b = Some x).
Proof. destruct a; naive_solver. Qed.

Lemma existsb_Exists (f : A → bool) l : existsb f l = true ↔ Exists (λ x, f x = true) l.
Proof.
  induction l as [|x l IH]; simpl; [by rewrite Exists_nil|].
  by rewrite orb_true_iff, IH, Exists_cons.
Qed.

Lemma forallb_Forall (f : A → bool) l : forallb f l = true ↔ Forall (λ x, f x = true) l.
Proof.
  induction l as [|x l IH]; simpl; [split; auto|].
  rewrite andb_true_iff, IH, Forall_cons. done.
Qed.

(** The first element on which [f] is defined: the shape of every
    "search the list, return at the first hit" loop of the source. *)
Fixpoint find_map (f : A → option B) l : option B :=
  match l with
  | [] => None
  | x :: l' => match f x with Some y => Some y | None => find_map f l' end
  end.

Lemma find_map_Some f l y :
  find_map f l = Some y ↔
  ∃ l1 x l2, l = l1 ++ x :: l2 ∧ f x = Some y ∧ Forall (λ z, f z = None) l1.
Proof.
  induction l as [|x l IH]; simpl.
  - split; [done|]. intros ([|??]&?&?&?&_); simplify_eq/=.
  - destruct (f x) as [z|] eqn:Hx.
    + split.
      * intros [= ->]. exists [], x, l. auto.
      * intros ([|x' l1]&x''&l2&?&Hy&Hl1); simplify_eq/=; [congruence|].
        apply Forall_cons in Hl1 as [? _]. congruence.
    + rewrite IH. split.
      * intros (l1&x'&l2&->&?&?). exists (x :: l1), x', l2. auto.
      * intros ([|x' l1]&x''&l2&?&Hy&Hl1); simplify_eq/=.
        apply Forall_cons in Hl1 as [_ ?]. eauto 10.
Qed.

Lemma find_map_None f l : find_map f l = None ↔ Forall (λ z, f z = None) l.
Proof.
  induction l as [|x l IH]; simpl; [split; auto|].
  rewrite Forall_cons, <-IH. destruct (f x); naive_solver.
Qed.
End lists.

#[export] Hint Rewrite @opt_or_None_r : spacegate.
#[export] Hint Resolve uwrap_id swrap_id : spacegate.
