(* ===== verification/RustStr.v ===== *)
(** * Rust strings

    The operations of [str] and [String] the source uses, on the bytes of the
    UTF-8 text ([Coq.Strings.String.string]).  Every separator the source splits
    at is an ASCII byte, and an ASCII byte never occurs inside a multi-byte
    UTF-8 sequence, so the operations on characters and on bytes agree.
    [to_ascii_lowercase] and [eq_ignore_ascii_case] change ASCII letters only. *)

From S2P Require Export Prelude.
Local Open Scope string_scope.
#[global] Arguments String.append !s1 s2 : simpl nomatch.

(** ** Bytes *)

Definition byte_val (a : ascii) : N := N_of_ascii a.

Definition is_ascii_upper (a : ascii) : bool := ((65 <=? byte_val a) && (byte_val a <=? 90))%N.
Definition is_ascii_lower (a : ascii) : bool := ((97 <=? byte_val a) && (byte_val a <=? 122))%N.
Definition is_ascii_digit (a : ascii) : bool := ((48 <=? byte_val a) && (byte_val a <=? 57))%N.
Definition is_ascii_alphanumeric (a : ascii) : bool :=
  is_ascii_upper a || is_ascii_lower a || is_ascii_digit a.
(** The ASCII part of [char::is_whitespace]: tab, line feed, vertical tab, form
    feed, carriage return and space. *)
Definition is_ascii_space (a : ascii) : bool :=
  ((9 <=? byte_val a) && (byte_val a <=? 13) || (byte_val a =? 32))%N.

Definition ascii_lower (a : ascii) : ascii :=
  if is_ascii_upper a then ascii_of_N (byte_val a + 32) else a.

(** A fact about every byte is decided by trying the 256 of them. *)
Definition all_bytes : list ascii := ascii_of_nat <$> seq 0 256.

Lemma byte_forallb (P : ascii → bool) : forallb P all_bytes = true → ∀ a, P a = true.
Proof.
  intros H a. apply forallb_Forall in H. rewrite Forall_forall in H. apply H.
  unfold all_bytes. apply list_elem_of_fmap. exists (nat_of_ascii a).
  split; [by rewrite ascii_nat_embedding|].
  apply elem_of_seq. pose proof (nat_ascii_bounded a). lia.
Qed.

Lemma ascii_lower_idemp a : ascii_lower (ascii_lower a) = ascii_lower a.
Proof.
  pose proof (byte_forallb (λ a, Ascii.eqb (ascii_lower (ascii_lower a)) (ascii_lower a))
    ltac:(by vm_compute) a) as Ha.
  by apply Ascii.eqb_eq.
Qed.

Lemma ascii_lower_fix a : is_ascii_lower (ascii_lower a) = false → ascii_lower a = a.
Proof.
  intros H.
  pose proof (byte_forallb (λ a, implb (is_ascii_upper a) (is_ascii_lower (ascii_lower a)))
    ltac:(by vm_compute) a) as Ha; simpl in Ha.
  unfold ascii_lower in *. destruct (is_ascii_upper a); [|done]. by rewrite H in Ha.
Qed.

(** ** Whole strings *)

(** [s.is_empty()] *)
Definition str_is_empty (s : string) : bool := match s with "" => true | _ => false end.

Fixpoint str_map (f : ascii → ascii) (s : string) : string :=
  match s with "" => "" | String a s' => String (f a) (str_map f s') end.

(** [s.to_ascii_lowercase()] and [s.eq_ignore_ascii_case(t)] *)
Definition to_ascii_lowercase : string → string := str_map ascii_lower.
Definition eq_ignore_ascii_case (s t : string) : bool :=
  bool_decide (to_ascii_lowercase s = to_ascii_lowercase t).

Fixpoint str_forallb (f : ascii → bool) (s : string) : bool :=
  match s with "" => true | String a s' => f a && str_forallb f s' end.

(** [s.contains(c)] for a character *)
Definition str_contains_char (c : ascii) (s : string) : bool :=
  negb (str_forallb (λ a, negb (bool_decide (a = c))) s).

(** [s.strip_prefix(p)] and [s.starts_with(p)] *)
Fixpoint str_strip_prefix (p s : string) : option string :=
  match p, s with
  | "", _ => Some s
  | String a p', String b s' => if decide (a = b) then str_strip_prefix p' s' else None
  | String _ _, "" => None
  end.
Definition starts_with (s p : string) : bool := bool_decide (is_Some (str_strip_prefix p s)).

Fixpoint str_rev_app (s acc : string) : string :=
  match s with "" => acc | String a s' => str_rev_app s' (String a acc) end.
Definition str_rev (s : string) : string := str_rev_app s "".

(** [s.strip_suffix(p)] and [s.ends_with(p)] *)
Definition str_strip_suffix (p s : string) : option string :=
  str_rev <$> str_strip_prefix (str_rev p) (str_rev s).
Definition ends_with (s p : string) : bool := bool_decide (is_Some (str_strip_suffix p s)).

(** [s.trim_start_matches(c)], [s.trim_end_matches(c)] and [s.trim_matches(c)] *)
Fixpoint trim_start_if (f : ascii → bool) (s : string) : string :=
  match s with String a s' => if f a then trim_start_if f s' else s | "" => "" end.
Fixpoint trim_end_if (f : ascii → bool) (s : string) : string :=
  match s with
  | "" => ""
  | String a s' =>
      match trim_end_if f s' with
      | "" => if f a then "" else String a ""
      | t => String a t
      end
  end.
Definition is_char (c : ascii) (a : ascii) : bool := bool_decide (a = c).
Definition trim_start_matches (c : ascii) (s : string) : string := trim_start_if (is_char c) s.
Definition trim_end_matches (c : ascii) (s : string) : string := trim_end_if (is_char c) s.
Definition trim_matches (c : ascii) (s : string) : string :=
  trim_end_matches c (trim_start_matches c s).
(** [s.trim()] on ASCII white space *)
Definition trim (s : string) : string := trim_end_if is_ascii_space (trim_start_if is_ascii_space s).

(** [s.split(c)]: a string without the separator is one piece, and the pieces
    around a separator may be empty. *)
Fixpoint str_split (c : ascii) (s : string) : list string :=
  match s with
  | "" => [""]
  | String a s' =>
      if decide (a = c) then "" :: str_split c s'
      else match str_split c s' with
           | p :: ps => String a p :: ps
           | [] => [String a ""]
           end
  end.

Fixpoint str_join (c : ascii) (l : list string) : string :=
  match l with
  | [] => ""
  | [p] => p
  | p :: ps => p +:+ String c (str_join c ps)
  end.

(** [s.split_once(c)] and [s.rsplit_once(c)]: at the first and at the last
    occurrence. *)
Fixpoint str_split_once (c : ascii) (s : string) : option (string * string) :=
  match s with
  | "" => None
  | String a s' =>
      if decide (a = c) then Some ("", s')
      else '(p, q) ← str_split_once c s'; Some (String a p, q)
  end.
Fixpoint str_rsplit_once (c : ascii) (s : string) : option (string * string) :=
  match s with
  | "" => None
  | String a s' =>
      match str_rsplit_once c s' with
      | Some (p, q) => Some (String a p, q)
      | None => if decide (a = c) then Some ("", s') else None
      end
  end.

(** [s.split_once(p)] for a string pattern *)
Fixpoint str_split_once_str (p s : string) : option (string * string) :=
  match str_strip_prefix p s with
  | Some q => Some ("", q)
  | None =>
      match s with
      | "" => None
      | String a s' => '(l, r) ← str_split_once_str p s'; Some (String a l, r)
      end
  end.

(** [s.contains(p)] for a string pattern *)
Definition str_contains (s p : string) : bool := bool_decide (is_Some (str_split_once_str p s)).

(** [s.split(c).filter(|s| !s.is_empty())]: the non-empty segments. *)
Definition not_empty (s : string) : bool := negb (str_is_empty s).
Definition segments (c : ascii) (s : string) : list string :=
  filter (λ p, not_empty p = true) (str_split c s).

(** ** Lemmas *)

Lemma str_app_nil_r (s : string) : s +:+ "" = s.
Proof. induction s as [|a s IH]; simpl; [done|by rewrite IH]. Qed.

Lemma str_app_assoc (s t u : string) : s +:+ (t +:+ u) = (s +:+ t) +:+ u.
Proof. induction s as [|a s IH]; simpl; [done|by rewrite IH]. Qed.

Lemma str_is_empty_true s : str_is_empty s = true ↔ s = "".
Proof. by destruct s. Qed.

Lemma str_map_app f s t : str_map f (s +:+ t) = str_map f s +:+ str_map f t.
Proof. induction s as [|a s IH]; simpl; [done|by rewrite IH]. Qed.

Lemma to_ascii_lowercase_idemp s :
  to_ascii_lowercase (to_ascii_lowercase s) = to_ascii_lowercase s.
Proof.
  induction s as [|a s IH]; simpl; [done|].
  unfold to_ascii_lowercase in *. simpl. by rewrite ascii_lower_idemp, IH.
Qed.

Lemma to_ascii_lowercase_empty s : to_ascii_lowercase s = "" ↔ s = "".
Proof. by destruct s. Qed.

(** [eq_ignore_ascii_case] is an equivalence. *)
Definition ieq (s t : string) : Prop := eq_ignore_ascii_case s t = true.

Lemma ieq_spec s t : ieq s t ↔ to_ascii_lowercase s = to_ascii_lowercase t.
Proof. apply bool_decide_eq_true. Qed.

#[export] Instance ieq_equivalence : Equivalence ieq.
Proof.
  split.
  - intros s. by apply ieq_spec.
  - intros s t. rewrite !ieq_spec. done.
  - intros s t u. rewrite !ieq_spec. congruence.
Qed.

#[export] Instance ieq_dec s t : Decision (ieq s t).
Proof. unfold ieq. apply _. Defined.

#[export] Instance eq_ignore_ascii_case_proper :
  Proper (ieq ==> ieq ==> eq) eq_ignore_ascii_case.
Proof.
  intros s s' Hs t t' Ht. rewrite ieq_spec in Hs, Ht.
  unfold eq_ignore_ascii_case. by rewrite Hs, Ht.
Qed.

Lemma str_strip_prefix_Some p s t : str_strip_prefix p s = Some t ↔ s = p +:+ t.
Proof.
  revert s. induction p as [|a p IH]; intros s; simpl.
  - split; congruence.
  - destruct s as [|b s]; [done|]. case_decide as Hab.
    + rewrite IH. naive_solver.
    + naive_solver.
Qed.

Lemma starts_with_spec s p : starts_with s p = true ↔ ∃ t, s = p +:+ t.
Proof.
  unfold starts_with. rewrite bool_decide_eq_true. split.
  - intros [t Ht]. exists t. by apply str_strip_prefix_Some.
  - intros [t Ht]. exists t. by apply str_strip_prefix_Some.
Qed.

(** A string without [c]. *)
Definition no_char (c : ascii) (s : string) : Prop := str_contains_char c s = false.

Lemma no_char_nil c : no_char c "".
Proof. done. Qed.

Lemma no_char_cons c a s : no_char c (String a s) ↔ a ≠ c ∧ no_char c s.
Proof.
  unfold no_char, str_contains_char. simpl. rewrite !negb_false_iff, andb_true_iff.
  rewrite negb_true_iff, bool_decide_eq_false. done.
Qed.

Lemma no_char_app c s t : no_char c (s +:+ t) ↔ no_char c s ∧ no_char c t.
Proof.
  induction s as [|a s IH]; simpl.
  - split; [intros ?; split; [apply no_char_nil|done]|naive_solver].
  - rewrite !no_char_cons, IH. naive_solver.
Qed.

Lemma str_split_cons_ne c s : str_split c s ≠ [].
Proof.
  destruct s as [|a s]; simpl; [done|]. case_decide; [done|].
  by destruct (str_split c s).
Qed.

Lemma str_split_no_char c s : no_char c s → str_split c s = [s].
Proof.
  induction s as [|a s IH]; simpl; [done|].
  rewrite no_char_cons. intros [Ha Hs]. rewrite decide_False by done.
  by rewrite IH.
Qed.

Lemma str_split_app c p s : no_char c p → str_split c (p +:+ String c s) = p :: str_split c s.
Proof.
  induction p as [|a p IH]; simpl.
  - intros _. by rewrite decide_True.
  - rewrite no_char_cons. intros [Ha Hp]. rewrite decide_False by done.
    by rewrite IH.
Qed.

Lemma str_split_pieces c s : Forall (no_char c) (str_split c s).
Proof.
  induction s as [|a s IH]; simpl.
  - by repeat constructor.
  - case_decide as Hac; [by constructor|].
    destruct (str_split c s) as [|p ps]; simplify_eq/=.
    + constructor; [|done]. by apply no_char_cons.
    + apply Forall_cons in IH as [Hp Hps]. constructor; [|done]. by apply no_char_cons.
Qed.

(** [split] and [join] are inverse to each other. *)
Lemma str_join_split c s : str_join c (str_split c s) = s.
Proof.
  induction s as [|a s IH]; simpl; [done|].
  pose proof (str_split_cons_ne c s) as Hne.
  case_decide as Hac; subst; destruct (str_split c s) as [|p ps]; simplify_eq/=; try done.
  by destruct ps.
Qed.

Lemma str_split_join c l : l ≠ [] → Forall (no_char c) l → str_split c (str_join c l) = l.
Proof.
  intros Hl H. induction H as [|p ps Hp Hps IH]; [done|].
  destruct ps as [|q ps].
  - by apply str_split_no_char.
  - change (str_join c (p :: q :: ps)) with (p +:+ String c (str_join c (q :: ps))).
    rewrite str_split_app by done. by rewrite IH.
Qed.

Lemma str_split_once_Some c s p q :
  str_split_once c s = Some (p, q) ↔ s = p +:+ String c q ∧ no_char c p.
Proof.
  revert p q. induction s as [|a s IH]; intros p q; simpl.
  - split; [done|]. intros [H _]. by destruct p.
  - case_decide as Hac.
    + subst. split.
      * intros [= <- <-]. by split.
      * intros [H Hp]. destruct p as [|b p]; simplify_eq/=; [done|].
        apply no_char_cons in Hp as [? _]. done.
    + split.
      * destruct (str_split_once c s) as [[p' q']|]; simpl; [|done]. intros [= <- <-].
        destruct (proj1 (IH p' q') eq_refl) as [-> Hp]. split; [done|]. by apply no_char_cons.
      * intros [H Hp]. destruct p as [|b p]; simplify_eq/=.
        apply no_char_cons in Hp as [_ Hp]. by rewrite (proj2 (IH p q) (conj eq_refl Hp)).
Qed.

Lemma str_split_once_None c s : str_split_once c s = None ↔ no_char c s.
Proof.
  induction s as [|a s IH]; simpl; [done|]. rewrite no_char_cons.
  case_decide as Hac; [naive_solver|].
  destruct (str_split_once c s) as [[p q]|]; simpl; naive_solver.
Qed.

Lemma str_rsplit_once_None c s : no_char c s → str_rsplit_once c s = None.
Proof.
  induction s as [|a s IH]; simpl; [done|]. rewrite no_char_cons. intros [Ha Hs].
  rewrite IH by done. by rewrite decide_False.
Qed.

Lemma str_rsplit_once_app c p q : no_char c q → str_rsplit_once c (p +:+ String c q) = Some (p, q).
Proof.
  intros Hq. induction p as [|a p IH]; simpl.
  - by rewrite str_rsplit_once_None, decide_True.
  - by rewrite IH.
Qed.
Lemma str_rsplit_once_Some c s p q : str_rsplit_once c s = Some (p, q) → s = p +:+ String c q ∧ no_char c q.
Proof.
  revert p q. induction s as [|a s IH]; intros p q; cbn; [done|].
  destruct (str_rsplit_once c s) as [[p' q']|] eqn:E.
  - intros [= <- <-]. destruct (IH p' q' eq_refl) as [-> Hq]. done.
  - case_decide as Ha; [|done]. intros [= <- <-]. subst a. split; [done|]. clear IH.
    revert E. induction s as [|b s IH]; [intros _; apply no_char_nil|]. cbn.
    destruct (str_rsplit_once c s) as [[??]|] eqn:E; [done|]. case_decide; [done|]. intros _. apply no_char_cons. auto.
Qed.
Lemma str_rsplit_once_no_char c s : str_rsplit_once c s = None → no_char c s.
Proof.
  induction s as [|a s IH]; [intros _; apply no_char_nil|]. cbn. destruct (str_rsplit_once c s) as [[??]|]; [done|].
  case_decide; [done|]. intros _. apply no_char_cons. auto.
Qed.

Lemma str_split_lowercase c s :
  is_ascii_upper c = false → is_ascii_lower c = false →
  str_split c (to_ascii_lowercase s) = to_ascii_lowercase <$> str_split c s.
Proof.
  intros Hu Hl.
  assert (∀ a, ascii_lower a = c ↔ a = c) as Hc.
  { intros a. split; [|intros ->; unfold ascii_lower; by rewrite Hu].
    intros <-. symmetry. by apply ascii_lower_fix. }
  induction s as [|a s IH]; [done|]. unfold to_ascii_lowercase in *. simpl.
  rewrite (decide_ext _ (a = c)) by apply Hc. rewrite IH.
  case_decide; [done|]. by destruct (str_split c s).
Qed.

(** ** Segments *)

Lemma str_split_app_sep c p q :
  str_split c (p +:+ String c q) = (str_split c p ++ str_split c q)%list.
Proof.
  induction p as [|a p IH]; simpl; [by rewrite decide_True|].
  rewrite IH. case_decide; [done|].
  pose proof (str_split_cons_ne c p). by destruct (str_split c p).
Qed.

Lemma segments_app_sep c p q : segments c (p +:+ String c q) = (segments c p ++ segments c q)%list.
Proof. unfold segments. by rewrite str_split_app_sep, filter_app. Qed.

Lemma segments_nil c : segments c "" = [].
Proof. done. Qed.

Lemma segments_sep c s : segments c (String c s) = segments c s.
Proof. apply (segments_app_sep c "" s). Qed.

Lemma segments_piece c p : no_char c p → p ≠ "" → segments c p = [p].
Proof.
  intros Hp Hne. unfold segments. rewrite str_split_no_char by done.
  rewrite filter_cons_True; [done|]. by destruct p.
Qed.

Lemma segments_pieces c s : Forall (λ p, no_char c p ∧ p ≠ "") (segments c s).
Proof.
  apply Forall_forall. intros p (Hne & Hp)%list_elem_of_filter. split.
  - pose proof (str_split_pieces c s) as H. rewrite Forall_forall in H. auto.
  - by destruct p.
Qed.

Lemma segments_trim_start c s : segments c (trim_start_matches c s) = segments c s.
Proof.
  unfold trim_start_matches. induction s as [|a s IH]; simpl; [done|].
  unfold is_char at 1. case_bool_decide; subst; [by rewrite segments_sep|done].
Qed.

Fixpoint str_repeat (c : ascii) (n : nat) : string :=
  match n with O => "" | S n => String c (str_repeat c n) end.

Lemma trim_end_decomp c s : ∃ n, s = trim_end_matches c s +:+ str_repeat c n.
Proof.
  unfold trim_end_matches. induction s as [|a s [n IH]]; [by exists 0|].
  cbn [trim_end_if]. destruct (trim_end_if (is_char c) s) as [|b t] eqn:E.
  - simpl in IH. unfold is_char. case_bool_decide as Hac; [subst a|].
    + exists (S n). simpl. by rewrite <- IH.
    + exists n. simpl. by rewrite <- IH.
  - exists n. rewrite IH at 1. done.
Qed.

Lemma segments_repeat c n : segments c (str_repeat c n) = [].
Proof. induction n as [|n IH]; simpl; [done|]. by rewrite segments_sep. Qed.

Lemma segments_trim_end c s : segments c (trim_end_matches c s) = segments c s.
Proof.
  destruct (trim_end_decomp c s) as [[|n] Hn]; rewrite Hn at 2; simpl.
  - by rewrite str_app_nil_r.
  - by rewrite segments_app_sep, segments_repeat, app_nil_r.
Qed.

Lemma segments_trim c s : segments c (trim_matches c s) = segments c s.
Proof. unfold trim_matches. by rewrite segments_trim_end, segments_trim_start. Qed.

#[export] Hint Rewrite segments_app_sep segments_sep segments_trim segments_trim_start
  segments_trim_end : segs.

Lemma str_app_inj_l p s t : p +:+ s = p +:+ t → s = t.
Proof. induction p as [|a p IH]; [done|]. intros H. simplify_eq/=. auto. Qed.

(** ** Slices and concatenation *)

Fixpoint str_take (n : nat) (s : string) : string :=
  match n, s with S n, String a s => String a (str_take n s) | _, _ => "" end.
Fixpoint str_drop (n : nat) (s : string) : string :=
  match n, s with S n, String _ s => str_drop n s | _, _ => s end.
Definition str_len (s : string) : Z := Z.of_nat (String.length s).
Definition concat_str (l : list string) : string := foldr String.append "" l.

Lemma str_length_app s t : String.length (s +:+ t) = (String.length s + String.length t)%nat.
Proof. induction s as [|a s IH]; simpl; [done|]. by rewrite IH. Qed.
Lemma str_take_drop n s : str_take n s +:+ str_drop n s = s.
Proof. revert n. induction s as [|a s IH]; intros [|n]; simpl; try done. by rewrite IH. Qed.
Lemma str_take_length n s : String.length (str_take n s) = Nat.min n (String.length s).
Proof. revert n. induction s as [|a s IH]; intros [|n]; simpl; [done..|]. by rewrite IH. Qed.
Lemma str_drop_length n s : String.length (str_drop n s) = (String.length s - n)%nat.
Proof. revert n. induction s as [|a s IH]; intros [|n]; simpl; done || apply IH. Qed.
Lemma str_take_app p s : str_take (String.length p) (p +:+ s) = p.
Proof. induction p as [|a p IH]; simpl; [by destruct s|by rewrite IH]. Qed.
Lemma str_drop_app p s : str_drop (String.length p) (p +:+ s) = s.
Proof. induction p as [|a p IH]; simpl; [by destruct s|done]. Qed.
Lemma str_drop_drop n m s : str_drop n (str_drop m s) = str_drop (m + n) s.
Proof. revert m. induction s as [|a s IH]; intros [|m]; simpl; try done; by destruct n. Qed.
Lemma str_take_all n s : (String.length s ≤ n)%nat → str_take n s = s.
Proof. revert n. induction s as [|a s IH]; intros [|n] Hn; simpl in *; try done; [lia|]. f_equal. apply IH. lia. Qed.
Lemma concat_str_cons s l : concat_str (s :: l) = s +:+ concat_str l.
Proof. reflexivity. Qed.
Lemma concat_str_app l l' : concat_str (l ++ l') = concat_str l +:+ concat_str l'.
Proof. induction l as [|s l IH]; simpl; [done|]. by rewrite IH, str_app_assoc. Qed.
Lemma str_len_app s t : str_len (s +:+ t) = (str_len s + str_len t)%Z.
Proof. unfold str_len. rewrite str_length_app. lia. Qed.
Lemma str_len_nonneg s : (0 ≤ str_len s)%Z.
Proof. unfold str_len. lia. Qed.
