(* ===== verification/Fmt.v ===== *)
(** * Numbers as text

    [format!] of an unsigned integer in a radix, with zero padding, and its
    inverse [from_str_radix] without the width check. *)

From S2P Require Export RustStr.
Local Open Scope string_scope.
Local Open Scope Z_scope.

Definition digit_char (d : Z) : ascii :=
  ascii_of_N (Z.to_N (if decide (d < 10) then 48 + d else 87 + d)).

(** [char::to_digit(radix)] for the radixes 10 and 16 *)
Definition to_digit (radix : Z) (a : ascii) : option Z :=
  let n := Z.of_N (byte_val a) in
  let d := if is_ascii_digit a then Some (n - 48)
           else if is_ascii_lower a then Some (n - 87)
           else if is_ascii_upper a then Some (n - 55) else None in
  d ← d; if decide (d < radix) then Some d else None.

Fixpoint radix_digits (radix : Z) (fuel : nat) (n : Z) (acc : string) : string :=
  match fuel with
  | O => acc
  | S fuel =>
      let acc := String (digit_char (n mod radix)) acc in
      if decide (n < radix) then acc else radix_digits radix fuel (n / radix) acc
  end.
(** Every digit but the last halves the number at least, so its bits are enough fuel. *)
Definition radix_string (radix n : Z) : string := radix_digits radix (S (Z.to_nat (Z.log2 n))) n "".
(** [format!("{}", n)] and [format!("{:x}", n)] *)
Definition dec_string : Z → string := radix_string 10.
Definition hex_string : Z → string := radix_string 16.
(** [format!("{:0w..}", ..)] *)
Definition pad_zero (w : nat) (s : string) : string := str_repeat "0" (w - String.length s) +:+ s.

Fixpoint parse_digits (radix acc : Z) (s : string) : option Z :=
  match s with
  | "" => Some acc
  | String a s' => d ← to_digit radix a; parse_digits radix (acc * radix + d) s'
  end.
(** The digits of a non-empty text; [from_str] of an unsigned integer takes a leading
    [+] too. *)
Definition parse_radix (radix : Z) (s : string) : option Z :=
  if str_is_empty s then None else parse_digits radix 0 s.
Definition parse_unsigned (bits : Z) (s : string) : option Z :=
  let s := match s with String "+" s' => s' | _ => s end in
  n ← parse_radix 10 s; if decide (n < 2 ^ bits) then Some n else None.

(** The text of a signed integer. *)
Definition z_string (z : Z) : string := if z <? 0 then "-" +:+ dec_string (- z) else dec_string z.
(** [from_str] of a signed integer *)
Definition parse_signed (bits : Z) (s : string) : option Z :=
  match s with
  | String "-" s' => n ← parse_radix 10 s'; if decide (n ≤ 2 ^ (bits - 1)) then Some (- n) else None
  | _ => parse_unsigned (bits - 1) s
  end.

Example dec_string_ex : (dec_string 0, dec_string 65535, hex_string 255) = ("0", "65535", "ff").
Proof. reflexivity. Qed.

Lemma to_digit_char radix d : 0 ≤ d < radix → radix ≤ 16 → to_digit radix (digit_char d) = Some d.
Proof.
  intros Hd Hr.
  assert (Hall : forallb (λ n, match to_digit 16 (digit_char n) with Some m => (m =? n) | None => false end) (seqZ 0 16) = true)
    by reflexivity.
  apply forallb_Forall in Hall. rewrite Forall_forall in Hall.
  specialize (Hall d). rewrite elem_of_seqZ in Hall. specialize (Hall ltac:(lia)).
  destruct (to_digit 16 _) as [m|] eqn:E; [|done]. apply Z.eqb_eq in Hall as ->.
  revert E. unfold to_digit.
  destruct (is_ascii_digit _); [|destruct (is_ascii_lower _); [|destruct (is_ascii_upper _); [|done]]];
    cbn [mbind option_bind]; case_decide; intros [= ->]; by rewrite decide_True by lia.
Qed.

(** Writing the digits of [n] before [acc], then reading them: the reader arrives at
    [acc] with [n] appended to what it had. *)
Lemma parse_radix_digits radix fuel n acc a :
  2 ≤ radix ≤ 16 → 0 ≤ n → (n < 2 ^ Z.of_nat fuel) →
  ∃ k, parse_digits radix a (radix_digits radix fuel n acc) = parse_digits radix (a * k + n) acc.
Proof.
  intros Hr. revert n acc a. induction fuel as [|fuel IH]; intros n acc a Hn Hf.
  - exists 1. simpl in *. f_equal. lia.
  - cbn [radix_digits]. case_decide as Hlt.
    + exists radix. cbn [parse_digits]. rewrite (Z.mod_small n) by lia.
      rewrite to_digit_char by lia. done.
    + destruct (IH (n / radix) (String (digit_char (n mod radix)) acc) a) as [k Hk].
      * apply Z.div_pos; lia.
      * apply Z.div_lt_upper_bound; [lia|].
        rewrite Nat2Z.inj_succ, Z.pow_succ_r in Hf by lia. nia.
      * exists (k * radix). rewrite Hk. cbn [parse_digits].
        rewrite to_digit_char by (pose proof (Z.mod_pos_bound n radix); lia).
        cbn [mbind option_bind]. f_equal. pose proof (Z.div_mod n radix). nia.
Qed.

Lemma radix_digits_ne radix fuel n acc : fuel ≠ O → radix_digits radix fuel n acc ≠ "".
Proof.
  revert n acc. induction fuel as [|fuel IH]; intros n acc Hf; [done|].
  cbn [radix_digits]. case_decide; [done|]. destruct fuel; [done|]. by apply IH.
Qed.

Lemma log2_fuel n : 0 ≤ n → n < 2 ^ Z.of_nat (S (Z.to_nat (Z.log2 n))).
Proof.
  intros Hn. rewrite Nat2Z.inj_succ, Z2Nat.id by apply Z.log2_nonneg.
  destruct (decide (n = 0)) as [->|]; [done|]. apply Z.log2_spec. lia.
Qed.

(** Reading back what was written. *)
Lemma parse_radix_string radix n : 2 ≤ radix ≤ 16 → 0 ≤ n → parse_radix radix (radix_string radix n) = Some n.
Proof.
  intros Hr Hn. unfold parse_radix, radix_string.
  destruct (str_is_empty _) eqn:E; [apply str_is_empty_true, radix_digits_ne in E; done|].
  destruct (parse_radix_digits radix (S (Z.to_nat (Z.log2 n))) n "" 0 Hr Hn (log2_fuel n Hn)) as [k ->].
  simpl. f_equal; lia.
Qed.

Lemma parse_digits_zeros radix k s : 2 ≤ radix ≤ 16 → parse_digits radix 0 (str_repeat "0" k +:+ s) = parse_digits radix 0 s.
Proof.
  intros Hr. induction k as [|k IH]; simpl; [done|].
  change (to_digit radix "0") with (to_digit radix (digit_char 0)). rewrite to_digit_char by lia.
  cbn [mbind option_bind]. by rewrite <- IH.
Qed.

Lemma parse_radix_pad radix w n :
  2 ≤ radix ≤ 16 → 0 ≤ n → parse_radix radix (pad_zero w (radix_string radix n)) = Some n.
Proof.
  intros Hr Hn. pose proof (parse_radix_string radix n Hr Hn) as H. unfold parse_radix in *.
  destruct (str_is_empty (radix_string radix n)) eqn:E; [done|].
  unfold pad_zero. destruct (str_is_empty (_ +:+ _)) eqn:E'.
  - apply str_is_empty_true in E'. destruct (w - _)%nat; simpl in E'; [by rewrite E' in E|done].
  - by rewrite parse_digits_zeros.
Qed.

Lemma radix_digits_length radix fuel n acc w :
  2 ≤ radix → 0 ≤ n → n < radix ^ Z.of_nat w → (1 ≤ w)%nat →
  (String.length (radix_digits radix fuel n acc) ≤ w + String.length acc)%nat.
Proof.
  intros Hr. revert n acc w. induction fuel as [|fuel IH]; intros n acc w Hn Hlt Hw; cbn [radix_digits]; [lia|].
  case_decide; [simpl; lia|]. destruct w as [|[|w]]; [lia|simpl in Hlt; lia|].
  pose proof (IH (n / radix) (String (digit_char (n mod radix)) acc) (S w)) as IH'.
  simpl String.length in *. rewrite IH'; [lia|by apply Z.div_pos; lia| |lia].
  apply Z.div_lt_upper_bound; [lia|]. rewrite Nat2Z.inj_succ, Z.pow_succ_r in Hlt by lia. lia.
Qed.

Lemma str_repeat_length c n : String.length (str_repeat c n) = n.
Proof. induction n as [|n IH]; simpl; [done|by rewrite IH]. Qed.

(** A number that fits in [w] digits is written in exactly [w]. *)
Lemma pad_zero_length radix w n :
  2 ≤ radix → 0 ≤ n < radix ^ Z.of_nat w → (1 ≤ w)%nat →
  String.length (pad_zero w (radix_string radix n)) = w.
Proof.
  intros Hr [Hn Hlt] Hw. unfold pad_zero. rewrite str_length_app, str_repeat_length.
  pose proof (radix_digits_length radix (S (Z.to_nat (Z.log2 n))) n "" w Hr Hn Hlt Hw).
  unfold radix_string in *. simpl String.length in *. lia.
Qed.

Lemma parse_z_string bits n : 0 ≤ n < 2 ^ bits → parse_unsigned bits (z_string n) = Some n.
Proof.
  intros Hn. unfold z_string. rewrite (proj2 (Z.ltb_ge n 0)) by lia. unfold parse_unsigned.
  pose proof (parse_radix_string 10 n ltac:(lia) ltac:(lia)) as Hp. fold (dec_string n) in Hp.
  assert (match dec_string n with String "+" s' => s' | _ => dec_string n end = dec_string n) as ->.
  { destruct (dec_string n) as [|a s]; [done|].
    destruct (decide (a = "+"%char)) as [->|Ha]; [discriminate Hp|].
    destruct a as [[] [] [] [] [] [] [] []]; done. }
  rewrite Hp. simpl. by rewrite decide_True by lia.
Qed.

Lemma str_app_inj_r p q s : p +:+ s = q +:+ s → p = q.
Proof.
  revert q. induction p as [|a p IH]; intros [|b q]; simpl; intros E; [done|..].
  1, 2: exfalso; apply (f_equal String.length) in E; simpl in E; rewrite str_length_app in E; lia.
  injection E as -> E. f_equal. auto.
Qed.

Lemma to_digit_10 a d : to_digit 10 a = Some d → is_ascii_digit a = true.
Proof.
  pose (P a := implb (bool_decide (is_Some (to_digit 10 a))) (is_ascii_digit a)).
  assert (P a = true) as HP by (apply byte_forallb; by vm_compute).
  unfold P in HP. intros Ha. rewrite bool_decide_eq_true_2 in HP by (by eexists). done.
Qed.
Lemma dec_string_head n a s : 0 ≤ n → dec_string n = String a s → is_ascii_digit a = true.
Proof.
  intros Hn Heq. pose proof (parse_radix_string 10 n ltac:(lia) Hn) as Hp. fold (dec_string n) in Hp.
  rewrite Heq in Hp. unfold parse_radix in Hp. cbn [str_is_empty parse_digits] in Hp.
  destruct (to_digit 10 a) eqn:E; [by eapply to_digit_10|done].
Qed.
Lemma parse_signed_z_string bits n : 0 < bits → in_signed bits n → parse_signed bits (z_string n) = Some n.
Proof.
  intros Hb [Hlo Hhi]. destruct (Z.ltb_spec n 0) as [Hn|Hn].
  - unfold z_string. rewrite (proj2 (Z.ltb_lt n 0)) by lia. cbn [String.append parse_signed].
    unfold dec_string. rewrite parse_radix_string by lia. simpl. rewrite decide_True by lia. f_equal. lia.
  - rewrite <- (parse_z_string (bits - 1) n) by lia. unfold z_string. rewrite (proj2 (Z.ltb_ge n 0)) by lia.
    destruct (dec_string n) as [|a s] eqn:E; [done|]. pose proof (dec_string_head n a s Hn E) as Ha.
    by destruct a as [[] [] [] [] [] [] [] []].
Qed.
