(* ===== verification/Utf8.v ===== *)
(** * UTF-8

    [std::str::from_utf8] and [String::from_utf8_lossy]: the bytes are cut into characters and
    into maximal prefixes of characters that break off, and each of these becomes U+FFFD. *)

From S2P Require Export Fmt.
Local Open Scope string_scope.
Local Open Scope list_scope.

(** The number of bytes of the character that begins with the byte, 0 if none does. *)
Definition utf8_char_width (a : ascii) : nat :=
  let b := byte_val a in
  if (b <? 128)%N then 1 else if (b <? 194)%N then 0 else if (b <? 224)%N then 2
  else if (b <? 240)%N then 3 else if (b <? 245)%N then 4 else 0.
Definition is_cont (a : ascii) : bool := ((128 <=? byte_val a) && (byte_val a <? 192))%N.
(** The second byte of a character, given the first. *)
Definition second_ok (a b : ascii) : bool :=
  let x := byte_val a in let y := byte_val b in
  (is_cont b && (if x =? 224 then 160 <=? y else if x =? 237 then y <? 160
                 else if x =? 240 then 144 <=? y else if x =? 244 then y <? 144 else true))%N.

(** The next chunk of [String a s]: whether it is a character, its bytes, and the rest. *)
Definition utf8_next (a : ascii) (s : string) : bool * string * string :=
  let bad := (false, String a "", s) in
  match utf8_char_width a, s with
  | 1, _ => (true, String a "", s)
  | 2, String b s1 => if second_ok a b then (true, String a (String b ""), s1) else bad
  | 3, String b s1 =>
      if second_ok a b then
        match s1 with
        | String c s2 => if is_cont c then (true, String a (String b (String c "")), s2)
                         else (false, String a (String b ""), s1)
        | "" => (false, String a (String b ""), s1)
        end
      else bad
  | 4, String b s1 =>
      if second_ok a b then
        match s1 with
        | String c s2 =>
            if is_cont c then
              match s2 with
              | String d s3 => if is_cont d then (true, String a (String b (String c (String d ""))), s3)
                               else (false, String a (String b (String c "")), s2)
              | "" => (false, String a (String b (String c "")), s2)
              end
            else (false, String a (String b ""), s1)
        | "" => (false, String a (String b ""), s1)
        end
      else bad
  | _, _ => bad
  end.

Fixpoint utf8_chunks_fuel (fuel : nat) (s : string) : list (bool * string) :=
  match fuel, s with
  | S n, String a s' => let '(ok, c, rest) := utf8_next a s' in (ok, c) :: utf8_chunks_fuel n rest
  | _, _ => []
  end.
Definition utf8_chunks (s : string) : list (bool * string) := utf8_chunks_fuel (String.length s) s.

Definition REPLACEMENT : string :=
  String (ascii_of_nat 239) (String (ascii_of_nat 191) (String (ascii_of_nat 189) "")).

(** [String::from_utf8_lossy] and [std::str::from_utf8] *)
Definition from_utf8_lossy (s : string) : string :=
  concat_str ((λ c, if c.1 : bool then c.2 else REPLACEMENT) <$> utf8_chunks s).
Definition utf8_valid (s : string) : bool := forallb fst (utf8_chunks s).

(** ** Theory *)

Lemma utf8_next_split a s ok c rest : utf8_next a s = (ok, c, rest) →
  String a s = c +:+ rest ∧ (String.length rest ≤ String.length s)%nat.
Proof. unfold utf8_next. intros. repeat case_match; simplify_eq/=; split; done || lia. Qed.

(** A character is cut off whatever follows it. *)
Lemma utf8_next_good a s c rest t : utf8_next a s = (true, c, rest) →
  ∃ c', c = String a c' ∧ utf8_next a (c' +:+ t) = (true, c, t).
Proof.
  unfold utf8_next. intros. repeat case_match; simplify_eq/=;
    eexists; (split; [reflexivity|]); simpl; repeat case_match; simplify_eq/=; done.
Qed.

Lemma utf8_chunks_fuel_enough n m s : (String.length s ≤ n)%nat → (String.length s ≤ m)%nat →
  utf8_chunks_fuel n s = utf8_chunks_fuel m s.
Proof.
  revert m s. induction n as [|n IH]; intros [|m] [|a s]; simpl; try done; try lia. intros.
  destruct (utf8_next a s) as [[ok c] rest] eqn:Hn. apply utf8_next_split in Hn as [_ ?].
  f_equal. apply IH; lia.
Qed.

Lemma utf8_chunks_cons a s ok c rest : utf8_next a s = (ok, c, rest) →
  utf8_chunks (String a s) = (ok, c) :: utf8_chunks rest.
Proof.
  intros Hn. unfold utf8_chunks. simpl. rewrite Hn. f_equal.
  apply utf8_next_split in Hn as [_ ?]. apply utf8_chunks_fuel_enough; lia.
Qed.

Lemma utf8_ind (P : string → Prop) :
  P "" →
  (∀ a s ok c rest, utf8_next a s = (ok, c, rest) →
    utf8_chunks (String a s) = (ok, c) :: utf8_chunks rest → P rest → P (String a s)) →
  ∀ s, P s.
Proof.
  intros Hnil Hcons s. remember (String.length s) as n eqn:Hlen. revert s Hlen.
  induction (lt_wf n) as [n _ IH]. intros [|a s] ->; [done|].
  destruct (utf8_next a s) as [[ok c] rest] eqn:Hn.
  eapply Hcons; [done|by apply utf8_chunks_cons|].
  apply utf8_next_split in Hn as [_ ?]. eapply IH; [|done]. simpl. lia.
Qed.

Lemma utf8_chunks_concat s : concat_str (utf8_chunks s).*2 = s.
Proof.
  induction s as [|a s ok c rest Hn E IH] using utf8_ind; [done|]. rewrite E. cbn [fmap list_fmap concat_str foldr].
  fold (concat_str (utf8_chunks rest).*2). rewrite IH. by apply utf8_next_split in Hn as [-> _].
Qed.

(** A text that is UTF-8 is not changed by the lossy conversion. *)
Lemma from_utf8_lossy_valid s : utf8_valid s = true → from_utf8_lossy s = s.
Proof.
  unfold utf8_valid, from_utf8_lossy. rewrite forallb_Forall. intros Hall.
  rewrite <- (utf8_chunks_concat s) at 2. f_equal. induction Hall as [|[[] c] l]; simplify_eq/=; [done|].
  by f_equal.
Qed.

Lemma utf8_valid_app_good a s c rest t : utf8_next a s = (true, c, rest) →
  utf8_valid (c +:+ t) = utf8_valid t.
Proof.
  intros Hn. destruct (utf8_next_good _ _ _ _ t Hn) as (c'&->&Hn'). unfold utf8_valid. simpl.
  by rewrite (utf8_chunks_cons _ _ _ _ _ Hn').
Qed.

(** The lossy conversion gives UTF-8, so a second one has no effect. *)
Lemma from_utf8_lossy_is_valid s : utf8_valid (from_utf8_lossy s) = true.
Proof.
  unfold from_utf8_lossy. induction s as [|a s ok c rest Hn E IH] using utf8_ind; [done|].
  rewrite E, fmap_cons. cbn [concat_str foldr fst snd].
  fold (concat_str ((λ c, if c.1 : bool then c.2 else REPLACEMENT) <$> utf8_chunks rest)).
  destruct ok.
  - by rewrite (utf8_valid_app_good _ _ _ _ _ Hn).
  - rewrite (utf8_valid_app_good (ascii_of_nat 239) (String (ascii_of_nat 191) (String (ascii_of_nat 189) ""))
      REPLACEMENT ""); [done|reflexivity].
Qed.

Lemma from_utf8_lossy_idemp s : from_utf8_lossy (from_utf8_lossy s) = from_utf8_lossy s.
Proof. apply from_utf8_lossy_valid, from_utf8_lossy_is_valid. Qed.

Lemma str_forallb_lossy s : str_forallb (λ a, (byte_val a <? 128)%N) s = true → utf8_valid s = true.
Proof.
  induction s as [|a s IH]; [done|]. simpl. intros [Ha Hs]%andb_true_iff.
  assert (utf8_next a s = (true, String a "", s)) as Hn.
  { unfold utf8_next, utf8_char_width. by rewrite Ha. }
  change (String a s) with (String a "" +:+ s). rewrite (utf8_valid_app_good _ _ _ _ _ Hn). by apply IH.
Qed.
