(* ===== verification/BTree.v ===== *)
(** * Ordered maps

    [std::collections::BTreeMap]: an association list in ascending key order.
    [get], [insert], [entry(k).or_default()] and [values] are the operations the
    source uses; [values] visits the entries in key order. *)

From Stdlib Require Import OrdersEx.
From S2P Require Export Prelude.

(** The strict order of the key type ([Ord]). *)
Class KeyOrd (K : Type) := key_ltb : K → K → bool.

#[export] Instance key_ord_Z : KeyOrd Z := Z.ltb.
#[export] Instance key_ord_string : KeyOrd string := String.ltb.

Section btree.
Context {K : Type} `{EqDecision K, KeyOrd K}.
Context {V : Type}.
Implicit Types (m : list (K * V)) (k : K) (v : V).

Fixpoint bt_get (k : K) (m : list (K * V)) : option V :=
  match m with
  | [] => None
  | (k', v) :: m' => if decide (k = k') then Some v else bt_get k m'
  end.

Fixpoint bt_insert (k : K) (v : V) (m : list (K * V)) : list (K * V) :=
  match m with
  | [] => [(k, v)]
  | (k', v') :: m' =>
      if decide (k = k') then (k, v) :: m'
      else if key_ltb k k' then (k, v) :: m
      else (k', v') :: bt_insert k v m'
  end.

(** The write through [get_mut(k)]: the entry is updated in place. *)
Fixpoint bt_modify (f : V → V) (k : K) (m : list (K * V)) : list (K * V) :=
  match m with
  | [] => []
  | (k', v) :: m' => if decide (k = k') then (k', f v) :: m' else (k', v) :: bt_modify f k m'
  end.

Definition bt_values (m : list (K * V)) : list V := snd <$> m.

Lemma bt_get_insert_eq k v m : bt_get k (bt_insert k v m) = Some v.
Proof.
  induction m as [|[k' v'] m IH]; simpl; [by rewrite decide_True|].
  case_decide; simpl; [by rewrite decide_True|].
  destruct (key_ltb k k'); simpl; [by rewrite decide_True|].
  by rewrite decide_False.
Qed.

Lemma bt_get_insert_ne k k' v m : k ≠ k' → bt_get k' (bt_insert k v m) = bt_get k' m.
Proof.
  intros Hk. induction m as [|[k2 v2] m IH]; simpl; [by rewrite decide_False|].
  case_decide; subst; simpl; [by rewrite !(decide_False (P := k' = k2)) by done|].
  destruct (key_ltb k k2); simpl.
  - by rewrite (decide_False (P := k' = k)).
  - by rewrite IH.
Qed.

Lemma bt_get_insert k k' v m :
  bt_get k' (bt_insert k v m) = if decide (k = k') then Some v else bt_get k' m.
Proof. case_decide; subst; [apply bt_get_insert_eq|by apply bt_get_insert_ne]. Qed.

Lemma bt_get_modify f k k' m :
  bt_get k' (bt_modify f k m) = if decide (k = k') then f <$> bt_get k' m else bt_get k' m.
Proof.
  induction m as [|[k2 v2] m IH]; simpl; [by case_decide|].
  repeat (case_decide; simplify_eq/=); try done; by rewrite IH, ?decide_True, ?decide_False.
Qed.

(** The updates of one entry commute with a pointwise property of the values. *)
Lemma bt_insert_Forall (P : K * V → Prop) k v m :
  P (k, v) → Forall P m → Forall P (bt_insert k v m).
Proof.
  intros Hv. induction 1 as [|[k' v'] m Hx Hm IH]; simpl; [by constructor|].
  case_decide; [by constructor|]. destruct (key_ltb k k'); by repeat constructor.
Qed.

Lemma bt_modify_Forall (P : K * V → Prop) f k m :
  (∀ k' v, P (k', v) → P (k', f v)) → Forall P m → Forall P (bt_modify f k m).
Proof.
  intros Hf. induction 1 as [|[k' v'] m Hx Hm IH]; simpl; [done|].
  case_decide; constructor; auto.
Qed.

Lemma bt_get_elem k v m : bt_get k m = Some v → (k, v) ∈ m.
Proof.
  induction m as [|[k' v'] m IH]; simpl; [done|].
  case_decide; intros; simplify_eq; [left|right; auto].
Qed.
End btree.

(** ** The order of the entries *)

Class KeyOrdLaws (K : Type) `{KeyOrd K} : Prop := {
  key_ltb_irrefl k : key_ltb k k = false;
  key_ltb_trans a b c : key_ltb a b = true → key_ltb b c = true → key_ltb a c = true;
  key_ltb_total a b : key_ltb a b = false → a = b ∨ key_ltb b a = true;
}.

#[export] Instance key_ord_string_laws : KeyOrdLaws string.
Proof.
  assert (∀ a b, key_ltb a b = true ↔ String_as_OT.lt a b) as Hlt.
  { intros a b. unfold key_ltb, key_ord_string, String.ltb, String_as_OT.lt.
    assert (String.compare a b = String_as_OT.compare a b) as ->; [|by destruct (String_as_OT.compare a b)].
    revert b. induction a as [|x a IH]; intros [|y b]; simpl; try done. }
  split.
  - intros k. destruct (key_ltb k k) eqn:E; [|done]. apply Hlt in E. exfalso. by eapply (@irreflexivity _ String_as_OT.lt _ k).
  - intros a b c Hab Hbc. apply Hlt. transitivity b; by apply Hlt.
  - intros a b Hab. pose proof (String_as_OT.compare_spec a b) as Hc. inversion Hc as [?|Hl|Hl]; [by left| |].
    + apply Hlt in Hl. congruence.
    + right. by apply Hlt.
Qed.

Lemma NoDup_fmap_fst_eq {A B} (l : list (A * B)) k v v' :
  NoDup l.*1 → (k, v) ∈ l → (k, v') ∈ l → v = v'.
Proof.
  induction l as [|[k2 v2] l IH]; simpl; [set_solver|]. intros Hl. inversion Hl as [|?? Hk Hl']; subst.
  assert (∀ w, (k2, w) ∈ l → False) as Hno.
  { intros w Hw. apply Hk, list_elem_of_fmap. by exists (k2, w). }
  intros [Heq|Hin]%elem_of_cons [Heq'|Hin']%elem_of_cons; simplify_eq; naive_solver.
Qed.

Section sorted.
Context {K : Type} `{EqDecision K, KeyOrdLaws K} {V : Type}.
Implicit Types (m : list (K * V)) (k : K) (v : V).

Definition bt_sorted m : Prop := StronglySorted (λ a b, key_ltb a.1 b.1 = true) m.

Lemma bt_insert_key_lt k0 k v m :
  key_ltb k0 k = true → Forall (λ b, key_ltb k0 b.1 = true) m →
  Forall (λ b, key_ltb k0 b.1 = true) (bt_insert k v m).
Proof. intros Hk Hm. by apply (bt_insert_Forall (λ b, key_ltb k0 b.1 = true)). Qed.

Lemma bt_insert_sorted k v m : bt_sorted m → bt_sorted (bt_insert k v m).
Proof.
  induction 1 as [|[k' v'] m Hm IH Hk']; simpl; [by repeat constructor|].
  case_decide; subst; [by constructor|]. destruct (key_ltb k k') eqn:E.
  - constructor; [by constructor|]. constructor; [done|]. eapply Forall_impl; [exact Hk'|].
    intros b Hb. by eapply key_ltb_trans.
  - constructor; [done|]. simpl in *. apply bt_insert_key_lt; [|done].
    apply key_ltb_total in E as [->|?]; done.
Qed.

Lemma bt_insert_last k v m :
  Forall (λ b, key_ltb b.1 k = true) m → bt_insert k v m = m ++ [(k, v)].
Proof.
  induction 1 as [|[k' v'] m Hk' Hm IH]; simpl in *; [done|].
  case_decide; subst; [by rewrite key_ltb_irrefl in Hk'|].
  destruct (key_ltb k k') eqn:E; [|by rewrite IH].
  pose proof (key_ltb_trans k k' k E Hk') as Hkk. by rewrite key_ltb_irrefl in Hkk.
Qed.

(** Inserting the entries of a map in order gives the map. *)
Lemma bt_rebuild m : bt_sorted m → foldl (λ m kv, bt_insert kv.1 kv.2 m) [] m = m.
Proof.
  intros Hm. enough (∀ m0, bt_sorted (m0 ++ m) → foldl (λ m kv, bt_insert kv.1 kv.2 m) m0 m = m0 ++ m) as Hr
    by by apply (Hr []).
  clear Hm. induction m as [|[k v] m IH]; intros m0 Hs; simpl; [by rewrite app_nil_r|].
  rewrite bt_insert_last.
  - rewrite IH; by rewrite <- app_assoc.
  - clear IH. induction m0 as [|b m0 IH]; constructor; inversion Hs as [|?? Hs' Hb]; subst; auto.
    apply Forall_app in Hb as [_ Hb]. by apply Forall_cons in Hb as [? _].
Qed.

(** [collect] into a [BTreeMap] *)
Definition bt_collect_from m (l : list (K * V)) : list (K * V) := foldl (λ m kv, bt_insert kv.1 kv.2 m) m l.
Definition bt_collect (l : list (K * V)) : list (K * V) := bt_collect_from [] l.

Lemma bt_collect_sorted m l : bt_sorted m → bt_sorted (bt_collect_from m l).
Proof.
  revert m. induction l as [|kv l IH]; intros m Hm; simpl; [done|]. by apply IH, bt_insert_sorted.
Qed.

Lemma bt_get_collect_from m l k :
  NoDup l.*1 →
  bt_get k (bt_collect_from m l) =
  match snd <$> find (λ kv, bool_decide (kv.1 = k)) l with Some v => Some v | None => bt_get k m end.
Proof.
  revert m. induction l as [|[k' v] l IH]; intros m Hl; simpl; [done|].
  inversion Hl as [|?? Hk' Hl']; subst. rewrite IH by done.
  case_bool_decide; subst; simpl.
  - assert (find (λ kv, bool_decide (kv.1 = k)) l = None) as ->; [|by rewrite bt_get_insert_eq].
    destruct (find _ l) as [[k2 v2]|] eqn:E; [|done]. exfalso. apply Hk'.
    apply find_some in E as [Hin Hk]. apply bool_decide_eq_true in Hk. simpl in Hk. subst.
    apply list_elem_of_fmap. exists (k, v2). split; [done|]. by apply list_elem_of_In.
  - destruct (find _ l) as [[]|]; [done|]. by rewrite bt_get_insert_ne.
Qed.

Lemma bt_get_collect l k v : NoDup l.*1 → bt_get k (bt_collect l) = Some v ↔ (k, v) ∈ l.
Proof.
  intros Hl. unfold bt_collect. rewrite bt_get_collect_from by done. simpl. split.
  - destruct (find _ l) as [[k2 v2]|] eqn:E; simpl; [|done]. intros [= <-].
    apply find_some in E as [Hin Hk]. apply bool_decide_eq_true in Hk. simpl in Hk. subst.
    by apply list_elem_of_In.
  - intros Hin. destruct (find _ l) as [[k2 v2]|] eqn:E; simpl.
    + apply find_some in E as [Hin' Hk]. apply bool_decide_eq_true in Hk. simpl in Hk. subst.
      apply list_elem_of_In in Hin'. f_equal.
      by apply (NoDup_fmap_fst_eq l k).
    + exfalso. apply list_elem_of_In in Hin. apply (find_none _ _ E) in Hin. by rewrite bool_decide_true in Hin.
Qed.

Lemma bt_get_lt k m : Forall (λ b, key_ltb k b.1 = true) m → bt_get k m = None.
Proof.
  induction 1 as [|[k' v'] m Hk' Hm IH]; simpl in *; [done|].
  rewrite decide_False; [done|]. intros ->. by rewrite key_ltb_irrefl in Hk'.
Qed.

(** An entry is found under its key. *)
Lemma bt_elem_get k v m : bt_sorted m → (k, v) ∈ m → bt_get k m = Some v.
Proof.
  induction 1 as [|[k' v'] m Hm IH Hk']; [set_solver|]. intros [Heq|Hin]%elem_of_cons; simpl.
  - simplify_eq. by rewrite decide_True.
  - rewrite decide_False; [auto|]. intros ->. rewrite Forall_forall in Hk'.
    specialize (Hk' _ Hin). simpl in Hk'. by rewrite key_ltb_irrefl in Hk'.
Qed.

(** A map is determined by its lookups. *)
Lemma bt_ext m m' : bt_sorted m → bt_sorted m' → (∀ k, bt_get k m = bt_get k m') → m = m'.
Proof.
  intros Hm. revert m'. induction Hm as [|[k v] m Hm IH Hk]; intros m' Hm' Hget.
  - destruct m' as [|[k' v'] m']; [done|]. specialize (Hget k'). simpl in Hget. by rewrite decide_True in Hget.
  - destruct Hm' as [|[k' v'] m' Hm' Hk'].
    { specialize (Hget k). simpl in Hget. by rewrite decide_True in Hget. }
    assert (k = k') as <-.
    { pose proof (Hget k) as H1. pose proof (Hget k') as H2. simpl in *.
      rewrite decide_True in H1 by done. rewrite (decide_True (P := k' = k')) in H2 by done.
      destruct (decide (k = k')) as [|Hne]; [done|].
      rewrite (decide_False (P := k' = k)) in H2 by done.
      assert (key_ltb k' k = true) as Hlt.
      { symmetry in H1. apply bt_get_elem in H1. rewrite Forall_forall in Hk'. by apply (Hk' _ H1). }
      assert (key_ltb k k' = true) as Hgt.
      { apply bt_get_elem in H2. rewrite Forall_forall in Hk. by apply (Hk _ H2). }
      pose proof (key_ltb_trans _ _ _ Hlt Hgt) as Hkk. by rewrite key_ltb_irrefl in Hkk. }
    pose proof (Hget k) as Hv. simpl in Hv. rewrite !decide_True in Hv by done. simplify_eq.
    f_equal. apply IH; [done|]. intros k'. specialize (Hget k'). simpl in Hget.
    case_decide; [|done]. subst. by rewrite !bt_get_lt.
Qed.
End sorted.

#[export] Hint Rewrite @bt_get_insert_eq : spacegate.
#[export] Hint Resolve bt_insert_Forall : spacegate.
