(* ===== verification/Trim.v ===== *)
(** * Trimming

    [str::trim], which removes the characters of [char::is_whitespace] at both ends; on the
    bytes of the text these are the UTF-8 forms [WHITESPACE]. *)

From S2P Require Export Fmt.
Local Open Scope string_scope.
Local Open Scope list_scope.
Local Open Scope nat_scope.

(** The characters of [char::is_whitespace], in UTF-8. *)
Definition bytes_string (l : list nat) : string := foldr (λ n s, String (ascii_of_nat n) s) "" l.
Definition WHITESPACE : list string := bytes_string <$>
  ((λ n, [n]) <$> [9; 10; 11; 12; 13; 32]) ++ [[194; 133]; [194; 160]; [225; 154; 128]] ++
  ((λ n, [226; 128; n]) <$> seq 128 11 ++ [168; 169; 175]) ++ [[226; 129; 159]; [227; 128; 128]].

Fixpoint trim_start_any (fuel : nat) (ps : list string) (s : string) : string :=
  match fuel with
  | O => s
  | S fuel =>
      match find_map (λ p, str_strip_prefix p s) ps with
      | Some s' => trim_start_any fuel ps s'
      | None => s
      end
  end.
(** [str::trim]; every step removes a byte, so the length is enough fuel. *)
Definition trim_start_ws (s : string) : string := trim_start_any (String.length s) WHITESPACE s.
Definition trim_end_ws (s : string) : string :=
  str_rev (trim_start_any (String.length s) (str_rev <$> WHITESPACE) (str_rev s)).
Definition str_trim (s : string) : string := trim_end_ws (trim_start_ws s).

Lemma str_rev_app_spec s acc : str_rev_app s acc = str_rev s +:+ acc.
Proof.
  unfold str_rev. revert acc. induction s as [|a s IH]; intros acc; simpl; [done|].
  rewrite (IH (String a acc)), (IH (String a "")). by rewrite <- str_app_assoc.
Qed.
Lemma str_rev_append s t : str_rev (s +:+ t) = str_rev t +:+ str_rev s.
Proof.
  induction s as [|a s IH]; cbn [String.append].
  - change (str_rev "") with "". by rewrite str_app_nil_r.
  - unfold str_rev at 1 3. cbn [str_rev_app]. rewrite !str_rev_app_spec, IH. by rewrite str_app_assoc.
Qed.
Lemma str_rev_involutive s : str_rev (str_rev s) = s.
Proof.
  induction s as [|a s IH]; [done|]. unfold str_rev at 2. simpl.
  rewrite str_rev_app_spec, str_rev_append, IH. done.
Qed.
(** No text of [ps] is a prefix of [s]. *)
Definition unprefixed (ps : list string) (s : string) : Prop := find_map (λ p, str_strip_prefix p s) ps = None.

Lemma unprefixed_spec ps s : unprefixed ps s ↔ Forall (λ p, ∀ t, s ≠ p +:+ t) ps.
Proof.
  unfold unprefixed. rewrite find_map_None. apply Forall_proper; [|done]. intros p.
  destruct (str_strip_prefix p s) as [t|] eqn:E.
  - split; [done|]. intros Hp. apply str_strip_prefix_Some in E. by destruct (Hp t).
  - split; [|done]. intros _ t Ht. apply str_strip_prefix_Some in Ht. congruence.
Qed.

Lemma trim_start_any_id n ps s : unprefixed ps s → trim_start_any n ps s = s.
Proof. unfold unprefixed. intros Hs. destruct n; simpl; [done|]. by rewrite Hs. Qed.

Lemma trim_start_any_spec n ps s :
  Forall (λ p, p ≠ "") ps → String.length s ≤ n →
  unprefixed ps (trim_start_any n ps s) ∧ ∃ p, s = p +:+ trim_start_any n ps s.
Proof.
  intros Hps. revert s. induction n as [|n IH]; intros s Hn; simpl.
  - destruct s; simpl in Hn; [|lia]. split; [|by exists ""]. apply unprefixed_spec.
    eapply Forall_impl; [exact Hps|]. intros [] ? t; [done|]. done.
  - destruct (find_map _ ps) as [s'|] eqn:E; [|split; [done|by exists ""]].
    apply find_map_Some in E as (l1&p&l2&->&Hp&_). apply str_strip_prefix_Some in Hp. subst s.
    apply Forall_app in Hps as [_ Hp]. apply Forall_cons in Hp as [Hp _].
    rewrite str_length_app in Hn. destruct (IH s') as [Hu [q Hq]].
    { destruct p; [done|]. simpl in Hn. lia. }
    split; [done|]. exists (p +:+ q). by rewrite <- str_app_assoc, <- Hq.
Qed.

Lemma whitespace_ne : Forall (λ p, p ≠ "") WHITESPACE.
Proof. apply (bool_decide_unpack _). by vm_compute. Qed.
Lemma whitespace_rev_ne : Forall (λ p, p ≠ "") (str_rev <$> WHITESPACE).
Proof. apply (bool_decide_unpack _). by vm_compute. Qed.

Lemma str_rev_length s : String.length (str_rev s) = String.length s.
Proof.
  induction s as [|a s IH]; [done|]. unfold str_rev. simpl.
  rewrite str_rev_app_spec, str_length_app. simpl. lia.
Qed.

Lemma str_trim_idemp s : str_trim (str_trim s) = str_trim s.
Proof.
  destruct (trim_start_any_spec (String.length s) WHITESPACE s whitespace_ne) as [Ha _]; [lia|].
  unfold str_trim at 2 3. fold (trim_start_ws s) in Ha. set (a := trim_start_ws s) in *.
  destruct (trim_start_any_spec (String.length a) (str_rev <$> WHITESPACE) (str_rev a) whitespace_rev_ne)
    as [Ht [p Hp]]; [by rewrite str_rev_length|].
  unfold trim_end_ws. set (r := trim_start_any _ _ (str_rev a)) in *.
  assert (a = str_rev r +:+ str_rev p) as Hap.
  { by rewrite <- str_rev_append, <- Hp, str_rev_involutive. }
  unfold str_trim, trim_start_ws. rewrite (trim_start_any_id _ WHITESPACE).
  - unfold trim_end_ws. by rewrite str_rev_involutive, trim_start_any_id.
  - apply unprefixed_spec. apply unprefixed_spec in Ha. eapply Forall_impl; [exact Ha|].
    intros w Hw t Heq. destruct (Hw (t +:+ str_rev p)). by rewrite str_app_assoc, <- Heq.
Qed.

Lemma ends_with_spec s p : ends_with s p = true → ∃ t, s = t +:+ p.
Proof.
  unfold ends_with, str_strip_suffix. intros [t' Ht]%bool_decide_eq_true.
  apply fmap_Some in Ht as (t & Ht & ->). apply str_strip_prefix_Some in Ht. exists (str_rev t).
  by rewrite <- (str_rev_involutive s), Ht, str_rev_append, str_rev_involutive.
Qed.
