(* ===== verification/Json.v ===== *)
(** * JSON values

    [serde_json::Value], an object as the list of its fields, and its accessors. *)

From S2P Require Export RustStr.
Local Open Scope string_scope.
Local Open Scope list_scope.

Inductive Json :=
| JNull
| JBool (b : bool)
| JNumber (text : string)
| JString (s : string)
| JArray (l : list Json)
| JObject (fields : list (string * Json)).

Definition json_get (k : string) (v : Json) : option Json :=
  match v with JObject fields => snd <$> find (λ kv, bool_decide (kv.1 = k)) fields | _ => None end.
Definition json_str (v : Json) : option string := match v with JString s => Some s | _ => None end.
Definition json_str_field (k : string) (v : Json) : option string := j ← json_get k v; json_str j.
(** [object.remove(k)] *)
Definition json_remove (k : string) (v : Json) : Json :=
  match v with JObject fields => JObject (filter (λ kv, kv.1 ≠ k) fields) | _ => v end.
(** [object.insert(k, v)] of a map that keeps the order of its insertions. *)
Fixpoint fields_insert (k : string) (v : Json) (fields : list (string * Json)) : list (string * Json) :=
  match fields with
  | [] => [(k, v)]
  | (k', v') :: fields => if decide (k = k') then (k, v) :: fields else (k', v') :: fields_insert k v fields
  end.

(** [serde_json::from_slice], of a value. *)
Class JsonLib := json_from_slice : string → option Json.
