(* ===== verification/Ip.v ===== *)
(** * IP addresses

    [Ipv4Addr], [Ipv6Addr] and [IpAddr] of the standard library and their
    [FromStr] parsers, as the source uses them: an IPv4 address is its 32-bit
    value, an IPv6 address its 128-bit value, both in network order.

    The parser is the one of [core::net::parser]: a cursor over the text, number
    and separator readers, and for IPv6 the group reader run once before and once
    after the [::]. A reader takes the rest of the text and returns the value
    with the new rest; a reader that fails leaves the cursor where it was. *)

From S2P Require Export Fmt.
Local Open Scope string_scope.
Local Open Scope Z_scope.

Definition reader (A : Type) := string → option (A * string).

(** The digits at the head of the text, with the value read so far, the number of
    digits read, the largest number of digits and the width of the result. *)
Fixpoint read_digits (radix max_digits bits acc count : Z) (s : string) : option (Z * Z * string) :=
  match s with
  | String a s' =>
      match to_digit radix a with
      | Some d =>
          let acc := acc * radix + d in
          if decide (2 ^ bits ≤ acc) then None
          else if decide (max_digits < count + 1) then None
          else read_digits radix max_digits bits acc (count + 1) s'
      | None => Some (acc, count, s)
      end
  | "" => Some (acc, count, s)
  end.

Definition read_number (radix max_digits bits : Z) (allow_zero_prefix : bool) : reader Z := λ s,
  let leading_zero := match s with String "0" _ => true | _ => false end in
  '(n, count, s') ← read_digits radix max_digits bits 0 0 s;
  if decide (count = 0) then None
  else if negb allow_zero_prefix && leading_zero && bool_decide (1 < count) then None
  else Some (n, s').

Definition read_given_char (c : ascii) : reader unit := λ s,
  match s with String a s' => if decide (a = c) then Some ((), s') else None | "" => None end.

(** The separator is read before every element but the first. *)
Definition read_separator {A} (c : ascii) (index : nat) (r : reader A) : reader A := λ s,
  match index with
  | O => r s
  | S _ => '((), s') ← read_given_char c s; r s'
  end.

Definition read_ipv4_addr : reader Z := λ s,
  '(a, s) ← read_separator "." 0 (read_number 10 3 8 false) s;
  '(b, s) ← read_separator "." 1 (read_number 10 3 8 false) s;
  '(c, s) ← read_separator "." 2 (read_number 10 3 8 false) s;
  '(d, s) ← read_separator "." 3 (read_number 10 3 8 false) s;
  Some (a * 2 ^ 24 + b * 2 ^ 16 + c * 2 ^ 8 + d, s).

(** [read_groups]: up to [limit] groups of 16 bits; an embedded IPv4 address
    counts for two groups and ends the list. Returns the groups, whether the list
    ended with an IPv4 address, and the rest. [todo] is the number of slots left. *)
Fixpoint read_groups (limit index todo : nat) (s : string) : list Z * bool * string :=
  match todo with
  | O => ([], false, s)
  | S todo' =>
      let v4 := if decide (index < limit - 1)%nat
                then read_separator ":" index read_ipv4_addr s else None in
      match v4 with
      | Some (v, s') => ([v / 2 ^ 16; v mod 2 ^ 16], true, s')
      | None =>
          match read_separator ":" index (read_number 16 4 16 true) s with
          | Some (g, s') =>
              let '(gs, b, s'') := read_groups limit (S index) todo' s' in (g :: gs, b, s'')
          | None => ([], false, s)
          end
      end
  end.

(** The groups as one number, the first group in the highest bits. *)
Definition groups_value (gs : list Z) : Z := foldl (λ acc g, acc * 2 ^ 16 + g) 0 gs.

Definition read_ipv6_addr : reader Z := λ s,
  let '(head, head_ipv4, s) := read_groups 8 0 8 s in
  if decide (length head = 8%nat) then Some (groups_value head, s)
  else if head_ipv4 then None
  else
    '((), s) ← read_given_char ":" s;
    '((), s) ← read_given_char ":" s;
    let limit := (8 - (length head + 1))%nat in
    let '(tail, _, s) := read_groups limit 0 limit s in
    Some (groups_value (head ++ replicate (8 - length head - length tail)%nat 0 ++ tail), s).

(** [parse_with]: the reader must consume the whole text. *)
Definition parse_with {A} (r : reader A) (s : string) : option A :=
  '(a, s') ← r s; if str_is_empty s' then Some a else None.

(** [s.parse::<Ipv4Addr>().ok()]: a text of more than 15 bytes is refused. *)
Definition parse_ipv4 (s : string) : option Z :=
  if decide (15 < String.length s)%nat then None else parse_with read_ipv4_addr s.
(** [s.parse::<Ipv6Addr>().ok()] *)
Definition parse_ipv6 : string → option Z := parse_with read_ipv6_addr.

Inductive IpAddr := V4 (a : Z) | V6 (a : Z).
#[export] Instance IpAddr_eq_dec : EqDecision IpAddr.
Proof. solve_decision. Defined.

(** [s.parse::<IpAddr>().ok()] *)
Definition read_ip_addr : reader IpAddr := λ s,
  match read_ipv4_addr s with
  | Some (a, s') => Some (V4 a, s')
  | None => '(a, s') ← read_ipv6_addr s; Some (V6 a, s')
  end.
Definition parse_ip : string → option IpAddr := parse_with read_ip_addr.

(** [IpAddr::to_canonical]: an IPv4-mapped IPv6 address ([::ffff:a.b.c.d])
    becomes the IPv4 address, every other address is unchanged. *)
Definition to_canonical (ip : IpAddr) : IpAddr :=
  match ip with
  | V4 a => V4 a
  | V6 a => if decide (a / 2 ^ 32 = 0xffff) then V4 (a mod 2 ^ 32) else V6 a
  end.

Lemma to_canonical_idemp ip : to_canonical (to_canonical ip) = to_canonical ip.
Proof. destruct ip as [a|a]; simpl; [done|]. case_decide as H; simpl; [done|]. by rewrite decide_False. Qed.

(** The addresses the unit tests of the source use. *)
Example parse_ipv4_ex : parse_ipv4 "192.168.0.1" = Some 0xC0A80001.
Proof. vm_compute. reflexivity. Qed.
Example parse_ipv4_leading_zero : parse_ipv4 "192.168.00.1" = None.
Proof. vm_compute. reflexivity. Qed.
Example parse_ipv6_ex : (parse_ipv6 "::0", parse_ipv6 "::", parse_ipv6 "::ffff:1.2.3.4", parse_ipv6 "1:2:3:4:5:6:7:8")
  = (Some 0, Some 0, Some 0xffff01020304, Some 0x00010002000300040005000600070008).
Proof. vm_compute. reflexivity. Qed.
Example parse_ipv6_bad : (parse_ipv6 "1:2", parse_ipv6 "::1::", parse_ipv6 "12345::", parse_ipv6 ":::") = (None, None, None, None).
Proof. vm_compute. reflexivity. Qed.

(** ** Display

    [Display] of the addresses: the eight groups of an IPv6 address in lower-case
    hexadecimal with the first longest run of at least two zero groups as [::]. *)

Definition ipv4_string (a : Z) : string :=
  str_join "." (dec_string <$> [a / 2 ^ 24; a / 2 ^ 16 mod 256; a / 2 ^ 8 mod 256; a mod 256]).

Definition groups (a : Z) : list Z :=
  (λ i, a / 2 ^ (16 * (7 - i)) mod 2 ^ 16) <$> seqZ 0 8.

(** The loop over the groups: start and length of the longest run so far, and of the
    current run. *)
Fixpoint zero_run (gs : list Z) (i : nat) (longest current : nat * nat) : nat * nat :=
  match gs with
  | [] => longest
  | g :: gs' =>
      if decide (g = 0) then
        let current := (if decide (current.2 = 0%nat) then i else current.1, S current.2) in
        zero_run gs' (S i) (if decide (longest.2 < current.2)%nat then current else longest) current
      else zero_run gs' (S i) longest (0%nat, 0%nat)
  end.

Definition ipv6_string (a : Z) : string :=
  match to_canonical (V6 a) with
  | V4 b => "::ffff:" +:+ ipv4_string b
  | V6 _ =>
      let gs := groups a in
      let '(start, len) := zero_run gs 0 (0%nat, 0%nat) (0%nat, 0%nat) in
      if decide (1 < len)%nat then
        (str_join ":" (hex_string <$> take start gs) +:+ "::") +:+ str_join ":" (hex_string <$> drop (start + len) gs)
      else str_join ":" (hex_string <$> gs)
  end.

Definition ip_string (ip : IpAddr) : string :=
  match ip with V4 a => ipv4_string a | V6 a => ipv6_string a end.

Example ip_string_ex :
  (ip_string (V4 0xC0A80001), ip_string (V6 0), ip_string (V6 1), ip_string (V6 0xffff01020304),
   ip_string (V6 0x20010db8000000000001000000000001)) =
  ("192.168.0.1", "::", "::1", "::ffff:1.2.3.4", "2001:db8::1:0:0:1").
Proof. vm_compute. reflexivity. Qed.
