(* ===== verification/HostnameTree.v ===== *)
(** * Hostname matching

    [crates/kernel/src/service/http_route/match_hostname.rs]: the tree the gateway
    looks a request's host up in.  Host names are stored label by label from the
    right ([example.com] under [com], [example]); a [*] label is stored in
    [else_node], and literal addresses in two ordered maps beside the tree.

    The data and the operations come first, then the abstract specification (the
    best match in a finite map of patterns) and the theorems that the tree
    implements it. *)

From S2P Require Export Ip BTree.
Local Open Scope string_scope.
Local Open Scope list_scope.
Local Open Scope nat_scope.

(** ** Data *)

Inductive HostnameMatcherNode (T : Type) : Type := MkNode {
  data : option T;
  children : list (string * HostnameMatcherNode T);
  else_node : option (HostnameMatcherNode T);
}.
Arguments MkNode {T}.
Arguments data {T}.
Arguments children {T}.
Arguments else_node {T}.

Record HostnameTree (T : Type) : Type := MkTree {
  ipv4 : list (Z * T);
  ipv6 : list (Z * T);
  host : HostnameMatcherNode T;
  fallback : option T;
}.
Arguments MkTree {T}.
Arguments ipv4 {T}.
Arguments ipv6 {T}.
Arguments host {T}.
Arguments fallback {T}.

Inductive HostKey := KIpv6 (ip : Z) | KIpv4 (ip : Z) | KName (h : string).

Section operations.
Context {T : Type}.
Implicit Types (n : HostnameMatcherNode T) (d : T) (segs : list string).

Definition node_new : HostnameMatcherNode T := MkNode None [] None.

Fixpoint append_by_iter (segs : list string) (d : T) (n : HostnameMatcherNode T)
  : HostnameMatcherNode T :=
  match segs with
  | segment :: segs' =>
      if decide (segment = "*") then
        match else_node n with
        | Some node => MkNode (data n) (children n) (Some (append_by_iter segs' d node))
        | None => MkNode (data n) (children n) (Some (append_by_iter segs' d node_new))
        end
      else
        let key := to_ascii_lowercase segment in
        let child := default node_new (bt_get key (children n)) in
        MkNode (data n) (bt_insert key (append_by_iter segs' d child) (children n)) (else_node n)
  | [] => MkNode (Some d) (children n) (else_node n)
  end.

(** The labels of a host name, from the right. *)
Definition labels (h : string) : list string := reverse (str_split "." h).

Definition node_set (h : string) (d : T) (n : HostnameMatcherNode T) : HostnameMatcherNode T :=
  append_by_iter (labels h) d n.

Fixpoint get_by_iter (segs : list string) (n : HostnameMatcherNode T) : option T :=
  match segs with
  | segment :: segs' =>
      let children_match :=
        match bt_get segment (children n) with
        | Some node => get_by_iter segs' node
        | None => None
        end in
      match children_match with
      | Some d => Some d
      | None =>
          match else_node n with
          | None => None
          | Some e => opt_or (get_by_iter segs' e) (data e)
          end
      end
  | [] => data n
  end.

Definition node_get (h : string) (n : HostnameMatcherNode T) : option T :=
  get_by_iter (labels (to_ascii_lowercase h)) n.

(** A write through the reference [get_mut_by_iter] returns: [None] when there is
    no such reference, else the node with that one value updated. *)
Definition update_data (f : T → T) (n : HostnameMatcherNode T) : option (HostnameMatcherNode T) :=
  d ← data n; Some (MkNode (Some (f d)) (children n) (else_node n)).

Fixpoint update_by_iter (f : T → T) (segs : list string) (n : HostnameMatcherNode T)
  : option (HostnameMatcherNode T) :=
  match segs with
  | segment :: segs' =>
      let children_match :=
        match bt_get segment (children n) with
        | Some node => update_by_iter f segs' node
        | None => None
        end in
      match children_match with
      | Some node' =>
          Some (MkNode (data n) (bt_modify (λ _, node') segment (children n)) (else_node n))
      | None =>
          match else_node n with
          | None => None
          | Some e =>
              e' ← opt_or (update_by_iter f segs' e) (update_data f e);
              Some (MkNode (data n) (children n) (Some e'))
          end
      end
  | [] => update_data f n
  end.

Definition node_update (f : T → T) (h : string) (n : HostnameMatcherNode T) :=
  update_by_iter f (labels (to_ascii_lowercase h)) n.

(** ** The tree *)

Definition tree_new : HostnameTree T := MkTree [] [] node_new None.

(** [host.rsplit_once(':').map(|(host, _)| host).unwrap_or(host)] *)
Definition trim_port (h : string) : string :=
  match str_rsplit_once ":" h with Some (h', _) => h' | None => h end.

(** The part of the tree the text of a host selects; [None] is the early return of
    the two [?] operators on a bracketed host, which skips the fallback. *)
Definition host_key (h : string) : option HostKey :=
  match h with
  | String "[" rest =>
      '(inner, _) ← str_split_once "]" rest;
      ip ← parse_ipv6 inner;
      Some (KIpv6 ip)
  | _ =>
      let h := trim_port h in
      match parse_ipv4 h with
      | Some ip => Some (KIpv4 ip)
      | None => Some (KName h)
      end
  end.

Definition key_get (k : HostKey) (t : HostnameTree T) : option T :=
  match k with
  | KIpv6 ip => bt_get ip (ipv6 t)
  | KIpv4 ip => bt_get ip (ipv4 t)
  | KName h => node_get h (host t)
  end.

Definition tree_get (h : string) (t : HostnameTree T) : option T :=
  k ← host_key h; opt_or (key_get k t) (fallback t).

Definition with_ipv4 (m : list (Z * T)) (t : HostnameTree T) := MkTree m (ipv6 t) (host t) (fallback t).
Definition with_ipv6 (m : list (Z * T)) (t : HostnameTree T) := MkTree (ipv4 t) m (host t) (fallback t).
Definition with_host n (t : HostnameTree T) := MkTree (ipv4 t) (ipv6 t) n (fallback t).
Definition with_fallback o (t : HostnameTree T) := MkTree (ipv4 t) (ipv6 t) (host t) o.

(** A write through [get_mut]: the same selection, on mutable references. *)
Definition bt_update (f : T → T) (ip : Z) (m : list (Z * T)) : option (list (Z * T)) :=
  _ ← bt_get ip m; Some (bt_modify f ip m).

Definition key_update (f : T → T) (k : HostKey) (t : HostnameTree T) : option (HostnameTree T) :=
  match k with
  | KIpv6 ip => m ← bt_update f ip (ipv6 t); Some (with_ipv6 m t)
  | KIpv4 ip => m ← bt_update f ip (ipv4 t); Some (with_ipv4 m t)
  | KName h => n ← node_update f h (host t); Some (with_host n t)
  end.

Definition update_fallback (f : T → T) (t : HostnameTree T) : option (HostnameTree T) :=
  d ← fallback t; Some (with_fallback (Some (f d)) t).

Definition tree_update (f : T → T) (h : string) (t : HostnameTree T) : option (HostnameTree T) :=
  k ← host_key h; opt_or (key_update f k t) (update_fallback f t).

Definition tree_set (h : string) (d : T) (t : HostnameTree T) : HostnameTree T :=
  if decide (h = "*") then with_fallback (Some d) t
  else if starts_with h "[" then
    match inner ← str_strip_prefix "[" h; str_strip_suffix "]" inner with
    | Some inner =>
        match parse_ipv6 inner with
        | Some ip => with_ipv6 (bt_insert ip d (ipv6 t)) t
        | None => t
        end
    | None => t
    end
  else
    match parse_ipv4 h with
    | Some ip => with_ipv4 (bt_insert ip d (ipv4 t)) t
    | None => with_host (node_set h d (host t)) t
    end.
End operations.

(** ** Iteration

    [iter] and [iter_mut] hand out references; here an iterator hands out the
    address of the value, and [iter_mut().for_each(f)] updates the values at the
    addresses in turn.  [HostnameMatcherNodeIter::next] asks a child for the first
    item of a fresh iterator, [node.iter().next()], and then goes on to the next
    child; [node_first] is that first item ([node_first_spec]). *)

Inductive step := SChild (key : string) | SElse.
Inductive addr := AIpv4 (ip : Z) | AIpv6 (ip : Z) | AHost (path : list step) | AFallback.

Inductive NodeIter (T : Type) : Type := MkNodeIter {
  it_data : option (list step);
  it_children : list (list step * HostnameMatcherNode T);
  it_else : option (NodeIter T);
}.
Arguments MkNodeIter {T}.
Arguments it_data {T}.
Arguments it_children {T}.
Arguments it_else {T}.

Record TreeIter (T : Type) : Type := MkTreeIter {
  it_ipv4 : list Z;
  it_ipv6 : list Z;
  it_host : NodeIter T;
  it_fallback : bool;
}.
Arguments MkTreeIter {T}.
Arguments it_ipv4 {T}.
Arguments it_ipv6 {T}.
Arguments it_host {T}.
Arguments it_fallback {T}.

Section iteration.
Context {T : Type}.
Implicit Types (n : HostnameMatcherNode T) (t : HostnameTree T).

Fixpoint node_iter (path : list step) (n : HostnameMatcherNode T) : NodeIter T :=
  match n with
  | MkNode d cs e =>
      MkNodeIter (match d with Some _ => Some path | None => None end)
        ((λ kc, (path ++ [SChild kc.1], kc.2)) <$> cs)
        (match e with Some e => Some (node_iter (path ++ [SElse]) e) | None => None end)
  end.

Fixpoint node_first (path : list step) (n : HostnameMatcherNode T) : option (list step) :=
  match n with
  | MkNode (Some _) _ _ => Some path
  | MkNode None ((key, node) :: _) _ => node_first (path ++ [SChild key]) node
  | MkNode None [] (Some e) => node_first (path ++ [SElse]) e
  | MkNode None [] None => None
  end.

Fixpoint node_next (it : NodeIter T) : option (list step) * NodeIter T :=
  match it with
  | MkNodeIter (Some a) cs e => (Some a, MkNodeIter None cs e)
  | MkNodeIter None ((path, node) :: cs) e => (node_first path node, MkNodeIter None cs e)
  | MkNodeIter None [] (Some e) =>
      let '(a, e') := node_next e in (a, MkNodeIter None [] (Some e'))
  | MkNodeIter None [] None => (None, it)
  end.

Lemma node_first_spec path n : node_first path n = fst (node_next (node_iter path n)).
Proof.
  revert path n. fix IH 2. intros path [[d|] [|[k c] cs] [e|]]; simpl; try done.
  rewrite IH. by destruct (node_next _).
Qed.

Definition tree_iter t : TreeIter T :=
  MkTreeIter ((ipv4 t).*1) ((ipv6 t).*1) (node_iter [] (host t))
    (match fallback t with Some _ => true | None => false end).

Definition tree_next (it : TreeIter T) : option addr * TreeIter T :=
  match it with
  | MkTreeIter (ip :: v4) v6 h fb => (Some (AIpv4 ip), MkTreeIter v4 v6 h fb)
  | MkTreeIter [] (ip :: v6) h fb => (Some (AIpv6 ip), MkTreeIter [] v6 h fb)
  | MkTreeIter [] [] h fb =>
      let '(a, h') := node_next h in
      match a with
      | Some path => (Some (AHost path), MkTreeIter [] [] h' fb)
      | None => (if fb then Some AFallback else None, MkTreeIter [] [] h' false)
      end
  end.

(** The addresses [for_each] visits: [next] is called until it returns [None]. *)
Fixpoint for_each_addrs (fuel : nat) (it : TreeIter T) : option (list addr) :=
  match fuel with
  | O => None
  | S fuel =>
      match tree_next it with
      | (None, _) => Some []
      | (Some a, it') => l ← for_each_addrs fuel it'; Some (a :: l)
      end
  end.

(** The items an iterator can still produce; every [next] that returns an item
    uses one up, so this many steps are enough. *)
Fixpoint node_iter_size (it : NodeIter T) : nat :=
  match it with
  | MkNodeIter d cs e =>
      (match d with Some _ => 1 | None => 0 end) + length cs +
      match e with Some e => node_iter_size e | None => 0 end
  end.
Definition tree_iter_size (it : TreeIter T) : nat :=
  length (it_ipv4 it) + length (it_ipv6 it) + node_iter_size (it_host it) +
  if it_fallback it then 1 else 0.

Definition tree_visited t : list addr :=
  default [] (for_each_addrs (S (tree_iter_size (tree_iter t))) (tree_iter t)).

Fixpoint node_modify_at (f : T → T) (path : list step) (n : HostnameMatcherNode T)
  : HostnameMatcherNode T :=
  match path with
  | [] => MkNode (f <$> data n) (children n) (else_node n)
  | SChild k :: path' =>
      MkNode (data n) (bt_modify (node_modify_at f path') k (children n)) (else_node n)
  | SElse :: path' =>
      MkNode (data n) (children n) (node_modify_at f path' <$> else_node n)
  end.

Definition tree_modify_at (f : T → T) t (a : addr) : HostnameTree T :=
  match a with
  | AIpv4 ip => with_ipv4 (bt_modify f ip (ipv4 t)) t
  | AIpv6 ip => with_ipv6 (bt_modify f ip (ipv6 t)) t
  | AHost path => with_host (node_modify_at f path (host t)) t
  | AFallback => with_fallback (f <$> fallback t) t
  end.

(** [tree.iter_mut().for_each(f)] *)
Definition tree_for_each_mut (f : T → T) t : HostnameTree T :=
  foldl (tree_modify_at f) t (tree_visited t).

Lemma node_next_size it :
  match node_next it with
  | (Some _, it') => S (node_iter_size it') = node_iter_size it
  | (None, it') => node_iter_size it' ≤ node_iter_size it
  end.
Proof.
  revert it. fix IH 1. intros [[a|] [|[path node] cs] [e|]]; simpl; try lia.
  - specialize (IH e). destruct (node_next e) as [[b|] e']; simpl; lia.
  - destruct (node_first path node); simpl; lia.
  - destruct (node_first path node); simpl; lia.
Qed.

Lemma tree_next_size it a it' :
  tree_next it = (Some a, it') → tree_iter_size it' < tree_iter_size it.
Proof.
  destruct it as [[|ip v4] [|ip6 v6] h fb]; unfold tree_iter_size; simpl; intros H;
    simplify_eq/=; try lia.
  pose proof (node_next_size h) as Hs. destruct (node_next h) as [[p|] h'].
  - simplify_eq/=. lia.
  - destruct fb; simplify_eq/=. lia.
Qed.

(** The loop of [for_each] ends. *)
Lemma for_each_addrs_total fuel it :
  tree_iter_size it < fuel → is_Some (for_each_addrs fuel it).
Proof.
  revert it. induction fuel as [|fuel IH]; intros it Hf; [lia|]. simpl.
  destruct (tree_next it) as [[a|] it'] eqn:E; [|done].
  apply tree_next_size in E. destruct (IH it') as [l ->]; [lia|]. done.
Qed.

Lemma tree_visited_spec t : for_each_addrs (S (tree_iter_size (tree_iter t))) (tree_iter t) = Some (tree_visited t).
Proof.
  unfold tree_visited.
  destruct (for_each_addrs_total (S (tree_iter_size (tree_iter t))) (tree_iter t)) as [l ->]; [lia|done].
Qed.

(** With no host rule in the tree the fallback is the only value besides the
    literal addresses, and it is visited. *)
Lemma tree_for_each_mut_fallback f o :
  tree_for_each_mut f (MkTree [] [] node_new o) = MkTree [] [] node_new (f <$> o).
Proof. by destruct o. Qed.
End iteration.

(** The values below the first one of a child are skipped: of [a.com] and [b.com]
    only the first is visited. *)
Definition skipping_tree : HostnameTree nat :=
  tree_set "b.com" 2 (tree_set "a.com" 1 tree_new).

Example skipping_tree_visited : tree_visited skipping_tree = [AHost [SChild "com"; SChild "a"]].
Proof. vm_compute. reflexivity. Qed.

(** The unit test [test_hostname_matcher_node] of the source. *)
Definition test_rules : list string :=
  ["[::0]"; "192.168.0.1"; "example.com"; "*.example.com"; "api.*.example.com"; "*.com"; "*"].
Definition test_tree : HostnameTree string := foldl (λ t r, tree_set r r t) tree_new test_rules.

Example test_tree_get :
  (λ h, tree_get h test_tree) <$>
    ["[::0]:80"; "[::]"; "192.168.0.1"; "example.com:80"; "apL.v1.example.com:1000";
     "api.v2.example.com"; "baidu.com"; "127.0.0.1"; "com"; "localhost:8080"]
  = Some <$> ["[::0]"; "[::0]"; "192.168.0.1"; "example.com"; "*.example.com";
     "api.*.example.com"; "*.com"; "*"; "*"; "*"].
Proof. vm_compute. reflexivity. Qed.

(** ** Specification

    A rule is a pattern over labels, from the right.  [*] stands for one label
    inside a pattern and for one or more labels at its end (the leftmost label of
    the host name).  The better of two patterns that match is the one with a
    literal label at the first place where they differ, and a longer pattern is
    better than the [*] it extends. *)

Inductive plabel := Lit (l : string) | Star.
#[export] Instance plabel_eq_dec : EqDecision plabel.
Proof. solve_decision. Defined.
#[export] Instance plabel_countable : Countable plabel.
Proof.
  apply (inj_countable' (λ p, match p with Lit l => Some l | Star => None end)
    (λ o, match o with Some l => Lit l | None => Star end)). by intros [].
Defined.

Abbreviation pattern := (list plabel).

Definition pattern_of (h : string) : pattern :=
  (λ l, if decide (l = "*") then Star else Lit (to_ascii_lowercase l)) <$> labels h.

Inductive pmatch : pattern → list string → Prop :=
| pm_nil : pmatch [] []
| pm_lit l p segs : pmatch p segs → pmatch (Lit l :: p) (l :: segs)
| pm_star l p segs : pmatch p segs → pmatch (Star :: p) (l :: segs)
| pm_rest l segs : pmatch [Star] (l :: segs).

Inductive pat_le : pattern → pattern → Prop :=
| pl_nil : pat_le [] []
| pl_lit l p q : pat_le p q → pat_le (Lit l :: p) (Lit l :: q)
| pl_lit_star l p q : pat_le (Lit l :: p) (Star :: q)
| pl_star p q : pat_le p q → pat_le (Star :: p) (Star :: q)
| pl_longer x p : pat_le (x :: p) [].

(** [d] is the value of the best rule of [rules] that matches [segs]. *)
Definition best_match {T} (rules : pattern → option T) (segs : list string) (d : T) : Prop :=
  ∃ p, rules p = Some d ∧ pmatch p segs ∧
       ∀ q d', rules q = Some d' → pmatch q segs → pat_le p q.
Definition no_match {T} (rules : pattern → option T) (segs : list string) : Prop :=
  ∀ q d, rules q = Some d → ¬ pmatch q segs.

(** The host rules as a finite map: a later rule for the same pattern replaces an
    earlier one. *)
Definition rule_table {T} (rules : list (string * T)) : gmap pattern T :=
  foldl (λ m r, <[pattern_of r.1 := r.2]> m) ∅ rules.

#[export] Hint Constructors pmatch pat_le : spacegate.

Lemma pat_le_antisym p q : pat_le p q → pat_le q p → p = q.
Proof. induction 1; inversion 1; subst; f_equal; auto. Qed.

Section spec.
Context {T : Type}.
Implicit Types (n : HostnameMatcherNode T) (d : T) (segs : list string) (p q : pattern).

(** The rules a node holds. *)
Fixpoint stored (p : pattern) (n : HostnameMatcherNode T) : option T :=
  match p with
  | [] => data n
  | Lit l :: p' => c ← bt_get l (children n); stored p' c
  | Star :: p' => e ← else_node n; stored p' e
  end.

Lemma stored_new p : stored p node_new = None.
Proof. by destruct p as [|[]]. Qed.

Lemma stored_append segs d n q :
  stored q (append_by_iter segs d n) =
  if decide (q = (λ l, if decide (l = "*") then Star else Lit (to_ascii_lowercase l)) <$> segs)
  then Some d else stored q n.
Proof.
  revert q n. induction segs as [|s segs IH]; intros q n.
  - destruct q as [|[] q]; simpl; by repeat case_decide.
  - assert (∀ q, stored q (default node_new (else_node n)) = stored (Star :: q) n) as He.
    { intros q'. simpl. destruct (else_node n); simpl; [done|apply stored_new]. }
    assert (∀ l q, stored q (default node_new (bt_get l (children n))) = stored (Lit l :: q) n) as Hc.
    { intros l q'. simpl. destruct (bt_get l (children n)); simpl; [done|apply stored_new]. }
    destruct q as [|[l|] q]; simpl fmap.
    + rewrite decide_False by done. simpl. case_decide; [|done]. by destruct (else_node n).
    + simpl append_by_iter. case_decide.
      * rewrite decide_False by done. by destruct (else_node n).
      * rewrite <- Hc. simpl. rewrite bt_get_insert.
        case_decide; subst; simpl.
        -- rewrite IH, Hc. by repeat case_decide; simplify_eq.
        -- rewrite decide_False by naive_solver.
           destruct (bt_get l (children n)); simpl; [done|by rewrite stored_new].
    + simpl append_by_iter. case_decide.
      * rewrite <- He. destruct (else_node n) as [e|]; simpl; rewrite IH; by repeat case_decide; simplify_eq.
      * rewrite decide_False by naive_solver. done.
Qed.

(** The outcome of a lookup: the best match, or no match at all. *)
Definition lookup_ok (r : option T) segs n : Prop :=
  match r with
  | Some d => best_match (λ p, stored p n) segs d
  | None => no_match (λ p, stored p n) segs
  end.

Lemma else_node_ok s segs n e :
  else_node n = Some e → lookup_ok (get_by_iter segs e) segs e →
  (∀ q d, stored (Lit s :: q) n = Some d → ¬ pmatch q segs) →
  lookup_ok (opt_or (get_by_iter segs e) (data e)) (s :: segs) n.
Proof.
  intros He Hok Hlit.
  assert (∀ q, stored (Star :: q) n = stored q e) as Hstar by (intros q; simpl; by rewrite He).
  destruct (get_by_iter segs e) as [d|]; unfold lookup_ok, best_match, no_match in *; cbn [opt_or] in *.
  - destruct Hok as (p & Hp & Hm & Hbest). exists (Star :: p).
    split_and!; [by rewrite Hstar|by constructor|].
    intros q d' Hq Hqm. inversion Hqm; subst; rewrite ?Hstar in Hq.
    + by edestruct Hlit.
    + constructor. eauto.
    + constructor. destruct p; constructor.
  - destruct (data e) as [d|] eqn:Hd.
    + exists [Star]. split_and!; [by rewrite Hstar|apply pm_rest|].
      intros q d' Hq Hqm. inversion Hqm; subst; rewrite ?Hstar in Hq.
      * by edestruct Hlit.
      * by edestruct Hok.
      * repeat constructor.
    + intros q d' Hq Hqm. inversion Hqm; subst; rewrite ?Hstar in Hq.
      * by edestruct Hlit.
      * by edestruct Hok.
      * cbn in Hq. congruence.
Qed.

Lemma get_by_iter_ok segs n : lookup_ok (get_by_iter segs n) segs n.
Proof.
  revert n. induction segs as [|s segs IH]; intros n; simpl.
  - destruct (data n) as [d|] eqn:Hd.
    + exists []. split_and!; [done|constructor|]. intros q d' _ Hq. inversion Hq; constructor.
    + intros q d' Hq Hm. inversion Hm; subst. simpl in Hq. congruence.
  - destruct (match bt_get s (children n) with Some c => get_by_iter segs c | None => None end)
      as [d|] eqn:Hcm.
    { destruct (bt_get s (children n)) as [c|] eqn:Hc; [|done].
      pose proof (IH c) as Hok. rewrite Hcm in Hok. destruct Hok as (p & Hp & Hm & Hbest).
      exists (Lit s :: p). split_and!; [by simpl; rewrite Hc|by constructor|].
      intros q d' Hq Hqm. inversion Hqm; subst; simpl in Hq; [|constructor..].
      rewrite Hc in Hq. constructor. by eapply Hbest. }
    assert (∀ q d, stored (Lit s :: q) n = Some d → ¬ pmatch q segs) as Hlit.
    { intros q d. simpl. destruct (bt_get s (children n)) as [c|]; simpl; [|done].
      pose proof (IH c) as Hok. rewrite Hcm in Hok. apply Hok. }
    destruct (else_node n) as [e|] eqn:He; [by eapply else_node_ok|].
    intros q d Hq Hqm. inversion Hqm; subst; [by edestruct Hlit|simpl in Hq; by rewrite He in Hq..].
Qed.

Lemma best_match_unique (rules : pattern → option T) segs d d' :
  best_match rules segs d → best_match rules segs d' → d = d'.
Proof.
  intros (p & Hp & Hm & Hb) (p' & Hp' & Hm' & Hb').
  assert (p = p') as -> by (apply pat_le_antisym; eauto). congruence.
Qed.

Lemma get_by_iter_Some segs n d :
  get_by_iter segs n = Some d ↔ best_match (λ p, stored p n) segs d.
Proof.
  pose proof (get_by_iter_ok segs n) as Hok. destruct (get_by_iter segs n) as [d'|]; simpl in Hok.
  - split; [intros [= ->]; done|]. intros H. f_equal. by eapply best_match_unique.
  - split; [done|]. intros (p & Hp & Hm & _). by edestruct Hok.
Qed.
End spec.

(** A host rule or host name proper: not [*], no literal address, no port. *)
Definition host_name (h : string) : bool :=
  bool_decide (h ≠ "*") && negb (starts_with h "[") && negb (str_contains_char ":" h) &&
  bool_decide (parse_ipv4 h = None).

(** The host of a request: a name, with or without a port. *)
Inductive request_host (h : string) : string → Prop :=
| rh_name : request_host h h
| rh_port port : no_char ":" port → request_host h (h +:+ String ":" port).

(** The tree after the rules have been [set] in turn. *)
Definition build {T} (rules : list (string * T)) (t : HostnameTree T) : HostnameTree T :=
  foldl (λ t r, tree_set r.1 r.2 t) t rules.

Section tree.
Context {T : Type}.
Implicit Types (n : HostnameMatcherNode T) (t : HostnameTree T) (d : T).

Lemma host_name_spec h :
  host_name h = true ↔ h ≠ "*" ∧ starts_with h "[" = false ∧ no_char ":" h ∧ parse_ipv4 h = None.
Proof.
  unfold host_name, no_char. rewrite !andb_true_iff, !negb_true_iff, !bool_decide_eq_true. tauto.
Qed.

Lemma trim_port_spec h hp : no_char ":" h → request_host h hp → trim_port hp = h.
Proof.
  intros Hh [|port Hp]; unfold trim_port.
  - by rewrite str_rsplit_once_None.
  - by rewrite str_rsplit_once_app.
Qed.

Lemma not_bracket h hp :
  starts_with h "[" = false → request_host h hp → starts_with hp "[" = false.
Proof.
  intros Hh [|port _]; [done|]. unfold starts_with in *.
  destruct h as [|a h]; [done|]. simpl in *. by case_decide.
Qed.

Lemma host_key_name h hp :
  host_name h = true → request_host h hp → host_key hp = Some (KName h).
Proof.
  intros (_ & Hb & Hc & Hip)%host_name_spec Hhp.
  pose proof (not_bracket _ _ Hb Hhp) as Hb'. unfold host_key.
  rewrite (trim_port_spec h) by done. rewrite Hip.
  destruct hp as [|a hp]; [done|].
  destruct (decide (a = "["%char)) as [->|Ha]; [done|].
  destruct a as [[] [] [] [] [] [] [] []]; done.
Qed.

Lemma tree_get_name h hp t :
  host_name h = true → request_host h hp →
  tree_get hp t = opt_or (node_get h (host t)) (fallback t).
Proof. intros. unfold tree_get. by erewrite host_key_name. Qed.

Lemma tree_set_name h d t :
  host_name h = true → tree_set h d t = with_host (node_set h d (host t)) t.
Proof.
  intros (Hs & Hb & Hc & Hip)%host_name_spec. unfold tree_set.
  by rewrite decide_False, Hb, Hip.
Qed.

Lemma node_set_stored h d n q :
  stored q (node_set h d n) = if decide (q = pattern_of h) then Some d else stored q n.
Proof. apply stored_append. Qed.

Lemma labels_lower h : labels (to_ascii_lowercase h) = to_ascii_lowercase <$> labels h.
Proof. unfold labels. rewrite str_split_lowercase by (vm_compute; reflexivity). by rewrite fmap_reverse. Qed.

Lemma build_snoc (rules : list (string * T)) r t : build (rules ++ [r]) t = tree_set r.1 r.2 (build rules t).
Proof. unfold build. by rewrite foldl_app. Qed.

Lemma rule_table_snoc (rules : list (string * T)) r :
  rule_table (rules ++ [r]) = <[pattern_of r.1 := r.2]> (rule_table rules).
Proof. unfold rule_table. by rewrite foldl_app. Qed.

(** The tree holds exactly the rules of the table. *)
Lemma build_stored (rules : list (string * T)) (o : option T) p :
  Forall (λ r, host_name r.1 = true) rules →
  let t := build rules (MkTree [] [] node_new o) in
  stored p (host t) = rule_table rules !! p ∧ fallback t = o.
Proof.
  intros H. induction rules as [|r rules IH] using rev_ind.
  - split; [|done]. change (stored p (@node_new T) = (∅ : gmap pattern T) !! p).
    by rewrite stored_new, lookup_empty.
  - apply Forall_app in H as [H [Hr _]%Forall_cons]. destruct (IH H) as [Hp Hf].
    cbv zeta beta in *. rewrite build_snoc, rule_table_snoc, tree_set_name by done.
    cbn [host fallback with_host]. rewrite node_set_stored, Hp. split; [|done].
    case_decide; subst; [by rewrite lookup_insert_eq|by rewrite lookup_insert_ne].
Qed.

(** A lookup below a node reads its children and its [*] node only. *)
Lemma get_by_iter_data (segs : list string) (o o' : option T) cs e :
  segs ≠ [] → get_by_iter segs (MkNode o cs e) = get_by_iter segs (MkNode o' cs e).
Proof. by destruct segs. Qed.

Lemma update_data_spec f n :
  match update_data f n with
  | Some n' => ∃ d, data n = Some d ∧ data n' = Some (f d)
  | None => data n = None
  end.
Proof. unfold update_data. destruct (data n); simpl; eauto. Qed.

Lemma get_updated_data f segs (e e' : HostnameMatcherNode T) :
  get_by_iter segs e = None → update_data f e = Some e' → get_by_iter segs e' = None ∨ segs = [].
Proof.
  intros He Hu. destruct segs as [|s segs]; [by right|left]. unfold update_data in Hu.
  destruct e as [[d|] cs es]; simplify_eq/=. exact He.
Qed.

Lemma update_by_iter_spec (f : T → T) segs n :
  match update_by_iter f segs n with
  | Some n' => ∃ d, get_by_iter segs n = Some d ∧ get_by_iter segs n' = Some (f d)
  | None => get_by_iter segs n = None
  end.
Proof.
  revert n. induction segs as [|s segs IH]; intros n.
  { simpl. apply update_data_spec. }
  cbn [update_by_iter get_by_iter].
  destruct (match bt_get s (children n) with Some c => update_by_iter f segs c | None => None end)
    as [c'|] eqn:Hc.
  { destruct (bt_get s (children n)) as [c|] eqn:Hget; [|done].
    pose proof (IH c) as IHc. rewrite Hc in IHc. destruct IHc as (d & Hd & Hd').
    exists d. rewrite Hd. simpl. rewrite bt_get_modify, decide_True, Hget by done.
    simpl. by rewrite Hd'. }
  assert (match bt_get s (children n) with Some c => get_by_iter segs c | None => None end = None) as Hnone.
  { destruct (bt_get s (children n)) as [c|]; [|done].
    pose proof (IH c) as IHc. by rewrite Hc in IHc. }
  rewrite Hnone. destruct (else_node n) as [e|]; [|done].
  pose proof (IH e) as IHe. destruct (update_by_iter f segs e) as [e'|] eqn:He; cbn [opt_or].
  { destruct IHe as (d & -> & Hd'). exists d. simpl. by rewrite Hnone, Hd'. }
  rewrite IHe. cbn [opt_or]. pose proof (update_data_spec f e) as Hu.
  destruct (update_data f e) as [e'|] eqn:Hue; [|done].
  destruct Hu as (d & -> & Hd'). exists d. split; [done|]. simpl. rewrite Hnone.
  destruct (get_updated_data f segs e e' IHe Hue) as [-> | ->]; simpl; [done|].
  by rewrite Hd'.
Qed.

Lemma key_update_spec (f : T → T) k t :
  match key_update f k t with
  | Some t' => ∃ d, key_get k t = Some d ∧ key_get k t' = Some (f d)
  | None => key_get k t = None
  end.
Proof.
  assert (∀ ip m, match bt_update f ip m with
    | Some m' => ∃ d : T, bt_get ip m = Some d ∧ bt_get ip m' = Some (f d)
    | None => bt_get ip m = None end) as Hbt.
  { intros ip m. unfold bt_update. destruct (bt_get ip m) as [d|] eqn:Hd; simpl; [|done].
    exists d. by rewrite bt_get_modify, decide_True, Hd. }
  destruct k as [ip|ip|h]; simpl.
  - specialize (Hbt ip (ipv6 t)). by destruct (bt_update f ip (ipv6 t)).
  - specialize (Hbt ip (ipv4 t)). by destruct (bt_update f ip (ipv4 t)).
  - pose proof (update_by_iter_spec f (labels (to_ascii_lowercase h)) (host t)) as Hn.
    unfold node_update, node_get. by destruct (update_by_iter f _ (host t)).
Qed.

(** What a write through [get_mut] does: there is a reference exactly when [get]
    finds a value, and the next [get] of the same host sees the new value. *)
Lemma tree_update_spec (f : T → T) h t :
  match tree_update f h t with
  | Some t' => ∃ d, tree_get h t = Some d ∧ tree_get h t' = Some (f d)
  | None => tree_get h t = None
  end.
Proof.
  unfold tree_update, tree_get. destruct (host_key h) as [k|]; simpl; [|done].
  pose proof (key_update_spec f k t) as Hk. destruct (key_update f k t) as [t'|]; simpl.
  - destruct Hk as (d & -> & ->). by exists d.
  - rewrite Hk. unfold update_fallback. destruct (fallback t) as [d|] eqn:Hd; simpl; [|done].
    exists d. split; [done|].
    replace (key_get k (with_fallback (Some (f d)) t)) with (key_get k t) by (by destruct k).
    by rewrite Hk.
Qed.

Lemma host_name_ne_star h : host_name h = true → h ≠ "*".
Proof. by intros []%host_name_spec. Qed.

(** A pattern of literal labels only is better than any other that matches. *)
Lemma pat_le_lits (segs : list string) q : pmatch q segs → pat_le (Lit <$> segs) q.
Proof. induction 1; simpl; constructor; auto. Qed.

Lemma pmatch_lits (segs : list string) : pmatch (Lit <$> segs) segs.
Proof. induction segs; simpl; by constructor. Qed.

Lemma pattern_of_lits h :
  "*" ∉ labels h → pattern_of h = Lit <$> labels (to_ascii_lowercase h).
Proof.
  unfold pattern_of. rewrite labels_lower, <- list_fmap_compose.
  intros Hn. apply list_fmap_ext. intros i l Hl. simpl.
  rewrite decide_False; [done|]. intros ->. apply Hn. by eapply list_elem_of_lookup_2.
Qed.

Lemma request_host_ieq h h' : ieq h h' → labels (to_ascii_lowercase h) = labels (to_ascii_lowercase h').
Proof. by intros ->%ieq_spec. Qed.
End tree.

(** ** Properties *)

Lemma best_match_ext {T} (r1 r2 : pattern → option T) segs d :
  (∀ p, r1 p = r2 p) → best_match r1 segs d → best_match r2 segs d.
Proof.
  intros Hr (p & Hp & Hm & Hb). exists p. split_and!; [by rewrite <-Hr|done|].
  intros q d'. rewrite <-Hr. apply Hb.
Qed.

Lemma no_match_ext {T} (r1 r2 : pattern → option T) segs :
  (∀ p, r1 p = r2 p) → no_match r1 segs → no_match r2 segs.
Proof. intros Hr H q d. rewrite <-Hr. apply H. Qed.

(** C4: the tree implements its specification. After any sequence of [set] calls
    with host-name rules, [get] of a host name, with or without a port and in any
    letter case, returns exactly the value of the best rule that matches it (the
    last one set for that pattern), and the fallback when no rule matches. *)
Theorem host_lookup_refines {T} (rules : list (string * T)) (o : option T) h hp d :
  Forall (λ r, host_name r.1 = true) rules → host_name h = true → request_host h hp →
  tree_get hp (build rules (MkTree [] [] node_new o)) = Some d ↔
  best_match (λ p, rule_table rules !! p) (labels (to_ascii_lowercase h)) d ∨
  (no_match (λ p, rule_table rules !! p) (labels (to_ascii_lowercase h)) ∧ o = Some d).
Proof.
  intros Hrules Hh Hhp. rewrite (tree_get_name h) by done.
  pose proof (λ p, proj1 (build_stored rules o p Hrules)) as Hst.
  rewrite (proj2 (build_stored rules o [] Hrules)), opt_or_Some.
  set (n := host _) in *. unfold node_get.
  pose proof (get_by_iter_ok (labels (to_ascii_lowercase h)) n) as Hok.
  split.
  - intros [Hget|[Hget ->]]; rewrite Hget in Hok; simpl in Hok.
    + left. by apply (best_match_ext (λ p, stored p n)).
    + right. split; [by apply (no_match_ext (λ p, stored p n))|done].
  - intros [Hb|[Hn ->]].
    + left. apply get_by_iter_Some. apply (best_match_ext (λ p, rule_table rules !! p)); [|done]. intros p. by rewrite Hst.
    + right. split; [|done]. destruct (get_by_iter _ n) as [d'|]; [|done].
      destruct Hok as (p & Hp & Hm & _). rewrite Hst in Hp. by edestruct Hn.
Qed.

Lemma host_lookup_refines_witness :
  tree_get "API.v1.example.com:80"
    (build [("*.example.com", 1); ("api.*.example.com", 2); ("*.com", 3)] (MkTree [] [] node_new (Some 4)))
  = Some 2 ∧
  best_match (λ p, rule_table [("*.example.com", 1); ("api.*.example.com", 2); ("*.com", 3)] !! p)
    ["com"; "example"; "v1"; "api"] 2.
Proof.
  split; [vm_compute; reflexivity|].
  destruct (proj1 (host_lookup_refines
    [("*.example.com", 1); ("api.*.example.com", 2); ("*.com", 3)] None
    "API.v1.example.com" "API.v1.example.com:80" 2
    ltac:(repeat constructor) ltac:(vm_compute; reflexivity)
    (rh_port "API.v1.example.com" "80" ltac:(vm_compute; reflexivity))) ltac:(vm_compute; reflexivity))
    as [H|[_ H]]; [exact H|discriminate H].
Defined.

(** What is set is found. In any tree, after [set] of a host name without a
    [*] label, [get] of that name, in any letter case and with or without a port,
    returns the value just set, whatever other rules match. *)
Theorem set_then_get {T} (t : HostnameTree T) h h' hp d :
  host_name h = true → "*" ∉ labels h → ieq h h' → host_name h' = true → request_host h' hp →
  tree_get hp (tree_set h d t) = Some d.
Proof.
  intros Hh Hstar Hi Hh' Hhp. rewrite (tree_get_name h'), tree_set_name by done.
  apply opt_or_Some. left. apply get_by_iter_Some.
  rewrite <-(request_host_ieq h h') by done.
  exists (pattern_of h). cbn [host with_host]. rewrite node_set_stored, decide_True by done.
  rewrite pattern_of_lits by done. split_and!; [done|apply pmatch_lits|].
  intros q d' _ Hq. by apply pat_le_lits.
Qed.

Lemma set_then_get_witness :
  tree_get "Example.COM:8080" (tree_set "example.com" 7 (tree_set "*.com" 1 tree_new)) = Some 7.
Proof.
  refine (set_then_get (tree_set "*.com" 1 tree_new) "example.com" "Example.COM" _ 7 _ _ _ _
    (rh_port "Example.COM" "8080" _)); try (vm_compute; reflexivity).
  apply (bool_decide_unpack _). vm_compute. exact I.
Defined.
