(* ===== verification/Http.v ===== *)
(** * Requests

    The values the gateway passes around, and the interface of the libraries the
    source takes them from ([http], [hyper], [regex]): their code is not in the
    repository, so what is used of it is a class of operations ([HttpLib]) with the
    documented behaviour the theorems rely on as its laws ([HttpLaws]).
    [RefHttp.v] has an instance that satisfies the laws.

    A header name is its lower-case text: [HeaderName] normalises to lower case,
    and a lookup by a [&str] ignores the letter case of its argument. *)

From S2P Require Export Ip BTree RustStr.
Local Open Scope string_scope.
Local Open Scope list_scope.

(** [http::uri::PathAndQuery] and [http::Uri], by what their accessors return. *)
Record PathAndQuery := MkPq { pq_path : string; pq_query : option string }.
Record Uri := MkUri {
  uri_scheme : option string;
  uri_authority : option (string * option Z);
  uri_path_and_query : option PathAndQuery;
}.
#[export] Instance PathAndQuery_eq_dec : EqDecision PathAndQuery.
Proof. solve_decision. Defined.
#[export] Instance Uri_eq_dec : EqDecision Uri.
Proof. solve_decision. Defined.

Definition uri_host (u : Uri) : option string := fst <$> uri_authority u.
Definition uri_path (u : Uri) : string :=
  match uri_path_and_query u with Some pq => pq_path pq | None => "" end.
Definition uri_query (u : Uri) : option string := pq ← uri_path_and_query u; pq_query pq.

(** ** The libraries *)

Class HttpLib := {
  Regex : Type;
  re_is_match : Regex → string → bool;
  re_replace : Regex → string → string → string;
  HeaderMap : Type;
  hm_empty : HeaderMap;
  hm_get_all : HeaderMap → string → list string;
  hm_iter : HeaderMap → list (string * string);
  hm_insert : string → string → HeaderMap → HeaderMap;
  hm_append : string → string → HeaderMap → HeaderMap;
  hm_remove : string → HeaderMap → HeaderMap;
  (** [*get_mut(name) = value]: the first value of the name is replaced *)
  hm_set_first : string → string → HeaderMap → HeaderMap;
  (** [HeaderValue::to_str] and [HeaderValue::from_str] *)
  hv_to_str : string → option string;
  hv_from_str : string → option string;
  (** [PathAndQuery::from_maybe_shared], [Scheme] and [Authority] from text, and the
      check [Uri::from_parts] makes on the combination of the parts *)
  pq_parse : string → option PathAndQuery;
  scheme_parse : string → option string;
  authority_parse : string → option (string * option Z);
  uri_parts_ok : Uri → bool;
}.

Class HttpLaws (L : HttpLib) : Prop := {
  hm_get_all_empty k : hm_get_all hm_empty k = [];
  hm_get_all_insert m k v k' :
    hm_get_all (hm_insert k v m) k' = if decide (k' = k) then [v] else hm_get_all m k';
  hm_get_all_append m k v k' :
    hm_get_all (hm_append k v m) k' =
    if decide (k' = k) then hm_get_all m k' ++ [v] else hm_get_all m k';
  hm_get_all_remove m k k' :
    hm_get_all (hm_remove k m) k' = if decide (k' = k) then [] else hm_get_all m k';
  hm_get_all_set_first m k v k' :
    hm_get_all (hm_set_first k v m) k' =
    if decide (k' = k) then match hm_get_all m k' with [] => [] | _ :: l => v :: l end
    else hm_get_all m k';
  hm_iter_get_all m k : (filter (λ kv, kv.1 = k) (hm_iter m)).*2 = hm_get_all m k;
  hv_to_from s v : hv_from_str s = Some v → hv_to_str v = Some s;
}.

Section http.
Context `{HttpLib}.

(** [headers.get(name)] *)
Definition hm_get (m : HeaderMap) (k : string) : option string := head (hm_get_all m k).

(** [Uri::from_parts] *)
Definition uri_from_parts (u : Uri) : option Uri := if uri_parts_ok u then Some u else None.

(** [Uri::builder().scheme(s).authority(a).path_and_query(pq).build()] *)
Definition uri_build (scheme authority : string) (pq : option PathAndQuery) : option Uri :=
  s ← scheme_parse scheme;
  a ← authority_parse authority;
  uri_from_parts (MkUri (Some s) (Some a) pq).

(** *** Matchers: the data of [service/http_route/match_request.rs], which a
    matched request carries in its extensions. *)

Inductive HttpPathMatchRewrite :=
| PathExact (value : string) (replace : option string)
| PathPrefix (value : string) (replace : option string)
| PathRegExp (re : Regex) (replace : option string).

Inductive SgHttpHeaderMatchRewritePolicy :=
| HeaderExact (value : string) (replace : option string)
| HeaderRegular (re : Regex) (replace : option string).

Record SgHttpHeaderMatchRewrite := MkHeaderMatch {
  header_name : string;
  header_policy : SgHttpHeaderMatchRewritePolicy;
}.

Inductive SgHttpQueryMatchPolicy := QueryExact (value : string) | QueryRegular (re : Regex).

Record HttpQueryMatch := MkQueryMatch { query_name : string; query_policy : SgHttpQueryMatchPolicy }.

Record HttpMethodMatch := MkMethodMatch { method_name : string }.

Record HttpRouteMatch := MkRouteMatch {
  rm_path : option HttpPathMatchRewrite;
  rm_header : option (list SgHttpHeaderMatchRewrite);
  rm_query : option (list HttpQueryMatch);
  rm_method : option (list HttpMethodMatch);
}.

(** *** Requests and responses *)

(** [extension::Reflect]: extensions that are copied to the response. *)
Record Reflect := MkReflect {
  rf_gateway_name : option string;
  rf_route_name : option string;
  rf_backend_host : option string;
  rf_real_method : option string;
  rf_real_uri : option Uri;
}.
Definition reflect_empty : Reflect := MkReflect None None None None None.
Definition rf_set_gateway_name v (r : Reflect) : Reflect :=
  let 'MkReflect _ b c d f := r in MkReflect (Some v) b c d f.
Definition rf_set_route_name v (r : Reflect) : Reflect :=
  let 'MkReflect a _ c d f := r in MkReflect a (Some v) c d f.
Definition rf_set_backend_host v (r : Reflect) : Reflect :=
  let 'MkReflect a b _ d f := r in MkReflect a b (Some v) d f.
Definition rf_set_real_request m u (r : Reflect) : Reflect :=
  let 'MkReflect a b c _ _ := r in MkReflect a b c (Some m) (Some u).

(** [observability::AccessLogContext] *)
Record AccessLogContext := MkAccessLog { al_route_name : string; al_upstream_host : string }.

(** [RateLimitReport] of the limit plugin, less the JSON it is configured to report. *)
Record RateLimitReport := MkRateLimitReport {
  rlr_original_ip_addr : IpAddr;
  rlr_max_request_number : Z;
  rlr_time_window_ms : Z;
  rlr_id : string;
}.

(** [extension::McpProxyMeta] *)
Record McpProxyMeta := MkMcpProxyMeta {
  mcp_transport : string;
  mcp_route_type : string;
  mcp_session_id_present : bool;
}.

(** The typed values of [http::Extensions] the modelled code reads or writes. A
    deferred call is the identity of its closure. *)
Record Extensions := MkExt {
  ext_peer_addr : option (IpAddr * Z);
  ext_original_ip : option IpAddr;
  ext_gateway_name : option string;
  ext_route_name : option string;
  ext_backend_host : option string;
  ext_matched_router : option HttpRouteMatch;
  ext_matched_index : option (nat * nat);
  ext_reflect : option Reflect;
  ext_access_log : option AccessLogContext;
  ext_defer : option (list nat);
  ext_from_backend : bool;
  ext_east_west : option bool;
  ext_real_method : option string;
  ext_real_uri : option Uri;
  ext_rate_limit : option RateLimitReport;
  ext_mcp_proxy : option McpProxyMeta;
}.
Definition ext_empty : Extensions :=
  MkExt None None None None None None None None None None false None None None None None.

Definition ext_set_peer_addr v (e : Extensions) : Extensions :=
  let 'MkExt _ b c d f g h i j k l m n o p q := e in
  MkExt (Some v) b c d f g h i j k l m n o p q.
Definition ext_set_gateway_name v (e : Extensions) : Extensions :=
  let 'MkExt a b _ d f g h i j k l m n o p q := e in
  MkExt a b (Some v) d f g h i j k l m n o p q.
Definition ext_set_route_name v (e : Extensions) : Extensions :=
  let 'MkExt a b c _ f g h i j k l m n o p q := e in
  MkExt a b c (Some v) f g h i j k l m n o p q.
Definition ext_set_backend_host v (e : Extensions) : Extensions :=
  let 'MkExt a b c d _ g h i j k l m n o p q := e in
  MkExt a b c d (Some v) g h i j k l m n o p q.
Definition ext_set_matched_router v (e : Extensions) : Extensions :=
  let 'MkExt a b c d f _ h i j k l m n o p q := e in
  MkExt a b c d f (Some v) h i j k l m n o p q.
Definition ext_set_matched_index v (e : Extensions) : Extensions :=
  let 'MkExt a b c d f g _ i j k l m n o p q := e in
  MkExt a b c d f g (Some v) i j k l m n o p q.
Definition ext_set_reflect v (e : Extensions) : Extensions :=
  let 'MkExt a b c d f g h _ j k l m n o p q := e in
  MkExt a b c d f g h v j k l m n o p q.
Definition ext_set_access_log v (e : Extensions) : Extensions :=
  let 'MkExt a b c d f g h i _ k l m n o p q := e in
  MkExt a b c d f g h i (Some v) k l m n o p q.
Definition ext_set_defer v (e : Extensions) : Extensions :=
  let 'MkExt a b c d f g h i j _ l m n o p q := e in
  MkExt a b c d f g h i j (Some v) l m n o p q.
Definition ext_set_from_backend (e : Extensions) : Extensions :=
  let 'MkExt a b c d f g h i j k _ m n o p q := e in
  MkExt a b c d f g h i j k true m n o p q.
Definition ext_set_east_west v (e : Extensions) : Extensions :=
  let 'MkExt a b c d f g h i j k l _ n o p q := e in
  MkExt a b c d f g h i j k l (Some v) n o p q.
Definition ext_set_real_method v (e : Extensions) : Extensions :=
  let 'MkExt a b c d f g h i j k l m _ o p q := e in
  MkExt a b c d f g h i j k l m (Some v) o p q.
Definition ext_set_real_uri v (e : Extensions) : Extensions :=
  let 'MkExt a b c d f g h i j k l m n _ p q := e in
  MkExt a b c d f g h i j k l m n (Some v) p q.
Definition ext_set_rate_limit v (e : Extensions) : Extensions :=
  let 'MkExt a b c d f g h i j k l m n o _ q := e in
  MkExt a b c d f g h i j k l m n o (Some v) q.
Definition ext_set_mcp_proxy v (e : Extensions) : Extensions :=
  let 'MkExt a b c d f g h i j k l m n o p _ := e in
  MkExt a b c d f g h i j k l m n o p (Some v).

(** [response.extensions_mut().extend(reflect.into_inner())] *)
Definition ext_extend (e : Extensions) (r : Reflect) : Extensions :=
  let e := match rf_gateway_name r with Some v => ext_set_gateway_name v e | None => e end in
  let e := match rf_route_name r with Some v => ext_set_route_name v e | None => e end in
  let e := match rf_backend_host r with Some v => ext_set_backend_host v e | None => e end in
  let e := match rf_real_method r with Some v => ext_set_real_method v e | None => e end in
  match rf_real_uri r with Some v => ext_set_real_uri v e | None => e end.

Record Request := MkReq {
  req_method : string;
  req_uri : Uri;
  req_version : Z;
  req_headers : HeaderMap;
  req_ext : Extensions;
  req_body : string;
}.

Record Response := MkResp {
  resp_status : Z;
  resp_headers : HeaderMap;
  resp_ext : Extensions;
  resp_body : string;
}.

Definition set_uri (u : Uri) (r : Request) : Request :=
  MkReq (req_method r) u (req_version r) (req_headers r) (req_ext r) (req_body r).
Definition set_version (v : Z) (r : Request) : Request :=
  MkReq (req_method r) (req_uri r) v (req_headers r) (req_ext r) (req_body r).
Definition set_headers (h : HeaderMap) (r : Request) : Request :=
  MkReq (req_method r) (req_uri r) (req_version r) h (req_ext r) (req_body r).
Definition set_ext (e : Extensions) (r : Request) : Request :=
  MkReq (req_method r) (req_uri r) (req_version r) (req_headers r) e (req_body r).
Definition set_resp_headers (h : HeaderMap) (r : Response) : Response :=
  MkResp (resp_status r) h (resp_ext r) (resp_body r).
Definition set_status (s : Z) (r : Response) : Response :=
  MkResp s (resp_headers r) (resp_ext r) (resp_body r).

(** [req.extensions_mut().insert(..)] and the like *)
Definition map_ext (f : Extensions → Extensions) (r : Request) : Request := set_ext (f (req_ext r)) r.
Definition map_resp_ext (f : Extensions → Extensions) (r : Response) : Response :=
  MkResp (resp_status r) (resp_headers r) (f (resp_ext r)) (resp_body r).

(** [Response::with_code_message] and [Response::with_code_empty] *)
Definition with_code_message (code : Z) (message : string) : Response :=
  MkResp code hm_empty (ext_set_reflect (Some reflect_empty) ext_empty) message.
Definition with_code_empty (code : Z) : Response := with_code_message code "".

(** A service. The error type of every service of the source is [Infallible]; [None]
    is a panic of the task that runs it. *)
Definition Service : Type := Request → option Response.
(** A plugin layer: [BoxLayer]. *)
Definition BoxLayer : Type := Service → Service.

(** Two header maps that answer every lookup alike. *)
Definition hm_equiv (m m' : HeaderMap) : Prop := ∀ k, hm_get_all m k = hm_get_all m' k.

#[global] Instance hm_equiv_equivalence : Equivalence hm_equiv.
Proof.
  split; [done|intros m m' Hm k; by rewrite Hm|intros m1 m2 m3 H1 H2 k; by rewrite H1].
Qed.

#[global] Instance hm_get_proper : Proper (hm_equiv ==> eq ==> eq) hm_get.
Proof. intros m m' Hm k _ <-. unfold hm_get. by rewrite Hm. Qed.

Section laws.
Context `{!HttpLaws _}.

#[global] Instance hm_insert_proper : Proper (eq ==> eq ==> hm_equiv ==> hm_equiv) hm_insert.
Proof. intros k _ <- v _ <- m m' Hm k'. by rewrite !hm_get_all_insert, Hm. Qed.
#[global] Instance hm_append_proper : Proper (eq ==> eq ==> hm_equiv ==> hm_equiv) hm_append.
Proof. intros k _ <- v _ <- m m' Hm k'. by rewrite !hm_get_all_append, Hm. Qed.
#[global] Instance hm_remove_proper : Proper (eq ==> hm_equiv ==> hm_equiv) hm_remove.
Proof. intros k _ <- m m' Hm k'. by rewrite !hm_get_all_remove, Hm. Qed.

Lemma hm_iter_spec m k v : (k, v) ∈ hm_iter m ↔ v ∈ hm_get_all m k.
Proof.
  rewrite <- hm_iter_get_all, list_elem_of_fmap. setoid_rewrite list_elem_of_filter.
  split; [intros Hkv; by exists (k, v)|]. intros ([k' v']&->&?&?). by simplify_eq/=.
Qed.
Lemma hm_get_insert_eq m k v : hm_get (hm_insert k v m) k = Some v.
Proof. unfold hm_get. by rewrite hm_get_all_insert, decide_True. Qed.
Lemma hm_get_insert_ne m k k' v : k' ≠ k → hm_get (hm_insert k v m) k' = hm_get m k'.
Proof. intros. unfold hm_get. by rewrite hm_get_all_insert, decide_False. Qed.
Lemma hm_insert_insert m k v v' : hm_equiv (hm_insert k v (hm_insert k v' m)) (hm_insert k v m).
Proof. intros k'. rewrite !hm_get_all_insert. by case_decide. Qed.
Lemma hm_set_first_none m k v : hm_get m k = None → hm_equiv (hm_set_first k v m) m.
Proof.
  unfold hm_get. intros Hk k'. rewrite hm_get_all_set_first. case_decide; subst; [|done].
  by destruct (hm_get_all m k).
Qed.
End laws.
End http.

#[export] Hint Resolve hm_get_insert_eq hm_get_insert_ne : spacegate.
