(* ===== verification/RefHttp.v ===== *)
(** * A reference instance of the HTTP libraries

    Header maps as association lists in insertion order, regular expressions that
    match one literal text, and parsers that accept what the examples need. It
    satisfies [HttpLaws], so the hypotheses of the theorems hold somewhere; no
    theorem depends on it. *)

From S2P Require Export Http.
Local Open Scope string_scope.
Local Open Scope list_scope.

Definition ref_get_all (m : list (string * string)) (k : string) : list string :=
  snd <$> filter (λ kv, kv.1 = k) m.

Fixpoint ref_set_first (k v : string) (m : list (string * string)) : list (string * string) :=
  match m with
  | [] => []
  | (k', v') :: m' => if decide (k' = k) then (k', v) :: m' else (k', v') :: ref_set_first k v m'
  end.

Definition ref_pq_parse (s : string) : option PathAndQuery :=
  match str_split_once "?" s with
  | Some (p, q) => Some (MkPq p (Some q))
  | None => Some (MkPq s None)
  end.

Fixpoint ref_digits (acc : Z) (s : string) : option Z :=
  match s with
  | "" => Some acc
  | String a s' => d ← to_digit 10 a; ref_digits (acc * 10 + d)%Z s'
  end.

Definition ref_authority_parse (s : string) : option (string * option Z) :=
  match str_rsplit_once ":" s with
  | Some (h, p) => p ← ref_digits 0 p; Some (h, Some p)
  | None => if str_is_empty s then None else Some (s, None)
  end.

#[export] Instance ref_http : HttpLib := {|
  Regex := string;
  re_is_match re s := bool_decide (re = s);
  re_replace re s r := if decide (re = s) then r else s;
  HeaderMap := list (string * string);
  hm_empty := [];
  hm_get_all := ref_get_all;
  hm_iter m := m;
  hm_insert k v m := (k, v) :: filter (λ kv, kv.1 ≠ k) m;
  hm_append k v m := m ++ [(k, v)];
  hm_remove k m := filter (λ kv, kv.1 ≠ k) m;
  hm_set_first := ref_set_first;
  hv_to_str := Some;
  hv_from_str := Some;
  pq_parse := ref_pq_parse;
  scheme_parse := Some;
  authority_parse := ref_authority_parse;
  uri_parts_ok _ := true;
|}.

Lemma ref_get_all_cons kv m k :
  ref_get_all (kv :: m) k = if decide (kv.1 = k) then kv.2 :: ref_get_all m k else ref_get_all m k.
Proof. unfold ref_get_all. rewrite filter_cons. by case_decide. Qed.

Lemma ref_get_all_removed m k k' :
  ref_get_all (filter (λ kv, kv.1 ≠ k) m) k' = if decide (k' = k) then [] else ref_get_all m k'.
Proof.
  induction m as [|[k2 v] m IH]; [by case_decide|].
  rewrite filter_cons. simpl. repeat case_decide; subst; rewrite ?ref_get_all_cons, ?IH; simpl;
    repeat case_decide; congruence.
Qed.

#[export] Instance ref_laws : HttpLaws ref_http.
Proof.
  split; simpl.
  - done.
  - intros m k v k'. rewrite ref_get_all_cons, ref_get_all_removed. simpl.
    repeat case_decide; congruence.
  - intros m k v k'. unfold ref_get_all. rewrite filter_app, fmap_app, filter_cons, filter_nil. simpl.
    repeat case_decide; simplify_eq/=; try done; by rewrite app_nil_r.
  - intros m k k'. apply ref_get_all_removed.
  - intros m k v k'. induction m as [|[k2 v2] m IH]; simpl; [by case_decide|].
    repeat (case_decide; simplify_eq/=); rewrite ?ref_get_all_cons; simpl; rewrite ?IH;
      repeat case_decide; simplify_eq/=; done.
  - done.
  - by intros s v [= ->].
Qed.
