(* ===== verification/MatchRequest.v ===== *)
(** * Request matching and rewriting

    [crates/kernel/src/service/http_route/match_request.rs] and
    [crates/kernel/src/utils/query_kv.rs]: the predicates of a route rule and the
    rewriting of the path and the headers of a request that matches. *)

From S2P Require Export Http.
From S2P Require Import RefHttp.
Local Open Scope string_scope.
Local Open Scope list_scope.
Local Open Scope nat_scope.

(** ** Query parameters *)

(** [QueryKvIter::next]: the item and the iterator's next state. *)
Definition query_kv_next (inner : string) : option ((string * option string) * string) :=
  if str_is_empty inner then None
  else
    match str_split_once "&" inner with
    | Some (k, v) =>
        match str_split_once "=" k with
        | Some (k', v') => Some ((k', Some v'), v)
        | None => Some ((k, None), v)
        end
    | None => Some ((inner, None), "")
    end.

(** The items of the iterator. A step shortens the rest, so the length of the query
    is enough fuel ([query_kv_total]). *)
Fixpoint query_kv_run (fuel : nat) (inner : string) : option (list (string * option string)) :=
  match fuel with
  | O => None
  | S fuel =>
      match query_kv_next inner with
      | None => Some []
      | Some (kv, rest) => l ← query_kv_run fuel rest; Some (kv :: l)
      end
  end.

Definition query_kvs (query : string) : list (string * option string) :=
  default [] (query_kv_run (S (String.length query)) query).

(** ** Segments of a path *)

(** The loop of [Prefix] matching over the two iterators. *)
Fixpoint match_prefix (path prefix : list string) : bool :=
  match path, prefix with
  | path_seg :: path', prefix_seg :: prefix' =>
      if eq_ignore_ascii_case path_seg prefix_seg then match_prefix path' prefix' else false
  | _, [] => true
  | [], _ :: _ => false
  end.

(** The loop of [Prefix] rewriting. [trailing] is [path.ends_with('/')]. *)
Definition append_segment (acc seg : string) : string := (acc +:+ "/") +:+ seg.

Definition rewritten_tail (replace rest_path : string) (path' : list string) (trailing : bool) : string :=
  let replace_value := trim_matches "/" replace in
  let new_path := "/" +:+ replace_value in
  let new_path := if str_is_empty replace_value then new_path else new_path +:+ "/" in
  let new_path := foldl append_segment (new_path +:+ rest_path) path' in
  if trailing then new_path +:+ "/" else new_path.

Fixpoint rewrite_prefix (replace : string) (trailing : bool) (path prefix : list string) : option string :=
  match path, prefix with
  | path_seg :: path', prefix_seg :: prefix' =>
      if eq_ignore_ascii_case path_seg prefix_seg
      then rewrite_prefix replace trailing path' prefix' else None
  | [], [] => Some ("/" +:+ trim_start_matches "/" replace)
  | rest_path :: path', [] => Some (rewritten_tail replace rest_path path' trailing)
  | [], _ :: _ => None
  end.

Inductive RewriteError := InvalidPathAndQuery | InvalidUriParts.

Section match_request.
Context `{HttpLib}.

(** [HttpPathMatchRewrite::replace_with] *)
Definition replace_with (m : HttpPathMatchRewrite) (replace : string) : HttpPathMatchRewrite :=
  match m with
  | PathExact path _ => PathExact path (Some replace)
  | PathPrefix path _ => PathPrefix path (Some replace)
  | PathRegExp re _ => PathRegExp re (Some replace)
  end.

(** [HttpPathMatchRewrite::rewrite] *)
Definition path_rewrite (m : HttpPathMatchRewrite) (path : string) : option string :=
  match m with
  | PathExact _ (Some replace) =>
      if eq_ignore_ascii_case replace path then Some replace else None
  | PathPrefix prefix (Some replace) =>
      rewrite_prefix replace (ends_with path "/") (segments "/" path) (segments "/" prefix)
  | PathRegExp re (Some replace) => Some (re_replace re path replace)
  | _ => None
  end.

(** [SgHttpHeaderMatchRewrite::rewrite] *)
Definition header_rewrite (m : SgHttpHeaderMatchRewrite) (req : Request) : option string :=
  header_value ← hm_get (req_headers req) (header_name m);
  s ← hv_to_str header_value;
  match header_policy m with
  | HeaderExact _ (Some replace) => if decide (s = replace) then Some replace else None
  | HeaderRegular re (Some replace) => if re_is_match re s then hv_from_str replace else None
  | _ => None
  end.

(** One iteration of the loop over the header matchers. *)
Definition rewrite_header (req : Request) (m : SgHttpHeaderMatchRewrite) : Request :=
  match header_rewrite m req, hm_get (req_headers req) (header_name m) with
  | Some replace, Some _ => set_headers (hm_set_first (header_name m) replace (req_headers req)) req
  | _, _ => req
  end.

Definition rewrite_uri (m : HttpRouteMatch) (req : Request) : Request * result unit RewriteError :=
  match uri_path_and_query (req_uri req), rm_path m with
  | Some pq, Some path_match =>
      match path_rewrite path_match (pq_path pq) with
      | Some new_path =>
          let new_pq := match pq_query pq with
                        | Some query => (new_path +:+ "?") +:+ query
                        | None => new_path
                        end in
          match pq_parse new_pq with
          | None => (req, Err InvalidPathAndQuery)
          | Some new_pq =>
              let u := req_uri req in
              match uri_from_parts (MkUri (uri_scheme u) (uri_authority u) (Some new_pq)) with
              | None => (req, Err InvalidUriParts)
              | Some u' => (set_uri u' req, Ok ())
              end
          end
      | None => (req, Ok ())
      end
  | _, _ => (req, Ok ())
  end.

(** [HttpRouteMatch::rewrite]: the request is mutated in place, so the headers stay
    rewritten when the path fails. *)
Definition route_rewrite (m : HttpRouteMatch) (req : Request) : Request * result unit RewriteError :=
  let req := match rm_header m with
             | Some headers_match => foldl rewrite_header req headers_match
             | None => req
             end in
  rewrite_uri m req.

(** ** [MatchRequest] *)

Class MatchRequest (M : Type) := match_request : M → Request → bool.

#[global] Instance match_query : MatchRequest HttpQueryMatch := λ m req,
  match uri_query (req_uri req) with
  | Some query =>
      let iter := query_kvs query in
      match query_policy m with
      | QueryExact q =>
          existsb (λ kv, bool_decide (kv.1 = query_name m) && bool_decide (kv.2 = Some q)) iter
      | QueryRegular re =>
          existsb (λ kv, bool_decide (kv.1 = query_name m) &&
                         match kv.2 with Some v => re_is_match re v | None => false end) iter
      end
  | None => false
  end.

#[global] Instance match_path : MatchRequest HttpPathMatchRewrite := λ m req,
  match m with
  | PathExact path _ => bool_decide (uri_path (req_uri req) = path)
  | PathPrefix path _ => match_prefix (segments "/" (uri_path (req_uri req))) (segments "/" path)
  | PathRegExp re _ => re_is_match re (uri_path (req_uri req))
  end.

#[global] Instance match_header : MatchRequest SgHttpHeaderMatchRewrite := λ m req,
  match header_policy m with
  | HeaderExact v _ =>
      match hm_get (req_headers req) (header_name m) with
      | Some v' => bool_decide (v' = v)
      | None => false
      end
  | HeaderRegular re _ =>
      existsb (λ kv, bool_decide (kv.1 = header_name m) &&
                     match hv_to_str kv.2 with Some v => re_is_match re v | None => false end)
        (hm_iter (req_headers req))
  end.

#[global] Instance match_method : MatchRequest HttpMethodMatch := λ m req,
  eq_ignore_ascii_case (req_method req) (method_name m).

#[global] Instance match_option {M} `{MatchRequest M} : MatchRequest (option M) := λ m req,
  match m with Some m => match_request m req | None => true end.

#[global] Instance match_vec {M} `{MatchRequest M} : MatchRequest (list M) := λ ms req,
  existsb (λ m, match_request m req) ms.

#[global] Instance match_route : MatchRequest HttpRouteMatch := λ m req,
  match_request (rm_path m) req && match_request (rm_header m) req &&
  match_request (rm_query m) req && match_request (rm_method m) req.

(** The [From] conversions into a rule with one matcher. *)
Definition from_path (m : HttpPathMatchRewrite) : HttpRouteMatch := MkRouteMatch (Some m) None None None.
Definition from_header (m : SgHttpHeaderMatchRewrite) : HttpRouteMatch := MkRouteMatch None (Some [m]) None None.
Definition from_query (m : HttpQueryMatch) : HttpRouteMatch := MkRouteMatch None None (Some [m]) None.
Definition from_method (m : HttpMethodMatch) : HttpRouteMatch := MkRouteMatch None None None (Some [m]).
End match_request.

(** ** Lemmas *)

Lemma query_kv_next_shorter inner kv rest :
  query_kv_next inner = Some (kv, rest) → String.length rest < String.length inner.
Proof.
  unfold query_kv_next. destruct (str_is_empty inner) eqn:He; [done|].
  destruct (str_split_once "&" inner) as [[k v]|] eqn:Hs.
  - apply str_split_once_Some in Hs as [-> _]. intros Hkv.
    assert (rest = v) as -> by (by destruct (str_split_once "=" k) as [[]|]; simplify_eq).
    clear. induction k as [|a k IH]; simpl; lia.
  - intros [= _ <-]. destruct inner; simpl; [done|lia].
Qed.

(** The iterator ends. *)
Lemma query_kv_total fuel inner : String.length inner < fuel → is_Some (query_kv_run fuel inner).
Proof.
  revert inner. induction fuel as [|fuel IH]; intros inner Hf; [lia|]. simpl.
  destruct (query_kv_next inner) as [[kv rest]|] eqn:E; [|done].
  apply query_kv_next_shorter in E. destruct (IH rest) as [l ->]; [lia|done].
Qed.

(** What the iterator computes, piece by piece: every piece but the last is split at
    its first [=]; the last is returned whole. *)
Definition parse_kv (piece : string) : string * option string :=
  match str_split_once "=" piece with Some (k, v) => (k, Some v) | None => (piece, None) end.

Fixpoint kvs_of_pieces (pieces : list string) : list (string * option string) :=
  match pieces with
  | [] => []
  | [p] => if str_is_empty p then [] else [(p, None)]
  | p :: ps => parse_kv p :: kvs_of_pieces ps
  end.

Lemma kvs_of_pieces_cons p s :
  kvs_of_pieces (p :: str_split "&" s) = parse_kv p :: kvs_of_pieces (str_split "&" s).
Proof. pose proof (str_split_cons_ne "&" s). by destruct (str_split "&" s). Qed.

Lemma query_kv_run_spec fuel inner :
  String.length inner < fuel → query_kv_run fuel inner = Some (kvs_of_pieces (str_split "&" inner)).
Proof.
  revert inner. induction fuel as [|fuel IH]; intros inner Hf; [lia|].
  cbn [query_kv_run]. destruct (query_kv_next inner) as [[kv rest]|] eqn:E.
  - pose proof (query_kv_next_shorter _ _ _ E) as Hlt. rewrite IH by lia. simpl.
    unfold query_kv_next in E. destruct (str_is_empty inner) eqn:He; [done|].
    destruct (str_split_once "&" inner) as [[k v]|] eqn:Hs.
    + apply str_split_once_Some in Hs as [-> Hk]. rewrite str_split_app, kvs_of_pieces_cons by done.
      unfold parse_kv. by destruct (str_split_once "=" k) as [[]|]; simplify_eq.
    + simplify_eq. apply str_split_once_None in Hs. rewrite (str_split_no_char "&" inner) by done.
      simpl. by rewrite He.
  - unfold query_kv_next in E. destruct (str_is_empty inner) eqn:He.
    + by apply str_is_empty_true in He as ->.
    + destruct (str_split_once "&" inner) as [[k v]|]; [|done].
      by destruct (str_split_once "=" k) as [[]|].
Qed.

Lemma query_kvs_spec query : query_kvs query = kvs_of_pieces (str_split "&" query).
Proof. unfold query_kvs. rewrite query_kv_run_spec by lia. done. Qed.

(** The two loops over the segments accept the same paths. *)
Lemma match_prefix_iff path prefix :
  match_prefix path prefix = true ↔ ∃ p1 p2, path = p1 ++ p2 ∧ Forall2 ieq p1 prefix.
Proof.
  revert prefix. induction path as [|s path IH]; intros [|t prefix]; simpl.
  - split; [|done]. intros _. by exists [], [].
  - split; [done|]. intros (p1 & p2 & Hp & HF). destruct p1; [inversion HF|done].
  - split; [|done]. intros _. by exists [], (s :: path).
  - destruct (eq_ignore_ascii_case s t) eqn:E.
    + rewrite IH. split.
      * intros (p1 & p2 & -> & HF). exists (s :: p1), p2. split; [done|]. by constructor.
      * intros (p1 & p2 & Hp & HF). inversion HF; simplify_eq/=. eauto.
    + split; [done|]. intros (p1 & p2 & Hp & HF). inversion HF as [|?? ?? Hi]; simplify_eq/=.
      unfold ieq in Hi. congruence.
Qed.

Lemma rewrite_prefix_None replace trailing path prefix :
  rewrite_prefix replace trailing path prefix = None ↔ match_prefix path prefix = false.
Proof.
  revert prefix. induction path as [|s path IH]; intros [|t prefix]; simpl; try done.
  by destruct (eq_ignore_ascii_case s t).
Qed.

Lemma rewrite_prefix_Some replace trailing path prefix new :
  rewrite_prefix replace trailing path prefix = Some new →
  match_prefix path prefix = true ∧
  match drop (length prefix) path with
  | [] => new = "/" +:+ trim_start_matches "/" replace
  | s :: l => new = rewritten_tail replace s l trailing
  end.
Proof.
  revert prefix. induction path as [|s path IH]; intros [|t prefix]; simpl;
    [by intros [= <-]|done|by intros [= <-]|].
  destruct (eq_ignore_ascii_case s t); [apply IH|done].
Qed.

Lemma segments_append_all acc l :
  Forall (λ p, no_char "/" p ∧ p ≠ "") l →
  segments "/" (foldl append_segment acc l) = segments "/" acc ++ l.
Proof.
  intros Hl. revert acc. induction Hl as [|p l [Hp Hne] Hl IH]; intros acc; simpl.
  - by rewrite app_nil_r.
  - rewrite IH. unfold append_segment. rewrite <- str_app_assoc. simpl.
    rewrite segments_app_sep, (segments_piece _ p) by done. by rewrite <- app_assoc.
Qed.

Lemma starts_slash_append_all acc l :
  starts_with acc "/" = true → starts_with (foldl append_segment acc l) "/" = true.
Proof.
  revert acc. induction l as [|p l IH]; intros acc Ha; simpl; [done|].
  apply IH. apply starts_with_spec in Ha as [t ->]. apply starts_with_spec.
  unfold append_segment. rewrite <- !str_app_assoc. eauto.
Qed.

Lemma rewritten_tail_spec replace s l trailing :
  no_char "/" s ∧ s ≠ "" → Forall (λ p, no_char "/" p ∧ p ≠ "") l →
  starts_with (rewritten_tail replace s l trailing) "/" = true ∧
  segments "/" (rewritten_tail replace s l trailing) = segments "/" replace ++ s :: l.
Proof.
  intros [Hs Hne] Hl. unfold rewritten_tail.
  set (acc := "/" +:+ trim_matches "/" replace).
  set (base := (if str_is_empty (trim_matches "/" replace) then acc else acc +:+ "/") +:+ s).
  assert (starts_with base "/" = true ∧ segments "/" base = segments "/" replace ++ [s]) as [Hb1 Hb2].
  { subst base acc. destruct (str_is_empty (trim_matches "/" replace)) eqn:E.
    - apply str_is_empty_true in E. rewrite E. split; [apply starts_with_spec; by eexists|].
      rewrite <- (segments_trim _ replace), E. simpl. by rewrite segments_sep, (segments_piece _ s).
    - split; [apply starts_with_spec; simpl; by eexists|].
      rewrite <- !str_app_assoc. simpl.
      by rewrite segments_sep, segments_app_sep, segments_trim, (segments_piece _ s). }
  assert (Hseg : segments "/" (foldl append_segment base l) = segments "/" replace ++ s :: l).
  { rewrite segments_append_all, Hb2 by done. by rewrite <- app_assoc. }
  pose proof (starts_slash_append_all base l Hb1) as Hst.
  destruct trailing; [|done]. split.
  - apply starts_with_spec in Hst as [t ->]. apply starts_with_spec. rewrite <- str_app_assoc. eauto.
  - rewrite segments_app_sep, segments_nil, app_nil_r. done.
Qed.

Lemma segments_drop_pieces n s : Forall (λ p, no_char "/" p ∧ p ≠ "") (drop n (segments "/" s)).
Proof. apply Forall_drop, segments_pieces. Qed.

(** What [Prefix] rewriting returns, on both outcomes. *)
Lemma rewrite_prefix_spec replace path prefix :
  match rewrite_prefix replace (ends_with path "/") (segments "/" path) prefix with
  | Some new =>
      match_prefix (segments "/" path) prefix = true ∧
      starts_with new "/" = true ∧
      segments "/" new = segments "/" replace ++ drop (length prefix) (segments "/" path)
  | None => match_prefix (segments "/" path) prefix = false
  end.
Proof.
  destruct (rewrite_prefix _ _ _ _) as [new|] eqn:E; [|by apply rewrite_prefix_None in E].
  apply rewrite_prefix_Some in E as [Hm Hnew]. split; [done|].
  pose proof (segments_drop_pieces (length prefix) path) as HF.
  destruct (drop (length prefix) (segments "/" path)) as [|s l]; subst new.
  - split; [apply starts_with_spec; simpl; by eexists|].
    simpl. by rewrite segments_sep, segments_trim_start, app_nil_r.
  - apply Forall_cons in HF as [Hs Hl]. by apply rewritten_tail_spec.
Qed.

(** Case-insensitive prefixes. *)
Lemma match_prefix_app p1 p2 prefix : Forall2 ieq p1 prefix → match_prefix (p1 ++ p2) prefix = true.
Proof. intros. apply match_prefix_iff. eauto. Qed.

Lemma elem_kvs_of_pieces k v ps :
  (k, Some v) ∈ kvs_of_pieces ps ↔
  ∃ l1 p l2, ps = l1 ++ p :: l2 ∧ l2 ≠ [] ∧ parse_kv p = (k, Some v).
Proof.
  induction ps as [|p ps IH].
  - simpl. split; [by intros ?%elem_of_nil|]. by intros ([|??]&?&?&?&?).
  - destruct ps as [|q ps].
    + split.
      * simpl. destruct (str_is_empty p); [by intros ?%elem_of_nil|].
        by intros ?%list_elem_of_singleton.
      * intros ([|? [|??]]&?&?&?&?&?); simplify_eq/=.
    + change (kvs_of_pieces (p :: q :: ps)) with (parse_kv p :: kvs_of_pieces (q :: ps)).
      rewrite elem_of_cons, IH. split.
      * intros [?|(l1&p'&l2&->&?&?)]; [by exists [], p, (q :: ps)|by exists (p :: l1), p', l2].
      * intros ([|? l1]&p'&l2&?&?&?); simplify_eq/=; [by left|right; eauto 10].
Qed.

Lemma parse_kv_spec p k v : parse_kv p = (k, Some v) ↔ p = k +:+ String "=" v ∧ no_char "=" k.
Proof.
  unfold parse_kv. rewrite <- str_split_once_Some.
  destruct (str_split_once "=" p) as [[k' v']|]; naive_solver.
Qed.

(** ** Rewriting a request *)

Section rewriting.
Context `{HttpLaws}.

(** The part of a request no rewriting touches. *)
Definition same_frame (r r' : Request) : Prop :=
  req_method r' = req_method r ∧ req_version r' = req_version r ∧
  req_ext r' = req_ext r ∧ req_body r' = req_body r ∧
  uri_scheme (req_uri r') = uri_scheme (req_uri r) ∧
  uri_authority (req_uri r') = uri_authority (req_uri r).

#[global] Instance same_frame_preorder : PreOrder same_frame.
Proof. unfold same_frame. split; [done|]. intros r1 r2 r3. naive_solver congruence. Qed.

(** The header values of a name keep their number, and all but the first stay. *)
Definition same_but_first (m m' : HeaderMap) (k : string) : Prop :=
  length (hm_get_all m' k) = length (hm_get_all m k) ∧ tail (hm_get_all m' k) = tail (hm_get_all m k).

Lemma rewrite_header_frame req m :
  same_frame req (rewrite_header req m) ∧ req_uri (rewrite_header req m) = req_uri req ∧
  (∀ k, k ≠ header_name m → hm_get_all (req_headers (rewrite_header req m)) k = hm_get_all (req_headers req) k) ∧
  ∀ k, same_but_first (req_headers req) (req_headers (rewrite_header req m)) k.
Proof.
  unfold rewrite_header. destruct (header_rewrite m req) as [v|]; [|done].
  destruct (hm_get _ _); [|done]. split_and!; try done; unfold same_but_first; simpl.
  - intros k Hk. by rewrite hm_get_all_set_first, decide_False.
  - intros k. rewrite hm_get_all_set_first. case_decide; [|done]. by destruct (hm_get_all _ _).
Qed.

Lemma rewrite_headers_frame req ms :
  same_frame req (foldl rewrite_header req ms) ∧ req_uri (foldl rewrite_header req ms) = req_uri req ∧
  (∀ k, k ∉ header_name <$> ms →
     hm_get_all (req_headers (foldl rewrite_header req ms)) k = hm_get_all (req_headers req) k) ∧
  ∀ k, same_but_first (req_headers req) (req_headers (foldl rewrite_header req ms)) k.
Proof.
  revert req. induction ms as [|m ms IH]; intros req; [done|].
  change (foldl rewrite_header req (m :: ms)) with (foldl rewrite_header (rewrite_header req m) ms).
  destruct (IH (rewrite_header req m)) as (F1 & U1 & K1 & S1).
  destruct (rewrite_header_frame req m) as (F2 & U2 & K2 & S2). split_and!.
  - by etrans.
  - congruence.
  - intros k Hk. rewrite fmap_cons, not_elem_of_cons in Hk. destruct Hk. by rewrite K1, K2.
  - intros k. destruct (S1 k), (S2 k). split; congruence.
Qed.

Lemma rewrite_uri_frame m req :
  same_frame req (rewrite_uri m req).1 ∧ req_headers (rewrite_uri m req).1 = req_headers req ∧
  ((rewrite_uri m req).2 ≠ Ok () → (rewrite_uri m req).1 = req).
Proof.
  unfold rewrite_uri.
  destruct (uri_path_and_query _); [|done]. destruct (rm_path m) as [pm|]; [|done].
  destruct (path_rewrite _ _); [|done]. destruct (pq_parse _); [|done].
  unfold uri_from_parts. destruct (uri_parts_ok _); [|done]. done.
Qed.
End rewriting.

(** ** Properties *)

(** a [Prefix] matcher accepts exactly the requests whose path starts with the
    segments of the prefix, ignoring ASCII letter case and repeated, leading and
    trailing slashes; in particular [/foo] does not match [/foobar]. *)
Theorem prefix_match_iff `{HttpLib} p r req :
  match_request (PathPrefix p r) req = true ↔
  ∃ p1 p2, segments "/" (uri_path (req_uri req)) = p1 ++ p2 ∧ Forall2 ieq p1 (segments "/" p).
Proof. apply match_prefix_iff. Qed.

(** A [Prefix] rewrite succeeds exactly on the paths the matcher accepts; the new
    path is absolute and consists of the segments of the replacement followed by the
    segments of the path after the prefix. *)
Theorem prefix_rewrite_spec `{HttpLib} p r path :
  match path_rewrite (PathPrefix p (Some r)) path with
  | Some new =>
      match_prefix (segments "/" path) (segments "/" p) = true ∧
      starts_with new "/" = true ∧
      segments "/" new = segments "/" r ++ drop (length (segments "/" p)) (segments "/" path)
  | None => match_prefix (segments "/" path) (segments "/" p) = false
  end.
Proof. apply rewrite_prefix_spec. Qed.

(** Rewriting a prefix [p] to [r] and then [r] back to [p] leads to a path with the
    same segments up to letter case. *)
Theorem prefix_rewrite_roundtrip `{HttpLib} p r path new :
  path_rewrite (PathPrefix p (Some r)) path = Some new →
  ∃ back, path_rewrite (PathPrefix r (Some p)) new = Some back ∧
          Forall2 ieq (segments "/" back) (segments "/" path).
Proof.
  intros E. pose proof (rewrite_prefix_spec r path (segments "/" p)) as Hs.
  unfold path_rewrite in *. rewrite E in Hs. destruct Hs as (Hm & _ & Hnew).
  apply match_prefix_iff in Hm as (p1 & p2 & Hp & HF).
  pose proof (rewrite_prefix_spec p new (segments "/" r)) as Hb.
  destruct (rewrite_prefix p (ends_with new "/") _ _) as [back|].
  - destruct Hb as (_ & _ & Hb). exists back. split; [done|].
    rewrite Hb, Hnew, drop_app_length, Hp, <- (Forall2_length _ _ _ HF), drop_app_length.
    apply Forall2_app; [|reflexivity]. by symmetry.
  - rewrite Hnew, match_prefix_app in Hb; [done|]. reflexivity.
Qed.

Lemma prefix_rewrite_roundtrip_witness :
  ∃ back, @path_rewrite ref_http (PathPrefix "/new/" (Some "/api/v1")) "/new/users/1" = Some back ∧
          Forall2 ieq (segments "/" back) (segments "/" "/API/v1//users/1").
Proof.
  apply (@prefix_rewrite_roundtrip ref_http "/api/v1" "/new/" "/API/v1//users/1" "/new/users/1").
  vm_compute. reflexivity.
Defined.

(** A rule with an [Exact] path never replaces the path it matched by a different
    one: [rewrite] compares the replacement, not the value of the rule, with the path
    of the request. *)
Theorem exact_rewrite_inert `{HttpLaws} m v r req :
  rm_path m = Some (PathExact v (Some r)) →
  match_request m req = true →
  ¬ ieq r v →
  req_uri (route_rewrite m req).1 = req_uri req ∧ (route_rewrite m req).2 = Ok ().
Proof.
  intros Hpath Hm Hne. pose proof (rewrite_headers_frame req (default [] (rm_header m))) as (_ & U & _).
  unfold route_rewrite. set (req1 := match rm_header m with Some hs => _ | None => _ end).
  assert (req_uri req1 = req_uri req) as Hu by (subst req1; by destruct (rm_header m)).
  assert (uri_path (req_uri req) = v) as Hv.
  { unfold match_request, match_route in Hm. repeat apply andb_true_iff in Hm as [Hm _].
    rewrite Hpath in Hm. by apply bool_decide_eq_true in Hm. }
  unfold rewrite_uri. rewrite Hu, Hpath. destruct (uri_path_and_query (req_uri req)) as [pq|] eqn:Epq; [|done].
  unfold uri_path in Hv. rewrite Epq in Hv. subst v. cbn [path_rewrite].
  destruct (eq_ignore_ascii_case r (pq_path pq)) eqn:E; [by destruct Hne|done].
Qed.

Lemma exact_rewrite_inert_witness :
  let m := @MkRouteMatch ref_http (Some (PathExact "/old" (Some "/new"))) None None None in
  let req := MkReq "GET" (MkUri None None (Some (MkPq "/old" None))) 11 [] ext_empty "" in
  match_request m req = true ∧
  req_uri (route_rewrite m req).1 = req_uri req ∧ (route_rewrite m req).2 = Ok ().
Proof.
  intros m req. split; [vm_compute; reflexivity|].
  apply (@exact_rewrite_inert ref_http ref_laws m "/old" "/new" req);
    [reflexivity | vm_compute; reflexivity | vm_compute; discriminate].
Defined.

(** A query matcher with an exact value accepts exactly the queries in which
    [name=value] is one of the [&]-separated pieces other than the last: the last pair
    of a query, so also its only one, is never split at [=]. *)
Theorem query_exact_iff `{HttpLib} name v req :
  match_request (MkQueryMatch name (QueryExact v)) req = true ↔
  ∃ q l1 l2, uri_query (req_uri req) = Some q ∧ no_char "=" name ∧
    str_split "&" q = l1 ++ (name +:+ String "=" v) :: l2 ∧ l2 ≠ [].
Proof.
  unfold match_request, match_query. cbn [query_name query_policy].
  destruct (uri_query (req_uri req)) as [q|]; [|naive_solver].
  rewrite existsb_Exists, Exists_exists, query_kvs_spec. split.
  - intros ([k v'] & Hin & [Hn Hv]%andb_true_iff). apply bool_decide_eq_true in Hn, Hv.
    cbn [fst snd] in Hn, Hv. subst k v'.
    apply elem_kvs_of_pieces in Hin as (l1 & p & l2 & Hq & Hl2 & [-> Hk]%parse_kv_spec).
    by exists q, l1, l2.
  - intros (q' & l1 & l2 & [= <-] & Hk & Hq & Hl2). exists (name, Some v).
    split; [|cbn [fst snd]; by rewrite !bool_decide_eq_true_2].
    apply elem_kvs_of_pieces. exists l1, (name +:+ String "=" v), l2. split_and!; try done.
    by apply parse_kv_spec.
Qed.

(** rewriting a matched request keeps its method, version, extensions, body, scheme
    and authority; it changes no header without a header matcher of the rule, of the
    others only the first value, and when the new path is rejected the URI is the old one. *)
Theorem route_rewrite_frame `{HttpLaws} m req :
  let req' := (route_rewrite m req).1 in
  same_frame req req' ∧
  (∀ k, k ∉ header_name <$> default [] (rm_header m) →
     hm_get_all (req_headers req') k = hm_get_all (req_headers req) k) ∧
  (∀ k, same_but_first (req_headers req) (req_headers req') k) ∧
  ((route_rewrite m req).2 ≠ Ok () → req_uri req' = req_uri req).
Proof.
  unfold route_rewrite.
  set (req1 := match rm_header m with Some hs => _ | None => _ end).
  assert (Hreq1 : req1 = foldl rewrite_header req (default [] (rm_header m)))
    by (subst req1; by destruct (rm_header m)).
  clearbody req1. subst req1.
  pose proof (rewrite_headers_frame req (default [] (rm_header m))) as (F1 & U1 & K1 & S1).
  pose proof (rewrite_uri_frame m (foldl rewrite_header req (default [] (rm_header m)))) as (F2 & U2 & E2).
  cbn zeta. split_and!.
  - by etrans.
  - intros k Hk. rewrite U2. auto.
  - intros k. rewrite U2. auto.
  - intros Hres. rewrite (E2 Hres). done.
Qed.

Lemma route_rewrite_frame_witness :
  let m := @MkRouteMatch ref_http (Some (PathPrefix "/a" (Some "/b")))
             (Some [MkHeaderMatch "x-k" (HeaderRegular "1" (Some "2"))]) None None in
  let req := MkReq "GET" (MkUri (Some "http") (Some ("h", None)) (Some (MkPq "/a/c" (Some "q=1")))) 11
               [("x-k", "1"); ("x-k", "1")] ext_empty "" in
  let req' := (route_rewrite m req).1 in
  uri_path (req_uri req') = "/b/c" ∧ hm_get_all (req_headers req') "x-k" = ["2"; "1"] ∧
  (same_frame req req' ∧
  (∀ k, k ∉ header_name <$> default [] (rm_header m) →
     hm_get_all (req_headers req') k = hm_get_all (req_headers req) k) ∧
  (∀ k, same_but_first (req_headers req) (req_headers req') k) ∧
  ((route_rewrite m req).2 ≠ Ok () → req_uri req' = req_uri req)).
Proof.
  intros m req req'. split; [vm_compute; reflexivity|split; [vm_compute; reflexivity|]].
  exact (@route_rewrite_frame ref_http ref_laws m req).
Defined.
