(* ===== verification/Service.v ===== *)
(** * Services and layers

    What the gateway composes its pipeline from: layers and their folding, the
    request-mapping layer, the timeout layer, the reloadable service, the balancer
    with its three policies, and deferred calls ([crates/kernel/src/helper_layers],
    [utils/fold_box_layers.rs], [extension/defer.rs]).

    The generators, hashers and clocks a call consults are the interface [Runtime]:
    what a call gets from them is a function of the request being served. *)

From S2P Require Export Http.
From S2P Require Import RefHttp.
Local Open Scope string_scope.
Local Open Scope list_scope.
Local Open Scope nat_scope.

Class Runtime `{HttpLib} := {
  (** [rand::distr::weighted::WeightedIndex<u16>]: [new], and [sample] with the
      thread's generator *)
  WeightedIndex : Type;
  weighted_index : list Z → option WeightedIndex;
  sample : WeightedIndex → Request → nat;
  (** [DefaultHasher], on an address and on bytes *)
  hash_ip : IpAddr → Z;
  hash_bytes : string → Z;
  (** whether the deadline of a timeout passes before the inner future is ready *)
  expired : Z → Request → bool;
  (** the closure of a deferred call *)
  deferred : nat → Request → Request;
}.

Class RuntimeLaws `{HttpLib} (R : Runtime) : Prop := {
  weighted_index_ok ws :
    is_Some (weighted_index ws) ↔
    ws ≠ [] ∧ Forall (λ w, 0 ≤ w)%Z ws ∧ (0 < foldr Z.add 0 ws < 2 ^ 16)%Z;
  sample_ok ws wi req :
    weighted_index ws = Some wi → ∃ w, ws !! sample wi req = Some w ∧ (0 < w)%Z;
  hash_ip_range ip : in_unsigned 64 (hash_ip ip);
  hash_bytes_range s : in_unsigned 64 (hash_bytes s);
}.

(** ** Layers *)

Section layers.
Context `{HttpLib}.

(** [fold_layers]: the first layer of the list is the outermost. *)
Fixpoint fold_layers_rev (layers : list BoxLayer) (inner : Service) : Service :=
  match layers with
  | [] => inner
  | l :: layers' => fold_layers_rev layers' (l inner)
  end.
Definition fold_layers (layers : list BoxLayer) (inner : Service) : Service :=
  fold_layers_rev (reverse layers) inner.

(** [MapRequest::call] and [add_extension] for [GatewayName] *)
Definition map_request (f : Request → Request) : BoxLayer := λ inner req, inner (f req).

Definition add_gateway_name (name : string) (reflect : bool) (req : Request) : Request :=
  let req := map_ext (ext_set_gateway_name name) req in
  if reflect then
    match ext_reflect (req_ext req) with
    | Some r => map_ext (ext_set_reflect (Some (rf_set_gateway_name name r))) req
    | None => req
    end
  else req.

(** [FnLayer]: the method gets the request and the inner service. *)
Definition fn_layer (method : Request → Service → option Response) : BoxLayer :=
  λ inner req, method req inner.

(** *** [TimeoutFuture::poll] *)

Inductive Poll (A : Type) := Ready (a : A) | Pending.
Arguments Ready {A} a.
Arguments Pending {A}.

Definition timeout_poll (timeout_response : string) (sleep : Poll unit) (inner : Poll (option Response))
  : Poll (option Response) :=
  match sleep with
  | Ready _ => Ready (Some (MkResp 504 hm_empty ext_empty timeout_response))
  | Pending => inner
  end.

(** The polls of one future, until one of them is ready: the state of the timer and of
    the inner future at each of them. *)
Fixpoint timeout_run (timeout_response : string) (polls : list (Poll unit * Poll (option Response)))
  : Poll (option Response) :=
  match polls with
  | [] => Pending
  | (sleep, inner) :: polls' =>
      match timeout_poll timeout_response sleep inner with
      | Ready r => Ready r
      | Pending => timeout_run timeout_response polls'
      end
  end.

Context `{!Runtime}.

(** [TimeoutLayer::new(timeout).layer(inner)] *)
Definition timeout_layer (timeout : Z) : BoxLayer := λ inner req,
  if expired timeout req then Some (MkResp 504 hm_empty ext_empty "") else inner req.

(** [Defer::apply]: the list is drained, then the calls run in order. *)
Definition defer_apply (req : Request) : Request :=
  match ext_defer (req_ext req) with
  | Some fs => foldl (λ r f, deferred f r) (map_ext (ext_set_defer []) req) fs
  | None => req
  end.

(** [SgRequestExt::defer_call] *)
Definition defer_call (f : nat) (req : Request) : Request :=
  map_ext (ext_set_defer (default [] (ext_defer (req_ext req)) ++ [f])) req.
End layers.
Arguments Ready {A} a.
Arguments Pending {A}.

(** ** Reloading

    [helper_layers/reload.rs]. The state of one [Reloader]: the locks its layer has
    created, and the one its [OnceLock] holds. *)

Section reload.
Context {S : Type}.

Record Reloader := MkReloader { rl_locks : list S; rl_service : option nat }.
Definition reloader_default : Reloader := MkReloader [] None.

(** [Reloader::setup] *)
Definition setup (l : nat) (r : Reloader) : Reloader :=
  match rl_service r with
  | Some _ => r
  | None => MkReloader (rl_locks r) (Some l)
  end.

(** [ReloadLayer::layer]: the [Reload] service is the index of its lock. *)
Definition reload_layer (inner : S) (r : Reloader) : nat * Reloader :=
  let l := length (rl_locks r) in
  (l, setup l (MkReloader (rl_locks r ++ [inner]) (rl_service r))).

(** [Reloader::reload] *)
Definition reload (s : S) (r : Reloader) : Reloader :=
  match rl_service r with
  | Some l => MkReloader (<[l := s]> (rl_locks r)) (Some l)
  | None => r
  end.

(** [Reload::call] reads its lock. *)
Definition reload_read (l : nat) (r : Reloader) : option S := rl_locks r !! l.

(** The reloader's lock exists. *)
Definition reloader_wf (r : Reloader) : Prop :=
  match rl_service r with Some l => l < length (rl_locks r) | None => rl_locks r = [] end.

Lemma reload_layer_wf s r : reloader_wf r → reloader_wf (reload_layer s r).2.
Proof.
  unfold reloader_wf, reload_layer, setup. simpl.
  destruct (rl_service r); simpl; rewrite length_app; simpl; lia.
Qed.

Lemma reload_wf s r : reloader_wf r → reloader_wf (reload s r).
Proof.
  unfold reloader_wf, reload. destruct (rl_service r) eqn:E; simpl; [|by rewrite E].
  by rewrite length_insert.
Qed.
End reload.
Arguments Reloader S : clear implicits.

(** ** Load balancing *)

Class BalancePolicy (P S R : Type) := pick : P → list S → R → option S.

Record Balancer (P S : Type) := MkBalancer { b_policy : P; b_instances : list S; b_fallback : S }.
Arguments MkBalancer {P S}.
Arguments b_policy {P S}.
Arguments b_instances {P S}.
Arguments b_fallback {P S}.

(** The service [Balancer::call] hands the request to. *)
Definition balancer_pick {P S R} `{BalancePolicy P S R} (b : Balancer P S) (req : R) : S :=
  default (b_fallback b) (pick (b_policy b) (b_instances b) req).

Section policies.
Context `{HttpLib} `{!Runtime} {S : Type}.

Inductive IpHash := MkIpHash.
Inductive McpSessionHash := MkMcpSessionHash.
Record Random := MkRandom { picker : WeightedIndex }.

(** [Random::new]: [None] is the panic "invalid weights". *)
Definition random_new (weights : list Z) : option Random := MkRandom <$> weighted_index weights.

Definition pick_by_hash (hash : Z) (instances : list S) : option S :=
  instances !! Z.to_nat (hash mod Z.of_nat (length instances)).

#[global] Instance pick_ip_hash : BalancePolicy IpHash S Request := λ _ instances req,
  match instances with
  | [] => None
  | [s] => Some s
  | _ =>
      addr ← ext_peer_addr (req_ext req);
      pick_by_hash (hash_ip (to_canonical addr.1)) instances
  end.

#[global] Instance pick_mcp_session : BalancePolicy McpSessionHash S Request := λ _ instances req,
  match instances with
  | [] => None
  | [s] => Some s
  | _ =>
      match hm_get (req_headers req) "mcp-session-id" with
      | Some session_id => pick_by_hash (hash_bytes session_id) instances
      | None =>
          addr ← ext_peer_addr (req_ext req);
          pick_by_hash (hash_ip (to_canonical addr.1)) instances
      end
  end.

#[global] Instance pick_random : BalancePolicy Random S Request := λ p instances req,
  match instances with
  | [] => None
  | [s] => Some s
  | _ => instances !! sample (picker p) req
  end.

(** [RandomPick::new] panics on no service and on invalid weights; [RandomPick::call]
    indexes the services. *)
Record RandomPick := MkRandomPick { rp_picker : WeightedIndex; rp_services : list S }.
Definition random_pick_new (services : list (Z * S)) : option RandomPick :=
  match services with
  | [] => None
  | _ => p ← weighted_index (fst <$> services); Some (MkRandomPick p (snd <$> services))
  end.
Definition random_pick_call (r : RandomPick) (req : Request) : option S :=
  match rp_services r with
  | [s] => Some s
  | ss => ss !! sample (rp_picker r) req
  end.
End policies.
Arguments Random {_ _}.
Arguments RandomPick {_ _} S.

(** A reference runtime: the first draw with a positive weight, the address as its own
    hash, a clock that never expires and no deferred closures. *)
#[export] Instance ref_runtime : @Runtime ref_http := {|
  WeightedIndex := list Z;
  weighted_index ws :=
    if decide (ws ≠ [] ∧ Forall (λ w, 0 ≤ w)%Z ws ∧ (0 < foldr Z.add 0 ws < 2 ^ 16)%Z) then Some ws else None;
  sample ws _ := default 0 (fst <$> list_find (λ w, 0 < w)%Z ws);
  hash_ip ip := match ip with V4 a => a mod 2 ^ 64 | V6 a => a mod 2 ^ 64 end%Z;
  hash_bytes s := (Z.of_nat (String.length s) mod 2 ^ 64)%Z;
  expired _ _ := false;
  deferred _ r := r;
|}.

Lemma positive_weight ws :
  Forall (λ w, 0 ≤ w)%Z ws → (0 < foldr Z.add 0 ws)%Z → Exists (λ w, 0 < w)%Z ws.
Proof.
  induction 1 as [|w ws Hw Hws IH]; simpl; [lia|]. intros Hsum.
  destruct (decide (0 < w)%Z); [by left|right; apply IH; lia].
Qed.

#[export] Instance ref_runtime_laws : @RuntimeLaws ref_http ref_runtime.
Proof.
  split; cbn [weighted_index sample hash_ip hash_bytes ref_runtime].
  - intros ws. case_decide; [naive_solver|]. split; [by intros []|done].
  - intros ws wi req. case_decide as Hws; [|done]. intros [= <-].
    destruct Hws as (_ & Hpos & [Hsum _]).
    pose proof (positive_weight ws Hpos Hsum) as (w & Hin & Hw)%Exists_exists.
    destruct (list_find_elem_of (λ w, 0 < w)%Z ws w Hin Hw) as [[i w'] Hf].
    rewrite Hf. simpl. apply list_find_Some in Hf as (Hi & Hw' & _). eauto.
  - intros []; apply Z.mod_pos_bound; lia.
  - intros s. apply Z.mod_pos_bound; lia.
Qed.

(** ** Lemmas *)

Section pick_lemmas.
Context {S : Type}.
Implicit Types (l : list S).

Lemma pick_by_hash_total h l : l ≠ [] → ∃ s, pick_by_hash h l = Some s ∧ s ∈ l.
Proof.
  intros Hl. unfold pick_by_hash.
  assert (0 < length l) by (destruct l; [done|simpl; lia]).
  destruct (lookup_lt_is_Some_2 l (Z.to_nat (h mod Z.of_nat (length l)))) as [s Hs].
  { pose proof (Z.mod_pos_bound h (Z.of_nat (length l))). lia. }
  exists s. split; [done|]. by eapply list_elem_of_lookup_2.
Qed.
End pick_lemmas.

Section fold_lemmas.
Context `{HttpLib}.

Lemma fold_layers_cons l ls inner : fold_layers (l :: ls) inner = l (fold_layers ls inner).
Proof.
  unfold fold_layers. rewrite reverse_cons. generalize (reverse ls) as rs. intros rs.
  revert inner. induction rs as [|r rs IH]; intros inner; simpl; [done|apply IH].
Qed.

Lemma fold_layers_app l1 l2 inner : fold_layers (l1 ++ l2) inner = fold_layers l1 (fold_layers l2 inner).
Proof.
  induction l1 as [|l l1 IH]; [done|]. rewrite <- app_comm_cons, !fold_layers_cons. by rewrite IH.
Qed.
End fold_lemmas.

(** ** Properties *)

(** With at least one instance and a known peer address, the IP-hash policy always
    picks one of the instances (the balancer's fallback is never used), and two
    requests from the same client, whether over IPv4 or IPv4-mapped IPv6 and from any
    port, are sent to the same instance. *)
Theorem ip_hash_sticky `{HttpLib} `{!Runtime} {S} (instances : list S) fallback req req' ip port ip' port' :
  instances ≠ [] →
  ext_peer_addr (req_ext req) = Some (ip, port) →
  ext_peer_addr (req_ext req') = Some (ip', port') →
  to_canonical ip = to_canonical ip' →
  let b := MkBalancer MkIpHash instances fallback in
  balancer_pick b req ∈ instances ∧ balancer_pick b req = balancer_pick b req'.
Proof.
  intros Hne Hp Hp' Hip. unfold balancer_pick, pick, pick_ip_hash. cbn [b_policy b_instances b_fallback].
  rewrite Hp, Hp'. destruct instances as [|s [|s2 l]]; [done|by split; [left|]|].
  cbn -[pick_by_hash]. rewrite <- Hip.
  destruct (pick_by_hash_total (hash_ip (to_canonical ip)) (s :: s2 :: l)) as (x & -> & Hx); [done|].
  by split.
Qed.

Lemma ip_hash_sticky_witness :
  let b := MkBalancer MkIpHash ["a"; "b"; "c"] "fallback" in
  let req addr := @MkReq ref_http "GET" (MkUri None None None) 11 [] (ext_set_peer_addr addr ext_empty) "" in
  let req1 := req (V4 2130706433, 1000)%Z in
  let req2 := req (V6 (65535 * 2 ^ 32 + 2130706433), 2000)%Z in
  balancer_pick b req1 ∈ ["a"; "b"; "c"] ∧ balancer_pick b req1 = balancer_pick b req2.
Proof.
  apply (@ip_hash_sticky ref_http ref_runtime string ["a"; "b"; "c"] "fallback" _ _
           (V4 2130706433) 1000 (V6 (65535 * 2 ^ 32 + 2130706433)) 2000);
    [discriminate | reflexivity | reflexivity | vm_compute; reflexivity].
Defined.

(** The weighted policy of a rule with several backends picks a backend, and never
    one of weight zero; the policy cannot be built, and the code panics, exactly when
    there is no backend, all weights are zero, or their sum overflows [u16]. *)
Theorem random_positive_weight `{HttpLib} `{!RuntimeLaws R} {S} (instances : list S) ws :
  length ws = length instances → Forall (in_unsigned 16) ws →
  match random_new ws with
  | Some p =>
      ∀ req, 1 < length instances →
      ∃ i s w, pick p instances req = Some s ∧ instances !! i = Some s ∧ ws !! i = Some w ∧ (0 < w)%Z
  | None => ws = [] ∨ (foldr Z.add 0 ws = 0)%Z ∨ (2 ^ 16 ≤ foldr Z.add 0 ws)%Z
  end.
Proof.
  intros Hlen Hws.
  assert (Hpos : Forall (λ w, 0 ≤ w)%Z ws) by (eapply Forall_impl; [done|]; unfold in_unsigned; lia).
  unfold random_new. destruct (weighted_index ws) as [wi|] eqn:E; simpl.
  - intros req Hl. destruct (sample_ok ws wi req E) as (w & Hw & Hgt).
    destruct (lookup_lt_is_Some_2 instances (sample wi req)) as [s Hs].
    { rewrite <- Hlen. apply lookup_lt_is_Some_1. eauto. }
    exists (sample wi req), s, w. split_and!; try done.
    unfold pick, pick_random. destruct instances as [|? [|??]]; simpl in Hl; try lia. done.
  - destruct (decide (ws = [])); [by left|]. right.
    assert (Hn : ¬ is_Some (weighted_index ws)) by (by rewrite E; intros []).
    rewrite weighted_index_ok in Hn.
    assert (0 ≤ foldr Z.add 0 ws)%Z by (clear -Hpos; induction Hpos; simpl; lia).
    destruct (decide (0 < foldr Z.add 0 ws)%Z); [|lia]. right.
    destruct (decide (foldr Z.add 0 ws < 2 ^ 16)%Z); [|lia]. naive_solver.
Qed.

Lemma random_positive_weight_witness :
  match @random_new ref_http ref_runtime [0; 3]%Z with
  | Some p => ∀ req, 1 < length ["a"; "b"] →
      ∃ i s w, pick p ["a"; "b"] req = Some s ∧ ["a"; "b"] !! i = Some s ∧ [0; 3]%Z !! i = Some w ∧ (0 < w)%Z
  | None => [0; 3]%Z = [] ∨ (foldr Z.add 0 [0; 3] = 0)%Z ∨ (2 ^ 16 ≤ foldr Z.add 0 [0; 3])%Z
  end.
Proof.
  apply (@random_positive_weight ref_http ref_runtime ref_runtime_laws string ["a"; "b"] [0; 3]%Z);
    [reflexivity | repeat constructor; unfold in_unsigned; lia].
Defined.

(** A timeout future answers with the inner response of the first poll at which
    the inner future is ready, unless the timer is ready at that poll or an earlier
    one, in which case the answer is an empty 504; it is pending only if no poll found
    either of them ready. *)
Theorem timeout_run_spec `{HttpLib} body polls :
  match timeout_run body polls with
  | Pending => Forall (λ p, p = (Pending, Pending)) polls
  | Ready r =>
      ∃ l1 sleep inner l2, polls = l1 ++ (sleep, inner) :: l2 ∧
        Forall (λ p, p = (Pending, Pending)) l1 ∧
        match sleep with
        | Pending => inner = Ready r
        | Ready _ => r = Some (MkResp 504 hm_empty ext_empty body)
        end
  end.
Proof.
  induction polls as [|[sleep inner] polls IH]; simpl; [done|].
  destruct sleep as [[]|]; simpl.
  - by exists [], (Ready ()), inner, polls.
  - destruct inner as [r|].
    + by exists [], Pending, (Ready r), polls.
    + destruct (timeout_run body polls) as [r|]; [|by constructor].
      destruct IH as (l1 & sl & i & l2 & -> & Hl & Hr).
      exists ((Pending, Pending) :: l1), sl, i, l2. split_and!; [done|by constructor|done].
Qed.

(** Reloading reaches the service of the first layer made from a reloader, whose
    next call runs the new service; services layered later stay as they were, and a
    reload before any layer is lost. *)
Theorem reload_first_layer {S} (s1 s2 s : S) :
  reload s reloader_default = reloader_default ∧
  let '(l1, r) := reload_layer s1 reloader_default in
  let '(l2, r) := reload_layer s2 r in
  reload_read l1 r = Some s1 ∧
  reload_read l1 (reload s r) = Some s ∧
  reload_read l2 (reload s r) = Some s2 ∧
  reloader_wf (reload s r).
Proof. unfold reload_read, reloader_wf. simpl. split_and!; try done. lia. Qed.
