(* ===== verification/Upstream.v ===== *)
(** * What answers a request at the end of the pipeline

    [crates/kernel/src/backend_service.rs], [backend_service/http_client_service.rs]
    and [backend_service/static_file_service.rs], with [utils/x_forwarded_for.rs] and
    [extension/reflect.rs]. The HTTP client and the file system are interfaces. *)

From S2P Require Export Http.
From S2P Require Import RefHttp.
Local Open Scope string_scope.
Local Open Scope list_scope.

(** The client, and the collection of a streamed body. *)
Class Client `{HttpLib} := {
  client_send : Request → result Response string;
  body_dump : string → result string string;
}.

(** [canonicalize] and [open] of a path, the metadata of an open file, its contents,
    and the libraries that guess a MIME type and read an RFC 3339 date. *)
Inductive OpenError := NotFound | PermissionDenied | OtherError.
Record Metadata := MkMetadata { md_is_dir : bool; md_modified : option Z }.
Class FileSystem := {
  canonicalize : string → option string;
  open_file : string → option OpenError;
  metadata : string → option Metadata;
  read_file : string → string;
  guess_mime : string → list string;
  parse_rfc3339 : string → option Z;
}.

(** ** Proxying *)

Section client.
Context `{HttpLib} `{!Client}.

(** [x_forwarded_for]: the text of an address is always a valid header value. *)
Definition x_forwarded_for (req : Request) : Request :=
  match ext_peer_addr (req_ext req) with
  | Some (peer_ip, _) => set_headers (hm_append "x-forwarded-for" (ip_string peer_ip) (req_headers req)) req
  | None => req
  end.

(** [HttpClient::request]: the reflected extensions of the request move to the response. *)
Definition client_request (req : Request) : Response :=
  let reflect := ext_reflect (req_ext req) in
  let req := map_ext (ext_set_reflect None) req in
  match client_send req with
  | Ok response =>
      match reflect with
      | Some r => map_resp_ext (λ e, ext_extend e r) response
      | None => response
      end
  | Err message => with_code_message 502 message
  end.

Definition set_body (b : string) (r : Request) : Request :=
  MkReq (req_method r) (req_uri r) (req_version r) (req_headers r) (req_ext r) b.
Definition set_resp_body (b : string) (r : Response) : Response :=
  MkResp (resp_status r) (resp_headers r) (resp_ext r) b.

Definition is_websocket (req : Request) : bool :=
  match hm_get (req_headers req) "upgrade" with
  | Some upgrade => eq_ignore_ascii_case upgrade "websocket"
  | None => false
  end.

(** [http_backend_service_inner]; the transfer task a WebSocket upgrade spawns runs
    after the response and does not change it. *)
Definition http_backend_service_inner (req : Request) : result Response string :=
  let req := x_forwarded_for req in
  if is_websocket req then
    let? body := body_dump (req_body req) in
    let resp := client_request (set_body body req) in
    let? body := body_dump (resp_body resp) in
    Ok (set_resp_body body resp)
  else Ok (client_request req).

Definition http_backend_service (req : Request) : Response :=
  match http_backend_service_inner req with
  | Ok resp => resp
  | Err err => with_code_message 502 ("[Sg.Client] Client error: " +:+ err)
  end.
End client.

(** ** Static files *)

(** [Path::components]: repeated separators and inner [.] are dropped. *)
Definition path_components (p : string) : list string :=
  let pieces := str_split "/" p in
  let keep := filter (λ s, s ≠ "" ∧ s ≠ ".") in
  if starts_with p "/" then "/" :: keep pieces
  else match pieces with
       | "." :: l => "." :: keep l
       | l => keep l
       end.

(** [Path::starts_with] *)
Definition path_starts_with (p base : string) : bool :=
  bool_decide (take (length (path_components base)) (path_components p) = path_components base).

(** [dir.join(rel)] for a [rel] that is not absolute *)
Definition path_join (dir rel : string) : string :=
  if str_is_empty dir then rel
  else if ends_with dir "/" then dir +:+ rel else (dir +:+ "/") +:+ rel.

Section static.
Context `{HttpLib} `{!FileSystem}.

Definition header_value_to_rfc3339 (v : string) : option Z := s ← hv_to_str v; parse_rfc3339 s.

Definition predict (headers : HeaderMap) (last_modified : option Z) : option Z :=
  let since name := v ← hm_get headers name; header_value_to_rfc3339 v in
  opt_or
    (s ← since "if-unmodified-since"; m ← last_modified; if decide (s < m)%Z then Some 412%Z else None)
    (s ← since "if-modified-since"; m ← last_modified; if decide (m ≤ s)%Z then Some 304%Z else None).

(** The file that is opened: the canonical path, or the directory itself when the path
    has none. *)
Definition resolve (req : Request) (dir : string) : string :=
  default dir (canonicalize (path_join dir (trim_start_matches "/" (uri_path (req_uri req))))).

Definition send_file (path : string) (response : Response) : Response :=
  let mimes := omap hv_from_str (guess_mime path) in
  let headers := foldl (λ h m, hm_append "content-type" m h) (resp_headers response) mimes in
  MkResp 200 headers (resp_ext response) (read_file path).

(** The steps after the file is open. *)
Definition serve_open_file (req : Request) (path : string) (response : Response) : Response :=
  match metadata path with
  | Some md =>
      match predict (req_headers req) (md_modified md) with
      | Some code => set_status code response
      | None =>
          if md_is_dir md
          then set_resp_headers (hm_insert "location" "/index.html" (resp_headers response)) (set_status 303 response)
          else send_file path response
      end
  | None => send_file path response
  end.

Definition static_file_service (req : Request) (dir : string) : Response :=
  let response := MkResp 200 hm_empty
    (match ext_reflect (req_ext req) with Some r => ext_extend ext_empty r | None => ext_empty end) "" in
  let path := resolve req dir in
  if negb (path_starts_with path dir)
  then MkResp 404 (resp_headers response) (resp_ext response) "file is not under the path"
  else match open_file path with
       | Some NotFound => set_status 404 response
       | Some PermissionDenied => MkResp 403 (resp_headers response) (resp_ext response) "access permission denied"
       | Some OtherError => set_status 500 response
       | None => serve_open_file req path response
       end.
End static.

(** ** Properties *)

(** A reference file system: one readable file and one outside the served directory. *)
#[export] Instance ref_fs : FileSystem := {|
  canonicalize p := if decide (p = "/srv/../etc/passwd") then Some "/etc/passwd" else Some p;
  open_file p := if decide (p = "/srv/a.txt" ∨ p = "/etc/passwd") then None else Some NotFound;
  metadata p := Some (MkMetadata false (Some 10%Z));
  read_file p := p;
  guess_mime _ := ["text/plain"];
  parse_rfc3339 _ := None;
|}.

Lemma predict_code `{HttpLib} `{!FileSystem} headers lm code :
  predict headers lm = Some code → code = 412%Z ∨ code = 304%Z.
Proof.
  unfold predict. rewrite opt_or_Some. intros [Hc|[_ Hc]];
    repeat (apply bind_Some in Hc as (? & _ & Hc)); case_decide; naive_solver.
Qed.



(** An upstream that answers every request with its path. *)
#[export] Instance ref_client : @Client ref_http := {|
  client_send req := Ok (MkResp 200 [] ext_empty (uri_path (req_uri req)));
  body_dump b := Ok b;
|}.
