(* ===== verification/Route.v ===== *)
(** * Routes, rules and backends

    [crates/kernel/src/service/http_route.rs] and [http_route/builder.rs], with
    [utils/schema_port.rs]: the data of a route, its builders, the rewriting of a
    request by its backend and the service a rule is made into. *)

From S2P Require Export MatchRequest Service Upstream.
From S2P Require Import RefHttp.
Local Open Scope string_scope.
Local Open Scope list_scope.
Local Open Scope Z_scope.

(** ** Schemes and ports

    The macro puts [_ => None] behind every arm, so only the first arm is ever
    reached. *)
Definition schema_to_port (schema : string) : option Z :=
  if decide (schema = "http") then Some 80 else None.
Definition port_to_schema (port : Z) : option string :=
  if decide (port = 80) then Some "http" else None.

Section route.
Context `{HttpLib} `{!Runtime}.

(** ** Data *)

Inductive BalancePolicyEnum := BpRandom | BpIpHash | BpMcpSession.

Inductive RequestTimeout := TimeoutDefault | TimeoutDisabled | TimeoutDuration (d : Z).

Inductive Backend :=
| BackendHttp (host : option string) (port : option Z) (schema : option string) (version : option Z)
| BackendFile (path : string).

Record HttpBackend := MkBackend {
  be_plugins : list BoxLayer;
  be_backend : Backend;
  be_weight : Z;
  be_timeout : RequestTimeout;
  be_ext : Extensions;
}.

Record HttpRouteRule := MkRule {
  r_match : option (list HttpRouteMatch);
  r_plugins : list BoxLayer;
  r_timeout : RequestTimeout;
  r_backends : list HttpBackend;
  r_balance_policy : BalancePolicyEnum;
  r_ext : Extensions;
}.

Record HttpRoute := MkRoute {
  rt_name : string;
  rt_hostnames : list string;
  rt_plugins : list BoxLayer;
  rt_rules : list HttpRouteRule;
  rt_priority : Z;
  rt_ext : Extensions;
}.

(** ** Builders *)

Record HttpRouteBuilder := MkRouteBuilder {
  rb_name : string;
  rb_hostnames : list string;
  rb_rules : list HttpRouteRule;
  rb_plugins : list BoxLayer;
  rb_priority : option Z;
  rb_ext : Extensions;
}.
Definition route_builder_new : HttpRouteBuilder := MkRouteBuilder "" [] [] [] None ext_empty.
Definition route_name (name : string) (b : HttpRouteBuilder) :=
  MkRouteBuilder name (rb_hostnames b) (rb_rules b) (rb_plugins b) (rb_priority b) (rb_ext b).
Definition route_hostnames (hs : list string) (b : HttpRouteBuilder) :=
  MkRouteBuilder (rb_name b) hs (rb_rules b) (rb_plugins b) (rb_priority b) (rb_ext b).
Definition route_rules (rules : list HttpRouteRule) (b : HttpRouteBuilder) :=
  MkRouteBuilder (rb_name b) (rb_hostnames b) (rb_rules b ++ rules) (rb_plugins b) (rb_priority b) (rb_ext b).
Definition route_rule (rule : HttpRouteRule) := route_rules [rule].
Definition route_plugins (ps : list BoxLayer) (b : HttpRouteBuilder) :=
  MkRouteBuilder (rb_name b) (rb_hostnames b) (rb_rules b) (rb_plugins b ++ ps) (rb_priority b) (rb_ext b).
Definition route_plugin (p : BoxLayer) := route_plugins [p].
Definition route_priority (p : Z) (b : HttpRouteBuilder) :=
  MkRouteBuilder (rb_name b) (rb_hostnames b) (rb_rules b) (rb_plugins b) (Some p) (rb_ext b).
Definition route_ext (e : Extensions) (b : HttpRouteBuilder) :=
  MkRouteBuilder (rb_name b) (rb_hostnames b) (rb_rules b) (rb_plugins b) (rb_priority b) e.
Definition route_build (b : HttpRouteBuilder) : HttpRoute :=
  let hostnames :=
    if existsb (λ h, bool_decide (h = "*")) (rb_hostnames b) then ["*"] else rb_hostnames b in
  MkRoute (rb_name b) hostnames (rb_plugins b) (rb_rules b) (default 1 (rb_priority b)) (rb_ext b).

(** A rule builder has the fields of the rule it builds. *)
Definition rule_builder_new : HttpRouteRule := MkRule None [] TimeoutDefault [] BpIpHash ext_empty.
Definition rule_set_match (m : option (list HttpRouteMatch)) (r : HttpRouteRule) :=
  MkRule m (r_plugins r) (r_timeout r) (r_backends r) (r_balance_policy r) (r_ext r).
Definition match_item (item : HttpRouteMatch) (r : HttpRouteRule) : HttpRouteRule :=
  match r_match r with
  | Some matches => rule_set_match (Some (matches ++ [item])) r
  | None => rule_set_match (Some [item]) r
  end.
Definition rule_matches (ms : list HttpRouteMatch) := rule_set_match (Some ms).
Definition match_all := rule_set_match None.
Definition rule_plugins (ps : list BoxLayer) (r : HttpRouteRule) :=
  MkRule (r_match r) (r_plugins r ++ ps) (r_timeout r) (r_backends r) (r_balance_policy r) (r_ext r).
Definition rule_plugin (p : BoxLayer) := rule_plugins [p].
Definition rule_set_timeout (t : RequestTimeout) (r : HttpRouteRule) :=
  MkRule (r_match r) (r_plugins r) t (r_backends r) (r_balance_policy r) (r_ext r).
Definition rule_timeout (d : Z) := rule_set_timeout (TimeoutDuration d).
Definition rule_disable_timeout := rule_set_timeout TimeoutDisabled.
Definition rule_backends (bs : list HttpBackend) (r : HttpRouteRule) :=
  MkRule (r_match r) (r_plugins r) (r_timeout r) (r_backends r ++ bs) (r_balance_policy r) (r_ext r).
Definition rule_backend (b : HttpBackend) := rule_backends [b].
Definition rule_balance_policy (p : BalancePolicyEnum) (r : HttpRouteRule) :=
  MkRule (r_match r) (r_plugins r) (r_timeout r) (r_backends r) p (r_ext r).
Definition rule_ext (e : Extensions) (r : HttpRouteRule) :=
  MkRule (r_match r) (r_plugins r) (r_timeout r) (r_backends r) (r_balance_policy r) e.

Definition backend_builder_new : HttpBackend :=
  MkBackend [] (BackendHttp None None None None) 1 TimeoutDefault ext_empty.
Definition set_backend (f : Backend → Backend) (b : HttpBackend) :=
  MkBackend (be_plugins b) (f (be_backend b)) (be_weight b) (be_timeout b) (be_ext b).
(** The setters of the kind builder: a file builder has no setter but [path]. *)
Definition backend_http (b : HttpBackend) := set_backend (λ _, BackendHttp None None None None) b.
Definition backend_file (b : HttpBackend) := set_backend (λ _, BackendFile "") b.
Definition backend_path (p : string) := set_backend (λ _, BackendFile p).
Definition backend_host (v : string) := set_backend (λ k, match k with
  | BackendHttp _ p s ver => BackendHttp (Some v) p s ver | f => f end).
Definition backend_port (v : Z) := set_backend (λ k, match k with
  | BackendHttp h _ s ver => BackendHttp h (Some v) s ver | f => f end).
Definition backend_schema (v : string) := set_backend (λ k, match k with
  | BackendHttp h p _ ver => BackendHttp h p (Some v) ver | f => f end).
Definition backend_version (v : Z) := set_backend (λ k, match k with
  | BackendHttp h p s _ => BackendHttp h p s (Some v) | f => f end).
Definition backend_plugins (ps : list BoxLayer) (b : HttpBackend) :=
  MkBackend (be_plugins b ++ ps) (be_backend b) (be_weight b) (be_timeout b) (be_ext b).
Definition backend_weight (w : Z) (b : HttpBackend) :=
  MkBackend (be_plugins b) (be_backend b) w (be_timeout b) (be_ext b).
Definition backend_timeout (t : RequestTimeout) (b : HttpBackend) :=
  MkBackend (be_plugins b) (be_backend b) (be_weight b) t (be_ext b).
Definition backend_ext (e : Extensions) (b : HttpBackend) :=
  MkBackend (be_plugins b) (be_backend b) (be_weight b) (be_timeout b) e.
End route.

(** ** Backends *)

Section backend.
Context `{HttpLib} `{!Runtime} `{!Client} `{!FileSystem}.

(** The backend host the request is sent to, in its extensions. *)
Definition insert_backend_host (host : string) (req : Request) : Request :=
  let req := match ext_access_log (req_ext req) with
             | Some c => map_ext (ext_set_access_log (MkAccessLog (al_route_name c) host)) req
             | None => req
             end in
  let req := match ext_reflect (req_ext req) with
             | Some r => map_ext (ext_set_reflect (Some (rf_set_backend_host host r))) req
             | None => req
             end in
  map_ext (ext_set_backend_host host) req.

(** The URI of the request to the backend; [None] when it cannot be built. *)
Definition backend_uri (host : option string) (port : option Z) (schema : option string) (uri : Uri)
  : option Uri :=
  let '(raw_host, raw_port) := default ("", None) (uri_authority uri) in
  let new_host := default raw_host host in
  let new_port := opt_or port raw_port in
  let new_scheme :=
    default "http" (opt_or schema (opt_or (uri_scheme uri) (p ← new_port; port_to_schema p))) in
  let authority := match new_port with
                   | Some p => (new_host +:+ ":") +:+ dec_string p
                   | None => new_host
                   end in
  uri_build new_scheme authority (uri_path_and_query uri).

(** The request a backend sends. *)
Definition backend_request (b : Backend) (req : Request) : Request :=
  match b with
  | BackendHttp None None None None | BackendFile _ => req
  | BackendHttp host port schema version =>
      let req := match host with Some h => insert_backend_host h req | None => req end in
      let req := match backend_uri host port schema (req_uri req) with
                 | Some uri => set_uri uri req
                 | None => req
                 end in
      match version with Some v => set_version v req | None => req end
  end.

(** [HttpBackendService::call] *)
Definition backend_call (b : Backend) : Service := λ req,
  let req := defer_apply (backend_request b req) in
  let response := match b with
                  | BackendHttp _ _ _ _ => http_backend_service req
                  | BackendFile path => static_file_service req path
                  end in
  Some (map_resp_ext ext_set_from_backend response).

(** ** Services *)

Definition DEFAULT_TIMEOUT : Z := 30 * 10 ^ 9.

Definition with_timeout (t : RequestTimeout) (s : Service) : Service :=
  match t with
  | TimeoutDefault => timeout_layer DEFAULT_TIMEOUT s
  | TimeoutDuration d => timeout_layer d s
  | TimeoutDisabled => s
  end.

(** [HttpBackend::as_service] *)
Definition backend_as_service (b : HttpBackend) : Service :=
  fold_layers (be_plugins b) (with_timeout (be_timeout b) (backend_call (be_backend b))).

(** [get_http_backend_service]: the fallback sends the request as it is. *)
Definition get_http_backend_service : Service := λ req, Some (http_backend_service req).

Definition balanced {P} `{!BalancePolicy P Service Request} (p : P) (instances : list Service) : Service :=
  λ req, balancer_pick (MkBalancer p instances get_http_backend_service) req req.

(** [HttpRouteRule::as_service]; [None] is the panic of the random policy. *)
Definition rule_as_service (r : HttpRouteRule) : option Service :=
  let instances := backend_as_service <$> r_backends r in
  b ← match r_balance_policy r with
      | BpRandom => p ← random_new (be_weight <$> r_backends r); Some (balanced p instances)
      | BpIpHash => Some (balanced MkIpHash instances)
      | BpMcpSession => Some (balanced MkMcpSessionHash instances)
      end;
  Some (fold_layers (r_plugins r) (with_timeout (r_timeout r) b)).
End backend.

(** ** Lemmas *)

Section backend_lemmas.
Context `{HttpLib} `{!Runtime} `{!Client} `{!FileSystem}.

Lemma rule_as_service_None r :
  rule_as_service r = None ↔
  r_balance_policy r = BpRandom ∧ random_new (be_weight <$> r_backends r) = None.
Proof.
  unfold rule_as_service. destruct (r_balance_policy r); cbn [mbind option_bind]; try naive_solver.
  destruct (random_new _); naive_solver.
Qed.

Lemma insert_backend_host_frame h req :
  req_headers (insert_backend_host h req) = req_headers req ∧
  req_uri (insert_backend_host h req) = req_uri req ∧
  req_body (insert_backend_host h req) = req_body req ∧
  req_method (insert_backend_host h req) = req_method req ∧
  req_version (insert_backend_host h req) = req_version req ∧
  ext_defer (req_ext (insert_backend_host h req)) = ext_defer (req_ext req) ∧
  ext_peer_addr (req_ext (insert_backend_host h req)) = ext_peer_addr (req_ext req) ∧
  ext_reflect (req_ext (insert_backend_host h req)) =
    rf_set_backend_host h <$> ext_reflect (req_ext req).
Proof.
  destruct req as [m u v hs [pa oi gn rn bh mr mi rf al df fb ew rm ru rl mp] b]. unfold insert_backend_host. simpl.
  destruct al as [[]|], rf as [[]|]; simpl; by split_and!.
Qed.

Lemma backend_uri_path host port schema uri u :
  backend_uri host port schema uri = Some u → uri_path_and_query u = uri_path_and_query uri.
Proof.
  unfold backend_uri, uri_build, uri_from_parts.
  destruct (default _ _) as [rh rp]. intros Hu.
  repeat (apply bind_Some in Hu as (? & _ & Hu)). case_match; by simplify_eq.
Qed.

Lemma backend_request_reflect b req :
  ext_reflect (req_ext (backend_request b req)) =
  match b with
  | BackendHttp (Some h) _ _ _ => rf_set_backend_host h <$> ext_reflect (req_ext req)
  | _ => ext_reflect (req_ext req)
  end.
Proof.
  destruct b as [h p s v|]; [|done]. destruct h as [h|].
  - destruct (insert_backend_host_frame h req) as (_ & _ & _ & _ & _ & _ & _ & <-).
    cbn [backend_request]. by destruct (backend_uri _ _ _ _), v.
  - destruct p, s, v; cbn [backend_request]; try done; by destruct (backend_uri _ _ _ _).
Qed.

Lemma backend_request_defer b req : ext_defer (req_ext (backend_request b req)) = ext_defer (req_ext req).
Proof.
  destruct b as [h p s v|]; [|done]. destruct h as [h|].
  - destruct (insert_backend_host_frame h req) as (_ & _ & _ & _ & _ & <- & _).
    cbn [backend_request]. by destruct (backend_uri _ _ _ _), v.
  - destruct p, s, v; cbn [backend_request]; try done; by destruct (backend_uri _ _ _ _).
Qed.
Lemma backend_request_headers b req : req_headers (backend_request b req) = req_headers req.
Proof.
  destruct b as [h p s v|]; [|done]. destruct h as [h|].
  - destruct (insert_backend_host_frame h req) as (<- & _).
    cbn [backend_request]. by destruct (backend_uri _ _ _ _), v.
  - destruct p, s, v; cbn [backend_request]; try done; by destruct (backend_uri _ _ _ _).
Qed.

Lemma defer_apply_None req : ext_defer (req_ext req) = None → defer_apply req = req.
Proof. unfold defer_apply. by intros ->. Qed.

Lemma x_forwarded_for_websocket `{!HttpLaws _} req : is_websocket (x_forwarded_for req) = is_websocket req.
Proof.
  unfold is_websocket, x_forwarded_for. destruct (ext_peer_addr _) as [[ip ?]|]; [|done].
  cbn [req_headers set_headers]. unfold hm_get. rewrite hm_get_all_append. by rewrite decide_False.
Qed.

Lemma x_forwarded_for_ext req : req_ext (x_forwarded_for req) = req_ext req.
Proof. unfold x_forwarded_for. by destruct (ext_peer_addr _) as [[]|]. Qed.

(** Reflected values override the response's own. *)
Lemma ext_extend_spec e r :
  ext_gateway_name (ext_extend e r) = opt_or (rf_gateway_name r) (ext_gateway_name e) ∧
  ext_route_name (ext_extend e r) = opt_or (rf_route_name r) (ext_route_name e) ∧
  ext_backend_host (ext_extend e r) = opt_or (rf_backend_host r) (ext_backend_host e).
Proof. destruct e, r as [[] [] [] [] []]; simpl; by split_and!. Qed.
End backend_lemmas.

(** ** Properties *)



(** When the upstream answers, the response of a backend is marked as coming from
    one and carries the gateway and route names that the [Reflect] of the request
    recorded, and the host of the backend; this is where the access log reads them. *)
Theorem backend_response_reflects `{HttpLaws} `{!Client} `{!FileSystem} `{!Runtime}
    host port schema version req gateway route own meth uri :
  ext_reflect (req_ext req) = Some (MkReflect (Some gateway) (Some route) own meth uri) →
  ext_defer (req_ext req) = None →
  is_websocket req = false →
  (∀ q, ∃ resp, client_send q = Ok resp) →
  ∃ resp, backend_call (BackendHttp (Some host) port schema version) req = Some resp ∧
    ext_from_backend (resp_ext resp) = true ∧
    ext_gateway_name (resp_ext resp) = Some gateway ∧
    ext_route_name (resp_ext resp) = Some route ∧
    ext_backend_host (resp_ext resp) = Some host.
Proof.
  intros Hr Hd Hws Hsend. set (b := BackendHttp (Some host) port schema version).
  unfold backend_call. rewrite defer_apply_None by (by rewrite backend_request_defer).
  eexists. split; [reflexivity|].
  set (req2 := x_forwarded_for (backend_request b req)).
  assert (Hws2 : is_websocket req2 = false).
  { subst req2. rewrite x_forwarded_for_websocket. revert Hws. unfold is_websocket.
    by rewrite backend_request_headers. }
  assert (Hr2 : ext_reflect (req_ext req2) = Some (MkReflect (Some gateway) (Some route) (Some host) meth uri)).
  { subst req2. rewrite x_forwarded_for_ext, backend_request_reflect, Hr. done. }
  unfold http_backend_service, http_backend_service_inner. fold req2. rewrite Hws2.
  unfold client_request. rewrite Hr2. destruct (Hsend (map_ext (ext_set_reflect None) req2)) as [resp ->].
  subst b. cbn [map_resp_ext resp_ext].
  destruct (ext_extend_spec (resp_ext resp) (MkReflect (Some gateway) (Some route) (Some host) meth uri)) as (E1 & E2 & E3).
  revert E1 E2 E3. generalize (ext_extend (resp_ext resp) (MkReflect (Some gateway) (Some route) (Some host) meth uri)).
  intros e E1 E2 E3. destruct e. by split_and!.
Qed.

Lemma backend_response_reflects_witness :
  let ext := ext_set_reflect (Some (MkReflect (Some "gw") (Some "route") None None None)) ext_empty in
  let req := @MkReq ref_http "GET" (MkUri None None (Some (MkPq "/a" None))) 11 [] ext "" in
  ∃ resp, backend_call (BackendHttp (Some "example.com") None None None) req = Some resp ∧
    ext_from_backend (resp_ext resp) = true ∧
    ext_gateway_name (resp_ext resp) = Some "gw" ∧
    ext_route_name (resp_ext resp) = Some "route" ∧
    ext_backend_host (resp_ext resp) = Some "example.com".
Proof.
  intros ext req.
  apply (@backend_response_reflects ref_http ref_laws ref_client ref_fs ref_runtime
    "example.com" None None None req "gw" "route" None None None);
    [reflexivity | reflexivity | reflexivity | intros q; eexists; reflexivity].
Defined.
