(* ===== verification/Gateway.v ===== *)
(** * The gateway

    [crates/kernel/src/service/http_gateway.rs], [http_gateway/builder.rs] and
    [helper_layers/route.rs]: how the routes of a gateway become a router and its
    services, how a request is routed, and the service of the gateway.

    Two choices of the standard library are interfaces: the order in which the
    [HashMap] of the routes is listed, and the order in which [sort_unstable_by_key]
    leaves elements with equal keys ([StdOrder]). *)

From S2P Require Export HostnameTree Route.
From S2P Require Import RefHttp.
Local Open Scope string_scope.
Local Open Scope list_scope.
Local Open Scope nat_scope.

(** A route index with its priority, as the host tree stores it. *)
Notation entry := (nat * Z)%type.

Class StdOrder := {
  sort_unstable_by_key : (entry → Z) → list entry → list entry;
  map_values : ∀ {A}, gmap string A → list A;
}.
Class StdOrderLaws `(StdOrder) : Prop := {
  sort_perm key l : Permutation l (sort_unstable_by_key key l);
  sort_sorted key l : StronglySorted (λ a b, key a ≤ key b)%Z (sort_unstable_by_key key l);
  map_values_perm {A} (m : gmap string A) : Permutation (map_values m) (snd <$> map_to_list m);
}.

Section gateway.
Context `{HttpLib} `{!Runtime} `{!Client} `{!FileSystem} `{!StdOrder}.

(** ** Data *)

Record HttpRouter := MkRouter {
  router_name : string;
  router_hostnames : list string;
  router_rules : list (option (list HttpRouteMatch));
  router_ext : Extensions;
}.

Record GatewayRouter := MkGatewayRouter {
  routers : list HttpRouter;
  hostname_tree : HostnameTree (list entry);
}.

(** [RouterService<HttpRoutedService, GatewayRouter, ArcHyperService>] *)
Record HttpRouterService := MkRouterService {
  rs_services : list (list Service);
  rs_router : GatewayRouter;
  rs_fallback : Service;
}.

(** ** Routing *)

(** [insert_route_name] *)
Definition insert_route_name (name : string) (req : Request) : Request :=
  let req := match ext_access_log (req_ext req) with
             | Some c => map_ext (ext_set_access_log (MkAccessLog name (al_upstream_host c))) req
             | None => req
             end in
  let req := match ext_reflect (req_ext req) with
             | Some r => map_ext (ext_set_reflect (Some (rf_set_route_name name r))) req
             | None => req
             end in
  map_ext (ext_set_route_name name) req.

(** What [route] returns, with the request it has changed. *)
Definition RouteResult : Type := option (nat * nat) * Request.

(** One rule of a route: [None] when it does not match. *)
Definition route_rule_at (name : string) (index : nat * nat) (matches : option (list HttpRouteMatch))
    (req : Request) : option RouteResult :=
  match matches with
  | Some matches =>
      m ← find_map (λ m, if match_request m req then Some m else None) matches;
      let req := map_ext (ext_set_matched_router m) (insert_route_name name req) in
      match route_rewrite m req with
      | (req, Ok ()) => Some (Some index, req)
      | (req, Err _) => Some (None, req)
      end
  | None => Some (Some index, insert_route_name name req)
  end.

Fixpoint route_rules_from (name : string) (route_index idx1 : nat)
    (rules : list (option (list HttpRouteMatch))) (req : Request) : option RouteResult :=
  match rules with
  | [] => None
  | rule :: rules' =>
      match route_rule_at name (route_index, idx1) rule req with
      | Some r => Some r
      | None => route_rules_from name route_index (S idx1) rules' req
      end
  end.

(** The loop over the indices; [None] is the panic of an index out of bounds. *)
Fixpoint route_indices (routers : list HttpRouter) (indices : list entry) (req : Request) : option RouteResult :=
  match indices with
  | [] => Some (None, req)
  | (route_index, _) :: indices' =>
      router ← routers !! route_index;
      match route_rules_from (router_name router) route_index 0 (router_rules router) req with
      | Some r => Some r
      | None => route_indices routers indices' req
      end
  end.

Definition request_host_text (req : Request) : option string :=
  opt_or (uri_host (req_uri req)) (v ← hm_get (req_headers req) "host"; hv_to_str v).

(** [GatewayRouter::route] *)
Definition route (r : GatewayRouter) (req : Request) : option RouteResult :=
  match (h ← request_host_text req; tree_get h (hostname_tree r)) with
  | Some indices => route_indices (routers r) indices req
  | None => Some (None, req)
  end.

(** [RouterService::call] *)
Definition router_call (s : HttpRouterService) : Service := λ req,
  match route (rs_router s) req with
  | Some (Some (i, j), req) =>
      services ← rs_services s !! i;
      service ← services !! j;
      service (map_ext (ext_set_matched_index (i, j)) req)
  | Some (None, req) => rs_fallback s req
  | None => None
  end.

(** ** Building the router *)

(** The step for one hostname: a known one gets the index, any other resets the
    fallback entry. *)
Definition add_hostname (e : entry) (t : HostnameTree (list entry)) (hostname : string) : HostnameTree (list entry) :=
  match tree_update (λ indices, indices ++ [e]) hostname t with
  | Some t' => t'
  | None => tree_set "*" [e] t
  end.

Definition add_route (t : HostnameTree (list entry)) (idx : nat) (r : HttpRoute) : HostnameTree (list entry) :=
  let e := (idx, rt_priority r) in
  match rt_hostnames r with
  | [] => add_hostname e t "*"
  | hostnames => foldl (add_hostname e) t hostnames
  end.

Fixpoint add_routes (t : HostnameTree (list entry)) (idx : nat) (rs : list HttpRoute) : HostnameTree (list entry) :=
  match rs with
  | [] => t
  | r :: rs' => add_routes (add_route t idx r) (S idx) rs'
  end.

(** The sort key [-*p] on [i16]. *)
Definition priority_key (e : entry) : Z := swrap 16 (- e.2).

Definition route_to_router (r : HttpRoute) : HttpRouter :=
  MkRouter (rt_name r) (rt_hostnames r) (r_match <$> rt_rules r) (rt_ext r).

Definition route_services (r : HttpRoute) : option (list Service) :=
  mapM (λ rule, fold_layers (rt_plugins r) <$> rule_as_service rule) (rt_rules r).

(** [create_http_router] *)
Definition create_http_router (rs : list HttpRoute) (fallback : Service) : option HttpRouterService :=
  services ← mapM route_services rs;
  let tree := tree_for_each_mut (sort_unstable_by_key priority_key) (add_routes tree_new 0 rs) in
  Some (MkRouterService services (MkGatewayRouter (route_to_router <$> rs) tree) fallback).

(** ** The gateway *)

Record Gateway := MkGateway {
  gateway_name : string;
  http_routes : gmap string HttpRoute;
  http_plugins : list BoxLayer;
  http_fallback : Service;
  gw_ext : Extensions;
}.

(** [Gateway::as_service] with the reloader of the gateway: the service reads the
    router the reloader holds when it is called. *)
Definition as_service (g : Gateway) (rl : Reloader HttpRouterService)
  : option ((Reloader HttpRouterService → Service) * Reloader HttpRouterService) :=
  router ← create_http_router (map_values (http_routes g)) (http_fallback g);
  let '(l, rl) := reload_layer router rl in
  let inner rl : Service := λ req, s ← reload_read l rl; router_call s req in
  Some (λ rl, map_request (add_gateway_name (gateway_name g) true) (fold_layers (http_plugins g) (inner rl)), rl).

(** *** [GatewayBuilder]. The plugin [x_request_id::<Snowflake>] is an argument of [build]. *)

Record GatewayBuilder := MkGatewayBuilder {
  gb_name : string;
  gb_routers : gmap string HttpRoute;
  gb_plugins : list BoxLayer;
  gb_fallback : Service;
  gb_ext : Extensions;
  gb_x_request_id : bool;
}.

Definition default_gateway_route_fallback : Service := λ _, Some (MkResp 404 hm_empty ext_empty "").

Definition gateway_builder_new (name : string) : GatewayBuilder :=
  MkGatewayBuilder name ∅ [] default_gateway_route_fallback ext_empty true.
Definition gb_set_x_request_id (b : bool) (g : GatewayBuilder) :=
  MkGatewayBuilder (gb_name g) (gb_routers g) (gb_plugins g) (gb_fallback g) (gb_ext g) b.
Definition gb_http_router (r : HttpRoute) (g : GatewayBuilder) :=
  MkGatewayBuilder (gb_name g) (<[rt_name r := r]> (gb_routers g)) (gb_plugins g) (gb_fallback g) (gb_ext g) (gb_x_request_id g).
Definition rename_route (name : string) (r : HttpRoute) : HttpRoute :=
  MkRoute name (rt_hostnames r) (rt_plugins r) (rt_rules r) (rt_priority r) (rt_ext r).
Definition gb_http_routers (rs : list (string * HttpRoute)) (g : GatewayBuilder) : GatewayBuilder :=
  foldl (λ g nr, gb_http_router (rename_route nr.1 nr.2) g) g rs.
Definition gb_http_plugins (ps : list BoxLayer) (g : GatewayBuilder) :=
  MkGatewayBuilder (gb_name g) (gb_routers g) (gb_plugins g ++ ps) (gb_fallback g) (gb_ext g) (gb_x_request_id g).
Definition gb_http_plugin (p : BoxLayer) := gb_http_plugins [p].
Definition gb_http_fallback (s : Service) (g : GatewayBuilder) :=
  MkGatewayBuilder (gb_name g) (gb_routers g) (gb_plugins g) s (gb_ext g) (gb_x_request_id g).
Definition gb_set_ext (e : Extensions) (g : GatewayBuilder) :=
  MkGatewayBuilder (gb_name g) (gb_routers g) (gb_plugins g) (gb_fallback g) e (gb_x_request_id g).
Definition gb_build (x_request_id : BoxLayer) (g : GatewayBuilder) : Gateway :=
  MkGateway (gb_name g) (gb_routers g)
    ((if gb_x_request_id g then [x_request_id] else []) ++ gb_plugins g) (gb_fallback g) (gb_ext g).
End gateway.

(** ** Lemmas: the host tree of a router *)

Section tree_lemmas.
Context `{HttpLib}.

(** The only trees [create_http_router] makes: nothing but a fallback. *)
Definition fallback_tree (o : option (list entry)) : HostnameTree (list entry) := MkTree [] [] node_new o.

Lemma labels_cons h : ∃ l ls, labels h = l :: ls.
Proof.
  unfold labels. pose proof (str_split_cons_ne "." h) as Hne.
  destruct (reverse (str_split "." h)) as [|l ls] eqn:E; [|eauto].
  apply (f_equal reverse) in E. by rewrite reverse_involutive in E.
Qed.

Lemma node_new_update f h : node_update f h (@node_new (list entry)) = None.
Proof.
  unfold node_update. destruct (labels_cons (to_ascii_lowercase h)) as (l & ls & ->). done.
Qed.

Lemma node_new_get h : node_get h (@node_new (list entry)) = None.
Proof.
  unfold node_get. destruct (labels_cons (to_ascii_lowercase h)) as (l & ls & ->). done.
Qed.

Lemma fallback_tree_get h o :
  tree_get h (fallback_tree o) = match host_key h with Some _ => o | None => None end.
Proof.
  unfold tree_get. destruct (host_key h) as [[]|]; simpl; try done. by rewrite node_new_get.
Qed.

Lemma fallback_tree_update f h o :
  tree_update f h (fallback_tree o) =
  match host_key h with Some _ => fallback_tree ∘ Some <$> (f <$> o) | None => None end.
Proof.
  unfold tree_update. destruct (host_key h) as [k|]; simpl; [|done].
  assert (key_update f k (fallback_tree o) = None) as ->.
  { destruct k; simpl; try done. by rewrite node_new_update. }
  simpl. by destruct o.
Qed.

Definition add_entry (e : entry) (o : option (list entry)) (hostname : string) : option (list entry) :=
  match host_key hostname with Some _ => Some (default [] o ++ [e]) | None => Some [e] end.

Lemma add_hostname_fallback e o h : add_hostname e (fallback_tree o) h = fallback_tree (add_entry e o h).
Proof.
  unfold add_hostname, add_entry. rewrite fallback_tree_update.
  destruct (host_key h); [|done]. by destruct o.
Qed.

Lemma foldl_add_hostname e o hs :
  foldl (add_hostname e) (fallback_tree o) hs = fallback_tree (foldl (add_entry e) o hs).
Proof.
  revert o. induction hs as [|h hs IH]; intros o; simpl; [done|]. by rewrite add_hostname_fallback, IH.
Qed.

Definition route_hosts (r : HttpRoute) : list string :=
  match rt_hostnames r with [] => ["*"] | hs => hs end.

Fixpoint add_entries (o : option (list entry)) (idx : nat) (rs : list HttpRoute) : option (list entry) :=
  match rs with
  | [] => o
  | r :: rs' => add_entries (foldl (add_entry (idx, rt_priority r)) o (route_hosts r)) (S idx) rs'
  end.

Lemma add_routes_fallback o idx rs :
  add_routes (fallback_tree o) idx rs = fallback_tree (add_entries o idx rs).
Proof.
  revert o idx. induction rs as [|r rs IH]; intros o idx; simpl; [done|].
  rewrite <- IH. f_equal. unfold add_route, route_hosts.
  destruct (rt_hostnames r) as [|h hs]; [by rewrite <- foldl_add_hostname|].
  by rewrite foldl_add_hostname.
Qed.

(** Every entry names a route of the list, with its priority. *)
Definition entry_ok (rs : list HttpRoute) (e : entry) : Prop :=
  ∃ r, rs !! e.1 = Some r ∧ rt_priority r = e.2.

Lemma foldl_add_entry_ok rs e o hs :
  entry_ok rs e → Forall (entry_ok rs) (default [] o) →
  Forall (entry_ok rs) (default [] (foldl (add_entry e) o hs)).
Proof.
  intros He. revert o. induction hs as [|h hs IH]; intros o Ho; simpl; [done|].
  apply IH. unfold add_entry. destruct (host_key h); simpl; [|by repeat constructor].
  apply Forall_app. by repeat constructor.
Qed.

Lemma add_entries_ok rs pre o :
  Forall (entry_ok (pre ++ rs)) (default [] o) →
  Forall (entry_ok (pre ++ rs)) (default [] (add_entries o (length pre) rs)).
Proof.
  revert pre o. induction rs as [|r rs IH]; intros pre o Ho; simpl; [done|].
  specialize (IH (pre ++ [r])). rewrite length_app, Nat.add_comm, <- app_assoc in IH. simpl in IH.
  apply IH. apply foldl_add_entry_ok; [|done].
  exists r. simpl. split; [|done]. by rewrite lookup_app_r, Nat.sub_diag.
Qed.

(** With parseable hostnames every route has an entry, and none is dropped. *)
Definition hosts_ok (r : HttpRoute) : Prop := Forall (λ h, is_Some (host_key h)) (rt_hostnames r).

Lemma foldl_add_entry_in e o hs :
  Forall (λ h, is_Some (host_key h)) hs →
  ∀ x, x ∈ default [] (foldl (add_entry e) o hs) ↔ (x ∈ default [] o ∨ (hs ≠ [] ∧ x = e)).
Proof.
  intros Hhs. revert o. induction Hhs as [|h hs [k Hk] Hhs IH]; intros o x; simpl; [naive_solver|].
  rewrite IH. unfold add_entry. rewrite Hk. simpl. set_solver.
Qed.

Lemma add_entries_mono rs idx o x :
  Forall hosts_ok rs → x ∈ default [] o → x ∈ default [] (add_entries o idx rs).
Proof.
  intros Hrs. revert idx o. induction Hrs as [|r rs Hr Hrs IH]; intros idx o Hx; simpl; [done|].
  apply IH. apply foldl_add_entry_in; [|by left].
  unfold route_hosts. destruct (rt_hostnames r) eqn:E; [by repeat constructor|].
  unfold hosts_ok in Hr. by rewrite E in Hr.
Qed.

Lemma add_entries_complete rs pre o k r :
  Forall hosts_ok rs → rs !! k = Some r →
  (length pre + k, rt_priority r) ∈ default [] (add_entries o (length (pre : list HttpRoute)) rs).
Proof.
  intros Hrs. revert pre o k. induction Hrs as [|r' rs Hr Hrs IH]; intros pre o k Hk; simpl; [done|].
  destruct k as [|k]; simplify_eq/=.
  - apply add_entries_mono; [done|]. rewrite Nat.add_0_r. apply foldl_add_entry_in.
    + unfold route_hosts. destruct (rt_hostnames r) eqn:E; [by repeat constructor|].
      unfold hosts_ok in Hr. by rewrite E in Hr.
    + right. split; [|done]. unfold route_hosts. by destruct (rt_hostnames r).
  - specialize (IH (pre ++ [r']) (foldl (add_entry (length pre, rt_priority r')) o (route_hosts r')) k Hk).
    rewrite length_app in IH. simpl in IH. rewrite Nat.add_succ_r, <- Nat.add_succ_l.
    by rewrite Nat.add_1_r in IH.
Qed.
End tree_lemmas.

(** ** Lemmas: routing *)

Section route_lemmas.
Context `{HttpLib} `{!Runtime} `{!Client} `{!FileSystem} `{!StdOrderLaws SO}.

(** A rule accepts a request, and a route has a rule that does. *)
Definition rule_matches_req (matches : option (list HttpRouteMatch)) (req : Request) : bool :=
  match matches with Some ms => existsb (λ m, match_request m req) ms | None => true end.
Definition route_matches_req (r : HttpRoute) (req : Request) : bool :=
  existsb (λ rule, rule_matches_req (r_match rule) req) (rt_rules r).

(** What the first accepting rule of a route does with the request. *)
Definition rule_outcome (name : string) (matches : option (list HttpRouteMatch)) (req : Request)
  : Request * result unit RewriteError :=
  match matches with
  | Some ms =>
      match find_map (λ m, if match_request m req then Some m else None) ms with
      | Some m => route_rewrite m (map_ext (ext_set_matched_router m) (insert_route_name name req))
      | None => (req, Ok ())
      end
  | None => (insert_route_name name req, Ok ())
  end.

Lemma find_match_None (ms : list HttpRouteMatch) req :
  find_map (λ m, if match_request m req then Some m else None) ms = None ↔
  existsb (λ m, match_request m req) ms = false.
Proof.
  induction ms as [|m ms IH]; simpl; [done|]. by destruct (match_request m req).
Qed.

Lemma route_rule_at_spec name index ms req :
  route_rule_at name index ms req =
  if rule_matches_req ms req
  then Some (match (rule_outcome name ms req).2 with Ok _ => Some index | Err _ => None end,
             (rule_outcome name ms req).1)
  else None.
Proof.
  unfold route_rule_at, rule_matches_req, rule_outcome. destruct ms as [ms|]; [|done].
  pose proof (find_match_None ms req) as Hn.
  destruct (find_map _ ms) as [m|].
  - destruct (existsb _ ms); [|by destruct Hn; naive_solver]. cbn [mbind option_bind].
    by destruct (route_rewrite _ _) as [? [[]|]].
  - by rewrite (proj1 Hn).
Qed.

(** The first rule that accepts, with the rules before it. *)
Lemma route_rules_from_spec name i k rules req :
  match route_rules_from name i k rules req with
  | None => Forall (λ ms, rule_matches_req ms req = false) rules
  | Some (o, req') =>
      ∃ l1 ms l2, rules = l1 ++ ms :: l2 ∧ Forall (λ ms, rule_matches_req ms req = false) l1 ∧
        rule_matches_req ms req = true ∧ req' = (rule_outcome name ms req).1 ∧
        o = match (rule_outcome name ms req).2 with Ok _ => Some (i, k + length l1) | Err _ => None end
  end.
Proof.
  revert k. induction rules as [|ms rules IH]; intros k; simpl; [done|].
  rewrite route_rule_at_spec. destruct (rule_matches_req ms req) eqn:Hm.
  - exists [], ms, rules. split_and!; try done. by rewrite Nat.add_0_r.
  - specialize (IH (S k)). destruct (route_rules_from _ _ _ _ _) as [[o req']|]; [|by constructor].
    destruct IH as (l1 & ms' & l2 & -> & Hl1 & Hm' & Hreq & Ho).
    exists (ms :: l1), ms', l2. split_and!; try done; [by constructor|].
    rewrite Ho. simpl. by rewrite Nat.add_succ_r.
Qed.

(** The first index whose route has an accepting rule. *)
Lemma route_indices_spec rs indices req :
  Forall (entry_ok rs) indices →
  match route_indices (route_to_router <$> rs) indices req with
  | None => False
  | Some res =>
      (res = (None, req) ∧ ∀ e r, e ∈ indices → rs !! e.1 = Some r → route_matches_req r req = false) ∨
      ∃ l1 e l2 r, indices = l1 ++ e :: l2 ∧ rs !! e.1 = Some r ∧ rt_priority r = e.2 ∧
        (∀ e' r', e' ∈ l1 → rs !! e'.1 = Some r' → route_matches_req r' req = false) ∧
        route_rules_from (rt_name r) e.1 0 (r_match <$> rt_rules r) req = Some res
  end.
Proof.
  induction 1 as [|[i p] indices (r & Hr & Hp) Hin IH]; simpl in *.
  { left. split; [done|]. by intros ?? ?%elem_of_nil. }
  rewrite list_lookup_fmap, Hr. simpl.
  pose proof (route_rules_from_spec (rt_name r) i 0 (r_match <$> rt_rules r) req) as Hs.
  destruct (route_rules_from _ _ _ _ _) as [res|] eqn:E.
  - right. exists [], (i, p), indices, r. split_and!; try done. by intros ?? ?%elem_of_nil.
  - assert (Hno : route_matches_req r req = false).
    { unfold route_matches_req. apply not_true_iff_false. rewrite existsb_Exists.
      intros (x & Hx & Hm)%Exists_exists. rewrite Forall_fmap, Forall_forall in Hs.
      specialize (Hs x Hx). simpl in Hs. congruence. }
    destruct (route_indices _ _ _) as [res|]; [|done].
    destruct IH as [[-> Hall]|(l1 & e & l2 & r' & -> & Hr' & Hp' & Hl1 & Hres)].
    + left. split; [done|]. intros e r' [->|He]%elem_of_cons Hr'; [|eauto]. simpl in Hr'. congruence.
    + right. exists ((i, p) :: l1), e, l2, r'. split_and!; try done.
      intros e' r2 [->|He']%elem_of_cons Hr2; [|eauto]. simpl in Hr2. congruence.
Qed.

Lemma route_matches_req_spec r req l1 ms l2 :
  r_match <$> rt_rules r = l1 ++ ms :: l2 → rule_matches_req ms req = true → route_matches_req r req = true.
Proof.
  intros Hrules Hm. unfold route_matches_req. apply existsb_Exists, Exists_exists.
  assert (ms ∈ r_match <$> rt_rules r) as (rule & -> & Hin)%list_elem_of_fmap by (rewrite Hrules; set_solver).
  eauto.
Qed.

(** The router of a list of routes. *)
Lemma create_http_router_Some rs fb s :
  create_http_router rs fb = Some s →
  mapM route_services rs = Some (rs_services s) ∧ rs_fallback s = fb ∧
  routers (rs_router s) = route_to_router <$> rs ∧
  hostname_tree (rs_router s) = fallback_tree (sort_unstable_by_key priority_key <$> add_entries None 0 rs).
Proof.
  unfold create_http_router. intros (services & Hs & Heq)%bind_Some. simplify_eq/=.
  split_and!; try done. change tree_new with (fallback_tree None).
  rewrite add_routes_fallback. unfold fallback_tree. by rewrite tree_for_each_mut_fallback.
Qed.

(** What routing does on a router made from routes: the sorted entries in order. *)
Lemma route_created rs fb s req :
  create_http_router rs fb = Some s →
  ∃ indices, Forall (entry_ok rs) indices ∧ StronglySorted (λ a b, priority_key a ≤ priority_key b)%Z indices ∧
    (route (rs_router s) req = Some (None, req) ∧
       (request_host_text req = None ∨ (∃ h, request_host_text req = Some h ∧ host_key h = None) ∨ rs = []) ∨
     route (rs_router s) req = route_indices (routers (rs_router s)) indices req ∧
     (Forall hosts_ok rs → ∀ k r, rs !! k = Some r → (k, rt_priority r) ∈ indices)).
Proof.
  intros (Hserv & _ & Hrt & Htree)%create_http_router_Some. unfold route. rewrite Htree.
  pose proof (add_entries_ok rs [] None ltac:(constructor)) as Hok. simpl in Hok.
  pose proof (λ k r Hrs, add_entries_complete rs [] None k r Hrs) as Hcompl. simpl in Hcompl.
  destruct (add_entries None 0 rs) as [es|] eqn:Ees; simpl in *.
  - exists (sort_unstable_by_key priority_key es).
    split; [by rewrite <- sort_perm|]. split; [apply sort_sorted|].
    destruct (request_host_text req) as [h|]; cbn [mbind option_bind]; [|left; naive_solver].
    rewrite fallback_tree_get. destruct (host_key h) eqn:Hk; [|left; naive_solver]. right.
    split; [done|]. intros Hh k r Hr. rewrite <- sort_perm. by apply Hcompl.
  - exists []. split; [constructor|]. split; [constructor|].
    assert (Hnone : match (h ← request_host_text req; tree_get h (fallback_tree None)) with Some i => route_indices (routers (rs_router s)) i req | None => Some (None, req) end = Some (None, req)).
    { destruct (request_host_text req) as [h|]; [|done]. cbn [mbind option_bind].
      rewrite fallback_tree_get. by destruct (host_key h). }
    rewrite Hnone. destruct rs as [|r rs]; [left; naive_solver|].
    right. split; [done|]. intros Hh k r' Hr. specialize (Hcompl k r' Hh Hr). by apply elem_of_nil in Hcompl.
Qed.
End route_lemmas.

(** ** Lemmas: the route a request gets *)

Section selection.
Context `{HttpLib} `{!Runtime} `{!Client} `{!FileSystem} `{!StdOrderLaws SO}.

Definition priority_ok (r : HttpRoute) : Prop := (- 2 ^ 15 < rt_priority r < 2 ^ 15)%Z.
Definition host_parses (req : Request) : Prop :=
  ∃ h, request_host_text req = Some h ∧ is_Some (host_key h).

(** Rule [j] of route [r] is the one that serves the request: the first accepting rule
    of a route, and no route with an accepting rule has a higher priority. *)
Record selects (rs : list HttpRoute) (req : Request) (r : HttpRoute) (j : nat)
    (ms : option (list HttpRouteMatch)) : Prop := {
  sel_rule : (r_match <$> rt_rules r) !! j = Some ms;
  sel_matches : rule_matches_req ms req = true;
  sel_first : ∀ j' ms', j' < j → (r_match <$> rt_rules r) !! j' = Some ms' → rule_matches_req ms' req = false;
  sel_priority : ∀ r', r' ∈ rs → route_matches_req r' req = true → (rt_priority r' ≤ rt_priority r)%Z;
}.

(** The result of routing: a selected rule and what it does with the request, or no
    route accepts it. *)
Inductive routed (rs : list HttpRoute) (req : Request) : RouteResult → Prop :=
| routed_rule i r j ms :
    rs !! i = Some r → selects rs req r j ms →
    routed rs req (match (rule_outcome (rt_name r) ms req).2 with Ok _ => Some (i, j) | Err _ => None end,
                   (rule_outcome (rt_name r) ms req).1)
| routed_none :
    (∀ r', r' ∈ rs → route_matches_req r' req = false) → routed rs req (None, req).

Lemma priority_key_ok e : (- 2 ^ 15 < e.2 < 2 ^ 15)%Z → priority_key e = (- e.2)%Z.
Proof. intros He. apply swrap_id; [done|]. unfold in_signed. simpl in *. lia. Qed.

Lemma strongly_sorted_app {A} (R : A → A → Prop) l1 x l2 y :
  StronglySorted R (l1 ++ x :: l2) → y ∈ l2 → R x y.
Proof.
  induction l1 as [|z l1 IH]; simpl; intros Hs Hy; inversion Hs as [|?? Hs' HF]; subst; [|by auto].
  rewrite Forall_forall in HF. auto.
Qed.

Lemma route_routed rs fb s req :
  create_http_router rs fb = Some s → Forall hosts_ok rs → Forall priority_ok rs → host_parses req →
  ∃ res, route (rs_router s) req = Some res ∧ routed rs req res.
Proof.
  intros Hs Hh Hp (h & Hreq & Hk).
  pose proof (create_http_router_Some _ _ _ Hs) as (_ & _ & Hrt & _).
  destruct (route_created rs fb s req Hs) as (indices & Hok & Hsort & [[Hr Hcase]|[Hr Hall]]).
  { exists (None, req). split; [done|]. destruct Hcase as [?|[(h' & ? & Hh')| ->]]; [congruence| |].
    - assert (h' = h) as -> by congruence. rewrite Hh' in Hk. by destruct Hk.
    - apply routed_none. by intros r' ?%elem_of_nil. }
  specialize (Hall Hh). rewrite Hr, Hrt. pose proof (route_indices_spec rs indices req Hok) as Hs2.
  destruct (route_indices (route_to_router <$> rs) indices req) as [res|]; [|done]. exists res. split; [done|].
  destruct Hs2 as [[-> Hno]|(l1 & e & l2 & r & -> & Hi & Hpe & Hno & Hsel)].
  - apply routed_none. intros r' (k & Hk')%list_elem_of_lookup.
    apply (Hno (k, rt_priority r')); [by apply Hall|done].
  - pose proof (route_rules_from_spec (rt_name r) e.1 0 (r_match <$> rt_rules r) req) as Hrules.
    rewrite Hsel in Hrules. destruct res as [o req'].
    destruct Hrules as (m1 & ms & m2 & Hrl & Hm1 & Hms & -> & ->). simpl.
    apply (routed_rule rs req e.1 r (length m1) ms); [done|]. split; [|done| |].
    + rewrite Hrl. by rewrite lookup_app_r, Nat.sub_diag.
    + intros j' ms' Hj Hl. rewrite Hrl, lookup_app_l in Hl by done.
      rewrite Forall_forall in Hm1. apply Hm1. by eapply list_elem_of_lookup_2.
    + intros r' (k & Hk')%list_elem_of_lookup Hm'.
      pose proof (Hall k r' Hk') as [Hin|[Heq|Hin]%elem_of_cons]%elem_of_app.
      * specialize (Hno (k, rt_priority r') r' Hin Hk'). congruence.
      * subst e. simpl in *. assert (r' = r) as -> by congruence. lia.
      * pose proof (strongly_sorted_app _ _ _ _ _ Hsort Hin) as Hle. cbv beta in Hle.
        rewrite Forall_forall in Hp.
        pose proof (Hp r (list_elem_of_lookup_2 _ _ _ Hi)) as Hpr.
        pose proof (Hp r' (list_elem_of_lookup_2 _ _ _ Hk')) as Hpr'. unfold priority_ok in *.
        rewrite !priority_key_ok in Hle; simpl in *; lia.
Qed.

(** Routes that differ at most in their host names, plugins, backends and timeouts. *)
Definition route_eqv (r r' : HttpRoute) : Prop :=
  rt_name r = rt_name r' ∧ rt_priority r = rt_priority r' ∧ (r_match <$> rt_rules r) = (r_match <$> rt_rules r').

#[global] Instance route_eqv_equivalence : Equivalence route_eqv.
Proof. unfold route_eqv. split; [done|intros r1 r2 (?&?&?); by split_and!|]. intros r1 r2 r3 (?&?&?) (?&?&?). split_and!; congruence. Qed.

Lemma route_matches_req_eqv r r' req : route_eqv r r' → route_matches_req r req = route_matches_req r' req.
Proof.
  intros (_ & _ & Hm). unfold route_matches_req.
  assert (∀ rules : list HttpRouteRule, existsb (λ rule, rule_matches_req (r_match rule) req) rules =
    existsb (λ ms, rule_matches_req ms req) (r_match <$> rules)) as Heq.
  { induction rules as [|x l IH]; simpl; [done|by rewrite IH]. }
  by rewrite !Heq, Hm.
Qed.

(** With distinct priorities the selected rule is unique, also across two lists with the
    same routes. *)
Lemma selects_unique rs rs' req r j ms r' j' ms' :
  (∀ x, x ∈ rs → ∃ x', x' ∈ rs' ∧ route_eqv x x') → (∀ x', x' ∈ rs' → ∃ x, x ∈ rs ∧ route_eqv x x') →
  NoDup (rt_priority <$> rs') → r ∈ rs → r' ∈ rs' →
  selects rs req r j ms → selects rs' req r' j' ms' →
  route_eqv r r' ∧ j = j' ∧ ms = ms'.
Proof.
  intros H12 H21 Hnd Hr Hr' [Hrule Hm Hf Hp] [Hrule' Hm' Hf' Hp'].
  assert (Hmr : route_matches_req r req = true).
  { apply (route_matches_req_spec r req (take j (r_match <$> rt_rules r)) ms (drop (S j) (r_match <$> rt_rules r))); [|done].
    symmetry. by apply take_drop_middle. }
  assert (Hmr' : route_matches_req r' req = true).
  { apply (route_matches_req_spec r' req (take j' (r_match <$> rt_rules r')) ms' (drop (S j') (r_match <$> rt_rules r'))); [|done].
    symmetry. by apply take_drop_middle. }
  assert (Hpp : rt_priority r = rt_priority r').
  { destruct (H12 r Hr) as (x & Hx & Ex). destruct (H21 r' Hr') as (y & Hy & Ey).
    pose proof (Hp' x Hx ltac:(by rewrite <- (route_matches_req_eqv r x))).
    pose proof (Hp y Hy ltac:(by rewrite (route_matches_req_eqv y r'))).
    destruct Ex as (_ & Ex & _), Ey as (_ & Ey & _). lia. }
  assert (Heq : route_eqv r r').
  { destruct (H12 r Hr) as (x & Hx & Ex). assert (x = r') as ->; [|done].
    destruct (list_elem_of_lookup_1 _ _ Hx) as (a & Ha), (list_elem_of_lookup_1 _ _ Hr') as (b & Hb).
    assert (a = b) as ->; [|congruence]. apply (NoDup_lookup _ a b (rt_priority r') Hnd).
    - rewrite list_lookup_fmap, Ha. simpl. destruct Ex as (_ & Ex & _). f_equal. congruence.
    - by rewrite list_lookup_fmap, Hb. }
  split; [done|]. destruct Heq as (_ & _ & Hrules). rewrite Hrules in *.
  destruct (decide (j < j')); [rewrite (Hf' j ms) in Hm; done|].
  destruct (decide (j' < j)); [rewrite (Hf j' ms') in Hm'; done|].
  assert (j = j') as -> by lia. split; [done|congruence].
Qed.

(** The two results agree: the same request, and the same rule of equivalent routes. *)
Definition same_result (rs rs' : list HttpRoute) (res res' : RouteResult) : Prop :=
  res.2 = res'.2 ∧
  match res.1, res'.1 with
  | Some (i, j), Some (i', j') =>
      j = j' ∧ ∃ r r', rs !! i = Some r ∧ rs' !! i' = Some r' ∧ route_eqv r r'
  | None, None => True
  | _, _ => False
  end.

Lemma routed_unique rs rs' req res res' :
  (∀ x, x ∈ rs → ∃ x', x' ∈ rs' ∧ route_eqv x x') → (∀ x', x' ∈ rs' → ∃ x, x ∈ rs ∧ route_eqv x x') →
  NoDup (rt_priority <$> rs') → routed rs req res → routed rs' req res' → same_result rs rs' res res'.
Proof.
  intros H12 H21 Hnd Hr Hr'.
  assert (Hsel : ∀ rs r j ms, selects rs req r j ms → route_matches_req r req = true).
  { intros rs0 r j ms [Hrule Hm _ _].
    apply (route_matches_req_spec r req (take j (r_match <$> rt_rules r)) ms (drop (S j) (r_match <$> rt_rules r))); [|done].
    symmetry. by apply take_drop_middle. }
  destruct Hr as [i r j ms Hi Hs|Hno], Hr' as [i' r' j' ms' Hi' Hs'|Hno'].
  - destruct (selects_unique rs rs' req r j ms r' j' ms') as (Heq & -> & ->); try done;
      [by eapply list_elem_of_lookup_2..|].
    assert (rt_name r = rt_name r') as Hn by apply Heq.
    unfold same_result. simpl. rewrite <- Hn. split; [done|].
    destruct (rule_outcome (rt_name r) ms' req).2; [|done]. by split; [|exists r, r'].
  - destruct (H12 r) as (x & Hx & Ex); [by eapply list_elem_of_lookup_2|].
    specialize (Hno' x Hx). rewrite <- (route_matches_req_eqv r x), (Hsel rs r j ms) in Hno'; done.
  - destruct (H21 r') as (x & Hx & Ex); [by eapply list_elem_of_lookup_2|].
    specialize (Hno x Hx). rewrite (route_matches_req_eqv x r'), (Hsel rs' r' j' ms') in Hno; done.
  - by split.
Qed.
End selection.

(** ** Properties *)

(** Routing never indexes out of bounds, whatever hostnames, priorities and rules
    the routes have: it does not panic, and the service it selects exists. *)
Theorem route_index_in_bounds `{HttpLib} `{!Runtime} `{!Client} `{!FileSystem} `{!StdOrderLaws SO} rs fb s req :
  create_http_router rs fb = Some s →
  ∃ o req', route (rs_router s) req = Some (o, req') ∧
    match o with
    | Some (i, j) => ∃ services service, rs_services s !! i = Some services ∧ services !! j = Some service
    | None => True
    end.
Proof.
  intros Hs. pose proof (create_http_router_Some _ _ _ Hs) as (Hserv & _ & Hrt & _).
  destruct (route_created rs fb s req Hs) as (indices & Hok & _ & [[Hr _]|[Hr _]]); [by eexists _, _|].
  rewrite Hr, Hrt. pose proof (route_indices_spec rs indices req Hok) as Hs2.
  destruct (route_indices (route_to_router <$> rs) indices req) as [[o req']|]; [|done].
  exists o, req'. split; [done|].
  destruct Hs2 as [[[= -> ->] _]|(l1 & e & l2 & r & _ & Hi & _ & _ & Hsel)]; [done|].
  pose proof (route_rules_from_spec (rt_name r) e.1 0 (r_match <$> rt_rules r) req) as Hrules.
  rewrite Hsel in Hrules. destruct Hrules as (m1 & ms & m2 & Hrl & _ & _ & _ & ->).
  destruct (rule_outcome (rt_name r) ms req).2; [|done].
  apply mapM_Some in Hserv. destruct (Forall2_lookup_l _ _ _ _ _ Hserv Hi) as (services & Hsv & Hrs).
  apply mapM_Some, Forall2_length in Hrs.
  destruct (lookup_lt_is_Some_2 services (0 + length m1)) as [sv Hsv2]; [|eauto].
  rewrite <- Hrs. apply (f_equal length) in Hrl. rewrite length_fmap, length_app in Hrl. simpl in *. lia.
Qed.


(** With distinct priorities the routing of a request does not depend on the order
    in which the [HashMap] of the routes is listed. *)
Theorem route_order_irrelevant `{HttpLib} `{!Runtime} `{!Client} `{!FileSystem} `{!StdOrderLaws SO} rs rs' fb s s' req :
  Permutation rs rs' → NoDup (rt_priority <$> rs) →
  create_http_router rs fb = Some s → create_http_router rs' fb = Some s' →
  Forall hosts_ok rs → Forall priority_ok rs → host_parses req →
  ∃ res res', route (rs_router s) req = Some res ∧ route (rs_router s') req = Some res' ∧
    same_result rs rs' res res'.
Proof.
  intros Hperm Hnd Hs Hs' Hh Hp Hreq.
  destruct (route_routed rs fb s req Hs Hh Hp Hreq) as (res & Hr & Hrd).
  destruct (route_routed rs' fb s' req Hs') as (res' & Hr' & Hrd'); [by rewrite <- Hperm..|done|].
  exists res, res'. split_and!; [done..|]. apply (routed_unique rs rs' req); [| | |done|done].
  - intros x Hx. exists x. split; [by rewrite <- Hperm|done].
  - intros x Hx. exists x. split; [by rewrite Hperm|done].
  - by rewrite <- Hperm.
Qed.

(** the hostnames of a route have no effect: routers made from routes that differ
    only in their (well-formed) hostnames route every request alike, because
    [create_http_router] registers every route under the fallback ["*"]. *)
Theorem hostnames_inert `{HttpLib} `{!Runtime} `{!Client} `{!FileSystem} `{!StdOrderLaws SO} rs rs' fb s s' req :
  Forall2 route_eqv rs rs' → NoDup (rt_priority <$> rs) →
  create_http_router rs fb = Some s → create_http_router rs' fb = Some s' →
  Forall hosts_ok rs → Forall hosts_ok rs' → Forall priority_ok rs → host_parses req →
  route (rs_router s) req = route (rs_router s') req.
Proof.
  intros Heq Hnd Hs Hs' Hh Hh' Hp Hreq.
  assert (Hprio : rt_priority <$> rs = rt_priority <$> rs').
  { clear -Heq. induction Heq as [|r r' rs rs' (_ & E & _) _ IH]; [done|]. rewrite !fmap_cons. by rewrite E, IH. }
  assert (Hp' : Forall priority_ok rs').
  { clear -Heq Hp. induction Heq as [|r r' rs rs' (_ & E & _) _ IH]; [done|].
    apply Forall_cons in Hp as [? ?]. constructor; [|auto]. unfold priority_ok in *. by rewrite <- E. }
  destruct (route_routed rs fb s req Hs Hh Hp Hreq) as (res & Hr & Hrd).
  destruct (route_routed rs' fb s' req Hs' Hh' Hp' Hreq) as (res' & Hr' & Hrd').
  rewrite Hr, Hr'. f_equal.
  assert (Hsame : same_result rs rs' res res').
  { apply (routed_unique rs rs' req); [| |by rewrite <- Hprio|done|done].
    - intros x (k & Hk)%list_elem_of_lookup. destruct (Forall2_lookup_l _ _ _ _ _ Heq Hk) as (y & Hy & ?).
      exists y. split; [by eapply list_elem_of_lookup_2|done].
    - intros x (k & Hk)%list_elem_of_lookup. destruct (Forall2_lookup_r _ _ _ _ _ Heq Hk) as (y & Hy & ?).
      exists y. split; [by eapply list_elem_of_lookup_2|done]. }
  destruct res as [o req1], res' as [o' req2], Hsame as [Hreq12 Hidx]. simpl in *. subst req2. f_equal.
  destruct o as [[i j]|], o' as [[i' j']|]; try done.
  destruct Hidx as (-> & r & r' & Hi & Hi' & E). do 2 f_equal.
  destruct (Forall2_lookup_l _ _ _ _ _ Heq Hi) as (r2 & Hr2 & E2).
  rewrite Hprio in Hnd. apply (NoDup_lookup _ i i' (rt_priority r') Hnd).
  - rewrite list_lookup_fmap, Hr2. simpl. f_equal. destruct E as (_ & E & _), E2 as (_ & E2 & _). congruence.
  - by rewrite list_lookup_fmap, Hi'.
Qed.

(** after [Reloader::reload] the running gateway service answers with the new
    router behind the same plugins, without being rebuilt. *)
Theorem gateway_reload `{HttpLib} `{!Runtime} `{!Client} `{!FileSystem} `{!StdOrder} g svc rl router :
  as_service g reloader_default = Some (svc, rl) →
  reloader_wf rl ∧
  svc (reload router rl) =
    map_request (add_gateway_name (gateway_name g) true) (fold_layers (http_plugins g) (router_call router)).
Proof.
  unfold as_service. intros (r0 & Hr0 & Heq)%bind_Some. simpl in Heq. simplify_eq/=. split; [|done].
  unfold reloader_wf. simpl. lia.
Qed.

(** *** Witnesses *)

(** Insertion sort, and the order of [map_to_list]. *)
Fixpoint ref_insert (key : entry → Z) (e : entry) (l : list entry) : list entry :=
  match l with
  | [] => [e]
  | x :: l' => if decide (key e ≤ key x)%Z then e :: l else x :: ref_insert key e l'
  end.
#[export] Instance ref_order : StdOrder := {|
  sort_unstable_by_key key l := foldr (ref_insert key) [] l;
  map_values _ m := snd <$> map_to_list m;
|}.

Lemma ref_insert_perm key e l : Permutation (e :: l) (ref_insert key e l).
Proof.
  induction l as [|x l IH]; simpl; [done|]. case_decide; [done|].
  rewrite <- IH. by constructor.
Qed.

Lemma ref_insert_sorted key e l :
  StronglySorted (λ a b, key a ≤ key b)%Z l → StronglySorted (λ a b, key a ≤ key b)%Z (ref_insert key e l).
Proof.
  induction 1 as [|x l Hl IH HF]; simpl; [by repeat constructor|].
  case_decide as Hle.
  - constructor; [by constructor|]. constructor; [done|]. eapply Forall_impl; [done|]. simpl. lia.
  - constructor; [done|]. rewrite <- ref_insert_perm. constructor; [lia|done].
Qed.

#[export] Instance ref_order_laws : StdOrderLaws ref_order.
Proof.
  split; simpl.
  - intros key l. induction l as [|e l IH]; simpl; [done|]. by rewrite <- ref_insert_perm, <- IH.
  - intros key l. induction l as [|e l IH]; simpl; [constructor|]. by apply ref_insert_sorted.
  - done.
Qed.

Definition ex_rule (prefix : string) : HttpRouteRule :=
  rule_matches [from_path (PathPrefix prefix None)] (@rule_builder_new ref_http).
Definition ex_route (name : string) (hosts : list string) (prio : Z) (prefix : string) : HttpRoute :=
  route_build (route_priority prio (route_rule (ex_rule prefix) (route_hostnames hosts (route_name name route_builder_new)))).
Definition ex_routes : list HttpRoute :=
  [ex_route "low" [] 1 "/"; ex_route "high" ["a.com"; "b.com"] 7 "/api"].
Definition ex_request (path : string) : @Request ref_http :=
  MkReq "GET" (MkUri (Some "http") (Some ("example.org", None)) (Some (MkPq path None))) 11 [] ext_empty "".
Definition ex_fallback : @Service ref_http := default_gateway_route_fallback.
Definition ex_router (rs : list HttpRoute) : HttpRouterService :=
  MkRouterService (default [] (mapM route_services rs))
    (MkGatewayRouter (route_to_router <$> rs)
      (tree_for_each_mut (sort_unstable_by_key priority_key) (add_routes tree_new 0 rs))) ex_fallback.

Lemma route_index_in_bounds_witness :
  (∃ req', route (rs_router (ex_router ex_routes)) (ex_request "/api/users") = Some (Some (1, 0), req')) ∧
  ∃ o req', route (rs_router (ex_router ex_routes)) (ex_request "/api/users") = Some (o, req') ∧
    match o with
    | Some (i, j) => ∃ services service,
        rs_services (ex_router ex_routes) !! i = Some services ∧ services !! j = Some service
    | None => True
    end.
Proof.
  split; [eexists; reflexivity|].
  apply (@route_index_in_bounds ref_http ref_runtime ref_client ref_fs ref_order ref_order_laws
    ex_routes ex_fallback (ex_router ex_routes) (ex_request "/api/users")). reflexivity.
Defined.

Lemma ex_routes_ok : Forall hosts_ok ex_routes ∧ Forall priority_ok ex_routes.
Proof. split; repeat constructor; by eexists. Qed.

Lemma ex_request_parses path : host_parses (ex_request path).
Proof. eexists. split; [reflexivity|]. by eexists. Qed.


Lemma route_order_irrelevant_witness :
  ∃ res res', route (rs_router (ex_router ex_routes)) (ex_request "/api/users") = Some res ∧
    route (rs_router (ex_router (reverse ex_routes))) (ex_request "/api/users") = Some res' ∧
    same_result ex_routes (reverse ex_routes) res res'.
Proof.
  apply (@route_order_irrelevant ref_http ref_runtime ref_client ref_fs ref_order ref_order_laws
    ex_routes (reverse ex_routes) ex_fallback);
    [symmetry; apply reverse_Permutation | by apply (bool_decide_unpack _); vm_compute | reflexivity | reflexivity
    | apply ex_routes_ok | apply ex_routes_ok | apply ex_request_parses].
Defined.

Lemma hostnames_inert_witness :
  let rs' := [ex_route "low" ["other.org"] 1 "/"; ex_route "high" [] 7 "/api"] in
  route (rs_router (ex_router ex_routes)) (ex_request "/api/users") =
  route (rs_router (ex_router rs')) (ex_request "/api/users").
Proof.
  intros rs'.
  apply (@hostnames_inert ref_http ref_runtime ref_client ref_fs ref_order ref_order_laws
    ex_routes rs' ex_fallback);
    [repeat constructor | by apply (bool_decide_unpack _); vm_compute | reflexivity | reflexivity
    | apply ex_routes_ok | repeat constructor; by eexists | apply ex_routes_ok | apply ex_request_parses].
Defined.

Lemma gateway_reload_witness :
  let g := gb_build (λ s, s) (gb_http_routers [("low", ex_route "" [] 1 "/")] (gateway_builder_new "gw")) in
  ∃ svc rl, as_service g reloader_default = Some (svc, rl) ∧
    (reloader_wf rl ∧
     svc (reload (ex_router ex_routes) rl) =
       map_request (add_gateway_name (gateway_name g) true)
         (fold_layers (http_plugins g) (router_call (ex_router ex_routes)))).
Proof.
  intros g. eexists _, _. split; [reflexivity|].
  apply (@gateway_reload ref_http ref_runtime ref_client ref_fs ref_order g). reflexivity.
Defined.
