(* ===== verification/Middleware.v ===== *)
(** * Request identifiers, authorization and other request utilities

    [crates/kernel/src/utils] (x_request_id.rs, auth/, with_length_or_chunked.rs,
    parse_host.rs, path.rs, str_extract.rs, h2_downgrade.rs), [extension/original_ip_addr.rs],
    [extension/user_group/] and the protocol sniffing of [service.rs] and [listener.rs]. *)

From S2P Require Export Service.
From S2P Require Import RefHttp.
Local Open Scope string_scope.
Local Open Scope list_scope.
Local Open Scope Z_scope.

(** ** Snowflake identifiers *)

(** [machine_id], computed once: from the variable [MACHINE_ID], a number or a text to
    hash, else from the hash of the machine's id or of a random number. *)
Definition machine_id (hash : string → Z) (env : option string) (dbus_id : option string) (random : Z) : Z :=
  match env with
  | Some mid =>
      match parse_unsigned 64 mid with
      | Some n => n
      | None => hash mid
      end
  | None => hash (default (dec_string random) dbus_id)
  end.

(** [Snowflake::generate]: [ts_id | mach_id | inc] on [u64], where [<<] drops the high
    bits and neither the machine id nor the increment is masked. *)
Definition snowflake (millis mach inc : Z) : Z :=
  Z.lor (Z.lor (uwrap 64 (Z.shiftl millis 22)) (uwrap 64 (Z.shiftl mach 12))) inc.
Definition snowflake_header (millis mach inc : Z) : string := pad_zero 16 (hex_string (snowflake millis mach inc)).
(** [INC.fetch_add(1)]: the old value, and the counter after it. *)
Definition fetch_inc (counter : Z) : Z * Z := (counter, uwrap 64 (counter + 1)).

Section request_id.
Context `{HttpLib}.

Definition X_REQUEST_ID_HEADER_NAME : string := "x-request-id".

(** [x_request_id::<A>] with the identifier [A::generate] would return. *)
Definition x_request_id (generated : string) : Request → Service → option Response := λ request inner,
  let '(id, request) :=
    match hm_get (req_headers request) X_REQUEST_ID_HEADER_NAME with
    | Some id => (id, request)
    | None => (generated, set_headers (hm_insert X_REQUEST_ID_HEADER_NAME generated (req_headers request)) request)
    end in
  resp ← inner request;
  Some (set_resp_headers (hm_insert X_REQUEST_ID_HEADER_NAME id (resp_headers resp)) resp).
End request_id.

(** ** Authorization *)

Record Basic := MkBasic { username : string; password : option string }.
Record Bearer := MkBearer { token : string }.
Inductive AuthError := NotBasic | NotBearer | NotAString | BadBase64 | BadUtf8 | BadHeaderValue.

(** [Basic::to_auth_string] and [Basic::infallible_parse] *)
Definition to_auth_string (b : Basic) : string :=
  match password b with
  | Some password => (username b +:+ ":") +:+ password
  | None => username b
  end.
Definition infallible_parse (auth : string) : Basic :=
  match str_split_once ":" auth with
  | Some (username, password) => MkBasic username (Some password)
  | None => MkBasic auth None
  end.

(** The [base64] engine, and [String::from_utf8] on bytes. *)
Class Base64 := {
  b64_encode : string → string;
  b64_decode : string → option string;
  from_utf8 : string → option string;
}.
Class Base64Laws (B : Base64) : Prop := {
  b64_decode_encode s : b64_decode (b64_encode s) = Some s;
  from_utf8_id s t : from_utf8 s = Some t → t = s;
}.

Section auth.
Context `{HttpLib} `{!Base64}.

Definition basic_to_header (b : Basic) : result string AuthError :=
  ok_or (hv_from_str ("Basic " +:+ b64_encode (to_auth_string b))) BadHeaderValue.

Definition basic_try_from (header : string) : result Basic AuthError :=
  match hv_to_str header with
  | Some header =>
      match str_strip_prefix "Basic " header with
      | Some base64_auth =>
          let? auth := ok_or (b64_decode base64_auth) BadBase64 in
          let? auth := ok_or (from_utf8 auth) BadUtf8 in
          Ok (infallible_parse auth)
      | None => Err NotBasic
      end
  | None => Err NotAString
  end.

Definition bearer_to_header (b : Bearer) : result string AuthError :=
  ok_or (hv_from_str ("Bearer " +:+ token b)) BadHeaderValue.
Definition bearer_try_from (header : string) : result Bearer AuthError :=
  match hv_to_str header with
  | Some header =>
      match str_strip_prefix "Bearer " header with
      | Some token => Ok (MkBearer token)
      | None => Err NotBearer
      end
  | None => Err NotAString
  end.

(** The scheme of [Authorization<A>]: how [A] is written to and read from a header. *)
Class AuthScheme (A : Type) := {
  auth_to_header : A → result string AuthError;
  auth_try_from : string → result A AuthError;
}.
#[global] Instance auth_basic : AuthScheme Basic := {| auth_to_header := basic_to_header; auth_try_from := basic_try_from |}.
#[global] Instance auth_bearer : AuthScheme Bearer := {| auth_to_header := bearer_to_header; auth_try_from := bearer_try_from |}.

(** [Authorization::extract] and [Authorization::inject] *)
Definition auth_extract {A} `{AuthScheme A} (req : Request) : option A :=
  auth ← hm_get (req_headers req) "authorization"; result_ok (auth_try_from auth).
Definition auth_inject {A} `{AuthScheme A} (a : A) (req : Request) : result Request AuthError :=
  let? v := auth_to_header a in
  Ok (set_headers (hm_insert "authorization" v (req_headers req)) req).
End auth.

(** ** Message framing

    [with_length_or_chunked] and [req_length_or_chunked]: what a body knows of its
    length, from its size hint and from a dump of it. *)

Section framing.
Context `{HttpLib}.

Definition CHUNKED : string := "chunked".

Definition set_length (len : Z) (h : HeaderMap) : HeaderMap :=
  hm_insert "content-length" (dec_string len) (hm_remove "transfer-encoding" h).

Definition length_or_chunked (exact dumped : option Z) (h : HeaderMap) : HeaderMap :=
  match exact with
  | Some len => set_length len h
  | None =>
      let h := hm_remove "content-length" h in
      match dumped with
      | Some len => set_length len h
      | None =>
          if existsb (λ v, bool_decide (v = CHUNKED)) (hm_get_all h "transfer-encoding") then h
          else hm_append "transfer-encoding" CHUNKED h
      end
  end.

Definition with_length_or_chunked (exact dumped : option Z) (resp : Response) : Response :=
  set_resp_headers (length_or_chunked exact dumped (resp_headers resp)) resp.
Definition req_length_or_chunked (exact dumped : option Z) (req : Request) : Request :=
  set_headers (length_or_chunked exact dumped (req_headers req)) req.
End framing.

(** ** The client's address *)

Section original_ip.
Context `{HttpLib}.

Definition header_to_ip (header : string) : option IpAddr := s ← hv_to_str header; parse_ip s.

(** [OriginalIpAddr::extract] *)
Definition original_ip_addr (req : Request) : option IpAddr :=
  match ext_original_ip (req_ext req) with
  | Some ip => Some ip
  | None =>
      opt_or (v ← hm_get (req_headers req) "x-real-ip"; header_to_ip v)
        (opt_or (v ← head (hm_get_all (req_headers req) "x-forwarded-for"); header_to_ip v)
          (fst <$> ext_peer_addr (req_ext req)))
  end.

(** ** User groups *)

Class UserGroup (G : Type) := is_match : G → Request → bool.

Record And (A B : Type) := MkAnd { and_a : A; and_b : B }.
Record Or (A B : Type) := MkOr { or_a : A; or_b : B }.
Record Not (A : Type) := MkNot { not_a : A }.
(** [Box<dyn UserGroup>] *)
Record DynGroup := MkDyn { dyn_is_match : Request → bool }.
Record All := MkAll { all_groups : list DynGroup }.
Record Any := MkAny { any_groups : list DynGroup }.

#[global] Instance dyn_group : UserGroup DynGroup := dyn_is_match.
#[global] Instance and_group {A B} `{UserGroup A} `{UserGroup B} : UserGroup (And A B) :=
  λ g req, is_match (and_a _ _ g) req && is_match (and_b _ _ g) req.
#[global] Instance or_group {A B} `{UserGroup A} `{UserGroup B} : UserGroup (Or A B) :=
  λ g req, is_match (or_a _ _ g) req || is_match (or_b _ _ g) req.
#[global] Instance not_group {A} `{UserGroup A} : UserGroup (Not A) :=
  λ g req, negb (is_match (not_a _ g) req).
#[global] Instance all_group : UserGroup All := λ g req, forallb (λ g, is_match g req) (all_groups g).
#[global] Instance any_group : UserGroup Any := λ g req, existsb (λ g, is_match g req) (any_groups g).

(** [IpNet]: the network test is the [ipnet] crate's. *)
Record IpNet := MkIpNet { net_contains : IpAddr → bool }.
#[global] Instance ipnet_group : UserGroup IpNet := λ net req,
  match original_ip_addr req with Some ip => net_contains net ip | None => false end.

(** [h2_downgrade]: versions are 9, 10, 11, 20 and 30. *)
Definition h2_downgrade (req : Request) : Request :=
  if decide (req_version req = 20) then set_version 11 req else req.
End original_ip.

(** ** Hosts, paths and extractors *)

(** The loop of [HostAndPort::from_bytes] over the bytes from the end: the position of
    the [:] before the trailing digits. [rev] is the text reversed, [idx] the index of
    its first byte. *)
Fixpoint port_colon (rev : string) (idx : nat) : option nat :=
  match rev with
  | "" => None
  | String a rev' =>
      if decide (a = ":"%char) then Some idx
      else if negb (is_ascii_digit a) then None
      else port_colon rev' (idx - 1)
  end.

Record HostAndPort := MkHostAndPort { hp_host : string; hp_port : option string }.
Definition host_from_bytes (host : string) : HostAndPort :=
  match port_colon (str_rev host) (String.length host - 1) with
  | Some pos =>
      MkHostAndPort (str_take pos host)
        (if decide (pos = String.length host - 1)%nat then None else Some (str_drop (pos + 1) host))
  | None => MkHostAndPort host None
  end.
Definition host_end_with (h : HostAndPort) (suffix : string) : bool := ends_with (hp_host h) suffix.

Example host_from_bytes_ex :
  (host_from_bytes "example.com:80", host_from_bytes "example.com:", host_from_bytes "a:b", host_from_bytes "[::1]:443")
  = (MkHostAndPort "example.com" (Some "80"), MkHostAndPort "example.com" None, MkHostAndPort "a:b" None,
     MkHostAndPort "[::1]" (Some "443")).
Proof. vm_compute. reflexivity. Qed.

(** The items of [PathIter]. *)
Definition path_iter (path : string) : list string := str_split "/" (trim_start_matches "/" path).

Inductive StrExtractorPartsKind := PartMethod | PartUri | PartHeader (name : string).
Inductive StrExtractorKind := ExtractParts (k : StrExtractorPartsKind) | ExtractExtension (name : string).

Definition extractor_try_from_str (s : string) : option StrExtractorKind :=
  '(a, b) ← str_split_once "/" s;
  if decide (a = "parts") then
    if decide (b = "uri") then Some (ExtractParts PartUri)
    else if decide (b = "method") then Some (ExtractParts PartMethod)
    else
      '(c, d) ← str_split_once "/" b;
      if decide (c = "header") then Some (ExtractParts (PartHeader d)) else None
  else if decide (a = "ext") then Some (ExtractExtension b)
  else None.

(** [extract_to_string]; the text of a URI is the [http] crate's. *)
Definition extract_to_string `{HttpLib} (uri_string : Uri → string) (k : StrExtractorKind) (req : Request) : option string :=
  match k with
  | ExtractParts PartMethod => Some (req_method req)
  | ExtractParts PartUri => Some (uri_string (req_uri req))
  | ExtractParts (PartHeader name) =>
      v ← hm_get (req_headers req) (to_ascii_lowercase name); hv_to_str v
  | ExtractExtension e =>
      if decide (e = "original_ip_addr") then ip_string <$> ext_original_ip (req_ext req) else None
  end.

(** ** Protocol sniffing *)

Inductive TcpService := Http | Https.

Definition sniff_peek_size (s : TcpService) : nat := match s with Http => 14 | Https => 5 end.
Definition http_methods : list string :=
  ["GET"; "HEAD"; "POST"; "PUT"; "DELETE"; "CONNECT"; "OPTIONS"; "TRACE"; "PATCH"; "PRI * HTTP/2.0"].
Definition tls_handshake : string := String (ascii_of_N 22) (String (ascii_of_N 3) "").
Definition sniff (s : TcpService) (peeked : string) : bool :=
  match s with
  | Http => existsb (starts_with peeked) http_methods
  | Https => starts_with peeked tls_handshake
  end.

(** [SgListen::listen]: the size of the peek buffer, and the service that handles a
    connection: the first that accepts the peek buffer, which is zero behind the bytes
    the stream had. *)
Definition peek_size (services : list TcpService) : nat := foldl (λ acc s, acc `max` sniff_peek_size s)%nat 0%nat services.
Definition peek (size : nat) (stream : string) : string :=
  let got := str_take size stream in got +:+ str_repeat "000" (size - String.length got).
Definition dispatch (services : list TcpService) (stream : string) : option TcpService :=
  let peek_buf := peek (peek_size services) stream in
  find_map (λ s, if sniff s peek_buf then Some s else None) services.

(** ** Lemmas *)

Lemma lor_shiftl a b n : 0 ≤ n → 0 ≤ b < 2 ^ n → Z.lor (Z.shiftl a n) b = a * 2 ^ n + b.
Proof.
  intros Hn Hb. rewrite <- Z.add_nocarry_lor; [by rewrite Z.shiftl_mul_pow2|].
  apply Z.bits_inj'. intros i Hi. rewrite Z.land_spec, Z.bits_0, Z.shiftl_spec by done.
  destruct (decide (i < n)).
  - rewrite (Z.testbit_neg_r a) by lia. done.
  - destruct (decide (b = 0)) as [->|]; [by rewrite Z.bits_0, andb_false_r|].
    rewrite (Z.bits_above_log2 b i); [by rewrite andb_false_r|lia|].
    apply Z.log2_lt_pow2; [lia|]. apply Z.lt_le_trans with (2 ^ n); [lia|]. apply Z.pow_le_mono_r; lia.
Qed.

Lemma snowflake_layout millis mach inc :
  0 ≤ millis < 2 ^ 42 → 0 ≤ mach < 2 ^ 10 → 0 ≤ inc < 2 ^ 12 →
  snowflake millis mach inc = (millis * 2 ^ 10 + mach) * 2 ^ 12 + inc.
Proof.
  intros Hm Hk Hi. unfold snowflake.
  rewrite !uwrap_id by (unfold in_unsigned; rewrite Z.shiftl_mul_pow2 by lia; lia).
  replace (Z.shiftl millis 22) with (Z.shiftl (Z.shiftl millis 10) 12) by (by rewrite Z.shiftl_shiftl).
  rewrite <- Z.shiftl_lor. rewrite lor_shiftl by lia. f_equal. f_equal.
  apply lor_shiftl; lia.
Qed.

Lemma chunked_in l : CHUNKED ∈ l → existsb (λ v, bool_decide (v = CHUNKED)) l = true.
Proof. intros Hin. apply existsb_Exists, Exists_exists. exists CHUNKED. by rewrite bool_decide_eq_true. Qed.

Section framing_lemmas.
Context `{HttpLaws}.

Lemma remove_length_get h k :
  hm_get_all (hm_remove "content-length" h) k = if decide (k = "content-length") then [] else hm_get_all h k.
Proof. apply hm_get_all_remove. Qed.

Lemma set_length_get len h k :
  hm_get_all (set_length len h) k =
  if decide (k = "content-length") then [dec_string len]
  else if decide (k = "transfer-encoding") then [] else hm_get_all h k.
Proof. unfold set_length. by rewrite hm_get_all_insert, hm_get_all_remove. Qed.

Lemma set_length_spec len h :
  (hm_get_all (set_length len h) "content-length" = [dec_string len] ∧
   hm_get_all (set_length len h) "transfer-encoding" = []) ∧
  (∀ k, k ≠ "content-length" → k ≠ "transfer-encoding" → hm_get_all (set_length len h) k = hm_get_all h k).
Proof. rewrite !set_length_get. split; [done|]. intros k ??. by rewrite set_length_get, !decide_False. Qed.
End framing_lemmas.

(** The peek buffer decides a prefix test that it is long enough for. *)
Lemma peek_starts_with p n s :
  (String.length p ≤ n)%nat → no_char "000" p → starts_with (peek n s) p = starts_with s p.
Proof.
  intros Hn Hp. unfold starts_with. apply bool_decide_ext. unfold peek.
  revert n s Hn Hp. induction p as [|a p IH]; intros n s Hn Hp; simpl.
  - split; intros _; by eexists.
  - apply no_char_cons in Hp as [Ha Hp]. simpl in Hn. destruct n as [|n]; [lia|].
    destruct s as [|b s]; simpl.
    + rewrite decide_False by done. done.
    + case_decide; [|done]. apply IH; [lia|done].
Qed.

Lemma peek_size_ge services s : s ∈ services → (sniff_peek_size s ≤ peek_size services)%nat.
Proof.
  unfold peek_size. generalize 0%nat as acc.
  assert (Hmono : ∀ l acc, (acc ≤ foldl (λ acc s, acc `max` sniff_peek_size s)%nat acc l)%nat).
  { induction l as [|x l IH]; intros acc; simpl; [done|]. specialize (IH (acc `max` sniff_peek_size x)%nat). lia. }
  induction services as [|x l IH]; intros acc Hs; [by apply elem_of_nil in Hs|].
  apply elem_of_cons in Hs as [->|Hs]; simpl; [|by apply IH].
  specialize (Hmono l (acc `max` sniff_peek_size x)%nat). lia.
Qed.

Lemma sniff_peek s n stream : (sniff_peek_size s ≤ n)%nat → sniff s (peek n stream) = sniff s stream.
Proof.
  intros Hn. destruct s; simpl in Hn; cbn [sniff].
  - apply eq_true_iff_eq. rewrite !existsb_Exists, !Exists_exists. unfold http_methods.
    assert (Hall : Forall (λ p, (String.length p ≤ 14)%nat ∧ no_char "000" p) http_methods)
      by (repeat constructor).
    rewrite Forall_forall in Hall.
    split; intros (p & Hp & Hs); exists p; (split; [done|]); destruct (Hall p Hp);
      rewrite peek_starts_with in *; (done || lia).
  - apply peek_starts_with; [simpl; lia|done].
Qed.

(** Without the masks an increment past 12 bits runs into the machine id. *)
Example snowflake_collision : snowflake_header 1 0 4096 = snowflake_header 1 1 0.
Proof. vm_compute. reflexivity. Qed.

(** ** Properties *)

(** As long as the parts fit their fields (42, 10 and 12 bits), the generated
    identifier has 16 hexadecimal digits and determines the timestamp, the machine and
    the increment, so no two of them are equal. *)
Theorem snowflake_injective millis mach inc millis' mach' inc' :
  0 ≤ millis < 2 ^ 42 → 0 ≤ mach < 2 ^ 10 → 0 ≤ inc < 2 ^ 12 →
  0 ≤ millis' < 2 ^ 42 → 0 ≤ mach' < 2 ^ 10 → 0 ≤ inc' < 2 ^ 12 →
  String.length (snowflake_header millis mach inc) = 16%nat ∧
  (snowflake_header millis mach inc = snowflake_header millis' mach' inc' →
   (millis, mach, inc) = (millis', mach', inc')).
Proof.
  intros. unfold snowflake_header. rewrite !snowflake_layout by done.
  split; [apply (pad_zero_length 16 16); lia|].
  intros Heq. apply (f_equal (parse_radix 16)) in Heq.
  unfold hex_string in Heq. rewrite !parse_radix_pad in Heq by lia.
  injection Heq as Heq. assert (inc = inc') as -> by nia. assert (mach = mach') as -> by nia.
  assert (millis = millis') as -> by lia. done.
Qed.

Lemma snowflake_injective_witness :
  String.length (snowflake_header 1700000000000 5 7) = 16%nat ∧
  (snowflake_header 1700000000000 5 7 = snowflake_header 1700000000000 5 8 →
   (1700000000000, 5, 7) = (1700000000000, 5, 8)).
Proof. apply (snowflake_injective 1700000000000 5 7 1700000000000 5 8); lia. Defined.

(** The response carries exactly one [x-request-id], the one the inner service
    saw: the client's if the request had one, else the generated one; the request is
    otherwise passed on with the same headers, and the response keeps its own. *)
Theorem x_request_id_spec `{HttpLaws} generated request inner resp :
  x_request_id generated request inner = Some resp →
  ∃ request' inner_resp,
    inner request' = Some inner_resp ∧
    let id := default generated (hm_get (req_headers request) X_REQUEST_ID_HEADER_NAME) in
    hm_get (req_headers request') X_REQUEST_ID_HEADER_NAME = Some id ∧
    hm_get_all (resp_headers resp) X_REQUEST_ID_HEADER_NAME = [id] ∧
    (∀ k, k ≠ X_REQUEST_ID_HEADER_NAME →
       hm_get_all (req_headers request') k = hm_get_all (req_headers request) k ∧
       hm_get_all (resp_headers resp) k = hm_get_all (resp_headers inner_resp) k) ∧
    resp_status resp = resp_status inner_resp ∧ resp_body resp = resp_body inner_resp.
Proof.
  unfold x_request_id. destruct (hm_get (req_headers request) X_REQUEST_ID_HEADER_NAME) as [id|] eqn:Hid;
    intros (inner_resp & Hi & Hr)%bind_Some; simplify_eq; eexists _, inner_resp; (split; [exact Hi|]);
    simpl; split_and!; try done.
  - by rewrite hm_get_all_insert, decide_True.
  - intros k Hk. split; [done|]. by rewrite hm_get_all_insert, decide_False.
  - apply hm_get_insert_eq.
  - by rewrite hm_get_all_insert, decide_True.
  - intros k Hk. by rewrite !hm_get_all_insert, !decide_False.
Qed.

Definition ex_req (headers : list (string * string)) : @Request ref_http :=
  MkReq "GET" (MkUri None None (Some (MkPq "/" None))) 11 headers ext_empty "".

Lemma x_request_id_spec_witness :
  let inner : @Service ref_http := λ req, Some (MkResp 200 (req_headers req) ext_empty "ok") in
  let resp := MkResp 200 [("x-request-id", "a1"); ("host", "h")] ext_empty "ok" in
  ∃ request' inner_resp,
    inner request' = Some inner_resp ∧
    let id := default "ffff" (hm_get (req_headers (ex_req [("x-request-id", "a1"); ("host", "h")])) X_REQUEST_ID_HEADER_NAME) in
    hm_get (req_headers request') X_REQUEST_ID_HEADER_NAME = Some id ∧
    hm_get_all (resp_headers resp) X_REQUEST_ID_HEADER_NAME = [id] ∧
    (∀ k, k ≠ X_REQUEST_ID_HEADER_NAME →
       hm_get_all (req_headers request') k =
         hm_get_all (req_headers (ex_req [("x-request-id", "a1"); ("host", "h")])) k ∧
       hm_get_all (resp_headers resp) k = hm_get_all (resp_headers inner_resp) k) ∧
    resp_status resp = resp_status inner_resp ∧ resp_body resp = resp_body inner_resp.
Proof.
  intros inner resp.
  apply (@x_request_id_spec ref_http ref_laws "ffff" (ex_req [("x-request-id", "a1"); ("host", "h")]) inner resp).
  reflexivity.
Defined.

(** Credentials survive the header: what [inject] puts into a request [extract]
    reads back, for a bearer token always and for a basic user name without a colon;
    the other headers stay. *)
Theorem auth_inject_extract `{HttpLaws} `{!Base64Laws B} (basic : Basic) (bearer : Bearer) req :
  (no_char ":" (username basic) → is_Some (from_utf8 (to_auth_string basic)) →
   ∀ req', auth_inject basic req = Ok req' →
     auth_extract req' = Some basic ∧
     ∀ k, k ≠ "authorization" → hm_get_all (req_headers req') k = hm_get_all (req_headers req) k) ∧
  (∀ req', auth_inject bearer req = Ok req' → auth_extract req' = Some bearer).
Proof.
  assert (Hstrip : ∀ p s, str_strip_prefix p (p +:+ s) = Some s)
    by (intros p s; by apply str_strip_prefix_Some).
  split.
  - intros Hu [auth Hutf] req'. unfold auth_inject, auth_extract, auth_to_header, auth_try_from, auth_basic, basic_to_header, basic_try_from.
    destruct (hv_from_str _) as [v|] eqn:Hv; [|done]. cbn [ok_or result_bind]. intros [= <-].
    split; [|intros k Hk; simpl; by rewrite hm_get_all_insert, decide_False].
    cbn [req_headers set_headers]. rewrite hm_get_insert_eq. cbn [mbind option_bind].
    apply hv_to_from in Hv. rewrite Hv, Hstrip, b64_decode_encode. cbn [ok_or result_bind].
    pose proof (from_utf8_id _ _ Hutf) as ->. rewrite Hutf. cbn [ok_or result_bind result_ok]. f_equal.
    unfold infallible_parse, to_auth_string. destruct basic as [u [p|]]; simpl in *.
    + rewrite <- str_app_assoc. simpl.
      by rewrite (proj2 (str_split_once_Some ":" (u +:+ String ":" p) u p) (conj eq_refl Hu)).
    + by rewrite (proj2 (str_split_once_None ":" u) Hu).
  - intros req'. unfold auth_inject, auth_extract, auth_to_header, auth_try_from, auth_bearer, bearer_to_header, bearer_try_from.
    destruct (hv_from_str _) as [v|] eqn:Hv; [|done]. cbn [ok_or result_bind]. intros [= <-].
    cbn [req_headers set_headers]. rewrite hm_get_insert_eq. cbn [mbind option_bind].
    apply hv_to_from in Hv. rewrite Hv, Hstrip. by destruct bearer.
Qed.

(** An encoding that satisfies the laws. *)
#[export] Instance ref_base64 : Base64 := {|
  b64_encode s := "=" +:+ s; b64_decode s := str_strip_prefix "=" s; from_utf8 := Some |}.
#[export] Instance ref_base64_laws : Base64Laws ref_base64.
Proof. split; [by intros s; apply str_strip_prefix_Some|by intros s t [= ->]]. Qed.

Lemma auth_inject_extract_witness :
  let basic := MkBasic "user" (Some "pass:word") in
  (no_char ":" (username basic) → is_Some (from_utf8 (to_auth_string basic)) →
   ∀ req', auth_inject basic (ex_req []) = Ok req' →
     auth_extract req' = Some basic ∧
     ∀ k, k ≠ "authorization" → hm_get_all (req_headers req') k = hm_get_all (req_headers (ex_req [])) k) ∧
  (∀ req', auth_inject (MkBearer "tok") (ex_req []) = Ok req' → auth_extract req' = Some (MkBearer "tok")).
Proof. intros basic. apply (@auth_inject_extract ref_http ref_laws ref_base64 ref_base64_laws). Defined.

(** the framing headers are never contradictory: after the call either there is one
    [content-length] with the body's length and no [transfer-encoding], or there is no
    [content-length] and the encodings include [chunked]; other headers stay, and a
    second call changes nothing. *)
Theorem framing_exclusive `{HttpLaws} exact dumped h :
  let h' := length_or_chunked exact dumped h in
  match opt_or exact dumped with
  | Some len => hm_get_all h' "content-length" = [dec_string len] ∧ hm_get_all h' "transfer-encoding" = []
  | None => hm_get_all h' "content-length" = [] ∧ CHUNKED ∈ hm_get_all h' "transfer-encoding"
  end ∧
  (∀ k, k ≠ "content-length" → k ≠ "transfer-encoding" → hm_get_all h' k = hm_get_all h k) ∧
  hm_equiv (length_or_chunked exact dumped h') h'.
Proof.
  unfold length_or_chunked. destruct exact as [len|]; [|destruct dumped as [len|]]; cbn [opt_or].
  - destruct (set_length_spec len h) as [[??] ?]. split_and!; [done..|]. intros k. rewrite !set_length_get. by repeat case_decide.
  - destruct (set_length_spec len (hm_remove "content-length" h)) as [[??] Hk]. split_and!; [done..| |].
    + intros k Hc Ht. by rewrite Hk, remove_length_get, decide_False.
    + intros k. rewrite !set_length_get, !remove_length_get, !set_length_get, !remove_length_get. by repeat case_decide.
  - set (h1 := hm_remove "content-length" h).
    destruct (existsb _ (hm_get_all h1 "transfer-encoding")) eqn:E.
    + apply existsb_Exists, Exists_exists in E as (v & Hv & ->%bool_decide_eq_true). split_and!.
      * subst h1. by rewrite remove_length_get.
      * done.
      * intros k Hc Ht. subst h1. by rewrite remove_length_get, decide_False.
      * assert (hm_equiv (hm_remove "content-length" h1) h1) as Heq
          by (intros k; subst h1; rewrite !remove_length_get; by case_decide).
        by rewrite (Heq "transfer-encoding"), chunked_in.
    + set (h2 := hm_append "transfer-encoding" CHUNKED h1).
      assert (Hh2 : ∀ k, hm_get_all h2 k = if decide (k = "transfer-encoding") then hm_get_all h1 k ++ [CHUNKED] else hm_get_all h1 k)
        by (intros; apply hm_get_all_append). split_and!.
      * rewrite Hh2. simpl. subst h1. by rewrite remove_length_get.
      * rewrite Hh2. simpl. set_solver.
      * intros k Hc Ht. rewrite Hh2, decide_False by done. subst h1. by rewrite remove_length_get, decide_False.
      * assert (hm_equiv (hm_remove "content-length" h2) h2) as Heq
          by (intros k; rewrite remove_length_get, Hh2; subst h1; rewrite remove_length_get; repeat case_decide; congruence).
        rewrite (Heq "transfer-encoding"), chunked_in; [done|]. rewrite Hh2. simpl. set_solver.
Qed.

Lemma framing_exclusive_witness :
  let h : @HeaderMap ref_http := [("transfer-encoding", "chunked"); ("host", "h")] in
  let h' := length_or_chunked (Some 5) None h in
  match opt_or (Some 5) None with
  | Some len => hm_get_all h' "content-length" = [dec_string len] ∧ hm_get_all h' "transfer-encoding" = []
  | None => hm_get_all h' "content-length" = [] ∧ CHUNKED ∈ hm_get_all h' "transfer-encoding"
  end ∧
  (∀ k, k ≠ "content-length" → k ≠ "transfer-encoding" → hm_get_all h' k = hm_get_all h k) ∧
  hm_equiv (length_or_chunked (Some 5) None h') h'.
Proof. intros h. apply (@framing_exclusive ref_http ref_laws (Some 5) None h). Defined.

(** A connection is handled by the first service of the listener that accepts the
    bytes the client sends: the peek buffer is long enough for every service, its zero
    padding changes no decision, and no stream is accepted as both HTTP and TLS. *)
Theorem dispatch_spec services stream :
  dispatch services stream = find_map (λ s, if sniff s stream then Some s else None) services ∧
  ¬ (sniff Http stream = true ∧ sniff Https stream = true).
Proof.
  split.
  - unfold dispatch. pose proof (peek_size_ge services) as Hge. revert Hge.
    generalize (peek_size services) as n. intros n Hge.
    induction services as [|s l IH]; simpl; [done|].
    rewrite sniff_peek by (apply Hge; by left). rewrite IH; [done|]. intros s' Hs'. apply Hge. by right.
  - intros [Hh Hs]. cbn [sniff] in *.
    apply existsb_Exists, Exists_exists in Hh as (m & Hm & [t ->]%starts_with_spec).
    apply starts_with_spec in Hs as [u Hu].
    assert (Hall : Forall (λ p, ∃ a p', p = String a p' ∧ is_ascii_upper a = true) http_methods)
      by (repeat constructor; by eexists _, _).
    rewrite Forall_forall in Hall. destruct (Hall m Hm) as (a & p' & -> & Ha).
    simpl in Hu. injection Hu as -> _. done.
Qed.
