(* ===== verification/Model.v ===== *)
(** * Plugin configurations

    [crates/model/src/plugin.rs]: the identity of a plugin instance, its text forms
    (the one of the instance map's keys and the one of file names) and the instance
    map with its serialisation.

    A JSON value is a parameter. The derived serialisation of [PluginConfig] is taken
    to keep the record, so a serialised instance map is a map from text to
    configurations; a [HashMap] is visited in an unspecified order, so what consumes
    one takes the list of its entries in the order of the visit. *)

From S2P Require Export RustStr.
Local Open Scope string_scope.
Local Open Scope list_scope.

Inductive PluginInstanceName :=
| Anon (uid : string)
| Named (name : string)
| Mono.

Record PluginInstanceId := MkPluginId { id_code : string; id_name : PluginInstanceName }.

Record PluginBinding := MkBinding { binding_id : PluginInstanceId; binding_priority : Z }.

#[export] Instance PluginInstanceName_eq_dec : EqDecision PluginInstanceName.
Proof. solve_decision. Defined.
#[export] Instance PluginInstanceId_eq_dec : EqDecision PluginInstanceId.
Proof. solve_decision. Defined.
#[export] Instance PluginInstanceName_countable : Countable PluginInstanceName.
Proof.
  refine (inj_countable'
    (λ n, match n with Anon u => inl u | Named n => inr (Some n) | Mono => inr None end)
    (λ x, match x with inl u => Anon u | inr (Some n) => Named n | inr None => Mono end) _).
  by intros [].
Defined.
#[export] Instance PluginInstanceId_countable : Countable PluginInstanceId.
Proof.
  refine (inj_countable' (λ i, (id_code i, id_name i)) (λ p, MkPluginId p.1 p.2) _).
  by intros [].
Defined.

(** ** Names *)

(** [to_raw_str] *)
Definition to_raw_str (n : PluginInstanceName) : string :=
  match n with Anon uid => uid | Named name => name | Mono => "" end.

(** [From<Option<String>> for PluginInstanceName] *)
Definition name_from_option (value : option string) : PluginInstanceName :=
  match value with Some name => Named name | None => Mono end.

(** [Display for PluginInstanceName] and for [PluginInstanceId] *)
Definition name_to_string (n : PluginInstanceName) : string :=
  match n with Anon uid => "a-" +:+ uid | Named name => "n-" +:+ name | Mono => "m" end.
Definition id_to_string (id : PluginInstanceId) : string :=
  id_code id +:+ "-" +:+ name_to_string (id_name id).

(** The two items of [s.splitn(2, '-')]. *)
Definition splitn2 (c : ascii) (s : string) : string * option string :=
  match str_split_once c s with Some (p, q) => (p, Some q) | None => (s, None) end.

(** [FromStr for PluginInstanceName] *)
Definition name_from_str (s : string) : result PluginInstanceName string :=
  if str_is_empty s then Err "empty string"
  else
    let '(kind, rest) := splitn2 "-" s in
    if decide (kind = "a") then
      let? uid := ok_or rest "missing uid" in Ok (Anon uid)
    else if decide (kind = "n") then
      let? name := ok_or rest "missing name" in
      if str_is_empty name then Err "empty name" else Ok (Named name)
    else if decide (kind = "g") then Ok Mono
    else Err "invalid prefix".

(** ** Identities *)

(** [PluginInstanceId::parse_by_code] *)
Definition parse_by_code (code id : string) : result PluginInstanceId string :=
  let? rest := ok_or (str_strip_prefix code id) "unmatched code" in
  let? name := name_from_str (trim_matches "-" rest) in
  Ok (MkPluginId code name).

(** [as_file_stem] and [from_file_stem] *)
Definition as_file_stem (id : PluginInstanceId) : string :=
  match id_name id with
  | Anon uid => id_code id +:+ "." +:+ uid
  | Named name => id_code id +:+ "." +:+ name
  | Mono => id_code id
  end.

Definition from_file_stem (stem : string) : PluginInstanceId :=
  match str_split "." stem with
  | code :: name :: _ => MkPluginId code (Named name)
  | [code] => MkPluginId code Mono
  | [] => MkPluginId "" Mono
  end.

(** ** Configurations and the instance map *)

Notation PluginInstanceMap := (gmap PluginInstanceId).

Section config.
Context {Value : Type}.

Record PluginConfig := MkPluginConfig {
  cfg_id : PluginInstanceId;
  cfg_display_name : option string;
  cfg_spec : Value;
}.

Definition config_new (id : PluginInstanceId) (spec : Value) : PluginConfig :=
  MkPluginConfig id None spec.

(** The struct [PluginInstanceMap] is its only field. *)

(** [collect] into a [HashMap]: a later entry replaces an earlier one. *)
Definition collect `{Countable K} {V} (l : list (K * V)) : gmap K V :=
  foldl (λ m kv, <[kv.1 := kv.2]> m) ∅ l.

(** [from_config_vec] and [into_config_vec] *)
Definition from_config_vec (vec : list PluginConfig) : PluginInstanceMap Value :=
  collect ((λ c, (cfg_id c, cfg_spec c)) <$> vec).
Definition into_config_vec (entries : list (PluginInstanceId * Value)) : list PluginConfig :=
  (λ kv, MkPluginConfig kv.1 None kv.2) <$> entries.

(** [Serialize] and [Deserialize for PluginInstanceMap] *)
Definition serialize (entries : list (PluginInstanceId * Value)) : gmap string PluginConfig :=
  collect ((λ kv, (id_to_string kv.1, MkPluginConfig kv.1 None kv.2)) <$> entries).
Definition deserialize_entry (kv : string * PluginConfig) : option (PluginInstanceId * Value) :=
  match parse_by_code (id_code (cfg_id kv.2)) kv.1 with
  | Ok id => Some (id, cfg_spec kv.2)
  | Err _ => None
  end.
Definition deserialize (entries : list (string * PluginConfig)) : PluginInstanceMap Value :=
  collect (omap deserialize_entry entries).
End config.
Arguments PluginConfig : clear implicits.

(** ** Lemmas on names *)

Lemma str_strip_prefix_app p s : str_strip_prefix p (p +:+ s) = Some s.
Proof. by apply str_strip_prefix_Some. Qed.

Lemma trim_end_cons c a s :
  a ≠ c → trim_end_matches c (String a s) = String a (trim_end_matches c s).
Proof.
  intros Ha. unfold trim_end_matches. cbn [trim_end_if].
  destruct (trim_end_if (is_char c) s); [|done].
  unfold is_char. by rewrite bool_decide_eq_false_2.
Qed.

Lemma trim_end_sep c s :
  trim_end_matches c (String c s) =
  match trim_end_matches c s with "" => "" | t => String c t end.
Proof.
  unfold trim_end_matches. cbn [trim_end_if].
  destruct (trim_end_if (is_char c) s); [|done].
  unfold is_char. by rewrite bool_decide_eq_true_2.
Qed.

(** What is left of [-k-rest] by [trim_matches('-')], for a letter [k]. *)
Lemma trim_kind k rest :
  k ≠ "-"%char →
  trim_matches "-" (String "-" (String k (String "-" rest))) =
  match trim_end_matches "-" rest with
  | "" => String k ""
  | t => String k (String "-" t)
  end.
Proof.
  intros Hk. unfold trim_matches, trim_start_matches. cbn [trim_start_if].
  unfold is_char. rewrite bool_decide_eq_true_2 by done.
  rewrite bool_decide_eq_false_2 by done.
  rewrite trim_end_cons by done. rewrite trim_end_sep.
  by destruct (trim_end_matches "-" rest).
Qed.

Lemma parse_by_code_display code name :
  parse_by_code code (id_to_string (MkPluginId code name)) =
  let? n := name_from_str (trim_matches "-" (String "-" (name_to_string name))) in
  Ok (MkPluginId code n).
Proof.
  unfold parse_by_code, id_to_string. cbn [id_code id_name].
  by rewrite str_strip_prefix_app.
Qed.

(** The name that [parse_by_code] reads back. *)
Definition reparsed (n : PluginInstanceName) : result PluginInstanceName string :=
  match n with
  | Anon uid =>
      if str_is_empty (trim_end_matches "-" uid) then Err "missing uid"
      else Ok (Anon (trim_end_matches "-" uid))
  | Named name =>
      if str_is_empty (trim_end_matches "-" name) then Err "missing name"
      else Ok (Named (trim_end_matches "-" name))
  | Mono => Err "invalid prefix"
  end.

Lemma parse_by_code_reparsed code name :
  parse_by_code code (id_to_string (MkPluginId code name)) =
  let? n := reparsed name in Ok (MkPluginId code n).
Proof.
  rewrite parse_by_code_display. destruct name as [uid|name|]; [| |done].
  all: cbn [name_to_string String.append]; rewrite trim_kind by done; cbn [reparsed].
  - by destruct (trim_end_matches "-" uid).
  - by destruct (trim_end_matches "-" name).
Qed.

(** A name without a trailing hyphen that is not empty: the ones that survive. *)
Definition name_ok (n : PluginInstanceName) : Prop :=
  match n with
  | Anon s | Named s => s ≠ "" ∧ trim_end_matches "-" s = s
  | Mono => False
  end.

Lemma reparsed_ok n : reparsed n = Ok n ↔ name_ok n.
Proof.
  destruct n as [s|s|]; simpl; [| |done].
  all: destruct (trim_end_matches "-" s) as [|a t] eqn:E; simpl.
  all: split; [try done; try (intros [= <-]; done)|].
  all: try (intros [? <-]; done).
Qed.

Lemma name_to_string_inj n n' : name_to_string n = name_to_string n' → n = n'.
Proof. destruct n, n'; simpl; intros H; simplify_eq; done. Qed.

(** Instances of one plugin have different keys. *)
Lemma id_to_string_inj i i' :
  id_code i = id_code i' → id_to_string i = id_to_string i' → i = i'.
Proof.
  destruct i as [c n], i' as [c' n']. unfold id_to_string. simpl. intros -> H.
  apply str_app_inj_l in H. injection H as H. f_equal. by apply name_to_string_inj.
Qed.

(** ** Lemmas on maps *)

Section collect.
Context `{Countable K} {V : Type}.
Implicit Types (l : list (K * V)) (m : gmap K V).

Lemma collect_snoc l kv : collect (l ++ [kv]) = <[kv.1 := kv.2]> (collect l).
Proof. unfold collect. by rewrite foldl_app. Qed.

(** The last entry of a key is the one that stays. *)
Lemma collect_reverse l : collect l = list_to_map (reverse l).
Proof.
  induction l as [|kv l IH] using rev_ind; [done|].
  rewrite collect_snoc, reverse_snoc, IH. by destruct kv.
Qed.

Lemma collect_map l m : l ≡ₚ map_to_list m → collect l = m.
Proof.
  intros Hl. rewrite collect_reverse.
  rewrite (list_to_map_proper (reverse l) (map_to_list m)).
  - apply list_to_map_to_list.
  - rewrite fmap_reverse, reverse_Permutation, Hl. apply NoDup_fst_map_to_list.
  - by rewrite reverse_Permutation.
Qed.
End collect.

Lemma map_to_list_collect `{Countable K} {V} (l : list (K * V)) :
  NoDup l.*1 → map_to_list (collect l) ≡ₚ l.
Proof.
  intros Hl. rewrite collect_reverse, map_to_list_to_map.
  - apply reverse_Permutation.
  - by rewrite fmap_reverse, reverse_Permutation.
Qed.

Section roundtrip.
Context {Value : Type}.
Implicit Types (m : PluginInstanceMap Value).

Definition entry_of (kv : PluginInstanceId * Value) : string * PluginConfig Value :=
  (id_to_string kv.1, MkPluginConfig kv.1 None kv.2).

(** Every text of a map's entry is one of its identities. *)
Lemma serialize_entry entries k c :
  serialize (Value:=Value) entries !! k = Some c →
  ∃ kv, kv ∈ entries ∧ (k, c) = entry_of kv.
Proof.
  unfold serialize. rewrite collect_reverse. intros Hk.
  apply elem_of_list_to_map_2 in Hk. rewrite elem_of_reverse in Hk.
  apply list_elem_of_fmap in Hk as (kv&Hkv&?). by exists kv.
Qed.

Lemma deserialize_entry_of kv :
  deserialize_entry (entry_of kv) =
  match reparsed (id_name kv.1) with Ok n => Some (MkPluginId (id_code kv.1) n, kv.2) | Err _ => None end.
Proof.
  destruct kv as [[code n] v]. unfold deserialize_entry, entry_of. cbn [fst snd cfg_id cfg_spec id_code id_name].
  rewrite parse_by_code_reparsed. by destruct (reparsed n).
Qed.

Lemma deserialize_ok entries :
  Forall (λ kv, name_ok (id_name kv.1)) entries →
  omap deserialize_entry (entry_of <$> entries) = entries.
Proof.
  induction 1 as [|[[c n] v] entries Hn Hentries IH]; [done|].
  rewrite fmap_cons. cbn [omap list_omap]. rewrite deserialize_entry_of.
  cbn [id_name id_code fst snd] in *. apply reparsed_ok in Hn. rewrite Hn. by f_equal.
Qed.

Lemma serialize_keys entries :
  NoDup entries.*1 →
  (∀ i j, i ∈ entries.*1 → j ∈ entries.*1 → id_to_string i = id_to_string j → i = j) →
  NoDup ((entry_of <$> entries).*1).
Proof.
  rewrite <- list_fmap_compose. change (fst ∘ entry_of) with (id_to_string ∘ fst (A:=PluginInstanceId) (B:=Value)).
  rewrite list_fmap_compose. generalize entries.*1. clear entries. intros ids Hnd Hinj.
  induction Hnd as [|i ids Hi Hnd IH]; [constructor|]. rewrite fmap_cons. constructor.
  - intros (j&Hj&Hin)%list_elem_of_fmap. apply Hi.
    rewrite (Hinj i j); [done|set_solver..].
  - apply IH. intros. apply Hinj; set_solver.
Qed.
End roundtrip.

(** ** Properties *)

(** An identity is read back from its text exactly if its name is not [Mono],
    is not empty and has no trailing hyphen; what is read back otherwise has the
    trailing hyphens removed, and the text of a [Mono] identity is never accepted. *)
Theorem plugin_id_roundtrip (i : PluginInstanceId) :
  (parse_by_code (id_code i) (id_to_string i) = Ok i ↔ name_ok (id_name i)) ∧
  (∀ j, parse_by_code (id_code i) (id_to_string i) = Ok j →
    id_code j = id_code i ∧ to_raw_str (id_name j) = trim_end_matches "-" (to_raw_str (id_name i))) ∧
  (id_name i = Mono →
    parse_by_code (id_code i) (id_to_string i) = Err "invalid prefix").
Proof.
  destruct i as [code n]. cbn [id_code id_name]. rewrite parse_by_code_reparsed.
  split_and!.
  - rewrite <- reparsed_ok. destruct (reparsed n) as [n'|]; simpl; [|done].
    split; [by intros [= ->]|by intros [= ->]].
  - intros j. destruct n as [s|s|]; simpl; [| |done].
    all: destruct (str_is_empty (trim_end_matches "-" s)); simpl; [done|]; by intros [= <-].
  - by intros ->.
Qed.

(** The instance map survives its serialisation, in whatever order the two hash
    maps are visited, if its names can be read back and no two identities have the same
    text. *)
Theorem instance_map_roundtrip {Value} (m : PluginInstanceMap Value) entries entries'
  (Hentries : entries ≡ₚ map_to_list m)
  (Hnames : ∀ i, is_Some (m !! i) → name_ok (id_name i))
  (Hinj : ∀ i j, is_Some (m !! i) → is_Some (m !! j) → id_to_string i = id_to_string j → i = j)
  (Hentries' : entries' ≡ₚ map_to_list (serialize entries)) :
  deserialize entries' = m.
Proof.
  assert (Hin : ∀ kv, kv ∈ entries → m !! kv.1 = Some kv.2).
  { intros [k v] Hkv. rewrite Hentries in Hkv. by apply elem_of_map_to_list in Hkv. }
  assert (Hdom : ∀ i, i ∈ entries.*1 → is_Some (m !! i)).
  { intros i (kv&->&Hkv)%list_elem_of_fmap. exists (kv.2). auto. }
  apply collect_map.
  assert (entries' ≡ₚ entry_of <$> entries) as ->.
  { rewrite Hentries'. apply map_to_list_collect, serialize_keys; [|auto].
    rewrite Hentries. apply NoDup_fst_map_to_list. }
  rewrite deserialize_ok, Hentries; [done|].
  apply Forall_forall. intros kv Hkv. apply Hnames. rewrite (Hin _ Hkv). by eexists.
Qed.

(** A plugin instance without a name is lost by the round trip of any map. *)
Lemma mono_lost {Value} (entries : list (PluginInstanceId * Value)) entries' code :
  entries' ≡ₚ map_to_list (serialize entries) →
  deserialize entries' !! MkPluginId code Mono = None.
Proof.
  intros Hentries'. apply eq_None_not_Some. intros [v Hv]. revert Hv.
  unfold deserialize. rewrite collect_reverse. intros Hv.
  apply elem_of_list_to_map_2 in Hv. rewrite elem_of_reverse in Hv.
  apply list_elem_of_omap in Hv as ([k c]&Hkc&Hd). rewrite Hentries' in Hkc.
  apply elem_of_map_to_list, serialize_entry in Hkc as (kv&_&Heq).
  rewrite Heq, deserialize_entry_of in Hd.
  destruct (id_name kv.1) as [s|s|]; simpl in Hd; [| |done].
  all: destruct (str_is_empty (trim_end_matches "-" s)); by simplify_eq.
Qed.

(** The name of a file keeps the name up to its first dot, and forgets that an instance
    is anonymous. *)
Lemma file_stem_roundtrip i :
  no_char "." (id_code i) →
  from_file_stem (as_file_stem i) =
  MkPluginId (id_code i)
    match id_name i with
    | Mono => Mono
    | Anon s | Named s => Named (hd "" (str_split "." s))
    end.
Proof.
  destruct i as [code [s|s|]]; intros Hc; unfold from_file_stem, as_file_stem; cbn [id_code id_name] in *.
  1, 2: cbn [String.append]; rewrite str_split_app by done;
    pose proof (str_split_cons_ne "." s); by destruct (str_split "." s).
  by rewrite str_split_no_char.
Qed.

Lemma file_stem_named code name :
  no_char "." code → no_char "." name →
  from_file_stem (as_file_stem (MkPluginId code (Named name))) = MkPluginId code (Named name).
Proof.
  intros. rewrite file_stem_roundtrip by done. cbn [id_code id_name].
  by rewrite str_split_no_char.
Qed.

Example mono_not_parsed :
  parse_by_code "limit" (id_to_string (MkPluginId "limit" Mono)) = Err "invalid prefix".
Proof. reflexivity. Qed.

(** Two identities of different plugins with one text. *)
Example id_text_collision :
  id_to_string (MkPluginId "wasm" (Named "n-x")) = id_to_string (MkPluginId "wasm-n" (Named "x")).
Proof. reflexivity. Qed.

Lemma instance_map_roundtrip_witness :
  let i := MkPluginId "limit" (Named "a") in
  let m : PluginInstanceMap nat := {[ i := 1%nat ]} in
  deserialize (map_to_list (serialize (map_to_list m))) = m.
Proof.
  intros i m. refine (instance_map_roundtrip m (map_to_list m) _ _ _ _ _).
  - reflexivity.
  - intros j [v Hj]. apply lookup_singleton_Some in Hj as [<- _]. simpl. split; [discriminate|reflexivity].
  - intros j k [v Hj] [w Hk] _. apply lookup_singleton_Some in Hj as [<- _].
    by apply lookup_singleton_Some in Hk as [<- _].
  - reflexivity.
Defined.
