(* ===== verification/PluginRepo.v ===== *)
(** * The plugin repository

    [crates/plugin/src/{lib,instance,mount,layer,error}.rs]: plugin definitions, the
    instances made of them, the layers an instance mounts at gateways, routes, rules and
    backends, and the hot update of an instance.

    The shared objects are explicit. A plugin function ([Arc<ArcSwap<InnerBoxPf>>]) is the
    index of its cell in [cells]; a layer made of an instance holds the same index, which
    is how an update reaches it. A drop signal is a number; it is alive while a mount point
    that exists has its marker. A lock is held for the whole of an operation, so the
    operations are atomic steps; a panic while it is held, which poisons it, is not
    modelled, and neither is the wrap-around of the 64-bit drop signal counter. *)

From S2P Require Export Model Service.
From S2P Require Import RefHttp.
Local Open Scope string_scope.
Local Open Scope list_scope.
Local Open Scope nat_scope.

(** [PluginMetaData] and [PluginAttributes] *)
Record PluginMetaData := MkMeta {
  meta_title : option string;
  meta_authors : option string;
  meta_description : option string;
  meta_version : option string;
  meta_homepage : option string;
  meta_repository : option string;
}.
Definition meta_default : PluginMetaData := MkMeta None None None None None None.

Record PluginAttributes := MkAttributes {
  at_meta : PluginMetaData; at_mono : bool; at_code : string }.

(** ** Mount points *)

Inductive MountPointIndex :=
| AtGateway (gateway : string)
| AtHttpRoute (gateway route : string)
| AtHttpRouteRule (gateway route : string) (rule : nat)
| AtHttpBackend (gateway route : string) (rule backend : nat).

#[export] Instance MountPointIndex_eq_dec : EqDecision MountPointIndex.
Proof. solve_decision. Defined.
#[export] Instance MountPointIndex_countable : Countable MountPointIndex.
Proof.
  refine (inj_countable'
    (λ i, match i with
          | AtGateway g => (g, None)
          | AtHttpRoute g r => (g, Some (r, None))
          | AtHttpRouteRule g r k => (g, Some (r, Some (k, None)))
          | AtHttpBackend g r k b => (g, Some (r, Some (k, Some b)))
          end)
    (λ x, match x with
          | (g, None) => AtGateway g
          | (g, Some (r, None)) => AtHttpRoute g r
          | (g, Some (r, Some (k, None))) => AtHttpRouteRule g r k
          | (g, Some (r, Some (k, Some b))) => AtHttpBackend g r k b
          end) _).
  by intros [].
Defined.

(** [MountPointIndex::gateway] *)
Definition index_gateway (i : MountPointIndex) : string :=
  match i with
  | AtGateway g => g
  | AtHttpRoute g _ => g
  | AtHttpRouteRule g _ _ => g
  | AtHttpBackend g _ _ _ => g
  end.

(** A mount point, by what mounting changes of it: its layers, each the cell of a plugin
    function, and the drop markers in its extensions. *)
Record MountPoint := MkMountPoint { mp_layers : list nat; mp_markers : gset nat }.
Definition mount_point_new : MountPoint := MkMountPoint [] ∅.

(** ** Plugins *)

Section repo.
Context `{HttpLib} {Value : Type}.

Definition InnerBoxPf : Type := Request → Service → option Response.

(** The trait [Plugin] for one type. [schema_title] is the title in the schema of its
    configuration, where the feature [schema] is on and there is one. *)
Class Plugin (P : Type) := {
  CODE : string;
  MONO : bool;
  meta : PluginMetaData;
  schema_title : option string;
  call : P → Request → Service → option (result Response string);
  create : PluginConfig Value → result P string;
}.

(** [PluginError], its [Display] and its conversion to a response *)
Record PluginError := MkPluginError { pe_code : string; pe_source : string; pe_status : Z }.

Definition plugin_error_string (e : PluginError) : string :=
  "[Sg.Plugin." +:+ pe_code e +:+ "] " +:+ pe_source e.
Definition plugin_error_response (e : PluginError) : Response :=
  let resp := with_code_message (pe_status e) (plugin_error_string e) in
  set_resp_headers (hm_insert "x-plugin-error" (pe_code e) (resp_headers resp)) resp.
Definition internal_error (P : Type) `{Plugin P} (e : string) : PluginError :=
  MkPluginError CODE e 500.

Record PluginDefinitionObject := MkDefinition {
  def_mono : bool;
  def_code : string;
  def_meta : PluginMetaData;
  def_make_pf : PluginConfig Value → result InnerBoxPf string;
}.

(** [PluginDefinitionObject::from_trait] and [attr] *)
Definition from_trait (P : Type) `{Plugin P} : PluginDefinitionObject :=
  let m := meta (P:=P) in
  let m := match meta_title m with
           | None => MkMeta (schema_title (P:=P)) (meta_authors m) (meta_description m)
                       (meta_version m) (meta_homepage m) (meta_repository m)
           | Some _ => m
           end in
  MkDefinition (MONO (P:=P)) (CODE (P:=P)) m
    (λ config,
      let? plugin := create (P:=P) config in
      Ok (λ req inner,
        match call plugin req inner with
        | Some (Ok resp) => Some resp
        | Some (Err e) => Some (plugin_error_response (internal_error P e))
        | None => None
        end)).

Definition attr_of (d : PluginDefinitionObject) : PluginAttributes :=
  MkAttributes (def_meta d) (def_mono d) (def_code d).

(** ** Instances *)

(** The part of [PluginInstance] that its hooks see: the configuration, the tracers of its
    mount points and its plugin function. *)
Record InstanceData := MkInstanceData {
  inst_config : PluginConfig Value;
  inst_mount_points : gmap MountPointIndex nat;
  inst_function : nat;
}.
Definition PluginInstanceHook : Type := InstanceData → result unit string.
Record PluginInstanceHooks := MkHooks {
  after_create : option PluginInstanceHook;
  before_mount : option PluginInstanceHook;
  after_mount : option PluginInstanceHook;
  before_destroy : option PluginInstanceHook;
}.
Definition hooks_default : PluginInstanceHooks := MkHooks None None None None.
Record PluginInstance := MkInstance { inst_data : InstanceData; inst_hooks : PluginInstanceHooks }.

Record PluginInstanceSnapshot := MkSnapshot {
  snap_config : PluginConfig Value;
  snap_mount_points : gset MountPointIndex;
}.

(** [call_hook] *)
Definition call_hook (hook : option PluginInstanceHook) (i : PluginInstance) : result unit string :=
  match hook with Some h => h (inst_data i) | None => Ok tt end.

(** The setters of [expose_hooks!]; the crate calls none of them, so the instances of a run
    keep the default hooks. *)
Definition set_after_create (h : PluginInstanceHook) (i : PluginInstance) : PluginInstance :=
  let k := inst_hooks i in
  MkInstance (inst_data i) (MkHooks (Some h) (before_mount k) (after_mount k) (before_destroy k)).
Definition set_before_create (h : PluginInstanceHook) (i : PluginInstance) : PluginInstance :=
  let k := inst_hooks i in
  MkInstance (inst_data i) (MkHooks (after_create k) (Some h) (after_mount k) (before_destroy k)).
Definition set_after_mount (h : PluginInstanceHook) (i : PluginInstance) : PluginInstance :=
  let k := inst_hooks i in
  MkInstance (inst_data i) (MkHooks (after_create k) (before_mount k) (Some h) (before_destroy k)).
Definition set_before_destroy (h : PluginInstanceHook) (i : PluginInstance) : PluginInstance :=
  let k := inst_hooks i in
  MkInstance (inst_data i) (MkHooks (after_create k) (before_mount k) (after_mount k) (Some h)).

(** ** The repository *)

Record World := MkWorld {
  plugins : gmap string PluginDefinitionObject;
  instances : gmap PluginInstanceId PluginInstance;
  cells : list InnerBoxPf;
  signals : nat;
  points : gmap nat MountPoint;
}.
Definition world_new : World := MkWorld ∅ ∅ [] 0 ∅.

Definition set_plugins p (w : World) : World :=
  MkWorld p (instances w) (cells w) (signals w) (points w).
Definition set_instances i (w : World) : World :=
  MkWorld (plugins w) i (cells w) (signals w) (points w).
Definition set_cells c (w : World) : World :=
  MkWorld (plugins w) (instances w) c (signals w) (points w).
Definition set_points p (w : World) : World :=
  MkWorld (plugins w) (instances w) (cells w) (signals w) p.

(** The failures of the repository's operations. *)
Inductive RepoError :=
| Unregistered (code : string)
| MissingInstance (id : PluginInstanceId)
| PluginFailed (e : string).

(** [DropTracer::all_dropped]: no mount point has the marker. *)
Definition alive (w : World) (signal : nat) : bool :=
  bool_decide (map_Exists (λ _ mp, signal ∈ mp_markers mp) (points w)).
Definition all_dropped (w : World) (signal : nat) : bool := negb (alive w signal).

(** The layer [PluginInstance::make] makes, in the state the world is in when it is
    called: [PluginFunction::call] loads its cell. *)
Definition plugin_function_call (w : World) (cell : nat) : InnerBoxPf := λ req inner,
  match cells w !! cell with Some f => f req inner | None => None end.
Definition make (w : World) (cell : nat) : BoxLayer := fn_layer (plugin_function_call w cell).

(** [register_custom] *)
Definition register_custom (d : PluginDefinitionObject) (w : World) : World :=
  set_plugins (<[def_code d := d]> (plugins w)) w.

(** [clear_instances]: a failing [before_destroy] is logged. *)
Definition clear_instances (w : World) : World := set_instances ∅ w.

(** [PluginDefinitionObject::make_instance] *)
Definition make_instance (d : PluginDefinitionObject) (config : PluginConfig Value) (w : World)
  : result (PluginInstance * World) string :=
  let? pf := def_make_pf d config in
  Ok (MkInstance (MkInstanceData config ∅ (length (cells w))) hooks_default,
      set_cells (cells w ++ [pf]) w).

(** [PluginFunction::swap] *)
Definition swap (cell : nat) (pf : InnerBoxPf) (w : World) : World :=
  set_cells (<[cell := pf]> (cells w)) w.

(** [create_or_update_instance] *)
Definition create_or_update_instance (config : PluginConfig Value) (w : World)
  : result unit RepoError * World :=
  let code := id_code (cfg_id config) in
  let id := cfg_id config in
  match plugins w !! code with
  | None => (Err (Unregistered code), w)
  | Some attr =>
      match instances w !! id with
      | Some instance =>
          match def_make_pf attr config with
          | Err e => (Err (PluginFailed e), w)
          | Ok pf => (Ok tt, swap (inst_function (inst_data instance)) pf w)
          end
      | None =>
          match make_instance attr config w with
          | Err e => (Err (PluginFailed e), w)
          | Ok (instance, w) =>
              match call_hook (after_create (inst_hooks instance)) instance with
              | Err e => (Err (PluginFailed e), w)
              | Ok _ => (Ok tt, set_instances (<[id := instance]> (instances w)) w)
              end
          end
      end
  end.

(** The mount points a map of tracers still has. *)
Definition live_points (w : World) (m : gmap MountPointIndex nat) : gmap MountPointIndex nat :=
  filter (λ kv, alive w kv.2 = true) m.

(** [remove_instance] *)
Definition remove_instance (id : PluginInstanceId) (w : World)
  : result (gset MountPointIndex) RepoError * World :=
  match instances w !! id with
  | None => (Err (MissingInstance id), w)
  | Some instance =>
      let w := set_instances (delete id (instances w)) w in
      match call_hook (before_destroy (inst_hooks instance)) instance with
      | Err e => (Err (PluginFailed e), w)
      | Ok _ => (Ok (dom (live_points w (inst_mount_points (inst_data instance)))), w)
      end
  end.

(** [mount_points_gc] and [mount_at] on an instance's data *)
Definition mount_points_gc (w : World) (i : PluginInstance) : PluginInstance :=
  let d := inst_data i in
  MkInstance (MkInstanceData (inst_config d) (live_points w (inst_mount_points d)) (inst_function d))
    (inst_hooks i).
Definition insert_mount_point (index : MountPointIndex) (tracer : nat) (i : PluginInstance)
  : PluginInstance :=
  let d := inst_data i in
  MkInstance
    (MkInstanceData (inst_config d) (<[index := tracer]> (inst_mount_points d)) (inst_function d))
    (inst_hooks i).

(** [MountPoint::mount], the same for the four kinds of mount points: a new drop signal, the
    layer at the end of the list, the marker in the extensions. *)
Definition drop_trace (w : World) : nat * World :=
  (signals w, MkWorld (plugins w) (instances w) (cells w) (S (signals w)) (points w)).
Definition mount_point_mount (cell : nat) (point : nat) (w : World) : nat * World :=
  let '(signal, w) := drop_trace w in
  let mp := default mount_point_new (points w !! point) in
  (signal,
   set_points (<[point := MkMountPoint (mp_layers mp ++ [cell]) ({[signal]} ∪ mp_markers mp)]>
     (points w)) w).

Definition put_instance (id : PluginInstanceId) (i : PluginInstance) (w : World) : World :=
  set_instances (<[id := i]> (instances w)) w.

(** [mount] *)
Definition mount (point : nat) (index : MountPointIndex) (id : PluginInstanceId) (w : World)
  : result unit RepoError * World :=
  let code := id_code id in
  match plugins w !! code with
  | None => (Err (Unregistered code), w)
  | Some _ =>
      match instances w !! id with
      | None => (Err (MissingInstance id), w)
      | Some instance =>
          let instance := mount_points_gc w instance in
          let w := put_instance id instance w in
          match call_hook (before_mount (inst_hooks instance)) instance with
          | Err e => (Err (PluginFailed e), w)
          | Ok _ =>
              let '(tracer, w) := mount_point_mount (inst_function (inst_data instance)) point w in
              let instance := insert_mount_point index tracer instance in
              let w := put_instance id instance w in
              match call_hook (after_mount (inst_hooks instance)) instance with
              | Err e => (Err (PluginFailed e), w)
              | Ok _ => (Ok tt, w)
              end
          end
      end
  end.

(** [PluginInstance::snapshot], [instance_snapshot], [plugin_list] and [repo_snapshot] *)
Definition snapshot (w : World) (i : PluginInstance) : PluginInstanceSnapshot :=
  MkSnapshot (inst_config (inst_data i)) (dom (live_points w (inst_mount_points (inst_data i)))).
Definition instance_snapshot (id : PluginInstanceId) (w : World) : option PluginInstanceSnapshot :=
  snapshot w <$> instances w !! id.
Definition plugin_list (w : World) : list PluginAttributes :=
  (λ kv, attr_of kv.2) <$> map_to_list (plugins w).

Record PluginRepoSnapshot := MkRepoSnapshot {
  rs_mono : bool;
  rs_code : string;
  rs_meta : PluginMetaData;
  rs_instances : gmap string PluginInstanceSnapshot;
}.
Definition instances_of (w : World) (code : string) (entries : list (PluginInstanceId * PluginInstance))
  : gmap string PluginInstanceSnapshot :=
  collect (omap (λ kv,
    if decide (id_code kv.1 = code) then Some (name_to_string (id_name kv.1), snapshot w kv.2)
    else None) entries).
Definition repo_snapshot (w : World) : gmap string PluginRepoSnapshot :=
  map_imap (λ code attr, Some (MkRepoSnapshot (def_mono attr) code (def_meta attr)
    (instances_of w code (map_to_list (instances w))))) (plugins w).

(** A mount point that is dropped, with its extensions. *)
Definition drop_point (point : nat) (w : World) : World :=
  set_points (delete point (points w)) w.
End repo.
Arguments World {_} Value.
Arguments PluginInstance Value : clear implicits.
Arguments PluginInstanceHooks Value : clear implicits.
Arguments InstanceData Value : clear implicits.
Arguments PluginDefinitionObject {_} Value.
Arguments PluginInstanceSnapshot Value : clear implicits.
Arguments PluginRepoSnapshot Value : clear implicits.

(** ** Runs of the repository *)

Section runs.
Context `{HttpLib} {Value : Type}.
Implicit Types (w : World Value) (i : PluginInstance Value) (id : PluginInstanceId).

Inductive Op :=
| OpRegister (d : PluginDefinitionObject Value)
| OpApply (config : PluginConfig Value)
| OpRemove (id : PluginInstanceId)
| OpClear
| OpMount (point : nat) (index : MountPointIndex) (id : PluginInstanceId)
| OpDrop (point : nat).

Definition step (w : World Value) (op : Op) : World Value :=
  match op with
  | OpRegister d => register_custom d w
  | OpApply config => (create_or_update_instance config w).2
  | OpRemove id => (remove_instance id w).2
  | OpClear => clear_instances w
  | OpMount point index id => (mount point index id w).2
  | OpDrop point => drop_point point w
  end.
Definition run (ops : list Op) (w : World Value) : World Value := foldl step w ops.

(** What holds of an instance with identity [id] in a world. *)
Record instance_wf w id i : Prop := {
  iw_id : cfg_id (inst_config (inst_data i)) = id;
  iw_cell : inst_function (inst_data i) < length (cells w);
  iw_hooks : inst_hooks i = hooks_default;
  iw_registered : is_Some (plugins w !! id_code id);
  iw_tracers : map_Forall (λ _ s, s < signals w) (inst_mount_points (inst_data i));
}.

Record point_wf w (mp : MountPoint) : Prop := {
  pw_layers : Forall (λ c, c < length (cells w)) (mp_layers mp);
  pw_markers : set_Forall (λ s, s < signals w) (mp_markers mp);
}.

Record repo_wf w : Prop := {
  wf_instances : map_Forall (instance_wf w) (instances w);
  wf_cells_inj : ∀ id id' i i', instances w !! id = Some i → instances w !! id' = Some i' →
    inst_function (inst_data i) = inst_function (inst_data i') → id = id';
  wf_points : map_Forall (λ _, point_wf w) (points w);
  wf_markers_disjoint : ∀ p p' mp mp' s, points w !! p = Some mp → points w !! p' = Some mp' →
    s ∈ mp_markers mp → s ∈ mp_markers mp' → p = p';
}.

(** A larger world keeps what holds of its parts. *)
Record extends w w' : Prop := {
  ex_plugins code : is_Some (plugins w !! code) → is_Some (plugins w' !! code);
  ex_cells : length (cells w) ≤ length (cells w');
  ex_signals : signals w ≤ signals w';
}.

Lemma extends_refl w : extends w w.
Proof. by split. Qed.

Lemma instance_wf_extends w w' id i : extends w w' → instance_wf w id i → instance_wf w' id i.
Proof.
  intros [Hp Hc Hs] [? ? ? ? Ht]. split; auto; [lia|].
  intros k s Hk. specialize (Ht k s Hk). simpl in Ht. lia.
Qed.

Lemma point_wf_extends w w' mp : extends w w' → point_wf w mp → point_wf w' mp.
Proof.
  intros [Hp Hc Hs] [Hl Hm]. split.
  - eapply Forall_impl; [exact Hl|]. simpl. lia.
  - intros s Hin. specialize (Hm s Hin). simpl in Hm. lia.
Qed.

(** A world that only grows its tables is well formed again. *)
Lemma repo_wf_extends w w' :
  repo_wf w → extends w w' → instances w' ⊆ instances w → points w' ⊆ points w → repo_wf w'.
Proof.
  intros Hw He Hi Hp. split.
  - intros id i Hid. eapply instance_wf_extends; [done|].
    apply (wf_instances _ Hw). by eapply lookup_weaken.
  - intros id id' i i' ??. apply (wf_cells_inj _ Hw); by eapply lookup_weaken.
  - intros p mp Hmp. eapply point_wf_extends; [done|].
    apply (wf_points _ Hw p). by eapply lookup_weaken.
  - intros p p' mp mp' s ??. by apply (wf_markers_disjoint _ Hw); eapply lookup_weaken.
Qed.

Lemma register_wf d w : repo_wf w → repo_wf (register_custom d w).
Proof.
  intros Hw. apply (repo_wf_extends w); try done. split; try done.
  intros code Hc. simpl. destruct (decide (code = def_code d)) as [->|].
  - rewrite lookup_insert_eq. by eexists.
  - by rewrite lookup_insert_ne.
Qed.

Lemma clear_wf w : repo_wf w → repo_wf (clear_instances w).
Proof. intros Hw. apply (repo_wf_extends w); try done. apply map_empty_subseteq. Qed.

Lemma drop_wf p w : repo_wf w → repo_wf (drop_point p w).
Proof. intros Hw. apply (repo_wf_extends w); try done. apply delete_subseteq. Qed.

Lemma swap_wf c f w : repo_wf w → repo_wf (swap c f w).
Proof.
  intros Hw. apply (repo_wf_extends w); try done. split; try done.
  simpl. by rewrite length_insert.
Qed.

Lemma remove_wf id w : repo_wf w → repo_wf (remove_instance id w).2.
Proof.
  intros Hw. unfold remove_instance. destruct (instances w !! id) as [i|]; [|done].
  assert (repo_wf (set_instances (delete id (instances w)) w)).
  { apply (repo_wf_extends w); try done. apply delete_subseteq. }
  by destruct (call_hook _ i).
Qed.

(** Adding or replacing one instance. *)
Lemma put_instance_wf id i w :
  repo_wf w → instance_wf w id i →
  (∀ id' i', instances w !! id' = Some i' →
    inst_function (inst_data i') = inst_function (inst_data i) → id' = id) →
  repo_wf (put_instance id i w).
Proof.
  intros Hw Hi Hfresh. split; simpl.
  - intros id' i' [[<- <-]|[??]]%lookup_insert_Some.
    + by eapply (instance_wf_extends w).
    + eapply (instance_wf_extends w); [by split|by apply (wf_instances _ Hw)].
  - intros id1 id2 i1 i2 [[<- <-]|[??]]%lookup_insert_Some [[<- <-]|[??]]%lookup_insert_Some Heq; try done.
    + symmetry. by eapply Hfresh.
    + by eapply Hfresh.
    + by eapply (wf_cells_inj _ Hw).
  - intros p mp Hmp. eapply (point_wf_extends w); [by split|by apply (wf_points _ Hw p)].
  - apply (wf_markers_disjoint _ Hw).
Qed.

Lemma apply_wf config w : repo_wf w → repo_wf (create_or_update_instance config w).2.
Proof.
  intros Hw. unfold create_or_update_instance, make_instance.
  destruct (plugins w !! _) as [d|] eqn:Hd; [|done].
  destruct (instances w !! _) as [i|] eqn:Hi.
  { destruct (def_make_pf d config); simpl; [by apply swap_wf|done]. }
  destruct (def_make_pf d config) as [f|]; simpl; [|done].
  assert (He : extends w (set_cells (cells w ++ [f]) w)).
  { split; simpl; try done. rewrite length_app. lia. }
  apply (put_instance_wf _ _ (set_cells (cells w ++ [f]) w)).
  - by apply (repo_wf_extends w).
  - split; simpl; [done|rewrite length_app; simpl; lia|done|by rewrite Hd|].
    apply map_Forall_empty.
  - intros id' i' Hid' Heq. simpl in *.
    pose proof (iw_cell _ _ _ (wf_instances _ Hw _ _ Hid')). lia.
Qed.

Lemma gc_wf id i w w' : extends w w' → instance_wf w id i → instance_wf w' id (mount_points_gc w' i).
Proof.
  intros He Hi. apply (instance_wf_extends _ w') in Hi as [? ? ? ? Ht]; [|done]. split; simpl; try done.
  intros k s Hk. apply (Ht k). apply map_lookup_filter_Some in Hk. by destruct Hk.
Qed.

Lemma mount_point_mount_wf c p w :
  repo_wf w → c < length (cells w) → repo_wf (mount_point_mount c p w).2.
Proof.
  intros Hw Hc.
  assert (He : extends w (mount_point_mount c p w).2) by (split; simpl; auto; lia).
  assert (Hold : ∀ q mp s, points w !! q = Some mp → s ∈ mp_markers mp → s < signals w).
  { intros q mp s Hq. apply (pw_markers _ _ (wf_points _ Hw _ _ Hq)). }
  assert (Hmp : point_wf (mount_point_mount c p w).2 (default mount_point_new (points w !! p))).
  { destruct (points w !! p) as [mp|] eqn:Hp; simpl.
    - eapply point_wf_extends; [done|]. by apply (wf_points _ Hw p).
    - split; simpl; [constructor|]. intros s. set_solver. }
  assert (Hmark : ∀ s, s ∈ mp_markers (default mount_point_new (points w !! p)) → s < signals w).
  { destruct (points w !! p) as [mp|] eqn:Hp; [by eauto|]. simpl. set_solver. }
  split.
  - intros id i Hi. eapply instance_wf_extends; [done|]. by apply (wf_instances _ Hw).
  - apply (wf_cells_inj _ Hw).
  - intros q mp. simpl. intros [[<- <-]|[??]]%lookup_insert_Some.
    + destruct Hmp as [Hl Hm]. split; simpl.
      * apply Forall_app. split; [done|]. by constructor.
      * intros s [->%elem_of_singleton|Hs]%elem_of_union; [simpl; lia|by apply Hm].
    + eapply point_wf_extends; [done|]. by apply (wf_points _ Hw q).
  - simpl. intros q q' mp mp' s [[<- <-]|[? Hq]]%lookup_insert_Some
      [[<- <-]|[? Hq']]%lookup_insert_Some Hs Hs'; try done; simpl in *.
    + apply elem_of_union in Hs as [->%elem_of_singleton|Hs].
      * pose proof (Hold _ _ _ Hq' Hs'). lia.
      * destruct (points w !! p) as [mp|] eqn:Hp; [|set_solver].
        by apply (wf_markers_disjoint _ Hw p q' mp mp' s).
    + apply elem_of_union in Hs' as [->%elem_of_singleton|Hs'].
      * pose proof (Hold _ _ _ Hq Hs). lia.
      * destruct (points w !! p) as [mp'|] eqn:Hp; [|set_solver].
        by apply (wf_markers_disjoint _ Hw q p mp mp' s).
    + by apply (wf_markers_disjoint _ Hw q q' mp mp' s).
Qed.

(** Replacing the instance that is there by one with the same function. *)
Lemma replace_instance_wf id i i' w w' :
  repo_wf w' → instances w !! id = Some i → instances w' !! id = Some i →
  inst_function (inst_data i') = inst_function (inst_data i) → instance_wf w' id i' →
  repo_wf (put_instance id i' w').
Proof.
  intros Hw Hi Hi' Hf Hwf. apply put_instance_wf; [done..|].
  intros id2 i2 Hid2 Heq. eapply (wf_cells_inj _ Hw); [done..|]. congruence.
Qed.

(** The world after a successful mount, in a world whose instances have no hooks. *)
Definition mounted (point : nat) (index : MountPointIndex) id i w : World Value :=
  put_instance id (insert_mount_point index (signals w) (mount_points_gc w i))
    (mount_point_mount (inst_function (inst_data i)) point (put_instance id (mount_points_gc w i) w)).2.

Lemma mount_ok point index id i w :
  repo_wf w → instances w !! id = Some i → mount point index id w = (Ok tt, mounted point index id i w).
Proof.
  intros Hw Hi. pose proof (wf_instances _ Hw _ _ Hi) as Hiw. unfold mount.
  destruct (iw_registered _ _ _ Hiw) as [d ->]. rewrite Hi. cbn zeta.
  cbn [mount_points_gc insert_mount_point inst_hooks]. by rewrite (iw_hooks _ _ _ Hiw).
Qed.

Lemma mounted_wf point index id i w :
  repo_wf w → instances w !! id = Some i → repo_wf (mounted point index id i w).
Proof.
  intros Hw Hi. pose proof (wf_instances _ Hw _ _ Hi) as Hiw.
  assert (Hw1 : repo_wf (put_instance id (mount_points_gc w i) w)).
  { apply (replace_instance_wf id i _ w w); try done. by apply (gc_wf id i w). }
  unfold mounted.
  assert (Hw2 := mount_point_mount_wf (inst_function (inst_data i)) point _ Hw1 (iw_cell _ _ _ Hiw)).
  apply put_instance_wf; [done|..].
  - destruct (gc_wf id i w w (extends_refl w) Hiw) as [? ? ? ? Ht]. split; simpl; try done.
    intros k s [[<- <-]|[? Hk]]%lookup_insert_Some; [lia|]. pose proof (Ht k s Hk). simpl in *. lia.
  - intros id2 i2 Hid2 Heq. cbn [mount_point_mount drop_trace snd set_points instances] in Hid2.
    eapply (wf_cells_inj _ Hw1 id2 id i2 (mount_points_gc w i)); [done| |done].
    apply lookup_insert_eq.
Qed.

Lemma mount_none point index id w :
  instances w !! id = None → (mount point index id w).2 = w ∧ ∃ e, (mount point index id w).1 = Err e.
Proof.
  intros Hi. unfold mount. rewrite Hi. by destruct (plugins w !! id_code id); simpl; eauto.
Qed.

Lemma mount_wf point index id w : repo_wf w → repo_wf (mount point index id w).2.
Proof.
  intros Hw. destruct (instances w !! id) as [i|] eqn:Hi.
  - erewrite mount_ok by done. by apply mounted_wf.
  - by destruct (mount_none point index id w Hi) as [-> _].
Qed.

Lemma step_wf w op : repo_wf w → repo_wf (step w op).
Proof.
  destruct op; simpl; [apply register_wf|apply apply_wf|apply remove_wf|apply clear_wf|apply mount_wf|
    apply drop_wf].
Qed.

Lemma world_new_wf : repo_wf world_new.
Proof. split; try done; apply map_Forall_empty. Qed.

Lemma run_wf ops w : repo_wf w → repo_wf (run ops w).
Proof. revert w. induction ops as [|op ops IH]; simpl; auto using step_wf. Qed.

(** ** The functions in the cells *)

Lemma make_cell w c f inner req : cells w !! c = Some f → make w c inner req = f req inner.
Proof. unfold make, fn_layer, plugin_function_call, InnerBoxPf. by intros ->. Qed.

Lemma make_cells_eq w w' c inner req :
  cells w !! c = cells w' !! c → make w c inner req = make w' c inner req.
Proof. unfold make, fn_layer, plugin_function_call, InnerBoxPf. by intros ->. Qed.

(** The function an operation installs for the instance [id], if it has [f] now. *)
Definition applied id (f : InnerBoxPf) w (op : Op) : InnerBoxPf :=
  match op with
  | OpApply config =>
      if decide (cfg_id config = id) then
        match plugins w !! id_code id with
        | Some d => match def_make_pf d config with Ok f' => f' | Err _ => f end
        | None => f
        end
      else f
  | _ => f
  end.
Fixpoint last_applied id (f : InnerBoxPf) w (ops : list Op) : InnerBoxPf :=
  match ops with
  | [] => f
  | op :: ops => last_applied id (applied id f w op) (step w op) ops
  end.

(** The operations that leave the instance [id] in the repository. *)
Definition keeps id (op : Op) : Prop :=
  match op with OpRemove id' => id' ≠ id | OpClear => False | _ => True end.

(** The instance [id] exists, was created with [cfg] and has the function [f] in the cell
    [c]. *)
Definition has_function w id (c : nat) (cfg : PluginConfig Value) (f : InnerBoxPf) : Prop :=
  ∃ i, instances w !! id = Some i ∧ inst_function (inst_data i) = c ∧
    inst_config (inst_data i) = cfg ∧ cells w !! c = Some f.

Lemma apply_has_function config w id c cfg f :
  repo_wf w → has_function w id c cfg f →
  has_function (step w (OpApply config)) id c cfg (applied id f w (OpApply config)).
Proof.
  intros Hw (i&Hi&Hc&Hcfg&Hf). simpl. unfold create_or_update_instance, make_instance.
  assert (Hlt : c < length (cells w)) by by eapply lookup_lt_Some.
  case_decide as Hid; [subst id|].
  - destruct (plugins w !! _) as [d|]; [|by exists i]. rewrite Hi.
    destruct (def_make_pf d config) as [f'|]; simpl; [|by exists i].
    exists i. split_and!; [done..|]. simpl. subst c. rewrite list_lookup_insert_eq; done.
  - destruct (plugins w !! _) as [d|]; [|by exists i].
    destruct (instances w !! cfg_id config) as [i'|] eqn:Hi'.
    + destruct (def_make_pf d config) as [f'|]; simpl; [|by exists i].
      exists i. split_and!; [done..|]. simpl. rewrite list_lookup_insert_ne; [done|].
      intros Heq. apply Hid. eapply (wf_cells_inj _ Hw); [done..|]. congruence.
    + destruct (def_make_pf d config) as [f'|]; simpl; [|by exists i].
      exists i. simpl. rewrite lookup_insert_ne by done.
      split_and!; [done..|]. by apply lookup_app_l_Some.
Qed.

Lemma step_has_function op w id c cfg f :
  repo_wf w → keeps id op → has_function w id c cfg f → has_function (step w op) id c cfg (applied id f w op).
Proof.
  intros Hw Hk Hhf. destruct op as [d|config|id'| |p ix id'|p]; try done.
  - by apply apply_has_function.
  - destruct Hhf as (i&Hi&Hc&Hcfg&Hf). simpl. unfold remove_instance. simpl in Hk.
    destruct (instances w !! id') as [i'|]; [|by exists i].
    destruct (call_hook _ i'); exists i; simpl; by rewrite lookup_delete_ne.
  - destruct Hhf as (i&Hi&Hc&Hcfg&Hf). simpl. destruct (instances w !! id') as [i'|] eqn:Hi'.
    + erewrite mount_ok by done. simpl. destruct (decide (id' = id)) as [->|].
      * simplify_eq. eexists. split; [apply lookup_insert_eq|]. done.
      * exists i. simpl. by rewrite !lookup_insert_ne.
    + destruct (mount_none p ix id' w Hi') as [-> _]. by exists i.
Qed.

Lemma run_has_function ops w id c cfg f :
  repo_wf w → Forall (keeps id) ops → has_function w id c cfg f →
  has_function (run ops w) id c cfg (last_applied id f w ops).
Proof.
  revert w f. induction ops as [|op ops IH]; intros w f Hw Hk Hhf; [done|].
  apply Forall_cons in Hk as [Hk Hks]. simpl. apply IH; [by apply step_wf|done|].
  by apply step_has_function.
Qed.

(** A cell that belongs to no instance. *)
Definition orphan w (c : nat) : Prop :=
  c < length (cells w) ∧ map_Forall (λ _ i, inst_function (inst_data i) ≠ c) (instances w).

Lemma step_orphan op w c :
  repo_wf w → orphan w c → orphan (step w op) c ∧ cells (step w op) !! c = cells w !! c.
Proof.
  intros Hw [Hc Ho]. destruct op as [d|config|id'| |p ix id'|p]; try done; simpl.
  - unfold create_or_update_instance, make_instance.
    destruct (plugins w !! _) as [d|]; [|done].
    destruct (instances w !! _) as [i|] eqn:Hi.
    + destruct (def_make_pf d config) as [f'|]; simpl; [|done]. unfold orphan. simpl.
      rewrite length_insert, list_lookup_insert_ne; [done|]. by apply (Ho _ _ Hi).
    + destruct (def_make_pf d config) as [f'|]; simpl; [|done]. unfold orphan. simpl.
      rewrite lookup_app_l by done. split_and!; [rewrite length_app; lia| |done].
      apply map_Forall_insert_2; [simpl; lia|done].
  - unfold remove_instance. destruct (instances w !! id') as [i|]; [|done].
    destruct (call_hook _ i); simpl; (split; [split; [done|]|done]); by apply map_Forall_delete.
  - destruct (instances w !! id') as [i'|] eqn:Hi'.
    + erewrite mount_ok by done. simpl. split; [split; [done|]|done].
      repeat apply map_Forall_insert_2; simpl; try done; by apply (Ho _ _ Hi').
    + by destruct (mount_none p ix id' w Hi') as [-> _].
Qed.

(** ** The mount points an instance reports *)

Lemma alive_spec w s :
  alive w s = true ↔ ∃ p mp, points w !! p = Some mp ∧ s ∈ mp_markers mp.
Proof. unfold alive. by rewrite bool_decide_eq_true. Qed.

Lemma live_points_dom w m index :
  index ∈ dom (live_points w m) ↔ ∃ s, m !! index = Some s ∧ alive w s = true.
Proof.
  unfold live_points. rewrite elem_of_dom. split.
  - intros [s Hs]. apply map_lookup_filter_Some in Hs as [??]. by exists s.
  - intros (s&?&?). exists s. by apply map_lookup_filter_Some.
Qed.

Lemma live_points_idemp w m : live_points w (live_points w m) = live_points w m.
Proof.
  unfold live_points. rewrite map_filter_filter. apply map_filter_ext. naive_solver.
Qed.

Lemma alive_mounted point index id i w s :
  alive (mounted point index id i w) s = true ↔ s = signals w ∨ alive w s = true.
Proof.
  rewrite !alive_spec. unfold mounted. simpl.
  assert (∀ p mp, points w !! p = Some mp → p = point →
    mp = default mount_point_new (points w !! point)) as Hdef.
  { intros p mp Hp ->. by rewrite Hp. }
  split.
  - intros (p&mp&[[<- <-]|[? Hp]]%lookup_insert_Some&Hs); [|by eauto].
    simpl in Hs. apply elem_of_union in Hs as [->%elem_of_singleton|Hs]; [by left|].
    right. destruct (points w !! point) as [mp|] eqn:Hp; [by eauto|set_solver].
  - intros [->|(p&mp&Hp&Hs)].
    + eexists point, _. rewrite lookup_insert_eq. split; [done|]. simpl. set_solver.
    + destruct (decide (p = point)) as [->|].
      * eexists point, _. rewrite lookup_insert_eq. split; [done|].
        rewrite Hp. simpl. set_solver.
      * exists p, mp. by rewrite lookup_insert_ne.
Qed.

(** An instance that is not the one mounted reports what it did. *)
Lemma live_points_mounted point index id i w m :
  map_Forall (λ _ s, s < signals w) m →
  live_points (mounted point index id i w) m = live_points w m.
Proof.
  intros Hm. apply map_filter_ext. intros k s Hk. simpl.
  rewrite alive_mounted. split; [|by right].
  intros [->|]; [|done]. specialize (Hm k _ Hk). simpl in Hm. lia.
Qed.

Lemma instance_snapshot_mounted point index id i w :
  repo_wf w → instances w !! id = Some i →
  instance_snapshot id (mounted point index id i w) =
  Some (MkSnapshot (inst_config (inst_data i)) ({[index]} ∪ snap_mount_points (snapshot w i))).
Proof.
  intros Hw Hi. unfold instance_snapshot. unfold mounted at 2.
  cbn [put_instance set_instances instances]. rewrite lookup_insert_eq.
  cbn [fmap option_fmap option_map]. unfold snapshot.
  cbn [insert_mount_point mount_points_gc inst_data inst_config inst_mount_points snap_mount_points].
  do 2 f_equal. apply set_eq. intros k. rewrite live_points_dom, elem_of_union, elem_of_singleton.
  pose proof (iw_tracers _ _ _ (wf_instances _ Hw _ _ Hi)) as Ht.
  assert (map_Forall (λ _ s, s < signals w) (live_points w (inst_mount_points (inst_data i)))) as Ht'.
  { intros k' s (Hs&_)%map_lookup_filter_Some. by apply (Ht k'). }
  setoid_rewrite alive_mounted. split.
  - intros (s&[[<- <-]|[? Hk]]%lookup_insert_Some&Hs); [by left|right].
    apply elem_of_dom. by exists s.
  - intros [->|[s Hk]%elem_of_dom].
    + exists (signals w). rewrite lookup_insert_eq. by auto.
    + destruct (decide (k = index)) as [->|].
      * exists (signals w). rewrite lookup_insert_eq. by auto.
      * exists s. rewrite lookup_insert_ne by done. split; [done|right].
        apply map_lookup_filter_Some in Hk. by destruct Hk.
Qed.

Lemma alive_dropped point index id i w :
  repo_wf w → alive (drop_point point (mounted point index id i w)) (signals w) = false.
Proof.
  intros Hw. apply not_true_iff_false. rewrite alive_spec. unfold mounted. simpl.
  intros (p&mp&[? Hp]%lookup_delete_Some&Hs). rewrite lookup_insert_ne in Hp by done.
  pose proof (pw_markers _ _ (wf_points _ Hw _ _ Hp) _ Hs). simpl in *. lia.
Qed.

(** ** Properties *)

(** C19: in every state the repository can reach, an instance is stored under its own
    identity, has a function cell of its own that exists, and its plugin is registered;
    every mounted layer has an existing cell, and every drop marker is at one mount point. *)
Theorem repo_invariant (ops : list Op) : repo_wf (run ops world_new).
Proof. apply run_wf, world_new_wf. Qed.

(** C12: from a mount on, a mounted layer runs the function of the configuration that was
    applied last to its instance, however the other operations interleave, as long as the
    instance is not removed; a configuration the plugin rejects changes nothing, and the
    updates do not change the configuration the instance reports. *)
Theorem mounted_layer_updates (ops ops' : list Op) point index id i f
  (Hi : instances (run ops world_new) !! id = Some i)
  (Hf : cells (run ops world_new) !! inst_function (inst_data i) = Some f)
  (Hkeeps : Forall (keeps id) ops') :
  let w1 := step (run ops world_new) (OpMount point index id) in
  let w2 := run ops' w1 in
  (∃ mp, points w1 !! point = Some mp ∧ last (mp_layers mp) = Some (inst_function (inst_data i))) ∧
  (∀ inner req, make w2 (inst_function (inst_data i)) inner req = last_applied id f w1 ops' req inner) ∧
  snap_config <$> instance_snapshot id w2 = Some (inst_config (inst_data i)).
Proof.
  intros w1 w2. assert (Hw : repo_wf (run ops world_new)) by apply run_wf, world_new_wf.
  assert (Hw1 : repo_wf w1) by by apply step_wf. split.
  - subst w1. simpl. erewrite mount_ok by done. simpl. eexists. rewrite lookup_insert_eq.
    split; [done|]. apply last_snoc.
  - assert (has_function w2 id (inst_function (inst_data i)) (inst_config (inst_data i))
      (last_applied id f w1 ops')) as (i2&Hi2&_&Hcfg&Hc).
    { apply run_has_function; [done..|]. by apply (step_has_function (OpMount point index id)); [| |exists i]. }
    split; [intros inner req; by apply make_cell|].
    unfold instance_snapshot. rewrite Hi2. simpl. by rewrite Hcfg.
Qed.

(** the layers of a removed instance keep the function they had: whatever happens to
    the repository, a new instance of the same identity included, does not reach them. *)
Theorem removed_layer_frozen (ops ops' : list Op) id i
  (Hi : instances (run ops world_new) !! id = Some i) :
  let w1 := step (run ops world_new) (OpRemove id) in
  ∀ inner req, make (run ops' w1) (inst_function (inst_data i)) inner req =
    make (run ops world_new) (inst_function (inst_data i)) inner req.
Proof.
  set (w := run ops world_new) in *. assert (Hw : repo_wf w) by apply run_wf, world_new_wf.
  intros w1. assert (Hw1 : repo_wf w1) by by apply step_wf.
  assert (cells w1 = cells w ∧ orphan w1 (inst_function (inst_data i))) as [Hc Ho].
  { unfold w1, step, remove_instance. rewrite Hi.
    destruct (call_hook _ i); (split; [done|]); (split; [by apply (wf_instances _ Hw _ _ Hi)|]); simpl;
      intros id' i' [Hne Hi']%lookup_delete_Some Heq; apply Hne; by eapply (wf_cells_inj _ Hw). }
  assert (∀ ops w', repo_wf w' → orphan w' (inst_function (inst_data i)) →
    cells (run ops w') !! inst_function (inst_data i) = cells w' !! inst_function (inst_data i)) as Hrun.
  { clear. induction ops as [|op ops IH]; intros w' Hw' Ho; [done|]. simpl.
    destruct (step_orphan op w' _ Hw' Ho) as [Ho' <-]. by apply IH; [apply step_wf|]. }
  intros inner req. apply make_cells_eq. by rewrite Hrun, Hc.
Qed.

(** mounting an instance that exists succeeds, puts its layer behind the mount point's
    layers and adds the index to the mount points it reports, and to no other instance's;
    the index is reported until the mount point is dropped; removing the instance returns
    exactly the reported indices. *)
Theorem mount_tracked (ops : list Op) point index id i
  (Hi : instances (run ops world_new) !! id = Some i) :
  let w := run ops world_new in
  let w' := (mount point index id w).2 in
  let reported := {[index]} ∪ snap_mount_points (snapshot w i) in
  (mount point index id w).1 = Ok tt ∧
  mp_layers <$> points w' !! point =
    Some (mp_layers (default mount_point_new (points w !! point)) ++ [inst_function (inst_data i)]) ∧
  (∀ p, p ≠ point → points w' !! p = points w !! p) ∧
  instance_snapshot id w' = Some (MkSnapshot (inst_config (inst_data i)) reported) ∧
  (∀ id', id' ≠ id → instance_snapshot id' w' = instance_snapshot id' w) ∧
  (remove_instance id w').1 = Ok reported ∧
  (∀ s, instance_snapshot id (drop_point point w') = Some s → index ∉ snap_mount_points s).
Proof.
  intros w w' reported. assert (Hw : repo_wf w) by apply run_wf, world_new_wf.
  assert (w' = mounted point index id i w) as Hw' by by (unfold w'; erewrite mount_ok by done).
  assert (Hsnap := instance_snapshot_mounted point index id i w Hw Hi).
  rewrite Hw'. split_and!.
  - by erewrite mount_ok by done.
  - unfold mounted. simpl. by rewrite lookup_insert_eq.
  - intros p Hp. unfold mounted. simpl. by rewrite lookup_insert_ne.
  - exact Hsnap.
  - intros id' Hid'. unfold instance_snapshot. unfold mounted at 2. simpl.
    rewrite !lookup_insert_ne by done. destruct (instances w !! id') as [i'|] eqn:Hi'; [|done]. simpl.
    unfold snapshot. by rewrite live_points_mounted by apply (iw_tracers _ _ _ (wf_instances _ Hw _ _ Hi')).
  - unfold remove_instance, instance_snapshot in *.
    assert (instances (mounted point index id i w) !! id =
      Some (insert_mount_point index (signals w) (mount_points_gc w i))) as Hi'.
    { unfold mounted. simpl. apply lookup_insert_eq. }
    rewrite Hi' in Hsnap |- *. cbn [insert_mount_point mount_points_gc inst_hooks].
    rewrite (iw_hooks _ _ _ (wf_instances _ Hw _ _ Hi)). injection Hsnap as Hsnap. simpl. f_equal.
    exact Hsnap.
  - intros s. unfold instance_snapshot. unfold mounted at 2. simpl. rewrite lookup_insert_eq.
    intros [= <-]. simpl. rewrite live_points_dom. intros (s&Hs&Ha). rewrite lookup_insert_eq in Hs.
    injection Hs as <-. by rewrite alive_dropped in Ha.
Qed.

(** A failing operation leaves the repository as it is. *)
Lemma apply_failure config w e :
  repo_wf w → (create_or_update_instance config w).1 = Err e → (create_or_update_instance config w).2 = w.
Proof.
  intros Hw. unfold create_or_update_instance, make_instance.
  destruct (plugins w !! _) as [d|]; [|done].
  destruct (instances w !! _) as [i|]; by destruct (def_make_pf d config).
Qed.

Lemma mount_failure point index id w e :
  repo_wf w → (mount point index id w).1 = Err e → (mount point index id w).2 = w ∧ instances w !! id = None.
Proof.
  intros Hw. destruct (instances w !! id) as [i|] eqn:Hi.
  - by erewrite mount_ok by done.
  - intros _. by destruct (mount_none point index id w Hi).
Qed.

(** The snapshot of the repository has the instances of each plugin, by the text of their
    names. *)
Lemma instances_of_lookup w code entries name :
  NoDup entries.*1 →
  instances_of w code entries !! name_to_string name =
  snapshot w <$> (list_to_map entries : gmap _ _) !! MkPluginId code name.
Proof.
  unfold instances_of. rewrite collect_reverse. intros Hnd.
  set (f := λ kv : PluginInstanceId * PluginInstance Value, if decide (id_code kv.1 = code) then _ else _).
  assert (∀ k s, (k, s) ∈ omap f entries ↔
    ∃ n i, (MkPluginId code n, i) ∈ entries ∧ k = name_to_string n ∧ s = snapshot w i) as Hin.
  { intros k s. rewrite list_elem_of_omap. unfold f. split.
    - intros ([[c n] i]&Hkv&Heq). simpl in Heq. case_decide; simplify_eq. eauto.
    - intros (n&i&Hkv&->&->). exists (MkPluginId code n, i). simpl. by rewrite decide_True. }
  assert (∀ k s s', (k, s) ∈ omap f entries → (k, s') ∈ omap f entries → s = s') as Hfun.
  { intros k s s' (n&i&Hk&->&->)%Hin (n'&i'&Hk'&Hn&->)%Hin. apply name_to_string_inj in Hn as <-.
    apply (elem_of_list_to_map_1 (M:=gmap _)) in Hk, Hk'; [|done..]. congruence. }
  destruct (list_to_map entries !! MkPluginId code name) as [i|] eqn:Hi; simpl.
  - apply elem_of_list_to_map_2 in Hi. apply elem_of_list_to_map_1'.
    + intros s. rewrite elem_of_reverse. intros Hs. apply (Hfun (name_to_string name)); [|done].
      apply Hin. eauto.
    + rewrite elem_of_reverse. apply Hin. eauto.
  - apply not_elem_of_list_to_map_1. rewrite fmap_reverse, elem_of_reverse.
    intros ([k s]&Hk&(n&i&Hni&->&->)%Hin)%list_elem_of_fmap. simpl in Hk.
    apply name_to_string_inj in Hk as <-. apply (not_elem_of_list_to_map_2 entries) in Hi.
    apply Hi, list_elem_of_fmap. by exists (MkPluginId code name, i).
Qed.

(** The snapshot of the repository has exactly the registered plugins, and for each of
    them exactly the snapshots of its instances, under the text of their names. *)
Theorem repo_snapshot_spec w code :
  (repo_snapshot w !! code = None ↔ plugins w !! code = None) ∧
  ∀ s, repo_snapshot w !! code = Some s →
    rs_code s = code ∧
    (∀ name, rs_instances s !! name_to_string name = instance_snapshot (MkPluginId code name) w).
Proof.
  unfold repo_snapshot. rewrite map_lookup_imap. destruct (plugins w !! code) as [d|]; [|done].
  split; [done|]. intros s [= <-]. split; [done|]. intros name. simpl.
  rewrite instances_of_lookup by apply NoDup_fst_map_to_list. by rewrite list_to_map_to_list.
Qed.
End runs.

(** ** A repository with one plugin, which answers its configuration *)

Definition echo_definition : PluginDefinitionObject (H:=ref_http) string :=
  MkDefinition (H:=ref_http) false "echo" meta_default (λ config,
    if str_is_empty (cfg_spec config) then Err "empty"
    else Ok (λ _ _, Some (with_code_message 200 (cfg_spec config)))).
Definition echo_id : PluginInstanceId := MkPluginId "echo" (Named "a").
Definition echo_config (spec : string) : PluginConfig string := config_new echo_id spec.
Definition echo_ops : list (Op (H:=ref_http)) := [OpRegister echo_definition; OpApply (echo_config "one")].
Definition echo_instance : PluginInstance string :=
  MkInstance (MkInstanceData (echo_config "one") ∅ 0) hooks_default.
Definition echo_response (s : string) : option (Response (H:=ref_http)) := Some (with_code_message 200 s).
Definition echo_request : Request (H:=ref_http) :=
  @MkReq ref_http "GET" (MkUri None None None) 11 [] ext_empty "".

Lemma mounted_layer_updates_witness :
  let w1 := step (run echo_ops world_new) (OpMount 0 (AtGateway "g") echo_id) in
  let w2 := run [OpApply (echo_config "two"); OpApply (echo_config "")] w1 in
  make w2 0 (λ _, None) echo_request = echo_response "two".
Proof.
  intros w1 w2.
  destruct (mounted_layer_updates echo_ops [OpApply (echo_config "two"); OpApply (echo_config "")] 0
    (AtGateway "g") echo_id echo_instance (λ _ _, echo_response "one")) as (_&H&_).
  - reflexivity.
  - reflexivity.
  - repeat constructor.
  - exact (H (λ _, None) echo_request).
Defined.

Lemma removed_layer_frozen_witness :
  let w1 := step (run echo_ops world_new) (OpRemove echo_id) in
  make (run [OpApply (echo_config "two")] w1) 0 (λ _, None) echo_request = echo_response "one".
Proof.
  intros w1.
  exact (removed_layer_frozen echo_ops [OpApply (echo_config "two")] echo_id echo_instance eq_refl
    (λ _, None) echo_request).
Defined.

Lemma mount_tracked_witness :
  let w' := (mount 0 (AtGateway "g") echo_id (run echo_ops world_new)).2 in
  (remove_instance echo_id w').1 = Ok ({[AtGateway "g"]} ∪ ∅).
Proof.
  intros w'.
  destruct (mount_tracked echo_ops 0 (AtGateway "g") echo_id echo_instance eq_refl) as (_&_&_&_&_&H&_).
  exact H.
Defined.

Lemma repo_snapshot_spec_witness :
  (rs_code <$> repo_snapshot (run echo_ops world_new) !! "echo") = Some "echo".
Proof.
  destruct (repo_snapshot_spec (run echo_ops world_new) "echo") as [Hnone H].
  destruct (repo_snapshot (run echo_ops world_new) !! "echo") as [s|] eqn:E.
  - simpl. f_equal. exact (proj1 (H s eq_refl)).
  - pose proof (proj1 Hnone eq_refl) as E'. discriminate E'.
Defined.
