(* ===== verification/Config.v ===== *)
(** * The configuration

    [crates/model/src/{lib,gateway,http_route,route_match,observability}.rs]: gateways,
    routes, rules and backends as an administrator writes them, over any type of plugin
    reference. [crates/shell/src/config/{matches_convert,plugin_filter_dto}.rs] and
    [crates/shell/src/server.rs]: the conversion of the matchers, the order of plugin
    bindings, and the compilation of an MCP route into an HTTP route.

    A [BTreeMap] is the sorted list of [BTree]; ports, timeouts and weights are [Z];
    an [f64] is a [spec_float]. *)

From Stdlib Require Import SpecFloat.
From S2P Require Export BTree Ip MatchRequest Model.
From S2P Require Import RefHttp.
Local Open Scope string_scope.
Local Open Scope list_scope.

(** ** Matchers: [route_match.rs] *)

Inductive SgHttpPathMatch :=
| SgPathExact (value : string) (replace : option string)
| SgPathPrefix (value : string) (replace : option string)
| SgPathRegExp (value : string) (replace : option string).

Inductive SgHttpHeaderMatch :=
| SgHeaderExact (name value : string) (replace : option string)
| SgHeaderRegExp (name re : string) (replace : option string).

Inductive SgHttpQueryMatch :=
| SgQueryExact (key value : string)
| SgQueryRegular (key re : string).

Record SgHttpRouteMatch := MkSgMatch {
  sm_path : option SgHttpPathMatch;
  sm_header : option (list SgHttpHeaderMatch);
  sm_query : option (list SgHttpQueryMatch);
  sm_method : option (list string);
}.

(** ** Observability settings *)

Inductive OtlpProtocol := OtlpGrpc | OtlpHttp.
Record TraceConfig := MkTraceConfig { tc_enabled : bool; tc_sample_ratio : spec_float }.
Record MetricConfig := MkMetricConfig { mc_enabled : bool; mc_export_interval_ms : Z }.
Record LogConfig := MkLogConfig { lc_enabled : bool; lc_level : string }.
Record ObservabilityConfig := MkObservability {
  ob_enabled : bool;
  ob_service_name : string;
  ob_otlp_endpoint : string;
  ob_protocol : OtlpProtocol;
  ob_traces : TraceConfig;
  ob_metrics : MetricConfig;
  ob_logs : LogConfig;
}.
Definition trace_default : TraceConfig := MkTraceConfig false (S754_finite false 4503599627370496 (-52)).
Definition metric_default : MetricConfig := MkMetricConfig false 60000.
Definition log_default : LogConfig := MkLogConfig false "info".
Definition observability_default : ObservabilityConfig :=
  MkObservability false "spacegate" "http://localhost:4317" OtlpGrpc trace_default metric_default log_default.

(** [Display] and [FromStr for OtlpProtocol] *)
Definition otlp_to_string (p : OtlpProtocol) : string :=
  match p with OtlpGrpc => "grpc" | OtlpHttp => "http" end.
Definition otlp_from_str (s : string) : result OtlpProtocol string :=
  if decide (s = "grpc") then Ok OtlpGrpc
  else if decide (s = "http" ∨ s = "http/protobuf") then Ok OtlpHttp
  else Err ("invalid otlp protocol: " +:+ s).

Lemma otlp_roundtrip p : otlp_from_str (otlp_to_string p) = Ok p.
Proof. by destruct p. Qed.

(** ** Gateways: [gateway.rs] *)

Inductive SgBackendProtocol := BackendProtocolHttp | BackendProtocolHttps.
Definition backend_protocol_to_string (p : SgBackendProtocol) : string :=
  match p with BackendProtocolHttp => "http" | BackendProtocolHttps => "https" end.

Inductive SgTlsMode := Terminate | Passthrough.
#[export] Instance SgTlsMode_eq_dec : EqDecision SgTlsMode.
Proof. solve_decision. Defined.
Definition to_pascal_case (m : SgTlsMode) : string :=
  match m with Terminate => "Terminate" | Passthrough => "Passthrough" end.
(** [From<String>] and [From<Option<String>> for SgTlsMode]. No letter outside ASCII has
    a lower case that occurs in the two names, so ASCII lower case decides alike. *)
Definition tls_mode_from (value : string) : SgTlsMode :=
  if decide (to_ascii_lowercase value = "terminate") then Terminate
  else Passthrough.
Definition tls_mode_from_option (value : option string) : SgTlsMode := tls_mode_from (default "" value).

Record SgTlsConfig := MkTls {
  tls_mode : SgTlsMode; tls_key : string; tls_cert : string; tls_http2 : option bool }.
Inductive SgProtocolConfig := ProtocolHttp | ProtocolHttps (tls : SgTlsConfig).
Definition protocol_to_string (p : SgProtocolConfig) : string :=
  match p with ProtocolHttp => "http" | ProtocolHttps _ => "https" end.

Record SgListener := MkSgListener {
  l_name : string;
  l_ip : option IpAddr;
  l_port : Z;
  l_protocol : SgProtocolConfig;
  l_hostname : option string;
}.

Record SgParameters := MkSgParameters {
  p_redis_url : option string;
  p_log_level : option string;
  p_lang : option string;
  p_ignore_tls_verification : option bool;
  p_enable_x_request_id : option bool;
  p_observability : ObservabilityConfig;
}.
Definition parameters_default : SgParameters := MkSgParameters None None None None None observability_default.

Record SgGateway (P : Type) := MkSgGateway {
  g_name : string;
  g_parameters : SgParameters;
  g_listeners : list SgListener;
  g_plugins : list P;
}.
Arguments MkSgGateway {P}.
Arguments g_name {P}.
Arguments g_parameters {P}.
Arguments g_listeners {P}.
Arguments g_plugins {P}.
Definition gateway_default {P} : SgGateway P := MkSgGateway "" parameters_default [] [].

(** ** Routes: [http_route.rs] *)

Inductive TimeoutMode := TmRequest | TmDisabled.
Inductive McpSessionAffinity := AffinityMcpSession | AffinityNone.
Inductive SgBalancePolicy := SgRandom | SgIpHash | SgMcpSession.
Inductive SgMcpTransport := StreamableHttp | LegacySse.
#[export] Instance TimeoutMode_eq_dec : EqDecision TimeoutMode.
Proof. solve_decision. Defined.
#[export] Instance McpSessionAffinity_eq_dec : EqDecision McpSessionAffinity.
Proof. solve_decision. Defined.

Record K8sServiceData := MkK8sService { k8s_name : string; k8s_namespace : option string }.
Inductive BackendHost :=
| HostName (host : string)
| K8sService (data : K8sServiceData)
| HostFile (path : string).

Definition DEFAULT_NAMESPACE : string := "default".
(** [Display for K8sServiceData] and for [BackendHost] *)
Definition k8s_service_to_string (d : K8sServiceData) : string :=
  k8s_name d +:+ "." +:+ default DEFAULT_NAMESPACE (k8s_namespace d).
Definition backend_host_to_string (h : BackendHost) : string :=
  match h with HostName host => host | K8sService d => k8s_service_to_string d | HostFile path => path end.

Section routes.
Context {P : Type}.

Record SgBackendRef := MkBackendRef {
  b_host : BackendHost;
  b_port : option Z;
  b_timeout_ms : option Z;
  b_timeout_mode : option TimeoutMode;
  b_protocol : option SgBackendProtocol;
  b_downgrade_http2 : option bool;
  b_weight : option Z;
  b_plugins : list P;
}.
Definition backend_ref_default : SgBackendRef := MkBackendRef (HostName "") None None None None None None [].
Definition get_host (b : SgBackendRef) : string := backend_host_to_string (b_host b).

Record SgHttpRouteRule := MkSgRule {
  sr_matches : option (list SgHttpRouteMatch);
  sr_plugins : list P;
  sr_backends : list SgBackendRef;
  sr_timeout_ms : option Z;
  sr_timeout_mode : option TimeoutMode;
  sr_balance_policy : option SgBalancePolicy;
}.

Record SgHttpRoute := MkSgHttpRoute {
  hr_route_name : string;
  hr_hostnames : option (list string);
  hr_plugins : list P;
  hr_rules : list SgHttpRouteRule;
  hr_priority : Z;
}.
Definition http_route_default : SgHttpRoute := MkSgHttpRoute "" None [] [] 1.

Record SgMcpLegacySse := MkLegacySse { sse_path : string; message_path : string }.
Record SgMcpRoute := MkSgMcpRoute {
  mr_route_name : string;
  mr_hostnames : option (list string);
  mr_transport : SgMcpTransport;
  mr_path : string;
  mr_legacy_sse : option SgMcpLegacySse;
  mr_backends : list SgBackendRef;
  mr_plugins : list P;
  mr_timeout_mode : TimeoutMode;
  mr_session_affinity : McpSessionAffinity;
}.

Inductive SgRoute := RouteMcp (r : SgMcpRoute) | RouteHttp (r : SgHttpRoute).
Definition sg_route_name (r : SgRoute) : string :=
  match r with RouteMcp r => mr_route_name r | RouteHttp r => hr_route_name r end.
End routes.
Arguments SgBackendRef P : clear implicits.
Arguments SgHttpRouteRule P : clear implicits.
Arguments SgHttpRoute P : clear implicits.
Arguments SgMcpRoute P : clear implicits.
Arguments SgRoute P : clear implicits.

(** ** Configurations: [lib.rs] *)

Record ConfigItem (P : Type) := MkItem { ci_gateway : SgGateway P; ci_routes : list (string * SgRoute P) }.
Arguments MkItem {P}.
Arguments ci_gateway {P}.
Arguments ci_routes {P}.
Definition item_default {P} : ConfigItem P := MkItem gateway_default [].

Record Config (Value : Type) := MkConfig {
  c_gateways : list (string * ConfigItem PluginBinding);
  c_plugins : PluginInstanceMap Value;
  c_api_port : option Z;
  c_observability : ObservabilityConfig;
}.
Arguments MkConfig {Value}.
Arguments c_gateways {Value}.
Arguments c_plugins {Value}.
Arguments c_api_port {Value}.
Arguments c_observability {Value}.

Definition DEFAULT_API_PORT : Z := 9876.
(** [Default for Config]; [axum] says whether the feature [ext-axum] is on. *)
Definition config_default {Value} (axum : bool) : Config Value :=
  MkConfig [] ∅ (if axum then Some DEFAULT_API_PORT else None) observability_default.

(** ** Changing the plugin references: [map_plugins]

    The closure is an [FnMut], so it threads a state, in the order in which the source
    visits the references. *)

Section map_plugins.
Context {S P T : Type} (f : P → S → T * S).

Fixpoint map_state {A B} (g : A → S → B * S) (l : list A) (s : S) : list B * S :=
  match l with
  | [] => ([], s)
  | x :: l => let '(y, s) := g x s in let '(ys, s) := map_state g l s in (y :: ys, s)
  end.

Definition gateway_map_plugins (g : SgGateway P) (s : S) : SgGateway T * S :=
  let '(ps, s) := map_state f (g_plugins g) s in
  (MkSgGateway (g_name g) (g_parameters g) (g_listeners g) ps, s).

Definition backend_map_plugins (b : SgBackendRef P) (s : S) : SgBackendRef T * S :=
  let '(ps, s) := map_state f (b_plugins b) s in
  (MkBackendRef (b_host b) (b_port b) (b_timeout_ms b) (b_timeout_mode b) (b_protocol b)
     (b_downgrade_http2 b) (b_weight b) ps, s).

Definition rule_map_plugins (r : SgHttpRouteRule P) (s : S) : SgHttpRouteRule T * S :=
  let '(ps, s) := map_state f (sr_plugins r) s in
  let '(bs, s) := map_state backend_map_plugins (sr_backends r) s in
  (MkSgRule (sr_matches r) ps bs (sr_timeout_ms r) (sr_timeout_mode r) (sr_balance_policy r), s).

Definition http_route_map_plugins (r : SgHttpRoute P) (s : S) : SgHttpRoute T * S :=
  let '(ps, s) := map_state f (hr_plugins r) s in
  let '(rules, s) := map_state rule_map_plugins (hr_rules r) s in
  (MkSgHttpRoute (hr_route_name r) (hr_hostnames r) ps rules (hr_priority r), s).

Definition mcp_route_map_plugins (r : SgMcpRoute P) (s : S) : SgMcpRoute T * S :=
  let '(bs, s) := map_state backend_map_plugins (mr_backends r) s in
  let '(ps, s) := map_state f (mr_plugins r) s in
  (MkSgMcpRoute (mr_route_name r) (mr_hostnames r) (mr_transport r) (mr_path r) (mr_legacy_sse r)
     bs ps (mr_timeout_mode r) (mr_session_affinity r), s).

Definition route_map_plugins (r : SgRoute P) (s : S) : SgRoute T * S :=
  match r with
  | RouteMcp r => let '(r, s) := mcp_route_map_plugins r s in (RouteMcp r, s)
  | RouteHttp r => let '(r, s) := http_route_map_plugins r s in (RouteHttp r, s)
  end.

Definition item_map_plugins (i : ConfigItem P) (s : S) : ConfigItem T * S :=
  let '(g, s) := gateway_map_plugins (ci_gateway i) s in
  let '(rs, s) := map_state (λ kr s, let '(r, s) := route_map_plugins kr.2 s in ((kr.1, r), s)) (ci_routes i) s in
  (MkItem g rs, s).
End map_plugins.

(** ** MCP routes: [compile_mcp_route_to_http_route] and its helpers *)

Section mcp.
Context {P : Type}.

Definition mcp_path_method_match (path method : string) : SgHttpRouteMatch :=
  MkSgMatch (Some (SgPathExact path None)) None None (Some [method]).

Definition mcp_matches (r : SgMcpRoute P) : list SgHttpRouteMatch :=
  match mr_transport r with
  | StreamableHttp => [mcp_path_method_match (mr_path r) "GET"; mcp_path_method_match (mr_path r) "POST"]
  | LegacySse =>
      let legacy := default (MkLegacySse "/sse" "/message") (mr_legacy_sse r) in
      [mcp_path_method_match (sse_path legacy) "GET"; mcp_path_method_match (message_path legacy) "POST"]
  end.

(** [backend.timeout_mode.get_or_insert(mode)] *)
Definition insert_timeout_mode (mode : TimeoutMode) (b : SgBackendRef P) : SgBackendRef P :=
  MkBackendRef (b_host b) (b_port b) (b_timeout_ms b) (Some (default mode (b_timeout_mode b)))
    (b_protocol b) (b_downgrade_http2 b) (b_weight b) (b_plugins b).

Definition mcp_transport_name (t : SgMcpTransport) : string :=
  match t with StreamableHttp => "streamable_http" | LegacySse => "legacy_sse" end.

Definition compile_mcp_route_to_http_route (r : SgMcpRoute P) : SgHttpRoute P * option string :=
  (MkSgHttpRoute (mr_route_name r) (mr_hostnames r) (mr_plugins r)
     [MkSgRule (Some (mcp_matches r)) [] (insert_timeout_mode (mr_timeout_mode r) <$> mr_backends r)
        None (Some (mr_timeout_mode r))
        (if decide (mr_session_affinity r = AffinityMcpSession) then Some SgMcpSession else None)]
     1,
   Some (mcp_transport_name (mr_transport r))).

Definition compile_route (r : SgRoute P) : SgHttpRoute P * option string :=
  match r with
  | RouteHttp r => (r, None)
  | RouteMcp r => compile_mcp_route_to_http_route r
  end.
End mcp.

(** ** The order of plugin bindings: [order_plugin_bindings]

    [sort_by] is a stable sort; [before x y] is [cmp x y != Greater]. *)

Section sort_by.
Context {A : Type} (before : A → A → bool).

Fixpoint sort_insert (x : A) (l : list A) : list A :=
  match l with
  | [] => [x]
  | y :: l' => if before x y then x :: l else y :: sort_insert x l'
  end.
Fixpoint sort_by (l : list A) : list A :=
  match l with [] => [] | x :: l => sort_insert x (sort_by l) end.
End sort_by.

Definition order_plugin_bindings (bindings : list PluginBinding) : list PluginBinding :=
  sort_by (λ left right, binding_priority right <=? binding_priority left)%Z bindings.

(** ** Matchers: [convert_config_to_kernel]

    The constructors of the libraries' types from text. *)

Class MatchParsers `{HttpLib} := {
  regex_new : string → option Regex;
  header_name_from_str : string → option string;
}.

Inductive ConvertError := InvalidRegex (re : string) | InvalidHeaderName (name : string) | InvalidHeaderValue (v : string).

Section convert.
Context `{HttpLib} `{!MatchParsers}.

Definition parse_regex (re : string) : result Regex ConvertError := ok_or (regex_new re) (InvalidRegex re).
Definition parse_header_value (v : string) : result string ConvertError := ok_or (hv_from_str v) (InvalidHeaderValue v).

(** [Iterator::collect] into a [Result]: the first error. *)
Fixpoint collect_results {A B E} (f : A → result B E) (l : list A) : result (list B) E :=
  match l with
  | [] => Ok []
  | x :: l => let? y := f x in let? ys := collect_results f l in Ok (y :: ys)
  end.

(** [opt.map(f).transpose()] *)
Definition transpose_map {A B E} (f : A → result B E) (o : option A) : result (option B) E :=
  match o with Some x => let? y := f x in Ok (Some y) | None => Ok None end.

Definition convert_path (m : SgHttpPathMatch) : result HttpPathMatchRewrite ConvertError :=
  match m with
  | SgPathExact value replace => Ok (PathExact value replace)
  | SgPathPrefix value replace => Ok (PathPrefix value replace)
  | SgPathRegExp value replace => let? re := parse_regex value in Ok (PathRegExp re replace)
  end.

Definition convert_header (m : SgHttpHeaderMatch) : result SgHttpHeaderMatchRewrite ConvertError :=
  match m with
  | SgHeaderExact name value replace =>
      let? n := ok_or (header_name_from_str name) (InvalidHeaderName name) in
      let? v := parse_header_value value in
      let? r := transpose_map parse_header_value replace in
      Ok (MkHeaderMatch n (HeaderExact v r))
  | SgHeaderRegExp name re replace =>
      let? n := ok_or (header_name_from_str name) (InvalidHeaderName name) in
      let? re := parse_regex re in
      Ok (MkHeaderMatch n (HeaderRegular re replace))
  end.

Definition convert_query (m : SgHttpQueryMatch) : result HttpQueryMatch ConvertError :=
  match m with
  | SgQueryExact key value => Ok (MkQueryMatch key (QueryExact value))
  | SgQueryRegular key re => let? re := parse_regex re in Ok (MkQueryMatch key (QueryRegular re))
  end.

Definition convert_config_to_kernel (m : SgHttpRouteMatch) : result HttpRouteMatch ConvertError :=
  let? path := transpose_map convert_path (sm_path m) in
  let? header := transpose_map (collect_results convert_header) (sm_header m) in
  let? query := transpose_map (collect_results convert_query) (sm_query m) in
  Ok (MkRouteMatch path header query (fmap (M:=list) MkMethodMatch <$> sm_method m)).
End convert.

(** ** Lemmas *)

Lemma tls_mode_roundtrip m : tls_mode_from (to_pascal_case m) = m.
Proof. by destruct m. Qed.

Section sort_lemmas.
Context {A : Type} (before : A → A → bool).
Hypothesis before_total : ∀ x y, before x y = false → before y x = true.
Hypothesis before_trans : ∀ x y z, before x y = true → before y z = true → before x z = true.

Lemma sort_insert_perm x l : sort_insert before x l ≡ₚ x :: l.
Proof.
  induction l as [|y l IH]; simpl; [done|]. destruct (before x y); [done|].
  rewrite IH. apply Permutation_swap.
Qed.

Lemma sort_by_perm l : sort_by before l ≡ₚ l.
Proof. induction l as [|x l IH]; simpl; [done|]. by rewrite sort_insert_perm, IH. Qed.

Lemma sort_insert_sorted x l :
  StronglySorted (λ x y, before x y = true) l → StronglySorted (λ x y, before x y = true) (sort_insert before x l).
Proof.
  induction 1 as [|y l Hl IH Hy]; simpl; [by repeat constructor|].
  destruct (before x y) eqn:E.
  - constructor; [by constructor|]. constructor; [done|].
    eapply Forall_impl; [exact Hy|]. intros z Hz. by eapply before_trans.
  - constructor; [done|]. rewrite sort_insert_perm. constructor; auto.
Qed.

Lemma sort_by_sorted l : StronglySorted (λ x y, before x y = true) (sort_by before l).
Proof. induction l as [|x l IH]; simpl; [constructor|by apply sort_insert_sorted]. Qed.

(** Elements that come before each other keep their order. *)
Lemma sort_insert_filter (Q : A → Prop) `{∀ x, Decision (Q x)} x l :
  (∀ y z, Q y → Q z → before y z = true) →
  filter Q (sort_insert before x l) = filter Q (x :: l).
Proof.
  intros HQ. induction l as [|y l IH]; [done|]. cbn [sort_insert].
  destruct (before x y) eqn:E; [done|]. rewrite (filter_cons Q y), IH, !(filter_cons Q).
  repeat case_decide; try done. by rewrite HQ in E.
Qed.

Lemma sort_by_filter (Q : A → Prop) `{∀ x, Decision (Q x)} l :
  (∀ y z, Q y → Q z → before y z = true) → filter Q (sort_by before l) = filter Q l.
Proof.
  intros HQ. induction l as [|x l IH]; [done|]. cbn [sort_by].
  rewrite sort_insert_filter, !filter_cons, IH by done. done.
Qed.
End sort_lemmas.

Section map_plugins_lemmas.
Context {S P : Type}.

Lemma map_state_id {A} (g : A → S → A * S) l s :
  (∀ x s, g x s = (x, s)) → map_state g l s = (l, s).
Proof. intros Hg. induction l as [|x l IH]; simpl; [done|]. by rewrite Hg, IH. Qed.

Let keep : P → S → P * S := λ p s, (p, s).

Lemma backend_map_plugins_id b s : backend_map_plugins keep b s = (b, s).
Proof. destruct b. unfold backend_map_plugins. by rewrite map_state_id. Qed.
Lemma rule_map_plugins_id r s : rule_map_plugins keep r s = (r, s).
Proof.
  destruct r. unfold rule_map_plugins. rewrite map_state_id by done.
  by rewrite map_state_id by apply backend_map_plugins_id.
Qed.
Lemma route_map_plugins_id r s : route_map_plugins keep r s = (r, s).
Proof.
  destruct r as [[]|[]]; simpl; unfold mcp_route_map_plugins, http_route_map_plugins; simpl.
  - by rewrite (map_state_id (backend_map_plugins keep)), map_state_id by (done || apply backend_map_plugins_id).
  - by rewrite map_state_id, (map_state_id (rule_map_plugins keep)) by (done || apply rule_map_plugins_id).
Qed.
(** Keeping every plugin reference keeps the item. *)
Lemma item_map_plugins_id i s : item_map_plugins keep i s = (i, s).
Proof.
  destruct i as [[] rs]. unfold item_map_plugins, gateway_map_plugins. simpl.
  rewrite map_state_id by done. rewrite map_state_id; [done|].
  intros [k r] s'. simpl. by rewrite route_map_plugins_id.
Qed.
End map_plugins_lemmas.

Section convert_lemmas.
Context `{HttpLib} `{!MatchParsers}.

(** A list converts when each of its elements does, one by one. *)
Lemma collect_results_Ok {A B E} (f : A → result B E) l ys :
  collect_results f l = Ok ys ↔ Forall2 (λ x y, f x = Ok y) l ys.
Proof.
  revert ys. induction l as [|x l IH]; intros ys; simpl.
  - split; [by intros [= <-]|]. by inversion 1.
  - destruct (f x) as [y|e] eqn:Hx; simpl.
    + destruct (collect_results f l) as [ys'|e] eqn:Hl; simpl.
      * split; [intros [= <-]; constructor; [done|by apply IH]|].
        inversion 1 as [|?? y' ys'' Hy Hys]; subst. apply IH in Hys. congruence.
      * split; [done|]. inversion 1 as [|?? y' ys'' Hy Hys]; subst. apply IH in Hys. congruence.
    + split; [done|]. inversion 1; subst. congruence.
Qed.

(** An error of a list is the error of its first failing element. *)
Lemma collect_results_Err {A B E} (f : A → result B E) l e :
  collect_results f l = Err e ↔
  ∃ l1 x l2, l = l1 ++ x :: l2 ∧ f x = Err e ∧ Forall (λ z, ∃ y, f z = Ok y) l1.
Proof.
  induction l as [|x l IH]; simpl.
  - split; [done|]. intros ([]&?&?&?&_); simplify_eq/=.
  - destruct (f x) as [y|e'] eqn:Hx; simpl.
    + destruct (collect_results f l) as [ys|e'']; simpl.
      * split; [done|]. intros ([|x' l1]&z&l2&?&Hz&Hl1); simplify_eq/=; [congruence|].
        apply Forall_cons in Hl1 as [_ Hl1]. assert (@Ok (list B) E ys = Err e) by (apply IH; eauto 10). done.
      * split.
        -- intros [= ->]. destruct IH as [IH _]. destruct IH as (l1&z&l2&->&Hz&Hl1); [done|].
           exists (x :: l1), z, l2. split_and!; eauto.
        -- intros ([|x' l1]&z&l2&?&Hz&Hl1); simplify_eq/=; [congruence|].
           apply Forall_cons in Hl1 as [_ Hl1]. f_equal.
           assert (@Err (list B) E e'' = Err e) as [= ->]; [|done]. apply IH. eauto 10.
    + split.
      * intros [= ->]. exists [], x, l. auto.
      * intros ([|x' l1]&z&l2&?&Hz&Hl1); simplify_eq/=; [congruence|].
        apply Forall_cons in Hl1 as [[? ?] _]. congruence.
Qed.
End convert_lemmas.

(** The bindings of a scope: a permutation of the configured ones, by descending
    priority, and in the configured order among equal priorities. *)
Lemma order_plugin_bindings_spec l :
  order_plugin_bindings l ≡ₚ l ∧
  StronglySorted (λ x y, binding_priority y ≤ binding_priority x)%Z (order_plugin_bindings l) ∧
  ∀ p, filter (λ b, binding_priority b = p) (order_plugin_bindings l) =
       filter (λ b, binding_priority b = p) l.
Proof.
  unfold order_plugin_bindings. split_and!.
  - apply sort_by_perm.
  - assert (∀ m, StronglySorted (λ x y, (binding_priority y <=? binding_priority x)%Z = true) m →
      StronglySorted (λ x y, binding_priority y ≤ binding_priority x)%Z m) as Hm.
    { induction 1 as [|x m Hm IH Hx]; constructor; [done|]. eapply Forall_impl; [exact Hx|].
      intros y Hy. simpl in Hy. lia. }
    apply Hm, sort_by_sorted; simpl; intros; lia.
  - intros p. apply sort_by_filter. intros y z -> ->. lia.
Qed.

(** ** Properties *)

(** The paths of an MCP route for reading and for posting. *)
Definition mcp_endpoints {P} (r : SgMcpRoute P) : string * string :=
  match mr_transport r with
  | StreamableHttp => (mr_path r, mr_path r)
  | LegacySse =>
      let legacy := default (MkLegacySse "/sse" "/message") (mr_legacy_sse r) in
      (sse_path legacy, message_path legacy)
  end.

(** An MCP route compiles to one rule, whose matchers always convert and accept
    exactly the GET requests of the route's reading path and the POST requests of its
    posting path; the rule keeps the backends in order and gives each of them a timeout
    mode, its own if it has one and the route's otherwise. *)
Theorem mcp_route_accepts `{HttpLib} `{!MatchParsers} {P} (r : SgMcpRoute P) :
  ∃ rule ms,
    hr_rules (compile_mcp_route_to_http_route r).1 = [rule] ∧
    transpose_map (collect_results convert_config_to_kernel) (sr_matches rule) = Ok (Some ms) ∧
    (∀ req, match_request ms req = true ↔
      (eq_ignore_ascii_case (req_method req) "GET" = true ∧ uri_path (req_uri req) = (mcp_endpoints r).1) ∨
      (eq_ignore_ascii_case (req_method req) "POST" = true ∧ uri_path (req_uri req) = (mcp_endpoints r).2)) ∧
    sr_timeout_mode rule = Some (mr_timeout_mode r) ∧
    Forall2 (λ b b', get_host b' = get_host b ∧ b_plugins b' = b_plugins b ∧
      b_timeout_mode b' = Some (default (mr_timeout_mode r) (b_timeout_mode b)))
      (mr_backends r) (sr_backends rule).
Proof.
  set (ms := [MkRouteMatch (Some (PathExact (mcp_endpoints r).1 None)) None None (Some [MkMethodMatch "GET"]);
              MkRouteMatch (Some (PathExact (mcp_endpoints r).2 None)) None None (Some [MkMethodMatch "POST"])]).
  eexists _, ms. split; [reflexivity|]. split_and!.
  - subst ms. unfold mcp_endpoints, mcp_matches. cbn [sr_matches transpose_map].
    unfold mcp_matches. by destruct (mr_transport r).
  - intros req. subst ms.
    unfold match_request, match_vec, existsb, match_request, match_route, match_request,
      match_option, match_request, match_vec, match_path, existsb, match_request, match_method.
    cbn [rm_path rm_header rm_query rm_method method_name]. rewrite !orb_false_r, !andb_true_r.
    rewrite orb_true_iff, !andb_true_iff, !bool_decide_eq_true. naive_solver.
  - done.
  - cbn [sr_backends]. induction (mr_backends r) as [|b bs IH]; constructor; [done|apply IH].
Qed.

(** A reference instance of the parsers, under which every matcher converts. *)
#[export] Instance ref_parsers : @MatchParsers ref_http := {| regex_new := Some; header_name_from_str := Some |}.
