(* ===== verification/ConfigService.v ===== *)
(** * Configuration services

    [crates/config/src/service.rs]: the traits of a configuration backend with their
    default methods, the stored form of a plugin configuration and the events of a
    change. [service/memory/mod.rs] and [service/redis]: the in-memory and the Redis
    backend.

    An operation of a backend is a function from the backend's state to a result and
    the next state ([Op]). A JSON value is the inductive type [Json]; what the derived
    serialisation of a plugin configuration does is written out. The text format
    ([ConfigFormat]) and the Redis connection are interfaces: each Redis command is
    done, lost (done, but answered by an error) or refused, as the connection says. *)

From Stdlib Require Import SpecFloat.
From S2P Require Export Config Service Json Trim.
Local Open Scope string_scope.
Local Open Scope list_scope.
Local Open Scope nat_scope.

(** ** Operations *)

Definition OpE (C E A : Type) : Type := C → result A E * C.
Notation Op C A := (OpE C string A).

Section op.
Context {C E : Type}.
Definition op_ret {A} (a : A) : OpE C E A := λ c, (Ok a, c).
Definition op_bind {A B} (m : OpE C E A) (k : A → OpE C E B) : OpE C E B := λ c,
  match m c with (Ok a, c) => k a c | (Err e, c) => (Err e, c) end.
Definition op_lift {A} (r : result A E) : OpE C E A := λ c, (r, c).
(** A loop whose body can fail, and a [collect] of its results. *)
Fixpoint op_for {A} (f : A → OpE C E unit) (l : list A) : OpE C E unit :=
  match l with [] => op_ret () | x :: l => op_bind (f x) (λ _, op_for f l) end.
Fixpoint op_map {A B} (f : A → OpE C E B) (l : list A) : OpE C E (list B) :=
  match l with
  | [] => op_ret []
  | x :: l => op_bind (f x) (λ y, op_bind (op_map f l) (λ ys, op_ret (y :: ys)))
  end.
End op.

Notation "'do' x <- m ; k" := (op_bind m (λ x, k))
  (at level 200, x name, m at level 100, k at level 200) : rust_scope.

(** ** The derived serialisation of [PluginConfig], its identity flattened *)

Definition name_fields (n : PluginInstanceName) : list (string * Json) :=
  match n with
  | Anon uid => [("kind", JString "anon"); ("uid", JString uid)]
  | Named name => [("kind", JString "named"); ("name", JString name)]
  | Mono => [("kind", JString "mono")]
  end.
Definition config_fields (c : PluginConfig Json) : list (string * Json) :=
  ("code", JString (id_code (cfg_id c))) :: name_fields (id_name (cfg_id c)) ++
  match cfg_display_name c with Some d => [("display_name", JString d)] | None => [] end ++
  [("spec", cfg_spec c)].

Definition name_of_json (v : Json) : option PluginInstanceName :=
  kind ← json_str_field "kind" v;
  if decide (kind = "anon") then Anon <$> json_str_field "uid" v
  else if decide (kind = "named") then Named <$> json_str_field "name" v
  else if decide (kind = "mono") then Some Mono else None.
Definition display_name_of_json (v : Json) : option (option string) :=
  match json_get "display_name" v with
  | None | Some JNull => Some None
  | Some (JString d) => Some (Some d)
  | Some _ => None
  end.
Definition config_of_json (v : Json) : option (PluginConfig Json) :=
  code ← json_str_field "code" v;
  name ← name_of_json v;
  display ← display_name_of_json v;
  spec ← json_get "spec" v;
  Some (MkPluginConfig (MkPluginId code name) display spec).

(** ** The stored form of a plugin configuration *)

Definition PLUGIN_CONFIG_FORMAT : string := "plugin_config_v1".

Definition normalize_plugin_display_name (display_name : option string) : option string :=
  name ← display_name;
  let name := str_trim name in
  if str_is_empty name then None else Some name.

Definition set_display_name (d : option string) (c : PluginConfig Json) : PluginConfig Json :=
  MkPluginConfig (cfg_id c) d (cfg_spec c).
Definition set_config_id (id : PluginInstanceId) (c : PluginConfig Json) : PluginConfig Json :=
  MkPluginConfig id (cfg_display_name c) (cfg_spec c).
Definition normalize_config (c : PluginConfig Json) : PluginConfig Json :=
  set_display_name (normalize_plugin_display_name (cfg_display_name c)) c.

(** [encode_stored_plugin_config]; writing a value as JSON does not fail. *)
Definition encode_stored_plugin_config (config : PluginConfig Json) : Json :=
  JObject (("_spacegate_format", JString PLUGIN_CONFIG_FORMAT) :: config_fields (normalize_config config)).

Definition decode_stored_plugin_config (id : PluginInstanceId) (value : Json)
    (accept_legacy_full_config : bool) : result (PluginConfig Json) string :=
  if decide (json_str_field "_spacegate_format" value = Some PLUGIN_CONFIG_FORMAT) then
    let? config := ok_or (config_of_json value) "invalid stored plugin config" in
    Ok (normalize_config (set_config_id id config))
  else
    match (if accept_legacy_full_config then config_of_json value else None) with
    | Some config => Ok (normalize_config (set_config_id id config))
    | None => Ok (config_new id value)
    end.

(** ** The traits of a backend *)

Notation Gateway_ := (SgGateway PluginBinding).
Notation Route_ := (SgRoute PluginBinding).
Notation Item_ := (ConfigItem PluginBinding).

Class Create (C : Type) := {
  create_config_item_gateway : string → Gateway_ → Op C unit;
  create_config_item_route : string → string → Route_ → Op C unit;
  create_plugin : PluginConfig Json → Op C unit;
}.
Class Update (C : Type) := {
  update_config_item_gateway : string → Gateway_ → Op C unit;
  update_config_item_route : string → string → Route_ → Op C unit;
  update_plugin : PluginConfig Json → Op C unit;
}.
Class Retrieve (C : Type) := {
  retrieve_config_item_gateway : string → Op C (option Gateway_);
  retrieve_config_item_route : string → string → Op C (option Route_);
  retrieve_config_item_route_names : string → Op C (list string);
  retrieve_config_names : Op C (list string);
  retrieve_all_plugins : Op C (list (PluginConfig Json));
  retrieve_plugin : PluginInstanceId → Op C (option (PluginConfig Json));
  retrieve_plugins_by_code : string → Op C (list (PluginConfig Json));
}.
Class Delete (C : Type) := {
  delete_config_item_gateway : string → Op C unit;
  delete_config_item_route : string → string → Op C unit;
  delete_plugin : PluginInstanceId → Op C unit;
}.

(** *** Default methods *)

Section defaults.
Context {C : Type}.

Definition create_config_item `{Create C} (name : string) (item : Item_) : Op C unit :=
  do _ <- create_config_item_gateway name (ci_gateway item);
  op_for (λ kr, create_config_item_route name kr.1 kr.2) (ci_routes item).
Definition create_config `{Create C} (config : Config Json) : Op C unit :=
  op_for (λ ki, create_config_item ki.1 ki.2) (c_gateways config).

Definition update_config_item `{Update C} (name : string) (item : Item_) : Op C unit :=
  do _ <- update_config_item_gateway name (ci_gateway item);
  op_for (λ kr, update_config_item_route name kr.1 kr.2) (ci_routes item).
Definition update_config `{Update C} (config : Config Json) : Op C unit :=
  op_for (λ ki, update_config_item ki.1 ki.2) (c_gateways config).

Definition delete_config_item_all_routes `{Delete C, Retrieve C} (gateway_name : string) : Op C unit :=
  do names <- retrieve_config_item_route_names gateway_name;
  op_for (delete_config_item_route gateway_name) names.
Definition delete_config_item `{Delete C, Retrieve C} (name : string) : Op C unit :=
  do _ <- delete_config_item_gateway name;
  delete_config_item_all_routes name.

Context `{Retrieve C}.

(** The loop of [retrieve_config_item_all_routes]: a route that cannot be read is skipped. *)
Fixpoint collect_routes (gateway : string) (names : list string) (routes : list (string * Route_))
  : Op C (list (string * Route_)) := λ c,
  match names with
  | [] => (Ok routes, c)
  | route_name :: names =>
      match retrieve_config_item_route gateway route_name c with
      | (Ok (Some route), c) => collect_routes gateway names (bt_insert route_name route routes) c
      | (_, c) => collect_routes gateway names routes c
      end
  end.
Definition retrieve_config_item_all_routes (name : string) : Op C (list (string * Route_)) :=
  do names <- retrieve_config_item_route_names name;
  collect_routes name names [].

Definition retrieve_config_item (name : string) : Op C (option Item_) :=
  do gateway <- retrieve_config_item_gateway name;
  match gateway with
  | None => op_ret None
  | Some gateway =>
      do routes <- retrieve_config_item_all_routes name;
      op_ret (Some (MkItem gateway routes))
  end.

Fixpoint collect_items (names : list string) (gateways : list (string * Item_)) : Op C (list (string * Item_)) :=
  match names with
  | [] => op_ret gateways
  | name :: names =>
      do item <- retrieve_config_item name;
      collect_items names (match item with Some i => bt_insert name i gateways | None => gateways end)
  end.
Definition retrieve_config : Op C (Config Json) :=
  do names <- retrieve_config_names;
  do gateways <- collect_items names [];
  do plugins <- retrieve_all_plugins;
  op_ret (MkConfig gateways (from_config_vec plugins) None observability_default).
End defaults.

(** ** Events of a change *)

Inductive ConfigEventType := EvCreate | EvUpdate | EvDelete.
Inductive ConfigType :=
| CtGateway (name : string)
| CtRoute (gateway_name name : string)
| CtPlugin (id : PluginInstanceId)
| CtGlobal.
Record ListenEvent := MkListenEvent { ev_type : ConfigEventType; ev_config : ConfigType }.

(** [Display] and [FromStr] *)
Definition event_type_to_string (t : ConfigEventType) : string :=
  match t with EvCreate => "create" | EvUpdate => "update" | EvDelete => "delete" end.
Definition event_type_from_str (s : string) : result ConfigEventType string :=
  if decide (s = "create") then Ok EvCreate
  else if decide (s = "update") then Ok EvUpdate
  else if decide (s = "delete") then Ok EvDelete
  else Err ("unknown ConfigEventType: " +:+ s).

Definition config_type_to_string (c : ConfigType) : string :=
  match c with
  | CtGateway name => "gateway/" +:+ name
  | CtRoute gateway name => "httproute/" +:+ gateway +:+ "/" +:+ name
  | CtPlugin id => "plugin/" +:+ id_code id +:+ "/" +:+ name_to_string (id_name id)
  | CtGlobal => "global"
  end.
Definition config_type_from_str (s : string) : result ConfigType string :=
  match str_split "/" s with
  | [a; b] =>
      if decide (a = "gateway") then Ok (CtGateway b) else Err ("unknown ConfigType: " +:+ s)
  | [a; b; c] =>
      if decide (a = "httproute") then Ok (CtRoute b c)
      else if decide (a = "plugin") then
        let? name := name_from_str c in Ok (CtPlugin (MkPluginId b name))
      else Err ("unknown ConfigType: " +:+ s)
  | _ => Err ("unknown ConfigType: " +:+ s)
  end.

(** [RedisConfEvent]: [ToRedisArgs] and [FromStr] *)
Definition redis_event_to_string (e : ListenEvent) : string :=
  event_type_to_string (ev_type e) +:+ "/" +:+ config_type_to_string (ev_config e).
Definition redis_event_from_str (s : string) : result ListenEvent string :=
  match str_split_once "/" s with
  | None => Err "Invalid format"
  | Some (method, object) =>
      let? config := config_type_from_str object in
      let? type := event_type_from_str method in
      Ok (MkListenEvent type config)
  end.

(** [Joint::poll_next]: the first listener has priority. *)
Definition joint_poll_next {E} (l0 l1 : Poll (result E string)) : Poll (result E string) :=
  match l0 with Ready r => Ready r | Pending => l1 end.

(** ** The in-memory backend *)

Definition Memory : Type := Config Json.

Section memory.
Definition memory_get {A} (f : Memory → A) : Op Memory A := λ c, (Ok (f c), c).

Definition plugin_of (kv : PluginInstanceId * Json) : PluginConfig Json := MkPluginConfig kv.1 None kv.2.

#[global] Instance memory_retrieve : Retrieve Memory := {|
  retrieve_config_item_gateway gateway_name :=
    memory_get (λ c, ci_gateway <$> bt_get gateway_name (c_gateways c));
  retrieve_config_item_route gateway_name route_name :=
    memory_get (λ c, item ← bt_get gateway_name (c_gateways c); bt_get route_name (ci_routes item));
  retrieve_config_item_route_names name :=
    memory_get (λ c, default [] ((λ item, (ci_routes item).*1) <$> bt_get name (c_gateways c)));
  retrieve_config_names := memory_get (λ c, (c_gateways c).*1);
  retrieve_all_plugins := memory_get (λ c, into_config_vec (map_to_list (c_plugins c)));
  retrieve_plugin id := memory_get (λ c, (λ spec, plugin_of (id, spec)) <$> c_plugins c !! id);
  retrieve_plugins_by_code code :=
    memory_get (λ c, plugin_of <$> filter (λ kv, id_code kv.1 = code) (map_to_list (c_plugins c)));
|}.

(** [create_listener]: the configuration, and a listener that never yields an event. *)
Definition memory_create_listener (m : Memory) : Config Json * Poll (result ListenEvent string) := (m, Pending).
End memory.

(** ** The Redis backend *)

Class ConfigFormat := {
  Bytes : Type;
  ser_gateway : Gateway_ → result Bytes string;
  de_gateway : Bytes → result Gateway_ string;
  ser_route : Route_ → result Bytes string;
  de_route : Bytes → result Route_ string;
  ser_value : Json → result Bytes string;
  de_value : Bytes → result Json string;
}.

(** The outcome of a Redis command. *)
Inductive Outcome := Done | Lost | Refused.

Definition CONF_GATEWAY_KEY : string := "sg:conf:gateway".
Definition CONF_HTTP_ROUTE_KEY : string := "sg:conf:route:http:".
Definition CONF_PLUGIN_KEY : string := "sg:conf:plugin".
Definition route_key (gateway_name : string) : string := CONF_HTTP_ROUTE_KEY +:+ gateway_name.

(** The entries of one hash. *)
Definition hash_entries {V} (key : string) (m : gmap (string * string) V) : list (string * V) :=
  omap (λ kv, if decide (kv.1.1 = key) then Some (kv.1.2, kv.2) else None) (map_to_list m).

Section redis.
Context `{ConfigFormat}.

(** The hashes by key and field, the messages published on [CONF_EVENT_CHANNEL], and the
    outcomes of the coming commands, all done where the list ends. *)
Record Redis := MkRedis {
  rd_hashes : gmap (string * string) Bytes;
  rd_published : list string;
  rd_link : list Outcome;
}.

Definition command {A} (f : Redis → A * Redis) : Op Redis A := λ r,
  let outcome := default Done (head (rd_link r)) in
  let r := MkRedis (rd_hashes r) (rd_published r) (tail (rd_link r)) in
  match outcome with
  | Done => let '(a, r) := f r in (Ok a, r)
  | Lost => let '(_, r) := f r in (Err "connection lost", r)
  | Refused => (Err "connection refused", r)
  end.

Definition hset (key field : string) (v : Bytes) : Op Redis unit :=
  command (λ r, ((), MkRedis (<[(key, field) := v]> (rd_hashes r)) (rd_published r) (rd_link r))).
Definition hdel (key field : string) : Op Redis unit :=
  command (λ r, ((), MkRedis (delete (key, field) (rd_hashes r)) (rd_published r) (rd_link r))).
Definition hget (key field : string) : Op Redis (option Bytes) :=
  command (λ r, (rd_hashes r !! (key, field), r)).
Definition hgetall (key : string) : Op Redis (list (string * Bytes)) :=
  command (λ r, (hash_entries key (rd_hashes r), r)).
Definition publish (message : string) : Op Redis unit :=
  command (λ r, ((), MkRedis (rd_hashes r) (rd_published r ++ [message]) (rd_link r))).
Definition publish_event (t : ConfigEventType) (c : ConfigType) : Op Redis unit :=
  publish (redis_event_to_string (MkListenEvent t c)).

(** *** Writing: [create.rs], [update.rs], [delete.rs] *)

Definition put_gateway (t : ConfigEventType) (gateway_name : string) (gateway : Gateway_) : Op Redis unit :=
  do bytes <- op_lift (ser_gateway gateway);
  do _ <- hset CONF_GATEWAY_KEY gateway_name bytes;
  publish_event t (CtGateway gateway_name).
Definition put_route (t : ConfigEventType) (gateway_name route_name : string) (route : Route_) : Op Redis unit :=
  do bytes <- op_lift (ser_route route);
  do _ <- hset (route_key gateway_name) route_name bytes;
  publish_event t (CtRoute gateway_name route_name).
Definition put_plugin (t : ConfigEventType) (config : PluginConfig Json) : Op Redis unit :=
  let id := cfg_id config in
  do bytes <- op_lift (ser_value (encode_stored_plugin_config config));
  do _ <- hset CONF_PLUGIN_KEY (id_to_string id) bytes;
  publish_event t (CtPlugin id).

#[global] Instance redis_create : Create Redis := {|
  create_config_item_gateway := put_gateway EvCreate;
  create_config_item_route := put_route EvCreate;
  create_plugin := put_plugin EvCreate;
|}.
#[global] Instance redis_update : Update Redis := {|
  update_config_item_gateway := put_gateway EvUpdate;
  update_config_item_route := put_route EvUpdate;
  update_plugin := put_plugin EvUpdate;
|}.
#[global] Instance redis_delete : Delete Redis := {|
  delete_config_item_gateway gateway_name :=
    do _ <- hdel CONF_GATEWAY_KEY gateway_name;
    publish_event EvDelete (CtGateway gateway_name);
  delete_config_item_route gateway_name route_name :=
    do _ <- hdel (route_key gateway_name) route_name;
    publish_event EvDelete (CtRoute gateway_name route_name);
  delete_plugin id :=
    do _ <- hdel CONF_PLUGIN_KEY (id_to_string id);
    publish_event EvDelete (CtPlugin id);
|}.

(** *** Reading: [retrieve.rs] *)

(** [o.map(|bytes| de(bytes).map_err(..)).transpose()] *)
Definition parse_found {A} (what : string) (de : Bytes → result A string) (o : option Bytes) : result (option A) string :=
  match o with
  | None => Ok None
  | Some bytes =>
      match de bytes with
      | Ok a => Ok (Some a)
      | Err e => Err ("[SG.Config] " +:+ what +:+ " Config parse error " +:+ e)
      end
  end.

(** [parse_plugin_config_key] *)
Definition parse_plugin_config_key (key : string) : option PluginInstanceId :=
  let found mk o := '(code, s) ← o; if str_is_empty code || str_is_empty s then None else Some (MkPluginId code (mk s)) in
  match str_strip_suffix "-m" key with
  | Some code => Some (MkPluginId code Mono)
  | None => opt_or (found Anon (str_split_once_str "-a-" key)) (found Named (str_split_once_str "-n-" key))
  end.

(** [decode_plugin_config_entry] *)
Definition decode_plugin_config_entry (key : string) (value : Json) : result (PluginConfig Json) string :=
  let embedded := cfg_id <$> config_of_json
    (match json_get "_spacegate_format" value with Some _ => json_remove "_spacegate_format" value | None => value end) in
  let? id := ok_or (opt_or embedded (parse_plugin_config_key key)) ("[SG.Config] Plugin Config id parse error: " +:+ key) in
  decode_stored_plugin_config id value true.

Definition decode_plugin_bytes (key : string) (bytes : Bytes) : result (PluginConfig Json) string :=
  match de_value bytes with
  | Ok value => decode_plugin_config_entry key value
  | Err e => Err ("[SG.Config] Plugin Config parse error " +:+ e)
  end.

#[global] Instance redis_retrieve : Retrieve Redis := {|
  retrieve_config_item_gateway gateway_name :=
    do o <- hget CONF_GATEWAY_KEY gateway_name;
    op_lift (parse_found "Gateway" de_gateway o);
  retrieve_config_item_route gateway_name route_name :=
    do o <- hget (route_key gateway_name) route_name;
    op_lift (parse_found "Route" de_route o);
  retrieve_config_item_route_names name :=
    do entries <- hgetall (route_key name);
    op_ret (entries.*1);
  retrieve_config_names :=
    do entries <- hgetall CONF_GATEWAY_KEY;
    do gateways <- op_lift (collect_results
      (λ kv, match de_gateway kv.2 with Ok g => Ok g | Err e => Err ("[SG.Config] Gateway Config parse error " +:+ e) end) entries);
    op_ret (g_name <$> gateways);
  retrieve_all_plugins :=
    do entries <- hgetall CONF_PLUGIN_KEY;
    op_lift (collect_results (λ kv, decode_plugin_bytes kv.1 kv.2) entries);
  retrieve_plugin id :=
    do o <- hget CONF_PLUGIN_KEY (id_to_string id);
    op_lift (match o with
             | None => Ok None
             | Some bytes =>
                 match de_value bytes with
                 | Ok value => let? c := decode_stored_plugin_config id value true in Ok (Some c)
                 | Err e => Err ("[SG.Config] Plugin Config parse error " +:+ e)
                 end
             end);
  retrieve_plugins_by_code code :=
    do entries <- hgetall CONF_PLUGIN_KEY;
    op_ret (filter (λ c, id_code (cfg_id c) = code)
      (omap (λ kv, result_ok (decode_plugin_bytes kv.1 kv.2)) entries));
|}.

(** The background task of [create_listener]: messages that do not parse are logged. *)
Definition redis_events (messages : list string) : list ListenEvent :=
  omap (λ m, result_ok (redis_event_from_str m)) messages.
End redis.
Arguments Redis {_}.

(** What the documentation of a format promises: a serialised value is read back. An MCP
    route without backends is written without the field [backends], which only the other
    kind of route may lack, and a ratio that is not finite has no JSON text. *)
Definition storable_observability (o : ObservabilityConfig) : Prop :=
  match tc_sample_ratio (ob_traces o) with
  | S754_zero _ | S754_finite _ _ _ => True
  | _ => False
  end.
Definition storable_gateway {P} (g : SgGateway P) : Prop := storable_observability (p_observability (g_parameters g)).
Definition storable_route {P} (r : SgRoute P) : Prop :=
  match r with RouteMcp r => mr_backends r ≠ [] | RouteHttp _ => True end.
Class ConfigFormatLaws `(F : ConfigFormat) : Prop := {
  de_ser_gateway g bytes : storable_gateway g → ser_gateway g = Ok bytes → de_gateway bytes = Ok g;
  de_ser_route r bytes : storable_route r → ser_route r = Ok bytes → de_route bytes = Ok r;
  de_ser_value v bytes : ser_value v = Ok bytes → de_value bytes = Ok v;
}.

(** ** Lemmas: normal forms *)

Lemma normalize_idemp d :
  normalize_plugin_display_name (normalize_plugin_display_name d) = normalize_plugin_display_name d.
Proof.
  destruct d as [s|]; [|done]. cbn [normalize_plugin_display_name mbind option_bind].
  destruct (str_is_empty (str_trim s)) eqn:E; [done|]. cbn [normalize_plugin_display_name mbind option_bind].
  by rewrite str_trim_idemp, E.
Qed.

(** ** Lemmas: the JSON of a plugin configuration *)

Lemma config_of_json_fields c : config_of_json (JObject (config_fields c)) = Some c.
Proof. destruct c as [[code []] [] spec]; reflexivity. Qed.
Lemma config_of_json_stored v c :
  config_of_json (JObject (("_spacegate_format", v) :: config_fields c)) = Some c.
Proof. destruct c as [[code []] [] spec]; reflexivity. Qed.

Lemma normalize_config_idemp id c :
  normalize_config (set_config_id id (normalize_config c)) = normalize_config (set_config_id id c).
Proof. destruct c as [i d s]. unfold normalize_config, set_config_id, set_display_name. simpl. by rewrite normalize_idemp. Qed.

(** ** Lemmas: events *)

Lemma str_split_slash c s : ¬ no_char c s → ∃ a b l, str_split c s = a :: b :: l.
Proof.
  intros Hs. destruct (str_split c s) as [|a [|b l]] eqn:E; [by apply str_split_cons_ne in E| |eauto].
  destruct Hs. pose proof (str_split_pieces c s) as Hp. rewrite E in Hp.
  apply Forall_cons in Hp as [Hp _]. pose proof (str_join_split c s) as Hj. rewrite E in Hj.
  simpl in Hj. by rewrite <- Hj.
Qed.

(** A name that an event's text carries. *)
Definition name_text_ok (n : PluginInstanceName) : Prop :=
  match n with Anon _ => True | Named name => name ≠ "" | Mono => False end.

Lemma name_from_to n :
  (name_text_ok n → name_from_str (name_to_string n) = Ok n) ∧
  (¬ name_text_ok n → ∃ e, name_from_str (name_to_string n) = Err e).
Proof.
  destruct n as [uid|name|]; cbn [name_text_ok].
  - split; [reflexivity|tauto].
  - split; [|intros Hn; destruct name; [by eexists|by destruct Hn]].
    intros Hn. destruct name; [done|reflexivity].
  - split; [done|]. intros _. by eexists.
Qed.

Lemma no_char_dec c s : {no_char c s} + {¬ no_char c s}.
Proof. unfold no_char. destruct (str_contains_char c s); [by right|by left]. Qed.

Definition config_type_ok (c : ConfigType) : Prop :=
  match c with
  | CtGateway name => no_char "/" name
  | CtRoute gateway name => no_char "/" gateway ∧ no_char "/" name
  | CtPlugin id =>
      no_char "/" (id_code id) ∧ no_char "/" (name_to_string (id_name id)) ∧ name_text_ok (id_name id)
  | CtGlobal => False
  end.

Lemma config_type_gateway name :
  config_type_from_str ("gateway/" +:+ name) =
  if no_char_dec "/" name then Ok (CtGateway name) else Err ("unknown ConfigType: gateway/" +:+ name).
Proof.
  unfold config_type_from_str. change ("gateway/" +:+ name) with ("gateway" +:+ String "/" name).
  rewrite str_split_app by reflexivity. destruct (no_char_dec "/" _) as [Hn|Hn].
  - by rewrite str_split_no_char.
  - apply str_split_slash in Hn as (a&b&l&->). by destruct l.
Qed.

(** The three-part texts. *)
Lemma config_type_three kind a b :
  no_char "/" kind → kind = "httproute" ∨ kind = "plugin" →
  config_type_from_str (kind +:+ String "/" (a +:+ String "/" b)) =
  if no_char_dec "/" a then if no_char_dec "/" b then
    if decide (kind = "httproute") then Ok (CtRoute a b)
    else let? name := name_from_str b in Ok (CtPlugin (MkPluginId a name))
  else Err ("unknown ConfigType: " +:+ (kind +:+ String "/" (a +:+ String "/" b)))
  else Err ("unknown ConfigType: " +:+ (kind +:+ String "/" (a +:+ String "/" b))).
Proof.
  intros Hk Hkind. unfold config_type_from_str. rewrite str_split_app, str_split_app_sep by done.
  pose proof (str_split_cons_ne "/" b) as Hb.
  destruct (no_char_dec "/" a) as [Ha|Ha].
  - rewrite (str_split_no_char "/" a) by done. destruct (no_char_dec "/" b) as [Hb'|Hb'].
    + rewrite (str_split_no_char "/" b) by done. simpl. destruct Hkind as [-> | ->]; done.
    + apply str_split_slash in Hb' as (x&y&l&->). by destruct l.
  - apply str_split_slash in Ha as (x&y&l&->).
    destruct (str_split "/" b) as [|z l']; [done|]. by destruct l as [|? [|]].
Qed.

Lemma config_type_roundtrip c :
  (config_type_ok c → config_type_from_str (config_type_to_string c) = Ok c) ∧
  (¬ config_type_ok c → ∃ e, config_type_from_str (config_type_to_string c) = Err e).
Proof.
  destruct c as [name|gateway name|[code n]|]; cbn [config_type_ok config_type_to_string id_code id_name].
  - rewrite config_type_gateway. destruct (no_char_dec "/" _); naive_solver.
  - change ("httproute/" +:+ gateway +:+ "/" +:+ name) with ("httproute" +:+ String "/" (gateway +:+ String "/" name)).
    rewrite config_type_three by (done || by left).
    destruct (no_char_dec "/" gateway), (no_char_dec "/" name); rewrite ?decide_True by done; naive_solver.
  - change ("plugin/" +:+ code +:+ "/" +:+ name_to_string n) with ("plugin" +:+ String "/" (code +:+ String "/" (name_to_string n))).
    rewrite config_type_three by (done || by right). rewrite decide_False by done.
    destruct (name_from_to n) as [Hok Herr].
    destruct (no_char_dec "/" code), (no_char_dec "/" (name_to_string n)); try naive_solver.
    split.
    + intros (_&_&Hn). by rewrite Hok.
    + intros Hn. destruct Herr as [e ->]; [tauto|]. by eexists.
  - split; [done|]. intros _. by eexists.
Qed.

Lemma event_type_roundtrip t : event_type_from_str (event_type_to_string t) = Ok t.
Proof. by destruct t. Qed.

(** ** Lemmas: reading the routes of a gateway *)

Section reading.
Context {C : Type} `{Retrieve C}.

(** Where reading a route does not change the backend, the loop collects the routes that
    are found. *)
Lemma collect_routes_spec gateway (get : string → option Route_) names acc c :
  (∀ n, n ∈ names → retrieve_config_item_route gateway n c = (Ok (get n), c)) →
  collect_routes gateway names acc c =
  (Ok (bt_collect_from acc (omap (λ n, pair n <$> get n) names)), c).
Proof.
  revert acc. induction names as [|n names IH]; intros acc Hget; [done|].
  cbn [collect_routes]. rewrite Hget by set_solver. destruct (get n) as [r|] eqn:E.
  - rewrite IH by set_solver. cbn [omap list_omap]. by rewrite E.
  - rewrite IH by set_solver. cbn [omap list_omap]. by rewrite E.
Qed.

Lemma collect_items_spec (get : string → option Item_) names acc c :
  (∀ n, n ∈ names → retrieve_config_item n c = (Ok (get n), c)) →
  collect_items names acc c = (Ok (bt_collect_from acc (omap (λ n, pair n <$> get n) names)), c).
Proof.
  revert acc. induction names as [|n names IH]; intros acc Hget; [done|].
  cbn [collect_items]. unfold op_bind at 1. rewrite Hget by set_solver.
  rewrite IH by set_solver. cbn [omap list_omap]. by destruct (get n).
Qed.
End reading.

(** Looking up the keys of a map, in order, gives its entries. *)
Lemma omap_keys {V} (m : list (string * V)) :
  bt_sorted m → omap (λ n, pair n <$> bt_get n m) m.*1 = m.
Proof.
  intros Hm. assert (∀ l, l ⊆ m → omap (λ n, pair n <$> bt_get n m) l.*1 = l) as Hl; [|by apply Hl].
  induction l as [|[k v] l IH]; intros Hsub; [done|]. rewrite fmap_cons. cbn [omap list_omap fst].
  rewrite (bt_elem_get k v) by set_solver. simpl. f_equal. apply IH. set_solver.
Qed.

(** ** The stored configuration a backend represents

    The contract of a backend that can be read: in a state that represents a stored
    configuration, reading gives that configuration and leaves the state alone. *)

Record Stored := MkStored {
  st_gateways : gmap string Gateway_;
  st_routes : gmap (string * string) Route_;
  st_plugins : gmap string (PluginConfig Json);
}.
Definition stored_empty : Stored := MkStored ∅ ∅ ∅.
Definition stored_routes (st : Stored) (gateway : string) : list (string * Route_) :=
  bt_collect (hash_entries gateway (st_routes st)).
Definition stored_item (st : Stored) (name : string) : option Item_ :=
  (λ g, MkItem g (stored_routes st name)) <$> st_gateways st !! name.
Definition stored_plugin (st : Stored) (id : PluginInstanceId) : option (PluginConfig Json) :=
  (λ c, normalize_config (set_config_id id c)) <$> st_plugins st !! id_to_string id.

Class Readable (C : Type) `{Retrieve C} (represents : C → Stored → Prop) : Prop := {
  read_item c st name : represents c st → retrieve_config_item name c = (Ok (stored_item st name), c);
  read_routes c st name :
    represents c st → retrieve_config_item_all_routes name c = (Ok (stored_routes st name), c);
  read_plugin c st id : represents c st → retrieve_plugin id c = (Ok (stored_plugin st id), c);
}.

Lemma elem_of_hash_entries {V} (key : string) (m : gmap (string * string) V) (k : string) (v : V) :
  (k, v) ∈ hash_entries key m ↔ m !! (key, k) = Some v.
Proof.
  unfold hash_entries. rewrite list_elem_of_omap. split.
  - intros ([[key' k'] v']&Hin&Hd). apply elem_of_map_to_list in Hin. simpl in Hd.
    case_decide; by simplify_eq.
  - intros Hm. exists ((key, k), v). split; [by apply elem_of_map_to_list|]. simpl. by rewrite decide_True.
Qed.

Lemma NoDup_hash_entries {V} (key : string) (m : gmap (string * string) V) : NoDup (hash_entries key m).*1.
Proof.
  unfold hash_entries. pose proof (NoDup_fst_map_to_list m) as Hm. revert Hm.
  generalize (map_to_list m) as l. induction l as [|[[key' k] v] l IH]; intros Hl; [constructor|].
  inversion Hl as [|?? Hk Hl']; subst. cbn [omap list_omap fst snd]. case_decide; [|by apply IH].
  rewrite fmap_cons. constructor; [|by apply IH]. subst. cbn [fst snd].
  intros ([k' v']&->&Hin)%list_elem_of_fmap. apply list_elem_of_omap in Hin as ([[key2 k2] v2]&Hin&Hd).
  simpl in Hd. case_decide; simplify_eq. apply Hk, list_elem_of_fmap. eexists. split; [|exact Hin]. done.
Qed.

Lemma bt_get_stored_routes st gateway k : bt_get k (stored_routes st gateway) = st_routes st !! (gateway, k).
Proof.
  apply option_eq. intros v. unfold stored_routes.
  rewrite bt_get_collect by apply NoDup_hash_entries. apply elem_of_hash_entries.
Qed.

Lemma bt_collect_is_sorted {V} (l : list (string * V)) : bt_sorted (bt_collect l).
Proof. apply bt_collect_sorted. constructor. Qed.

(** *** The Redis backend is readable *)

Section redis_refines.
Context `{!ConfigFormatLaws F}.

Definition stored_as {A} (de : Bytes → result A string) (o : option Bytes) (x : option A) : Prop :=
  match o, x with Some bytes, Some a => de bytes = Ok a | None, None => True | _, _ => False end.

Record represents (r : Redis) (st : Stored) : Prop := {
  rep_link : rd_link r = [];
  rep_gateways name :
    stored_as de_gateway (rd_hashes r !! (CONF_GATEWAY_KEY, name)) (st_gateways st !! name);
  rep_routes gateway name :
    stored_as de_route (rd_hashes r !! (route_key gateway, name)) (st_routes st !! (gateway, name));
  rep_plugins key :
    stored_as de_value (rd_hashes r !! (CONF_PLUGIN_KEY, key)) (encode_stored_plugin_config <$> st_plugins st !! key);
}.

Lemma parse_found_stored {A} what de o (x : option A) : stored_as de o x → parse_found what de o = Ok x.
Proof. unfold stored_as, parse_found. destruct o, x; try done. by intros ->. Qed.

Lemma route_key_inj g g' : route_key g = route_key g' → g = g'.
Proof. apply str_app_inj_l. Qed.

Section represented.
Context (r : Redis) (st : Stored) (Hr : represents r st).

Lemma command_done {A} (f : Redis → A * Redis) : command f r = (Ok (f r).1, (f r).2).
Proof.
  unfold command. destruct r as [h p l]. pose proof (rep_link _ _ Hr) as Hl. simpl in *. subst. simpl.
  by destruct (f _).
Qed.

Lemma redis_get_gateway name : retrieve_config_item_gateway name r = (Ok (st_gateways st !! name), r).
Proof.
  cbn [retrieve_config_item_gateway redis_retrieve]. unfold hget, op_bind, op_lift. rewrite command_done. simpl.
  by rewrite (parse_found_stored _ _ _ _ (rep_gateways _ _ Hr name)).
Qed.
Lemma redis_get_route gateway name :
  retrieve_config_item_route gateway name r = (Ok (st_routes st !! (gateway, name)), r).
Proof.
  cbn [retrieve_config_item_route redis_retrieve]. unfold hget, op_bind, op_lift. rewrite command_done. simpl.
  by rewrite (parse_found_stored _ _ _ _ (rep_routes _ _ Hr gateway name)).
Qed.

Lemma redis_read_routes name :
  retrieve_config_item_all_routes name r = (Ok (stored_routes st name), r).
Proof.
  unfold retrieve_config_item_all_routes, op_bind. cbn [retrieve_config_item_route_names redis_retrieve].
  unfold hgetall, op_bind. rewrite command_done. cbn [fst snd op_ret].
  unfold op_ret. rewrite (collect_routes_spec name (λ n, st_routes st !! (name, n))) by (intros; apply redis_get_route).
  do 2 f_equal. apply bt_ext; [apply bt_collect_is_sorted|apply bt_collect_is_sorted|].
  intros k. rewrite bt_get_stored_routes. change bt_collect_from with (@bt_collect_from string _ _ Route_).
  set (names := (hash_entries (route_key name) (rd_hashes r)).*1).
  assert (NoDup names) as Hnd by apply NoDup_hash_entries.
  set (l := omap _ names).
  assert (NoDup l.*1 ∧ ∀ v, (k, v) ∈ l ↔ k ∈ names ∧ st_routes st !! (name, k) = Some v) as [Hl Hkl].
  { subst l. clearbody names. induction Hnd as [|n names Hn Hnd IH]; [split; [constructor|set_solver]|].
    cbn [omap list_omap]. destruct IH as [IH1 IH2].
    assert (∀ x, x ∈ (omap (λ n, pair n <$> st_routes st !! (name, n)) names).*1 → x ∈ names) as Hin.
    { intros x ([x' v]&->&Hx)%list_elem_of_fmap. apply list_elem_of_omap in Hx as (y&Hy&Hd).
      apply fmap_Some in Hd as (?&_&?). by simplify_eq/=. }
    destruct (st_routes st !! (name, n)) as [v|] eqn:E; simpl; split.
    - constructor; auto.
    - intros v'. rewrite !elem_of_cons, IH2. naive_solver.
    - done.
    - intros v'. rewrite elem_of_cons, IH2. naive_solver. }
  apply option_eq. intros v. change (bt_collect_from [] l) with (bt_collect l).
  rewrite bt_get_collect, Hkl by done. split; [by intros [_ ?]|]. intros Hv. split; [|done].
  subst names. pose proof (rep_routes _ _ Hr name k) as Hs. rewrite Hv in Hs.
  destruct (rd_hashes r !! (route_key name, k)) as [bytes|] eqn:E; [|done].
  apply list_elem_of_fmap. exists (k, bytes). split; [done|]. by apply elem_of_hash_entries.
Qed.

Lemma redis_read_item name : retrieve_config_item name r = (Ok (stored_item st name), r).
Proof.
  unfold retrieve_config_item, op_bind. rewrite redis_get_gateway. unfold stored_item.
  destruct (st_gateways st !! name); [|done]. by rewrite redis_read_routes.
Qed.

Lemma redis_read_plugin id : retrieve_plugin id r = (Ok (stored_plugin st id), r).
Proof.
  cbn [retrieve_plugin redis_retrieve]. unfold hget, op_bind, op_lift. rewrite command_done. cbn [fst snd].
  pose proof (rep_plugins _ _ Hr (id_to_string id)) as Hp. unfold stored_plugin.
  destruct (rd_hashes r !! _) as [bytes|], (st_plugins st !! _) as [c|]; simpl in Hp; try done.
  rewrite Hp. unfold decode_stored_plugin_config, encode_stored_plugin_config. rewrite decide_True by reflexivity.
  rewrite config_of_json_stored. simpl. by rewrite normalize_config_idemp.
Qed.
End represented.

#[global] Instance redis_readable : Readable Redis represents.
Proof.
  split.
  - intros. by apply redis_read_item.
  - intros. by apply redis_read_routes.
  - intros. by apply redis_read_plugin.
Qed.
End redis_refines.

(** *** Writing to the Redis backend *)

Inductive Edit :=
| PutGateway (update : bool) (name : string) (g : Gateway_)
| PutRoute (update : bool) (gateway name : string) (route : Route_)
| PutPlugin (update : bool) (config : PluginConfig Json)
| DelGateway (name : string)
| DelRoute (gateway name : string)
| DelPlugin (id : PluginInstanceId).

Definition edit_event (e : Edit) : ListenEvent :=
  let put update := if update : bool then EvUpdate else EvCreate in
  match e with
  | PutGateway update name _ => MkListenEvent (put update) (CtGateway name)
  | PutRoute update gateway name _ => MkListenEvent (put update) (CtRoute gateway name)
  | PutPlugin update config => MkListenEvent (put update) (CtPlugin (cfg_id config))
  | DelGateway name => MkListenEvent EvDelete (CtGateway name)
  | DelRoute gateway name => MkListenEvent EvDelete (CtRoute gateway name)
  | DelPlugin id => MkListenEvent EvDelete (CtPlugin id)
  end.

(** What an edit means. *)
Definition edit_stored (st : Stored) (e : Edit) : Stored :=
  let 'MkStored gs rs ps := st in
  match e with
  | PutGateway _ name g => MkStored (<[name := g]> gs) rs ps
  | PutRoute _ gateway name route => MkStored gs (<[(gateway, name) := route]> rs) ps
  | PutPlugin _ config => MkStored gs rs (<[id_to_string (cfg_id config) := config]> ps)
  | DelGateway name => MkStored (delete name gs) rs ps
  | DelRoute gateway name => MkStored gs (delete (gateway, name) rs) ps
  | DelPlugin id => MkStored gs rs (delete (id_to_string id) ps)
  end.

Section edits.
Context `{!ConfigFormatLaws F}.

Definition edit_op (e : Edit) : Op Redis unit :=
  match e with
  | PutGateway false name g => create_config_item_gateway name g
  | PutGateway true name g => update_config_item_gateway name g
  | PutRoute false gateway name route => create_config_item_route gateway name route
  | PutRoute true gateway name route => update_config_item_route gateway name route
  | PutPlugin false config => create_plugin config
  | PutPlugin true config => update_plugin config
  | DelGateway name => delete_config_item_gateway name
  | DelRoute gateway name => delete_config_item_route gateway name
  | DelPlugin id => delete_plugin id
  end.

(** The format has a text for what is put. *)
Definition storable (e : Edit) : Prop :=
  match e with
  | PutGateway _ _ g => storable_gateway g ∧ ∃ bytes, ser_gateway g = Ok bytes
  | PutRoute _ _ _ route => storable_route route ∧ ∃ bytes, ser_route route = Ok bytes
  | PutPlugin _ config => ∃ bytes, ser_value (encode_stored_plugin_config config) = Ok bytes
  | DelGateway _ | DelRoute _ _ | DelPlugin _ => True
  end.

(** One entry of the hashes is written or deleted. *)
Definition change (h : gmap (string * string) Bytes) (k : string * string) (o : option Bytes) :
  gmap (string * string) Bytes := match o with Some v => <[k := v]> h | None => delete k h end.

Lemma lookup_change h k o k' : change h k o !! k' = if decide (k = k') then o else h !! k'.
Proof. destruct o; simpl; case_decide; simplify_map_eq; done. Qed.

Lemma represents_gateway r st name o g :
  represents r st → stored_as de_gateway o g →
  represents (MkRedis (change (rd_hashes r) (CONF_GATEWAY_KEY, name) o) (rd_published r) [])
    (MkStored (partial_alter (λ _, g) name (st_gateways st)) (st_routes st) (st_plugins st)).
Proof.
  intros [Hl Hg Hrt Hp] Ho. split; cbn [rd_link rd_hashes st_gateways st_routes st_plugins]; [done|..].
  - intros n. rewrite lookup_change. case_decide; simplify_eq.
    + by rewrite lookup_partial_alter_eq.
    + rewrite lookup_partial_alter_ne by congruence. apply Hg.
  - intros gw n. rewrite lookup_change, decide_False; [apply Hrt|]. by intros [= ? _].
  - intros k. rewrite lookup_change, decide_False; [apply Hp|]. by intros [= ? _].
Qed.

Lemma represents_route r st gateway name o route :
  represents r st → stored_as de_route o route →
  represents (MkRedis (change (rd_hashes r) (route_key gateway, name) o) (rd_published r) [])
    (MkStored (st_gateways st) (partial_alter (λ _, route) (gateway, name) (st_routes st)) (st_plugins st)).
Proof.
  intros [Hl Hg Hrt Hp] Ho. split; cbn [rd_link rd_hashes st_gateways st_routes st_plugins]; [done|..].
  - intros n. rewrite lookup_change, decide_False; [apply Hg|]. by intros [= ? _].
  - intros gw n. rewrite lookup_change. case_decide as Hk.
    + injection Hk as -> ->. by rewrite lookup_partial_alter_eq.
    + rewrite lookup_partial_alter_ne by congruence. apply Hrt.
  - intros k. rewrite lookup_change, decide_False; [apply Hp|]. by intros [= ? _].
Qed.

Lemma represents_plugin r st key o c :
  represents r st → stored_as de_value o (encode_stored_plugin_config <$> c) →
  represents (MkRedis (change (rd_hashes r) (CONF_PLUGIN_KEY, key) o) (rd_published r) [])
    (MkStored (st_gateways st) (st_routes st) (partial_alter (λ _, c) key (st_plugins st))).
Proof.
  intros [Hl Hg Hrt Hp] Ho. split; cbn [rd_link rd_hashes st_gateways st_routes st_plugins]; [done|..].
  - intros n. rewrite lookup_change, decide_False; [apply Hg|]. by intros [= ? _].
  - intros gw n. rewrite lookup_change, decide_False; [apply Hrt|]. by intros [= ? _].
  - intros k. rewrite lookup_change. case_decide; simplify_eq.
    + by rewrite lookup_partial_alter_eq.
    + rewrite lookup_partial_alter_ne by congruence. apply Hp.
Qed.

(** One edit, through a connection that works. *)
Lemma edit_op_represents r st e :
  represents r st → storable e →
  ∃ r', edit_op e r = (Ok (), r') ∧ represents r' (edit_stored st e) ∧
    rd_published r' = rd_published r ++ [redis_event_to_string (edit_event e)].
Proof.
  intros Hr He. pose proof (rep_link _ _ Hr) as Hl. destruct r as [h p l]; simpl in Hl; subst l.
  assert (∀ o k ev r', represents (MkRedis (change h k o) p []) r' →
    represents (MkRedis (change h k o) (p ++ [ev]) []) r') as Hpub.
  { intros o k ev r' [? ? ? ?]. by split. }
  destruct st as [gs rs ps].
  destruct e as [[] name g|[] gateway name route|[] c|name|gateway name|id]; simpl in He.
  1, 2: destruct He as [Hs [bytes Hb]]; cbn; unfold put_gateway, op_bind, op_lift; rewrite Hb; cbn;
    eexists; split_and!; [reflexivity| |reflexivity];
    apply (Hpub (Some bytes)), (represents_gateway _ _ _ _ (Some g) Hr); simpl; by apply de_ser_gateway.
  1, 2: destruct He as [Hs [bytes Hb]]; cbn; unfold put_route, op_bind, op_lift; rewrite Hb; cbn;
    eexists; split_and!; [reflexivity| |reflexivity];
    apply (Hpub (Some bytes)), (represents_route _ _ _ _ _ (Some route) Hr); simpl; by apply de_ser_route.
  1, 2: destruct He as [bytes Hb]; cbn -[encode_stored_plugin_config]; unfold put_plugin, op_bind, op_lift; rewrite Hb; cbn;
    eexists; split_and!; [reflexivity| |reflexivity];
    apply (Hpub (Some bytes)), (represents_plugin _ _ _ _ (Some c) Hr); simpl; by apply de_ser_value.
  - eexists. split_and!; [reflexivity| |reflexivity].
    by apply (Hpub None), (represents_gateway _ _ _ None None Hr).
  - eexists. split_and!; [reflexivity| |reflexivity].
    by apply (Hpub None), (represents_route _ _ _ _ None None Hr).
  - eexists. split_and!; [reflexivity| |reflexivity].
    by apply (Hpub None), (represents_plugin _ _ _ None None Hr).
Qed.
End edits.

Definition redis_empty `{ConfigFormat} : Redis := MkRedis ∅ [] [].
Lemma represents_empty `{ConfigFormat} : represents redis_empty stored_empty.
Proof. split; [done|..]; intros; simpl; by rewrite !lookup_empty. Qed.

(** A reference format: the value itself. *)
Inductive ref_bytes := RefGateway (g : Gateway_) | RefRoute (r : Route_) | RefValue (v : Json).
#[export] Instance ref_format : ConfigFormat := {|
  Bytes := ref_bytes;
  ser_gateway g := Ok (RefGateway g);
  de_gateway b := match b with RefGateway g => Ok g | _ => Err "not a gateway" end;
  ser_route r := Ok (RefRoute r);
  de_route b := match b with RefRoute r => Ok r | _ => Err "not a route" end;
  ser_value v := Ok (RefValue v);
  de_value b := match b with RefValue v => Ok v | _ => Err "not a value" end;
|}.
#[export] Instance ref_format_laws : ConfigFormatLaws ref_format.
Proof. split; simpl; [intros ?? _ [= <-]|intros ?? _ [= <-]|intros ?? [= <-]]; done. Qed.

Definition ex_http_route (name : string) : Route_ := RouteHttp (MkSgHttpRoute name None [] [] 1).
Definition ex_gateway : Gateway_ := MkSgGateway "gw" parameters_default [] [].
Definition ex_memory : Memory :=
  MkConfig [("gw", MkItem ex_gateway [("a", ex_http_route "a"); ("b", ex_http_route "b")])] ∅ (Some 9876%Z) observability_default.

(** ** Properties *)

(** A stored plugin configuration is read back with the identity it is stored under
    and a trimmed display name, whichever backend reads it. A value without the mark of
    the format is a bare specification, or, where the backend accepts it and it parses, a
    whole configuration of an older version. *)
Theorem stored_plugin_roundtrip (id : PluginInstanceId) (c : PluginConfig Json) legacy :
  decode_stored_plugin_config id (encode_stored_plugin_config c) legacy =
    Ok (normalize_config (set_config_id id c)) ∧
  ∀ v, json_str_field "_spacegate_format" v ≠ Some PLUGIN_CONFIG_FORMAT →
    decode_stored_plugin_config id v legacy =
    match config_of_json v with
    | Some old => if legacy then Ok (normalize_config (set_config_id id old)) else Ok (config_new id v)
    | None => Ok (config_new id v)
    end.
Proof.
  split.
  - unfold decode_stored_plugin_config, encode_stored_plugin_config.
    rewrite decide_True by reflexivity.
    rewrite config_of_json_stored. simpl. by rewrite normalize_config_idemp.
  - intros v Hv. unfold decode_stored_plugin_config. rewrite decide_False by done.
    destruct legacy, (config_of_json v); reflexivity.
Qed.

(** An event published on the Redis channel is received unchanged exactly if its
    names have no slash, a named instance has a name, and it is about neither a mono
    plugin instance nor the whole configuration; any other event is rejected by the
    listener's parser, never taken for a different one. *)
Theorem event_roundtrip (e : ListenEvent) :
  (config_type_ok (ev_config e) → redis_event_from_str (redis_event_to_string e) = Ok e) ∧
  (¬ config_type_ok (ev_config e) → ∃ err, redis_event_from_str (redis_event_to_string e) = Err err).
Proof.
  destruct e as [t c]. unfold redis_event_from_str, redis_event_to_string. cbn [ev_type ev_config].
  change (event_type_to_string t +:+ "/" +:+ config_type_to_string c)
    with (event_type_to_string t +:+ String "/" (config_type_to_string c)).
  rewrite (proj2 (str_split_once_Some "/" _ (event_type_to_string t) (config_type_to_string c)))
    by (split; [done|by destruct t]).
  rewrite event_type_roundtrip. destruct (config_type_roundtrip c) as [Hok Herr]. split.
  - intros Hc. by rewrite Hok.
  - intros Hc. destruct (Herr Hc) as [err ->]. by exists err.
Qed.

Lemma event_roundtrip_witness :
  let e := MkListenEvent EvUpdate (CtPlugin (MkPluginId "limit" (Named "main"))) in
  let mono := MkListenEvent EvUpdate (CtPlugin (MkPluginId "limit" Mono)) in
  redis_event_from_str (redis_event_to_string e) = Ok e ∧
  ∃ err, redis_event_from_str (redis_event_to_string mono) = Err err.
Proof.
  intros e mono. split.
  - apply (proj1 (event_roundtrip e)). cbn. by split_and!.
  - apply (proj2 (event_roundtrip mono)). cbn. tauto.
Defined.

(** The in-memory backend returns the gateways, routes and plugins it was given; the
    port of the interface and the observability settings are not part of what a backend
    returns. *)
Theorem memory_retrieve_config (m : Memory)
  (Hgateways : bt_sorted (c_gateways m))
  (Hroutes : Forall (λ ki, bt_sorted (ci_routes ki.2)) (c_gateways m)) :
  retrieve_config m = (Ok (MkConfig (c_gateways m) (c_plugins m) None observability_default), m).
Proof.
  assert (Hitem : ∀ name, retrieve_config_item name m = (Ok (bt_get name (c_gateways m)), m)).
  { intros name. unfold retrieve_config_item. unfold op_bind at 1. cbn [retrieve_config_item_gateway memory_retrieve memory_get].
    destruct (bt_get name (c_gateways m)) as [[g rs]|] eqn:E; [|done]. cbn [fmap option_fmap option_map ci_gateway].
    unfold op_bind, retrieve_config_item_all_routes, op_bind.
    cbn [retrieve_config_item_route_names memory_retrieve memory_get]. rewrite E. cbn [fmap option_fmap option_map default ci_routes].
    assert (bt_sorted rs) as Hrs.
    { apply bt_get_elem in E. rewrite Forall_forall in Hroutes. by specialize (Hroutes _ E). }
    rewrite (collect_routes_spec name (λ n, bt_get n rs)).
    - cbv beta. unfold id. rewrite omap_keys by done. unfold bt_collect_from. by rewrite bt_rebuild.
    - intros n _. cbn. unfold memory_get. by rewrite E. }
  unfold retrieve_config, op_bind. cbn [retrieve_config_names memory_retrieve memory_get].
  rewrite (collect_items_spec (λ n, bt_get n (c_gateways m))) by (intros; apply Hitem).
  cbv beta. rewrite omap_keys by done. unfold bt_collect_from. rewrite bt_rebuild by done.
  cbn [retrieve_all_plugins memory_retrieve memory_get]. unfold op_ret.
  unfold from_config_vec, into_config_vec. rewrite <- list_fmap_compose.
  do 3 f_equal. apply collect_map. generalize (map_to_list (c_plugins m)) as l. intros l.
  induction l as [|[i v] l IH]; [done|]. rewrite fmap_cons. by constructor.
Qed.

Lemma memory_retrieve_config_witness :
  retrieve_config ex_memory = (Ok (MkConfig (c_gateways ex_memory) ∅ None observability_default), ex_memory).
Proof. apply (memory_retrieve_config ex_memory); repeat constructor. Defined.

(** C6: through a working connection, any sequence of edits of the Redis backend
    succeeds, publishes exactly one event for each edit, in order, and leaves a state from
    which gateways with their routes, and plugins, are read back as the edits define
    them. *)
Theorem redis_edits_refine `{!ConfigFormatLaws F} r st edits
  (Hr : represents r st) (Hedits : Forall storable edits) :
  let st' := foldl edit_stored st edits in
  ∃ r', op_for edit_op edits r = (Ok (), r') ∧ represents r' st' ∧
    rd_published r' = rd_published r ++ (redis_event_to_string ∘ edit_event <$> edits) ∧
    (∀ name, retrieve_config_item name r' = (Ok (stored_item st' name), r')) ∧
    (∀ id, retrieve_plugin id r' = (Ok (stored_plugin st' id), r')).
Proof.
  enough (∃ r', op_for edit_op edits r = (Ok (), r') ∧ represents r' (foldl edit_stored st edits) ∧
    rd_published r' = rd_published r ++ (redis_event_to_string ∘ edit_event <$> edits)) as (r'&?&?&?).
  { exists r'. split_and!; [done..|intros; by apply read_item|intros; by apply read_plugin]. }
  revert r st Hr. induction Hedits as [|e edits He Hedits IH]; intros r st Hr.
  - exists r. split_and!; [done..|]. by rewrite app_nil_r.
  - destruct (edit_op_represents r st e Hr He) as (r1&Hop&Hr1&Hp1).
    destruct (IH r1 (edit_stored st e) Hr1) as (r'&Hop'&Hr'&Hp').
    exists r'. split_and!; [|done|].
    + cbn [op_for]. unfold op_bind. by rewrite Hop.
    + rewrite Hp', Hp1, fmap_cons, <- app_assoc. done.
Qed.

Lemma redis_edits_refine_witness :
  let edits := [PutRoute false "gw" "b" (ex_http_route "b"); PutGateway false "gw" ex_gateway;
                PutRoute false "gw" "a" (ex_http_route "a"); DelRoute "gw" "b"] in
  let st' := foldl edit_stored stored_empty edits in
  stored_item st' "gw" = Some (MkItem ex_gateway [("a", ex_http_route "a")]) ∧
  ∃ r', op_for edit_op edits (redis_empty (H:=ref_format)) = (Ok (), r') ∧
    retrieve_config_item "gw" r' = (Ok (stored_item st' "gw"), r').
Proof.
  intros edits st'. split; [vm_compute; reflexivity|].
  destruct (redis_edits_refine (F:=ref_format) redis_empty stored_empty edits) as (r'&Hop&_&_&Hitem&_).
  - apply represents_empty.
  - repeat constructor; eexists; reflexivity.
  - exists r'. split; [exact Hop|apply Hitem].
Defined.
