(* ===== verification/FsConfig.v ===== *)
(** * The file backend

    [crates/config/src/service/fs]: a configuration as a directory tree with one file for
    the main settings, one for each gateway, route and plugin. Edits of gateways and routes
    read the whole tree, clear it and write it again; edits of plugins write one file.

    A path is its list of components below the configuration's directory, as
    [Path::components] gives them: empty and [.] components are dropped, an absolute name
    begins with the component [/]. The tree is the state of the file system, without
    links: [..] is a name that no entry has, and the theorems are about names without it.
    Each operation on the file system fails if the next of [tr_faults] says so, and has no
    effect then. Directories and maps are visited in any order ([visit]). *)

From S2P Require Export ConfigService.
Local Open Scope string_scope.
Local Open Scope list_scope.
Local Open Scope nat_scope.

(** ** Paths *)

Notation Path := (list string).

Definition components (s : string) : Path := filter (λ c, c ≠ "" ∧ c ≠ ".") (str_split "/" s).
Definition join (p : Path) (s : string) : Path :=
  if starts_with s "/" then "/" :: components s else p ++ components s.
Definition file_name (p : Path) : option string :=
  n ← last p; if decide (n = ".." ∨ n = "/") then None else Some n.
(** A file name split at its last dot, unless that is its first character. *)
Definition stem_ext (n : string) : string * option string :=
  match str_rsplit_once "." n with
  | Some (stem, ext) => if str_is_empty stem then (n, None) else (stem, Some ext)
  | None => (n, None)
  end.
Definition file_stem (p : Path) : option string := (λ n, (stem_ext n).1) <$> file_name p.
Definition extension (p : Path) : option string := n ← file_name p; (stem_ext n).2.
Definition dotted (stem ext : string) : string := if str_is_empty ext then stem else stem +:+ "." +:+ ext.
Definition with_extension (p : Path) (ext : string) : Path :=
  match file_stem p with Some stem => removelast p ++ [dotted stem ext] | None => p end.
Definition parent (p : Path) : option Path := if decide (p = []) then None else Some (removelast p).

(** ** The file system *)

Inductive IoKind := IoNotFound | IoOther.

(** The files of a configuration: their extension and their other values; messages of the
    system; and the order in which a directory or a map is visited. *)
Class FsLib `{ConfigFormat} := {
  fs_extension : string;
  ser_main : Config Json → result Bytes string;
  de_main : Bytes → result (Config Json) string;
  ser_item : Item_ → result Bytes string;
  de_item : Bytes → result Item_ string;
  io_message : IoKind → string;
  visit {A} : list A → list A;
}.

Section tree.
Context `{FsLib}.

Record Tree := MkTree { tr_files : gmap Path Bytes; tr_dirs : gset Path; tr_faults : list bool }.
Notation Io A := (OpE Tree IoKind A).

Definition set_files f (t : Tree) : Tree := MkTree f (tr_dirs t) (tr_faults t).
Definition set_dirs d (t : Tree) : Tree := MkTree (tr_files t) d (tr_faults t).

(** An operation that may fail. *)
Definition io {A} (f : Tree → result A IoKind * Tree) : Io A := λ t,
  match tr_faults t with
  | [] => f t
  | fault :: faults =>
      let t := MkTree (tr_files t) (tr_dirs t) faults in
      if fault : bool then (Err IoOther, t) else f t
  end.
Definition io_op {A} (m : Io A) : Op Tree A := λ t,
  match m t with (Ok a, t) => (Ok a, t) | (Err k, t) => (Err (io_message k), t) end.

Definition is_file (p : Path) (t : Tree) : bool := bool_decide (is_Some (tr_files t !! p)).
Definition is_dir (p : Path) (t : Tree) : bool := bool_decide (p ∈ tr_dirs t).
Definition exists_path (p : Path) (t : Tree) : bool := is_file p t || is_dir p t.
Definition query {A} (f : Tree → A) : Op Tree A := λ t, (Ok (f t), t).


Definition prefixes (p : Path) : list Path := (λ n, take n p) <$> seq 0 (S (length p)).
(** Why a path is not what an operation needs: it is of the other kind, it leads through a
    file, or it does not exist. *)
Definition missing (p : Path) (t : Tree) : IoKind :=
  if exists_path p t || existsb (λ q, is_file q t) (prefixes p) then IoOther else IoNotFound.

Definition fs_read (p : Path) : Io Bytes := io (λ t,
  (match tr_files t !! p with Some b => Ok b | None => Err (missing p t) end, t)).
Definition fs_write (p : Path) (b : Bytes) : Io unit := io (λ t,
  if negb (is_dir (removelast p) t) then (Err (missing (removelast p) t), t)
  else if is_dir p t then (Err IoOther, t)
  else (Ok (), set_files (<[p := b]> (tr_files t)) t)).
Definition fs_create_dir_all (p : Path) : Io unit := io (λ t,
  if existsb (λ q, is_file q t) (prefixes p) then (Err IoOther, t)
  else (Ok (), set_dirs (list_to_set (prefixes p) ∪ tr_dirs t) t)).
Definition fs_remove_file (p : Path) : Io unit := io (λ t,
  if is_file p t then (Ok (), set_files (delete p (tr_files t)) t) else (Err (missing p t), t)).
Definition below (p q : Path) : Prop := take (length p) q = p.
#[global] Instance below_dec p q : Decision (below p q).
Proof. unfold below. apply _. Defined.
Definition fs_remove_dir_all (p : Path) : Io unit := io (λ t,
  if is_dir p t
  then (Ok (), MkTree (filter (λ kv, ¬ below p kv.1) (tr_files t)) (filter (λ q, ¬ below p q) (tr_dirs t)) (tr_faults t))
  else (Err (missing p t), t)).
(** The names of the entries of a directory. *)
Definition child_of (p q : Path) : option string :=
  if decide (q ≠ [] ∧ removelast q = p) then last q else None.
Definition children (p : Path) (t : Tree) : list string :=
  elements (list_to_set (omap (child_of p) ((map_to_list (tr_files t)).*1 ++ elements (tr_dirs t))) : gset string).
Definition fs_read_dir (p : Path) : Io (list string) := io (λ t,
  if is_dir p t then (Ok (visit (children p t)), t) else (Err (missing p t), t)).

(** ** The layout: [mod.rs] *)

Definition GATEWAY_DIR : string := "gateway".
Definition ROUTE_DIR : string := "route".
Definition PLUGIN_DIR : string := "plugin".
Definition MODULE_FILE_NAME : string := "config".

Definition entrance_config_path : Path := with_extension (join [] MODULE_FILE_NAME) fs_extension.
Definition gateway_dir : Path := join [] GATEWAY_DIR.
Definition gateway_main_config_path (gateway_name : string) : Path :=
  with_extension (join (join gateway_dir gateway_name) MODULE_FILE_NAME) fs_extension.
Definition routes_dir (gateway_name : string) : Path := join (join gateway_dir gateway_name) ROUTE_DIR.
Definition route_path (gateway_name route_name : string) : Path :=
  with_extension (join (routes_dir gateway_name) route_name) fs_extension.
Definition plugin_dir : Path := join [] PLUGIN_DIR.
Definition plugin_path (id : PluginInstanceId) : Path :=
  join plugin_dir (as_file_stem id +:+ "." +:+ fs_extension).

Definition extract_gateway_name_from_route_dir (p : Path) : option string :=
  ext ← extension p; if decide (ext = ROUTE_DIR) then file_stem p else None.
Definition extract_route_name (p : Path) : option (string * string) :=
  up ← parent p;
  gateway_name ← extract_gateway_name_from_route_dir up;
  ext ← extension p;
  if decide (ext = fs_extension) then route_name ← file_stem p; Some (gateway_name, route_name) else None.

(** ** Reading *)

Definition read_plugin_config (id : PluginInstanceId) : Op Tree (option (PluginConfig Json)) := λ t,
  match fs_read (plugin_path id) t with
  | (Ok bytes, t) =>
      op_bind (op_lift (de_value bytes)) (λ value,
      op_bind (op_lift (decode_stored_plugin_config id value false)) (λ config,
      op_ret (Some config))) t
  | (Err IoNotFound, t) => (Ok None, t)
  | (Err k, t) => (Err (io_message k), t)
  end.

(** One entry of the plugin directory; [None] is one that is skipped. *)
Definition collect_plugin_entry (name : string) : Op Tree (option (PluginConfig Json)) :=
  let path := plugin_dir ++ [name] in
  do file <- query (is_file path);
  if negb file || negb (bool_decide (extension path = Some fs_extension)) then op_ret None
  else match file_stem path with
       | None => op_ret None
       | Some stem =>
           let id := from_file_stem stem in
           do bytes <- io_op (fs_read path);
           do value <- op_lift (de_value bytes);
           do config <- op_lift (decode_stored_plugin_config id value false);
           op_ret (Some config)
       end.
Definition collect_plugin_configs : Op Tree (list (PluginConfig Json)) := λ t,
  match fs_read_dir plugin_dir t with
  | (Err _, t) => (Ok [], t)
  | (Ok names, t) =>
      op_bind (op_map collect_plugin_entry names) (λ found, op_ret (omap id found)) t
  end.

(** One entry of a route directory: a file that does not parse is skipped. *)
Definition collect_route_entry (gateway_name name : string) : Op Tree (option (string * Route_)) :=
  let path := routes_dir gateway_name ++ [name] in
  do file <- query (is_file path);
  if negb file || negb (bool_decide (extension path = Some fs_extension)) then op_ret None
  else match file_stem path with
       | None => op_ret None
       | Some route_name =>
           do bytes <- io_op (fs_read path);
           op_ret (match de_route bytes with Ok route => Some (route_name, route) | Err _ => None end)
       end.
Definition collect_gateway_item_config (gateway_name : string) : Op Tree (option Item_) :=
  do main <- query (exists_path (gateway_main_config_path gateway_name));
  let main_config_path :=
    if main then gateway_main_config_path gateway_name
    else with_extension (join gateway_dir gateway_name) fs_extension in
  do found <- query (exists_path main_config_path);
  if negb found then op_ret None
  else
    do bytes <- io_op (fs_read main_config_path);
    do item <- op_lift (de_item bytes);
    do has_routes <- query (exists_path (routes_dir gateway_name));
    if negb has_routes then op_ret (Some item)
    else
      do names <- io_op (fs_read_dir (routes_dir gateway_name));
      do routes <- op_map (collect_route_entry gateway_name) names;
      op_ret (Some (MkItem (ci_gateway item) (bt_collect_from (ci_routes item) (omap id routes)))).

(** The names the entries of the gateway directory stand for. *)
Definition gateway_entry (t : Tree) (name : string) : option string :=
  let path := gateway_dir ++ [name] in
  if (is_file path t && bool_decide (extension path = Some fs_extension)) || is_dir path t then file_stem path else None.
Definition gateway_names : Op Tree (list string) := λ t,
  match fs_read_dir gateway_dir t with
  | (Err _, t) => (Ok [], t)
  | (Ok names, t) => (Ok (visit (elements (list_to_set (omap (gateway_entry t) names) : gset string))), t)
  end.
(** A gateway that cannot be read is skipped. *)
Definition collect_gateway (gateway_name : string) : Op Tree (option (string * Item_)) := λ t,
  match collect_gateway_item_config gateway_name t with
  | (Ok (Some item), t) => (Ok (Some (gateway_name, item)), t)
  | (_, t) => (Ok None, t)
  end.

Definition collect_config : Op Tree (Config Json) :=
  do bytes <- io_op (fs_read entrance_config_path);
  do main <- op_lift (de_main bytes);
  do found <- collect_plugin_configs;
  let plugins := foldl (λ m c, <[cfg_id c := cfg_spec c]> m) (c_plugins main) found in
  do names <- gateway_names;
  do items <- op_map collect_gateway names;
  op_ret (MkConfig (bt_collect_from (c_gateways main) (omap id items)) plugins (c_api_port main) (c_observability main)).

(** ** Writing *)

Definition main_config (config : Config Json) : Config Json :=
  MkConfig [] ∅ (c_api_port config) (c_observability config).
Definition save_route (gateway_name : string) (kr : string * Route_) : Op Tree unit :=
  do bytes <- op_lift (ser_route kr.2);
  io_op (fs_write (route_path gateway_name kr.1) bytes).
Definition save_gateway (ki : string * Item_) : Op Tree unit :=
  let '(gateway_name, item) := ki in
  do _ <- io_op (fs_create_dir_all (join gateway_dir gateway_name));
  do bytes <- op_lift (ser_item (MkItem (ci_gateway item) []));
  do _ <- io_op (fs_write (gateway_main_config_path gateway_name) bytes);
  do _ <- io_op (fs_create_dir_all (routes_dir gateway_name));
  op_for (save_route gateway_name) (ci_routes item).
Definition save_spec (kv : PluginInstanceId * Json) : Op Tree unit :=
  do bytes <- op_lift (ser_value kv.2);
  io_op (fs_write (plugin_path kv.1) bytes).
Definition save_config (config : Config Json) : Op Tree unit :=
  do bytes <- op_lift (ser_main (main_config config));
  do _ <- io_op (fs_write entrance_config_path bytes);
  do _ <- (if decide (c_plugins config = ∅) then op_ret ()
           else do _ <- io_op (fs_create_dir_all plugin_dir);
                op_for save_spec (visit (map_to_list (c_plugins config))));
  op_for save_gateway (c_gateways config).

Definition write_plugin_config (config : PluginConfig Json) : Op Tree unit :=
  do bytes <- op_lift (ser_value (encode_stored_plugin_config config));
  io_op (fs_write (plugin_path (cfg_id config)) bytes).
Definition save_plugin_configs (plugins : list (PluginConfig Json)) : Op Tree unit :=
  if decide (plugins = []) then op_ret ()
  else do _ <- io_op (fs_create_dir_all plugin_dir);
       op_for write_plugin_config plugins.

Definition clear_entry (name : string) : Op Tree unit :=
  do dir <- query (is_dir [name]);
  if dir : bool then io_op (fs_remove_dir_all [name]) else io_op (fs_remove_file [name]).
Definition clear_config_dir : Op Tree unit :=
  do _ <- io_op (fs_create_dir_all []);
  do names <- io_op (fs_read_dir []);
  op_for clear_entry names.

Definition retrieve_cached {T} (map : Config Json → T) : Op Tree T :=
  do config <- collect_config; op_ret (map config).

(** The plugins of a configuration with the display names that were stored. *)
Definition with_display_names (plugins : PluginInstanceMap Json) (stored : list (PluginConfig Json))
  : list (PluginConfig Json) :=
  let display_names : gmap PluginInstanceId (option string) := collect ((λ c, (cfg_id c, cfg_display_name c)) <$> stored) in
  (λ kv, MkPluginConfig kv.1 (mjoin (display_names !! kv.1)) kv.2) <$> visit (map_to_list plugins).
Definition modify_cached (map : Config Json → result (Config Json) string) : Op Tree unit :=
  do stored <- collect_plugin_configs;
  do config <- collect_config;
  do config <- op_lift (map config);
  do _ <- clear_config_dir;
  do _ <- save_config config;
  save_plugin_configs (with_display_names (c_plugins config) stored).

(** ** Edits: [create.rs], [update.rs], [delete.rs] *)

Definition set_gateways (gateways : list (string * Item_)) (config : Config Json) : Config Json :=
  MkConfig gateways (c_plugins config) (c_api_port config) (c_observability config).
Definition set_item (name : string) (item : Item_) (config : Config Json) : Config Json :=
  set_gateways (bt_insert name item (c_gateways config)) config.
(** [config.gateways.get_mut(name)] and what is done with it. *)
Definition with_item (name : string) (absent : result (Config Json) string) (f : Item_ → result Item_ string)
    (config : Config Json) : result (Config Json) string :=
  match bt_get name (c_gateways config) with
  | Some item => result_map (λ item, set_item name item config) (f item)
  | None => absent
  end.

Definition bt_remove {V} (k : string) (m : list (string * V)) : list (string * V) := filter (λ kv, kv.1 ≠ k) m.

Definition fs_create_plugin (config : PluginConfig Json) : Op Tree unit :=
  do existed <- query (exists_path (plugin_path (cfg_id config)));
  if existed : bool then op_lift (Err "plugin existed")
  else
    do _ <- io_op (fs_create_dir_all plugin_dir);
    write_plugin_config config.
Definition fs_create_config_item (gateway_name : string) (item : Item_) : Op Tree unit := modify_cached (λ config,
  match bt_get gateway_name (c_gateways config) with
  | Some _ => Err "item existed"
  | None => Ok (set_item gateway_name item config)
  end).
Definition fs_create_config_item_gateway (gateway_name : string) (gateway : Gateway_) : Op Tree unit :=
  fs_create_config_item gateway_name (MkItem gateway []).
(** The source looks the gateway's name up among the routes. *)
Definition fs_create_config_item_route (gateway_name route_name : string) (route : Route_) : Op Tree unit :=
  modify_cached (λ config, with_item gateway_name (Err "gateway not exists") (λ item,
    match bt_get gateway_name (ci_routes item) with
    | Some _ => Err "route existed"
    | None => Ok (MkItem (ci_gateway item) (bt_insert route_name route (ci_routes item)))
    end) config).

Definition fs_update_plugin (config : PluginConfig Json) : Op Tree unit :=
  do _ <- io_op (fs_create_dir_all plugin_dir);
  write_plugin_config config.
Definition fs_update_config_item_gateway (gateway_name : string) (gateway : Gateway_) : Op Tree unit :=
  modify_cached (with_item gateway_name (Err "item not exists") (λ item, Ok (MkItem gateway (ci_routes item)))).
Definition fs_update_config_item_route (gateway_name route_name : string) (route : Route_) : Op Tree unit :=
  modify_cached (with_item gateway_name (Err "item not exists") (λ item,
    match bt_get route_name (ci_routes item) with
    | Some _ => Ok (MkItem (ci_gateway item) (bt_insert route_name route (ci_routes item)))
    | None => Err "route not exists"
    end)).
Definition fs_update_config_item (gateway_name : string) (item : Item_) : Op Tree unit :=
  modify_cached (with_item gateway_name (Err "item not exists") (λ _, Ok item)).
Definition fs_update_config (config : Config Json) : Op Tree unit := modify_cached (λ _, Ok config).

Definition fs_delete_plugin (id : PluginInstanceId) : Op Tree unit := λ t,
  match fs_remove_file (plugin_path id) t with
  | (Err IoNotFound, t) => (Ok (), t)
  | (Err k, t) => (Err (io_message k), t)
  | (Ok _, t) => (Ok (), t)
  end.
Definition fs_delete_config_item_gateway (gateway_name : string) : Op Tree unit :=
  modify_cached (λ config, Ok (set_gateways (bt_remove gateway_name (c_gateways config)) config)).
Definition fs_delete_config_item_route (gateway_name route_name : string) : Op Tree unit :=
  modify_cached (λ config, with_item gateway_name (Ok config)
    (λ item, Ok (MkItem (ci_gateway item) (bt_remove route_name (ci_routes item)))) config).
Definition fs_delete_config_item (gateway_name : string) : Op Tree unit := fs_delete_config_item_gateway gateway_name.
Definition fs_delete_config_item_all_routes (gateway_name : string) : Op Tree unit :=
  modify_cached (λ config, with_item gateway_name (Ok config) (λ item, Ok (MkItem (ci_gateway item) [])) config).

#[global] Instance fs_create : Create Tree := {|
  create_config_item_gateway := fs_create_config_item_gateway;
  create_config_item_route := fs_create_config_item_route;
  create_plugin := fs_create_plugin;
|}.
#[global] Instance fs_update : Update Tree := {|
  update_config_item_gateway := fs_update_config_item_gateway;
  update_config_item_route := fs_update_config_item_route;
  update_plugin := fs_update_plugin;
|}.
#[global] Instance fs_delete : Delete Tree := {|
  delete_config_item_gateway := fs_delete_config_item_gateway;
  delete_config_item_route := fs_delete_config_item_route;
  delete_plugin := fs_delete_plugin;
|}.

(** ** Reading: [retrieve.rs], [discovery.rs], [listen.rs] *)

#[global] Instance fs_retrieve : Retrieve Tree := {|
  retrieve_config_item_gateway gateway_name :=
    retrieve_cached (λ cfg, ci_gateway <$> bt_get gateway_name (c_gateways cfg));
  retrieve_config_item_route gateway_name route_name :=
    retrieve_cached (λ cfg, item ← bt_get gateway_name (c_gateways cfg); bt_get route_name (ci_routes item));
  retrieve_config_item_route_names name :=
    retrieve_cached (λ cfg, default [] ((λ item, (ci_routes item).*1) <$> bt_get name (c_gateways cfg)));
  retrieve_config_names := retrieve_cached (λ cfg, (c_gateways cfg).*1);
  retrieve_all_plugins := collect_plugin_configs;
  retrieve_plugin := read_plugin_config;
  retrieve_plugins_by_code code :=
    do found <- collect_plugin_configs; op_ret (filter (λ c, id_code (cfg_id c) = code) found);
|}.
Definition fs_retrieve_config : Op Tree (Config Json) := retrieve_cached id.

(** The instances the backend discovers: the port of the interface on this host. *)
Definition fs_instances : Op Tree (list string) :=
  retrieve_cached (λ c, option_list ((λ port, "localhost:" +:+ dec_string port) <$> c_api_port c)).

(** A hang-up signal is an update of everything. *)
Definition fs_poll_next (signal : Poll (option ())) : Poll (result ListenEvent string) :=
  match signal with
  | Ready (Some _) => Ready (Ok (MkListenEvent EvUpdate CtGlobal))
  | Ready None | Pending => Pending
  end.
Definition fs_create_listener : Op Tree (Config Json) := fs_retrieve_config.
End tree.
