(* ===== verification/FsRefine.v ===== *)
(** * What the file backend stores

    The layout of the tree of [FsConfig]: which files and directories a saved configuration
    has, what is read back from them, and with that what an edit does to the configuration
    that is stored, whatever tree it starts from. *)

From S2P Require Export FsConfig.
Local Open Scope string_scope.
Local Open Scope list_scope.
Local Open Scope nat_scope.

(** ** Lemmas: paths *)

Definition plain (s : string) : Prop := s ≠ "" ∧ no_char "." s ∧ no_char "/" s.

Lemma components_one s : s ≠ "" → s ≠ "." → no_char "/" s → components s = [s].
Proof. intros He Hd Hs. unfold components. rewrite str_split_no_char by done. by rewrite filter_cons_True. Qed.
Lemma join_one p s : s ≠ "" → s ≠ "." → no_char "/" s → join p s = p ++ [s].
Proof.
  intros He Hd Hs. unfold join. rewrite components_one by done.
  replace (starts_with s "/") with false; [done|]. destruct s as [|a s]; [done|].
  apply no_char_cons in Hs as [Ha _]. unfold starts_with. simpl. by rewrite decide_False by congruence.
Qed.
Lemma plain_ne_dot s : plain s → s ≠ "." ∧ s ≠ ".." ∧ s ≠ "/".
Proof.
  intros (_&Hd&Hs). split_and!; intros ->; [by apply no_char_cons in Hd as [? _]..|by apply no_char_cons in Hs as [? _]].
Qed.
Lemma join_plain p s : plain s → join p s = p ++ [s].
Proof. intros Hs. destruct (plain_ne_dot _ Hs) as (?&_&_). destruct Hs as (?&?&?). by apply join_one. Qed.

Lemma stem_ext_dot stem ext : stem ≠ "" → no_char "." ext → stem_ext (stem +:+ "." +:+ ext) = (stem, Some ext).
Proof.
  intros Hs He. unfold stem_ext. change ("." +:+ ext) with (String "." ext).
  rewrite str_rsplit_once_app by done. by destruct stem.
Qed.
Lemma stem_ext_Some n stem ext : stem_ext n = (stem, Some ext) → n = stem +:+ "." +:+ ext ∧ stem ≠ "".
Proof.
  unfold stem_ext. destruct (str_rsplit_once "." n) as [[s e]|] eqn:E; [|done].
  apply str_rsplit_once_Some in E as [E _]. destruct s as [|a s]; simpl; [done|]. intros [= <- <-]. by split.
Qed.
Lemma stem_ext_no_dot n : no_char "." n → stem_ext n = (n, None).
Proof. intros Hn. unfold stem_ext. by rewrite str_rsplit_once_None. Qed.

Lemma last_app_one {A} (p : list A) n : last (p ++ [n]) = Some n.
Proof. apply last_snoc. Qed.
Lemma removelast_app_one {A} (p : list A) n : removelast (p ++ [n]) = p.
Proof. apply removelast_last. Qed.

Lemma bt_get_app `{EqDecision K} {V} (k : K) (m m' : list (K * V)) :
  bt_get k (m ++ m') = match bt_get k m with Some v => Some v | None => bt_get k m' end.
Proof. induction m as [|[k' v] m IH]; simpl; [done|]. by case_decide. Qed.
Lemma bt_get_None `{EqDecision K} {V} (k : K) (m : list (K * V)) : k ∉ m.*1 → bt_get k m = None.
Proof.
  induction m as [|[k' v] m IH]; simpl; [done|]. rewrite not_elem_of_cons. intros [? ?].
  rewrite decide_False by done. auto.
Qed.

(** ** Lemmas: the layout *)

(** What the formats promise for the files: the main settings and the gateways without
    their routes are read back. *)
Definition storable_main (c : Config Json) : Prop :=
  c_gateways c = [] ∧ c_plugins c = ∅ ∧ is_Some (c_api_port c) ∧ storable_observability (c_observability c).
Class FsLaws `(L : FsLib) : Prop := {
  extension_plain : plain fs_extension;
  visit_perm {A} (l : list A) : visit l ≡ₚ l;
  de_ser_main c bytes : storable_main c → ser_main c = Ok bytes → de_main bytes = Ok c;
  de_ser_item g bytes : storable_gateway g → ser_item (MkItem g []) = Ok bytes → de_item bytes = Ok (MkItem g []);
}.

Section layout.
Context `{F : ConfigFormat} `{L : !FsLib} `{!FsLaws L}.
Implicit Types (t : Tree) (p q : Path).

Definition file (stem : string) : string := stem +:+ "." +:+ fs_extension.

Lemma stem_ext_file s : s ≠ "" → stem_ext (file s) = (s, Some fs_extension).
Proof. intros. apply stem_ext_dot; [done|apply extension_plain]. Qed.
Lemma file_inj s s' : s ≠ "" → s' ≠ "" → file s = file s' → s = s'.
Proof. intros Hs Hs' Heq. pose proof (stem_ext_file s Hs) as E. rewrite Heq, stem_ext_file in E by done. by simplify_eq. Qed.
Lemma file_ne s s' : no_char "." s' → file s ≠ s'.
Proof. intros Hd <-. apply no_char_app in Hd as [_ Hd]. by apply no_char_app, proj1, no_char_cons in Hd as [? _]. Qed.
Lemma file_ne_dots s : s ≠ "" → file s ≠ "" ∧ file s ≠ "." ∧ file s ≠ "..".
Proof.
  intros Hs. destruct extension_plain as (He&_&_). unfold file.
  destruct s as [|a [|b [|c s]]]; [done|..]; (destruct fs_extension; [done|]); simpl; split_and!; congruence.
Qed.

Lemma file_name_file p s : s ≠ "" → no_char "/" s → file_name (p ++ [file s]) = Some (file s).
Proof.
  intros Hs Hn. unfold file_name. rewrite last_app_one. simpl. rewrite decide_False; [done|].
  intros [Hd|Hd]; [by apply (file_ne_dots s) in Hd|].
  unfold file in Hd. destruct s as [|a s]; [done|]. injection Hd as -> _. by apply no_char_cons in Hn as [? _].
Qed.
Lemma with_extension_plain p s : plain s → with_extension (p ++ [s]) fs_extension = p ++ [file s].
Proof.
  intros Hs. destruct (plain_ne_dot _ Hs) as (_&Hdd&Hsl). unfold with_extension, file_stem, file_name.
  rewrite last_app_one. simpl. rewrite decide_False by naive_solver. simpl.
  rewrite stem_ext_no_dot, removelast_app_one by apply Hs. unfold dotted, file.
  destruct extension_plain as (He&_&_). by destruct fs_extension.
Qed.

Definition plain_const (s : string) : bool := negb (str_is_empty s) && negb (str_contains_char "." s) && negb (str_contains_char "/" s).
Lemma plain_const_plain s : plain_const s = true → plain s.
Proof.
  unfold plain_const. rewrite !andb_true_iff, !negb_true_iff. intros [[He Hd] Hs]. split_and!; [by destruct s|done..].
Qed.

Lemma entrance_eq : entrance_config_path = [file "config"].
Proof.
  unfold entrance_config_path. rewrite join_plain by by apply plain_const_plain.
  by apply (with_extension_plain []), plain_const_plain.
Qed.
Lemma gateway_dir_eq : gateway_dir = ["gateway"].
Proof. apply join_plain. by apply plain_const_plain. Qed.
Lemma plugin_dir_eq : plugin_dir = ["plugin"].
Proof. apply join_plain. by apply plain_const_plain. Qed.
Lemma gateway_path_eq g : plain g → join gateway_dir g = ["gateway"; g].
Proof. intros. rewrite gateway_dir_eq. by apply (join_plain ["gateway"]). Qed.
Lemma main_path_eq g : plain g → gateway_main_config_path g = ["gateway"; g; file "config"].
Proof.
  intros. unfold gateway_main_config_path. rewrite gateway_path_eq by done.
  rewrite join_plain by by apply plain_const_plain. by apply (with_extension_plain ["gateway"; g]), plain_const_plain.
Qed.
Lemma routes_dir_eq g : plain g → routes_dir g = ["gateway"; g; "route"].
Proof.
  intros. unfold routes_dir. rewrite gateway_path_eq by done. apply (join_plain ["gateway"; g]). by apply plain_const_plain.
Qed.
Lemma route_path_eq g r : plain g → plain r → route_path g r = ["gateway"; g; "route"; file r].
Proof.
  intros. unfold route_path. rewrite routes_dir_eq by done.
  rewrite join_plain by done. by apply (with_extension_plain ["gateway"; g; "route"]).
Qed.
Lemma plugin_path_eq id :
  as_file_stem id ≠ "" → no_char "/" (as_file_stem id) → plugin_path id = ["plugin"; file (as_file_stem id)].
Proof.
  intros Hs Hn. destruct (file_ne_dots _ Hs) as (?&?&_). unfold plugin_path. rewrite plugin_dir_eq.
  apply (join_one ["plugin"]); [done..|]. apply no_char_app. split; [done|].
  apply no_char_cons. split; [done|]. apply extension_plain.
Qed.

(** The two functions that read a route's path never recognise one of this layout. *)
Lemma extract_route_name_layout g r : plain g → plain r → extract_route_name (route_path g r) = None.
Proof. intros. by rewrite route_path_eq. Qed.

(** What is looked up under the stem of a file with the extension of the format. *)
Definition by_stem {A} (look : string → option A) (f : string) : option A :=
  match stem_ext f with
  | (s, Some e) => if decide (e = fs_extension) then look s else None
  | _ => None
  end.
Lemma by_stem_file {A} (look : string → option A) s : s ≠ "" → by_stem look (file s) = look s.
Proof. intros. unfold by_stem. rewrite stem_ext_file by done. by rewrite decide_True. Qed.
Lemma by_stem_Some {A} (look : string → option A) f a :
  by_stem look f = Some a → ∃ s, s ≠ "" ∧ f = file s ∧ look s = Some a.
Proof.
  unfold by_stem. destruct (stem_ext f) as [s [e|]] eqn:E; [|done]. case_decide; [|done]. subst.
  apply stem_ext_Some in E as [-> Hs]. intros. by exists s.
Qed.
Lemma by_stem_ext {A} (look look' : string → option A) f :
  (∀ s, f = file s → look s = look' s) → by_stem look f = by_stem look' f.
Proof.
  intros Hl. unfold by_stem. destruct (stem_ext f) as [s [e|]] eqn:E; [|done]. case_decide; [|done]. subst.
  apply stem_ext_Some in E as [-> _]. by apply Hl.
Qed.

(** The bytes of the gateways: of each one, and of its routes. *)
Notation Saved := (list (string * (Bytes * list (string * Bytes)))).

(** The files of a tree with the main file [main], the plugin files [pls] and the gateways
    [gs]. *)
Definition layout (main : option Bytes) (pls : gmap string Bytes) (gs : Saved) p : option Bytes :=
  match p with
  | [f] => if decide (f = file "config") then main else None
  | [d; f] => if decide (d = "plugin") then by_stem (λ s, pls !! s) f else None
  | [d; g; f] => if decide (d = "gateway" ∧ f = file "config") then fst <$> bt_get g gs else None
  | [d; g; r; f] =>
      if decide (d = "gateway" ∧ r = "route") then by_stem (λ s, x ← bt_get g gs; bt_get s x.2) f else None
  | _ => None
  end.
Definition laid_dirs (plugins : bool) (gs : Saved) p : Prop :=
  p = [] ∨ (p = ["plugin"] ∧ plugins = true) ∨ (p = ["gateway"] ∧ gs ≠ []) ∨
  ∃ g, g ∈ gs.*1 ∧ (p = ["gateway"; g] ∨ p = ["gateway"; g; "route"]).

(** A tree without faults whose files and directories are the given ones. *)
Record laid (main : option Bytes) (pls : gmap string Bytes) (gs : Saved) (D : Path → Prop) t : Prop := {
  la_faults : tr_faults t = [];
  la_files p : tr_files t !! p = layout main pls gs p;
  la_dirs p : p ∈ tr_dirs t ↔ D p;
}.

Lemma laid_ext main pls gs D D' t : (∀ p, D p ↔ D' p) → laid main pls gs D t → laid main pls gs D' t.
Proof. intros HD [? ? Hd]. split; [done..|]. intros p. by rewrite Hd. Qed.

Lemma io_op_ok {A} (f : Tree → result A IoKind * Tree) t a t' :
  tr_faults t = [] → f t = (Ok a, t') → io_op (io f) t = (Ok a, t').
Proof. intros Hf Ht. unfold io_op, io. rewrite Hf. by rewrite Ht. Qed.
Lemma op_bind_ok {C E A B} (m : OpE C E A) (k : A → OpE C E B) c a c' :
  m c = (Ok a, c') → op_bind m k c = k a c'.
Proof. intros Hm. unfold op_bind. by rewrite Hm. Qed.
Lemma op_lift_ok {C E A B} (a : A) (k : A → OpE C E B) c : op_bind (op_lift (Ok a)) k c = k a c.
Proof. done. Qed.

Lemma is_file_laid main pls gs D t p : laid main pls gs D t → is_file p t = bool_decide (is_Some (layout main pls gs p)).
Proof. intros [_ Hf _]. unfold is_file. by rewrite Hf. Qed.
Lemma is_dir_laid main pls gs D t p : laid main pls gs D t → is_dir p t = true ↔ D p.
Proof. intros [_ _ Hd]. unfold is_dir. by rewrite bool_decide_eq_true. Qed.

(** Writing a file of the layout. *)
Lemma write_laid main pls gs main' pls' gs' D t p b :
  laid main pls gs D t → D (removelast p) → ¬ D p →
  (∀ q, layout main' pls' gs' q = if decide (q = p) then Some b else layout main pls gs q) →
  ∃ t', io_op (fs_write p b) t = (Ok (), t') ∧ laid main' pls' gs' D t'.
Proof.
  intros Hl Hup Hp Hlay. eexists. split.
  - apply io_op_ok; [apply Hl|]. rewrite (proj2 (is_dir_laid _ _ _ _ _ (removelast p) Hl)) by done. simpl.
    destruct (is_dir p t) eqn:E; [|done]. by apply (is_dir_laid _ _ _ _ _ p Hl) in E.
  - destruct Hl as [Hf Hfi Hd]. split; simpl; [done| |done]. intros q. rewrite Hlay.
    case_decide; subst; [by rewrite lookup_insert_eq|]. by rewrite lookup_insert_ne.
Qed.
Lemma create_dir_laid main pls gs D t p :
  laid main pls gs D t → (∀ q, q ∈ prefixes p → layout main pls gs q = None) →
  ∃ t', io_op (fs_create_dir_all p) t = (Ok (), t') ∧ laid main pls gs (λ q, q ∈ prefixes p ∨ D q) t'.
Proof.
  intros Hl Hp. eexists. split.
  - apply io_op_ok; [apply Hl|]. destruct (existsb _ _) eqn:E; [|done].
    apply existsb_exists in E as (q&Hq%list_elem_of_In&Hqf). rewrite (is_file_laid _ _ _ _ _ _ Hl) in Hqf.
    apply bool_decide_eq_true in Hqf. rewrite (Hp q Hq) in Hqf. by destruct Hqf.
  - destruct Hl as [Hf Hfi Hd]. split; [done..|]. intros q. cbn [tr_dirs set_dirs].
    by rewrite elem_of_union, elem_of_list_to_set, Hd.
Qed.

(** *** One file more *)

Lemma layout_main b q : layout (Some b) ∅ [] q = if decide (q = [file "config"]) then Some b else layout None ∅ [] q.
Proof. destruct q as [|d [|g [|r [|f [|? ?]]]]]; simpl; repeat case_decide; simplify_eq; done. Qed.

Lemma layout_plugin main pls gs stem b q :
  stem ≠ "" →
  layout main (<[stem := b]> pls) gs q = if decide (q = ["plugin"; file stem]) then Some b else layout main pls gs q.
Proof.
  intros Hs. destruct q as [|d [|g [|r [|f [|? ?]]]]]; simpl; repeat case_decide; simplify_eq; try done.
  - by rewrite by_stem_file, lookup_insert_eq.
  - apply by_stem_ext. intros s' ->. apply lookup_insert_ne. naive_solver.
Qed.

Lemma layout_item main pls gs g b q :
  g ∉ gs.*1 →
  layout main pls (gs ++ [(g, (b, []))]) q =
  if decide (q = ["gateway"; g; file "config"]) then Some b else layout main pls gs q.
Proof.
  intros Hg. destruct q as [|d [|g' [|r [|f [|? ?]]]]]; try (rewrite decide_False by done; done); unfold layout.
  - case_decide as Hd; [|by rewrite decide_False by naive_solver]. destruct Hd as [-> ->].
    rewrite bt_get_app. case_decide as Hq; simplify_eq.
    + rewrite bt_get_None by done. simpl. by rewrite decide_True.
    + simpl. rewrite (decide_False (P := g' = g)) by naive_solver. by destruct (bt_get g' gs).
  - rewrite (decide_False (P := [d; g'; r; f] = _)) by done. case_decide; [|done]. apply by_stem_ext. intros s ->.
    rewrite bt_get_app. destruct (bt_get g' gs); [done|]. simpl. by case_decide.
Qed.

Lemma layout_route main pls gs g b rs r rb q :
  g ∉ gs.*1 → r ∉ rs.*1 → r ≠ "" →
  layout main pls (gs ++ [(g, (b, rs ++ [(r, rb)]))]) q =
  if decide (q = ["gateway"; g; "route"; file r]) then Some rb else layout main pls (gs ++ [(g, (b, rs))]) q.
Proof.
  intros Hg Hr Hne. destruct q as [|d [|g' [|r' [|f [|? ?]]]]]; try (rewrite decide_False by done; done); unfold layout.
  - rewrite (decide_False (P := [d; g'; r'] = _)) by done. case_decide; [|done].
    rewrite !bt_get_app. destruct (bt_get g' gs); [done|]. simpl. by case_decide.
  - case_decide as Hd; [|by rewrite decide_False by naive_solver]. destruct Hd as [-> ->].
    case_decide as Hq; simplify_eq.
    + rewrite by_stem_file, bt_get_app, bt_get_None by done. simpl. rewrite decide_True by done. simpl.
      rewrite bt_get_app, bt_get_None by done. simpl. by rewrite decide_True.
    + apply by_stem_ext. intros s ->. rewrite !bt_get_app. destruct (bt_get g' gs); [done|]. simpl.
      case_decide as Hg'; [|done]. subst. simpl. rewrite bt_get_app. simpl.
      rewrite (decide_False (P := s = r)) by naive_solver. by destruct (bt_get s rs).
Qed.

(** *** Saving plugins *)

Definition id_ok (id : PluginInstanceId) : Prop :=
  from_file_stem (as_file_stem id) = id ∧ as_file_stem id ≠ "" ∧ no_char "/" (as_file_stem id).
Lemma id_ok_inj id id' : id_ok id → id_ok id' → as_file_stem id = as_file_stem id' → id = id'.
Proof. intros [Hi _] [Hi' _] Heq. by rewrite Heq, Hi' in Hi. Qed.

Definition save_bytes {A} (id : A → PluginInstanceId) (ser : A → result Bytes string) (x : A) : Op Tree unit :=
  do bytes <- op_lift (ser x);
  io_op (fs_write (plugin_path (id x)) bytes).

Lemma save_bytes_loop {A} (id : A → PluginInstanceId) (ser : A → result Bytes string) l main pls gs D t :
  laid main pls gs D t → D ["plugin"] → (∀ f, ¬ D ["plugin"; f]) →
  Forall (λ x, id_ok (id x) ∧ ∃ b, ser x = Ok b) l → NoDup (id <$> l) →
  ∃ t' pls', op_for (save_bytes id ser) l t = (Ok (), t') ∧ laid main pls' gs D t' ∧
    (∀ x, x ∈ l → ∃ b, ser x = Ok b ∧ pls' !! as_file_stem (id x) = Some b) ∧
    (∀ s, (∀ x, x ∈ l → as_file_stem (id x) ≠ s) → pls' !! s = pls !! s).
Proof.
  intros Hl HD Hnd HF. revert pls t Hl. induction HF as [|x l [Hid [b Hb]] HF IH]; intros pls t Hl Hnodup.
  - exists t, pls. split_and!; [done|done|set_solver|done].
  - destruct Hid as (Hid&Hne&Hsl). rewrite fmap_cons in Hnodup. apply NoDup_cons in Hnodup as [Hx Hnodup].
    destruct (write_laid main pls gs main (<[as_file_stem (id x) := b]> pls) gs D t (plugin_path (id x)) b Hl) as (t1&Hw&Hl1).
    { by rewrite plugin_path_eq. }
    { by rewrite plugin_path_eq. }
    { intros q. rewrite plugin_path_eq by done. by apply layout_plugin. }
    destruct (IH _ _ Hl1 Hnodup) as (t'&pls'&Hop&Hl'&Hin&Hout). exists t', pls'. split_and!; [|done| |].
    + cbn [op_for]. erewrite op_bind_ok; [exact Hop|]. unfold save_bytes. rewrite Hb, op_lift_ok. exact Hw.
    + intros y [->|Hy]%elem_of_cons; [|by apply Hin]. exists b. split; [done|].
      rewrite Hout; [by rewrite lookup_insert_eq|]. intros y Hy Heq. apply Hx. apply list_elem_of_fmap. exists y.
      split; [|done]. rewrite Forall_forall in HF. apply id_ok_inj; [by split_and!|by apply HF|done].
    + intros s Hs. rewrite Hout; [|set_solver]. rewrite lookup_insert_ne; [done|]. apply Hs. set_solver.
Qed.

(** *** Saving gateways *)

Definition saved_routes (rs : list (string * Route_)) (rbs : list (string * Bytes)) : Prop :=
  Forall2 (λ kr kb, kr.1 = kb.1 ∧ ser_route kr.2 = Ok kb.2) rs rbs.
Definition saved_gateway (ki : string * Item_) (kb : string * (Bytes * list (string * Bytes))) : Prop :=
  ki.1 = kb.1 ∧ ser_item (MkItem (ci_gateway ki.2) []) = Ok kb.2.1 ∧ saved_routes (ci_routes ki.2) kb.2.2.

(** What can be stored under its name and read back from it. *)
Definition route_ok (kr : string * Route_) : Prop :=
  plain kr.1 ∧ storable_route kr.2 ∧ ∃ b, ser_route kr.2 = Ok b.
Record item_ok (ki : string * Item_) : Prop := {
  io_name : plain ki.1;
  io_gateway : storable_gateway (ci_gateway ki.2);
  io_ser : ∃ b, ser_item (MkItem (ci_gateway ki.2) []) = Ok b;
  io_sorted : bt_sorted (ci_routes ki.2);
  io_routes : Forall route_ok (ci_routes ki.2);
}.

Lemma bt_sorted_NoDup {V} (m : list (string * V)) : bt_sorted m → NoDup m.*1.
Proof.
  induction 1 as [|[k v] m Hm IH Hk]; [constructor|]. rewrite fmap_cons. constructor; [|done].
  intros ([k' v']&Heq&Hin)%list_elem_of_fmap. simpl in Heq. subst. rewrite Forall_forall in Hk.
  specialize (Hk _ Hin). simpl in Hk. by rewrite key_ltb_irrefl in Hk.
Qed.

Lemma save_routes_loop rs : ∀ main pls gs g b rbs D t,
  laid main pls (gs ++ [(g, (b, rbs))]) D t → D ["gateway"; g; "route"] → (∀ f, ¬ D ["gateway"; g; "route"; f]) →
  plain g → g ∉ gs.*1 → Forall route_ok rs → NoDup (rbs.*1 ++ rs.*1) →
  ∃ t' rbs', op_for (save_route g) rs t = (Ok (), t') ∧ laid main pls (gs ++ [(g, (b, rbs ++ rbs'))]) D t' ∧
    saved_routes rs rbs'.
Proof.
  induction rs as [|[r route] rs IH]; intros main pls gs g b rbs D t Hl HD HnD Hg Hnew HF Hnd.
  - exists t, []. rewrite app_nil_r. split_and!; [done|done|constructor].
  - apply Forall_cons in HF as [(Hr&Hst&[rb Hrb]) HF]. simpl in *.
    destruct (write_laid main pls (gs ++ [(g, (b, rbs))]) main pls (gs ++ [(g, (b, rbs ++ [(r, rb)]))]) D t (route_path g r) rb Hl)
      as (t1&Hw&Hl1).
    { by rewrite route_path_eq. }
    { by rewrite route_path_eq. }
    { intros q. rewrite route_path_eq by done. apply layout_route; [done| |by apply Hr].
      rewrite NoDup_app in Hnd. destruct Hnd as (_&Hd&_). intros Hin. apply (Hd r Hin). simpl. by left. }
    destruct (IH main pls gs g b (rbs ++ [(r, rb)]) D t1 Hl1) as (t'&rbs'&Hop&Hl'&Hs); try done.
    { rewrite fmap_app, <- app_assoc. done. }
    exists t', ((r, rb) :: rbs'). split_and!.
    + cbn [op_for]. erewrite op_bind_ok; [exact Hop|]. unfold save_route. simpl. rewrite Hrb, op_lift_ok. exact Hw.
    + by rewrite <- app_assoc in Hl'.
    + by constructor.
Qed.

Lemma layout_no_dirs main pls gs g q :
  q ∈ prefixes ["gateway"; g; "route"] → layout main pls gs q = None.
Proof.
  intros Hq. unfold prefixes in Hq. simpl in Hq.
  assert (∀ s, no_char "." s → s ≠ file "config") as Hfile by (intros s' Hs' Heq; by apply (file_ne "config" s')).
  repeat (apply elem_of_cons in Hq as [->|Hq]; [by simpl; rewrite ?decide_False by naive_solver|]).
  by apply elem_of_nil in Hq.
Qed.

Lemma laid_dirs_gateway pd gs g x p :
  p ∈ prefixes ["gateway"; g; "route"] ∨ p ∈ prefixes ["gateway"; g] ∨ laid_dirs pd gs p ↔ laid_dirs pd (gs ++ [(g, x)]) p.
Proof.
  unfold prefixes, laid_dirs. simpl. rewrite fmap_app. setoid_rewrite elem_of_app. setoid_rewrite elem_of_cons.
  setoid_rewrite elem_of_nil. rewrite !elem_of_cons, !elem_of_nil.
  assert (gs ++ [(g, x)] ≠ []) by by destruct gs. naive_solver.
Qed.

Lemma laid_dirs_not_plugin pd gs f : ¬ laid_dirs pd gs ["plugin"; f].
Proof. intros [?|[[? _]|[[? _]|(g&_&[?|?])]]]; done. Qed.

Lemma laid_dirs_three pd gs d g f : laid_dirs pd gs [d; g; f] → f = "route".
Proof. intros [?|[[? _]|[[? _]|(g'&_&[?|?])]]]; by simplify_eq. Qed.
Lemma laid_dirs_four pd gs d g r f : ¬ laid_dirs pd gs [d; g; r; f].
Proof. intros [?|[[? _]|[[? _]|(g'&_&[?|?])]]]; by simplify_eq. Qed.

Lemma save_gateway_ok main pls pd gs ki t :
  laid main pls gs (laid_dirs pd gs) t → item_ok ki → ki.1 ∉ gs.*1 →
  ∃ t' kb, save_gateway ki t = (Ok (), t') ∧ laid main pls (gs ++ [kb]) (laid_dirs pd (gs ++ [kb])) t' ∧ saved_gateway ki kb.
Proof.
  intros Hl [Hg Hst [b Hb] Hsorted Hroutes] Hnew. destruct ki as [g [gw rs]]. simpl in *.
  assert (∀ D p, (∀ q, q ∈ prefixes p → q ∈ prefixes ["gateway"; g; "route"]) → laid main pls gs D t →
    ∃ t', io_op (fs_create_dir_all p) t = (Ok (), t') ∧ laid main pls gs (λ q, q ∈ prefixes p ∨ D q) t') as Hdir.
  { intros D p Hp HD. apply create_dir_laid; [done|]. intros q Hq. by apply (layout_no_dirs _ _ _ g), Hp. }
  destruct (Hdir _ ["gateway"; g] ltac:(unfold prefixes; simpl; set_solver) Hl) as (t1&Hop1&Hl1).
  destruct (write_laid _ _ _ main pls (gs ++ [(g, (b, []))]) _ _ ["gateway"; g; file "config"] b Hl1) as (t2&Hop2&Hl2).
  { left. unfold prefixes. simpl. set_solver. }
  { intros [Hin|Hd]; [unfold prefixes in Hin; simpl in Hin; set_solver|].
    apply laid_dirs_three in Hd. by apply file_ne in Hd. }
  { intros q. by apply layout_item. }
  destruct (create_dir_laid _ _ _ _ _ ["gateway"; g; "route"] Hl2 (λ q, layout_no_dirs _ _ _ g q)) as (t3&Hop3&Hl3).
  destruct (save_routes_loop rs _ _ _ _ _ _ _ _ Hl3) as (t'&rbs&Hop4&Hl4&Hrs); try done.
  { left. unfold prefixes. simpl. set_solver. }
  { intros f [Hin|[Hin|Hd]]; [unfold prefixes in Hin; simpl in Hin; set_solver..|by apply laid_dirs_four in Hd]. }
  { by apply bt_sorted_NoDup. }
  exists t', (g, (b, rbs)). split_and!.
  - unfold save_gateway. rewrite gateway_path_eq, main_path_eq, routes_dir_eq by done. cbn [ci_gateway ci_routes].
    erewrite op_bind_ok by exact Hop1. rewrite Hb, op_lift_ok. erewrite op_bind_ok by exact Hop2.
    erewrite op_bind_ok by exact Hop3. exact Hop4.
  - eapply laid_ext; [|exact Hl4]. intros p. apply laid_dirs_gateway.
  - by split_and!.
Qed.

Lemma save_gateways_loop l : ∀ main pls pd gs t,
  laid main pls gs (laid_dirs pd gs) t → Forall item_ok l → NoDup (gs.*1 ++ l.*1) →
  ∃ t' kbs, op_for save_gateway l t = (Ok (), t') ∧ laid main pls (gs ++ kbs) (laid_dirs pd (gs ++ kbs)) t' ∧
    Forall2 saved_gateway l kbs.
Proof.
  induction l as [|ki l IH]; intros main pls pd gs t Hl HF Hnd.
  - exists t, []. rewrite app_nil_r. by split_and!.
  - apply Forall_cons in HF as [Hki HF].
    destruct (save_gateway_ok main pls pd gs ki t Hl Hki) as (t1&kb&Hop1&Hl1&Hkb).
    { rewrite NoDup_app in Hnd. destruct Hnd as (_&Hd&_). intros Hin. apply (Hd _ Hin). simpl. by left. }
    destruct (IH main pls pd (gs ++ [kb]) t1 Hl1 HF) as (t'&kbs&Hop&Hl'&Hs).
    { rewrite fmap_app, <- app_assoc. simpl. destruct Hkb as [<- _]. done. }
    exists t', (kb :: kbs). split_and!.
    + cbn [op_for]. by erewrite op_bind_ok by exact Hop1.
    + by rewrite <- app_assoc in Hl'.
    + by constructor.
Qed.

(** *** Saving a configuration *)

(** What can be stored and read back: names that are one plain component of a path, plugins
    that are named by their files, and values the format has a text for. *)
Record config_ok (c : Config Json) : Prop := {
  co_sorted : bt_sorted (c_gateways c);
  co_items : Forall item_ok (c_gateways c);
  co_port : is_Some (c_api_port c);
  co_observability : storable_observability (c_observability c);
  co_main : ∃ b, ser_main (main_config c) = Ok b;
  co_ids : map_Forall (λ id spec, id_ok id ∧ (∃ b, ser_value spec = Ok b) ∧
    ∀ d, ∃ b, ser_value (encode_stored_plugin_config (MkPluginConfig id d spec)) = Ok b) (c_plugins c);
}.

(** The tree has the configuration [c], whose plugins are stored as [ps]. *)
Record stored_tree (c : Config Json) (ps : list (PluginConfig Json)) t : Prop := {
  sd_ok : config_ok c;
  sd_plugins : (λ pc, (cfg_id pc, cfg_spec pc)) <$> ps ≡ₚ map_to_list (c_plugins c);
  sd_laid : ∃ main pls kbs pd, laid (Some main) pls kbs (laid_dirs pd kbs) t ∧
    ser_main (main_config c) = Ok main ∧ Forall2 saved_gateway (c_gateways c) kbs ∧ (pd = true ∨ ps = []) ∧
    (∀ pc, pc ∈ ps → ∃ b, ser_value (encode_stored_plugin_config pc) = Ok b ∧ pls !! as_file_stem (cfg_id pc) = Some b) ∧
    ∀ s, (∀ pc, pc ∈ ps → as_file_stem (cfg_id pc) ≠ s) → pls !! s = None;
}.

Lemma create_plugin_dir main pls pd gs t :
  laid main pls gs (laid_dirs pd gs) t →
  ∃ t', io_op (fs_create_dir_all plugin_dir) t = (Ok (), t') ∧ laid main pls gs (laid_dirs true gs) t'.
Proof.
  intros Hl. rewrite plugin_dir_eq. destruct (create_dir_laid _ _ _ _ _ ["plugin"] Hl) as (t'&Hop&Hl').
  { intros q Hq. unfold prefixes in Hq. simpl in Hq.
    repeat (apply elem_of_cons in Hq as [->|Hq]; [done|]). by apply elem_of_nil in Hq. }
  exists t'. split; [done|]. eapply laid_ext; [|exact Hl']. intros q. unfold prefixes, laid_dirs. simpl.
  rewrite !elem_of_cons, elem_of_nil. destruct pd; naive_solver.
Qed.

Lemma plugin_dir_laid gs : laid_dirs true gs ["plugin"].
Proof. right; left. done. Qed.

Lemma save_specs_ok c b t :
  laid (Some b) ∅ [] (laid_dirs false []) t → config_ok c →
  ∃ t' pls pd, (if decide (c_plugins c = ∅) then op_ret () else
      op_bind (io_op (fs_create_dir_all plugin_dir)) (λ _, op_for save_spec (visit (map_to_list (c_plugins c))))) t = (Ok (), t') ∧
    laid (Some b) pls [] (laid_dirs pd []) t' ∧ (pd = true ∨ c_plugins c = ∅) ∧
    ∀ s, (∀ id, is_Some (c_plugins c !! id) → as_file_stem id ≠ s) → pls !! s = None.
Proof.
  intros Hl Hc. case_decide as He; [exists t, ∅, false; by split_and!; [|done|right|]|].
  destruct (create_plugin_dir _ _ _ _ _ Hl) as (t1&Hop1&Hl1).
  destruct (save_bytes_loop fst (λ kv, ser_value kv.2) (visit (map_to_list (c_plugins c))) _ _ _ _ _ Hl1)
    as (t'&pls&Hop&Hl'&_&Hout).
  - apply plugin_dir_laid.
  - apply laid_dirs_not_plugin.
  - apply Forall_forall. intros [id spec] Hin. rewrite visit_perm, elem_of_map_to_list in Hin.
    by destruct (co_ids c Hc id spec Hin) as (?&?&_).
  - rewrite visit_perm. apply NoDup_fst_map_to_list.
  - exists t', pls, true. split_and!; [|done|by left|].
    + by erewrite op_bind_ok by exact Hop1.
    + intros s Hs. rewrite Hout; [done|]. intros [id spec] Hin. rewrite visit_perm, elem_of_map_to_list in Hin. apply Hs. by eexists.
Qed.

Lemma save_all_ok c ps t :
  laid None ∅ [] (λ q, q = []) t → config_ok c → (λ pc, (cfg_id pc, cfg_spec pc)) <$> ps ≡ₚ map_to_list (c_plugins c) →
  ∃ t', op_bind (save_config c) (λ _, save_plugin_configs ps) t = (Ok (), t') ∧ stored_tree c ps t'.
Proof.
  intros Hl Hc Hps. destruct (co_main c Hc) as [b Hb].
  destruct (write_laid _ _ _ (Some b) ∅ [] _ _ entrance_config_path b Hl) as (t1&Hop1&Hl1).
  { by rewrite entrance_eq. }
  { by rewrite entrance_eq. }
  { intros q. rewrite entrance_eq. apply layout_main. }
  apply (laid_ext _ _ _ _ (laid_dirs false [])) in Hl1; [|unfold laid_dirs; simpl; set_solver].
  destruct (save_specs_ok c b t1 Hl1 Hc) as (t2&pls&pd&Hop2&Hl2&Hpd&Hnone).
  destruct (save_gateways_loop (c_gateways c) _ _ _ _ _ Hl2) as (t3&kbs&Hop3&Hl3&Hsaved).
  { apply Hc. }
  { apply bt_sorted_NoDup, Hc. }
  assert (∀ id spec, c_plugins c !! id = Some spec ↔ ∃ pc, pc ∈ ps ∧ cfg_id pc = id ∧ cfg_spec pc = spec) as Hin.
  { intros id spec. rewrite <- elem_of_map_to_list, <- Hps, list_elem_of_fmap. split.
    - intros ([i d s]&[= -> ->]&Hp). by eexists.
    - intros ([i d s]&Hp&<-&<-). by eexists. }
  assert (∃ t' pls', save_plugin_configs ps t3 = (Ok (), t') ∧ laid (Some b) pls' kbs (laid_dirs (if decide (ps = []) then pd else true) kbs) t' ∧
    (∀ pc, pc ∈ ps → ∃ b, ser_value (encode_stored_plugin_config pc) = Ok b ∧ pls' !! as_file_stem (cfg_id pc) = Some b) ∧
    ∀ s, (∀ pc, pc ∈ ps → as_file_stem (cfg_id pc) ≠ s) → pls' !! s = pls !! s) as (t'&pls'&Hop4&Hl4&Hin4&Hout4).
  { unfold save_plugin_configs. destruct (decide (ps = [])) as [->|He]; rewrite ?decide_True, ?decide_False by done;
      [exists t3, pls; split_and!; [done|exact Hl3|set_solver|done]|].
    destruct (create_plugin_dir _ _ _ _ _ Hl3) as (t4&Hop4&Hl4).
    destruct (save_bytes_loop cfg_id (λ pc, ser_value (encode_stored_plugin_config pc)) ps _ _ _ _ _ Hl4)
      as (t'&pls'&Hop&Hl'&Hin'&Hout).
    - apply plugin_dir_laid.
    - apply laid_dirs_not_plugin.
    - apply Forall_forall. intros [i d sp] Hp. destruct (co_ids c Hc i sp) as (?&_&Hser); [|by split].
      apply Hin. by eexists.
    - assert (cfg_id <$> ps = ((λ pc, (cfg_id pc, cfg_spec pc)) <$> ps).*1) as -> by by rewrite <- list_fmap_compose.
      rewrite Hps. apply NoDup_fst_map_to_list.
    - exists t', pls'. split_and!; [|done..]. by erewrite op_bind_ok by exact Hop4. }
  exists t'. split.
  - unfold save_config. rewrite Hb. unfold op_bind at 1. rewrite op_lift_ok.
    erewrite op_bind_ok by exact Hop1. erewrite op_bind_ok by exact Hop2. rewrite Hop3. exact Hop4.
  - split; [done|done|]. eexists b, pls', kbs, _. split_and!; [exact Hl4|done|done| |done|].
    + destruct (decide (ps = [])); [by right|by left].
    + intros s Hs. rewrite Hout4 by done. apply Hnone. intros id [spec Hid].
      apply Hin in Hid as (p&Hp&<-&_). by apply Hs.
Qed.

(** *** Clearing the directory *)

(** What every tree is: files are in directories, directories are in directories, and the
    top is one. *)
Record tree_wf t : Prop := {
  tw_root : [] ∈ tr_dirs t;
  tw_file p : is_Some (tr_files t !! p) → p ≠ [] ∧ removelast p ∈ tr_dirs t ∧ p ∉ tr_dirs t;
  tw_dir p : p ∈ tr_dirs t → p ≠ [] → removelast p ∈ tr_dirs t;
}.

Definition entry t p : Prop := is_Some (tr_files t !! p) ∨ p ∈ tr_dirs t.

Lemma elem_of_children t p n : n ∈ children p t ↔ entry t (p ++ [n]).
Proof.
  unfold children. rewrite elem_of_elements, elem_of_list_to_set, list_elem_of_omap. unfold entry. split.
  - intros (q&Hq&Hn). unfold child_of in Hn. case_decide as Hd; [|done]. destruct Hd as [Hne <-].
    assert (q = removelast q ++ [n]) as Heq.
    { apply last_Some in Hn as [q' ->]. by rewrite removelast_app_one. }
    rewrite <- Heq. apply elem_of_app in Hq as [([q' b]&->&Hin)%list_elem_of_fmap|Hq%elem_of_elements]; [left|by right].
    apply elem_of_map_to_list in Hin. by eexists.
  - intros Hor. exists (p ++ [n]). split.
    + apply elem_of_app. destruct Hor as [[b Hb]|Hd]; [left|right; by apply elem_of_elements].
      apply list_elem_of_fmap. exists (p ++ [n], b). split; [done|]. by apply elem_of_map_to_list.
    + unfold child_of. rewrite decide_True; [apply last_app_one|]. split; [by destruct p|]. apply removelast_app_one.
Qed.
Lemma NoDup_children t p : NoDup (children p t).
Proof. apply NoDup_elements. Qed.

Lemma read_dir_ok t p : tr_faults t = [] → p ∈ tr_dirs t → fs_read_dir p t = (Ok (visit (children p t)), t).
Proof.
  intros Hf Hd. unfold fs_read_dir, io. rewrite Hf. unfold is_dir. by rewrite bool_decide_eq_true_2.
Qed.
Lemma read_dir_op_ok t p : tr_faults t = [] → p ∈ tr_dirs t → io_op (fs_read_dir p) t = (Ok (visit (children p t)), t).
Proof. intros. unfold io_op. by rewrite read_dir_ok. Qed.

(** The first name of an entry is an entry of the top. *)
Lemma entry_head t n p : tree_wf t → entry t (n :: p) → entry t [n] ∧ (p ≠ [] → [n] ∈ tr_dirs t).
Proof.
  intros Hwf. induction p as [|m p IH] using rev_ind; intros He; [by split|].
  change (n :: p ++ [m]) with ((n :: p) ++ [m]) in He.
  assert ((n :: p) ∈ tr_dirs t) as Hup.
  { destruct He as [He|He].
    - apply (tw_file t Hwf) in He as (_&He&_). by rewrite removelast_app_one in He.
    - apply (tw_dir t Hwf) in He; [by rewrite removelast_app_one in He|by destruct p]. }
  destruct (IH (or_intror Hup)) as [H1 H2]. split; [done|]. intros _. destruct p; [done|]. by apply H2.
Qed.

(** What is left when the entry [n] of the top and all below it is removed. *)
Definition without (n : string) t t' : Prop :=
  tr_faults t' = tr_faults t ∧
  (∀ p, tr_files t' !! p = if decide (head p = Some n) then None else tr_files t !! p) ∧
  (∀ p, p ∈ tr_dirs t' ↔ p ∈ tr_dirs t ∧ head p ≠ Some n).

Lemma without_wf n t t' : tree_wf t → without n t t' → tree_wf t'.
Proof.
  intros Hwf (_&Hfi&Hdi). split.
  - apply Hdi. split; [apply Hwf|done].
  - intros p Hp. rewrite Hfi in Hp. case_decide as Hh; [by destruct Hp|].
    destruct (tw_file t Hwf p Hp) as (Hne&Hup&Hnd). split_and!; [done| |by intros [? _]%Hdi].
    apply Hdi. split; [done|]. destruct p as [|a [|b p]]; done.
  - intros p [Hp Hh]%Hdi Hne. apply Hdi. split; [by apply (tw_dir t Hwf)|]. destruct p as [|a [|b p]]; done.
Qed.

Lemma below_one n p : below [n] p ↔ head p = Some n.
Proof. unfold below. destruct p as [|m p]; simpl; [done|]. rewrite take_0. naive_solver. Qed.

Lemma clear_entry_ok n t :
  tree_wf t → tr_faults t = [] → entry t [n] → ∃ t', clear_entry n t = (Ok (), t') ∧ without n t t'.
Proof.
  intros Hwf Hf He. unfold clear_entry, op_bind, query. destruct (is_dir [n] t) eqn:Hd.
  - eexists. split; [apply io_op_ok; [done|]; by rewrite Hd|]. split_and!; simpl; [done|..]; intros p.
    + rewrite map_lookup_filter. destruct (tr_files t !! p) as [b|]; simpl; [|by case_decide].
      case_guard as Hg; simpl; rewrite below_one in Hg; case_decide; naive_solver.
    + rewrite elem_of_filter, below_one. naive_solver.
  - unfold is_dir in Hd. apply bool_decide_eq_false in Hd. destruct He as [He|]; [|done].
    eexists. split; [apply io_op_ok; [done|]; unfold is_file; by rewrite bool_decide_eq_true_2|].
    assert (∀ p, entry t p → head p = Some n → p = [n]) as Hone.
    { intros [|m p] Hp Hh; [done|]. injection Hh as ->. destruct p as [|m' p]; [done|].
      destruct (entry_head t n (m' :: p) Hwf Hp) as [_ Hdir]. by destruct Hd; apply Hdir. }
    split_and!; simpl; [done|..]; intros p.
    + case_decide as Hh.
      * destruct (decide (p = [n])) as [->|Hne]; [by rewrite lookup_delete_eq|]. rewrite lookup_delete_ne by done.
        apply eq_None_not_Some. intros Hp. by apply Hne, Hone; [left|].
      * rewrite lookup_delete_ne; [done|]. by intros <-.
    + split; [|by intros [? _]]. intros Hp. split; [done|]. intros Hh.
      apply Hd. by rewrite <- (Hone p); [|right|].
Qed.

Definition removed (l : list string) p : Prop := match head p with Some n => n ∈ l | None => False end.
#[local] Instance removed_dec l p : Decision (removed l p).
Proof. unfold removed. destruct (head p); apply _. Defined.
Lemma removed_cons n l p : removed (n :: l) p ↔ head p = Some n ∨ removed l p.
Proof. unfold removed. destruct (head p); [|naive_solver]. rewrite elem_of_cons. naive_solver. Qed.

Lemma clear_entries_ok l : ∀ t, tree_wf t → tr_faults t = [] → Forall (λ n, entry t [n]) l → NoDup l →
  ∃ t', op_for clear_entry l t = (Ok (), t') ∧ tr_faults t' = [] ∧
    (∀ p, tr_files t' !! p = if decide (removed l p) then None else tr_files t !! p) ∧
    (∀ p, p ∈ tr_dirs t' ↔ p ∈ tr_dirs t ∧ ¬ removed l p).
Proof.
  induction l as [|n l IH]; intros t Hwf Hf HF Hnd.
  - exists t. assert (∀ p, ¬ removed [] p) as Hnil by (intros p; unfold removed; destruct (head p); set_solver).
    split_and!; [done|done|..]; intros p; [by rewrite decide_False|]. split; [by split|by intros [? _]].
  - apply Forall_cons in HF as [Hn HF]. apply NoDup_cons in Hnd as [Hnin Hnd].
    destruct (clear_entry_ok n t Hwf Hf Hn) as (t1&Hop1&Hw). pose proof (without_wf _ _ _ Hwf Hw) as Hwf1.
    destruct Hw as (Hf1&Hfi1&Hdi1). destruct (IH t1 Hwf1) as (t'&Hop&Hf'&Hfi&Hdi); [by rewrite Hf1| |done|].
    { rewrite Forall_forall in HF |- *. intros m Hm. destruct (HF m Hm) as [He|He].
      - left. rewrite Hfi1. rewrite decide_False; [done|]. simpl. congruence.
      - right. apply Hdi1. split; [done|]. simpl. congruence. }
    exists t'. split_and!; [|done|..]; [cbn [op_for]; by erewrite op_bind_ok by exact Hop1|..]; intros p.
    + rewrite Hfi, Hfi1. repeat case_decide; rewrite removed_cons in *; naive_solver.
    + rewrite Hdi, Hdi1, removed_cons. naive_solver.
Qed.

Lemma layout_empty q : layout None ∅ [] q = None.
Proof.
  destruct q as [|d [|g [|r [|f [|? ?]]]]]; simpl; try case_decide; try done; unfold by_stem;
    destruct (stem_ext _) as [? [?|]]; try done; by case_decide.
Qed.

Lemma clear_ok t :
  tree_wf t → tr_faults t = [] → ∃ t', clear_config_dir t = (Ok (), t') ∧ laid None ∅ [] (λ q, q = []) t'.
Proof.
  intros Hwf Hf. set (t0 := set_dirs ({[[]]} ∪ tr_dirs t) t).
  assert (io_op (fs_create_dir_all []) t = (Ok (), t0)) as Hop0.
  { apply io_op_ok; [done|]. destruct (existsb _ _) eqn:E.
    - apply existsb_exists in E as (q&Hq%list_elem_of_In&Hqf). unfold is_file in Hqf. apply bool_decide_eq_true in Hqf.
      unfold prefixes in Hq. simpl in Hq. apply elem_of_cons in Hq as [->|Hq]; [|set_solver].
      by apply (tw_file t Hwf) in Hqf as [? _].
    - by f_equal. }
  assert (∀ p, p ∈ tr_dirs t0 ↔ p ∈ tr_dirs t) as Hd0.
  { intros p. unfold t0. simpl. rewrite elem_of_union, elem_of_singleton. split; [|auto]. intros [->|]; [apply Hwf|done]. }
  assert (tree_wf t0) as Hwf0.
  { split; [apply Hd0, Hwf|..]; intros p; rewrite !Hd0; [|apply Hwf]. apply Hwf. }
  destruct (clear_entries_ok (visit (children [] t0)) t0 Hwf0 Hf) as (t'&Hop&Hf'&Hfi&Hdi).
  { rewrite visit_perm. apply Forall_forall. intros n. apply elem_of_children. }
  { rewrite visit_perm. apply NoDup_children. }
  assert (∀ n p, entry t0 (n :: p) → n ∈ visit (children [] t0)) as Hall.
  { intros n p He. rewrite visit_perm. apply elem_of_children. by apply (entry_head t0 n p Hwf0 He). }
  exists t'. split.
  - unfold clear_config_dir. erewrite op_bind_ok by exact Hop0.
    erewrite op_bind_ok by (apply read_dir_op_ok; [done|apply Hwf0]). exact Hop.
  - split; [done|..]; intros p.
    + rewrite Hfi, layout_empty. case_decide as Hh; [done|]. apply eq_None_not_Some. intros Hp.
      destruct p as [|n p]; [by apply (tw_file t0 Hwf0) in Hp as [? _]|]. apply Hh, (Hall n p). by left.
    + rewrite Hdi. split; [|intros ->; split; [apply Hwf0|by intros []]]. intros [Hp Hh]. destruct p as [|n p]; [done|].
      destruct Hh. apply (Hall n p). by right.
Qed.

(** *** Reading *)

Lemma op_map_pure {C E A X B} (f : A → OpE C E B) (name : X → A) (g : X → B) (l : list X) c :
  (∀ x, x ∈ l → f (name x) c = (Ok (g x), c)) → op_map f (name <$> l) c = (Ok (g <$> l), c).
Proof.
  induction l as [|x l IH]; intros Hf; [done|]. rewrite fmap_cons. cbn [op_map].
  erewrite op_bind_ok by (apply Hf; set_solver). erewrite op_bind_ok by (apply IH; set_solver). done.
Qed.
Lemma omap_id_Some {A B} (g : A → B) (l : list A) : omap id ((λ x, Some (g x)) <$> l) = g <$> l.
Proof. induction l as [|x l IH]; [done|]. simpl. by f_equal. Qed.

Lemma read_ok main pls gs D t p b :
  laid main pls gs D t → layout main pls gs p = Some b → fs_read p t = (Ok b, t).
Proof. intros [Hf Hfi _] Hb. unfold fs_read, io. rewrite Hf. by rewrite Hfi, Hb. Qed.
Lemma read_op_ok main pls gs D t p b :
  laid main pls gs D t → layout main pls gs p = Some b → io_op (fs_read p) t = (Ok b, t).
Proof. intros. unfold io_op. by erewrite read_ok. Qed.

(** The entries of a directory of the layout, in the order they are visited. *)
Lemma children_laid {A} (name : A → string) main pls gs D t p (l : list A) :
  laid main pls gs D t → NoDup (name <$> l) →
  (∀ n, (is_Some (layout main pls gs (p ++ [n])) ∨ D (p ++ [n])) ↔ ∃ x, x ∈ l ∧ n = name x) →
  ∃ l', l' ≡ₚ l ∧ visit (children p t) = name <$> l'.
Proof.
  intros [_ Hfi Hdi] Hnd Hin.
  assert (visit (children p t) ≡ₚ name <$> l) as Hp.
  { rewrite visit_perm. apply NoDup_Permutation; [apply NoDup_children|done|]. intros n.
    rewrite elem_of_children, list_elem_of_fmap. unfold entry. rewrite Hfi, Hdi, Hin. naive_solver. }
  apply Permutation_map_inv in Hp as (l'&->&Hl'). by exists l'.
Qed.

Lemma extension_file p s : s ≠ "" → no_char "/" s → extension (p ++ [file s]) = Some fs_extension.
Proof. intros. unfold extension. rewrite file_name_file by done. simpl. by rewrite stem_ext_file. Qed.
Lemma file_stem_file p s : s ≠ "" → no_char "/" s → file_stem (p ++ [file s]) = Some s.
Proof. intros. unfold file_stem. rewrite file_name_file by done. simpl. by rewrite stem_ext_file. Qed.

Lemma layout_plugin_file main pls gs s : s ≠ "" → layout main pls gs ["plugin"; file s] = pls !! s.
Proof. intros. simpl. by rewrite by_stem_file. Qed.

(** *** Reading the plugins *)

Lemma plugin_ids_ok c ps : config_ok c → (λ pc, (cfg_id pc, cfg_spec pc)) <$> ps ≡ₚ map_to_list (c_plugins c) →
  Forall (λ pc, id_ok (cfg_id pc)) ps ∧ NoDup (cfg_id <$> ps).
Proof.
  intros Hc Hps. split.
  - apply Forall_forall. intros [i d s] Hin. destruct (co_ids c Hc i s) as [Hid _]; [|done].
    apply elem_of_map_to_list. rewrite <- Hps. apply list_elem_of_fmap. by exists (MkPluginConfig i d s).
  - assert (cfg_id <$> ps = ((λ pc, (cfg_id pc, cfg_spec pc)) <$> ps).*1) as -> by by rewrite <- list_fmap_compose.
    rewrite Hps. apply NoDup_fst_map_to_list.
Qed.

Lemma NoDup_files (ps : list (PluginConfig Json)) :
  Forall (λ pc, id_ok (cfg_id pc)) ps → NoDup (cfg_id <$> ps) → NoDup ((λ pc, file (as_file_stem (cfg_id pc))) <$> ps).
Proof.
  intros Hok. induction Hok as [|pc ps Hpc Hok IH]; [constructor|]. rewrite !fmap_cons, !NoDup_cons. intros [Hnin Hnd].
  split; [|by apply IH]. intros (pc'&Heq&Hin)%list_elem_of_fmap. apply Hnin, list_elem_of_fmap. exists pc'.
  split; [|done]. rewrite Forall_forall in Hok. pose proof (Hok _ Hin) as Hpc'.
  apply id_ok_inj; [done..|]. apply file_inj; [apply Hpc|apply Hpc'|done].
Qed.

Lemma decode_encoded id pc : id = cfg_id pc →
  decode_stored_plugin_config id (encode_stored_plugin_config pc) false = Ok (normalize_config pc).
Proof. intros ->. destruct (stored_plugin_roundtrip (cfg_id pc) pc false) as [-> _]. by destruct pc. Qed.

Lemma collect_plugins_ok `{!ConfigFormatLaws F} c ps t :
  stored_tree c ps t → ∃ found, collect_plugin_configs t = (Ok found, t) ∧ found ≡ₚ normalize_config <$> ps.
Proof.
  intros [Hc Hps (main&pls&kbs&pd&Hl&_&_&Hpd&Hin&Hout)]. destruct (plugin_ids_ok c ps Hc Hps) as [Hok Hnd].
  unfold collect_plugin_configs. rewrite plugin_dir_eq. destruct pd.
  - rewrite (read_dir_ok t ["plugin"]); [|apply Hl|apply (la_dirs _ _ _ _ _ Hl), plugin_dir_laid].
    destruct (children_laid (λ pc, file (as_file_stem (cfg_id pc))) _ _ _ _ _ ["plugin"] ps Hl) as (ps'&Hp&->).
    { by apply NoDup_files. }
    { intros n. split.
      - intros [[b Hb]|Hd]; [|by apply laid_dirs_not_plugin in Hd].
        change (by_stem (λ s, pls !! s) n = Some b) in Hb. apply by_stem_Some in Hb as (s&Hs&->&Hs').
        destruct (decide (Exists (λ pc, as_file_stem (cfg_id pc) = s) ps)) as [(pc&Hpc&<-)%Exists_exists|Hno].
        + by exists pc.
        + rewrite Hout in Hs'; [done|]. intros pc Hpc Heq. apply Hno, Exists_exists. by exists pc.
      - intros (pc&Hpc&->). left. destruct (Hin pc Hpc) as (b&_&Hb). exists b.
        rewrite Forall_forall in Hok. destruct (Hok _ Hpc) as (_&Hne&_). cbn [app]; by rewrite layout_plugin_file. }
    exists (normalize_config <$> ps'). split; [|by rewrite Hp].
    rewrite <- (omap_id_Some normalize_config).
    erewrite op_bind_ok; [reflexivity|]. apply op_map_pure. intros pc Hpc. rewrite Hp in Hpc.
    destruct (Hin pc Hpc) as (b&Hser&Hb). rewrite Forall_forall in Hok. destruct (Hok _ Hpc) as (Hid&Hne&Hs).
    assert (layout (Some main) pls kbs (["plugin"] ++ [file (as_file_stem (cfg_id pc))]) = Some b) as Hb'
      by (cbn [app]; by rewrite layout_plugin_file).
    unfold collect_plugin_entry, op_bind, query. rewrite plugin_dir_eq.
    rewrite (is_file_laid _ _ _ _ _ _ Hl), Hb', bool_decide_eq_true_2 by by eexists.
    rewrite extension_file, bool_decide_eq_true_2, file_stem_file by done. cbn [negb orb].
    rewrite (read_op_ok _ _ _ _ _ _ _ Hl Hb'). unfold op_lift, op_ret. rewrite (de_ser_value _ _ Hser).
    by rewrite decode_encoded.
  - destruct Hpd as [?| ->]; [done|]. exists []. split; [|done].
    destruct (fs_read_dir ["plugin"] t) as [[names|e] t'] eqn:E.
    + exfalso. unfold fs_read_dir, io in E. rewrite (la_faults _ _ _ _ _ Hl) in E.
      destruct (is_dir ["plugin"] t) eqn:Ed; [|done]. apply (is_dir_laid _ _ _ _ _ _ Hl) in Ed.
      destruct Ed as [?|[[_ ?]|[[? _]|(g&_&[?|?])]]]; done.
    + unfold fs_read_dir, io in E. rewrite (la_faults _ _ _ _ _ Hl) in E. by destruct (is_dir ["plugin"] t); simplify_eq.
Qed.

(** *** Reading the gateways *)

Lemma bt_collect_perm {V} (m l : list (string * V)) : bt_sorted m → l ≡ₚ m → bt_collect_from [] l = m.
Proof.
  intros Hm Hl. assert (NoDup l.*1) as Hnd by (rewrite Hl; by apply bt_sorted_NoDup).
  apply bt_ext; [apply bt_collect_is_sorted|done|]. intros k. apply option_eq. intros v.
  fold (bt_collect l). rewrite bt_get_collect, Hl by done. split; [by apply bt_elem_get|apply bt_get_elem].
Qed.

(** What the saved bytes of a gateway's routes say under a name. *)
Lemma saved_routes_get rs rbs r route :
  saved_routes rs rbs → NoDup rs.*1 → (r, route) ∈ rs → ∃ b, bt_get r rbs = Some b ∧ ser_route route = Ok b.
Proof.
  induction 1 as [|[r1 x1] [r2 b] rs rbs [Hk Hb] Hs IH]; [set_solver|]. simpl in *. subst.
  intros [Hnin Hnd]%NoDup_cons [Heq|Hin]%elem_of_cons.
  - simplify_eq. exists b. by rewrite decide_True.
  - destruct (IH Hnd Hin) as (b'&Hget&Hser). exists b'. rewrite decide_False; [done|]. intros ->.
    apply Hnin, list_elem_of_fmap. by exists (r2, route).
Qed.
Lemma saved_routes_keys rs rbs : saved_routes rs rbs → rbs.*1 = rs.*1.
Proof. induction 1 as [|[r1 x1] [r2 b] rs rbs [Hk _] _ IH]; [done|]. simpl in *. by f_equal. Qed.
Lemma saved_gateways_keys l kbs : Forall2 saved_gateway l kbs → kbs.*1 = l.*1.
Proof. induction 1 as [|[g1 x1] [g2 b] l kbs [Hk _] _ IH]; [done|]. simpl in *. by f_equal. Qed.
Lemma saved_gateway_get l kbs g item :
  Forall2 saved_gateway l kbs → NoDup l.*1 → (g, item) ∈ l →
  ∃ kb, bt_get g kbs = Some kb ∧ saved_gateway (g, item) (g, kb).
Proof.
  induction 1 as [|[g1 x1] [g2 kb] l kbs Hkb Hs IH]; [set_solver|]. pose proof Hkb as [Hk _]. simpl in *. subst.
  intros [Hnin Hnd]%NoDup_cons [Heq|Hin]%elem_of_cons.
  - simplify_eq. exists kb. by rewrite decide_True.
  - destruct (IH Hnd Hin) as (kb'&Hget&Hser). exists kb'. rewrite decide_False; [done|]. intros ->.
    apply Hnin, list_elem_of_fmap. by exists (g2, item).
Qed.

Lemma collect_item_ok `{!ConfigFormatLaws F} main pls pd l kbs t g item :
  laid main pls kbs (laid_dirs pd kbs) t → Forall2 saved_gateway l kbs → NoDup l.*1 → (g, item) ∈ l → item_ok (g, item) →
  collect_gateway_item_config g t = (Ok (Some item), t).
Proof.
  intros Hl Hs Hnd Hin [Hg Hst _ Hsorted Hroutes]. simpl in *.
  destruct (saved_gateway_get l kbs g item Hs Hnd Hin) as ([b rbs]&Hget&_&Hser&Hrs). simpl in *.
  assert (g ∈ kbs.*1) as Hgin.
  { rewrite (saved_gateways_keys _ _ Hs). apply list_elem_of_fmap. by exists (g, item). }
  assert (layout main pls kbs ["gateway"; g; file "config"] = Some b) as Hb.
  { simpl. rewrite decide_True by done. by rewrite Hget. }
  assert (∀ p x, layout main pls kbs p = Some x → exists_path p t = true) as Hex.
  { intros p x Hp. unfold exists_path. rewrite (is_file_laid _ _ _ _ _ _ Hl), Hp. by rewrite bool_decide_eq_true_2. }
  assert (laid_dirs pd kbs ["gateway"; g; "route"]) as Hdir by (right; right; right; exists g; auto).
  unfold collect_gateway_item_config, op_bind, query. rewrite main_path_eq, (Hex _ _ Hb) by done.
  rewrite (Hex _ _ Hb). cbn [negb]. rewrite (read_op_ok _ _ _ _ _ _ _ Hl Hb).
  unfold op_lift, op_ret. rewrite (de_ser_item _ _ Hst Hser). rewrite routes_dir_eq by done.
  assert (exists_path ["gateway"; g; "route"] t = true) as ->.
  { unfold exists_path. by rewrite (proj2 (is_dir_laid _ _ _ _ _ _ Hl) Hdir), orb_true_r. }
  cbn [negb]. rewrite read_dir_op_ok; [|apply Hl|by apply (la_dirs _ _ _ _ _ Hl)].
  assert (∀ r route, (r, route) ∈ ci_routes item → ∃ rb, ser_route route = Ok rb ∧ plain r ∧ storable_route route ∧
    layout main pls kbs (["gateway"; g; "route"] ++ [file r]) = Some rb) as Hroute.
  { intros r route Hr. destruct (saved_routes_get _ _ _ _ Hrs (bt_sorted_NoDup _ Hsorted) Hr) as (rb&Hrb&Hrser).
    rewrite Forall_forall in Hroutes. destruct (Hroutes _ Hr) as (Hp&Hsr&_). exists rb. split_and!; [done..|].
    simpl. rewrite by_stem_file by apply Hp. rewrite Hget. done. }
  destruct (children_laid (λ kr, file kr.1) _ _ _ _ _ ["gateway"; g; "route"] (ci_routes item) Hl) as (rs'&Hp&->).
  { apply bt_sorted_NoDup in Hsorted. clear -Hsorted Hroutes FsLaws0.
    induction (ci_routes item) as [|kr rs IH]; [constructor|]. apply Forall_cons in Hroutes as [Hkr Hroutes].
    rewrite fmap_cons in *. apply NoDup_cons in Hsorted as [Hnin Hnd]. apply NoDup_cons. split; [|by apply IH].
    intros (kr'&Heq&Hin)%list_elem_of_fmap. apply Hnin, list_elem_of_fmap. exists kr'. split; [|done].
    rewrite Forall_forall in Hroutes. apply file_inj; [apply Hkr|by apply (Hroutes _ Hin)|done]. }
  { intros n. split.
    - intros [[x Hx]|Hd]; [|by apply laid_dirs_four in Hd]. cbn [app] in Hx. unfold layout in Hx.
      rewrite decide_True in Hx by done. apply by_stem_Some in Hx as (s&Hsne&->&Hx). rewrite Hget in Hx. simpl in Hx.
      apply bt_get_elem in Hx. assert (s ∈ (ci_routes item).*1) as Hk.
      { rewrite <- (saved_routes_keys _ _ Hrs). apply list_elem_of_fmap. by exists (s, x). }
      apply list_elem_of_fmap in Hk as (kr&->&Hk). by exists kr.
    - intros ([r route]&Hr&->). left. destruct (Hroute r route Hr) as (rb&_&_&_&Hrb). by exists rb. }
  erewrite (op_map_pure _ (λ kr, file kr.1) (λ kr, Some kr)).
  - rewrite (omap_id_Some (λ kr, kr)), list_fmap_id. cbn [ci_gateway ci_routes].
    rewrite (bt_collect_perm (ci_routes item)) by done. by destruct item.
  - intros [r route] Hr. rewrite Hp in Hr. destruct (Hroute r route Hr) as (rb&Hrser&(Hne&_&Hsl)&Hsr&Hrb).
    unfold collect_route_entry, op_bind, query. rewrite routes_dir_eq by done. cbn [fst].
    rewrite (is_file_laid _ _ _ _ _ _ Hl), Hrb, bool_decide_eq_true_2 by by eexists.
    rewrite extension_file, bool_decide_eq_true_2, file_stem_file by done. cbn [negb orb].
    rewrite (read_op_ok _ _ _ _ _ _ _ Hl Hrb). unfold op_ret. by rewrite (de_ser_route _ _ Hsr Hrser).
Qed.

Lemma read_dir_none main pls gs D t p :
  laid main pls gs D t → ¬ D p → ∃ e, fs_read_dir p t = (Err e, t).
Proof.
  intros Hl Hp. unfold fs_read_dir, io. rewrite (la_faults _ _ _ _ _ Hl).
  destruct (is_dir p t) eqn:Ed; [|by eexists]. by apply (is_dir_laid _ _ _ _ _ _ Hl) in Ed.
Qed.

Lemma gateway_names_ok main pls pd l kbs t :
  laid main pls kbs (laid_dirs pd kbs) t → Forall2 saved_gateway l kbs → NoDup l.*1 → Forall item_ok l →
  ∃ l', l' ≡ₚ l ∧ gateway_names t = (Ok (fst <$> l'), t).
Proof.
  intros Hl Hs Hnd Hok. unfold gateway_names. rewrite gateway_dir_eq.
  pose proof (saved_gateways_keys _ _ Hs) as Hkeys.
  assert (∀ g, laid_dirs pd kbs ["gateway"; g] ↔ g ∈ l.*1) as Hdir.
  { intros g. rewrite <- Hkeys. split.
    - intros [?|[[? _]|[[? _]|(g'&Hg&[?|?])]]]; by simplify_eq.
    - intros Hg. right; right; right. exists g. auto. }
  destruct (decide (l = [])) as [->|Hne].
  - apply Forall2_nil_inv_l in Hs as ->. destruct (read_dir_none _ _ _ _ _ ["gateway"] Hl) as [e ->].
    + intros [?|[[? _]|[[_ ?]|(g'&Hg&_)]]]; try done. by apply elem_of_nil in Hg.
    + by exists [].
  - rewrite (read_dir_ok t ["gateway"]); [|apply Hl|].
    2: { apply (la_dirs _ _ _ _ _ Hl). right; right; left. split; [done|]. intros ->. by destruct l. }
    destruct (children_laid fst _ _ _ _ _ ["gateway"] l Hl Hnd) as (l'&Hp&->).
    { intros n. cbn [app]. rewrite Hdir, list_elem_of_fmap. split; [|naive_solver].
      intros [[x Hx]|(ki&->&Hki)]; [done|by exists ki]. }
    assert (omap (gateway_entry t) (fst <$> l') = fst <$> l') as ->.
    { assert (Forall (λ g, plain g ∧ g ∈ l.*1) (fst <$> l')) as HF.
      { rewrite Hp. apply Forall_forall. intros g Hg. split; [|done]. apply list_elem_of_fmap in Hg as (ki&->&Hki).
        rewrite Forall_forall in Hok. apply (Hok _ Hki). }
      clear -HF Hl Hdir FsLaws0. induction HF as [|g gs [Hg Hin] HF IH]; [done|]. cbn [omap list_omap]. rewrite IH.
      unfold gateway_entry. rewrite gateway_dir_eq. cbn [app].
      rewrite (proj2 (is_dir_laid _ _ _ _ _ _ Hl)) by by apply Hdir. rewrite orb_true_r.
      destruct (plain_ne_dot _ Hg) as (_&Hdd&Hsl). unfold file_stem, file_name. simpl. rewrite decide_False by naive_solver.
      simpl. by rewrite stem_ext_no_dot by apply Hg. }
    assert (visit (elements (list_to_set (fst <$> l') : gset string)) ≡ₚ fst <$> l') as Hv.
    { rewrite visit_perm. apply elements_list_to_set. by rewrite Hp. }
    apply Permutation_map_inv in Hv as (l2&->&Hl2). exists l2. split; [|done]. by rewrite <- Hl2.
Qed.

Lemma collect_config_ok `{!ConfigFormatLaws F} c ps t : stored_tree c ps t → collect_config t = (Ok c, t).
Proof.
  intros Hst. destruct (collect_plugins_ok c ps t Hst) as (found&Hfound&Hp).
  destruct Hst as [Hc Hps (main&pls&kbs&pd&Hl&Hser&Hs&_&_&_)].
  assert (layout (Some main) pls kbs [file "config"] = Some main) as Hb by by simpl; rewrite decide_True.
  destruct (gateway_names_ok _ _ _ _ _ _ Hl Hs (bt_sorted_NoDup _ (co_sorted c Hc)) (co_items c Hc)) as (l&Hl'&Hnames).
  assert (storable_main (main_config c)) as Hsm by (split_and!; [done|done|apply Hc..]).
  unfold collect_config, op_bind. rewrite entrance_eq, (read_op_ok _ _ _ _ _ _ _ Hl Hb).
  unfold op_lift. rewrite (de_ser_main _ _ Hsm Hser), Hfound, Hnames.
  rewrite (op_map_pure _ fst (λ ki, Some ki)).
  - rewrite (omap_id_Some (λ ki, ki)), list_fmap_id. unfold op_ret, main_config. cbn [c_gateways c_plugins c_api_port c_observability].
    rewrite (bt_collect_perm (c_gateways c)) by (done || apply Hc).
    assert (foldl (λ m pc, <[cfg_id pc:=cfg_spec pc]> m) ∅ found = c_plugins c) as ->; [|by destruct c].
    transitivity (collect ((λ pc, (cfg_id pc, cfg_spec pc)) <$> found) : gmap PluginInstanceId Json).
    + unfold collect. generalize (∅ : gmap PluginInstanceId Json). clear. induction found as [|pc l IH]; [done|]. intros m. apply IH.
    + apply collect_map. rewrite Hp, <- Hps, <- list_fmap_compose. by apply Permutation_map'.
  - intros [g item] Hin. rewrite Hl' in Hin. unfold collect_gateway. cbn [fst].
    assert (item_ok (g, item)) as Hok by (pose proof (co_items c Hc) as HF; rewrite Forall_forall in HF; by apply HF).
    by rewrite (collect_item_ok _ _ _ _ _ _ _ _ Hl Hs (bt_sorted_NoDup _ (co_sorted c Hc)) Hin Hok).
Qed.

(** *** Edits *)

Lemma stored_tree_wf c ps t : stored_tree c ps t → tree_wf t ∧ tr_faults t = [].
Proof.
  intros [Hc Hps (main&pls&kbs&pd&Hl&_&_&Hpd&_&Hout)]. split; [|apply Hl]. destruct Hl as [_ Hfi Hdi].
  assert (∀ p, p ∈ tr_dirs t → p ≠ [] → removelast p ∈ tr_dirs t) as Hup.
  { intros p. rewrite !Hdi. intros [->|[[-> ?]|[[-> ?]|(g&Hg&[->| ->])]]] Hne; [done|by left|by left|..]; simpl.
    - right; right; left. split; [done|]. intros ->. by apply elem_of_nil in Hg.
    - right; right; right. exists g. auto. }
  split; [apply Hdi; by left| |done]. intros p [b Hb]. rewrite Hfi in Hb.
  split_and!; [by intros ->| |].
  - apply Hdi. destruct p as [|d [|g [|r [|f [|? ?]]]]]; simpl in *; try done; try (case_decide as Hd; [|done]).
    + by left.
    + subst d. right; left. split; [done|]. apply by_stem_Some in Hb as (s&_&->&Hb). destruct Hpd as [| ->]; [done|].
      by rewrite Hout in Hb by set_solver.
    + right; right; right. exists g. destruct (bt_get g kbs) as [x|] eqn:E; [|done]. apply bt_get_elem in E.
      destruct Hd as [-> _]. split; [|by left]. apply list_elem_of_fmap. by exists (g, x).
    + apply by_stem_Some in Hb as (s&_&->&Hb). destruct (bt_get g kbs) as [x|] eqn:E; [|done]. apply bt_get_elem in E.
      destruct Hd as [-> ->]. right; right; right. exists g. split; [|by right]. apply list_elem_of_fmap. by exists (g, x).
  - rewrite Hdi. by intros [->|[[-> ?]|[[-> ?]|(g&Hg&[->| ->])]]].
Qed.

(** What is read from a tree: a configuration, and its plugins as they are stored. *)
Record reads (c : Config Json) (ps : list (PluginConfig Json)) t : Prop := {
  rd_wf : tree_wf t;
  rd_faults : tr_faults t = [];
  rd_config : collect_config t = (Ok c, t);
  rd_stored : collect_plugin_configs t = (Ok ps, t);
}.

Lemma with_display_names_fields plugins stored :
  (λ pc, (cfg_id pc, cfg_spec pc)) <$> with_display_names plugins stored ≡ₚ map_to_list plugins.
Proof.
  unfold with_display_names. rewrite <- list_fmap_compose.
  assert (∀ l : list (PluginInstanceId * Json), ((λ pc : PluginConfig Json, (cfg_id pc, cfg_spec pc)) ∘
    (λ kv, MkPluginConfig kv.1 (mjoin ((collect ((λ c, (cfg_id c, cfg_display_name c)) <$> stored) : gmap PluginInstanceId (option string)) !! kv.1)) kv.2)) <$> l = l) as ->.
  { induction l as [|[i sp] l IH]; [done|]. by rewrite fmap_cons, IH. }
  apply visit_perm.
Qed.

Lemma modify_ok `{!ConfigFormatLaws F} f c ps c' t :
  reads c ps t → f c = Ok c' → config_ok c' →
  ∃ t' ps', modify_cached f t = (Ok (), t') ∧ reads c' ps' t' ∧
    ps' ≡ₚ normalize_config <$> with_display_names (c_plugins c') ps.
Proof.
  intros [Hwf Hfa Hcc Hcp] Hf Hc'. destruct (clear_ok t Hwf Hfa) as (t1&Hclear&Hl1).
  destruct (save_all_ok c' (with_display_names (c_plugins c') ps) t1 Hl1 Hc' (with_display_names_fields _ _)) as (t'&Hsave&Hst).
  destruct (collect_plugins_ok _ _ _ Hst) as (ps'&Hps'&Hperm). destruct (stored_tree_wf _ _ _ Hst) as [Hwf' Hfa'].
  exists t', ps'. split_and!; [|split; try done; by eapply collect_config_ok|done].
  unfold modify_cached. rewrite (op_bind_ok _ _ _ _ _ Hcp), (op_bind_ok _ _ _ _ _ Hcc), Hf, op_lift_ok.
  by rewrite (op_bind_ok _ _ _ _ _ Hclear).
Qed.

Lemma modify_err f c ps e t : reads c ps t → f c = Err e → modify_cached f t = (Err e, t).
Proof.
  intros [_ _ Hcc Hcp] Hf. unfold modify_cached. rewrite (op_bind_ok _ _ _ _ _ Hcp), (op_bind_ok _ _ _ _ _ Hcc), Hf. done.
Qed.

(** *** The operations of the backend *)

Lemma reads_sorted_routes c name item : config_ok c → bt_get name (c_gateways c) = Some item → bt_sorted (ci_routes item).
Proof. intros Hc Hi%bt_get_elem. pose proof (co_items c Hc) as HF. rewrite Forall_forall in HF. apply (HF _ Hi). Qed.

(** The default methods over this backend give what is in the configuration that is read. *)
Lemma fs_retrieve_item c ps t name :
  reads c ps t → config_ok c → retrieve_config_item name t = (Ok (bt_get name (c_gateways c)), t).
Proof.
  intros [_ _ Hcc _] Hc. unfold retrieve_config_item. unfold op_bind at 1. cbn [retrieve_config_item_gateway fs_retrieve].
  assert (∀ {T} (f : Config Json → T), retrieve_cached f t = (Ok (f c), t)) as Hr.
  { intros T f. unfold retrieve_cached. by rewrite (op_bind_ok _ _ _ _ _ Hcc). }
  rewrite Hr. destruct (bt_get name (c_gateways c)) as [[g rs]|] eqn:E; [|done]. cbn [fmap option_fmap option_map ci_gateway].
  pose proof (reads_sorted_routes c name _ Hc E) as Hrs. cbn [ci_routes] in Hrs.
  unfold op_bind, retrieve_config_item_all_routes, op_bind.
  cbn [retrieve_config_item_route_names fs_retrieve]. rewrite Hr, E. cbn [fmap option_fmap option_map default ci_routes].
  rewrite (collect_routes_spec name (λ n, bt_get n rs)).
  - cbv beta. unfold id. rewrite omap_keys by done. unfold bt_collect_from. by rewrite bt_rebuild.
  - intros n _. cbn. rewrite Hr, E. done.
Qed.

(** The check for an existing route looks for the gateway's name, so that a route is
    overwritten, and refused where another one is called like the gateway. *)
Lemma fs_create_route_unchecked `{!ConfigFormatLaws F} c ps t gateway name item route :
  reads c ps t → bt_get gateway (c_gateways c) = Some item →
  let c' := set_item gateway (MkItem (ci_gateway item) (bt_insert name route (ci_routes item))) c in
  config_ok c' →
  match bt_get gateway (ci_routes item) with
  | Some _ => fs_create_config_item_route gateway name route t = (Err "route existed", t)
  | None => ∃ t' ps', fs_create_config_item_route gateway name route t = (Ok (), t') ∧ reads c' ps' t'
  end.
Proof.
  intros Hr Hi c' Hc'. unfold fs_create_config_item_route. destruct (bt_get gateway (ci_routes item)) eqn:E.
  - apply (modify_err _ c ps); [done|]. unfold with_item. by rewrite Hi, E.
  - edestruct (modify_ok (λ config, with_item gateway (Err "gateway not exists") (λ item,
      match bt_get gateway (ci_routes item) with
      | Some _ => Err "route existed"
      | None => Ok (MkItem (ci_gateway item) (bt_insert name route (ci_routes item)))
      end) config) c ps c' t Hr) as (t'&ps'&?&?&_); [|done|by exists t', ps'].
    unfold with_item. by rewrite Hi, E.
Qed.

(** A plugin that is written is read back from its file, and no other file changes. *)
Lemma fs_update_plugin_spec `{!ConfigFormatLaws F} t pc b :
  tree_wf t → tr_faults t = [] → id_ok (cfg_id pc) → ser_value (encode_stored_plugin_config pc) = Ok b →
  tr_files t !! ["plugin"] = None → plugin_path (cfg_id pc) ∉ tr_dirs t →
  ∃ t', fs_update_plugin pc t = (Ok (), t') ∧ read_plugin_config (cfg_id pc) t' = (Ok (Some (normalize_config pc)), t') ∧
    ∀ p, p ≠ plugin_path (cfg_id pc) → tr_files t' !! p = tr_files t !! p.
Proof.
  intros Hwf Hf (Hid&Hne&Hs) Hser Hplugin Hnd. rewrite plugin_path_eq in * by done.
  set (t1 := set_dirs (list_to_set (prefixes ["plugin"]) ∪ tr_dirs t) t).
  assert (io_op (fs_create_dir_all plugin_dir) t = (Ok (), t1)) as Hop1.
  { apply io_op_ok; [done|]. rewrite plugin_dir_eq. destruct (existsb _ _) eqn:E; [|done].
    apply existsb_exists in E as (q&Hq%list_elem_of_In&Hqf). unfold is_file in Hqf. apply bool_decide_eq_true in Hqf.
    unfold prefixes in Hq. simpl in Hq. apply elem_of_cons in Hq as [->|Hq]; [by apply (tw_file t Hwf) in Hqf as [? _]|].
    apply list_elem_of_singleton in Hq as ->. rewrite Hplugin in Hqf. by destruct Hqf. }
  set (t2 := set_files (<[["plugin"; file (as_file_stem (cfg_id pc))] := b]> (tr_files t1)) t1).
  assert (io_op (fs_write ["plugin"; file (as_file_stem (cfg_id pc))] b) t1 = (Ok (), t2)) as Hop2.
  { apply io_op_ok; [done|]. unfold is_dir. simpl removelast.
    rewrite (bool_decide_eq_true_2 (["plugin"] ∈ tr_dirs t1)) by (unfold t1, prefixes; simpl; set_solver).
    rewrite bool_decide_eq_false_2; [done|]. unfold t1, prefixes. simpl. set_solver. }
  exists t2. split_and!.
  - unfold fs_update_plugin. rewrite (op_bind_ok _ _ _ _ _ Hop1). unfold write_plugin_config.
    rewrite Hser, op_lift_ok, plugin_path_eq by done. exact Hop2.
  - unfold read_plugin_config, fs_read, io. rewrite plugin_path_eq by done. cbn [tr_faults t2 t1 set_files set_dirs].
    rewrite Hf. cbn [tr_files t2 set_files]. rewrite lookup_insert_eq. unfold op_bind, op_lift, op_ret.
    by rewrite (de_ser_value _ _ Hser), decode_encoded.
  - intros p Hp. cbn [tr_files t2 t1 set_files set_dirs]. by rewrite lookup_insert_ne.
Qed.
End layout.

(** ** A reference format, and a directory with a gateway and a plugin *)

Inductive fs_bytes :=
| FsGateway (g : Gateway_)
| FsRoute (r : Route_)
| FsValue (v : Json)
| FsMain (c : Config Json)
| FsItem (i : Item_).
#[export] Instance ref_fs_format : ConfigFormat := {|
  Bytes := fs_bytes;
  ser_gateway g := Ok (FsGateway g);
  de_gateway b := match b with FsGateway g => Ok g | _ => Err "not a gateway" end;
  ser_route r := Ok (FsRoute r);
  de_route b := match b with FsRoute r => Ok r | _ => Err "not a route" end;
  ser_value v := Ok (FsValue v);
  de_value b := match b with FsValue v => Ok v | _ => Err "not a value" end;
|}.
#[export] Instance ref_fs_format_laws : ConfigFormatLaws ref_fs_format.
Proof. split; simpl; [intros ?? _ [= <-]|intros ?? _ [= <-]|intros ?? [= <-]]; done. Qed.
#[export] Instance ref_fs_lib : @FsLib ref_fs_format := {|
  fs_extension := "json";
  ser_main c := Ok (FsMain c);
  de_main b := match b with FsMain c => Ok c | _ => Err "not a configuration" end;
  ser_item i := Ok (FsItem i);
  de_item b := match b with FsItem i => Ok i | _ => Err "not an item" end;
  io_message k := match k with IoNotFound => "not found" | IoOther => "failed" end;
  visit A l := l;
|}.
#[export] Instance ref_fs_laws : FsLaws ref_fs_lib.
Proof. split; simpl; [by apply plain_const_plain|done|by intros ?? _ [= <-]|by intros ?? _ [= <-]]. Qed.

Definition ex_main : Config Json := MkConfig [] ∅ (Some 9876%Z) observability_default.
(** A directory with the main file only. *)
Definition ex_dir (faults : list bool) : Tree (H:=ref_fs_format) :=
  MkTree {[ ["config.json"] := FsMain ex_main ]} {[ [] ]} faults.
Definition ex_item : Item_ := MkItem ex_gateway [("a", ex_http_route "a")].

(** An edit that fails between the clearing of the directory and its writing leaves nothing
    behind, not even the main file. *)
Example fs_rewrite_not_atomic :
  let t' := (create_config_item_gateway "gw" ex_gateway (ex_dir [false; false; false; false; false; false; false; true])).2 in
  (create_config_item_gateway "gw" ex_gateway (ex_dir [false; false; false; false; false; false; false; true])).1 = Err "failed" ∧
  map_to_list (tr_files t') = [].
Proof. by vm_compute. Qed.

(** ** Properties *)


