(* ===== verification/Plugins.v ===== *)
(** * The built-in plugins

    [crates/plugin/src/model.rs] and [crates/plugin/src/plugins]: rewrite, redirect,
    header-modifier, maintenance, inject, set-scheme, set-version, the east-west white list
    and static-resource, each with its configuration, [create] and [call], as instances of
    the class [Plugin] of [PluginRepo.v].

    What the plugins take from libraries is the class [PluginEnv]: the derived
    deserialisers of the configurations, the messages of library errors, the parsers of
    header names, networks and URLs, the clock and the files. The feature [schema] is off. *)

From S2P Require Export PluginRepo MatchRequest Upstream Middleware.
From S2P Require Import RefHttp.
Local Open Scope string_scope.
Local Open Scope list_scope.
Local Open Scope Z_scope.

(** ** Configurations *)

Inductive SgHttpPathModifierType := ReplaceFullPath | ReplacePrefixMatch | ReplaceRegex.
Record SgHttpPathModifier := MkPathModifier { pm_kind : SgHttpPathModifierType; pm_value : string }.

Record SgFilterRewriteConfig := MkRewriteConfig {
  rwc_hostname : option string; rwc_path : option SgHttpPathModifier }.
Record RewritePlugin := MkRewrite { rw_hostname : option string; rw_path : option SgHttpPathModifier }.

Record RedirectPlugin := MkRedirect {
  rd_scheme : option string;
  rd_hostname : option string;
  rd_path : option SgHttpPathModifier;
  rd_port : option Z;
  rd_status_code : option Z;
}.

(** [sets] is a [HashMap]: its entries in the order of a visit. *)
Inductive SgFilterHeaderModifierKind := ModifyRequest | ModifyResponse.
Record SgFilterHeaderModifier := MkHeaderModifierConfig {
  hmc_kind : SgFilterHeaderModifierKind;
  hmc_sets : option (list (string * string));
  hmc_remove : option (list string);
}.

(** A [NaiveTime] is a number of nanoseconds since midnight. *)
Record TimeRange := MkTimeRange { range_start : Z; range_end : Z }.
Record MaintenancePluginConfig := MkMaintenanceConfig {
  mtc_enabled_time_range : option (list TimeRange);
  mtc_exclude_ip_range : option (list string);
  mtc_title : string;
  mtc_msg : string;
  mtc_redirect : option string;
}.
Record MaintenancePlugin := MkMaintenance {
  mt_enabled_time_range : option (list TimeRange);
  mt_title : string;
  mt_msg : string;
  mt_redirect : option string;
  mt_exclude_ip_range : option (list IpNet);
}.

(** A [Duration] is a number of milliseconds. *)
Record InjectPlugin := MkInject {
  ij_req_inject_url : option string;
  ij_req_timeout : Z;
  ij_resp_inject_url : option string;
  ij_resp_timeout : Z;
}.
Definition DEFAULT_TIMEOUT : Z := 5000.
Definition inject_default : InjectPlugin := MkInject None DEFAULT_TIMEOUT None DEFAULT_TIMEOUT.

Record SetSchemePluginConfig := MkSetSchemeConfig { ssc_scheme : string }.
Record SetSchemePlugin := MkSetScheme { ss_scheme : string }.
Record SetVersionPlugin := MkSetVersion { sv_version : Z }.

Record EastWestTrafficWhiteListConfig := MkWhiteListConfig { wlc_ip_list : list string }.
Record EastWestTrafficWhiteListPlugin := MkWhiteList { wl_ip_list : list IpNet }.

Inductive BodyEnum (Value : Type) := BodyJson (v : Value) | BodyText (s : string) | BodyFile (path : string).
Arguments BodyJson {Value}.
Arguments BodyText {Value}.
Arguments BodyFile {Value}.
Record StaticResourceConfig (Value : Type) := MkStaticConfig {
  stc_code : Z; stc_content_type : string; stc_body : BodyEnum Value }.
Arguments stc_code {Value}.
Arguments stc_content_type {Value}.
Arguments stc_body {Value}.
Record StaticResourcePlugin := MkStatic { st_code : Z; st_content_type : string; st_body : string }.

(** ** The libraries *)

(** The library errors a plugin returns with [?]. *)
Inductive LibError :=
| InvalidUri | InvalidPartsOfUri | InvalidHeaderName | InvalidHeaderValue | InvalidMethod
| InvalidStatusCode | InvalidUrl | InvalidUrlHost | IoError.

Class PluginEnv `{HttpLib} (Value : Type) := {
  lib_message : LibError → string;
  cargo_meta : PluginMetaData;
  json_text : Value → string;
  json_get_str : Value → string → option string;
  de_rewrite : Value → result SgFilterRewriteConfig string;
  de_redirect : Value → result RedirectPlugin string;
  de_header_modifier : Value → result SgFilterHeaderModifier string;
  de_maintenance : Value → result MaintenancePluginConfig string;
  de_inject : Value → result InjectPlugin string;
  de_set_scheme : Value → result SetSchemePluginConfig string;
  de_white_list : Value → result EastWestTrafficWhiteListConfig string;
  de_static : Value → result (StaticResourceConfig Value) string;
  header_name_from_bytes : string → option string;
  header_value_from_bytes : string → option string;
  method_from_bytes : string → option string;
  uri_from_str : string → option Uri;
  uri_to_string : Uri → string;
  re_as_str : Regex → string;
  Url : Type;
  url_parse : string → option Url;
  url_set_host : string → Url → option Url;
  url_set_scheme : string → Url → option Url;
  url_set_port : Z → Url → option Url;
  net_from_str : string → option IpNet;
  net_from_addr : IpAddr → IpNet;
  net_aggregate : list IpNet → list IpNet;
  local_time : Request → Z;
  fs_read : string → option string;
}.

(** [IpNet::aggregate] and [IpNet::from] keep the set of addresses. *)
Class PluginEnvLaws `{HttpLib} {Value} (E : PluginEnv Value) : Prop := {
  net_aggregate_contains l ip :
    existsb (λ n, net_contains n ip) (net_aggregate l) = existsb (λ n, net_contains n ip) l;
  net_from_addr_contains a ip : net_contains (net_from_addr a) ip = true ↔ ip = a;
}.

(** [r?] on a library result *)
Definition lib_try `{PluginEnv Value} {A} (o : option A) (e : LibError) : result A string :=
  ok_or o (lib_message e).

(** [plugin_meta!(description: ..)]: the rest is the package's. *)
Definition described `{PluginEnv Value} (description : string) : PluginMetaData :=
  MkMeta None (meta_authors cargo_meta) (Some description) (meta_version cargo_meta)
    (meta_homepage cargo_meta) (meta_repository cargo_meta).

(** [transpose] of an optional conversion *)
Definition transpose {A B E} (o : option A) (f : A → result B E) : result (option B) E :=
  match o with None => Ok None | Some a => let? b := f a in Ok (Some b) end.

(** What a call of a plugin returns: [None] is a panic. *)
Definition Called `{HttpLib} : Type := option (result Response string).

(** [Ok(inner.call(req).await)], and [e?] in front of the rest of a call *)
Definition forward `{HttpLib} (inner : Service) (req : Request) : Called := Ok <$> inner req.
Definition call_try `{HttpLib} {A} (r : result A string) (k : A → Called) : Called :=
  match r with Ok a => k a | Err e => Some (Err e) end.
Notation "'try!' x ':=' e 'in' k" := (call_try e (λ x, k))
  (at level 10, x name, e at level 100, k at level 200) : rust_scope.

(** ** Path modifiers and rewriting *)

Section rewrite.
Context `{HttpLib}.

(** [SgHttpPathModifier::replace]: the loop over the segments is the one of
    [HttpPathMatchRewrite::rewrite]. *)
Definition modifier_replace (m : SgHttpPathModifier) (path : string) (path_match : HttpPathMatchRewrite)
  : option string :=
  let value := pm_value m in
  match pm_kind m, path_match with
  | ReplaceFullPath, _ => if eq_ignore_ascii_case value path then Some value else None
  | ReplacePrefixMatch, PathPrefix prefix _ =>
      rewrite_prefix value (ends_with path "/") (segments "/" path) (segments "/" prefix)
  | ReplaceRegex, PathRegExp re _ => Some (re_replace re path value)
  | _, _ => None
  end.

Context `{!PluginEnv Value}.

(** The path and query the rewrite plugin leaves in the URI. *)
Definition rewrite_path_and_query (modifier : SgHttpPathModifier) (req : Request)
  : result (option PathAndQuery) string :=
  let pq := uri_path_and_query (req_uri req) in
  match ext_matched_router (req_ext req), pq with
  | Some matched, Some p =>
      match rm_path matched with
      | Some path_match =>
          match modifier_replace modifier (pq_path p) path_match with
          | Some new_path =>
              let new_pq := match pq_query p with
                            | Some query => (new_path +:+ "?") +:+ query
                            | None => new_path
                            end in
              let? new_pq := ok_or (pq_parse new_pq)
                (plugin_error_string (MkPluginError "rewrite" (lib_message InvalidUri) 500)) in
              Ok (Some new_pq)
          | None => Ok pq
          end
      | None => Ok pq
      end
  | _, _ => Ok pq
  end.

(** [RewritePlugin::call] and [create] *)
Definition rewrite_call (p : RewritePlugin) (req : Request) (inner : Service) : Called :=
  let req := match rw_hostname p with
             | Some hostname => set_headers (hm_insert "host" hostname (req_headers req)) req
             | None => req
             end in
  match rw_path p with
  | Some modifier =>
      let u := req_uri req in
      try! pq := rewrite_path_and_query modifier req in
      try! u := lib_try (uri_from_parts (MkUri (uri_scheme u) (uri_authority u) pq)) InvalidPartsOfUri in
      forward inner (set_uri u req)
  | None => forward inner req
  end.
Definition rewrite_create (config : PluginConfig Value) : result RewritePlugin string :=
  let? plugin_config := de_rewrite (cfg_spec config) in
  let? hostname := transpose (rwc_hostname plugin_config)
    (λ h, lib_try (hv_from_str h) InvalidHeaderValue) in
  Ok (MkRewrite hostname (rwc_path plugin_config)).
#[global] Instance rewrite_plugin : Plugin (Value:=Value) RewritePlugin := {
  CODE := "rewrite"; MONO := false;
  meta := described "Rewrite path and host plugin.";
  schema_title := None;
  call := rewrite_call; create := rewrite_create }.

(** ** Redirection *)

(** [RedirectPlugin::call] and [create] *)
Definition redirect_call (p : RedirectPlugin) (req : Request) (inner : Service) : Called :=
  try! url := lib_try (url_parse (uri_to_string (req_uri req))) InvalidUrl in
  try! url := (match rd_hostname p with
               | Some hostname => lib_try (url_set_host hostname url) InvalidUrlHost
               | None => Ok url
               end) in
  try! url := (match rd_scheme p with
               | Some scheme => ok_or (url_set_scheme scheme url) "fail to set schema"
               | None => Ok url
               end) in
  try! _ := (match rd_port p with
             | Some port => ok_or (url_set_port port url) "fail to set port"
             | None => Ok url
             end) in
  forward inner req.
Definition redirect_create (config : PluginConfig Value) : result RedirectPlugin string :=
  de_redirect (cfg_spec config).
#[global] Instance redirect_plugin : Plugin (Value:=Value) RedirectPlugin := {
  CODE := "redirect"; MONO := false; meta := meta_default; schema_title := None;
  call := redirect_call; create := redirect_create }.
End rewrite.

(** ** Header modification *)

Section header_modifier.
Context `{HttpLib}.

Record Filter := MkFilter { filter_sets : HeaderMap; filter_remove : list string }.
Definition filter_default : Filter := MkFilter hm_empty [].
Record HeaderModifierPlugin := MkHeaderModifier { hmp_request : Filter; hmp_response : Filter }.

(** The two loops of [HeaderModifierPlugin::call] *)
Definition apply_filter (f : Filter) (h : HeaderMap) : HeaderMap :=
  let h := foldl (λ h kv, hm_append kv.1 kv.2 h) h (hm_iter (filter_sets f)) in
  foldl (λ h k, hm_remove k h) h (filter_remove f).

Definition header_modifier_call (p : HeaderModifierPlugin) (req : Request) (inner : Service) : Called :=
  let req := set_headers (apply_filter (hmp_request p) (req_headers req)) req in
  resp ← inner req;
  Some (Ok (set_resp_headers (apply_filter (hmp_response p) (resp_headers resp)) resp)).

Context `{!PluginEnv Value}.

Fixpoint collect_sets (entries : list (string * string)) (sets : HeaderMap) : result HeaderMap string :=
  match entries with
  | [] => Ok sets
  | (k, v) :: entries =>
      let? name := lib_try (header_name_from_bytes k) InvalidHeaderName in
      let? value := lib_try (header_value_from_bytes v) InvalidHeaderValue in
      collect_sets entries (hm_insert name value sets)
  end.
Fixpoint collect_remove (keys : list string) : result (list string) string :=
  match keys with
  | [] => Ok []
  | k :: keys =>
      let? name := lib_try (header_name_from_bytes k) InvalidHeaderName in
      let? names := collect_remove keys in
      Ok (name :: names)
  end.

(** [HeaderModifierPlugin::create] *)
Definition header_modifier_create (config : PluginConfig Value) : result HeaderModifierPlugin string :=
  let? plugin_config := de_header_modifier (cfg_spec config) in
  let? sets := collect_sets (default [] (hmc_sets plugin_config)) hm_empty in
  let? remove := collect_remove (default [] (hmc_remove plugin_config)) in
  let f := MkFilter sets remove in
  Ok match hmc_kind plugin_config with
     | ModifyRequest => MkHeaderModifier f filter_default
     | ModifyResponse => MkHeaderModifier filter_default f
     end.
#[global] Instance header_modifier_plugin : Plugin (Value:=Value) HeaderModifierPlugin := {
  CODE := "header-modifier"; MONO := false; meta := meta_default; schema_title := None;
  call := header_modifier_call; create := header_modifier_create }.
End header_modifier.

(** ** Maintenance *)

(** [Range::contains] *)
Definition range_contains (start fin time : Z) : bool := (start <=? time) && (time <? fin).

(** [check_by_time], [check_ip] *)
Definition contains_time (time : Z) (r : TimeRange) : bool :=
  if range_end r <? range_start r then negb (range_contains (range_end r) (range_start r) time)
  else range_contains (range_start r) (range_end r) time.
Definition check_by_time (p : MaintenancePlugin) (time : Z) : bool :=
  match mt_enabled_time_range p with
  | Some enabled_time => existsb (contains_time time) enabled_time
  | None => true
  end.
Definition check_ip (p : MaintenancePlugin) (ip : IpAddr) : bool :=
  match mt_exclude_ip_range p with
  | Some ips => existsb (λ allow_ip, net_contains allow_ip ip) ips
  | None => false
  end.

Inductive ContentType := Html | Json | Other.
Fixpoint negotiate (accept_types : list string) : ContentType :=
  match accept_types with
  | [] => Other
  | t :: accept_types =>
      if decide (t = "text/html") then Html
      else if decide (t = "application/json") then Json
      else negotiate accept_types
  end.

(** [msg.replace('\n', "<br>")] *)
Fixpoint str_replace_char (c : ascii) (by_ : string) (s : string) : string :=
  match s with
  | "" => ""
  | String a s' =>
      if decide (a = c) then by_ +:+ str_replace_char c by_ s' else String a (str_replace_char c by_ s')
  end.
Definition newline : ascii := ascii_of_nat 10.

(** A text in which the back quote stands for the double quote. *)
Definition quote_char : ascii := ascii_of_nat 34.
Definition quoted : string → string := str_map (λ a, if decide (a = "`"%char) then quote_char else a).

Definition maintenance_page (title msg : string) : string :=
  quoted "<!DOCTYPE html>
                    <html>
                    <head>
                        <meta charset=`UTF-8` />
                        <meta name=`viewport` content=`width=device-width, initial-scale=1.0` />
                        <meta http-equiv=`cache-control` content=`no-cache, no-store, must-revalidate` />
                        <title>" +:+
  title +:+
  quoted "</title>
                        <style>
                            body {
                                background: radial-gradient(circle at top left, #FFD700 0%, #FF8C00 25%, #FF4500 50%, #FF6347 75%, #FF1493 100%);
                                height: 100vh;
                                display: flex;
                                justify-content: center;
                                align-items: center;
                            }
                    
                            h1 {
                                font-size: 40px;
                                color: #FFFFFF;
                            }
                    
                            p {
                                font-size: 20px;
                                color: #FFFFFF;
                                margin-bottom: 20px;
                            }
                        </style>
                    </head>
                    <body>
                        <div>
                        <h1>" +:+
  title +:+
  quoted "</h1>
                        <br>
                            <p>" +:+
  msg +:+
  quoted "</p>
                        </div>
                    </body>
                    </html>
                    ".

Definition maintenance_config_default : MaintenancePluginConfig :=
  MkMaintenanceConfig None None "System Maintenance"
    "We apologize for the inconvenience, but we are currently performing system maintenance. We will be back to normal shortly./n Thank you for your patience, understanding, and support." None.

Section maintenance.
Context `{HttpLib} `{!PluginEnv Value}.

Definition maintenance_accept (req : Request) : ContentType :=
  match hm_get (req_headers req) "accept" with
  | Some accept => negotiate (str_split "," (default "" (hv_to_str accept)))
  | None => Other
  end.

(** The three responses [MaintenancePlugin::call] builds *)
Definition maintenance_response (p : MaintenancePlugin) (t : ContentType) : Response :=
  let page content_type body :=
    MkResp 503 (hm_append "content-type" content_type hm_empty) ext_empty body in
  match t with
  | Html => page "text/html" (maintenance_page (mt_title p) (str_replace_char newline "<br>" (mt_msg p)))
  | Json => page "application/json" (String quote_char (mt_msg p +:+ String quote_char ""))
  | Other => page "text/html" ("<h1>" +:+ mt_title p +:+ "</h1>")
  end.

(** [MaintenancePlugin::call] and [create] *)
Definition maintenance_call (p : MaintenancePlugin) (req : Request) (inner : Service) : Called :=
  original_ip ← original_ip_addr req;
  if check_by_time p (local_time req) && negb (check_ip p original_ip) then
    let resp := maintenance_response p (maintenance_accept req) in
    match mt_redirect p with
    | Some redirect =>
        if decide (uri_path (req_uri req) = redirect) then forward inner req
        else
          try! location := lib_try (hv_from_str redirect) InvalidHeaderValue in
          Some (Ok (set_status 307 (set_resp_headers (hm_insert "location" location (resp_headers resp)) resp)))
    | None => Some (Ok resp)
    end
  else forward inner req.

Definition parse_net (s : string) : option IpNet :=
  opt_or (net_from_str s) (net_from_addr <$> parse_ip s).
Definition maintenance_create (config : PluginConfig Value) : result MaintenancePlugin string :=
  let? c := de_maintenance (cfg_spec config) in
  Ok (MkMaintenance (mtc_enabled_time_range c) (mtc_title c) (mtc_msg c) (mtc_redirect c)
    ((λ l : list string, omap (M:=list) parse_net l) <$> mtc_exclude_ip_range c)).
#[global] Instance maintenance_plugin : Plugin (Value:=Value) MaintenancePlugin := {
  CODE := "maintenance"; MONO := false; meta := described "Maintenance page plugin."; schema_title := None;
  call := maintenance_call; create := maintenance_create }.

(** ** The east-west white list *)

Definition white_list_from (value : EastWestTrafficWhiteListConfig) : EastWestTrafficWhiteListPlugin :=
  MkWhiteList (net_aggregate (omap parse_net (wlc_ip_list value))).
Definition white_list_match (p : EastWestTrafficWhiteListPlugin) (ip : IpAddr) : bool :=
  existsb (λ net, net_contains net ip) (wl_ip_list p).
Definition white_list_call (p : EastWestTrafficWhiteListPlugin) (req : Request) (inner : Service) : Called :=
  original_addr ← original_ip_addr req;
  forward inner (if white_list_match p original_addr then map_ext (ext_set_east_west true) req else req).
Definition white_list_create (config : PluginConfig Value) : result EastWestTrafficWhiteListPlugin string :=
  let? plugin_config := de_white_list (cfg_spec config) in Ok (white_list_from plugin_config).
#[global] Instance white_list_plugin : Plugin (Value:=Value) EastWestTrafficWhiteListPlugin := {
  CODE := "east-west-traffic-white-list"; MONO := false; meta := meta_default; schema_title := None;
  call := white_list_call; create := white_list_create }.
End maintenance.

(** ** Scheme, version and static resources *)

(** [to_uppercase]: the compared texts are ASCII, and no other character has one of their
    letters as its upper case. *)
Definition ascii_upper (a : ascii) : ascii :=
  if is_ascii_lower a then ascii_of_N (byte_val a - 32) else a.

Section sets.
Context `{HttpLib} `{!PluginEnv Value}.

(** [SetSchemePlugin]: [Authority::from_static] and [PathAndQuery::from_static] panic on a
    text their parser rejects. *)
Definition set_scheme_call (p : SetSchemePlugin) (req : Request) (inner : Service) : Called :=
  let u := req_uri req in
  authority ← (match uri_authority u with Some a => Some a | None => authority_parse "" end);
  pq ← (match uri_path_and_query u with Some pq => Some pq | None => pq_parse "/" end);
  try! u := lib_try (uri_from_parts (MkUri (Some (ss_scheme p)) (Some authority) (Some pq))) InvalidPartsOfUri in
  forward inner (set_uri u req).
Definition set_scheme_create (config : PluginConfig Value) : result SetSchemePlugin string :=
  let? config := de_set_scheme (cfg_spec config) in
  let? scheme := ok_or (scheme_parse (ssc_scheme config)) ("parse scheme error: " +:+ lib_message InvalidUri) in
  Ok (MkSetScheme scheme).
#[global] Instance set_scheme_plugin : Plugin (Value:=Value) SetSchemePlugin := {
  CODE := "set-scheme"; MONO := false; meta := meta_default; schema_title := None;
  call := set_scheme_call; create := set_scheme_create }.

(** [SetVersionPlugin] *)
Definition set_version_call (p : SetVersionPlugin) (req : Request) (inner : Service) : Called :=
  forward inner (set_version (sv_version p) req).
Definition parse_version (version : string) : option Z :=
  let v := str_map ascii_upper version in
  if decide (v = "HTTP/1.0" ∨ v = "HTTP10") then Some 10
  else if decide (v = "HTTP/1.1" ∨ v = "HTTP11") then Some 11
  else if decide (v = "HTTP/2.0" ∨ v = "HTTP2") then Some 20
  else if decide (v = "HTTP/3.0" ∨ v = "HTTP3") then Some 30
  else None.
Definition set_version_create (config : PluginConfig Value) : result SetVersionPlugin string :=
  let? version := ok_or (json_get_str (cfg_spec config) "version") "version not found" in
  let? version := ok_or (parse_version version) "version not found" in
  Ok (MkSetVersion version).
#[global] Instance set_version_plugin : Plugin (Value:=Value) SetVersionPlugin := {
  CODE := "set-version"; MONO := false; meta := meta_default; schema_title := None;
  call := set_version_call; create := set_version_create }.

(** [StaticResourcePlugin]: the inner service is not called. *)
Definition static_resource_call (p : StaticResourcePlugin) (req : Request) (_ : Service) : Called :=
  let resp := MkResp (st_code p) (hm_append "content-type" (st_content_type p) hm_empty) ext_empty (st_body p) in
  Some (Ok match ext_reflect (req_ext req) with
           | Some reflect => map_resp_ext (λ e, ext_extend e reflect) resp
           | None => resp
           end).
(** [StatusCode::from_u16] *)
Definition status_from_u16 (code : Z) : option Z := if (100 <=? code) && (code <? 1000) then Some code else None.
Definition static_resource_create (config : PluginConfig Value) : result StaticResourcePlugin string :=
  let? plugin_config := de_static (cfg_spec config) in
  let? content_type := lib_try (header_value_from_bytes (stc_content_type plugin_config)) InvalidHeaderValue in
  let? body := (match stc_body plugin_config with
                | BodyJson value => Ok (json_text value)
                | BodyText text => Ok text
                | BodyFile path => lib_try (fs_read path) IoError
                end) in
  let? code := lib_try (status_from_u16 (stc_code plugin_config)) InvalidStatusCode in
  Ok (MkStatic code content_type body).
#[global] Instance static_resource_plugin : Plugin (Value:=Value) StaticResourcePlugin := {
  CODE := "static-resource"; MONO := false; meta := meta_default; schema_title := None;
  call := static_resource_call; create := static_resource_create }.
End sets.

(** ** Injection *)

Section inject.
Context `{HttpLib} `{!PluginEnv Value} `{!Client} `{!Runtime}.

Definition SG_INJECT_REAL_METHOD : string := "sg-inject-real-method".
Definition SG_INJECT_REAL_URL : string := "sg-inject-real-url".

(** [HttpClient::request_timeout] *)
Definition request_timeout (req : Request) (timeout : Z) : Response :=
  if expired timeout req then with_code_message 504 "request timeout" else client_request req.

(** [Request::builder().method(Method::PUT).uri(url).body(body)]: version 1.1 *)
Definition put_request (url : string) (headers : HeaderMap) (body : string) : result Request string :=
  let? u := lib_try (uri_from_str url) InvalidUri in
  Ok (MkReq "PUT" u 11 headers ext_empty body).

(** The request made of the injector's response. *)
Definition injected_request (req : Request) (resp : Response) : result Request string :=
  let headers := resp_headers resp in
  let? new_req_method := transpose (hm_get headers SG_INJECT_REAL_METHOD)
    (λ m, lib_try (method_from_bytes m) InvalidMethod) in
  let headers := hm_remove SG_INJECT_REAL_METHOD headers in
  let? new_req_url := transpose (hm_get headers SG_INJECT_REAL_URL)
    (λ u, lib_try (uri_from_str u) InvalidUri) in
  let headers := hm_remove SG_INJECT_REAL_URL headers in
  Ok (MkReq (default (req_method req) new_req_method) (default (req_uri req) new_req_url)
    (req_version req) headers (req_ext req) (resp_body resp)).

(** [req_filter]: [None] is the panic "should have reflect extension". *)
Definition req_filter (p : InjectPlugin) (req : Request) : option (result Request string) :=
  reflect ← ext_reflect (req_ext req);
  let real_method := req_method req in
  let real_uri := req_uri req in
  let req := map_ext (ext_set_reflect (Some (rf_set_real_request real_method real_uri reflect))) req in
  Some match ij_req_inject_url p with
       | Some req_inject_url =>
           let? m := lib_try (hv_from_str real_method) InvalidHeaderValue in
           let? u := lib_try (hv_from_str (uri_to_string real_uri)) InvalidHeaderValue in
           let? inject_request := put_request req_inject_url
             (hm_append SG_INJECT_REAL_URL u (hm_append SG_INJECT_REAL_METHOD m hm_empty)) (req_body req) in
           injected_request req (request_timeout inject_request (ij_req_timeout p))
       | None => Ok req
       end.

(** [resp_filter] *)
Definition resp_filter (p : InjectPlugin) (resp : Response) : result Response string :=
  match ij_resp_inject_url p with
  | Some resp_inject_url =>
      let? inject_request := put_request resp_inject_url hm_empty (resp_body resp) in
      let? headers := (match ext_real_method (resp_ext resp) with
                       | Some m =>
                           let? m := lib_try (hv_from_str m) InvalidHeaderValue in
                           Ok (hm_insert SG_INJECT_REAL_METHOD m hm_empty)
                       | None => Ok hm_empty
                       end) in
      let? headers := (match ext_real_uri (resp_ext resp) with
                       | Some u =>
                           let? u := lib_try (hv_from_str (uri_to_string u)) InvalidHeaderValue in
                           Ok (hm_insert SG_INJECT_REAL_URL u headers)
                       | None => Ok headers
                       end) in
      Ok (request_timeout (set_headers headers inject_request) (ij_resp_timeout p))
  | None => Ok resp
  end.

(** [InjectPlugin::call] and [create] *)
Definition inject_call (p : InjectPlugin) (req : Request) (inner : Service) : Called :=
  filtered ← req_filter p req;
  try! req := filtered in
  resp ← inner req;
  Some (resp_filter p resp).
Definition inject_create (config : PluginConfig Value) : result InjectPlugin string :=
  de_inject (cfg_spec config).
#[global] Instance inject_plugin : Plugin (Value:=Value) InjectPlugin := {
  CODE := "inject"; MONO := false; meta := meta_default; schema_title := None;
  call := inject_call; create := inject_create }.
End inject.

(** ** Lemmas *)

(** Nanoseconds of a day. *)
Definition DAY : Z := 86400000000000.
Definition time_ok (t : Z) : Prop := 0 ≤ t < DAY.

(** [t] is in the part of the day that begins at the start of the range and lasts until
    its end comes next. *)
Definition in_cyclic_range (t : Z) (r : TimeRange) : Prop :=
  (t - range_start r) mod DAY < (range_end r - range_start r) mod DAY.

Lemma contains_time_spec t r :
  time_ok t → time_ok (range_start r) → time_ok (range_end r) →
  contains_time t r = true ↔ in_cyclic_range t r.
Proof.
  destruct r as [s e]. unfold time_ok, in_cyclic_range, contains_time, range_contains, DAY. simpl.
  intros Ht Hs He.
  assert (Hmod : ∀ a, - 86400000000000 < a < 86400000000000 →
    a mod 86400000000000 = if a <? 0 then a + 86400000000000 else a).
  { intros a Ha. destruct (Z.ltb_spec a 0); [|apply Z.mod_small; lia].
    rewrite <- (Z.mod_add a 1) by lia. apply Z.mod_small. lia. }
  rewrite !Hmod by lia.
  destruct (Z.ltb_spec e s), (Z.ltb_spec (t - s) 0), (Z.ltb_spec (e - s) 0);
    rewrite ?negb_true_iff, ?andb_false_iff, ?andb_true_iff, ?Z.leb_le, ?Z.leb_gt, ?Z.ltb_lt, ?Z.ltb_ge; lia.
Qed.

Lemma check_by_time_spec p t :
  time_ok t →
  Forall (λ r, time_ok (range_start r) ∧ time_ok (range_end r)) (default [] (mt_enabled_time_range p)) →
  check_by_time p t = true ↔
  match mt_enabled_time_range p with Some rs => Exists (in_cyclic_range t) rs | None => True end.
Proof.
  intros Ht. unfold check_by_time. destruct (mt_enabled_time_range p) as [rs|]; [|done]. simpl.
  intros Hrs. rewrite existsb_Exists, !Exists_exists. rewrite Forall_forall in Hrs.
  split; intros (r&Hr&Hc); exists r; (split; [done|]); apply Hrs in Hr as [??];
    by apply contains_time_spec.
Qed.

Section plugin_lemmas.
Context `{HttpLib}.

Lemma append_all_get_all `{!HttpLaws _} (l : list (string * string)) h k :
  hm_get_all (foldl (λ h kv, hm_append kv.1 kv.2 h) h l) k =
  hm_get_all h k ++ (filter (λ kv, kv.1 = k) l).*2.
Proof.
  revert h. induction l as [|[k' v] l IH]; intros h; simpl; [by rewrite app_nil_r|].
  rewrite IH, hm_get_all_append, filter_cons. simpl.
  destruct (decide (k = k')) as [->|].
  - rewrite decide_True by done. simpl. by rewrite <- app_assoc.
  - by rewrite decide_False by congruence.
Qed.

Lemma remove_all_get_all `{!HttpLaws _} ks h k :
  hm_get_all (foldl (λ h k, hm_remove k h) h ks) k = if decide (k ∈ ks) then [] else hm_get_all h k.
Proof.
  revert h. induction ks as [|k' ks IH]; intros h; simpl; [done|].
  rewrite IH, hm_get_all_remove. repeat case_decide; set_solver.
Qed.

(** What a filter leaves under a name: nothing if it is removed, else the values that were
    there and then those of the filter. *)
Definition filtered (f : Filter) (h h' : HeaderMap) : Prop := ∀ k,
  hm_get_all h' k = if decide (k ∈ filter_remove f) then [] else hm_get_all h k ++ hm_get_all (filter_sets f) k.

Lemma apply_filter_spec `{!HttpLaws _} f h : filtered f h (apply_filter f h).
Proof.
  intros k. unfold apply_filter. rewrite remove_all_get_all, append_all_get_all.
  by rewrite hm_iter_get_all.
Qed.

Context `{!PluginEnv Value}.

Lemma lib_try_Ok {A} (o : option A) e a : lib_try (Value:=Value) o e = Ok a ↔ o = Some a.
Proof. unfold lib_try, ok_or. destruct o; naive_solver. Qed.

Lemma call_try_Ok {A} (r : result A string) k resp :
  call_try r k = Some (Ok resp) ↔ ∃ a, r = Ok a ∧ k a = Some (Ok resp).
Proof. destruct r; simpl; naive_solver. Qed.

Lemma forward_Ok inner req resp : forward inner req = Some (Ok resp) ↔ inner req = Some resp.
Proof. unfold forward. destruct (inner req); simpl; naive_solver. Qed.

(** The plugin panics on every request whose URI has no authority, if the empty text is not
    one. *)
Lemma set_scheme_panics p req inner :
  authority_parse "" = None → uri_authority (req_uri req) = None → set_scheme_call p req inner = None.
Proof. unfold set_scheme_call. by intros -> ->. Qed.

Lemma white_list_match_spec `{!PluginEnvLaws _} cfg ip :
  white_list_match (white_list_from cfg) ip = true ↔
  ∃ s n, s ∈ wlc_ip_list cfg ∧ parse_net s = Some n ∧ net_contains n ip = true.
Proof.
  unfold white_list_match, white_list_from. simpl. rewrite net_aggregate_contains.
  rewrite existsb_Exists, Exists_exists. setoid_rewrite list_elem_of_omap. naive_solver.
Qed.
End plugin_lemmas.

(** ** Properties *)

(** outside the maintenance window, and for an excluded address, the request is
    forwarded; inside it is answered 503 with the negotiated content type or, with a
    redirection to another path, 307 to that path. A range whose start is behind its end
    goes over midnight. *)
Theorem maintenance_spec `{HttpLaws} `{!PluginEnv Value} (p : MaintenancePlugin) req inner ip
  (Hip : original_ip_addr req = Some ip)
  (Hnow : time_ok (local_time req))
  (Hranges : Forall (λ r, time_ok (range_start r) ∧ time_ok (range_end r))
    (default [] (mt_enabled_time_range p))) :
  let enabled := match mt_enabled_time_range p with
                 | Some rs => Exists (in_cyclic_range (local_time req)) rs
                 | None => True
                 end in
  let excluded := Exists (λ n, net_contains n ip = true) (default [] (mt_exclude_ip_range p)) in
  (¬ enabled ∨ excluded → maintenance_call p req inner = forward inner req) ∧
  (enabled → ¬ excluded →
    match mt_redirect p with
    | None => ∃ resp, maintenance_call p req inner = Some (Ok resp) ∧ resp_status resp = 503 ∧
        hm_get_all (resp_headers resp) "content-type" =
          [match maintenance_accept req with Json => "application/json" | _ => "text/html" end]
    | Some redirect =>
        if decide (uri_path (req_uri req) = redirect)
        then maintenance_call p req inner = forward inner req
        else ∀ location, hv_from_str redirect = Some location →
          ∃ resp, maintenance_call p req inner = Some (Ok resp) ∧ resp_status resp = 307 ∧
            hm_get_all (resp_headers resp) "location" = [location]
    end).
Proof.
  intros enabled excluded.
  assert (check_by_time p (local_time req) = true ↔ enabled) as Ht by by apply check_by_time_spec.
  assert (check_ip p ip = true ↔ excluded) as Hx.
  { unfold check_ip, excluded. destruct (mt_exclude_ip_range p) as [l|]; simpl;
      [apply existsb_Exists|by rewrite Exists_nil]. }
  clearbody enabled excluded. unfold maintenance_call. rewrite Hip. cbn [mbind option_bind].
  split.
  { intros [Hn|Hn].
    - destruct (check_by_time p _); [by destruct Hn; apply Ht|done].
    - rewrite (proj2 Hx Hn). by rewrite andb_false_r. }
  intros He Hn. rewrite (proj2 Ht He). destruct (check_ip p ip); [by destruct Hn; apply Hx|]. cbn [andb negb].
  destruct (mt_redirect p) as [redirect|].
  - case_decide; [done|]. intros location Hloc. unfold lib_try, ok_or. rewrite Hloc. simpl.
    eexists. split; [done|]. split; [done|]. simpl. by rewrite hm_get_all_insert, decide_True.
  - eexists. split; [done|]. destruct (maintenance_accept req); (split; [done|]); simpl;
      by rewrite hm_get_all_append, decide_True, hm_get_all_empty.
Qed.

(** The header modifier appends its values to those the client or the upstream sent
    (a "set" header does not replace them), removes the listed names, set ones included,
    and changes nothing else. *)
Theorem header_modifier_spec `{HttpLaws} (p : HeaderModifierPlugin) req inner :
  ∃ h, filtered (hmp_request p) (req_headers req) h ∧
    match inner (set_headers h req) with
    | None => header_modifier_call p req inner = None
    | Some resp => ∃ h', filtered (hmp_response p) (resp_headers resp) h' ∧
        header_modifier_call p req inner = Some (Ok (set_resp_headers h' resp))
    end.
Proof.
  eexists. split; [apply apply_filter_spec|]. unfold header_modifier_call.
  destruct (inner _) as [resp|]; [|done]. eexists. split; [apply apply_filter_spec|done].
Qed.

(** The redirect plugin does not redirect: its answer is the answer of the inner service
    to the unchanged request (or an error), and its path and status code have no effect. *)
Theorem redirect_inert `{HttpLib} `{!PluginEnv Value} (p : RedirectPlugin) req inner :
  (∀ resp, redirect_call p req inner = Some (Ok resp) → inner req = Some resp) ∧
  redirect_call p req inner =
  redirect_call (MkRedirect (rd_scheme p) (rd_hostname p) None (rd_port p) None) req inner.
Proof.
  split; [|done]. unfold redirect_call. intros resp.
  intros (?&_&(?&_&(?&_&(?&_&Hf)%call_try_Ok)%call_try_Ok)%call_try_Ok)%call_try_Ok.
  by apply forward_Ok.
Qed.

(** The inject plugin records the client's method and URI in the request's [Reflect];
    with an injector, what is forwarded has the version and extensions of the client's
    request, the body and the headers of the injector's response (whatever its status),
    less the two control headers, which replace the method and the URI. *)
Theorem inject_spec `{HttpLaws} `{!PluginEnv Value} `{!Client} `{!Runtime} (p : InjectPlugin) req req'
  (Hreq : req_filter p req = Some (Ok req')) :
  req_version req' = req_version req ∧
  (∃ reflect, ext_reflect (req_ext req) = Some reflect ∧
    req_ext req' = ext_set_reflect (Some (rf_set_real_request (req_method req) (req_uri req) reflect)) (req_ext req)) ∧
  match ij_req_inject_url p with
  | None => req' = set_ext (req_ext req') req
  | Some url => ∃ q,
      req_method q = "PUT" ∧ uri_from_str url = Some (req_uri q) ∧ req_body q = req_body req ∧
      req_ext q = ext_empty ∧
      hm_get (req_headers q) SG_INJECT_REAL_METHOD = hv_from_str (req_method req) ∧
      hm_get (req_headers q) SG_INJECT_REAL_URL = hv_from_str (uri_to_string (req_uri req)) ∧
      let resp := request_timeout q (ij_req_timeout p) in
      req_body req' = resp_body resp ∧
      (∀ k, hm_get_all (req_headers req') k =
        if decide (k = SG_INJECT_REAL_METHOD ∨ k = SG_INJECT_REAL_URL) then [] else hm_get_all (resp_headers resp) k) ∧
      match hm_get (resp_headers resp) SG_INJECT_REAL_METHOD with
      | Some m => method_from_bytes m = Some (req_method req')
      | None => req_method req' = req_method req
      end ∧
      match hm_get (resp_headers resp) SG_INJECT_REAL_URL with
      | Some u => uri_from_str u = Some (req_uri req')
      | None => req_uri req' = req_uri req
      end
  end.
Proof.
  unfold req_filter in Hreq. apply bind_Some in Hreq as (reflect&Hr&Hreq). injection Hreq as Hreq.
  destruct (ij_req_inject_url p) as [url|].
  2: { injection Hreq as <-. destruct req. simpl. split_and!; eauto. }
  unfold lib_try, ok_or, put_request in Hreq.
  destruct (hv_from_str (req_method req)) as [m|] eqn:Hm; [|done].
  destruct (hv_from_str (uri_to_string (req_uri req))) as [u|] eqn:Hu; [|done]. simpl in Hreq.
  unfold lib_try, ok_or in Hreq. destruct (uri_from_str url) as [uu|] eqn:Huu; [|done]. simpl in Hreq.
  set (q := MkReq _ _ _ _ _ _) in Hreq. unfold injected_request, transpose in Hreq.
  assert (Hget : hm_get (hm_remove SG_INJECT_REAL_METHOD (resp_headers (request_timeout q (ij_req_timeout p))))
    SG_INJECT_REAL_URL = hm_get (resp_headers (request_timeout q (ij_req_timeout p))) SG_INJECT_REAL_URL).
  { unfold hm_get. by rewrite hm_get_all_remove, decide_False. }
  rewrite Hget in Hreq.
  destruct (hm_get _ SG_INJECT_REAL_METHOD) as [m'|] eqn:Em;
    [unfold lib_try, ok_or in Hreq; destruct (method_from_bytes m') as [m''|] eqn:Em'; [|done]|];
    (destruct (hm_get _ SG_INJECT_REAL_URL) as [u'|] eqn:Eu;
      [unfold lib_try, ok_or in Hreq; destruct (uri_from_str u') as [u''|] eqn:Eu'; [|done]|]);
    simpl in Hreq; injection Hreq as <-;
    (split; [done|]; split; [by exists reflect|]; exists q; cbn zeta; split_and!; first
      [ done
      | unfold hm_get; simpl; rewrite !hm_get_all_append, hm_get_all_empty; by repeat case_decide
      | intros k; simpl; rewrite !hm_get_all_remove; repeat case_decide; naive_solver
      | by rewrite Em, ?Em' | by rewrite Eu, ?Eu' ]).
Qed.

(** ** A reference environment *)

#[export] Instance ref_env : PluginEnv (H:=ref_http) string := {|
  lib_message _ := "library error";
  cargo_meta := meta_default;
  json_text v := v;
  json_get_str v _ := Some v;
  de_rewrite _ := Err "";
  de_redirect _ := Err "";
  de_header_modifier _ := Err "";
  de_maintenance _ := Err "";
  de_inject _ := Err "";
  de_set_scheme v := Ok (MkSetSchemeConfig v);
  de_white_list v := Ok (MkWhiteListConfig [v]);
  de_static _ := Err "";
  header_name_from_bytes := Some;
  header_value_from_bytes := Some;
  method_from_bytes := Some;
  uri_from_str s := Some (MkUri None None (Some (MkPq s None)));
  uri_to_string u := uri_path u;
  re_as_str re := re;
  Url := string;
  url_parse := Some;
  url_set_host h _ := Some h;
  url_set_scheme _ u := Some u;
  url_set_port _ u := Some u;
  net_from_str _ := None;
  net_from_addr a := MkIpNet (λ ip, bool_decide (ip = a));
  net_aggregate l := l;
  local_time _ := 1;
  fs_read _ := None;
|}.
#[export] Instance ref_env_laws : PluginEnvLaws ref_env.
Proof. split; [done|]. intros a ip. simpl. by rewrite bool_decide_eq_true. Qed.

Definition plugin_request (headers : list (string * string)) : @Request ref_http :=
  @MkReq ref_http "GET" (MkUri None None (Some (MkPq "/a" None))) 11 headers
    (ext_set_reflect (Some reflect_empty) (ext_set_peer_addr (V4 1, 80) ext_empty)) "body".

(** From 23:00 to 01:00. *)
Definition night : TimeRange := MkTimeRange 82800000000000 3600000000000.

Lemma maintenance_spec_witness :
  let p := MkMaintenance (Some [night]) "t" "m" None None in
  ∃ resp, maintenance_call p (plugin_request [("accept", "text/plain,application/json")]) (λ _, None) = Some (Ok resp) ∧
    resp_status resp = 503 ∧ hm_get_all (resp_headers resp) "content-type" = ["application/json"].
Proof.
  intros p.
  assert (Hr : Forall (λ r, time_ok (range_start r) ∧ time_ok (range_end r)) [night]).
  { constructor; [|constructor]. unfold time_ok, DAY. simpl. lia. }
  assert (Hnow : time_ok 1) by (unfold time_ok, DAY; lia).
  destruct (@maintenance_spec ref_http ref_laws string ref_env p (plugin_request [("accept", "text/plain,application/json")]) (λ _, None) (V4 1)
    eq_refl Hnow Hr) as [_ H].
  apply H.
  - apply Exists_cons_hd. unfold in_cyclic_range, DAY. reflexivity.
  - intros Hx. inversion Hx.
Defined.

Lemma header_modifier_spec_witness :
  let p := @MkHeaderModifier ref_http (MkFilter [("a", "new")] []) filter_default in
  ∃ h, hm_get_all h "a" = ["old"; "new"] ∧
    header_modifier_call p (plugin_request [("a", "old")]) (λ r, Some (MkResp 200 (req_headers r) ext_empty "")) =
    Some (Ok (MkResp 200 h ext_empty "")).
Proof.
  intros p.
  destruct (@header_modifier_spec ref_http ref_laws p (plugin_request [("a", "old")])
    (λ r, Some (MkResp 200 (req_headers r) ext_empty ""))) as (h&Hh&h'&Hh'&H).
  exists h'. split; [|exact H]. rewrite (Hh' "a"). simpl. rewrite app_nil_r. exact (Hh "a").
Defined.

Lemma redirect_inert_witness :
  let p := MkRedirect None (Some "new.example") (Some (MkPathModifier ReplaceFullPath "/b")) None (Some 301) in
  let inner : @Service ref_http := λ r, Some (MkResp 200 [] ext_empty (uri_path (req_uri r))) in
  inner (plugin_request []) = Some (MkResp 200 [] ext_empty "/a").
Proof.
  intros p inner. exact (proj1 (@redirect_inert ref_http string ref_env p (plugin_request []) inner) _ eq_refl).
Defined.

Lemma inject_spec_witness :
  let p := MkInject (Some "/inject") 1 None 1 in
  ∃ req', req_filter p (plugin_request []) = Some (Ok req') ∧
    req_version req' = 11 ∧ req_method req' = "GET" ∧ req_body req' = "/inject".
Proof.
  intros p. destruct (req_filter p (plugin_request [])) as [[req'|]|] eqn:E; [|discriminate E..].
  exists req'. split; [reflexivity|].
  destruct (@inject_spec ref_http ref_laws string ref_env ref_client ref_runtime p (plugin_request []) req' E) as (Hv&_&q&_&Hu&_&He&_&_&Hb&_&Hm&_).
  injection Hu as Hu. unfold request_timeout, client_request in Hb, Hm. rewrite He in Hb, Hm.
  simpl in Hb, Hm. rewrite <- Hu in Hb.
  split_and!; [exact Hv|exact Hm|exact Hb].
Defined.
