(* ===== verification/Limit.v ===== *)
(** * Rate limiting on Redis

    [crates/plugin/src/plugins/limit.rs] with its Lua script,
    [ext/redis/plugins/redis_limit.rs] with [check.lua], [redis_count.rs],
    [redis_time_range.rs] and [redis_dynamic_route.rs], the client repository of
    [crates/extension/redis] and the key formats.

    The Redis server is the class [Redis]: the commands the source sends, and their
    documented behaviour as [RedisLaws]. A script runs atomically. A Lua number is a double:
    the scripts are modelled on integers, which is exact below [2 ^ 53], and the theorems say
    where that is needed. *)

From S2P Require Export Plugins.
From S2P Require Import RefHttp.
Local Open Scope string_scope.
Local Open Scope list_scope.
Local Open Scope Z_scope.

(** ** Redis *)

Class Redis := {
  DB : Type;
  redis_get : string → DB → option string;
  redis_set : string → string → DB → DB;
  (** [INCR] and [DECR]: [None] is the error of a value that is no integer *)
  redis_incr : string → Z → DB → option (Z * DB);
  (** Lua's [tonumber] on a text, where the number is an integer *)
  tonumber : string → option Z;
}.

(** The integer at a key that [INCR] reads: an absent key counts as 0. *)
Definition int_at `{Redis} (k : string) (db : DB) (n : Z) : Prop :=
  redis_get k db = Some (z_string n) ∨ (redis_get k db = None ∧ n = 0).

Class RedisLaws (R : Redis) : Prop := {
  redis_get_set k v db k' :
    redis_get k' (redis_set k v db) = if decide (k' = k) then Some v else redis_get k' db;
  redis_incr_ok k d db n :
    int_at k db n → in_signed 64 (n + d) →
    ∃ db', redis_incr k d db = Some (n + d, db') ∧
      ∀ k', redis_get k' db' = if decide (k' = k) then Some (z_string (n + d)) else redis_get k' db;
  tonumber_z_string n : - 2 ^ 53 < n < 2 ^ 53 → tonumber (z_string n) = Some n;
}.

(** ** The client repository

    [RedisClientRepo]: a client is the index of the database it is connected to; two names
    can share one. [get_conn] panics if there is no connection. *)

Section repo.
Context `{Redis}.

Record RedisWorld := MkRedisWorld { redis_clients : gmap string nat; redis_dbs : list DB }.

Definition repo_add (name : string) (client : nat) (w : RedisWorld) : RedisWorld :=
  MkRedisWorld (<[name := client]> (redis_clients w)) (redis_dbs w).
Definition repo_get (name : string) (w : RedisWorld) : option nat := redis_clients w !! name.
Definition repo_remove (name : string) (w : RedisWorld) : option nat * RedisWorld :=
  (redis_clients w !! name, MkRedisWorld (delete name (redis_clients w)) (redis_dbs w)).
Definition set_db (client : nat) (db : DB) (w : RedisWorld) : RedisWorld :=
  MkRedisWorld (redis_clients w) (<[client := db]> (redis_dbs w)).
End repo.

(** ** The scripts *)

Section scripts.
Context `{Redis}.

(** [limit/script.lua]: the result is [None] if the script fails; what it wrote before stays
    written. *)
Definition limit_script (counter_key ts_key : string) (max window now : Z) (db : DB) : DB * option Z :=
  match redis_incr counter_key 1 db with
  | None => (db, None)
  | Some (current_count, db) =>
      let db := if current_count =? 1 then redis_set ts_key (z_string now) db else db in
      if max <? current_count then
        match (s ← redis_get ts_key db; tonumber s) with
        | None => (db, None)
        | Some last_refresh_time =>
            if now <? last_refresh_time + window then (db, Some 0)
            else (redis_set ts_key (z_string now) (redis_set counter_key "1" db), Some 1)
        end
      else (db, Some 1)
  end.

(** [redis_limit/check.lua]. [exists] answers a number, and every number is true in Lua, so
    the counter is never initialised here; [incr] does it. *)
Definition lua_true (_ : Z) : bool := true.
Definition check_script (freq_limit_key : string) (current_ts : Z) (db : DB) : DB * option Z :=
  let freq_key := freq_limit_key +:+ ":freq" in
  let freq_ts_key := freq_limit_key +:+ ":freq_ts" in
  let exists_ := match redis_get freq_key db with Some _ => 1 | None => 0 end in
  let db := if negb (lua_true exists_) then redis_set freq_key "0" db else db in
  match redis_incr freq_key 1 db with
  | None => (db, None)
  | Some (current_count, db) =>
      match (s ← redis_get freq_limit_key db; tonumber s) with
      | None => (db, Some 1)
      | Some freq_limit =>
          let db := if current_count =? 1 then redis_set freq_ts_key (z_string current_ts) db else db in
          if freq_limit <? current_count then
            match (s ← redis_get freq_ts_key db; tonumber s) with
            | None => (db, Some 1)
            | Some last_refresh_time =>
                if current_ts <? last_refresh_time + 60 then (db, Some 0)
                else (redis_set freq_ts_key (z_string current_ts) (redis_set freq_key "1" db), Some 1)
            end
          else (db, Some 1)
      end
  end.

(** The requests of all clients as one sequence of script runs: the counter key of each and
    the time it carries. *)
Fixpoint limit_run (max window : Z) (events : list (string * Z)) (db : DB) : list (option Z) * DB :=
  match events with
  | [] => ([], db)
  | (key, now) :: events =>
      let '(db, result) := limit_script key (key +:+ "_ts") max window now db in
      let '(results, db) := limit_run max window events db in
      (result :: results, db)
  end.
End scripts.

(** ** The fixed window

    The abstract counter of one client: the count since the last reset, and its time. *)

Definition window_step (max window : Z) (st : Z * Z) (now : Z) : (Z * Z) * bool :=
  let '(c, ts) := st in
  let c := c + 1 in
  let ts := if c =? 1 then now else ts in
  if max <? c then
    if now <? ts + window then ((c, ts), false) else ((1, now), true)
  else ((c, ts), true).

Fixpoint window_run (max window : Z) (st : Z * Z) (times : list Z) : list (Z * bool) :=
  match times with
  | [] => []
  | now :: times =>
      let '(st, pass) := window_step max window st now in
      (now, pass) :: window_run max window st times
  end.

(** The requests that passed at a time in [[a, b)]. *)
Definition passed_in (a b : Z) (l : list (Z * bool)) : list (Z * bool) :=
  filter (λ tp, tp.2 = true ∧ a ≤ tp.1 < b) l.

(** ** Keys *)

Definition CONF_LIMIT_KEY : string := "sg:plugin:filter:limit:".
Definition limit_key (id : string) (ip : IpAddr) : string :=
  CONF_LIMIT_KEY +:+ id +:+ ":" +:+ ip_string ip.

(** [PluginInstanceId::redis_prefix] *)
Definition redis_prefix (id : PluginInstanceId) : string :=
  match id_name id with
  | Anon uid => "sg:plugin:" +:+ id_code id +:+ ":" +:+ uid
  | Named name => "sg:plugin:" +:+ id_code id +:+ ":" +:+ name
  | Mono => "sg:plugin:" +:+ id_code id
  end.

(** ** The plugins *)

(** A call of a plugin that uses Redis: what it returns, and the databases after it. The
    inner service does not use them. *)
Definition RedisCalled `{HttpLib} `{Redis} : Type := Called * RedisWorld.

Record RateLimitPluginConfig := MkRateLimitConfig {
  rlc_max_request_number : option Z; rlc_time_window_ms : option Z }.
Record RateLimitPlugin := MkRateLimit {
  max_request_number : Z; time_window_ms : Z; rl_id : string }.
Definition DEFAULT_TIME_WINDOW_MS : Z := 1000.
Definition DEFAULT_MAX_REQUEST_NUMBER : Z := 100.

(** [RedisCountPlugin], [RedisLimitPlugin], [RedisTimeRangePlugin] and
    [RedisDynamicRoutePlugin] have the same two fields. *)
Record RedisPlugin := MkRedisPlugin { rp_prefix : string; rp_header : string }.

Section plugins.
Context `{HttpLib} `{!PluginEnv Value} `{!Redis}.

(** [RateLimitPlugin::create] on the deserialised configuration *)
Definition limit_create (id : PluginInstanceId) (spec : RateLimitPluginConfig) : RateLimitPlugin :=
  MkRateLimit (default DEFAULT_MAX_REQUEST_NUMBER (rlc_max_request_number spec))
    (default DEFAULT_TIME_WINDOW_MS (rlc_time_window_ms spec)) (id_to_string id).

(** [RateLimitPlugin::report] *)
Definition report (p : RateLimitPlugin) (ip : IpAddr) : RateLimitReport :=
  MkRateLimitReport ip (max_request_number p) (time_window_ms p) (rl_id p).

(** [get_redis_client_by_gateway_name] *)
Definition client_by_gateway_name (req : Request) (w : RedisWorld) : option nat :=
  name ← ext_gateway_name (req_ext req); repo_get name w.

(** [RateLimitPlugin::call]. [now] is the system time; a time before 1970 and a client
    without a connection are panics. *)
Definition limit_call (redis_error : string) (now : Z) (p : RateLimitPlugin) (req : Request)
    (inner : Service) (w : RedisWorld) : RedisCalled :=
  match original_ip_addr req with
  | None => (None, w)
  | Some ip =>
      let ip := to_canonical ip in
      match client_by_gateway_name req w with
      | None => (Some (Err "missing gateway name"), w)
      | Some client =>
          match redis_dbs w !! client with
          | None => (None, w)
          | Some db =>
              if now <? 0 then (None, w)
              else
                let key := limit_key (rl_id p) ip in
                let '(db, result) :=
                  limit_script key (key +:+ "_ts") (max_request_number p) (time_window_ms p) now db in
                (match result with
                 | None => Some (Err redis_error)
                 | Some 0 =>
                     Some (Ok (map_resp_ext (ext_set_rate_limit (report p ip))
                       (with_code_message 429 "[SG.Filter.Limit] too many requests")))
                 | Some _ => forward inner req
                 end, set_db client db w)
          end
      end
  end.

(** [redis_format_key] *)
Definition redis_format_key (req : Request) (matched : HttpRouteMatch) (header : string) : option string :=
  let method := match rm_method matched with Some _ => req_method req | None => "*" end in
  let path := match rm_path matched with
              | Some (PathExact path _) => path
              | Some (PathPrefix path _) => path
              | Some (PathRegExp regex _) => re_as_str regex
              | None => "*"
              end in
  value ← hm_get (req_headers req) header;
  s ← hv_to_str value;
  Some (method +:+ ":" +:+ path +:+ ":" +:+ s).

Definition redis_plugin_create (id : PluginInstanceId) (header : string) : result RedisPlugin string :=
  let? header := lib_try (header_name_from_bytes header) InvalidHeaderName in
  Ok (MkRedisPlugin (redis_prefix id) header).

(** What the three checking plugins do before and around their check: the errors, the 401
    without the header, the key. [check] runs on the database; [on_resp] after the inner
    service answered. *)
Definition status_response (code : string) (status : Z) (message : string) : Response :=
  plugin_error_response (MkPluginError code message status).

Definition redis_checked (code : string) (status : Z) (message : string)
    (check : string → DB → DB * result bool string) (on_resp : Response → string → DB → DB)
    (p : RedisPlugin) (req : Request) (inner : Service) (w : RedisWorld) : RedisCalled :=
  match ext_gateway_name (req_ext req) with
  | None => (Some (Err "missing gateway name"), w)
  | Some gateway_name =>
      match repo_get gateway_name w with
      | None => (Some (Err "missing redis client"), w)
      | Some client =>
          match ext_matched_router (req_ext req) with
          | None => (Some (Err "missing matched router"), w)
          | Some matched =>
              match redis_format_key req matched (rp_header p) with
              | None => (Some (Ok (status_response code 401 ("missing header " +:+ rp_header p))), w)
              | Some key =>
                  let key := rp_prefix p +:+ ":" +:+ key in
                  match redis_dbs w !! client with
                  | None => (None, w)
                  | Some db =>
                      let '(db, pass) := check key db in
                      let w := set_db client db w in
                      match pass with
                      | Err e => (Some (Err e), w)
                      | Ok false => (Some (Ok (status_response code status message)), w)
                      | Ok true =>
                          match inner req with
                          | None => (None, w)
                          | Some resp => (Some (Ok resp), set_db client (on_resp resp key db) w)
                          end
                      end
                  end
              end
          end
      end
  end.
Definition no_on_resp (_ : Response) (_ : string) (db : DB) : DB := db.

(** *** redis-limit: the connection is taken before the route is looked up. *)
Definition limit_check (redis_error : string) (now : Z) (key : string) (db : DB) : DB * result bool string :=
  let '(db, r) := check_script key now db in
  (db, match r with None => Err redis_error | Some n => Ok (negb (n =? 0)) end).
Definition redis_limit_call (redis_error : string) (now : Z) (p : RedisPlugin) (req : Request)
    (inner : Service) (w : RedisWorld) : RedisCalled :=
  match client_by_gateway_name req w with
  | Some client =>
      match redis_dbs w !! client with
      | None => (None, w)
      | Some _ =>
          redis_checked "redis-limit" 429 "too many request, please try later"
            (limit_check redis_error now) no_on_resp p req inner w
      end
  | None =>
      redis_checked "redis-limit" 429 "too many request, please try later"
        (limit_check redis_error now) no_on_resp p req inner w
  end.

(** *** redis-count: [redis_call] sends up to four commands, each a step of its own. *)
Definition cumulative_key (count_key : string) : string := count_key +:+ ":cumulative-count".
Definition count_exists (count_key : string) (db : DB) : bool :=
  bool_decide (is_Some (redis_get (cumulative_key count_key) db)).
Definition count_write (count_key : string) (existed : bool) (db : DB) : option DB :=
  if existed then snd <$> redis_incr (cumulative_key count_key) 1 db
  else Some (redis_set (cumulative_key count_key) "1" db).
Definition count_read (count_key : string) (db : DB) : option bool :=
  count_cumulative ← (s ← redis_get (cumulative_key count_key) db; parse_unsigned 32 s);
  let count := default (2 ^ 32 - 1) (s ← redis_get count_key db; parse_unsigned 32 s) in
  Some (count_cumulative <=? count).

Definition count_check (redis_error : string) (count_key : string) (db : DB) : DB * result bool string :=
  match count_write count_key (count_exists count_key db) db with
  | None => (db, Err redis_error)
  | Some db => (db, ok_or (count_read count_key db) redis_error)
  end.

(** [redis_call_on_resp]: an error is logged. *)
Definition count_on_resp (resp : Response) (count_key : string) (db : DB) : DB :=
  if (400 <=? resp_status resp) && (resp_status resp <? 600)
  then match redis_incr (cumulative_key count_key) (-1) db with Some (_, db) => db | None => db end
  else db.
Definition redis_count_call (redis_error : string) : RedisPlugin → Request → Service → RedisWorld → RedisCalled :=
  redis_checked "redis-count" 403 "request cumulative count reached the limit"
    (count_check redis_error) count_on_resp.

(** *** redis-time-range *)
Definition time_range_check `{!FileSystem} (now : Z) (time_key : string) (db : DB) : DB * result bool string :=
  (db, Ok match redis_get time_key db with
          | None => false
          | Some time_range =>
              match str_split_once "," time_range with
              | None => false
              | Some (from, to) =>
                  match parse_rfc3339 from, parse_rfc3339 to with
                  | Some from, Some to => (from <? now) && (now <=? to)
                  | _, _ => false
                  end
              end
          end).
Definition redis_time_range_call `{!FileSystem} (now : Z)
  : RedisPlugin → Request → Service → RedisWorld → RedisCalled :=
  redis_checked "redis-time-range" 403 "request cumulative count reached the limit"
    (time_range_check now) no_on_resp.

(** *** redis-dynamic-route *)
Definition dynamic_route_uri (domain new_pq : string) (u : Uri) : result Uri string :=
  match str_split_once_str "://" domain with
  | None => Err ("bad route domain " +:+ domain)
  | Some (scheme_str, host_str) =>
      let? scheme := lib_try (scheme_parse scheme_str) InvalidUri in
      let? authority := lib_try (authority_parse host_str) InvalidUri in
      let? pq := lib_try (pq_parse new_pq) InvalidUri in
      lib_try (uri_from_parts (MkUri (Some scheme) (Some authority) (Some pq))) InvalidPartsOfUri
  end.
Definition redis_dynamic_route_call (redis_error : string) (p : RedisPlugin) (req : Request)
    (inner : Service) (w : RedisWorld) : RedisCalled :=
  match client_by_gateway_name req w with
  | None => (Some (Err "missing gateway name"), w)
  | Some client =>
      match ext_matched_router (req_ext req) with
      | None => (Some (Err "unmatched request"), w)
      | Some matched =>
          match rm_path matched with
          | None => (Some (Err "only prefix match was supported"), w)
          | Some path_match =>
              match redis_format_key req matched (rp_header p) with
              | None => (Some (Err ("missing header " +:+ rp_header p)), w)
              | Some key =>
                  match redis_dbs w !! client with
                  | None => (None, w)
                  | Some db =>
                      (match redis_get (rp_prefix p +:+ ":" +:+ key) db with
                       | None => Some (Err (plugin_error_string (MkPluginError "redis-dynamic-route" redis_error 500)))
                       | Some domain =>
                           match modifier_replace (MkPathModifier ReplacePrefixMatch "/")
                                   (uri_path (req_uri req)) path_match with
                           | None => Some (Err "gateway internal error: fail to rewrite path.")
                           | Some new_pq =>
                               let new_pq := match uri_query (req_uri req) with
                                             | Some query => if str_is_empty query then new_pq
                                                             else (new_pq +:+ "?") +:+ query
                                             | None => new_pq
                                             end in
                               try! u := dynamic_route_uri domain new_pq (req_uri req) in
                               forward inner (set_uri u req)
                           end
                       end, w)
                  end
              end
          end
      end
  end.
End plugins.

(** ** The scripts implement the fixed window *)

Lemma str_app_sep_ne p s : s ≠ "" → p ≠ p +:+ s.
Proof. intros Hs H. rewrite <- (str_app_nil_r p) in H at 1. apply str_app_inj_l in H. congruence. Qed.

Section refinement.
Context `{!RedisLaws R}.

(** The database holds the abstract counter under the two keys. *)
Definition holds (k1 k2 : string) (st : Z * Z) (db : DB) : Prop :=
  (st.1 = 0 ∧ redis_get k1 db = None) ∨
  (0 < st.1 ∧ redis_get k1 db = Some (z_string st.1) ∧ redis_get k2 db = Some (z_string st.2)).

(** Counts and times up to [n] are exact as doubles. *)
Definition exact (z : Z) : Prop := 0 ≤ z < 2 ^ 53.

Lemma holds_int_at k1 k2 st db : holds k1 k2 st db → int_at k1 db st.1.
Proof. intros [[-> ?]|(?&?&?)]; [by right|by left]. Qed.

Lemma limit_script_step k1 k2 max window now st db :
  k1 ≠ k2 → holds k1 k2 st db → 0 ≤ st.1 → exact (st.1 + 1) → exact st.2 → exact now →
  let '(st', pass) := window_step max window st now in
  ∃ db', limit_script k1 k2 max window now db = (db', Some (if pass then 1 else 0)) ∧
    holds k1 k2 st' db' ∧
    ∀ k, k ≠ k1 → k ≠ k2 → redis_get k db' = redis_get k db.
Proof.
  destruct st as [c ts]. intros Hk Hh Hc Hc' Hts Hnow. cbn [fst snd] in *. unfold window_step, limit_script.
  unfold exact in *.
  destruct (redis_incr_ok k1 1 db c) as (db1&->&Hdb1); [by apply (holds_int_at _ k2 (c, ts))| |].
  { split; lia. }
  set (ts' := if c + 1 =? 1 then now else ts).
  set (db2 := if c + 1 =? 1 then redis_set k2 (z_string now) db1 else db1).
  assert (Hts' : exact ts') by (unfold exact, ts'; case_match; lia).
  assert (H1 : redis_get k1 db2 = Some (z_string (c + 1))).
  { unfold db2. case_match; rewrite ?redis_get_set, Hdb1; by repeat case_decide. }
  assert (H2 : redis_get k2 db2 = Some (z_string ts')).
  { unfold db2, ts'. destruct (Z.eqb_spec (c + 1) 1); rewrite ?redis_get_set, ?Hdb1; repeat case_decide; try done.
    destruct Hh as [[Hz _]|(_&_&?)]; cbn [fst snd] in *; [lia|done]. }
  assert (Hframe : ∀ k, k ≠ k1 → k ≠ k2 → redis_get k db2 = redis_get k db).
  { intros k ??. unfold db2. case_match; rewrite ?redis_get_set, Hdb1; by repeat case_decide. }
  rewrite H2. cbn [mbind option_bind]. rewrite tonumber_z_string by (unfold exact in *; lia).
  destruct (Z.ltb_spec max (c + 1)) as [Hmax|Hmax]; [destruct (Z.ltb_spec now (ts' + window))|].
  - exists db2. split_and!; [done| |done]. right. cbn [fst snd]. split_and!; [lia|done..].
  - eexists. split_and!; [done| |].
    + right. cbn [fst snd]. rewrite !redis_get_set. by repeat case_decide.
    + intros k ??. rewrite !redis_get_set. repeat case_decide; try done. auto.
  - exists db2. split_and!; [done| |done]. right. cbn [fst snd]. split_and!; [lia|done..].
Qed.

(** The results of one key in a run. *)
Definition results_of (key : string) (events : list (string * Z)) (results : list (option Z))
  : list (Z * option Z) :=
  omap (λ er, if decide (er.1.1 = key) then Some (er.1.2, er.2) else None) (zip events results).
Definition times_of (key : string) (events : list (string * Z)) : list Z :=
  omap (λ e, if decide (e.1 = key) then Some e.2 else None) events.
Definition answer (tp : Z * bool) : Z * option Z := (tp.1, Some (if tp.2 then 1 else 0)).

(** No counter key is the time stamp key of another one. *)
Definition keys_apart (events : list (string * Z)) : Prop :=
  ∀ k k', k ∈ events.*1 → k' ∈ events.*1 → k ≠ k' +:+ "_ts".

Lemma window_step_bounds max window c ts now c' ts' pass n :
  window_step max window (c, ts) now = ((c', ts'), pass) → 0 ≤ c ≤ n → exact ts → exact now →
  0 ≤ c' ≤ n + 1 ∧ exact ts'.
Proof. unfold window_step, exact. intros H Hc Ht Hn. repeat case_match; simplify_eq; lia. Qed.

Lemma results_of_out key events results : key ∉ events.*1 → results_of key events results = [].
Proof.
  unfold results_of. revert results. induction events as [|[k t] events IH]; intros [|r l]; try done. simpl.
  intros [??]%not_elem_of_cons. rewrite decide_False by done. auto.
Qed.
Lemma times_of_out key events : key ∉ events.*1 → times_of key events = [].
Proof.
  unfold times_of. induction events as [|[k t] events IH]; [done|]. simpl.
  intros [??]%not_elem_of_cons. rewrite decide_False by done. auto.
Qed.

Lemma limit_run_window max window events (sts : string → Z * Z) n db :
  keys_apart events →
  (∀ k, k ∈ events.*1 → holds k (k +:+ "_ts") (sts k) db ∧ 0 ≤ (sts k).1 ≤ n ∧ exact (sts k).2) →
  Forall (λ e, exact e.2) events → exact (n + Z.of_nat (length events)) →
  ∀ key, key ∈ events.*1 →
    results_of key events (limit_run max window events db).1 =
    answer <$> window_run max window (sts key) (times_of key events).
Proof.
  revert sts n db. induction events as [|[k now] events IH]; intros sts n db Hka Hst Hex Hn key Hkey; [done|].
  cbn [limit_run]. apply Forall_cons in Hex as [Hnow Hex]. cbn [snd] in Hnow.
  rewrite length_cons in Hn. cbn [fmap list_fmap fst] in Hst, Hkey.
  destruct (Hst k) as (Hh&Hc&Hts); [by left|].
  destruct (sts k) as [c ts] eqn:Ek. cbn [fst snd] in *.
  pose proof (limit_script_step k (k +:+ "_ts") max window now (c, ts) db) as Hstep.
  destruct (window_step max window (c, ts) now) as [[c' ts'] pass] eqn:Ew.
  destruct Hstep as (db'&Hrun&Hh'&Hframe); cbn [fst snd]; [by apply str_app_sep_ne|done|lia|unfold exact in *; lia|done..|].
  rewrite Hrun. destruct (limit_run max window events db') as [results db2] eqn:Er. cbn [fst].
  set (sts' := λ k', if decide (k' = k) then (c', ts') else sts k').
  assert (Hsts' : ∀ k', k' ∈ events.*1 → holds k' (k' +:+ "_ts") (sts' k') db' ∧
    0 ≤ (sts' k').1 ≤ n + 1 ∧ exact (sts' k').2).
  { intros k' Hk'. unfold sts'. case_decide as Hkk; [subst k'|].
    - split; [done|]. by eapply window_step_bounds.
    - destruct (Hst k') as (Hh2&Hc2&Ht2); [by right|]. split; [|split; [lia|done]].
      assert (k' ≠ k +:+ "_ts") by (apply Hka; [by right|by left]).
      assert (k' +:+ "_ts" ≠ k) by (intros E; apply (Hka k k'); [by left|by right|done]).
      assert (k' +:+ "_ts" ≠ k +:+ "_ts") by (intros E; by apply Hkk, (str_app_inj_r _ _ "_ts")).
      unfold holds. rewrite !Hframe by done. exact Hh2. }
  assert (Hkey' : key ∈ events.*1 → results_of key events results =
    answer <$> window_run max window (sts' key) (times_of key events)).
  { intros Hin. replace results with (limit_run max window events db').1 by by rewrite Er.
    apply (IH sts' (n + 1)); try done.
    - intros k1 k2 ??. apply Hka; by right.
    - unfold exact in *. lia. }
  unfold results_of, times_of. cbn [zip zip_with omap list_omap fst snd].
  destruct (decide (k = key)) as [->|Hne].
  - rewrite Ek. cbn [window_run]. rewrite Ew. rewrite fmap_cons. f_equal.
    destruct (decide (key ∈ events.*1)) as [Hin|Hout].
    + specialize (Hkey' Hin). unfold sts' in Hkey'. rewrite decide_True in Hkey' by done. exact Hkey'.
    + pose proof (results_of_out key events results Hout) as E1. pose proof (times_of_out key events Hout) as E2.
      unfold results_of, times_of in E1, E2. by rewrite E1, E2.
  - specialize (Hkey' ltac:(set_solver)). unfold sts' in Hkey'. rewrite decide_False in Hkey' by done. exact Hkey'.
Qed.
End refinement.

(** ** The guarantee of the fixed window *)

Section window.
Context (max window : Z) (Hmax : 0 ≤ max).

Lemma passed_in_cons a b tp l :
  passed_in a b (tp :: l) = if decide (tp.2 = true ∧ a ≤ tp.1 < b) then tp :: passed_in a b l else passed_in a b l.
Proof. unfold passed_in. rewrite filter_cons. by repeat case_decide. Qed.

Lemma passed_in_late a b st times : Forall (λ t, b ≤ t) times → passed_in a b (window_run max window st times) = [].
Proof.
  intros Ht. revert st. induction Ht as [|t times Ht Hts IH]; intros st; [done|]. cbn [window_run].
  destruct (window_step max window st t) as [st' pass]. rewrite passed_in_cons, decide_False by (simpl; lia).
  apply IH.
Qed.

(** What can still pass in [[a, a + window)]: the rest of the current count, and one more
    count if the last reset was before [a]. *)
Definition room (a : Z) (st : Z * Z) : Z :=
  Z.max 0 (max - st.1) + if decide (st.1 ≠ 0 ∧ a ≤ st.2) then 0 else Z.max 1 max.

Lemma window_step_room a st now st' pass :
  0 ≤ st.1 → a ≤ now < a + window → window_step max window st now = (st', pass) →
  0 < st'.1 ∧ room a st' + (if pass then 1 else 0) ≤ room a st.
Proof.
  destruct st as [c ts], st' as [c' ts']. unfold window_step, room. cbn [fst snd].
  intros Hc Hnow Hs.
  destruct (Z.eqb_spec (c + 1) 1), (Z.ltb_spec max (c + 1)); try (destruct (Z.ltb_spec now (ts + window)));
    try (destruct (Z.ltb_spec now (now + window))); injection Hs as <- <- <-;
    (split; [lia|]); repeat case_decide; lia.
Qed.

Lemma passed_in_room a times st :
  StronglySorted Z.le times → Forall (λ t, a ≤ t) times → 0 ≤ st.1 →
  Z.of_nat (length (passed_in a (a + window) (window_run max window st times))) ≤ room a st.
Proof.
  intros Hs. revert st. induction Hs as [|now times Hs IH Hle]; intros st Ha Hc.
  { unfold room. simpl. case_decide; lia. }
  apply Forall_cons in Ha as [Hnow Ha].
  cbn [window_run]. destruct (window_step max window st now) as [st' pass] eqn:Ew.
  rewrite passed_in_cons. cbn [fst snd].
  destruct (Z.ltb_spec now (a + window)) as [Hin|Hout].
  - destruct (window_step_room a st now st' pass) as [Hc' Hroom]; [done..|].
    specialize (IH st' Ha ltac:(lia)). destruct pass; case_decide; simpl; lia || naive_solver lia.
  - rewrite decide_False by lia. rewrite passed_in_late by (eapply Forall_impl; [exact Hle|]; simpl; lia).
    unfold room. simpl. case_decide; lia.
Qed.

Lemma window_bound a times st :
  StronglySorted Z.le times → 0 ≤ st.1 →
  Z.of_nat (length (passed_in a (a + window) (window_run max window st times))) ≤ 2 * Z.max 1 max.
Proof.
  intros Hs. revert st. induction Hs as [|now times Hs IH Hle]; intros st Hc; [simpl; lia|].
  destruct (Z.ltb_spec now a) as [Hlt|Hge].
  - cbn [window_run]. destruct (window_step max window st now) as [st' pass] eqn:Ew.
    rewrite passed_in_cons, decide_False by (simpl; lia). apply IH.
    destruct st as [c ts], st' as [c' ts']. unfold window_step in Ew. cbn [fst snd] in *.
    repeat case_match; simplify_eq; lia.
  - etrans; [apply passed_in_room; [by constructor| |done]|].
    + constructor; [done|]. eapply Forall_impl; [exact Hle|]. simpl. lia.
    + unfold room. case_decide; lia.
Qed.

Lemma passed_in_app a b l l' : passed_in a b (l ++ l') = passed_in a b l ++ passed_in a b l'.
Proof. apply filter_app. Qed.

Lemma passed_in_mono a a' b l : a' ≤ a → (length (passed_in a b l) ≤ length (passed_in a' b l))%nat.
Proof.
  intros Ha. induction l as [|tp l IH]; [done|]. rewrite !passed_in_cons.
  repeat case_decide; simpl; try lia. naive_solver lia.
Qed.

(** The passes of the current count, among the requests [seen] so far. *)
Definition counted (st : Z * Z) (seen : list (Z * bool)) : Prop :=
  st.1 ≠ 0 → ∀ b, Forall (λ tp, tp.1 < b) seen →
    Z.min st.1 max ≤ Z.of_nat (length (passed_in st.2 b seen)).

Lemma window_step_counted st now st' pass seen :
  0 ≤ st.1 → (st.1 ≠ 0 → st.2 ≤ now) → Forall (λ tp, tp.1 ≤ now) seen → counted st seen →
  window_step max window st now = (st', pass) →
  0 < st'.1 ∧ st'.2 ≤ now ∧ counted st' (seen ++ [(now, pass)]).
Proof.
  destruct st as [c ts], st' as [c' ts']. unfold counted, window_step. cbn [fst snd].
  intros Hc Hts Hseen Hj Hs.
  assert (Hone : ∀ b, now < b → length (passed_in now b [(now, true)]) = 1%nat).
  { intros b Hb. rewrite passed_in_cons. by rewrite decide_True by (simpl; lia). }
  assert (Hold : c ≠ 0 → ∀ b, now < b → Z.min c max ≤ Z.of_nat (length (passed_in ts b seen))).
  { intros Hc0 b Hb. apply Hj; [done|]. eapply Forall_impl; [exact Hseen|]. simpl. lia. }
  assert (Hb : ∀ b, Forall (λ tp, tp.1 < b) (seen ++ [(now, pass)]) → now < b).
  { intros b Hb. apply Forall_app in Hb as [_ Hb]. by inversion Hb. }
  destruct (Z.eqb_spec (c + 1) 1), (Z.ltb_spec max (c + 1)); try (destruct (Z.ltb_spec now (ts + window)));
    try (destruct (Z.ltb_spec now (now + window))); injection Hs as <- <- <-;
    (split; [lia|]); (split; [lia|]); intros _ b Hlt; apply Hb in Hlt;
    rewrite passed_in_app, length_app; try (rewrite Hone by done); try lia.
  all: specialize (Hold ltac:(lia) b Hlt); try (rewrite passed_in_cons, decide_True by (simpl; lia)); simpl; lia.
Qed.

(** A rejected request comes after [max] passes within the last window. *)
Lemma window_reject times st seen l t l' :
  StronglySorted Z.le times → 0 ≤ st.1 →
  (∀ t, t ∈ times → st.1 ≠ 0 → st.2 ≤ t) →
  (∀ t, t ∈ times → Forall (λ tp, tp.1 ≤ t) seen) →
  counted st seen →
  window_run max window st times = l ++ (t, false) :: l' →
  max ≤ Z.of_nat (length (passed_in (t - window + 1) (t + 1) (seen ++ l))).
Proof.
  intros Hs. revert st seen l. induction Hs as [|now times Hs IH Hle]; intros st seen l Hc Hts Hseen Hj Hrun.
  { by destruct l. }
  cbn [window_run] in Hrun.
  destruct (window_step max window st now) as [st' pass] eqn:Ew.
  assert (now ∈ now :: times) as Hin by by left.
  destruct (window_step_counted st now st' pass seen) as (Hc'&Hts'&Hj'); [by auto..|].
  destruct l as [|tp l].
  - injection Hrun as -> -> _. rewrite app_nil_r.
    destruct st as [c ts]. unfold window_step in Ew. cbn [fst snd] in *.
    destruct (Z.eqb_spec (c + 1) 1), (Z.ltb_spec max (c + 1)); try (destruct (Z.ltb_spec t (ts + window)));
      try (destruct (Z.ltb_spec t (t + window))); try discriminate Ew; try lia.
    all: assert (Z.min c max ≤ Z.of_nat (length (passed_in ts (t + 1) seen)))
      by (apply Hj; [simpl; lia|]; eapply Forall_impl; [apply (Hseen t Hin)|]; simpl; lia).
    all: pose proof (passed_in_mono ts (t - window + 1) (t + 1) seen); lia.
  - injection Hrun as <- Hrun. rewrite (cons_middle _ seen l), app_assoc. rewrite Forall_forall in Hle.
    apply (IH st'); try done; [lia|intros t' Ht' _; specialize (Hle t' Ht'); lia|].
    intros t' Ht'. apply Forall_app. split; [apply Hseen; by right|]. repeat constructor. by apply Hle.
Qed.
End window.

(** ** The counter keys *)

Lemma digit_char_no_s d : 0 ≤ d < 16 → digit_char d ≠ "s"%char.
Proof.
  intros Hd. assert (Forall (λ d, digit_char d ≠ "s"%char) (seqZ 0 16)) as HF
    by (vm_compute; repeat constructor; discriminate).
  rewrite Forall_forall in HF. apply HF, elem_of_seqZ. lia.
Qed.

Lemma radix_string_no_s radix n : 2 ≤ radix ≤ 16 → no_char "s" (radix_string radix n).
Proof.
  intros Hr. unfold radix_string. generalize (S (Z.to_nat (Z.log2 n))). intros fuel.
  assert (no_char "s" "") as Hacc by done. revert Hacc. generalize "". revert n.
  induction fuel as [|fuel IH]; intros n acc Hacc; [done|]. cbn [radix_digits].
  assert (no_char "s" (String (digit_char (n mod radix)) acc)).
  { apply no_char_cons. split; [|done]. apply digit_char_no_s. pose proof (Z.mod_pos_bound n radix). lia. }
  case_decide; auto.
Qed.

Lemma str_join_no_char c sep l : sep ≠ c → Forall (no_char c) l → no_char c (str_join sep l).
Proof.
  intros Hs. induction 1 as [|p l Hp Hl IH]; [done|]. destruct l as [|q l]; [done|].
  change (str_join sep (p :: q :: l)) with (p +:+ String sep (str_join sep (q :: l))).
  apply no_char_app. split; [done|]. by apply no_char_cons.
Qed.

Lemma radix_join_no_s sep radix l :
  sep ≠ "s"%char → 2 ≤ radix ≤ 16 → no_char "s" (str_join sep (radix_string radix <$> l)).
Proof.
  intros ??. apply str_join_no_char; [done|]. apply Forall_fmap, Forall_true. intros n.
  by apply radix_string_no_s.
Qed.

Lemma ip_string_no_s ip : no_char "s" (ip_string ip).
Proof.
  destruct ip as [a|a]; cbn [ip_string].
  - by apply (radix_join_no_s "." 10).
  - unfold ipv6_string. destruct (to_canonical (V6 a)) as [b|b].
    + apply no_char_app. split; [done|]. by apply (radix_join_no_s "." 10).
    + destruct (zero_run _ _ _ _) as [start len]. case_decide; [|by apply (radix_join_no_s ":" 16)].
      repeat (apply no_char_app; split); try done; by apply (radix_join_no_s ":" 16).
Qed.

Lemma str_join_two_ne sep p q l : str_join sep (p :: q :: l) ≠ "".
Proof. simpl. by destruct p. Qed.

Lemma ip_string_ne ip : ip_string ip ≠ "".
Proof.
  destruct ip as [a|a]; cbn [ip_string]; [apply str_join_two_ne|].
  unfold ipv6_string. destruct (to_canonical (V6 a)); [done|].
  destruct (zero_run _ _ _ _) as [start len]. case_decide; [|apply str_join_two_ne].
  by destruct (str_join ":" (hex_string <$> take start (groups a))).
Qed.

Lemma str_app_split p q x y :
  p +:+ q = x +:+ y → (∃ z, q = z +:+ y) ∨ (∃ z, p = x +:+ z ∧ y = z +:+ q).
Proof.
  revert x. induction p as [|a p IH]; intros [|b x]; simpl; intros E.
  - left. by exists "".
  - left. by exists (String b x).
  - right. by exists (String a p).
  - injection E as -> E. destruct (IH x E) as [[z ->]|(z&->&->)]; [left|right]; eauto.
Qed.

(** A counter key is never the time stamp key of a counter. *)
Lemma limit_keys_apart id id' ip ip' : limit_key id ip ≠ limit_key id' ip' +:+ "_ts".
Proof.
  unfold limit_key. intros E. pose proof (ip_string_no_s ip) as Hs.
  rewrite !str_app_assoc in E. apply str_app_split in E as [[z Hz]|(z&Hp&Hz)].
  - rewrite Hz, no_char_app in Hs. destruct Hs as [_ Hs]. discriminate Hs.
  - assert (z +:+ ip_string ip = ("_t" +:+ "s")) as Hz' by done.
    apply str_app_split in Hz' as [[z' Hz']|(z'&Hz1&Hz2)].
    + rewrite Hz', no_char_app in Hs. destruct Hs as [_ Hs]. discriminate Hs.
    + destruct z' as [|b z'].
      * simpl in Hz2. rewrite <- Hz2 in Hs. done.
      * injection Hz2 as <- Hz2. apply (ip_string_ne ip). by destruct z'.
Qed.

(** The script runs of the visits of one plugin instance: the canonical address and the time
    of each. *)
Definition visit_events (p : RateLimitPlugin) (visits : list (IpAddr * Z)) : list (string * Z) :=
  (λ v, (limit_key (rl_id p) (to_canonical v.1), v.2)) <$> visits.

Lemma visit_keys_apart p visits : keys_apart (visit_events p visits).
Proof.
  assert (∀ k, k ∈ (visit_events p visits).*1 → ∃ ip, k = limit_key (rl_id p) ip) as Hk.
  { intros k (e&->&(v&->&_)%list_elem_of_fmap)%list_elem_of_fmap. by eexists. }
  intros k k' [ip ->]%Hk [ip' ->]%Hk. apply limit_keys_apart.
Qed.

Section guarantees.
Context `{!RedisLaws R}.

(** Visits whose times and number are exact as doubles, on a database without their keys. *)
Record visits_ok (p : RateLimitPlugin) (visits : list (IpAddr * Z)) (db : DB) : Prop := {
  vo_fresh : ∀ k, k ∈ (visit_events p visits).*1 → redis_get k db = None;
  vo_times : Forall (λ v, exact v.2) visits;
  vo_length : exact (Z.of_nat (length visits));
}.

(** What the plugin answers to the visits of one address. *)
Definition answers (p : RateLimitPlugin) (visits : list (IpAddr * Z)) (db : DB) (ip : IpAddr) : list (Z * option Z) :=
  results_of (limit_key (rl_id p) (to_canonical ip)) (visit_events p visits)
    (limit_run (max_request_number p) (time_window_ms p) (visit_events p visits) db).1.

Lemma answers_window p visits db ip :
  visits_ok p visits db → ip ∈ visits.*1 →
  answers p visits db ip =
  answer <$> window_run (max_request_number p) (time_window_ms p) (0, 0)
    (times_of (limit_key (rl_id p) (to_canonical ip)) (visit_events p visits)).
Proof.
  intros [Hf Ht Hl] Hip. unfold answers.
  apply (limit_run_window _ _ _ (λ _, (0, 0)) 0); [apply visit_keys_apart| | | |].
  - intros k Hk. split; [left; auto|]. cbn [fst snd]. unfold exact. lia.
  - apply Forall_fmap. eapply Forall_impl; [exact Ht|done].
  - unfold visit_events. rewrite length_fmap. by rewrite Z.add_0_l.
  - apply list_elem_of_fmap in Hip as (v&->&Hv). unfold visit_events.
    rewrite <- list_fmap_compose. apply list_elem_of_fmap. by exists v.
Qed.

Lemma times_of_sorted key events :
  StronglySorted Z.le events.*2 → StronglySorted Z.le (times_of key events).
Proof.
  unfold times_of. induction events as [|[k t] events IH]; simpl; [constructor|].
  intros [Hs Hle]%StronglySorted_inv. case_decide; [|auto]. constructor; [auto|].
  rewrite Forall_forall in *. intros t' (e&He&Ht')%list_elem_of_omap. case_decide; simplify_eq.
  apply Hle, list_elem_of_fmap. by exists e.
Qed.

Lemma visit_events_times p visits : (visit_events p visits).*2 = visits.*2.
Proof. unfold visit_events. by rewrite <- list_fmap_compose. Qed.

(** The answered requests that passed in [[a, b)]. *)
Definition passes (a b : Z) (l : list (Z * option Z)) : list (Z * option Z) :=
  filter (λ tr, tr.2 = Some 1 ∧ a ≤ tr.1 < b) l.
Lemma passes_answer a b l : length (passes a b (answer <$> l)) = length (passed_in a b l).
Proof.
  induction l as [|[t pass] l IH]; [done|]. rewrite fmap_cons, passed_in_cons.
  unfold passes in *. rewrite filter_cons. unfold answer at 1 2. cbn [fst snd].
  destruct pass; repeat case_decide; simpl; naive_solver.
Qed.
End guarantees.

(** ** Counting *)

Section counting.
Context `{HttpLib} `{!PluginEnv Value} `{!RedisLaws R}.

(** The request is counted under [key] in the database of [client]. *)
Record counted_under (p : RedisPlugin) (clients : gmap string nat) (client : nat) (key : string) (req : Request) : Prop := {
  cu_client : (name ← ext_gateway_name (req_ext req); clients !! name) = Some client;
  cu_key : ∃ matched k, ext_matched_router (req_ext req) = Some matched ∧
    redis_format_key req matched (rp_header p) = Some k ∧ key = rp_prefix p +:+ ":" +:+ k;
}.

(** The cumulative count and the limit under [key]. *)
Definition count_state (key : string) (limit : Z) (db : DB) (c : Z) : Prop :=
  int_at (cumulative_key key) db c ∧ redis_get key db = Some (z_string limit).

Definition is_error (resp : Response) : bool := (400 <=? resp_status resp) && (resp_status resp <? 600).

Lemma cumulative_key_ne key : key ≠ cumulative_key key.
Proof. by apply str_app_sep_ne. Qed.

Lemma count_check_spec e key limit db c :
  count_state key limit db c → 0 ≤ c → c + 1 < 2 ^ 32 → 0 ≤ limit < 2 ^ 32 →
  ∃ db', count_check e key db = (db', Ok (c + 1 <=? limit)) ∧ count_state key limit db' (c + 1) ∧
    redis_get (cumulative_key key) db' = Some (z_string (c + 1)).
Proof.
  intros [Hc Hl] Hc0 Hc1 Hlim.
  assert (∃ db', count_write key (count_exists key db) db = Some db' ∧
    ∀ k, redis_get k db' = if decide (k = cumulative_key key) then Some (z_string (c + 1)) else redis_get k db)
    as (db'&Hw&Hdb').
  { unfold count_write, count_exists. case_bool_decide as Hs.
    - destruct (redis_incr_ok (cumulative_key key) 1 db c) as (db'&->&?); [done|split; lia|]. by exists db'.
    - destruct Hc as [Hc|[_ ->]]; [destruct Hs; by eexists|]. eexists. split; [done|].
      intros k. apply redis_get_set. }
  assert (Hcum : redis_get (cumulative_key key) db' = Some (z_string (c + 1))) by by rewrite Hdb', decide_True.
  assert (Hlim' : redis_get key db' = Some (z_string limit)).
  { rewrite Hdb', decide_False; [done|]. apply cumulative_key_ne. }
  exists db'. unfold count_check, count_read. rewrite Hw, Hcum, Hlim'. simpl.
  rewrite !parse_z_string by lia. split; [done|]. split; [|done]. split; [by left|done].
Qed.

(** One request, from the count [c]. *)
Lemma count_call_spec e p w client key req inner resp limit db c :
  counted_under p (redis_clients w) client key req → redis_dbs w !! client = Some db →
  count_state key limit db c → 0 ≤ c → c + 1 < 2 ^ 32 → 0 ≤ limit < 2 ^ 32 →
  inner req = Some resp →
  let pass := c + 1 <=? limit in
  let c' := if pass && is_error resp then c else c + 1 in
  ∃ db' w', redis_count_call e p req inner w =
      (Some (Ok (if pass then resp
                 else status_response "redis-count" 403 "request cumulative count reached the limit")), w') ∧
    redis_clients w' = redis_clients w ∧ redis_dbs w' !! client = Some db' ∧ count_state key limit db' c'.
Proof.
  intros [Hcl (matched&k&Hm&Hk&Hkey)] Hdb Hst Hc0 Hc1 Hlim Hin pass c'.
  destruct (count_check_spec e key limit db c Hst) as (db1&Hcheck&Hst1&Hcum); [done..|].
  assert (Hlt : (client < length (redis_dbs w))%nat) by by eapply lookup_lt_Some.
  apply bind_Some in Hcl as (name&Hname&Hcl). unfold redis_count_call, redis_checked, repo_get.
  rewrite Hname, Hcl, Hm, Hk, Hdb. cbv zeta. rewrite <- Hkey, Hcheck. fold pass. subst c'. destruct pass.
  - rewrite Hin. unfold count_on_resp. fold (is_error resp). simpl.
    destruct (is_error resp); simpl.
    + destruct (redis_incr_ok (cumulative_key key) (-1) db1 (c + 1)) as (db2&->&Hdb2);
        [by left|split; lia|].
      exists db2. eexists. split; [done|]. split; [done|]. simpl. rewrite list_lookup_insert_eq by by rewrite length_insert.
      split; [done|]. destruct Hst1 as [_ Hl]. split.
      * left. rewrite Hdb2, decide_True by done. do 2 f_equal. lia.
      * rewrite Hdb2, decide_False; [done|]. apply cumulative_key_ne.
    + exists db1. eexists. split; [done|]. split; [done|]. simpl.
      by rewrite list_lookup_insert_eq by by rewrite length_insert.
  - exists db1. eexists. split; [done|]. split; [done|]. simpl. by rewrite list_lookup_insert_eq.
Qed.

(** Requests one after the other. *)
Fixpoint count_calls (e : string) (p : RedisPlugin) (inner : Service) (reqs : list Request) (w : RedisWorld)
  : list Called :=
  match reqs with
  | [] => []
  | req :: reqs =>
      let '(called, w) := redis_count_call e p req inner w in
      called :: count_calls e p inner reqs w
  end.

(** The answers that are no errors. *)
Definition success (r : Called) : bool :=
  match r with Some (Ok resp) => negb (is_error resp) | _ => false end.
Definition successes (l : list Called) : list Called := filter (λ r, success r = true) l.

Lemma count_calls_bound e p inner reqs w client key limit db c n :
  Forall (counted_under p (redis_clients w) client key) reqs → redis_dbs w !! client = Some db →
  count_state key limit db c → 0 ≤ c ≤ n → n + Z.of_nat (length reqs) < 2 ^ 32 → 0 ≤ limit < 2 ^ 32 →
  (∀ req, is_Some (inner req)) →
  Z.of_nat (length (successes (count_calls e p inner reqs w))) ≤ Z.max 0 (limit - c).
Proof.
  intros Hreqs Hdb Hst Hc Hn Hlim Hinner. revert w db c n Hreqs Hdb Hst Hc Hn.
  induction reqs as [|req reqs IH]; intros w db c n Hreqs Hdb Hst Hc Hn; [simpl; lia|].
  apply Forall_cons in Hreqs as [Hreq Hreqs]. destruct (Hinner req) as [resp Hresp].
  rewrite length_cons in Hn.
  destruct (count_call_spec e p w client key req inner resp limit db c) as (db'&w'&Hcall&Hcl&Hdb'&Hst');
    [done|done|done|lia|lia|done|done|].
  cbn [count_calls]. rewrite Hcall. unfold successes in *. rewrite filter_cons.
  rewrite <- Hcl in Hreqs. specialize (IH w' db' _ (n + 1) Hreqs Hdb' Hst').
  destruct (Z.leb_spec (c + 1) limit) as [Hle|Hgt]; cbn [andb] in *.
  - destruct (is_error resp) eqn:Herr; cbn [andb] in *.
    + rewrite decide_False by (simpl; by rewrite Herr). specialize (IH ltac:(lia) ltac:(lia)). lia.
    + rewrite decide_True by (simpl; by rewrite Herr). specialize (IH ltac:(lia) ltac:(lia)). cbn [length]. lia.
  - rewrite decide_False by done. specialize (IH ltac:(lia) ltac:(lia)). lia.
Qed.
End counting.

(** ** Properties *)

(** the script keeps one fixed window counter per client address: whatever the
    interleaving of the clients' visits, the answers to one address are those of its own
    counter, and no script run fails. *)
Theorem limit_refines `{RedisLaws} p visits db ip
  (Hok : visits_ok p visits db) (Hip : ip ∈ visits.*1) :
  answers p visits db ip =
  answer <$> window_run (max_request_number p) (time_window_ms p) (0, 0)
    (times_of (limit_key (rl_id p) (to_canonical ip)) (visit_events p visits)).
Proof. by apply answers_window. Qed.

(** C13: if the times of the visits do not decrease, one address passes at most twice the
    configured number (at least twice one) of times in any time window, and a request is
    rejected only after the configured number of passes within the last window. *)
Theorem limit_guarantees `{RedisLaws} p visits db ip
  (Hok : visits_ok p visits db) (Hip : ip ∈ visits.*1)
  (Hmax : 0 ≤ max_request_number p)
  (Hsorted : StronglySorted Z.le visits.*2) :
  let answered := answers p visits db ip in
  let window := time_window_ms p in
  (∀ a, Z.of_nat (length (passes a (a + window) answered)) ≤ 2 * Z.max 1 (max_request_number p)) ∧
  (∀ l t l', answered = l ++ (t, Some 0) :: l' →
    max_request_number p ≤ Z.of_nat (length (passes (t - window + 1) (t + 1) l))).
Proof.
  intros answered window. unfold answered. rewrite answers_window by done.
  assert (Hs : StronglySorted Z.le (times_of (limit_key (rl_id p) (to_canonical ip)) (visit_events p visits))).
  { apply times_of_sorted. by rewrite visit_events_times. }
  split.
  - intros a. rewrite passes_answer. by apply window_bound.
  - intros l t l' (l1&l2'&->&Hl2&Heq)%fmap_app_inv.
    destruct l2' as [|[t2 pass] l2]; [done|]. rewrite fmap_cons in Hl2.
    injection Hl2 as <- Hpass _. destruct pass; [done|]. rewrite passes_answer.
    refine (window_reject _ _ _ (0, 0) [] l1 t l2 Hs _ _ _ _ Heq);
      [done|by intros|by intros; constructor|by intros Hz].
Qed.

(** Of the requests of one credential that are served one after the other, at most the
    configured number is answered without an error (those already counted deducted); an
    answer with an error status does not count. *)
Theorem redis_count_bound `{HttpLib} `{!PluginEnv Value} `{!RedisLaws R} e p inner reqs w client key limit db c
  (Hreqs : Forall (counted_under p (redis_clients w) client key) reqs)
  (Hdb : redis_dbs w !! client = Some db)
  (Hstate : count_state key limit db c)
  (Hc : 0 ≤ c) (Hn : c + Z.of_nat (length reqs) < 2 ^ 32) (Hlimit : 0 ≤ limit < 2 ^ 32)
  (Hinner : ∀ req, is_Some (inner req)) :
  Z.of_nat (length (successes (count_calls e p inner reqs w))) ≤ Z.max 0 (limit - c).
Proof. by eapply (count_calls_bound e p inner reqs w client key limit db c c). Qed.

(** ** A reference server *)

Definition ref_parse_int (s : string) : option Z :=
  match s with
  | String "-" s' => Z.opp <$> parse_radix 10 s'
  | _ => parse_radix 10 s
  end.

#[export] Instance ref_redis : Redis := {|
  DB := gmap string string;
  redis_get k db := db !! k;
  redis_set k v db := <[k := v]> db;
  redis_incr k d db :=
    n ← (match db !! k with Some s => ref_parse_int s | None => Some 0 end);
    Some (n + d, <[k := z_string (n + d)]> db);
  tonumber := ref_parse_int;
|}.

Lemma ref_parse_z_string z : ref_parse_int (z_string z) = Some z.
Proof.
  unfold z_string. destruct (Z.ltb_spec z 0).
  - simpl. unfold dec_string. rewrite parse_radix_string by lia. simpl. f_equal. lia.
  - unfold ref_parse_int. pose proof (parse_radix_string 10 z ltac:(lia) ltac:(lia)) as Hp. fold (dec_string z) in Hp.
    destruct (dec_string z) as [|a s]; [done|]. destruct (decide (a = "-"%char)) as [->|]; [discriminate Hp|].
    by destruct a as [[] [] [] [] [] [] [] []].
Qed.

#[export] Instance ref_redis_laws : RedisLaws ref_redis.
Proof.
  split; simpl.
  - intros k v db k'. case_decide; subst; [by rewrite lookup_insert_eq|by rewrite lookup_insert_ne].
  - intros k d db n Hn _. eexists. split.
    + destruct Hn as [Hn|[Hn ->]]; simpl in Hn; rewrite Hn; simpl; [by rewrite ref_parse_z_string|done].
    + intros k'. case_decide; subst; [by rewrite lookup_insert_eq|by rewrite lookup_insert_ne].
  - intros n _. apply ref_parse_z_string.
Qed.

(** Two visits in one window and one in the next, one allowed. *)
Definition ex_limit : RateLimitPlugin := MkRateLimit 1 1000 "limit-m".
Definition ex_visits : list (IpAddr * Z) := [(V4 1, 0); (V4 1, 10); (V4 1, 1000)].

Lemma ex_visits_ok : visits_ok ex_limit ex_visits (∅ : DB (Redis:=ref_redis)).
Proof.
  split.
  - intros k _. simpl. apply lookup_empty.
  - repeat constructor; simpl; unfold exact; lia.
  - unfold exact. simpl. lia.
Qed.

Lemma limit_refines_witness :
  answers (R:=ref_redis) ex_limit ex_visits ∅ (V4 1) = [(0, Some 1); (10, Some 0); (1000, Some 1)].
Proof.
  etransitivity.
  - apply (limit_refines (R:=ref_redis) ex_limit ex_visits ∅ (V4 1) ex_visits_ok). by left.
  - reflexivity.
Defined.

Lemma limit_guarantees_witness :
  Z.of_nat (length (passes 0 1000 (answers (R:=ref_redis) ex_limit ex_visits ∅ (V4 1)))) ≤ 2.
Proof.
  refine (proj1 (limit_guarantees (R:=ref_redis) ex_limit ex_visits ∅ (V4 1) ex_visits_ok _ _ _) 0).
  - by left.
  - simpl. lia.
  - simpl. repeat constructor; lia.
Defined.

Definition ex_count : RedisPlugin := MkRedisPlugin "p" "authorization".
Definition ex_count_request : @Request ref_http :=
  MkReq (H:=ref_http) "GET" (MkUri None None None) 11 [("authorization", "ak")]
    (ext_set_gateway_name "gw" (ext_set_matched_router (MkRouteMatch None None None None) ext_empty)) "".
Definition ex_count_world : RedisWorld (H:=ref_redis) :=
  MkRedisWorld (H:=ref_redis) {[ "gw" := 0%nat ]} [ {[ "p:*:*:ak" := "1" ]} ].

Lemma redis_count_bound_witness :
  Z.of_nat (length (successes (count_calls "" ex_count (λ _, Some (with_code_empty 200))
    [ex_count_request; ex_count_request] ex_count_world))) ≤ 1.
Proof.
  refine (@redis_count_bound ref_http string ref_env ref_redis ref_redis_laws "" ex_count
    (λ _, Some (with_code_empty 200)) [ex_count_request; ex_count_request] ex_count_world 0%nat "p:*:*:ak" 1
    {[ "p:*:*:ak" := "1" ]} 0 _ _ _ _ _ _ _).
  - assert (counted_under ex_count (redis_clients ex_count_world) 0%nat "p:*:*:ak" ex_count_request).
    { split; [reflexivity|]. eexists _, _. split_and!; reflexivity. }
    constructor; [assumption|]. constructor; [assumption|]. constructor.
  - reflexivity.
  - split; [right; split; reflexivity|reflexivity].
  - lia.
  - simpl. lia.
  - lia.
  - intros req. by eexists.
Defined.

(** The commands of two requests that interleave: both find no counter, both write 1, and
    both pass a limit of 1. *)
Example redis_count_race :
  let db : DB (Redis:=ref_redis) := {[ "k" := "1" ]} in
  let a_existed := count_exists "k" db in
  let b_existed := count_exists "k" db in
  (db ← count_write "k" a_existed db;
   db ← count_write "k" b_existed db;
   a_pass ← count_read "k" db;
   b_pass ← count_read "k" db;
   Some (a_pass, b_pass)) = Some (true, true).
Proof. reflexivity. Qed.
