(* ===== verification/Shell.v ===== *)
(** * The shell

    [crates/shell/src/server.rs], [shell/src/config.rs] and
    [shell/src/config/plugin_filter_dto.rs]: how a configuration becomes the router and
    the service of a running gateway, with its plugins mounted, and how the events of a
    configuration backend change the running gateways.

    Plugin functions can be swapped while a gateway runs, so what is built from a
    configuration is a function of the state of the plugin repository ([Dyn]). A mount
    point lives in the repository's state until it is dropped. [None] is a panic. The
    build that is modelled has the features [cache] and [reload], and not [k8s]. TLS
    configurations are made by an interface. *)

From S2P Require Export PluginRepo Gateway ConfigService.
From S2P Require Import RefHttp.
Local Open Scope string_scope.
Local Open Scope list_scope.
Local Open Scope nat_scope.

(** What becomes of the key and certificates of a listener. *)
Inductive TlsOutcome := TlsReady | TlsNoKey | TlsFailed (e : string).
Class TlsLib := tls_server_config : SgTlsConfig → option string → TlsOutcome.

Section build.
Context `{HttpLib} `{!Runtime} `{!Client} `{!FileSystem} `{!StdOrder} `{!MatchParsers}.

(** ** Mounting plugins *)

Definition Dyn (A : Type) : Type := World Json → A.

(** The state of a construction: the repository, and the mount points made so far. *)
Definition BState : Type := World Json * list nat.
Notation Build A := (OpE BState ConvertError A).

Definition new_point (w : World Json) : nat * World Json :=
  let p := fresh (dom (points w)) in (p, set_points (<[p := mount_point_new]> (points w)) w).

(** The loop of [batch_mount_plugin]: a failure is logged. *)
Definition mount_bindings (bindings : list PluginBinding) (point : nat) (index : MountPointIndex)
    (w : World Json) : World Json :=
  foldl (λ w b, (mount point index (binding_id b) w).2) w bindings.
(** [batch_mount_plugin] *)
Definition batch_mount_plugin (plugins : list PluginBinding) (point : nat) (index : MountPointIndex)
    (w : World Json) : World Json :=
  mount_bindings (order_plugin_bindings plugins) point index w.

Definition point_layers (w : World Json) (point : nat) : list nat :=
  mp_layers (default mount_point_new (points w !! point)).
(** The mounted layers, in the repository's state when they are called. *)
Definition layers_at (cells : list nat) : Dyn (list BoxLayer) := λ w, make w <$> cells.

(** [global_batch_update_plugin]: a failure is logged. *)
Definition global_batch_update_plugin (plugins : list (PluginConfig Json)) (w : World Json) : World Json :=
  foldl (λ w plugin, (create_or_update_instance plugin w).2) w plugins.

(** [global_batch_mount_plugin] on a new layer, and its mount point. *)
Definition global_batch_mount_plugin {A} (plugins : list PluginBinding) (add : list BoxLayer → A → A)
    (layer : Dyn A) (index : MountPointIndex) : Build (Dyn A * nat) := λ '(w, made),
  let '(point, w) := new_point w in
  let w := batch_mount_plugin plugins point index w in
  let cells := point_layers w point in
  (Ok (λ w', add (layers_at cells w') (layer w'), point), (w, point :: made)).

(** ** Routes: [collect_http_route] *)

Definition millis (ms : Z) : RequestTimeout := TimeoutDuration (ms * 10 ^ 6).

Definition backend_layer (b : SgBackendRef PluginBinding) : HttpBackend :=
  let builder := backend_host (get_host b) backend_builder_new in
  let builder := match b_port b with Some port => backend_port port builder | None => builder end in
  let builder := match b_timeout_ms b with Some ms => backend_timeout (millis ms) builder | None => builder end in
  let builder := if decide (b_timeout_mode b = Some TmDisabled) then backend_timeout TimeoutDisabled builder else builder in
  let layer := match b_host b with
               | HostFile path => backend_path path (backend_file builder)
               | _ => match b_protocol b with
                      | Some protocol => backend_schema (backend_protocol_to_string protocol) builder
                      | None => builder
                      end
               end in
  match b_downgrade_http2 b with Some _ => backend_version 11 layer | None => layer end.

Definition build_backend (gateway route : string) (rule_index : nat) (ib : nat * SgBackendRef PluginBinding)
  : Build (Dyn HttpBackend) :=
  let '(backend_index, b) := ib in
  do layer <- global_batch_mount_plugin (b_plugins b) backend_plugins (λ _, backend_layer b)
      (AtHttpBackend gateway route rule_index backend_index);
  op_ret layer.1.

(** The layer that marks the requests of an MCP route. *)
Definition mcp_layer (transport : string) : BoxLayer := map_request (λ req,
  map_ext (ext_set_mcp_proxy (MkMcpProxyMeta transport "MCPRoute"
    (match hm_get_all (req_headers req) "mcp-session-id" with [] => false | _ => true end))) req).

Definition kernel_policy (p : SgBalancePolicy) : BalancePolicyEnum :=
  match p with SgRandom => BpRandom | SgIpHash => BpIpHash | SgMcpSession => BpMcpSession end.

Definition rule_layer (mcp : option string) (matches : option (list HttpRouteMatch))
    (r : SgHttpRouteRule PluginBinding) (backends : list HttpBackend) : HttpRouteRule :=
  let builder := rule_builder_new in
  let builder := match mcp with Some transport => rule_plugin (mcp_layer transport) builder | None => builder end in
  let builder := match matches with Some ms => rule_matches ms builder | None => match_all builder end in
  let builder := rule_backends backends builder in
  let builder := match sr_timeout_ms r with Some ms => rule_set_timeout (millis ms) builder | None => builder end in
  let builder := if decide (sr_timeout_mode r = Some TmDisabled) then rule_disable_timeout builder else builder in
  match sr_balance_policy r with Some p => rule_balance_policy (kernel_policy p) builder | None => builder end.

Definition build_rule (gateway route : string) (mcp : option string) (ir : nat * SgHttpRouteRule PluginBinding)
  : Build (Dyn HttpRouteRule) :=
  let '(rule_index, r) := ir in
  do matches <- op_lift (transpose_map (collect_results convert_config_to_kernel) (sr_matches r));
  do backends <- op_map (build_backend gateway route rule_index) (imap pair (sr_backends r));
  do layer <- global_batch_mount_plugin (sr_plugins r) rule_plugins
      (λ w, rule_layer mcp matches r ((λ b : Dyn HttpBackend, b w) <$> backends))
      (AtHttpRouteRule gateway route rule_index);
  op_ret layer.1.

Definition route_add_plugins (ps : list BoxLayer) (r : HttpRoute) : HttpRoute :=
  MkRoute (rt_name r) (rt_hostnames r) (rt_plugins r ++ ps) (rt_rules r) (rt_priority r) (rt_ext r).
Definition route_layer (r : SgHttpRoute PluginBinding) (rules : list HttpRouteRule) : HttpRoute :=
  route_build (route_priority (hr_priority r) (route_rules rules
    (route_hostnames (default [] (hr_hostnames r)) route_builder_new))).

(** A route with its mount point, which the router keeps. *)
Definition build_route (gateway : string) (nr : string * SgRoute PluginBinding)
  : Build (string * (Dyn HttpRoute * nat)) :=
  let '(name, route) := nr in
  let '(route, mcp) := compile_route route in
  do rules <- op_map (build_rule gateway name mcp) (imap pair (hr_rules route));
  do layer <- global_batch_mount_plugin (hr_plugins route) route_add_plugins
      (λ w, route_layer route ((λ r : Dyn HttpRouteRule, r w) <$> rules)) (AtHttpRoute gateway name);
  op_ret (name, layer).

Definition collect_http_route (gateway : string) (routes : list (string * SgRoute PluginBinding))
  : Build (gmap string (Dyn HttpRoute * nat)) :=
  do built <- op_map (build_route gateway) routes;
  op_ret (collect built).

(** ** Routers and services *)

(** A router as the reloader holds it: it is built when it is made, and [None] is the panic
    of that; the marks of its routes live as long as it does. *)
Record RouterInst := MkRouterInst { ri_router : Dyn (option HttpRouterService); ri_points : list nat }.

(** Drops the mount points [ps]. *)
Definition drop_points (ps : list nat) (w : World Json) : World Json := foldl (λ w p, drop_point p w) w ps.

(** The routes of a built map, in the state [w]. *)
Definition routes_at (w : World Json) (routes : gmap string (Dyn HttpRoute * nat)) : gmap string HttpRoute :=
  (λ r, r.1 w) <$> routes.
Definition route_points (routes : gmap string (Dyn HttpRoute * nat)) : list nat :=
  (λ kr, kr.2.2) <$> map_to_list routes.

(** The end of a construction: what was made is dropped, less what is kept. *)
Definition drop_except (kept : list nat) (s : BState) : World Json :=
  drop_points (filter (λ p, p ∉ kept) s.2) s.1.

(** [create_router_service] *)
Definition create_router_service (gateway : string) (routes : list (string * SgRoute PluginBinding))
    (w : World Json) : option (result RouterInst ConvertError * World Json) :=
  match collect_http_route gateway routes (w, []) with
  | (Err e, s) => Some (Err e, drop_except [] s)
  | (Ok built, s) =>
      let router w := create_http_router (map_values (routes_at w built)) default_gateway_route_fallback in
      _ ← router s.1;
      Some (Ok (MkRouterInst router (route_points built)), drop_except (route_points built) s)
  end.

(** The service of a gateway: the name and the plugins of the gateway around the router its
    reloader holds. *)
Record GatewayService := MkGatewayService { gs_gateway : Dyn Gateway; gs_lock : nat; gs_reloader : Reloader RouterInst }.

Definition gateway_add_plugins (ps : list BoxLayer) (g : Gateway) : Gateway :=
  MkGateway (gateway_name g) (http_routes g) (http_plugins g ++ ps) (http_fallback g) (gw_ext g).

(** What the service does in the state [w] of the repository. *)
Definition gateway_call (s : GatewayService) (w : World Json) : Service :=
  let g := gs_gateway s w in
  let inner : Service := λ req,
    inst ← reload_read (gs_lock s) (gs_reloader s);
    router ← ri_router inst w;
    router_call router req in
  map_request (add_gateway_name (gateway_name g) true) (fold_layers (http_plugins g) inner).

(** The gateway's own layer, before its plugins are mounted; [x_request_id] stands for the
    plugin [x_request_id::<Snowflake>]. *)
Definition gateway_layer (x_request_id : BoxLayer) (gateway : SgGateway PluginBinding)
    (built : gmap string (Dyn HttpRoute * nat)) : Dyn Gateway := λ w,
  let builder := gateway_builder_new (g_name gateway) in
  let builder := match p_enable_x_request_id (g_parameters gateway) with
                 | Some enable => gb_set_x_request_id enable builder
                 | None => builder
                 end in
  gb_build x_request_id (gb_http_routers (map_to_list (routes_at w built)) builder).

(** [create_service] *)
Definition create_service (x_request_id : BoxLayer) (item : ConfigItem PluginBinding) (rl : Reloader RouterInst)
    (w : World Json) : option (result GatewayService ConvertError * World Json) :=
  let gateway := ci_gateway item in
  let name := g_name gateway in
  match collect_http_route name (ci_routes item) (w, []) with
  | (Err e, s) => Some (Err e, drop_except [] s)
  | (Ok built, s) =>
      match global_batch_mount_plugin (g_plugins gateway) gateway_add_plugins
              (gateway_layer x_request_id gateway built) (AtGateway name) s with
      | (Err e, s) => Some (Err e, drop_except [] s)
      | (Ok (layer, _), s) =>
          let router w := create_http_router (map_values (http_routes (layer w))) (http_fallback (layer w)) in
          _ ← router s.1;
          let '(lock, rl) := reload_layer (MkRouterInst router (route_points built)) rl in
          Some (Ok (MkGatewayService layer lock rl), drop_except (route_points built) s)
      end
  end.
End build.

(** ** Running gateways *)

Section shell.
Context `{HttpLib} `{!Runtime} `{!Client} `{!FileSystem} `{!StdOrder} `{!MatchParsers} `{!TlsLib}.

(** A listener: its address and the service it offers, [None] for one without services. *)
Inductive Offer := OfferHttp | OfferHttps (tls : SgTlsConfig).
Record SgListen := MkSgListen { sl_ip : IpAddr; sl_port : Z; sl_service : option Offer }.

(** What a task of listeners runs. *)
Record GatewayTask := MkGatewayTask { gt_name : string; gt_service : GatewayService; gt_listens : list SgListen }.

(** The global store holds a gateway by its cancellation token, which also names its task.
    A token is cancelled by itself or by the shutdown signal, the ancestor of all. *)
Record Shell := MkShell {
  sh_world : World Json;
  sh_store : gmap string nat;
  sh_tasks : gmap nat GatewayTask;
  sh_cancelled : gset nat;
  sh_shutdown : bool;
  sh_redis : gmap string string;
}.
Definition shell_new (w : World Json) : Shell := MkShell w ∅ ∅ ∅ false ∅.

Definition set_world w (s : Shell) : Shell :=
  MkShell w (sh_store s) (sh_tasks s) (sh_cancelled s) (sh_shutdown s) (sh_redis s).
Definition set_store m (s : Shell) : Shell :=
  MkShell (sh_world s) m (sh_tasks s) (sh_cancelled s) (sh_shutdown s) (sh_redis s).
Definition set_tasks m (s : Shell) : Shell :=
  MkShell (sh_world s) (sh_store s) m (sh_cancelled s) (sh_shutdown s) (sh_redis s).
Definition set_redis m (s : Shell) : Shell :=
  MkShell (sh_world s) (sh_store s) (sh_tasks s) (sh_cancelled s) (sh_shutdown s) m.

(** A task whose token is not cancelled: its listeners accept connections. *)
Definition live (s : Shell) (token : nat) : Prop :=
  is_Some (sh_tasks s !! token) ∧ token ∉ sh_cancelled s ∧ sh_shutdown s = false.

Inductive CreateError := CreateConvert (e : ConvertError) | CreateTls (e : string).

(** The loop over the listeners of [create]. *)
Definition build_listener (l : SgListener) : result SgListen CreateError :=
  let ip := default (V4 0) (l_ip l) in
  match l_protocol l with
  | ProtocolHttp => Ok (MkSgListen ip (l_port l) (Some OfferHttp))
  | ProtocolHttps tls =>
      if decide (tls_mode tls = Terminate) then
        match tls_server_config tls (l_hostname l) with
        | TlsReady => Ok (MkSgListen ip (l_port l) (Some (OfferHttps tls)))
        | TlsNoKey => Ok (MkSgListen ip (l_port l) None)
        | TlsFailed e => Err (CreateTls e)
        end
      else Ok (MkSgListen ip (l_port l) None)
  end.

Definition drop_router (inst : option RouterInst) (s : Shell) : Shell :=
  match inst with Some i => set_world (drop_points (ri_points i) (sh_world s)) s | None => s end.

(** [RunningSgGateway::create]: a new token and its task. When a listener fails the service
    is dropped with its router. *)
Definition create_gateway (x_request_id : BoxLayer) (item : ConfigItem PluginBinding) (s : Shell)
  : option (result nat CreateError * Shell) :=
  let gateway := ci_gateway item in
  let s := match p_redis_url (g_parameters gateway) with
           | Some url => set_redis (<[g_name gateway := url]> (sh_redis s)) s
           | None => s
           end in
  '(r, w) ← create_service x_request_id item reloader_default (sh_world s);
  let s := set_world w s in
  match r with
  | Err e => Some (Err (CreateConvert e), s)
  | Ok service =>
      match collect_results build_listener (g_listeners gateway) with
      | Err e => Some (Err e, drop_router (reload_read (gs_lock service) (gs_reloader service)) s)
      | Ok listens =>
          let token := fresh (dom (sh_tasks s) ∪ sh_cancelled s) in
          Some (Ok token, set_tasks (<[token := MkGatewayTask (g_name gateway) service listens]> (sh_tasks s)) s)
      end
  end.

(** [global_save] and [global_remove] *)
Definition global_save (name : string) (token : nat) (s : Shell) : Shell :=
  set_store (<[name := token]> (sh_store s)) s.
Definition global_remove (name : string) (s : Shell) : option nat * Shell :=
  (sh_store s !! name, set_store (delete name (sh_store s)) s).

(** [shutdown]: the token is cancelled and the Redis client of the gateway's name removed. *)
Definition shutdown (token : nat) (s : Shell) : Shell :=
  MkShell (sh_world s) (sh_store s) (sh_tasks s) ({[token]} ∪ sh_cancelled s) (sh_shutdown s)
    (match sh_tasks s !! token with Some t => delete (gt_name t) (sh_redis s) | None => sh_redis s end).

(** The end of a cancelled task: its service is dropped, and with it the router. *)
Definition task_router (t : GatewayTask) : option RouterInst :=
  reload_read (gs_lock (gt_service t)) (gs_reloader (gt_service t)).
Definition task_end (token : nat) (s : Shell) : Shell :=
  match sh_tasks s !! token with
  | Some t => drop_router (task_router t) (set_tasks (delete token (sh_tasks s)) s)
  | None => s
  end.

(** [global_update] *)
Definition reload_service (inst : RouterInst) (g : GatewayService) : GatewayService :=
  MkGatewayService (gs_gateway g) (gs_lock g) (reload inst (gs_reloader g)).
Definition reload_task (inst : RouterInst) (t : GatewayTask) : GatewayTask :=
  MkGatewayTask (gt_name t) (reload_service inst (gt_service t)) (gt_listens t).
Definition global_update (name : string) (routes : list (string * SgRoute PluginBinding)) (s : Shell)
  : option (result () ConvertError * Shell) :=
  '(r, w) ← create_router_service name routes (sh_world s);
  let s := set_world w s in
  match r with
  | Err e => Some (Err e, s)
  | Ok inst =>
      match sh_store s !! name with
      | None => Some (Ok (), drop_router (Some inst) s)
      | Some token =>
          match sh_tasks s !! token with
          | None => Some (Ok (), drop_router (Some inst) s)
          | Some t =>
              Some (Ok (), drop_router (task_router t) (set_tasks (<[token := reload_task inst t]> (sh_tasks s)) s))
          end
      end
  end.

(** [global_init]: the plugins, then the gateways; a failure is logged. *)
Definition init_plugins (plugins : list (PluginInstanceId * Json)) (w : World Json) : World Json :=
  foldl (λ w kv, (create_or_update_instance (MkPluginConfig kv.1 None kv.2) w).2) w plugins.
Definition create_and_save (x_request_id : BoxLayer) (name : string) (item : ConfigItem PluginBinding) (s : Shell)
  : option Shell :=
  '(r, s) ← create_gateway x_request_id item s;
  Some (match r with Ok token => global_save name token s | Err _ => s end).
Fixpoint init_gateways (x_request_id : BoxLayer) (items : list (string * ConfigItem PluginBinding)) (s : Shell)
  : option Shell :=
  match items with
  | [] => Some s
  | (name, item) :: items => s ← create_and_save x_request_id name item s; init_gateways x_request_id items s
  end.
Definition global_init (x_request_id : BoxLayer) (config : Config Json) (s : Shell) : option Shell :=
  init_gateways x_request_id (c_gateways config)
    (set_world (init_plugins (map_to_list (c_plugins config)) (sh_world s)) s).

(** [global_reset] *)
Definition shutdown_all (tokens : list nat) (s : Shell) : Shell := foldl (λ s t, shutdown t s) s tokens.
Definition global_reset (s : Shell) : Shell :=
  let s' := shutdown_all ((map_to_list (sh_store s)).*2) (set_store ∅ s) in
  set_world (clear_instances (sh_world s')) s'.

(** ** Events: [handler] *)

Inductive HandlerError := HandleRetrieve (e : string) | HandleRepo (e : RepoError).

Context {C : Type} `{!Retrieve C}.
Context (x_request_id : BoxLayer).
Definition System : Type := Shell * C.

(** [r.await?] followed by [k]. *)
Definition retrieved {A} (m : Op C A) (sys : System) (k : A → System → option (result () HandlerError * System))
  : option (result () HandlerError * System) :=
  match m sys.2 with
  | (Ok a, c) => k a (sys.1, c)
  | (Err e, c) => Some (Err (HandleRetrieve e), (sys.1, c))
  end.

Definition done_with (c : C) (s : option Shell) : option (result () HandlerError * System) :=
  (λ s, (Ok (), (s, c))) <$> s.

Definition handler (event : ListenEvent) (sys : System) : option (result () HandlerError * System) :=
  match ev_config event, ev_type event with
  | CtGateway name, EvCreate =>
      retrieved (retrieve_config_item name) sys (λ item '(s, c),
        match item with
        | Some item => done_with c (create_and_save x_request_id name item s)
        | None => done_with c (Some s)
        end)
  | CtGateway name, EvUpdate =>
      retrieved (retrieve_config_item name) sys (λ item '(s, c),
        match item with
        | Some item =>
            let '(inst, s) := global_remove name s in
            let s := match inst with Some token => shutdown token s | None => s end in
            done_with c (create_and_save x_request_id name item s)
        | None => done_with c (Some s)
        end)
  | CtGateway name, EvDelete =>
      let '(inst, s) := global_remove name sys.1 in
      done_with sys.2 (Some (match inst with Some token => shutdown token s | None => s end))
  | CtRoute gateway_name _, _ =>
      retrieved (retrieve_config_item_all_routes gateway_name) sys (λ routes '(s, c),
        done_with c (snd <$> global_update gateway_name routes s))
  | CtPlugin id, (EvCreate | EvUpdate) =>
      retrieved (retrieve_plugin id) sys (λ config '(s, c),
        match config with
        | Some config => done_with c (Some (set_world (create_or_update_instance config (sh_world s)).2 s))
        | None => done_with c (Some s)
        end)
  | CtPlugin id, EvDelete =>
      let '(r, w) := remove_instance id (sh_world sys.1) in
      Some (match r with Ok _ => Ok () | Err e => Err (HandleRepo e) end, (set_world w sys.1, sys.2))
  | CtGlobal, _ =>
      retrieved retrieve_config sys (λ config '(s, c),
        done_with c (global_init x_request_id config (global_reset s)))
  end.

(** The loop of [startup_with_shutdown_signal]: the error of a handler is logged. *)
Definition handle (event : ListenEvent) (sys : System) : option System := snd <$> handler event sys.
Fixpoint handle_all (events : list ListenEvent) (sys : System) : option System :=
  match events with
  | [] => Some sys
  | e :: events => sys ← handle e sys; handle_all events sys
  end.

(** [ListenerWrapper::poll_next]: an error of the listener is the end of the stream. *)
Definition wrapper_poll_next (p : Poll (result ListenEvent string)) : Poll (option ListenEvent) :=
  match p with Ready (Ok e) => Ready (Some e) | Ready (Err _) => Ready None | Pending => Pending end.

(** What the loop waits for: the shutdown signal, or an answer of the listener. *)
Inductive Wake := ShutdownSignal | Woken (p : Poll (result ListenEvent string)).
Definition cancel_all (s : Shell) : Shell :=
  MkShell (sh_world s) (sh_store s) (sh_tasks s) (sh_cancelled s) true (sh_redis s).
(** The state after the wakes, and whether the loop still runs. *)
Fixpoint event_loop (wakes : list Wake) (sys : System) : option (System * bool) :=
  match wakes with
  | [] => Some (sys, true)
  | ShutdownSignal :: _ => Some ((cancel_all sys.1, sys.2), false)
  | Woken p :: wakes =>
      match wrapper_poll_next p with
      | Pending => event_loop wakes sys
      | Ready None => Some (sys, false)
      | Ready (Some event) => sys ← handle event sys; event_loop wakes sys
      end
  end.
(** [startup_with_shutdown_signal]; [created] is what [create_listener] answers. *)
Definition startup_with_shutdown_signal (created : result (Config Json) string) (wakes : list Wake) (sys : System)
  : option (result (System * bool) string) :=
  match created with
  | Err e => Some (Err e)
  | Ok config =>
      s ← global_init x_request_id config sys.1;
      Ok <$> event_loop wakes (s, sys.2)
  end.

(** Events that all arrive are handled in their order. *)
Lemma event_loop_events events sys :
  event_loop ((λ e, Woken (Ready (Ok e))) <$> events) sys = (λ sys, (sys, true)) <$> handle_all events sys.
Proof. revert sys. induction events as [|e events IH]; intros sys; simpl; [done|]. by destruct (handle e sys); simpl. Qed.

(** Nothing that happens after an error of the listener is handled. *)
Lemma listener_error_is_final pre e post sys :
  event_loop (pre ++ Woken (Ready (Err e)) :: post) sys = event_loop (pre ++ [Woken (Ready (Err e))]) sys ∧
  ∀ sys' running, event_loop (pre ++ Woken (Ready (Err e)) :: post) sys = Some (sys', running) → running = false.
Proof.
  revert sys. induction pre as [|[|[[ev|e']|]] pre IH]; intros sys; simpl; try (split; [done|intros; by simplify_eq]).
  - destruct (handle ev sys) as [sys1|]; simpl; [apply IH|done].
  - apply IH.
Qed.
End shell.
Arguments System {_} C.

(** ** Lemmas: mounting *)

Section mount_lemmas.
Context `{HttpLib}.
Implicit Types (w : World Json).

(** The cell of the function a binding refers to. *)
Definition bound_cell w (b : PluginBinding) : option nat :=
  (λ i, inst_function (inst_data i)) <$> instances w !! binding_id b.

(** What mounting on [p] keeps. *)
Record mount_frame (p : nat) w w' : Prop := {
  mf_cells : cells w' = cells w;
  mf_bound b : bound_cell w' b = bound_cell w b;
  mf_points q : q ≠ p → points w' !! q = points w !! q;
}.

Lemma mount_frame_refl p w : mount_frame p w w.
Proof. by split. Qed.
Lemma mount_frame_trans p w1 w2 w3 : mount_frame p w1 w2 → mount_frame p w2 w3 → mount_frame p w1 w3.
Proof. intros [H1 H2 H3] [H4 H5 H6]. split; intros; by rewrite ?H4, ?H5, ?H6, ?H1, ?H2, ?H3. Qed.

Lemma mount_one p ix b w :
  repo_wf w →
  let w' := (mount p ix (binding_id b) w).2 in
  repo_wf w' ∧ mount_frame p w w' ∧
  point_layers w' p = point_layers w p ++ option_list (bound_cell w b).
Proof.
  intros Hw w'. split; [by apply mount_wf|]. unfold bound_cell.
  destruct (instances w !! binding_id b) as [i|] eqn:Hi.
  - subst w'. erewrite mount_ok by done. cbn [snd]. split.
    + split; [done| |].
      * intros b'. unfold bound_cell. simpl. destruct (decide (binding_id b = binding_id b')) as [Heq|].
        -- rewrite <- Heq, lookup_insert_eq, Hi. done.
        -- by rewrite !lookup_insert_ne.
      * intros q Hq. simpl. by rewrite lookup_insert_ne.
    + unfold point_layers at 1. simpl. by rewrite lookup_insert_eq.
  - destruct (mount_none p ix (binding_id b) w Hi) as [Heq _]. subst w'. rewrite Heq. simpl.
    rewrite app_nil_r. split; [apply mount_frame_refl|done].
Qed.

Lemma mount_bindings_spec bs p ix w :
  repo_wf w →
  let w' := mount_bindings bs p ix w in
  repo_wf w' ∧ mount_frame p w w' ∧ point_layers w' p = point_layers w p ++ omap (bound_cell w) bs.
Proof.
  revert w. induction bs as [|b bs IH]; intros w Hw; simpl.
  - rewrite app_nil_r. by split_and!; [|apply mount_frame_refl|].
  - destruct (mount_one p ix b w Hw) as (Hw1&Hf1&Hl1). destruct (IH _ Hw1) as (Hw2&Hf2&Hl2).
    split_and!; [done|by eapply mount_frame_trans|].
    unfold mount_bindings in *. rewrite Hl2, Hl1, <- app_assoc. f_equal.
    assert (omap (bound_cell (mount p ix (binding_id b) w).2) bs = omap (bound_cell w) bs) as ->.
    { clear -Hf1. induction bs as [|b' bs IH]; [done|]. cbn [omap list_omap]. by rewrite (mf_bound _ _ _ Hf1), IH. }
    by destruct (bound_cell w b).
Qed.

(** A point that is not there has no marks and no layers. *)
Lemma new_point_spec w :
  repo_wf w →
  let '(p, w') := new_point w in
  points w !! p = None ∧ repo_wf w' ∧ mount_frame p w w' ∧ point_layers w' p = [].
Proof.
  intros Hw. unfold new_point. set (p := fresh (dom (points w))).
  assert (points w !! p = None) as Hp by (apply not_elem_of_dom, is_fresh).
  split_and!; [done| | |].
  - split; simpl.
    + intros id i Hi. eapply (instance_wf_extends w); [by split|by apply (wf_instances _ Hw)].
    + apply (wf_cells_inj _ Hw).
    + intros q mp [[<- <-]|[_ Hq]]%lookup_insert_Some;
        [|eapply (point_wf_extends w); [by split|by apply (wf_points _ Hw q)]].
      split; simpl; [constructor|]. intros s. set_solver.
    + intros q q' mp mp' s [[<- <-]|[? Hq]]%lookup_insert_Some [[<- <-]|[? Hq']]%lookup_insert_Some; simpl;
        try set_solver. by apply (wf_markers_disjoint _ Hw).
  - split; simpl; [done|done|]. intros q Hq. by rewrite lookup_insert_ne.
  - unfold point_layers. simpl. by rewrite lookup_insert_eq.
Qed.

Lemma drop_points_wf ps w : repo_wf w → repo_wf (drop_points ps w).
Proof. revert w. induction ps as [|p ps IH]; intros w Hw; simpl; auto using drop_wf. Qed.

Lemma drop_points_frame ps w :
  instances (drop_points ps w) = instances w ∧ cells (drop_points ps w) = cells w ∧
  plugins (drop_points ps w) = plugins w.
Proof. revert w. induction ps as [|p ps IH]; intros w; simpl; [done|]. by destruct (IH (drop_point p w)) as (->&->&->). Qed.

Lemma drop_points_lookup ps w q :
  points (drop_points ps w) !! q = if decide (q ∈ ps) then None else points w !! q.
Proof.
  revert w. induction ps as [|p ps IH]; intros w.
  - case_decide; [set_solver|done].
  - change (drop_points (p :: ps) w) with (drop_points ps (drop_point p w)). rewrite IH. repeat case_decide; try set_solver; simpl.
    + assert (q = p) as -> by set_solver. apply lookup_delete_eq.
    + by rewrite lookup_delete_ne by set_solver.
Qed.
End mount_lemmas.

(** ** Lemmas: what is built *)

Section build_lemmas.
Context `{HttpLib} `{!Runtime} `{!Client} `{!FileSystem} `{!StdOrder} `{!MatchParsers}.
Notation Build A := (OpE BState ConvertError A).

(** [m] succeeds from every state, with a result that satisfies [Q]. *)
Definition yields {A} (m : Build A) (Q : A → Prop) : Prop := ∀ s, ∃ a s', m s = (Ok a, s') ∧ Q a.

Lemma yields_bind {A B} (m : Build A) (k : A → Build B) Q R :
  yields m Q → (∀ a, Q a → yields (k a) R) → yields (op_bind m k) R.
Proof.
  intros Hm Hk s. destruct (Hm s) as (a&s'&Ha&Hq). unfold op_bind. rewrite Ha. by apply Hk.
Qed.
Lemma yields_ret {A} (a : A) (Q : A → Prop) : Q a → yields (op_ret a) Q.
Proof. intros Ha s. by exists a, s. Qed.
Lemma yields_lift {A} (r : result A ConvertError) a (Q : A → Prop) : r = Ok a → Q a → yields (op_lift r) Q.
Proof. intros -> Ha s. by exists a, s. Qed.
Lemma yields_map {A B} (f : A → Build B) l (Q : A → B → Prop) :
  (∀ x, x ∈ l → yields (f x) (Q x)) → yields (op_map f l) (Forall2 Q l).
Proof.
  induction l as [|x l IH]; intros Hf; simpl; [by apply yields_ret|].
  eapply yields_bind; [apply Hf; set_solver|]. intros y Hy.
  eapply yields_bind; [apply IH; set_solver|]. intros ys Hys. apply yields_ret. by constructor.
Qed.
Lemma yields_mount {A} plugins (add : list BoxLayer → A → A) (layer : Dyn A) ix (Q : Dyn A * nat → Prop) :
  (∀ cells p, Q (λ w, add (layers_at cells w) (layer w), p)) →
  yields (global_batch_mount_plugin plugins add layer ix) Q.
Proof.
  intros HQ [w made]. unfold global_batch_mount_plugin. destruct (new_point w) as [p w'].
  eexists _, _. split; [done|]. apply HQ.
Qed.

(** The rule of a configured rule, less its layers: its matchers, its policy, and one
    backend of weight 1 for each configured backend. *)
Record rule_shape (ms : option (list HttpRouteMatch)) (r : SgHttpRouteRule PluginBinding) (k : HttpRouteRule) : Prop := {
  rsh_match : r_match k = ms;
  rsh_policy : r_balance_policy k = default BpIpHash (kernel_policy <$> sr_balance_policy r);
  rsh_weights : be_weight <$> r_backends k = replicate (length (sr_backends r)) 1%Z;
}.

Definition rule_matchers (r : SgHttpRouteRule PluginBinding) : result (option (list HttpRouteMatch)) ConvertError :=
  transpose_map (collect_results convert_config_to_kernel) (sr_matches r).

Lemma backend_layer_weight b : be_weight (backend_layer b) = 1%Z.
Proof.
  unfold backend_layer. destruct (b_port b), (b_timeout_ms b), (decide _), (b_host b), (b_protocol b),
    (b_downgrade_http2 b); reflexivity.
Qed.

Lemma build_backend_yields gateway route j ib :
  yields (build_backend gateway route j ib) (λ d, ∀ w, be_weight (d w) = 1%Z).
Proof.
  destruct ib as [k b]. apply (yields_bind _ _ (λ a, ∀ w, be_weight (a.1 w) = 1%Z));
    [|intros a Ha; by apply yields_ret].
  apply yields_mount. intros cells p w. apply backend_layer_weight.
Qed.

Lemma rule_layer_shape mcp ms r bs :
  (be_weight <$> bs) = replicate (length (sr_backends r)) 1%Z → rule_shape ms r (rule_layer mcp ms r bs).
Proof.
  intros Hbs. unfold rule_layer.
  split; destruct mcp, ms, (sr_timeout_ms r), (decide _), (sr_balance_policy r); done.
Qed.

Lemma build_rule_yields gateway route mcp j r ms :
  rule_matchers r = Ok ms →
  yields (build_rule gateway route mcp (j, r)) (λ d, ∀ w, rule_shape ms r (d w)).
Proof.
  intros Hms. eapply yields_bind; [by apply (yields_lift _ ms (eq ms))|]. intros ? <-.
  eapply yields_bind; [apply yields_map; intros ib _; apply build_backend_yields|]. intros bs Hbs.
  apply (yields_bind _ _ (λ a, ∀ w, rule_shape ms r (a.1 w))); [|intros a Ha; by apply yields_ret].
  apply yields_mount. intros cells p w. simpl.
  destruct (rule_layer_shape mcp ms r ((λ b : Dyn HttpBackend, b w) <$> bs)) as [Hm Hp Hw]; [|by split].
  rewrite <- list_fmap_compose. apply list_eq_same_length with (n := length (sr_backends r)).
  - by rewrite length_replicate.
  - apply Forall2_length in Hbs. rewrite length_fmap, <- Hbs. by rewrite length_imap.
  - intros i x y Hi Hx Hy. apply lookup_replicate_1 in Hy as [-> _].
    apply list_lookup_fmap_Some in Hx as (d&->&Hd).
    destruct (Forall2_lookup_r _ _ _ _ _ Hbs Hd) as (?&_&Hdw). apply Hdw.
Qed.

(** [m] fails from every state. *)
Definition fails {A} (m : Build A) : Prop := ∀ s, ∃ e s', m s = (Err e, s').

Lemma fails_bind {A B} (m : Build A) (k : A → Build B) : fails m → fails (op_bind m k).
Proof. intros Hm s. destruct (Hm s) as (e&s'&He). unfold op_bind. rewrite He. by exists e, s'. Qed.
Lemma fails_bind_r {A B} (m : Build A) (k : A → Build B) Q :
  yields m Q → (∀ a, Q a → fails (k a)) → fails (op_bind m k).
Proof. intros Hm Hk s. destruct (Hm s) as (a&s'&Ha&Hq). unfold op_bind. rewrite Ha. by apply Hk. Qed.
(** A list one of whose elements fails, where each of them yields or fails. *)
Lemma fails_map {A B} (f : A → Build B) l :
  (∀ x, x ∈ l → yields (f x) (λ _, True) ∨ fails (f x)) → Exists (λ x, fails (f x)) l → fails (op_map f l).
Proof.
  induction l as [|x l IH]; intros Hf Hex; [by apply Exists_nil in Hex|]. simpl.
  destruct (Hf x) as [Hx|Hx]; [set_solver| |by apply fails_bind].
  apply Exists_cons in Hex as [Hx'|Hex]; [by apply fails_bind|].
  eapply fails_bind_r; [exact Hx|]. intros y _. apply fails_bind, IH; [set_solver|done].
Qed.
Lemma yields_weaken {A} (m : Build A) (Q R : A → Prop) : yields m Q → (∀ a, Q a → R a) → yields m R.
Proof. intros Hm HQ s. destruct (Hm s) as (a&s'&?&?). exists a, s'. auto. Qed.

Definition rule_convertible (r : SgHttpRouteRule PluginBinding) : Prop := ∃ ms, rule_matchers r = Ok ms.
(** Every matcher of the route converts. *)
Definition convertible (r : SgRoute PluginBinding) : Prop := Forall rule_convertible (hr_rules (compile_route r).1).

Lemma build_rule_fails gateway route mcp j r : ¬ rule_convertible r → fails (build_rule gateway route mcp (j, r)).
Proof.
  intros Hr. apply fails_bind. intros s. unfold op_lift. fold (rule_matchers r).
  destruct (rule_matchers r) as [ms|e] eqn:E; [by destruct Hr; exists ms|]. by exists e, s.
Qed.

#[global] Instance rule_convertible_dec r : Decision (rule_convertible r).
Proof.
  unfold rule_convertible. destruct (rule_matchers r) as [ms|e]; [left; by exists ms|right; by intros [? ?]].
Defined.
#[global] Instance convertible_dec r : Decision (convertible r).
Proof. unfold convertible. apply _. Defined.

(** The rules of a configured route, less their layers. *)
Definition rules_shape (r : SgHttpRoute PluginBinding) (k : HttpRoute) : Prop :=
  Forall2 (λ rule krule, ∃ ms, rule_matchers rule = Ok ms ∧ rule_shape ms rule krule) (hr_rules r) (rt_rules k).
(** The route of a configured route, less its layers. It has no name. *)
Record route_shape (r : SgHttpRoute PluginBinding) (k : HttpRoute) : Prop := {
  tsh_name : rt_name k = "";
  tsh_priority : rt_priority k = hr_priority r;
  tsh_rules : rules_shape r k;
}.

Lemma Forall2_imap_pair {A B} (Q : A → B → Prop) l l' :
  Forall2 (λ ix y, Q ix.2 y) (imap pair l) l' → Forall2 Q l l'.
Proof.
  intros HF. rewrite Forall2_lookup in HF. apply Forall2_lookup. intros i. specialize (HF i). rewrite list_lookup_imap in HF.
  destruct (l !! i); simpl in HF; inversion HF; by constructor.
Qed.
Lemma elem_of_imap_pair {A} (l : list A) ix : ix ∈ imap pair l → ix.2 ∈ l.
Proof.
  intros (i&Hi)%list_elem_of_lookup. rewrite list_lookup_imap in Hi.
  destruct (l !! i) as [x|] eqn:E; simplify_eq/=. by eapply list_elem_of_lookup_2.
Qed.

Lemma build_route_yields gateway name route :
  convertible route →
  yields (build_route gateway (name, route))
    (λ x, x.1 = name ∧ ∀ w, route_shape (compile_route route).1 (x.2.1 w)).
Proof.
  unfold convertible. intros Hconv. unfold build_route. destruct (compile_route route) as [r mcp]. simpl in *.
  eapply yields_bind.
  { apply (yields_map _ _ (λ ir d, ∀ w, ∃ ms, rule_matchers ir.2 = Ok ms ∧ rule_shape ms ir.2 (d w))).
    intros [j rule] Hin. apply elem_of_imap_pair in Hin. rewrite Forall_forall in Hconv.
    destruct (Hconv _ Hin) as [ms Hms].
    eapply yields_weaken; [by apply build_rule_yields|]. simpl. intros d Hd w. by exists ms. }
  intros ds Hds. apply (yields_bind _ _ (λ a, ∀ w, route_shape r (a.1 w))); [|intros a Ha; by apply yields_ret].
  apply yields_mount. intros cells p w. split; simpl; [done|done|].
  apply Forall2_fmap_r, (Forall2_imap_pair (λ rule d, ∃ ms, rule_matchers rule = Ok ms ∧ rule_shape ms rule (d w))).
  eapply Forall2_impl; [exact Hds|]. simpl. intros ? ? Hd. apply Hd.
Qed.

Lemma build_route_fails gateway name route : ¬ convertible route → fails (build_route gateway (name, route)).
Proof.
  unfold convertible. intros Hconv. unfold build_route. destruct (compile_route route) as [r mcp]. simpl in *.
  apply fails_bind, fails_map.
  - intros [j rule] _. destruct (decide (rule_convertible rule)) as [[ms Hms]|Hn].
    + left. eapply yields_weaken; [by apply build_rule_yields|]. done.
    + right. by apply build_rule_fails.
  - apply not_Forall_Exists in Hconv; [|apply _]. apply Exists_exists in Hconv as (rule&Hin&Hrule).
    apply list_elem_of_lookup in Hin as [j Hj]. apply Exists_exists. exists (j, rule). split.
    + apply list_elem_of_lookup. exists j. by rewrite list_lookup_imap, Hj.
    + by apply build_rule_fails.
Qed.

(** The routes of a built map have the shapes of the configured ones, under their names. *)
Definition routes_shape (routes : list (string * SgRoute PluginBinding)) (built : gmap string (Dyn HttpRoute * nat)) : Prop :=
  ∃ l, built = collect l ∧
    Forall2 (λ nr x, x.1 = nr.1 ∧ ∀ w, route_shape (compile_route nr.2).1 (x.2.1 w)) routes l.

Lemma collect_yields gateway routes :
  Forall (λ nr, convertible nr.2) routes → yields (collect_http_route gateway routes) (routes_shape routes).
Proof.
  intros Hconv. eapply yields_bind.
  - apply (yields_map _ _ (λ nr x, x.1 = nr.1 ∧ ∀ w, route_shape (compile_route nr.2).1 (x.2.1 w))).
    intros [name route] Hin. rewrite Forall_forall in Hconv. apply build_route_yields. by apply (Hconv (name, route)).
  - intros l Hl. apply yields_ret. by exists l.
Qed.

Lemma collect_fails gateway routes :
  ¬ Forall (λ nr, convertible nr.2) routes → fails (collect_http_route gateway routes).
Proof.
  intros Hconv. apply fails_bind, fails_map.
  - intros [name route] _. destruct (decide (convertible route)).
    + left. eapply yields_weaken; [by apply build_route_yields|]. done.
    + right. by apply build_route_fails.
  - apply not_Forall_Exists in Hconv; [|intros ?; apply _]. eapply Exists_impl; [exact Hconv|].
    intros [name route] Hn. by apply build_route_fails.
Qed.
End build_lemmas.

(** ** Lemmas: routers *)

Section router_lemmas.
Context `{HttpLib} `{!RuntimeLaws RT} `{!Client} `{!FileSystem} `{!StdOrderLaws SO} `{!MatchParsers}.

(** The random policy needs a backend, and its weights, all 1, must not overflow. *)
Definition rule_builds (r : SgHttpRouteRule PluginBinding) : Prop :=
  sr_balance_policy r = Some SgRandom → (0 < Z.of_nat (length (sr_backends r)) < 2 ^ 16)%Z.
Definition route_builds (r : SgRoute PluginBinding) : Prop := Forall rule_builds (hr_rules (compile_route r).1).

#[global] Instance rule_builds_dec r : Decision (rule_builds r).
Proof.
  unfold rule_builds. destruct (sr_balance_policy r) as [[]|]; try (left; by intros).
  destruct (decide (0 < Z.of_nat (length (sr_backends r)) < 2 ^ 16)%Z); [left|right]; naive_solver.
Defined.

Lemma sum_replicate_one n : foldr Z.add 0%Z (replicate n 1%Z) = Z.of_nat n.
Proof. induction n as [|n IH]; [done|]. cbn [replicate foldr]. lia. Qed.

Lemma random_new_ones n : is_Some (random_new (replicate n 1%Z)) ↔ (0 < Z.of_nat n < 2 ^ 16)%Z.
Proof.
  unfold random_new. rewrite fmap_is_Some, weighted_index_ok, sum_replicate_one.
  split; [by intros (_&_&?)|]. intros Hn. split_and!; [destruct n; [lia|done]| |lia..].
  apply Forall_replicate. lia.
Qed.

Lemma rule_shape_builds ms r k : rule_shape ms r k → is_Some (rule_as_service k) ↔ rule_builds r.
Proof.
  intros [_ Hp Hw]. rewrite <- not_eq_None_Some, rule_as_service_None, Hw, Hp, eq_None_not_Some, random_new_ones.
  unfold rule_builds. destruct (sr_balance_policy r) as [[]|]; simpl; try (split; intros; naive_solver).
  destruct (decide (0 < Z.of_nat (length (sr_backends r)) < 2 ^ 16)%Z); naive_solver.
Qed.

Lemma rules_shape_builds r k :
  rules_shape (compile_route r).1 k → Forall (λ rule, is_Some (rule_as_service rule)) (rt_rules k) ↔ route_builds r.
Proof.
  unfold rules_shape. intros Hr. unfold route_builds. induction Hr as [|rule krule rules krules [ms [_ Hs]] Hr IH].
  - split; constructor.
  - by rewrite !Forall_cons, IH, (rule_shape_builds ms rule).
Qed.

Lemma mapM_is_Some_iff {A B} (f : A → option B) l : is_Some (mapM f l) ↔ Forall (λ x, is_Some (f x)) l.
Proof.
  split; [apply mapM_is_Some_1|apply mapM_is_Some_2].
Qed.

Lemma create_http_router_is_Some rs fb :
  is_Some (create_http_router rs fb) ↔ Forall (λ k, Forall (λ rule, is_Some (rule_as_service rule)) (rt_rules k)) rs.
Proof.
  unfold create_http_router. assert (∀ k, is_Some (route_services k) ↔ Forall (λ rule, is_Some (rule_as_service rule)) (rt_rules k)) as Hk.
  { intros k. unfold route_services. rewrite mapM_is_Some_iff. apply Forall_proper; [|done].
    intros rule. by rewrite fmap_is_Some. }
  transitivity (is_Some (mapM route_services rs)).
  - destruct (mapM route_services rs); simpl; [by split|]. split; by intros [? ?].
  - rewrite mapM_is_Some_iff. by apply Forall_proper.
Qed.

(** The routes of a map, in the order in which it is visited. *)
Lemma map_values_collect {V A} (f : V → A) (l : list (string * V)) :
  NoDup l.*1 → map_values (f <$> (collect l : gmap string V)) ≡ₚ (λ x, f x.2) <$> l.
Proof.
  intros Hl. rewrite map_values_perm, map_to_list_fmap, (map_to_list_collect l Hl).
  rewrite <- list_fmap_compose. done.
Qed.

Lemma Forall2_fst {A B V} (Q : (A * B) → (A * V) → Prop) l l' :
  (∀ x y, Q x y → y.1 = x.1) → Forall2 Q l l' → l'.*1 = l.*1.
Proof. intros HQ. induction 1 as [|x y l l' Hxy Hl IH]; [done|]. rewrite !fmap_cons, IH. f_equal. by apply HQ. Qed.

(** A map of routes and the list it is collected from, at one state of the repository. *)
Definition renamed (x : string * HttpRoute) : string * HttpRoute := (x.1, rename_route x.1 x.2).

Lemma gb_http_routers_spec l g :
  gb_routers (gb_http_routers l g) = foldl (λ m kv, <[kv.1 := kv.2]> m) (gb_routers g) (renamed <$> l) ∧
  gb_plugins (gb_http_routers l g) = gb_plugins g ∧ gb_fallback (gb_http_routers l g) = gb_fallback g ∧
  gb_name (gb_http_routers l g) = gb_name g ∧ gb_x_request_id (gb_http_routers l g) = gb_x_request_id g.
Proof.
  unfold gb_http_routers. revert g. induction l as [|[n r] l IH]; intros g; [by split_and!|].
  rewrite fmap_cons. cbn [foldl fst snd]. destruct (IH (gb_http_router (rename_route n r) g)) as (->&->&->&->&->). done.
Qed.

Lemma renamed_routes_values w l :
  NoDup l.*1 →
  map_values (collect (renamed <$> map_to_list (routes_at w (collect l)))) ≡ₚ (λ x, rename_route x.1 (x.2.1 w)) <$> l.
Proof.
  intros Hl. rewrite map_values_perm. unfold routes_at. rewrite map_to_list_fmap.
  set (l' := renamed <$> _).
  assert (l' ≡ₚ (λ x, (x.1, rename_route x.1 (x.2.1 w))) <$> l) as Hl'.
  { subst l'. rewrite (map_to_list_collect l Hl), <- list_fmap_compose. done. }
  rewrite map_to_list_collect.
  - rewrite Hl', <- list_fmap_compose. done.
  - rewrite Hl', <- list_fmap_compose. done.
Qed.

(** The table of a router: for each configured route, in some order, a name and the
    converted matchers of its rules. *)
Definition table_of (name : string * SgRoute PluginBinding → string) (routes : list (string * SgRoute PluginBinding))
    (router : HttpRouterService) : Prop :=
  ∃ l, l ≡ₚ routes ∧
    Forall2 (λ nr k, router_name k = name nr ∧
      Forall2 (λ rule ms, rule_matchers rule = Ok ms) (hr_rules (compile_route nr.2).1) (router_rules k))
      l (routers (rs_router router)).

Lemma create_http_router_routers rs fb router :
  create_http_router rs fb = Some router → routers (rs_router router) = route_to_router <$> rs.
Proof. unfold create_http_router. intros (s&_&Hs)%bind_Some. by simplify_eq. Qed.

Lemma table_of_values name f routes (l : list (string * (Dyn HttpRoute * nat))) w values fb router :
  Forall2 (λ nr x, x.1 = nr.1 ∧ ∀ w, route_shape (compile_route nr.2).1 (x.2.1 w)) routes l →
  values ≡ₚ f <$> l →
  (∀ nr x, x.1 = nr.1 → route_shape (compile_route nr.2).1 (x.2.1 w) →
    rt_name (f x) = name nr ∧ rt_rules (f x) = rt_rules (x.2.1 w)) →
  create_http_router values fb = Some router → table_of name routes router.
Proof.
  intros HF Hv Hf Hr. apply create_http_router_routers in Hr.
  assert (Forall2 (λ k nr, rt_name k = name nr ∧
    Forall2 (λ rule ms, rule_matchers rule = Ok ms) (hr_rules (compile_route nr.2).1) (r_match <$> rt_rules k))
    (f <$> l) routes) as HF'.
  { apply Forall2_fmap_l. apply Forall2_flip. eapply Forall2_impl; [exact HF|]. intros nr x [Hx Hs]. simpl.
    destruct (Hf nr x Hx (Hs w)) as [Hn Hrules]. split; [done|]. rewrite Hrules. apply Forall2_fmap_r.
    eapply Forall2_impl; [exact (tsh_rules _ _ (Hs w))|]. intros rule k (ms&Hms&Hk). simpl.
    by rewrite (rsh_match _ _ _ Hk). }
  destruct (Permutation_Forall2 (Permutation_sym Hv) HF') as (routes'&Hp&HF2).
  exists routes'. split; [by symmetry|]. rewrite Hr. apply Forall2_fmap_r, Forall2_flip.
  eapply Forall2_impl; [exact HF2|]. done.
Qed.

(** What a successful construction builds. *)
Lemma collect_Ok gateway routes s built s' :
  collect_http_route gateway routes s = (Ok built, s') →
  Forall (λ nr, convertible nr.2) routes ∧ routes_shape routes built.
Proof.
  intros Hc. destruct (decide (Forall (λ nr, convertible nr.2) routes)) as [Hconv|Hconv].
  - split; [done|]. destruct (collect_yields gateway routes Hconv s) as (b&s2&Hb&Hs). congruence.
  - destruct (collect_fails gateway routes Hconv s) as (e&s2&He). congruence.
Qed.

(** The routes are built exactly if their rules are. *)
Lemma values_build {V} routes (l : list V) (f : V → HttpRoute) values fb :
  Forall2 (λ nr x, rules_shape (compile_route nr.2).1 (f x)) routes l →
  values ≡ₚ f <$> l →
  is_Some (create_http_router values fb) ↔ Forall (λ nr : string * SgRoute PluginBinding, route_builds nr.2) routes.
Proof.
  intros HF Hv. rewrite create_http_router_is_Some, Hv, Forall_fmap.
  clear Hv values. induction HF as [|nr x routes l Hx HF IH]; [by split; constructor|].
  rewrite !Forall_cons, IH. by rewrite <- (rules_shape_builds nr.2 (f x)).
Qed.

Lemma shapes_keys routes (l : list (string * (Dyn HttpRoute * nat))) :
  Forall2 (λ nr x, x.1 = nr.1 ∧ ∀ w, route_shape (compile_route nr.2).1 (x.2.1 w)) routes l → l.*1 = routes.*1.
Proof. apply Forall2_fst. by intros x y [? _]. Qed.

(** *** The router of a reload *)

Lemma create_router_ok gateway routes w :
  NoDup routes.*1 → Forall (λ nr, convertible nr.2) routes → Forall (λ nr, route_builds nr.2) routes →
  ∃ inst w', create_router_service gateway routes w = Some (Ok inst, w').
Proof.
  intros Hnd Hconv Hb. destruct (collect_yields gateway routes Hconv (w, [])) as (built&s&Hc&l&->&HF).
  unfold create_router_service. rewrite Hc.
  assert (NoDup l.*1) as Hl by by rewrite (shapes_keys _ _ HF).
  destruct (proj2 (values_build routes l (λ x, x.2.1 s.1) (map_values (routes_at s.1 (collect l)))
    default_gateway_route_fallback (Forall2_impl _ _ _ _ HF (λ _ _ H, tsh_rules _ _ (proj2 H s.1)))
    (map_values_collect (λ r, r.1 s.1) l Hl)) Hb) as [router ->].
  eauto.
Qed.

Lemma create_router_panics gateway routes w :
  NoDup routes.*1 → Forall (λ nr, convertible nr.2) routes → ¬ Forall (λ nr, route_builds nr.2) routes →
  create_router_service gateway routes w = None.
Proof.
  intros Hnd Hconv Hb. destruct (collect_yields gateway routes Hconv (w, [])) as (built&s&Hc&l&->&HF).
  unfold create_router_service. rewrite Hc.
  assert (NoDup l.*1) as Hl by by rewrite (shapes_keys _ _ HF).
  destruct (create_http_router (map_values (routes_at s.1 (collect l))) default_gateway_route_fallback) eqn:E; [|done].
  destruct Hb. eapply (values_build routes l (λ x, x.2.1 s.1)).
  - eapply Forall2_impl; [exact HF|]. intros ?? Hs. apply tsh_rules, Hs.
  - apply (map_values_collect (λ r, r.1 s.1) l Hl).
  - eexists. exact E.
Qed.

Lemma create_router_fails gateway routes w :
  ¬ Forall (λ nr, convertible nr.2) routes → ∃ e w', create_router_service gateway routes w = Some (Err e, w').
Proof.
  intros Hconv. destruct (collect_fails gateway routes Hconv (w, [])) as (e&s&Hc).
  unfold create_router_service. rewrite Hc. eauto.
Qed.

Lemma create_router_table gateway routes w inst w' :
  NoDup routes.*1 → create_router_service gateway routes w = Some (Ok inst, w') →
  ∀ w1, ∃ router, ri_router inst w1 = Some router ∧ table_of (λ _, "") routes router.
Proof.
  intros Hnd Hcreate w1. unfold create_router_service in Hcreate.
  destruct (collect_http_route gateway routes (w, [])) as [[built|e] s] eqn:Hc; [|by simplify_eq].
  apply collect_Ok in Hc as (Hconv&l&->&HF).
  apply bind_Some in Hcreate as (r0&Hr0&Heq). injection Heq as <- <-. cbn [ri_router].
  assert (NoDup l.*1) as Hl by by rewrite (shapes_keys _ _ HF).
  assert (∀ w, map_values (routes_at w (collect l)) ≡ₚ (λ x, x.2.1 w) <$> l) as Hv
    by (intros; apply (map_values_collect (λ r, r.1 _) l Hl)).
  assert (Forall (λ nr, route_builds nr.2) routes) as Hb.
  { eapply (values_build routes l (λ x, x.2.1 s.1)); [|apply Hv|by eexists].
    eapply Forall2_impl; [exact HF|]. intros ?? Hs. apply tsh_rules, Hs. }
  destruct (proj2 (values_build routes l (λ x, x.2.1 w1) (map_values (routes_at w1 (collect l)))
    default_gateway_route_fallback (Forall2_impl _ _ _ _ HF (λ _ _ H, tsh_rules _ _ (proj2 H w1))) (Hv w1)) Hb) as [router Hr].
  exists router. split; [done|].
  eapply (table_of_values (λ _, "") (λ x, x.2.1 w1)); [exact HF|apply Hv| |exact Hr].
  intros nr x _ Hs. by rewrite (tsh_name _ _ Hs).
Qed.

(** *** The service of a gateway *)

Lemma gateway_layer_spec x gateway built w :
  let g := gateway_layer x gateway built w in
  gateway_name g = g_name gateway ∧ http_fallback g = default_gateway_route_fallback ∧
  http_routes g = collect (renamed <$> map_to_list (routes_at w built)).
Proof.
  unfold gateway_layer. destruct (p_enable_x_request_id _) as [b|]; unfold gb_build; cbn [gateway_name http_fallback http_routes].
  - destruct (gb_http_routers_spec (map_to_list (routes_at w built)) (gb_set_x_request_id b (gateway_builder_new (g_name gateway))))
      as (->&_&->&->&_). done.
  - destruct (gb_http_routers_spec (map_to_list (routes_at w built)) (gateway_builder_new (g_name gateway)))
      as (->&_&->&->&_). done.
Qed.

Lemma mount_layer_total {A} plugins (add : list BoxLayer → A → A) (layer : Dyn A) ix s :
  ∃ cells p s', global_batch_mount_plugin plugins add layer ix s = (Ok (λ w, add (layers_at cells w) (layer w), p), s').
Proof. destruct s as [w made]. unfold global_batch_mount_plugin. destruct (new_point w). eauto. Qed.

(** The router of a gateway in every state of the repository. *)
Lemma gateway_router_build x gateway (l : list (string * (Dyn HttpRoute * nat))) routes cells w :
  NoDup l.*1 →
  Forall2 (λ nr x, x.1 = nr.1 ∧ ∀ w, route_shape (compile_route nr.2).1 (x.2.1 w)) routes l →
  let layer := gateway_add_plugins (layers_at cells w) (gateway_layer x gateway (collect l) w) in
  let router := create_http_router (map_values (http_routes layer)) (http_fallback layer) in
  (is_Some router ↔ Forall (λ nr, route_builds nr.2) routes) ∧
  ∀ r, router = Some r → table_of fst routes r.
Proof.
  intros Hl HF layer router. destruct (gateway_layer_spec x gateway (collect l) w) as (_&Hfb&Hr).
  assert (map_values (http_routes layer) ≡ₚ (λ x, rename_route x.1 (x.2.1 w)) <$> l) as Hv.
  { subst layer. cbn [gateway_add_plugins http_routes]. rewrite Hr. by apply renamed_routes_values. }
  split.
  - eapply values_build; [|exact Hv]. eapply Forall2_impl; [exact HF|]. intros nr y [_ Hs].
    apply (tsh_rules _ _ (Hs w)).
  - intros r Hrouter. eapply (table_of_values fst (λ x, rename_route x.1 (x.2.1 w)) routes l w); [exact HF|exact Hv| |exact Hrouter].
    intros nr y Hy _. simpl. by rewrite Hy.
Qed.

Lemma create_service_fails x item rl w :
  ¬ Forall (λ nr, convertible nr.2) (ci_routes item) → ∃ e w', create_service x item rl w = Some (Err e, w').
Proof.
  intros Hconv. destruct (collect_fails (g_name (ci_gateway item)) _ Hconv (w, [])) as (e&s&Hc).
  unfold create_service. rewrite Hc. eauto.
Qed.

Lemma create_service_total x item rl w :
  NoDup (ci_routes item).*1 → Forall (λ nr, convertible nr.2) (ci_routes item) →
  if decide (Forall (λ nr, route_builds nr.2) (ci_routes item))
  then ∃ svc w', create_service x item rl w = Some (Ok svc, w')
  else create_service x item rl w = None.
Proof.
  intros Hnd Hconv. destruct (collect_yields (g_name (ci_gateway item)) _ Hconv (w, [])) as (built&s&Hc&l&->&HF).
  unfold create_service. rewrite Hc.
  assert (NoDup l.*1) as Hl by by rewrite (shapes_keys _ _ HF).
  destruct (mount_layer_total (g_plugins (ci_gateway item)) gateway_add_plugins
    (gateway_layer x (ci_gateway item) (collect l)) (AtGateway (g_name (ci_gateway item))) s) as (cells&p&s'&->).
  destruct (gateway_router_build x (ci_gateway item) l (ci_routes item) cells s'.1 Hl HF) as [Hb _].
  case_decide as Hd.
  - apply Hb in Hd as [r Hr]. cbn zeta. rewrite Hr. simpl. eauto.
  - cbn zeta. destruct (create_http_router _ _) eqn:E; [|done]. destruct Hd. apply Hb. by eexists.
Qed.

Lemma create_service_spec x item rl w svc w' :
  NoDup (ci_routes item).*1 → create_service x item rl w = Some (Ok svc, w') →
  (∀ w1, gateway_name (gs_gateway svc w1) = g_name (ci_gateway item)) ∧
  ∃ inst, reload_layer inst rl = (gs_lock svc, gs_reloader svc) ∧
    ∀ w1, ∃ router, ri_router inst w1 = Some router ∧ table_of fst (ci_routes item) router.
Proof.
  intros Hnd Hcreate. unfold create_service in Hcreate.
  destruct (collect_http_route (g_name (ci_gateway item)) (ci_routes item) (w, [])) as [[built|e] s] eqn:Hc; [|by simplify_eq].
  apply collect_Ok in Hc as (Hconv&l&->&HF).
  assert (NoDup l.*1) as Hl by by rewrite (shapes_keys _ _ HF).
  destruct (mount_layer_total (g_plugins (ci_gateway item)) gateway_add_plugins
    (gateway_layer x (ci_gateway item) (collect l)) (AtGateway (g_name (ci_gateway item))) s) as (cells&p&s'&Hm).
  rewrite Hm in Hcreate. apply bind_Some in Hcreate as (r0&Hr0&Heq).
  match type of Heq with context [reload_layer ?i rl] => destruct (reload_layer i rl) as [lock rl'] eqn:Hrl end.
  injection Heq as <- <-. cbn [gs_gateway gs_lock gs_reloader]. split.
  - intros w1. by destruct (gateway_layer_spec x (ci_gateway item) (collect l) w1) as (Hn&_).
  - eexists. split; [exact Hrl|]. intros w1. cbn [ri_router].
    destruct (gateway_router_build x (ci_gateway item) l (ci_routes item) cells s'.1 Hl HF) as [Hb _].
    destruct (gateway_router_build x (ci_gateway item) l (ci_routes item) cells w1 Hl HF) as [Hb1 Ht1].
    destruct (proj2 Hb1 (proj1 Hb (ex_intro _ _ Hr0))) as [r Hr]. exists r. split; [exact Hr|]. by apply Ht1.
Qed.
End router_lemmas.

(** ** Lemmas: the repository during a construction *)

Section frame_lemmas.
Context `{HttpLib} `{!Runtime} `{!Client} `{!FileSystem} `{!StdOrder} `{!MatchParsers}.
Notation Build A := (OpE BState ConvertError A).

(** A construction keeps the repository's invariant, its functions, and every mount point
    but the ones it makes. *)
Record build_frame (s s' : BState) : Prop := {
  bf_wf : repo_wf s'.1;
  bf_made : s.2 ⊆ s'.2;
  bf_points p : p ∉ s'.2 → points s'.1 !! p = points s.1 !! p;
  bf_cells : cells s'.1 = cells s.1;
  bf_bound b : bound_cell s'.1 b = bound_cell s.1 b;
}.

Lemma build_frame_refl s : repo_wf s.1 → build_frame s s.
Proof. by split. Qed.
Lemma build_frame_trans s1 s2 s3 : build_frame s1 s2 → build_frame s2 s3 → build_frame s1 s3.
Proof.
  intros F1 F2. split.
  - apply F2.
  - etransitivity; [apply F1|apply F2].
  - intros p Hp. rewrite (bf_points _ _ F2) by done. apply (bf_points _ _ F1).
    intros Hin. by apply Hp, (bf_made _ _ F2).
  - by rewrite (bf_cells _ _ F2), (bf_cells _ _ F1).
  - intros b. by rewrite (bf_bound _ _ F2), (bf_bound _ _ F1).
Qed.

Definition frames {A} (m : Build A) : Prop := ∀ s r s', repo_wf s.1 → m s = (r, s') → build_frame s s'.

Lemma frames_bind {A B} (m : Build A) (k : A → Build B) : frames m → (∀ a, frames (k a)) → frames (op_bind m k).
Proof.
  intros Hm Hk s r s' Hw. unfold op_bind. destruct (m s) as [[a|e] s1] eqn:E; intros Heq.
  - pose proof (Hm _ _ _ Hw E) as F1. pose proof (Hk _ _ _ _ (bf_wf _ _ F1) Heq) as F2.
    by eapply build_frame_trans.
  - simplify_eq. by eapply Hm.
Qed.
Lemma frames_ret {A} (a : A) : frames (op_ret a).
Proof. intros s r s' Hw [= <- <-]. by apply build_frame_refl. Qed.
Lemma frames_lift {A} (x : result A ConvertError) : frames (op_lift x).
Proof. intros s r s' Hw [= <- <-]. by apply build_frame_refl. Qed.
Lemma frames_map {A B} (f : A → Build B) l : (∀ x, frames (f x)) → frames (op_map f l).
Proof.
  intros Hf. induction l as [|x l IH]; simpl; [apply frames_ret|].
  apply frames_bind; [done|]. intros y. apply frames_bind; [done|]. intros ys. apply frames_ret.
Qed.

Lemma frames_mount {A} plugins (add : list BoxLayer → A → A) (layer : Dyn A) ix :
  frames (global_batch_mount_plugin plugins add layer ix).
Proof.
  intros [w made] r s' Hw. unfold global_batch_mount_plugin. simpl in Hw.
  pose proof (new_point_spec w Hw) as Hnew. destruct (new_point w) as [p w1].
  destruct Hnew as (_&Hw1&Hf1&_). intros [= _ <-].
  destruct (mount_bindings_spec (order_plugin_bindings plugins) p ix w1 Hw1) as (Hw2&Hf2&_).
  pose proof (mount_frame_trans _ _ _ _ Hf1 Hf2) as [Hc Hb Hp]. split; simpl.
  - done.
  - set_solver.
  - intros q Hq. apply Hp. set_solver.
  - done.
  - done.
Qed.

Lemma frames_backend gateway route j ib : frames (build_backend gateway route j ib).
Proof. destruct ib. apply frames_bind; [apply frames_mount|]. intros. apply frames_ret. Qed.
Lemma frames_rule gateway route mcp ir : frames (build_rule gateway route mcp ir).
Proof.
  destruct ir. apply frames_bind; [apply frames_lift|]. intros.
  apply frames_bind; [apply frames_map; intros; apply frames_backend|]. intros.
  apply frames_bind; [apply frames_mount|]. intros. apply frames_ret.
Qed.
Lemma frames_collect gateway routes : frames (collect_http_route gateway routes).
Proof.
  apply frames_bind; [|intros; apply frames_ret]. apply frames_map. intros [name route].
  unfold build_route. destruct (compile_route route).
  apply frames_bind; [apply frames_map; intros; apply frames_rule|]. intros.
  apply frames_bind; [apply frames_mount|]. intros. apply frames_ret.
Qed.

Lemma op_map_length {A B} (f : A → Build B) l s ys s' : op_map f l s = (Ok ys, s') → length ys = length l.
Proof.
  revert s ys. induction l as [|x l IH]; intros s ys; simpl; [by intros [= <- _]|].
  unfold op_bind. destruct (f x s) as [[y|e] s1]; [|done].
  destruct (op_map f l s1) as [[ys'|e] s2] eqn:E; [|done]. intros [= <- <-]. simpl. f_equal. by eapply IH.
Qed.

Lemma collect_size {V} (l : list (string * V)) : size (collect l : gmap string V) ≤ length l.
Proof.
  induction l as [|kv l IH] using rev_ind; [done|]. rewrite collect_snoc, length_app. simpl.
  destruct ((collect l : gmap string V) !! kv.1) eqn:E.
  - rewrite map_size_insert, E. simpl. lia.
  - rewrite map_size_insert_None by done. lia.
Qed.

(** One kept mount point for each route. *)
Lemma route_points_length gateway routes s built s' :
  collect_http_route gateway routes s = (Ok built, s') → length (route_points built) ≤ length routes.
Proof.
  unfold collect_http_route, op_bind. destruct (op_map _ routes s) as [[l|e] s1] eqn:E; [|done].
  intros [= <- _]. apply op_map_length in E. unfold route_points. rewrite length_fmap.
  pose proof (collect_size l) as Hl. rewrite <- E. by rewrite length_map_to_list.
Qed.

(** What is left of the mount points after a construction: the ones that were there, and
    the ones it keeps. *)
Record world_frame (kept : list nat) (w w' : World Json) : Prop := {
  wfr_wf : repo_wf w';
  wfr_points p mp : points w' !! p = Some mp → p ∈ kept ∨ points w !! p = Some mp;
  wfr_cells : cells w' = cells w;
  wfr_bound b : bound_cell w' b = bound_cell w b;
}.

Lemma drop_except_frame kept s w :
  build_frame (w, []) s → world_frame kept w (drop_except kept s).
Proof.
  intros [Hwf _ Hp Hc Hb]. unfold drop_except. set (ps := filter _ _).
  destruct (drop_points_frame ps s.1) as (Hi&Hc'&_). split.
  - by apply drop_points_wf.
  - intros p mp. rewrite drop_points_lookup. case_decide as Hin; [done|]. intros Hmp.
    destruct (decide (p ∈ kept)); [by left|right]. rewrite <- Hp; [done|].
    intros Hmade. apply Hin, list_elem_of_filter. by split.
  - by rewrite Hc', Hc.
  - intros b. rewrite <- Hb. unfold bound_cell. by rewrite Hi.
Qed.

Definition result_points (r : result RouterInst ConvertError) : list nat :=
  match r with Ok inst => ri_points inst | Err _ => [] end.
Lemma create_router_frame gateway routes w r w' :
  repo_wf w → create_router_service gateway routes w = Some (r, w') → world_frame (result_points r) w w'.
Proof.
  intros Hw. unfold create_router_service. destruct (collect_http_route _ _ _) as [[built|e] s] eqn:E.
  - apply frames_collect in E; [|done]. intros (_&_&Heq)%bind_Some. injection Heq as <- <-.
    by apply drop_except_frame.
  - apply frames_collect in E; [|done]. intros [= <- <-]. by apply drop_except_frame.
Qed.

Definition service_router (svc : GatewayService) : option RouterInst := reload_read (gs_lock svc) (gs_reloader svc).
Lemma create_service_frame x item w r w' :
  repo_wf w → create_service x item reloader_default w = Some (r, w') →
  world_frame (match r with Ok svc => from_option ri_points [] (service_router svc) | Err _ => [] end) w w'.
Proof.
  intros Hw. unfold create_service. destruct (collect_http_route _ _ _) as [[built|e] s] eqn:E.
  - apply frames_collect in E; [|done].
    destruct (global_batch_mount_plugin _ _ _ _ s) as [[[layer p]|e] s'] eqn:Em;
      apply frames_mount in Em; try apply E; pose proof (build_frame_trans _ _ _ E Em) as F.
    + intros (_&_&Heq)%bind_Some. injection Heq as <- <-. by apply drop_except_frame.
    + intros [= <- <-]. by apply drop_except_frame.
  - apply frames_collect in E; [|done]. intros [= <- <-]. by apply drop_except_frame.
Qed.
End frame_lemmas.

(** ** Properties of the construction *)

(** A plugin that is installed under one name. *)
#[export] Instance ref_tls : TlsLib := λ _ _, TlsReady.

Definition ex_definition : PluginDefinitionObject (H:=ref_http) Json :=
  MkDefinition (H:=ref_http) false "echo" meta_default (λ _, Ok (λ _ _, Some (with_code_message 200 "echo"))).
Definition ex_plugin (name : string) : PluginInstanceId := MkPluginId "echo" (Named name).
Definition ex_world : World (H:=ref_http) Json :=
  run [OpRegister ex_definition; OpApply (config_new (ex_plugin "a") (JString ""));
       OpApply (config_new (ex_plugin "b") (JString ""))] world_new.
Lemma ex_world_wf : repo_wf ex_world.
Proof. apply run_wf, world_new_wf. Qed.

Definition ex_bindings : list PluginBinding :=
  [MkBinding (ex_plugin "a") 1; MkBinding (ex_plugin "missing") 5; MkBinding (ex_plugin "b") 9].
Definition ex_rule_of (policy : SgBalancePolicy) : SgHttpRouteRule PluginBinding :=
  MkSgRule (Some [MkSgMatch None None None (Some ["GET"])]) [] [] None None (Some policy).
Definition ex_sg_route (policy : SgBalancePolicy) : Route_ :=
  RouteHttp (MkSgHttpRoute "r" None ex_bindings [ex_rule_of policy] 1).

(** what a scope mounts is the functions of its bindings that have an instance, in
    descending order of priority and, among equal priorities, in the configured order;
    bindings without an instance are skipped. The functions and the other mount points of
    the repository stay as they are, and so does its invariant. *)
Theorem batch_mount_spec `{HttpLib} (w : World Json) plugins p ix (Hw : repo_wf w) :
  let ordered := order_plugin_bindings plugins in
  let w' := batch_mount_plugin plugins p ix w in
  point_layers w' p = point_layers w p ++ omap (bound_cell w) ordered ∧
  (ordered ≡ₚ plugins ∧ StronglySorted (λ x y, binding_priority y ≤ binding_priority x)%Z ordered ∧
   ∀ n, filter (λ b, binding_priority b = n) ordered = filter (λ b, binding_priority b = n) plugins) ∧
  repo_wf w' ∧ cells w' = cells w ∧ (∀ q, q ≠ p → points w' !! q = points w !! q).
Proof.
  intros ordered w'. destruct (mount_bindings_spec ordered p ix w Hw) as (Hw'&[Hc _ Hq]&Hl).
  split_and!; [done| | | |done..|exact Hq]; apply order_plugin_bindings_spec.
Qed.

Lemma batch_mount_spec_witness :
  point_layers (batch_mount_plugin ex_bindings 7 (AtGateway "gw") ex_world) 7 = [1; 0].
Proof. exact (proj1 (batch_mount_spec ex_world ex_bindings 7 (AtGateway "gw") ex_world_wf)). Defined.

(** C31: the router of a reload is built for any state of the repository exactly if every
    matcher converts and every rule with the random policy has a backend (and fewer than
    2^16 of them): a matcher that does not convert is an error, and a random rule without
    backends panics. *)
Theorem create_router_outcome `{HttpLib} `{!RuntimeLaws RT} `{!Client} `{!FileSystem} `{!StdOrderLaws SO} `{!MatchParsers}
    gateway routes w (Hnd : NoDup routes.*1) :
  if decide (Forall (λ nr, convertible nr.2) routes) then
    if decide (Forall (λ nr, route_builds nr.2) routes)
    then ∃ inst w', create_router_service gateway routes w = Some (Ok inst, w')
    else create_router_service gateway routes w = None
  else ∃ e w', create_router_service gateway routes w = Some (Err e, w').
Proof.
  repeat case_decide; [by apply create_router_ok|by apply create_router_panics|by apply create_router_fails].
Qed.

Lemma create_router_outcome_witness :
  (∃ inst w', create_router_service "gw" [("r", ex_sg_route SgIpHash)] ex_world = Some (Ok inst, w')) ∧
  create_router_service "gw" [("r", ex_sg_route SgRandom)] ex_world = None.
Proof.
  split; [apply (create_router_outcome "gw" [("r", ex_sg_route SgIpHash)] ex_world)
         |apply (create_router_outcome "gw" [("r", ex_sg_route SgRandom)] ex_world)].
  all: apply NoDup_singleton.
Defined.

(** The router a gateway starts with has one entry for each configured route, with the
    route's name and its converted matchers; the router of a reload has the same matchers,
    and every one of its routes is named by the empty text, so that the name of the route is
    lost for the extensions and the access log after the first change of a route. *)
Theorem reload_loses_route_names `{HttpLib} `{!RuntimeLaws RT} `{!Client} `{!FileSystem} `{!StdOrderLaws SO} `{!MatchParsers}
    x gateway routes w svc w' inst w'' (Hnd : NoDup routes.*1)
    (Hstart : create_service x (MkItem gateway routes) reloader_default w = Some (Ok svc, w'))
    (Hreload : create_router_service (g_name gateway) routes w' = Some (Ok inst, w'')) :
  (∃ first, reload_read (gs_lock svc) (gs_reloader svc) = Some first ∧
    ∀ w1, ∃ router, ri_router first w1 = Some router ∧ table_of fst routes router) ∧
  reload_read (gs_lock svc) (reload inst (gs_reloader svc)) = Some inst ∧
  ∀ w1, ∃ router, ri_router inst w1 = Some router ∧ table_of (λ _, "") routes router.
Proof.
  apply create_service_spec in Hstart as (_&first&Hrl&Hfirst); [|done].
  injection Hrl as <- <-. split_and!.
  - exists first. by split.
  - done.
  - by apply (create_router_table (g_name gateway) routes w' inst w'').
Qed.

Definition ex_item : ConfigItem PluginBinding :=
  MkItem (MkSgGateway "gw" parameters_default [] ex_bindings) [("r", ex_sg_route SgIpHash)].
(** The plugin [x_request_id] that a gateway gets: the identity. *)
Definition ex_layer : BoxLayer (H:=ref_http) := λ s, s.

Lemma reload_loses_route_names_witness :
  ∃ svc w' inst w'',
    create_service ex_layer ex_item reloader_default ex_world = Some (Ok svc, w') ∧
    create_router_service "gw" (ci_routes ex_item) w' = Some (Ok inst, w'') ∧
    (∃ router, ri_router inst w'' = Some router ∧ table_of (λ _, "") (ci_routes ex_item) router).
Proof.
  eexists _, _, _, _. split; [reflexivity|]. split; [reflexivity|].
  eapply (reload_loses_route_names ex_layer (ci_gateway ex_item) (ci_routes ex_item) ex_world);
    [apply NoDup_singleton|reflexivity|reflexivity].
Defined.

(** Of the scopes of a gateway that is created, only the routes stay mounted: every
    mount point after the construction was there before it or is one of a route of the
    new router. The scopes of the gateway itself, of its rules and of its backends are
    dropped with their builders, so the repository reports the plugins they run as not
    mounted. Failed constructions leave nothing mounted. *)
Theorem only_routes_stay_mounted `{HttpLib} `{!Runtime} `{!Client} `{!FileSystem} `{!StdOrder} `{!MatchParsers}
    x item w r w' (Hw : repo_wf w)
    (Hcreate : create_service x item reloader_default w = Some (r, w')) :
  repo_wf w' ∧
  (∀ p mp, points w' !! p = Some mp → points w !! p = Some mp ∨
    ∃ svc inst, r = Ok svc ∧ service_router svc = Some inst ∧ p ∈ ri_points inst) ∧
  (∀ svc inst, r = Ok svc → service_router svc = Some inst →
    length (ri_points inst) ≤ length (ci_routes item)).
Proof.
  pose proof (create_service_frame x item w r w' Hw Hcreate) as [Hwf Hp _ _]. split_and!; [done| |].
  - intros p mp Hmp. destruct (Hp p mp Hmp) as [Hin|]; [right|by left].
    destruct r as [svc|]; [|set_solver]. exists svc.
    destruct (service_router svc) as [inst|]; [by exists inst|set_solver].
  - intros svc inst -> Hinst. unfold create_service in Hcreate.
    destruct (collect_http_route _ _ _) as [[built|e] s] eqn:E; [|done]. apply route_points_length in E.
    destruct (global_batch_mount_plugin _ _ _ _ s) as [[[layer p]|e] s']; [|done].
    apply bind_Some in Hcreate as (_&_&Heq). injection Heq as <- _. injection Hinst as <-. done.
Qed.

Lemma only_routes_stay_mounted_witness :
  ∃ r w', create_service ex_layer ex_item reloader_default ex_world = Some (r, w') ∧ repo_wf w'.
Proof.
  eexists _, _. split; [reflexivity|].
  eapply (only_routes_stay_mounted ex_layer ex_item ex_world); [apply ex_world_wf|reflexivity].
Defined.
