(* ===== verification/ShellRun.v ===== *)
(** * The shell under edits

    The whole of a configuration backend, the events it sends and the running gateways
    ([crates/shell/src/server.rs], [crates/config/src/service.rs]) as a transition system:
    an administrator edits the configuration, the events of the edits queue up, the shell
    handles the oldest one with what the backend says at that time, plugins change and
    cancelled tasks end at any time. *)

From S2P Require Export Shell.
From S2P Require Import RefHttp.
Local Open Scope string_scope.
Local Open Scope list_scope.
Local Open Scope nat_scope.

(** ** Lemmas: the effect of an event on the running gateways *)

Section effects.
Context `{HttpLib} `{!RuntimeLaws RT} `{!Client} `{!FileSystem} `{!StdOrderLaws SO} `{!MatchParsers} `{!TlsLib}.
Context (x : BoxLayer).
Implicit Types (s : Shell) (t : GatewayTask).

(** *** What a task serves *)

(** The task has the name, the listeners and the layers of the gateway [gw], and a reloader
    that reaches the router it reads. *)
Definition gateway_from (gw : Gateway_) t : Prop :=
  rl_service (gs_reloader (gt_service t)) = Some (gs_lock (gt_service t)) ∧
  gt_name t = g_name gw ∧ collect_results build_listener (g_listeners gw) = Ok (gt_listens t) ∧
  ∃ routes w svc w', create_service x (MkItem gw routes) reloader_default w = Some (Ok svc, w') ∧
    gs_gateway (gt_service t) = gs_gateway svc.
(** The router of the task is built, and has the table of [routes]. *)
Definition routed (routes : list (string * Route_)) t : Prop :=
  ∃ inst name, task_router t = Some inst ∧
    ∀ w, ∃ router, ri_router inst w = Some router ∧ table_of name routes router.
Definition serves s (name : string) (gw : Gateway_) (routes : list (string * Route_)) : Prop :=
  ∃ token t, sh_store s !! name = Some token ∧ sh_tasks s !! token = Some t ∧ live s token ∧
    gateway_from gw t ∧ routed routes t.

Definition buildable_route (r : Route_) : Prop := convertible r ∧ route_builds r.
Definition listeners_ok (gw : Gateway_) : Prop := ∃ ls, collect_results build_listener (g_listeners gw) = Ok ls.

Lemma create_gateway_ok item s :
  NoDup (ci_routes item).*1 → Forall (λ nr, buildable_route nr.2) (ci_routes item) → listeners_ok (ci_gateway item) →
  ∃ token t w redis, create_gateway x item s =
      Some (Ok token, MkShell w (sh_store s) (<[token := t]> (sh_tasks s)) (sh_cancelled s) (sh_shutdown s) redis) ∧
    sh_tasks s !! token = None ∧ token ∉ sh_cancelled s ∧
    gateway_from (ci_gateway item) t ∧ routed (ci_routes item) t.
Proof.
  intros Hnd Hb [ls Hls]. apply Forall_and in Hb as [Hconv Hb].
  unfold create_gateway. set (s0 := match p_redis_url _ with Some _ => _ | None => s end).
  assert (sh_store s0 = sh_store s ∧ sh_tasks s0 = sh_tasks s ∧ sh_cancelled s0 = sh_cancelled s ∧
    sh_shutdown s0 = sh_shutdown s) as (Hst&Hta&Hca&Hsh) by by subst s0; destruct (p_redis_url _).
  pose proof (create_service_total x item reloader_default (sh_world s0) Hnd Hconv) as Hsvc.
  rewrite decide_True in Hsvc by done. destruct Hsvc as (svc&w'&Hsvc). rewrite Hsvc. simpl. rewrite Hls.
  set (token := fresh _). pose proof (is_fresh (dom (sh_tasks s0) ∪ sh_cancelled s0)) as Hfresh. fold token in Hfresh.
  eexists token, _, _, _. split; [by unfold set_tasks, set_world; cbn; rewrite Hst, Hta, Hca, Hsh|].
  rewrite Hta, Hca in Hfresh. split_and!.
  - apply not_elem_of_dom. set_solver.
  - set_solver.
  - pose proof (create_service_spec _ _ _ _ _ _ Hnd Hsvc) as (_&inst&Hrl&_). injection Hrl as Hlock Hrl.
    split_and!; [by cbn; rewrite <- Hlock, <- Hrl|done|exact Hls|].
    exists (ci_routes item), (sh_world s0), svc, w'. by destruct item.
  - apply create_service_spec in Hsvc as (_&inst&Hrl&Htab); [|done]. injection Hrl as Hlock Hrl.
    exists inst, fst. split; [|exact Htab]. unfold task_router. simpl. by rewrite <- Hlock, <- Hrl.
Qed.

Lemma drop_router_frame inst s :
  ∃ w, drop_router inst s = set_world w s.
Proof. destruct inst; simpl; [by eexists|]. exists (sh_world s). by destruct s. Qed.

Lemma global_update_ok name routes s :
  NoDup routes.*1 → Forall (λ nr, buildable_route nr.2) routes →
  ∃ w tasks, global_update name routes s =
      Some (Ok (), MkShell w (sh_store s) tasks (sh_cancelled s) (sh_shutdown s) (sh_redis s)) ∧
    match sh_store s !! name with
    | Some token =>
        match sh_tasks s !! token with
        | Some t => ∃ inst, tasks = <[token := reload_task inst t]> (sh_tasks s) ∧
            ∀ w, ∃ router, ri_router inst w = Some router ∧ table_of (λ _, "") routes router
        | None => tasks = sh_tasks s
        end
    | None => tasks = sh_tasks s
    end.
Proof.
  intros Hnd Hb. apply Forall_and in Hb as [Hconv Hb].
  destruct (create_router_ok name routes (sh_world s) Hnd Hconv Hb) as (inst&w'&Hr).
  pose proof (create_router_table _ _ _ _ _ Hnd Hr) as Htab.
  unfold global_update. rewrite Hr. cbn [mbind option_bind].
  change (sh_store (set_world w' s)) with (sh_store s). change (sh_tasks (set_world w' s)) with (sh_tasks s).
  destruct (sh_store s !! name) as [token|].
  - destruct (sh_tasks s !! token) as [t|].
    + destruct (drop_router_frame (task_router t) (set_tasks (<[token:=reload_task inst t]> (sh_tasks s)) (set_world w' s))) as [w2 ->].
      eexists _, _. split; [reflexivity|]. by exists inst.
    + by eexists _, _.
  - by eexists _, _.
Qed.

(** The reloaded task keeps its gateway and has the new router. *)
Lemma reload_task_spec gw routes routes' inst t :
  gateway_from gw t → routed routes t →
  (∀ w, ∃ router, ri_router inst w = Some router ∧ table_of (λ _, "") routes' router) →
  gateway_from gw (reload_task inst t) ∧ routed routes' (reload_task inst t).
Proof.
  intros (Hlock&Hgw) (i0&n0&Hr0&_) Htab. unfold task_router, reload_read in Hr0. split.
  - split; [|exact Hgw]. cbn. unfold reload. by rewrite Hlock.
  - exists inst, (λ _, ""). split; [|done]. unfold task_router, reload_read. cbn. unfold reload.
    rewrite Hlock. cbn. apply list_lookup_insert_eq. by eapply lookup_lt_Some.
Qed.

(** *** A system under edits

    The shell, the backend, what the backend represents, and the events that are not
    handled yet. *)

Context {C : Type} `{!Retrieve C} (represents : C → Stored → Prop) `{!Readable C represents}.

Record Net := MkNet { n_shell : Shell; n_conf : C; n_stored : Stored; n_queue : list ListenEvent }.

Definition edit_buildable (e : Edit) : Prop :=
  match e with
  | PutGateway _ _ gw => listeners_ok gw
  | PutRoute _ _ _ r => buildable_route r
  | _ => True
  end.

(** A gateway is created under a name that has none. *)
Definition edit_fresh (st : Stored) (e : Edit) : Prop :=
  match e with PutGateway false name _ => st_gateways st !! name = None | _ => True end.

(** An edit that is allowed and can be built, whose event is queued; the handling of the oldest event;
    any change of the plugin repository; the end of a cancelled task. *)
Inductive net_step (allowed : Stored → Edit → Prop) : Net → Net → Prop :=
| net_edit n e c' :
    allowed (n_stored n) e → edit_buildable e → represents c' (edit_stored (n_stored n) e) →
    net_step allowed n (MkNet (n_shell n) c' (edit_stored (n_stored n) e) (n_queue n ++ [edit_event e]))
| net_handle n ev q s' c' :
    n_queue n = ev :: q → handle x ev (n_shell n, n_conf n) = Some (s', c') →
    net_step allowed n (MkNet s' c' (n_stored n) q)
| net_world n w :
    net_step allowed n (MkNet (set_world w (n_shell n)) (n_conf n) (n_stored n) (n_queue n))
| net_end n token :
    token ∈ sh_cancelled (n_shell n) →
    net_step allowed n (MkNet (task_end token (n_shell n)) (n_conf n) (n_stored n) (n_queue n)).

(** The last event about the gateway [name], and whether one of its routes has an event. *)
Fixpoint last_gateway (name : string) (q : list ListenEvent) : option ConfigEventType :=
  match q with
  | [] => None
  | ev :: q =>
      match last_gateway name q with
      | Some t => Some t
      | None => match ev_config ev with
                | CtGateway name' => if decide (name' = name) then Some (ev_type ev) else None
                | _ => None
                end
      end
  end.
Definition route_event (name : string) (q : list ListenEvent) : Prop := ∃ route, CtRoute name route ∈ (ev_config <$> q).

Definition gateway_inv s (st : Stored) (q : list ListenEvent) (name : string) : Prop :=
  match last_gateway name q with
  | Some t => t = EvDelete ↔ st_gateways st !! name = None
  | None =>
      match st_gateways st !! name with
      | None => sh_store s !! name = None
      | Some gw => ∃ token t routes, sh_store s !! name = Some token ∧ sh_tasks s !! token = Some t ∧
          gateway_from gw t ∧ routed routes t ∧ (routes = stored_routes st name ∨ route_event name q)
      end
  end.

Definition buildable (st : Stored) : Prop :=
  map_Forall (λ _ gw, listeners_ok gw) (st_gateways st) ∧ map_Forall (λ _ r, buildable_route r) (st_routes st).

Record shell_wf s : Prop := {
  sw_running : sh_shutdown s = false;
  sw_live name token : sh_store s !! name = Some token → token ∉ sh_cancelled s;
  sw_task name token : sh_store s !! name = Some token → is_Some (sh_tasks s !! token);
  sw_inj name name' token : sh_store s !! name = Some token → sh_store s !! name' = Some token → name = name';
  (** every task has the shape of one, so that it can be reloaded *)
  sw_routed token t : sh_tasks s !! token = Some t → ∃ gw routes, gateway_from gw t ∧ routed routes t;
}.

Record net_inv (n : Net) : Prop := {
  ni_shell : shell_wf (n_shell n);
  ni_conf : represents (n_conf n) (n_stored n);
  ni_buildable : buildable (n_stored n);
  ni_queue : Forall (λ ev, ev_config ev ≠ CtGlobal) (n_queue n);
  ni_gateways name : gateway_inv (n_shell n) (n_stored n) (n_queue n) name;
}.

Lemma buildable_edit st e : buildable st → edit_buildable e → buildable (edit_stored st e).
Proof.
  destruct st as [gs rs ps]. intros [Hg Hr] He. destruct e; split; simpl in *; try done;
    by (apply map_Forall_insert_2 || apply map_Forall_delete).
Qed.

Lemma stored_routes_NoDup st name : NoDup (stored_routes st name).*1.
Proof.
  unfold stored_routes. pose proof (bt_collect_is_sorted (hash_entries name (st_routes st))) as Hs.
  induction Hs as [|[k v] m Hm IH Hk]; [constructor|]. rewrite fmap_cons. constructor; [|done].
  intros ([k' v']&Heq&Hin)%list_elem_of_fmap. simpl in Heq. subst. rewrite Forall_forall in Hk.
  specialize (Hk _ Hin). simpl in Hk. by rewrite key_ltb_irrefl in Hk.
Qed.

Lemma stored_routes_buildable st name : buildable st → Forall (λ nr, buildable_route nr.2) (stored_routes st name).
Proof.
  intros [_ Hr]. apply Forall_forall. intros [k r] Hin.
  apply (bt_elem_get k r) in Hin; [|apply bt_collect_is_sorted]. rewrite bt_get_stored_routes in Hin.
  by apply (Hr (name, k)).
Qed.

(** An edit changes the routes of one gateway at most. *)
Lemma stored_routes_ext st st' name :
  (∀ k, st_routes st !! (name, k) = st_routes st' !! (name, k)) → stored_routes st name = stored_routes st' name.
Proof.
  intros Hr. apply bt_ext; [apply bt_collect_is_sorted..|]. intros k. by rewrite !bt_get_stored_routes.
Qed.

(** *** Handling an event about one gateway leaves the others alone *)

Record others_kept (g : string) s s' : Prop := {
  ok_store name : name ≠ g → sh_store s' !! name = sh_store s !! name;
  ok_tasks name token : name ≠ g → sh_store s !! name = Some token → sh_tasks s' !! token = sh_tasks s !! token;
}.

Lemma last_gateway_other name g ev q :
  name ≠ g → ev_config ev = CtGateway g ∨ (∃ r, ev_config ev = CtRoute g r) ∨ (∃ i, ev_config ev = CtPlugin i) →
  last_gateway name (ev :: q) = last_gateway name q.
Proof.
  intros Hn Hev. simpl. destruct (last_gateway name q); [done|].
  destruct Hev as [->|[[r ->]|[i ->]]]; [|done..]. by rewrite decide_False.
Qed.

Lemma gateway_inv_other s s' st q ev g name :
  name ≠ g → ev_config ev = CtGateway g ∨ (∃ r, ev_config ev = CtRoute g r) ∨ (∃ i, ev_config ev = CtPlugin i) →
  others_kept g s s' → gateway_inv s st (ev :: q) name → gateway_inv s' st q name.
Proof.
  intros Hn Hev [Hst Hta]. unfold gateway_inv. rewrite (last_gateway_other name g) by done.
  destruct (last_gateway name q); [done|]. destruct (st_gateways st !! name) as [gw|].
  - intros (token&t&routes&Hs&Ht&Hgw&Hr&Hor). exists token, t, routes. rewrite Hst by done.
    split_and!; [done|by rewrite (Hta name)|done..|]. destruct Hor as [|[r Hin]]; [by left|right].
    exists r. rewrite fmap_cons in Hin. apply elem_of_cons in Hin as [Heq|]; [|done].
    destruct Hev as [Hev|[[r' Hev]|[i Hev]]]; rewrite Hev in Heq; simplify_eq.
  - intros Hs. by rewrite Hst.
Qed.

Lemma set_world_wf w s : shell_wf s → shell_wf (set_world w s).
Proof. intros [? ? ? ? ?]. by split. Qed.

(** Every task that is not cancelled has a name in the store. *)
Definition no_leak s : Prop :=
  ∀ token, is_Some (sh_tasks s !! token) → token ∈ sh_cancelled s ∨ ∃ name, sh_store s !! name = Some token.

Lemma create_and_save_ok name item s :
  shell_wf s → NoDup (ci_routes item).*1 → Forall (λ nr, buildable_route nr.2) (ci_routes item) →
  listeners_ok (ci_gateway item) →
  ∃ s', create_and_save x name item s = Some s' ∧ shell_wf s' ∧ others_kept name s s' ∧
    (no_leak s → sh_store s !! name = None → no_leak s') ∧
    ∃ token t, sh_store s' !! name = Some token ∧ sh_tasks s' !! token = Some t ∧
      gateway_from (ci_gateway item) t ∧ routed (ci_routes item) t.
Proof.
  intros [Hrun Hlive Htask Hinj Hro] Hnd Hb Hl.
  destruct (create_gateway_ok item s Hnd Hb Hl) as (token&t&w&redis&Hc&Hnew&Hcan&Hgw&Hr).
  unfold create_and_save. rewrite Hc. cbn [mbind option_bind]. eexists. split; [reflexivity|].
  assert (∀ n tok, sh_store s !! n = Some tok → tok ≠ token) as Hne.
  { intros n tok Hn ->. destruct (Htask _ _ Hn) as [? ?]. congruence. }
  split_and!.
  - split; simpl; [done|..].
    + intros n tok [[<- <-]|[_ Hn]]%lookup_insert_Some; [done|by eapply Hlive].
    + intros n tok [[<- <-]|[_ Hn]]%lookup_insert_Some; [by rewrite lookup_insert_eq|].
      rewrite lookup_insert_ne by (symmetry; by eapply Hne). by eapply Htask.
    + intros n n' tok [[<- <-]|[? Hn]]%lookup_insert_Some [[<- ?]|[? Hn']]%lookup_insert_Some; subst; try done.
      * by destruct (Hne _ _ Hn').
      * by destruct (Hne _ _ Hn).
      * by eapply Hinj.
    + intros tok t' [[<- <-]|[_ Ht]]%lookup_insert_Some; [by exists (ci_gateway item), (ci_routes item)|by eapply Hro].
  - split; simpl.
    + intros n Hn. by rewrite lookup_insert_ne.
    + intros n tok Hn Hs. rewrite lookup_insert_ne; [done|]. symmetry. by eapply Hne.
  - intros Hl' Hnone tok. simpl. rewrite lookup_insert_is_Some. intros [->|[? Hin]].
    + right. exists name. by rewrite lookup_insert_eq.
    + destruct (Hl' tok Hin) as [|[n Hn]]; [by left|right]. exists n. rewrite lookup_insert_ne; [done|]. congruence.
  - exists token, t. simpl. by rewrite !lookup_insert_eq.
Qed.

(** The start of an update, and a deletion. *)
Definition remove_and_shutdown (name : string) s : Shell :=
  let '(inst, s) := global_remove name s in
  match inst with Some token => shutdown token s | None => s end.

Lemma remove_and_shutdown_spec name s :
  shell_wf s →
  shell_wf (remove_and_shutdown name s) ∧ others_kept name s (remove_and_shutdown name s) ∧
  sh_store (remove_and_shutdown name s) !! name = None ∧ (no_leak s → no_leak (remove_and_shutdown name s)).
Proof.
  intros [Hrun Hlive Htask Hinj Hro]. unfold remove_and_shutdown, global_remove.
  assert (∀ s', sh_tasks s' = sh_tasks s → sh_store s' = delete name (sh_store s) →
    (∀ tok, tok ∈ sh_cancelled s ∨ sh_store s !! name = Some tok → tok ∈ sh_cancelled s') → no_leak s → no_leak s') as Hleak.
  { intros s' Hta Hst Hca Hl tok. rewrite Hta. intros Hin. destruct (Hl tok Hin) as [|[n Hn]]; [left; auto|].
    destruct (decide (n = name)) as [->|]; [left; auto|right]. exists n. rewrite Hst. by rewrite lookup_delete_ne. }
  destruct (sh_store s !! name) as [token|] eqn:E; split_and!; try (split; simpl).
  all: try apply lookup_delete_eq; try done.
  all: try (apply Hleak; [done..|]; simpl; set_solver).
  - intros n tok [Hn Hs]%lookup_delete_Some. rewrite not_elem_of_union, not_elem_of_singleton.
    split; [|by eapply Hlive]. intros ->. by rewrite (Hinj _ _ _ E Hs) in Hn.
  - intros n tok [Hn Hs]%lookup_delete_Some. by eapply Htask.
  - intros n n' tok [? Hs]%lookup_delete_Some [? Hs']%lookup_delete_Some. by eapply Hinj.
  - intros n Hn. by rewrite lookup_delete_ne.
  - intros n tok [Hn Hs]%lookup_delete_Some. by eapply Hlive.
  - intros n tok [Hn Hs]%lookup_delete_Some. by eapply Htask.
  - intros n n' tok [? Hs]%lookup_delete_Some [? Hs']%lookup_delete_Some. by eapply Hinj.
  - intros n Hn. by rewrite lookup_delete_ne.
Qed.

Lemma others_kept_refl g s : others_kept g s s.
Proof. by split. Qed.
Lemma others_kept_trans g s1 s2 s3 : others_kept g s1 s2 → others_kept g s2 s3 → others_kept g s1 s3.
Proof.
  intros [Hs1 Ht1] [Hs2 Ht2]. split.
  - intros n Hn. by rewrite Hs2, Hs1.
  - intros n tok Hn Hs. rewrite (Ht2 n tok), (Ht1 n tok); [done..|by rewrite Hs1].
Qed.

Lemma handle_route (t : ConfigEventType) g r s c st :
  shell_wf s → represents c st → buildable st →
  ∃ s', handle x (MkListenEvent t (CtRoute g r)) (s, c) = Some (s', c) ∧ shell_wf s' ∧ others_kept g s s' ∧
    sh_store s' = sh_store s ∧ (no_leak s → no_leak s') ∧
    ∀ token gt gw routes, sh_store s !! g = Some token → sh_tasks s !! token = Some gt →
      gateway_from gw gt → routed routes gt →
      ∃ gt', sh_tasks s' !! token = Some gt' ∧ gateway_from gw gt' ∧ routed (stored_routes st g) gt'.
Proof.
  intros [Hrun Hlive Htask Hinj Hro] Hc Hb. unfold handle, handler, retrieved. cbn [ev_config ev_type snd fst].
  rewrite (read_routes c st g Hc). cbn beta iota.
  destruct (global_update_ok g (stored_routes st g) s (stored_routes_NoDup st g) (stored_routes_buildable st g Hb))
    as (w&tasks&Hu&Ht).
  rewrite Hu. cbn. eexists. split; [reflexivity|].
  destruct (sh_store s !! g) as [token|] eqn:Es.
  - destruct (Htask _ _ Es) as [gt Hgt]. rewrite Hgt in Ht. destruct Ht as (inst&->&Htab). split_and!.
    + split; simpl; [done..| |done|].
      * intros n tok Hn. apply lookup_insert_is_Some. destruct (decide (token = tok)); [by left|right].
        split; [done|by eapply Htask].
      * intros tok t' [[<- <-]|[_ Ht']]%lookup_insert_Some; [|by eapply Hro].
        destruct (Hro _ _ Hgt) as (gw&routes&Hgw&Hr). exists gw, (stored_routes st g).
        by apply (reload_task_spec gw routes).
    + split; simpl; [done|]. intros n tok Hn Hs. rewrite lookup_insert_ne; [done|].
      intros ->. by apply Hn, (Hinj _ _ _ Hs Es).
    + done.
    + intros Hl tok. simpl. rewrite lookup_insert_is_Some. intros [<-|[_ Hin]]; [right; by exists g|by apply Hl].
    + intros tok gt0 gw routes [= <-] Hgt0 Hgw Hr. simplify_eq. exists (reload_task inst gt).
      simpl. rewrite lookup_insert_eq. split; [done|]. by apply (reload_task_spec gw routes).
  - subst tasks. split_and!; [by split|by split|done|done|]. intros ???? [=].
Qed.

(** The event of a gateway: the next state has its item, when the backend has one, and it
    is gone when the event deletes it. *)
Lemma handle_gateway (t : ConfigEventType) g s c st :
  shell_wf s → represents c st → buildable st →
  ∃ s', handle x (MkListenEvent t (CtGateway g)) (s, c) = Some (s', c) ∧ shell_wf s' ∧ others_kept g s s' ∧
    (no_leak s → (t = EvCreate → sh_store s !! g = None) → no_leak s') ∧
    (t = EvDelete → sh_store s' !! g = None) ∧
    (t ≠ EvDelete → ∀ gw, st_gateways st !! g = Some gw →
      ∃ token gt, sh_store s' !! g = Some token ∧ sh_tasks s' !! token = Some gt ∧ gateway_from gw gt ∧
        routed (stored_routes st g) gt).
Proof.
  intros Hs Hc Hb.
  assert (∀ s1, shell_wf s1 → ∀ gw, st_gateways st !! g = Some gw →
    ∃ s', create_and_save x g (MkItem gw (stored_routes st g)) s1 = Some s' ∧ shell_wf s' ∧ others_kept g s1 s' ∧
      (no_leak s1 → sh_store s1 !! g = None → no_leak s') ∧
      ∃ token gt, sh_store s' !! g = Some token ∧ sh_tasks s' !! token = Some gt ∧ gateway_from gw gt ∧
        routed (stored_routes st g) gt) as Hcreate.
  { intros s1 Hs1 gw Hgw. apply (create_and_save_ok g (MkItem gw (stored_routes st g)) s1 Hs1).
    - apply stored_routes_NoDup.
    - by apply stored_routes_buildable.
    - by apply (proj1 Hb g). }
  destruct (remove_and_shutdown_spec g s Hs) as (Hs1&Hk1&Hn1&Hl1).
  unfold handle, handler, retrieved. cbn [ev_config ev_type snd fst].
  rewrite (read_item c st g Hc). unfold stored_item.
  destruct t; [| |exists (remove_and_shutdown g s); split_and!; [reflexivity|done|done|auto|done|by intros []]].
  all: cbn beta iota; destruct (st_gateways st !! g) as [gw|] eqn:E; cbn [fmap option_fmap option_map].
  2, 4: exists s; split_and!; [reflexivity|done|apply others_kept_refl|done|done|intros _ ? [=]].
  - destruct (Hcreate s Hs gw eq_refl) as (s'&Hcs&Hw&Hk&Hl&Hsv). exists s'. rewrite Hcs.
    split_and!; [reflexivity|done|done|auto|done|]. intros _ gw' [= <-]. exact Hsv.
  - destruct (Hcreate _ Hs1 gw eq_refl) as (s'&Hcs&Hw&Hk&Hl&Hsv). exists s'.
    assert (no_leak s → no_leak s') as Hl2 by auto.
    unfold remove_and_shutdown in Hcs. unfold global_remove in *. cbn beta iota zeta in Hcs |- *.
    rewrite Hcs. split_and!; [reflexivity|done|by eapply others_kept_trans|auto|done|]. intros _ gw' [= <-]. exact Hsv.
Qed.

Lemma handle_plugin (t : ConfigEventType) id s c st :
  represents c st → ∃ w, handle x (MkListenEvent t (CtPlugin id)) (s, c) = Some (set_world w s, c).
Proof.
  intros Hc. unfold handle, handler, retrieved. cbn [ev_config ev_type snd fst].
  assert (∃ w, s = set_world w s) as [w0 Hw0] by (exists (sh_world s); by destruct s).
  destruct t.
  1, 2: rewrite (read_plugin c st id Hc); cbn beta iota; destruct (stored_plugin st id); [by eexists|];
    exists w0; by rewrite <- Hw0.
  destruct (remove_instance id (sh_world s)) as [r w]. by eexists.
Qed.

Lemma gateway_inv_world w s st q name : gateway_inv s st q name → gateway_inv (set_world w s) st q name.
Proof. done. Qed.

(** The oldest event is handled, and the invariant holds for the rest. *)
Lemma net_handle_inv s c st ev q :
  net_inv (MkNet s c st (ev :: q)) →
  ∃ s', handle x ev (s, c) = Some (s', c) ∧ net_inv (MkNet s' c st q).
Proof.
  intros [Hs Hc Hb Hq Hg]. simpl in *. apply Forall_cons in Hq as [Hev Hq].
  destruct ev as [t [g|g r|id|]]; [| | |done].
  - destruct (handle_gateway t g s c st Hs Hc Hb) as (s'&Hh&Hw&Hk&_&Hdel&Hput). exists s'. split; [done|].
    split; simpl; [done..|]. intros name. destruct (decide (name = g)) as [->|Hn].
    + specialize (Hg g). unfold gateway_inv in *. cbn [last_gateway ev_config ev_type] in Hg.
      destruct (last_gateway g q); [done|]. rewrite decide_True in Hg by done.
      destruct (st_gateways st !! g) as [gw|] eqn:E.
      * destruct (Hput (λ Ht, ltac:(destruct Hg as [Hg _]; by specialize (Hg Ht))) gw eq_refl) as (token&gt&?&?&?&?).
        exists token, gt, (stored_routes st g). eauto 10.
      * apply Hdel, Hg. done.
    + eapply (gateway_inv_other s s' st q _ g); [done| |done|apply Hg]. by left.
  - destruct (handle_route t g r s c st Hs Hc Hb) as (s'&Hh&Hw&Hk&Hst&_&Hre). exists s'. split; [done|].
    split; simpl; [done..|]. intros name. destruct (decide (name = g)) as [->|Hn].
    + specialize (Hg g). unfold gateway_inv in *. cbn [last_gateway ev_config ev_type] in Hg.
      destruct (last_gateway g q); [done|]. destruct (st_gateways st !! g) as [gw|]; [|by rewrite Hst].
      destruct Hg as (token&gt&routes&Htok&Hgt&Hgw&Hr&_).
      destruct (Hre token gt gw routes Htok Hgt Hgw Hr) as (gt'&?&?&?).
      exists token, gt', (stored_routes st g). rewrite Hst. eauto 10.
    + eapply (gateway_inv_other s s' st q _ g); [done| |done|apply Hg]. right; left. by exists r.
  - destruct (handle_plugin t id s c st Hc) as [w Hh]. exists (set_world w s). split; [done|].
    split; simpl; [by apply set_world_wf|done..|]. intros name. apply gateway_inv_world.
    specialize (Hg name). unfold gateway_inv in *. cbn [last_gateway ev_config ev_type] in Hg.
    destruct (last_gateway name q); [done|]. destruct (st_gateways st !! name) as [gw|]; [|done].
    destruct Hg as (token&gt&routes&?&?&?&?&Hor). exists token, gt, routes. split_and!; [done..|].
    destruct Hor as [|[r Hin]]; [by left|right]. exists r. rewrite fmap_cons in Hin.
    apply elem_of_cons in Hin as [[=]|?]. done.
Qed.

Lemma last_gateway_snoc name q ev :
  last_gateway name (q ++ [ev]) =
  match ev_config ev with
  | CtGateway g => if decide (g = name) then Some (ev_type ev) else last_gateway name q
  | _ => last_gateway name q
  end.
Proof.
  induction q as [|e q IH]; simpl.
  - by destruct (ev_config ev).
  - rewrite IH. destruct (ev_config ev) as [g| | |]; try done. by case_decide.
Qed.

Lemma route_event_snoc name q ev : route_event name q → route_event name (q ++ [ev]).
Proof. intros [r Hr]. exists r. rewrite fmap_app. apply elem_of_app. by left. Qed.

Lemma edit_gateway_inv s st q e name :
  gateway_inv s st q name → gateway_inv s (edit_stored st e) (q ++ [edit_event e]) name.
Proof.
  intros Hg. unfold gateway_inv in *. rewrite last_gateway_snoc.
  assert (∀ st', st_gateways st' !! name = st_gateways st !! name →
    (stored_routes st name = stored_routes st' name ∨ route_event name (q ++ [edit_event e])) →
    match last_gateway name q with
    | Some t => t = EvDelete ↔ st_gateways st' !! name = None
    | None =>
        match st_gateways st' !! name with
        | None => sh_store s !! name = None
        | Some gw => ∃ token t routes, sh_store s !! name = Some token ∧ sh_tasks s !! token = Some t ∧
            gateway_from gw t ∧ routed routes t ∧ (routes = stored_routes st' name ∨ route_event name (q ++ [edit_event e]))
        end
    end) as Hkeep.
  { intros st' -> Hor. destruct (last_gateway name q); [done|].
    destruct (st_gateways st !! name); [|done]. destruct Hg as (token&gt&routes&?&?&?&?&Hr).
    exists token, gt, routes. split_and!; [done..|]. destruct Hr as [->|Hr]; [|right; by apply route_event_snoc].
    destruct Hor as [->|]; [by left|by right]. }
  destruct st as [gs rs ps]. destruct e as [u g gw|u g r route|u c|g|g r|id];
    cbn [edit_event ev_config ev_type edit_stored] in *.
  - case_decide as Hn; [subst; cbn; rewrite lookup_insert_eq; by destruct u|].
    apply Hkeep; [by cbn; rewrite lookup_insert_ne|by left; apply stored_routes_ext].
  - apply Hkeep; [done|]. destruct (decide (g = name)) as [->|Hn].
    + right. exists r. rewrite fmap_app. apply elem_of_app. right. by apply list_elem_of_singleton.
    + left. apply stored_routes_ext. intros k. cbn. rewrite lookup_insert_ne; [done|congruence].
  - apply Hkeep; [done|by left; apply stored_routes_ext].
  - case_decide as Hn; [subst; cbn; by rewrite lookup_delete_eq|].
    apply Hkeep; [by cbn; rewrite lookup_delete_ne|by left; apply stored_routes_ext].
  - apply Hkeep; [done|]. destruct (decide (g = name)) as [->|Hn].
    + right. exists r. rewrite fmap_app. apply elem_of_app. right. by apply list_elem_of_singleton.
    + left. apply stored_routes_ext. intros k. cbn. rewrite lookup_delete_ne; [done|congruence].
  - apply Hkeep; [done|by left; apply stored_routes_ext].
Qed.

Lemma task_end_wf token s :
  shell_wf s → token ∈ sh_cancelled s →
  shell_wf (task_end token s) ∧ sh_store (task_end token s) = sh_store s ∧
  ∀ name tok, sh_store s !! name = Some tok → sh_tasks (task_end token s) !! tok = sh_tasks s !! tok.
Proof.
  intros [Hrun Hlive Htask Hinj Hro] Hcan. unfold task_end. destruct (sh_tasks s !! token) as [t|] eqn:E; [|done].
  destruct (drop_router_frame (task_router t) (set_tasks (delete token (sh_tasks s)) s)) as [w ->].
  assert (∀ name tok, sh_store s !! name = Some tok → token ≠ tok) as Hne.
  { intros name tok Hs <-. by apply (Hlive name token). }
  split_and!; [split; simpl; try done|done|].
  - intros name tok Hs. rewrite lookup_delete_ne by (by eapply Hne). by eapply Htask.
  - intros tok t' [_ Ht]%lookup_delete_Some. by eapply Hro.
  - intros name tok Hs. simpl. by rewrite lookup_delete_ne by (by eapply Hne).
Qed.

Lemma net_step_inv allowed n n' : net_step allowed n n' → net_inv n → net_inv n'.
Proof.
  intros Hstep Hinv. destruct Hstep as [n e c' _ He Hc'|n ev q s' c' Hq Hh|n w|n token Hcan].
  - destruct Hinv as [Hs Hc Hb Hq Hg]. split; simpl; [done|done|by apply buildable_edit| |].
    + apply Forall_app. split; [done|]. constructor; [|done]. by destruct e.
    + intros name. by apply edit_gateway_inv.
  - destruct n as [s c st q0]. simpl in *. subst q0.
    destruct (net_handle_inv s c st ev q Hinv) as (s2&Hh2&Hinv'). by simplify_eq.
  - destruct Hinv as [Hs Hc Hb Hq Hg]. split; simpl; [by apply set_world_wf|done..].
  - destruct Hinv as [Hs Hc Hb Hq Hg]. destruct (task_end_wf token (n_shell n) Hs Hcan) as (Hw&Hst&Hta).
    split; simpl; [done..|]. intros name. specialize (Hg name). unfold gateway_inv in *.
    destruct (last_gateway name (n_queue n)); [done|]. cbn [n_shell]. rewrite Hst.
    destruct (st_gateways _ !! name); [|done]. destruct Hg as (tok&gt&routes&Htok&Hgt&Hrest).
    exists tok, gt, routes. split; [done|]. by rewrite (Hta name tok Htok).
Qed.

Lemma net_run_inv allowed n n' : rtc (net_step allowed) n n' → net_inv n → net_inv n'.
Proof. induction 1; eauto using net_step_inv. Qed.

Lemma net_init_inv w c : represents c stored_empty → net_inv (MkNet (shell_new w) c stored_empty []).
Proof.
  intros Hc. split; simpl; [|done|split; apply map_Forall_empty|constructor|].
  - split; simpl; [done|..]; intros *; by rewrite lookup_empty.
  - intros name. unfold gateway_inv. simpl. by rewrite !lookup_empty.
Qed.

(** A settled state serves what is stored. *)
Lemma net_settled n name :
  net_inv n → n_queue n = [] →
  match st_gateways (n_stored n) !! name with
  | Some gw => serves (n_shell n) name gw (stored_routes (n_stored n) name)
  | None => sh_store (n_shell n) !! name = None
  end.
Proof.
  intros [Hs Hc Hb Hq Hg] Hempty. specialize (Hg name). unfold gateway_inv in Hg. rewrite Hempty in Hg. simpl in Hg.
  destruct (st_gateways (n_stored n) !! name) as [gw|]; [|done].
  destruct Hg as (token&gt&routes&Htok&Hgt&Hgw&Hr&[->|[r Hin]]); [|by apply elem_of_nil in Hin].
  exists token, gt. split; [done|]. split; [done|]. split; [|done]. split; [by exists gt|].
  split; [by eapply (sw_live _ Hs)|apply Hs].
Qed.

(** The events that are left can be handled, and then the state is settled. *)
Lemma net_settles n :
  net_inv n →
  ∃ s', handle_all x (n_queue n) (n_shell n, n_conf n) = Some (s', n_conf n) ∧
    ∀ name, match st_gateways (n_stored n) !! name with
            | Some gw => serves s' name gw (stored_routes (n_stored n) name)
            | None => sh_store s' !! name = None
            end.
Proof.
  destruct n as [s c st q]. simpl. revert s. induction q as [|ev q IH]; intros s Hinv.
  - exists s. split; [done|]. intros name. by apply (net_settled (MkNet s c st [])).
  - destruct (net_handle_inv s c st ev q Hinv) as (s1&Hh&Hinv1). destruct (IH s1 Hinv1) as (s'&Hall&Hserve).
    exists s'. split; [|done]. simpl. by rewrite Hh.
Qed.

(** *** Gateways that are created once *)

(** Whether the store may have [name] after the events of [q], and whether no event of [q]
    creates it when the store may have it. *)
Definition present_after (t : ConfigEventType) : bool := match t with EvDelete => false | _ => true end.
Fixpoint gateway_present (present : bool) (name : string) (q : list ListenEvent) : bool :=
  match q with
  | [] => present
  | ev :: q =>
      match ev_config ev with
      | CtGateway g => gateway_present (if decide (g = name) then present_after (ev_type ev) else present) name q
      | _ => gateway_present present name q
      end
  end.
Fixpoint creates_ok (present : bool) (name : string) (q : list ListenEvent) : Prop :=
  match q with
  | [] => True
  | ev :: q =>
      match ev_config ev with
      | CtGateway g =>
          if decide (g = name)
          then (ev_type ev = EvCreate → present = false) ∧ creates_ok (present_after (ev_type ev)) name q
          else creates_ok present name q
      | _ => creates_ok present name q
      end
  end.

Lemma gateway_present_mono (p p' : bool) name q :
  (p' = true → p = true) → gateway_present p' name q = true → gateway_present p name q = true.
Proof.
  revert p p'. induction q as [|ev q IH]; intros p p' Hp; simpl; [done|].
  destruct (ev_config ev) as [g| | |]; try by apply IH. case_decide; apply IH; auto.
Qed.
Lemma creates_ok_mono (p p' : bool) name q : (p' = true → p = true) → creates_ok p name q → creates_ok p' name q.
Proof.
  revert p p'. induction q as [|ev q IH]; intros p p' Hp; simpl; [done|].
  destruct (ev_config ev) as [g| | |]; try by apply IH. case_decide; [|by apply IH].
  intros [Hc Hq]. split; [|done]. intros Ht. destruct p'; [|done]. rewrite Hp in Hc by done. by apply Hc in Ht.
Qed.
Lemma gateway_present_snoc p name q ev :
  gateway_present p name (q ++ [ev]) =
  match ev_config ev with
  | CtGateway g => if decide (g = name) then present_after (ev_type ev) else gateway_present p name q
  | _ => gateway_present p name q
  end.
Proof.
  revert p. induction q as [|e q IH]; intros p; simpl.
  - destruct (ev_config ev) as [g| | |]; try done.
  - destruct (ev_config e); apply IH.
Qed.
Lemma creates_ok_snoc p name q ev :
  creates_ok p name (q ++ [ev]) ↔ creates_ok p name q ∧
  match ev_config ev with
  | CtGateway g => g = name → ev_type ev = EvCreate → gateway_present p name q = false
  | _ => True
  end.
Proof.
  revert p. induction q as [|e q IH]; intros p; simpl.
  - destruct (ev_config ev) as [g| | |]; try tauto. case_decide; naive_solver.
  - destruct (ev_config e) as [g'| | |]; try apply IH. case_decide; [|apply IH].
    rewrite IH. tauto.
Qed.

Definition stored_in s (name : string) : bool := bool_decide (is_Some (sh_store s !! name)).

Record leak_inv (n : Net) : Prop := {
  li_leak : no_leak (n_shell n);
  li_creates name : creates_ok (stored_in (n_shell n) name) name (n_queue n);
  li_present name :
    gateway_present (stored_in (n_shell n) name) name (n_queue n) = true → is_Some (st_gateways (n_stored n) !! name);
}.

(** The oldest event, if it is one about [name], tells whether the store may have the
    name; if not, the store keeps it as it is. *)
Definition presence_step s s' (ev : ListenEvent) : Prop :=
  ∀ name, match ev_config ev with
          | CtGateway g => if decide (g = name) then stored_in s' name = true → present_after (ev_type ev) = true
                           else stored_in s' name = stored_in s name
          | _ => stored_in s' name = stored_in s name
          end.

Lemma leak_inv_handle s s' c c' st ev q :
  leak_inv (MkNet s c st (ev :: q)) → presence_step s s' ev → no_leak s' → leak_inv (MkNet s' c' st q).
Proof.
  intros [Hl Hcr Hpr] Hstep Hl'. simpl in *. split; simpl; [done|..]; intros name;
    specialize (Hcr name); specialize (Hpr name); specialize (Hstep name);
    destruct (ev_config ev) as [g| | |]; try (by rewrite Hstep).
  all: case_decide; try (by rewrite Hstep).
  - destruct Hcr as [_ Hcr]. by eapply creates_ok_mono.
  - intros Hp. apply Hpr. by eapply gateway_present_mono.
Qed.

Lemma leak_inv_shell s s' c st q :
  leak_inv (MkNet s c st q) → sh_store s' = sh_store s → no_leak s' → leak_inv (MkNet s' c st q).
Proof.
  intros [Hl Hcr Hpr] Hst Hl'. simpl in *. unfold stored_in in *. split; simpl; [done|..]; intros name; unfold stored_in;
    rewrite Hst; [apply Hcr|apply Hpr].
Qed.

Lemma stored_in_eq s s' name : sh_store s' !! name = sh_store s !! name → stored_in s' name = stored_in s name.
Proof. unfold stored_in. by intros ->. Qed.

Lemma net_handle_leak s c st ev q s' c' :
  net_inv (MkNet s c st (ev :: q)) → leak_inv (MkNet s c st (ev :: q)) →
  handle x ev (s, c) = Some (s', c') → leak_inv (MkNet s' c' st q).
Proof.
  intros [Hs Hc Hb Hq _] Hli Hh. simpl in *. apply Forall_cons in Hq as [Hev _].
  destruct ev as [t [g|g r|id|]]; [| | |done].
  - destruct (handle_gateway t g s c st Hs Hc Hb) as (s2&Hh2&_&Hk&Hl&Hdel&_). simplify_eq.
    eapply leak_inv_handle; [exact Hli| |].
    + intros name. simpl. case_decide as Hn; subst; [|by apply stored_in_eq, (ok_store _ _ _ Hk)].
      intros Hin. destruct t; [done..|]. unfold stored_in in Hin. rewrite Hdel in Hin; done.
    + apply Hl; [by apply Hli|]. intros ->. pose proof (li_creates _ Hli g) as Hcr. simpl in Hcr.
      rewrite decide_True in Hcr by done. destruct Hcr as [Hcr _]. specialize (Hcr eq_refl).
      apply bool_decide_eq_false in Hcr. by apply eq_None_not_Some.
  - destruct (handle_route t g r s c st Hs Hc Hb) as (s2&Hh2&_&_&Hst&Hl&_). simplify_eq.
    eapply leak_inv_handle; [exact Hli| |by apply Hl, Hli].
    intros name. simpl. apply stored_in_eq. by rewrite Hst.
  - destruct (handle_plugin t id s c st Hc) as [w Hh2]. simplify_eq.
    eapply leak_inv_handle; [exact Hli|done|apply Hli].
Qed.

Lemma edit_leak n e c' :
  edit_fresh (n_stored n) e → leak_inv n →
  leak_inv (MkNet (n_shell n) c' (edit_stored (n_stored n) e) (n_queue n ++ [edit_event e])).
Proof.
  intros Hf [Hl Hcr Hpr]. split; simpl; [done|..]; intros name; specialize (Hcr name); specialize (Hpr name).
  - apply creates_ok_snoc. split; [done|]. destruct e as [[] g gw| | | | |]; simpl; try done.
    intros -> _. simpl in Hf. destruct (gateway_present _ _ _); [|done]. destruct (Hpr eq_refl). congruence.
  - rewrite gateway_present_snoc. destruct (n_stored n) as [gs rs ps].
    destruct e as [[] g gw| | |g| |]; simpl in *; try done; case_decide as Hn; subst; try done.
    1, 3: intros _; rewrite lookup_insert_eq; by eexists.
    1, 2: intros Hp; rewrite lookup_insert_ne by done; auto.
    intros Hp. rewrite lookup_delete_ne by done. auto.
Qed.

Lemma task_end_leak token s : no_leak s → no_leak (task_end token s).
Proof.
  intros Hl. unfold task_end. destruct (sh_tasks s !! token) as [t|]; [|done].
  destruct (drop_router_frame (task_router t) (set_tasks (delete token (sh_tasks s)) s)) as [w ->].
  intros tok. simpl. intros [t' [_ Ht]%lookup_delete_Some]. apply Hl. by exists t'.
Qed.

Lemma net_run_leak n n' : rtc (net_step edit_fresh) n n' → net_inv n → leak_inv n → leak_inv n'.
Proof.
  induction 1 as [|n n1 n2 Hstep Hrun IH]; [done|]. intros Hinv Hli.
  apply IH; [by eapply net_step_inv|]. destruct Hstep as [n e c' Hf He Hc'|n ev q s' c' Hq Hh|n w|n token Hcan].
  - by apply edit_leak.
  - destruct n as [s c st q0]. simpl in *. subst q0. by eapply net_handle_leak.
  - destruct n. eapply leak_inv_shell; [exact Hli|done|apply Hli].
  - destruct n as [s c st q0]. simpl in *. eapply leak_inv_shell; [exact Hli| |by apply task_end_leak, Hli].
    by apply (task_end_wf token s (ni_shell _ Hinv)).
Qed.
End effects.

(** ** Properties of the running gateways *)


(** A gateway that is put into a Redis backend, and the shell before and after its event. *)
Definition ex_redis : Redis (H:=ref_format) := (create_config_item_gateway "gw" ex_gateway redis_empty).2.
Definition ex_edit : Edit := PutGateway false "gw" ex_gateway.
Definition ex_queued : Net (C:=Redis (H:=ref_format)) :=
  MkNet (shell_new ex_world) ex_redis (edit_stored stored_empty ex_edit) [edit_event ex_edit].

Lemma ex_queued_run allowed :
  allowed stored_empty ex_edit →
  rtc (net_step ex_layer represents allowed) (MkNet (shell_new ex_world) redis_empty stored_empty []) ex_queued.
Proof.
  intros Ha. apply rtc_once.
  apply (net_edit ex_layer represents allowed (MkNet (shell_new ex_world) redis_empty stored_empty []) ex_edit ex_redis).
  - exact Ha.
  - by exists [].
  - destruct (edit_op_represents redis_empty stored_empty ex_edit represents_empty) as (r&Hop&Hr&_).
    + repeat constructor; by eexists.
    + unfold ex_redis. change (create_config_item_gateway "gw" ex_gateway redis_empty) with (edit_op ex_edit redis_empty).
      by rewrite Hop.
Qed.


(** C7: as long as gateways are created under names that have none, no task is ever
    orphaned: every task that accepts connections is the one the store has for its name, so
    a gateway has one at most, and once the events are handled the live tasks are exactly
    those of the stored gateways. *)
Theorem live_tasks_are_stored `{HttpLib} `{!RuntimeLaws RT} `{!Client} `{!FileSystem} `{!StdOrderLaws SO} `{!MatchParsers}
    `{!TlsLib} (x : BoxLayer) {C} `{!Retrieve C} (represents : C → Stored → Prop) `{!Readable C represents} w c n
  (Hc : represents c stored_empty)
  (Hrun : rtc (net_step x represents edit_fresh) (MkNet (shell_new w) c stored_empty []) n) token
  (Hlive : live (n_shell n) token) :
  ∃ name, sh_store (n_shell n) !! name = Some token ∧
    (∀ name', sh_store (n_shell n) !! name' = Some token → name' = name) ∧
    (n_queue n = [] → is_Some (st_gateways (n_stored n) !! name)).
Proof.
  assert (net_inv x represents (MkNet (shell_new w) c stored_empty [])) as Hi0 by by apply net_init_inv.
  assert (leak_inv (MkNet (shell_new w) c stored_empty [])) as Hl0.
  { split; simpl; [|done|].
    - intros tok. simpl. rewrite lookup_empty. by intros [? ?].
    - intros name. unfold stored_in. simpl. rewrite lookup_empty. by intros []%bool_decide_eq_true_1. }
  pose proof (net_run_inv x represents edit_fresh _ n Hrun Hi0) as [Hs _ _ _ Hg].
  pose proof (net_run_leak x represents _ n Hrun Hi0 Hl0) as [Hl _ _].
  destruct Hlive as (Hin&Hcan&_). destruct (Hl token Hin) as [?|[name Hname]]; [done|].
  exists name. split_and!; [done|intros name' Hn'; by eapply (sw_inj _ _ Hs)|].
  intros Hq. specialize (Hg name). unfold gateway_inv in Hg. rewrite Hq in Hg. simpl in Hg.
  destruct (st_gateways (n_stored n) !! name); [by eexists|congruence].
Qed.

Lemma live_tasks_are_stored_witness :
  ∃ s' token, live s' token ∧ sh_store s' !! "gw" = Some token.
Proof.
  pose proof (ex_queued_run edit_fresh eq_refl) as Hrun.
  assert (net_inv ex_layer represents ex_queued) as Hinv.
  { refine (net_run_inv ex_layer represents edit_fresh _ _ Hrun _). apply net_init_inv, represents_empty. }
  destruct (net_handle_inv ex_layer represents _ _ _ _ _ Hinv) as (s'&Hs'&Hinv').
  destruct (net_settled ex_layer represents _ "gw" Hinv' eq_refl) as (token&t&_&_&Hlive&_).
  exists s', token. split; [exact Hlive|].
  destruct (live_tasks_are_stored ex_layer represents ex_world redis_empty
    (MkNet s' ex_redis (edit_stored stored_empty ex_edit) []) represents_empty) with (token := token) as (name&Hn&_&Hst).
  - eapply rtc_r; [exact Hrun|]. by apply (net_handle ex_layer represents _ ex_queued (edit_event ex_edit) []).
  - exact Hlive.
  - destruct (Hst eq_refl) as [gw Hgw]. destruct (decide (name = "gw")) as [<-|Hne]; [exact Hn|].
    cbn in Hgw. rewrite lookup_insert_ne in Hgw by congruence. rewrite lookup_empty in Hgw. discriminate Hgw.
Defined.

(** The event of a gateway that is created again: the new gateway is saved over the running
    one, which is not shut down: its task goes on accepting connections and nothing in the
    store can reach it any more. *)
Lemma recreated_gateway_leaks `{HttpLib} `{!RuntimeLaws RT} `{!Client} `{!FileSystem} `{!StdOrderLaws SO} `{!MatchParsers}
    `{!TlsLib} (x : BoxLayer) {C} `{!Retrieve C} (represents : C → Stored → Prop) `{!Readable C represents}
    s c st name gw token
  (Hs : shell_wf x s) (Hc : represents c st) (Hb : buildable st) (Hgw : st_gateways st !! name = Some gw)
  (Hold : sh_store s !! name = Some token) :
  ∃ s', handle x (MkListenEvent EvCreate (CtGateway name)) (s, c) = Some (s', c) ∧
    live s' token ∧ ∀ name', sh_store s' !! name' ≠ Some token.
Proof.
  destruct (create_gateway_ok x (MkItem gw (stored_routes st name)) s) as (new&t&w&redis&Hcreate&Hnew&_).
  { apply stored_routes_NoDup. }
  { by apply stored_routes_buildable. }
  { by apply (proj1 Hb name). }
  eexists. split.
  { unfold handle, handler, retrieved. cbn [ev_config ev_type snd fst]. rewrite (read_item c st name Hc).
    unfold stored_item. rewrite Hgw. cbn. unfold create_and_save. rewrite Hcreate. reflexivity. }
  destruct (sw_task _ _ Hs _ _ Hold) as [t0 Ht0].
  assert (token ≠ new) as Hne by congruence. split.
  - split_and!; simpl.
    + rewrite lookup_insert_ne by done. by exists t0.
    + by eapply (sw_live _ _ Hs).
    + apply Hs.
  - intros name'. simpl. destruct (decide (name = name')) as [<-|Hn].
    + rewrite lookup_insert_eq. congruence.
    + rewrite lookup_insert_ne by done. intros Hn'. apply Hn. by eapply (sw_inj _ _ Hs).
Qed.
