(* ===== verification/AiTypes.v ===== *)
(** * AI gateway service: data and settings

    [binary/ai-gateway-service/src/app/types.rs] and [config.rs]: the settings of the service
    with their built-in defaults, the configuration file, and how the two and the command line
    are merged; the metrics; errors, jobs, results and rate limits.

    A setting of the TOML file that is absent is [None]; the TOML and clap parsers are not
    modelled: [merge_args] takes the parsed arguments and what the command line or the
    environment gave explicitly. *)

From S2P Require Export Trim Ip.
Local Open Scope string_scope.
Local Open Scope list_scope.
Local Open Scope Z_scope.

(** ** Settings: [Args] *)

Record Args := MkArgs {
  args_host : IpAddr;
  args_port : Z;
  redis_url : string;
  stream_key : string;
  high_priority_stream_key : string;
  low_priority_stream_key : string;
  enable_priority_streams : bool;
  queue_default_priority : string;
  queue_high_models : string;
  queue_low_models : string;
  queue_high_tenants : string;
  queue_low_tenants : string;
  queue_high_weight : Z;
  queue_normal_weight : Z;
  queue_low_weight : Z;
  stream_max_len : Z;
  consumer_group : string;
  consumer_name : string;
  job_dlq_stream : string;
  callback_retry_stream : string;
  callback_retry_group : string;
  callback_dlq_stream : string;
  callback_max_retry_attempts : Z;
  callback_retry_initial_delay_ms : Z;
  callback_retry_max_delay_ms : Z;
  callback_retry_reclaim_idle_secs : Z;
  result_key_prefix : string;
  result_channel_prefix : string;
  result_ttl_secs : Z;
  rate_limit_rps : Z;
  rate_limit_burst : Z;
  rate_limit_cost : Z;
  tenant_rate_limit_prefix : string;
  wait_timeout_secs : Z;
  worker_concurrency : Z;
  admin_cors_origins : string;
  upstream_base_url : option string;
  max_body_bytes : Z;
  inline_threshold : Z;
  body_read_concurrency : Z;
  reclaim_interval_secs : Z;
  reclaim_min_idle_secs : Z;
  job_process_lease_secs : Z;
  job_max_delivery_attempts : Z;
  require_https_callback : bool;
  object_store_endpoint : option string;
  object_store_bucket : string;
  object_store_prefix : string;
  object_multipart_part_size : Z;
  object_store_auth_header : option string;
}.

Definition default_host : IpAddr := V4 0.
Definition default_port : Z := 18080.
Definition default_redis_url : string := "redis://127.0.0.1/".
Definition default_stream_key : string := "ai:jobs".
Definition default_high_priority_stream_key : string := "ai:jobs:high".
Definition default_low_priority_stream_key : string := "ai:jobs:low".
Definition default_enable_priority_streams : bool := true.
Definition default_queue_default_priority : string := "normal".
Definition default_queue_high_models : string := "".
Definition default_queue_low_models : string := "".
Definition default_queue_high_tenants : string := "".
Definition default_queue_low_tenants : string := "".
Definition default_queue_high_weight : Z := 3.
Definition default_queue_normal_weight : Z := 1.
Definition default_queue_low_weight : Z := 1.
Definition default_stream_max_len : Z := 100000.
Definition default_consumer_group : string := "ai-gateway-workers".
Definition default_consumer_name : string := "ai-gateway-service".
Definition default_job_dlq_stream : string := "ai:job-dlq".
Definition default_callback_retry_stream : string := "ai:callback-retry".
Definition default_callback_retry_group : string := "ai-gateway-callbacks".
Definition default_callback_dlq_stream : string := "ai:callback-dlq".
Definition default_callback_max_retry_attempts : Z := 5.
Definition default_callback_retry_initial_delay_ms : Z := 1000.
Definition default_callback_retry_max_delay_ms : Z := 60000.
Definition default_callback_retry_reclaim_idle_secs : Z := 60.
Definition default_result_key_prefix : string := "result:".
Definition default_result_channel_prefix : string := "result:".
Definition default_result_ttl_secs : Z := 120.
Definition default_rate_limit_rps : Z := 100.
Definition default_rate_limit_burst : Z := 200.
Definition default_rate_limit_cost : Z := 1.
Definition default_tenant_rate_limit_prefix : string := "ai:tenant:ratelimit:".
Definition default_wait_timeout_secs : Z := 60.
Definition default_worker_concurrency : Z := 10.
Definition default_admin_cors_origins : string := "".
Definition default_max_body_bytes : Z := 32 * 1024 * 1024.
Definition default_inline_threshold : Z := 128 * 1024.
Definition default_body_read_concurrency : Z := 200.
Definition default_reclaim_interval_secs : Z := 30.
Definition default_reclaim_min_idle_secs : Z := 30.
Definition default_job_process_lease_secs : Z := 120.
Definition default_job_max_delivery_attempts : Z := 5.
Definition default_require_https_callback : bool := true.
Definition default_object_store_bucket : string := "ai-gateway-body".
Definition default_object_store_prefix : string := "bodies".
Definition default_object_multipart_part_size : Z := 5 * 1024 * 1024.

(** [impl Default for Args] *)
Definition args_default : Args := {|
  args_host := default_host;
  args_port := default_port;
  redis_url := default_redis_url;
  stream_key := default_stream_key;
  high_priority_stream_key := default_high_priority_stream_key;
  low_priority_stream_key := default_low_priority_stream_key;
  enable_priority_streams := default_enable_priority_streams;
  queue_default_priority := default_queue_default_priority;
  queue_high_models := default_queue_high_models;
  queue_low_models := default_queue_low_models;
  queue_high_tenants := default_queue_high_tenants;
  queue_low_tenants := default_queue_low_tenants;
  queue_high_weight := default_queue_high_weight;
  queue_normal_weight := default_queue_normal_weight;
  queue_low_weight := default_queue_low_weight;
  stream_max_len := default_stream_max_len;
  consumer_group := default_consumer_group;
  consumer_name := default_consumer_name;
  job_dlq_stream := default_job_dlq_stream;
  callback_retry_stream := default_callback_retry_stream;
  callback_retry_group := default_callback_retry_group;
  callback_dlq_stream := default_callback_dlq_stream;
  callback_max_retry_attempts := default_callback_max_retry_attempts;
  callback_retry_initial_delay_ms := default_callback_retry_initial_delay_ms;
  callback_retry_max_delay_ms := default_callback_retry_max_delay_ms;
  callback_retry_reclaim_idle_secs := default_callback_retry_reclaim_idle_secs;
  result_key_prefix := default_result_key_prefix;
  result_channel_prefix := default_result_channel_prefix;
  result_ttl_secs := default_result_ttl_secs;
  rate_limit_rps := default_rate_limit_rps;
  rate_limit_burst := default_rate_limit_burst;
  rate_limit_cost := default_rate_limit_cost;
  tenant_rate_limit_prefix := default_tenant_rate_limit_prefix;
  wait_timeout_secs := default_wait_timeout_secs;
  worker_concurrency := default_worker_concurrency;
  admin_cors_origins := default_admin_cors_origins;
  upstream_base_url := None;
  max_body_bytes := default_max_body_bytes;
  inline_threshold := default_inline_threshold;
  body_read_concurrency := default_body_read_concurrency;
  reclaim_interval_secs := default_reclaim_interval_secs;
  reclaim_min_idle_secs := default_reclaim_min_idle_secs;
  job_process_lease_secs := default_job_process_lease_secs;
  job_max_delivery_attempts := default_job_max_delivery_attempts;
  require_https_callback := default_require_https_callback;
  object_store_endpoint := None;
  object_store_bucket := default_object_store_bucket;
  object_store_prefix := default_object_store_prefix;
  object_multipart_part_size := default_object_multipart_part_size;
  object_store_auth_header := None;
|}.

(** ** The configuration file: [config.rs] *)

Definition join_csv (values : list string) : string := str_join "," values.

Record ServerSection := MkServerSection { srv_host : option string; srv_port : option Z }.
Record RedisSection := MkRedisSection { red_url : option string }.
Record UpstreamSection := MkUpstreamSection { ups_base_url : option string }.
Record QueueSection := MkQueueSection {
  que_stream : option string; que_high_stream : option string; que_low_stream : option string;
  que_enable_priority_streams : option bool; que_default_priority : option string;
  que_high_models : option (list string); que_low_models : option (list string);
  que_high_tenants : option (list string); que_low_tenants : option (list string);
  que_high_weight : option Z; que_normal_weight : option Z; que_low_weight : option Z;
  que_max_len : option Z; que_group : option string; que_consumer : option string;
  que_job_dlq_stream : option string;
}.
Record RateLimitSection := MkRateLimitSection {
  rls_rps : option Z; rls_burst : option Z; rls_cost : option Z; rls_tenant_prefix : option string;
}.
Record WorkerSection := MkWorkerSection {
  wrk_concurrency : option Z; wrk_wait_timeout_secs : option Z; wrk_reclaim_interval_secs : option Z;
  wrk_reclaim_min_idle_secs : option Z; wrk_job_process_lease_secs : option Z;
  wrk_job_max_delivery_attempts : option Z;
}.
Record CallbackSection := MkCallbackSection {
  cbk_require_https : option bool; cbk_max_retry_attempts : option Z;
  cbk_retry_initial_delay_ms : option Z; cbk_retry_max_delay_ms : option Z;
  cbk_retry_reclaim_idle_secs : option Z; cbk_retry_stream : option string;
  cbk_retry_group : option string; cbk_dlq_stream : option string;
}.
Record ResultSection := MkResultSection {
  res_key_prefix : option string; res_channel_prefix : option string; res_ttl_secs : option Z;
}.
Record BodySection := MkBodySection {
  bod_max_bytes : option Z; bod_inline_threshold : option Z; bod_read_concurrency : option Z;
}.
Record ObjectStoreSection := MkObjectStoreSection {
  obj_endpoint : option string; obj_bucket : option string; obj_prefix : option string;
  obj_multipart_part_size : option Z; obj_auth_header : option string;
}.
Record AdminSection := MkAdminSection { adm_cors_origins : option (list string) }.
Record ServiceConfigFile := MkServiceConfigFile {
  cf_server : ServerSection;
  cf_redis : RedisSection;
  cf_upstream : UpstreamSection;
  cf_queue : QueueSection;
  cf_rate_limit : RateLimitSection;
  cf_worker : WorkerSection;
  cf_callback : CallbackSection;
  cf_result : ResultSection;
  cf_body : BodySection;
  cf_object_store : ObjectStoreSection;
  cf_admin : AdminSection;
}.

Definition into_args (f : ServiceConfigFile) : Args := {|
  args_host :=
    match srv_host (cf_server f) with Some host => default default_host (parse_ip host) | None => default_host end;
  args_port := default default_port (srv_port (cf_server f));
  redis_url := default default_redis_url (red_url (cf_redis f));
  stream_key := default default_stream_key (que_stream (cf_queue f));
  high_priority_stream_key := default default_high_priority_stream_key (que_high_stream (cf_queue f));
  low_priority_stream_key := default default_low_priority_stream_key (que_low_stream (cf_queue f));
  enable_priority_streams := default default_enable_priority_streams (que_enable_priority_streams (cf_queue f));
  queue_default_priority := default default_queue_default_priority (que_default_priority (cf_queue f));
  queue_high_models := default default_queue_high_models (join_csv <$> que_high_models (cf_queue f));
  queue_low_models := default default_queue_low_models (join_csv <$> que_low_models (cf_queue f));
  queue_high_tenants := default default_queue_high_tenants (join_csv <$> que_high_tenants (cf_queue f));
  queue_low_tenants := default default_queue_low_tenants (join_csv <$> que_low_tenants (cf_queue f));
  queue_high_weight := default default_queue_high_weight (que_high_weight (cf_queue f));
  queue_normal_weight := default default_queue_normal_weight (que_normal_weight (cf_queue f));
  queue_low_weight := default default_queue_low_weight (que_low_weight (cf_queue f));
  stream_max_len := default default_stream_max_len (que_max_len (cf_queue f));
  consumer_group := default default_consumer_group (que_group (cf_queue f));
  consumer_name := default default_consumer_name (que_consumer (cf_queue f));
  job_dlq_stream := default default_job_dlq_stream (que_job_dlq_stream (cf_queue f));
  callback_retry_stream := default default_callback_retry_stream (cbk_retry_stream (cf_callback f));
  callback_retry_group := default default_callback_retry_group (cbk_retry_group (cf_callback f));
  callback_dlq_stream := default default_callback_dlq_stream (cbk_dlq_stream (cf_callback f));
  callback_max_retry_attempts := default default_callback_max_retry_attempts (cbk_max_retry_attempts (cf_callback f));
  callback_retry_initial_delay_ms :=
    default default_callback_retry_initial_delay_ms (cbk_retry_initial_delay_ms (cf_callback f));
  callback_retry_max_delay_ms := default default_callback_retry_max_delay_ms (cbk_retry_max_delay_ms (cf_callback f));
  callback_retry_reclaim_idle_secs :=
    default default_callback_retry_reclaim_idle_secs (cbk_retry_reclaim_idle_secs (cf_callback f));
  result_key_prefix := default default_result_key_prefix (res_key_prefix (cf_result f));
  result_channel_prefix := default default_result_channel_prefix (res_channel_prefix (cf_result f));
  result_ttl_secs := default default_result_ttl_secs (res_ttl_secs (cf_result f));
  rate_limit_rps := default default_rate_limit_rps (rls_rps (cf_rate_limit f));
  rate_limit_burst := default default_rate_limit_burst (rls_burst (cf_rate_limit f));
  rate_limit_cost := default default_rate_limit_cost (rls_cost (cf_rate_limit f));
  tenant_rate_limit_prefix := default default_tenant_rate_limit_prefix (rls_tenant_prefix (cf_rate_limit f));
  wait_timeout_secs := default default_wait_timeout_secs (wrk_wait_timeout_secs (cf_worker f));
  worker_concurrency := default default_worker_concurrency (wrk_concurrency (cf_worker f));
  admin_cors_origins := default default_admin_cors_origins (join_csv <$> adm_cors_origins (cf_admin f));
  upstream_base_url := ups_base_url (cf_upstream f);
  max_body_bytes := default default_max_body_bytes (bod_max_bytes (cf_body f));
  inline_threshold := default default_inline_threshold (bod_inline_threshold (cf_body f));
  body_read_concurrency := default default_body_read_concurrency (bod_read_concurrency (cf_body f));
  reclaim_interval_secs := default default_reclaim_interval_secs (wrk_reclaim_interval_secs (cf_worker f));
  reclaim_min_idle_secs := default default_reclaim_min_idle_secs (wrk_reclaim_min_idle_secs (cf_worker f));
  job_process_lease_secs := default default_job_process_lease_secs (wrk_job_process_lease_secs (cf_worker f));
  job_max_delivery_attempts := default default_job_max_delivery_attempts (wrk_job_max_delivery_attempts (cf_worker f));
  require_https_callback := default default_require_https_callback (cbk_require_https (cf_callback f));
  object_store_endpoint := obj_endpoint (cf_object_store f);
  object_store_bucket := default default_object_store_bucket (obj_bucket (cf_object_store f));
  object_store_prefix := default default_object_store_prefix (obj_prefix (cf_object_store f));
  object_multipart_part_size :=
    default default_object_multipart_part_size (obj_multipart_part_size (cf_object_store f));
  object_store_auth_header := obj_auth_header (cf_object_store f);
|}.

Definition merge_args (file_args : option Args) (cli_args : Args) (is_explicit : string → bool) : Args :=
  let file := default args_default file_args in
  let pick {A} (id : string) (field : Args → A) : A := if is_explicit id then field cli_args else field file in {|
  args_host := pick "host" args_host;
  args_port := pick "port" args_port;
  redis_url := pick "redis_url" redis_url;
  stream_key := pick "stream_key" stream_key;
  high_priority_stream_key := pick "high_priority_stream_key" high_priority_stream_key;
  low_priority_stream_key := pick "low_priority_stream_key" low_priority_stream_key;
  enable_priority_streams := pick "enable_priority_streams" enable_priority_streams;
  queue_default_priority := pick "queue_default_priority" queue_default_priority;
  queue_high_models := pick "queue_high_models" queue_high_models;
  queue_low_models := pick "queue_low_models" queue_low_models;
  queue_high_tenants := pick "queue_high_tenants" queue_high_tenants;
  queue_low_tenants := pick "queue_low_tenants" queue_low_tenants;
  queue_high_weight := pick "queue_high_weight" queue_high_weight;
  queue_normal_weight := pick "queue_normal_weight" queue_normal_weight;
  queue_low_weight := pick "queue_low_weight" queue_low_weight;
  stream_max_len := pick "stream_max_len" stream_max_len;
  consumer_group := pick "consumer_group" consumer_group;
  consumer_name := pick "consumer_name" consumer_name;
  job_dlq_stream := pick "job_dlq_stream" job_dlq_stream;
  callback_retry_stream := pick "callback_retry_stream" callback_retry_stream;
  callback_retry_group := pick "callback_retry_group" callback_retry_group;
  callback_dlq_stream := pick "callback_dlq_stream" callback_dlq_stream;
  callback_max_retry_attempts := pick "callback_max_retry_attempts" callback_max_retry_attempts;
  callback_retry_initial_delay_ms := pick "callback_retry_initial_delay_ms" callback_retry_initial_delay_ms;
  callback_retry_max_delay_ms := pick "callback_retry_max_delay_ms" callback_retry_max_delay_ms;
  callback_retry_reclaim_idle_secs := pick "callback_retry_reclaim_idle_secs" callback_retry_reclaim_idle_secs;
  result_key_prefix := pick "result_key_prefix" result_key_prefix;
  result_channel_prefix := pick "result_channel_prefix" result_channel_prefix;
  result_ttl_secs := pick "result_ttl_secs" result_ttl_secs;
  rate_limit_rps := pick "rate_limit_rps" rate_limit_rps;
  rate_limit_burst := pick "rate_limit_burst" rate_limit_burst;
  rate_limit_cost := pick "rate_limit_cost" rate_limit_cost;
  tenant_rate_limit_prefix := pick "tenant_rate_limit_prefix" tenant_rate_limit_prefix;
  wait_timeout_secs := pick "wait_timeout_secs" wait_timeout_secs;
  worker_concurrency := pick "worker_concurrency" worker_concurrency;
  admin_cors_origins := pick "admin_cors_origins" admin_cors_origins;
  upstream_base_url := pick "upstream_base_url" upstream_base_url;
  max_body_bytes := pick "max_body_bytes" max_body_bytes;
  inline_threshold := pick "inline_threshold" inline_threshold;
  body_read_concurrency := pick "body_read_concurrency" body_read_concurrency;
  reclaim_interval_secs := pick "reclaim_interval_secs" reclaim_interval_secs;
  reclaim_min_idle_secs := pick "reclaim_min_idle_secs" reclaim_min_idle_secs;
  job_process_lease_secs := pick "job_process_lease_secs" job_process_lease_secs;
  job_max_delivery_attempts := pick "job_max_delivery_attempts" job_max_delivery_attempts;
  require_https_callback := pick "require_https_callback" require_https_callback;
  object_store_endpoint := pick "object_store_endpoint" object_store_endpoint;
  object_store_bucket := pick "object_store_bucket" object_store_bucket;
  object_store_prefix := pick "object_store_prefix" object_store_prefix;
  object_multipart_part_size := pick "object_multipart_part_size" object_multipart_part_size;
  object_store_auth_header := pick "object_store_auth_header" object_store_auth_header;
|}.

Definition resolve_config_path {Path} (explicit default_config_path_beside_executable : option Path) : option Path :=
  match explicit with Some path => Some path | None => default_config_path_beside_executable end.
(** [load] is [ServiceConfigFile::load]: reading and parsing the file. *)
Definition load_args {Path} (load : Path → result ServiceConfigFile string) (explicit_config beside : option Path)
    (cli_args : Args) (is_explicit : string → bool) : result Args string :=
  let? file_args :=
    match resolve_config_path explicit_config beside with
    | Some path => result_map (λ file, Some (into_args file)) (load path)
    | None => Ok None
    end in
  Ok (merge_args file_args cli_args is_explicit).

(** ** Metrics

    The atomic counters by name, and the counters with labels. *)

Inductive Counter :=
| rate_limited_total | enqueue_total | enqueue_queue_total | enqueue_wait_total
| enqueue_priority_high_total | enqueue_priority_normal_total | enqueue_priority_low_total
| enqueue_latency_count | enqueue_latency_sum_ms | enqueue_latency_le_100_ms
| enqueue_latency_le_500_ms | enqueue_latency_le_1000_ms | enqueue_latency_gt_1000_ms
| body_size_le_10kb | body_size_le_128kb | body_size_le_5mb | body_size_gt_5mb | body_size_count
| body_size_sum_bytes | wait_total | wait_timeout_total | callback_failure_total
| callback_retry_total | callback_retry_success_total | callback_retry_dlq_total
| worker_completed_total | worker_failed_total | worker_processing_count
| worker_processing_sum_ms | worker_processing_le_1000_ms | worker_processing_le_5000_ms
| worker_processing_le_30000_ms | worker_processing_gt_30000_ms | reclaimed_total
| job_dlq_total | lease_skip_total | object_offload_total | object_multipart_abort_total.
#[export] Instance Counter_eq_dec : EqDecision Counter.
Proof. solve_decision. Defined.

Record Metrics := MkMetrics { counters : Counter → Z; labeled : gmap string Z }.
Definition metrics_default : Metrics := MkMetrics (λ _, 0) ∅.
(** [fetch_add(n, Relaxed)] *)
Definition fetch_add (c : Counter) (n : Z) (m : Metrics) : Metrics :=
  MkMetrics (λ c', if decide (c' = c) then uwrap 64 (counters m c + n) else counters m c') (labeled m).

(** ** Requests and jobs *)

Record RateLimitResponse := MkRateLimitResponse {
  rr_allowed : bool; rr_remaining_tokens_milli : Z; rr_retry_after_ms : Z }.
Record EnqueueResponse := MkEnqueueResponse {
  er_job_id : string; er_stream_id : string; er_stream_key : string; er_status : string;
  er_poll_url : string; er_status_url : string }.
(** The headers are the entries of a [HashMap] in the order of their visit. *)
Record StoredResult := MkStoredResult {
  sr_job_id : string; sr_status : string; sr_http_status : Z; sr_headers : list (string * string);
  sr_body_base64 : string; sr_completed_at_ms : Z; sr_error : option string }.
Record AcceptedJob := MkAcceptedJob { aj_response : EnqueueResponse; aj_created_at_ms : Z }.

Inductive QueuePolicy := Queue | Wait.
Inductive QueuePriority := High | Normal | Low.
#[export] Instance QueuePolicy_eq_dec : EqDecision QueuePolicy.
Proof. solve_decision. Defined.
#[export] Instance QueuePriority_eq_dec : EqDecision QueuePriority.
Proof. solve_decision. Defined.
Definition policy_as_str (p : QueuePolicy) : string := match p with Queue => "queue" | Wait => "wait" end.
Definition priority_as_str (p : QueuePriority) : string :=
  match p with High => "high" | Normal => "normal" | Low => "low" end.

Record BodyLocation := MkBodyLocation {
  bl_body_base64 : string; bl_object_ref : string; bl_size : Z; bl_storage : string }.
Record CompletedPart := MkCompletedPart { cp_part_number : Z; cp_etag : string }.

(** ** Rate limits *)

Record TenantRateLimit := MkTenantRateLimit { trl_rps : Z; trl_burst : Z; trl_cost : Z }.
Record StoredTenantRateLimit := MkStoredTenantRateLimit {
  str_rps : Z; str_burst : Z; str_cost : Z; str_ttl_secs : option Z }.
Record TenantRateLimitRule := MkTenantRateLimitRule {
  rule_tenant : string; rule_model : option string; rule_path : option string; rule_policy : option string;
  rule_rps : Z; rule_burst : Z; rule_cost : Z; rule_ttl_secs : option Z }.
Record TenantRateLimitRuleView := MkTenantRateLimitRuleView {
  view_key : string; view_rule : TenantRateLimitRule; view_ttl_remaining_secs : option Z }.
Record TenantRateLimitResolveQuery := MkTenantRateLimitResolveQuery {
  q_tenant : string; q_model : option string; q_path : option string; q_policy : option string }.
Record TenantRateLimitResolveView := MkTenantRateLimitResolveView {
  rv_tenant : string; rv_model : string; rv_path : string; rv_policy : string; rv_limit : TenantRateLimit;
  rv_matched_key : option string; rv_fallback_global : bool; rv_candidate_keys : list string }.

(** ** Errors *)

Record ServiceError := MkServiceError { se_status : Z; se_message : string }.
Definition bad_request (message : string) : ServiceError := MkServiceError 400 message.
Definition internal (message : string) : ServiceError := MkServiceError 500 message.
Definition gateway_timeout (message : string) : ServiceError := MkServiceError 504 message.
Definition payload_too_large (message : string) : ServiceError := MkServiceError 413 message.
(** [From<fred::error::Error>] and [From<reqwest::Error>] *)
Definition from_redis_error (value : string) : ServiceError := internal ("redis: " +:+ value).
Definition from_http_error (value : string) : ServiceError := internal ("http: " +:+ value).

(** ** Lemmas: settings *)

(** A setting by its name, of any of the types. *)
Inductive Setting := SIp (ip : IpAddr) | SInt (n : Z) | SText (s : string) | SBool (b : bool) | SOpt (o : option string).
Definition settings : list (string * (Args → Setting)) := [
  ("host", λ a, SIp (args_host a));
  ("port", λ a, SInt (args_port a));
  ("redis_url", λ a, SText (redis_url a));
  ("stream_key", λ a, SText (stream_key a));
  ("high_priority_stream_key", λ a, SText (high_priority_stream_key a));
  ("low_priority_stream_key", λ a, SText (low_priority_stream_key a));
  ("enable_priority_streams", λ a, SBool (enable_priority_streams a));
  ("queue_default_priority", λ a, SText (queue_default_priority a));
  ("queue_high_models", λ a, SText (queue_high_models a));
  ("queue_low_models", λ a, SText (queue_low_models a));
  ("queue_high_tenants", λ a, SText (queue_high_tenants a));
  ("queue_low_tenants", λ a, SText (queue_low_tenants a));
  ("queue_high_weight", λ a, SInt (queue_high_weight a));
  ("queue_normal_weight", λ a, SInt (queue_normal_weight a));
  ("queue_low_weight", λ a, SInt (queue_low_weight a));
  ("stream_max_len", λ a, SInt (stream_max_len a));
  ("consumer_group", λ a, SText (consumer_group a));
  ("consumer_name", λ a, SText (consumer_name a));
  ("job_dlq_stream", λ a, SText (job_dlq_stream a));
  ("callback_retry_stream", λ a, SText (callback_retry_stream a));
  ("callback_retry_group", λ a, SText (callback_retry_group a));
  ("callback_dlq_stream", λ a, SText (callback_dlq_stream a));
  ("callback_max_retry_attempts", λ a, SInt (callback_max_retry_attempts a));
  ("callback_retry_initial_delay_ms", λ a, SInt (callback_retry_initial_delay_ms a));
  ("callback_retry_max_delay_ms", λ a, SInt (callback_retry_max_delay_ms a));
  ("callback_retry_reclaim_idle_secs", λ a, SInt (callback_retry_reclaim_idle_secs a));
  ("result_key_prefix", λ a, SText (result_key_prefix a));
  ("result_channel_prefix", λ a, SText (result_channel_prefix a));
  ("result_ttl_secs", λ a, SInt (result_ttl_secs a));
  ("rate_limit_rps", λ a, SInt (rate_limit_rps a));
  ("rate_limit_burst", λ a, SInt (rate_limit_burst a));
  ("rate_limit_cost", λ a, SInt (rate_limit_cost a));
  ("tenant_rate_limit_prefix", λ a, SText (tenant_rate_limit_prefix a));
  ("wait_timeout_secs", λ a, SInt (wait_timeout_secs a));
  ("worker_concurrency", λ a, SInt (worker_concurrency a));
  ("admin_cors_origins", λ a, SText (admin_cors_origins a));
  ("upstream_base_url", λ a, SOpt (upstream_base_url a));
  ("max_body_bytes", λ a, SInt (max_body_bytes a));
  ("inline_threshold", λ a, SInt (inline_threshold a));
  ("body_read_concurrency", λ a, SInt (body_read_concurrency a));
  ("reclaim_interval_secs", λ a, SInt (reclaim_interval_secs a));
  ("reclaim_min_idle_secs", λ a, SInt (reclaim_min_idle_secs a));
  ("job_process_lease_secs", λ a, SInt (job_process_lease_secs a));
  ("job_max_delivery_attempts", λ a, SInt (job_max_delivery_attempts a));
  ("require_https_callback", λ a, SBool (require_https_callback a));
  ("object_store_endpoint", λ a, SOpt (object_store_endpoint a));
  ("object_store_bucket", λ a, SText (object_store_bucket a));
  ("object_store_prefix", λ a, SText (object_store_prefix a));
  ("object_multipart_part_size", λ a, SInt (object_multipart_part_size a));
  ("object_store_auth_header", λ a, SOpt (object_store_auth_header a))].

(** Every setting has the value of the command line or the environment where that is
    explicit, and otherwise the one of the file or, without a file, the default; and the
    settings are all there is. *)
Lemma merge_args_settings file_args cli_args is_explicit :
  Forall (λ '(id, get),
    get (merge_args file_args cli_args is_explicit) =
    if is_explicit id then get cli_args else get (default args_default file_args)) settings.
Proof. repeat constructor; unfold merge_args; simpl; by destruct (is_explicit _). Qed.
Lemma settings_ext a b : Forall (λ '(_, get), get a = get b) settings → a = b.
Proof.
  intros Hall. destruct a, b.
  repeat (apply Forall_cons in Hall as [Heq Hall]; cbn in Heq; injection Heq as ->). done.
Qed.
(** The default of [--enable-priority-streams] on the command line is [false], but an
    argument that is not explicit is never used: without a file the streams are on. *)
Lemma priority_streams_on cli_args :
  enable_priority_streams (merge_args None cli_args (λ _, false)) = true.
Proof. done. Qed.
