(* ===== verification/AiUtil.v ===== *)
(** * AI gateway service: helpers

    [util.rs] and [metrics.rs]: values of Redis replies, headers, keys, the calendar of
    [format_completed_at_rfc3339], results as responses, and the histograms of the metrics.

    The JSON and header libraries are the interface [AiLib]. A byte string is the text with
    these bytes. *)

From S2P Require Export AiTypes Middleware Json.
Local Open Scope string_scope.
Local Open Scope list_scope.
Local Open Scope Z_scope.

(** [fred::types::Value]; [VOther] stands for the forms the source does not look into. *)
Inductive Value :=
| VNull
| VInteger (n : Z)
| VString (s : string)
| VBytes (b : string)
| VArray (l : list Value)
| VMap (l : list (string * Value))
| VOther.

(** The JSON codecs of the types, and the texts and headers of other libraries. *)
Class AiLib := {
  header_name_try_from : string → option string;
  ser_strings : list (string * string) → result string string;
  de_strings : string → option (list (string * string));
  ser_result : StoredResult → result string string;
  de_result : string → result StoredResult string;
  ser_stored_limit : StoredTenantRateLimit → result string string;
  de_stored_limit : string → option StoredTenantRateLimit;
  de_limit : string → option TenantRateLimit;
  json_from_str : string → option Json;
  json_to_string : Json → result string string;
  value_debug : Value → string;
  parse_method : string → option string;
  (** texts of errors *)
  header_value_error : string → string;
  base64_error : string → string;
  (** [error_for_status]: of the status and the URL *)
  status_error : Z → string → string;
}.

(** ** Header names *)

Definition should_forward_header (name : string) : bool :=
  let name := to_ascii_lowercase name in
  negb (bool_decide (name ∈ ["host"; "connection"; "content-length"; "transfer-encoding"; "x-original-method";
    "x-original-path"; "x-ratelimit-policy"; "x-callback-url"; "x-request-timeout"])).
Definition should_return_upstream_header (name : string) : bool :=
  let name := to_ascii_lowercase name in
  negb (bool_decide (name ∈ ["host"; "connection"; "content-length"; "transfer-encoding"; "keep-alive";
    "proxy-connection"; "upgrade"; "te"; "trailer"; "trailers"])).

(** ** Keys *)

(** The bytes behind the first of a character are dropped: a character that is not allowed
    becomes one underscore. *)
Definition is_continuation (a : ascii) : bool := ((128 <=? byte_val a) && (byte_val a <? 192))%N.
Definition is_key_char (a : ascii) : bool :=
  is_ascii_alphanumeric a || is_char ":" a || is_char "_" a || is_char "-" a || is_char "." a.
Fixpoint sanitize_key (input : string) : string :=
  match input with
  | "" => ""
  | String a s =>
      if is_continuation a then sanitize_key s
      else String (if is_key_char a then a else "_"%char) (sanitize_key s)
  end.

Definition result_key (cfg : Args) (job_id : string) : string := result_key_prefix cfg +:+ job_id.
Definition result_channel (cfg : Args) (job_id : string) : string := result_channel_prefix cfg +:+ job_id.
Definition job_poll_url (job_id : string) : string := "/jobs/" +:+ job_id +:+ "/status".
Definition job_status_url_legacy (job_id : string) : string := "/v1/jobs/" +:+ job_id.
Definition metrics_label (value : string) : string := str_take 64 (sanitize_key value).
Definition body_size_bucket (size : Z) (storage : string) : string :=
  if bool_decide (storage = "object" ∨ storage = "s3") then "s3"
  else if size <=? 10 * 1024 then "inline_small"
  else if size <=? 128 * 1024 then "inline"
  else "inline_large".

(** ** The calendar *)

(** Days since 1970-01-01 as year, month and day. [/] truncates. *)
Definition civil_from_days (z : Z) : Z * Z * Z :=
  let z := z + 719468 in
  let era := Z.quot (if 0 <=? z then z else z - 146096) 146097 in
  let doe := z - era * 146097 in
  let yoe := (doe - doe / 1460 + doe / 36524 - doe / 146096) / 365 in
  let y := yoe + era * 400 in
  let doy := doe - (365 * yoe + yoe / 4 - yoe / 100) in
  let mp := (5 * doy + 2) / 153 in
  let d := doy - (153 * mp + 2) / 5 + 1 in
  let m := if mp <? 10 then mp + 3 else mp - 9 in
  let y := if m <=? 2 then y + 1 else y in
  (y, m, d).

Definition dec_pad (w : nat) (n : Z) : string := pad_zero w (dec_string n).
Definition format_completed_at_rfc3339 (ms : Z) : string :=
  let days := ms / 86400000 in
  let rem_ms := ms mod 86400000 in
  let '(year, month, day) := civil_from_days days in
  dec_pad 4 year +:+ "-" +:+ dec_pad 2 month +:+ "-" +:+ dec_pad 2 day +:+ "T" +:+
  dec_pad 2 (rem_ms / 3600000) +:+ ":" +:+ dec_pad 2 (rem_ms mod 3600000 / 60000) +:+ ":" +:+
  dec_pad 2 (rem_ms mod 60000 / 1000) +:+ "." +:+ dec_pad 3 (rem_ms mod 1000) +:+ "Z".

(** *** The Gregorian calendar, day by day *)

Definition is_leap (y : Z) : bool := (y mod 4 =? 0) && (negb (y mod 100 =? 0) || (y mod 400 =? 0)).
Definition month_days (y m : Z) : Z :=
  if bool_decide (m ∈ [4; 6; 9; 11]) then 30 else if m =? 2 then (if is_leap y then 29 else 28) else 31.
Definition next_day (date : Z * Z * Z) : Z * Z * Z :=
  let '(y, m, d) := date in
  if d <? month_days y m then (y, m, d + 1) else if m <? 12 then (y, m + 1, 1) else (y + 1, 1, 1).

(** ** Fields of a stream entry: a [HashMap] from names to values *)

Notation Fields := (gmap string Value).

Section util.
Context `{HttpLib} `{!Base64} `{!AiLib}.

Definition field_string (fields : Fields) (key : string) : option string :=
  value ← fields !! key;
  match value with
  | VString value => Some value
  | VBytes value => from_utf8 value
  | VInteger value => Some (z_string value)
  | _ => None
  end.
Definition field_bytes (fields : Fields) (key : string) : option string :=
  value ← fields !! key;
  match value with VBytes value | VString value => Some value | _ => None end.
Definition field_u64 (fields : Fields) (key : string) : option Z :=
  value ← fields !! key;
  match value with
  | VInteger value => if 0 <=? value then Some value else None
  | VString value => parse_unsigned 64 value
  | VBytes value => s ← from_utf8 value; parse_unsigned 64 s
  | _ => None
  end.
Definition field_u32 (fields : Fields) (key : string) : option Z :=
  n ← field_u64 fields key; if n <? 2 ^ 32 then Some n else None.

(** ** Headers *)

Definition optional_header (headers : HeaderMap) (name : string) : option string :=
  value ← hm_get headers name;
  value ← hv_to_str value;
  let value := str_trim value in
  if str_is_empty value then None else Some value.
Definition required_header (headers : HeaderMap) (name : string) : result string ServiceError :=
  ok_or (optional_header headers name) (bad_request ("missing required header `" +:+ name +:+ "`")).
(** The values of a [HashMap]: a later value of a name replaces the earlier one. *)
Definition collect_strings (l : list (string * string)) : gmap string string :=
  foldl (λ m kv, <[kv.1 := kv.2]> m) ∅ l.
Definition readable_headers (headers : HeaderMap) : list (string * string) :=
  map_to_list (collect_strings (omap (λ kv, (λ v, (kv.1, v)) <$> hv_to_str kv.2) (hm_iter headers))).
Definition map_err {A E E'} (f : E → E') (r : result A E) : result A E' :=
  match r with Ok a => Ok a | Err e => Err (f e) end.
Definition headers_to_json (headers : HeaderMap) : result string ServiceError :=
  map_err (λ e, internal ("serialize headers: " +:+ e)) (ser_strings (readable_headers headers)).
Definition header_value (value : string) : result string ServiceError :=
  ok_or (hv_from_str value) (internal ("invalid response header value: " +:+ header_value_error value)).

(** ** Results as responses *)

(** A response of the service: its status, headers and body. *)
Record ApiResponse := MkApiResponse { ar_status : Z; ar_headers : HeaderMap; ar_body : string }.
Definition octet_stream : HeaderMap := hm_insert "content-type" "application/octet-stream" hm_empty.
Definition status_from_u16 (n : Z) : option Z := if (100 <=? n) && (n <=? 999) then Some n else None.
Definition return_headers (l : list (string * string)) (h : HeaderMap) : HeaderMap :=
  foldl (λ h kv,
    if should_return_upstream_header kv.1 then
      match header_name_try_from kv.1, hv_from_str kv.2 with
      | Some name, Some value => hm_insert name value h
      | _, _ => h
      end
    else h) h l.
(** The part [poll_result_to_response] and [result_to_response] share. *)
Definition stored_response (what : string) (result : StoredResult) : Prelude.result ApiResponse ServiceError :=
  let status := default 200 (status_from_u16 (sr_http_status result)) in
  let? body := ok_or (b64_decode (sr_body_base64 result)) (internal ("decode " +:+ what +:+ " body: " +:+ base64_error (sr_body_base64 result))) in
  let? id := header_value (sr_job_id result) in
  Ok (MkApiResponse status (hm_insert "x-job-id" id (return_headers (sr_headers result) octet_stream)) body).
Definition poll_result_to_response (result : StoredResult) : Prelude.result ApiResponse ServiceError :=
  stored_response "poll result" result.
Definition result_to_response (now_ms : Z) (result : StoredResult) (created_at_ms : Z) : Prelude.result ApiResponse ServiceError :=
  let? resp := stored_response "result" result in
  let? wait := header_value (dec_string (Z.max 0 (now_ms - created_at_ms))) in
  Ok (MkApiResponse (ar_status resp) (hm_insert "x-queue-wait-ms" wait (ar_headers resp)) (ar_body resp)).

Definition decode_callback_result (body_base64 : string) : Json :=
  if str_is_empty body_base64 then JNull
  else
    let raw := JObject [("raw_base64", JString body_base64)] in
    match b64_decode body_base64 with
    | None => raw
    | Some bytes => match json_from_str bytes with Some value => value | None => raw end
    end.
Definition callback_body (result : StoredResult) : Json := JObject [
  ("job_id", JString (sr_job_id result));
  ("status", JString (sr_status result));
  ("result", decode_callback_result (sr_body_base64 result));
  ("completed_at", JString (format_completed_at_rfc3339 (sr_completed_at_ms result)))].
End util.

(** ** Metrics: [metrics.rs] *)

Definition inc_labeled (key : string) (m : Metrics) : Metrics :=
  MkMetrics (counters m) (<[key := uwrap 64 (default 0 (labeled m !! key) + 1)]> (labeled m)).
(** A name with its labels, as [name{label=value,...}] with the values in quotes. *)
Definition quoted (s : string) : string := String (ascii_of_nat 34) (s +:+ String (ascii_of_nat 34) "").
Definition labels (name : string) (l : list (string * string)) : string :=
  name +:+ "{" +:+ str_join "," ((λ kv, kv.1 +:+ "=" +:+ quoted kv.2) <$> l) +:+ "}".

Definition observe_enqueue_latency (elapsed_ms : Z) (policy size_bucket : string) (m : Metrics) : Metrics :=
  let m := fetch_add enqueue_latency_sum_ms elapsed_ms (fetch_add enqueue_latency_count 1 m) in
  let '(bucket, le) :=
    if elapsed_ms <=? 100 then (enqueue_latency_le_100_ms, "100")
    else if elapsed_ms <=? 500 then (enqueue_latency_le_500_ms, "500")
    else if elapsed_ms <=? 1000 then (enqueue_latency_le_1000_ms, "1000")
    else (enqueue_latency_gt_1000_ms, "+Inf") in
  inc_labeled (labels "enqueue_latency_ms_bucket" [("policy", policy); ("size_bucket", size_bucket); ("le", le)])
    (fetch_add bucket 1 m).
Definition observe_body_size (size : Z) (m : Metrics) : Metrics :=
  let m := fetch_add body_size_sum_bytes size (fetch_add body_size_count 1 m) in
  fetch_add
    (if size <=? 10 * 1024 then body_size_le_10kb
     else if size <=? 128 * 1024 then body_size_le_128kb
     else if size <=? 5 * 1024 * 1024 then body_size_le_5mb
     else body_size_gt_5mb) 1 m.
Definition observe_worker_processing (elapsed_ms : Z) (model : string) (m : Metrics) : Metrics :=
  let m := fetch_add worker_processing_sum_ms elapsed_ms (fetch_add worker_processing_count 1 m) in
  let '(bucket, le) :=
    if elapsed_ms <=? 1000 then (worker_processing_le_1000_ms, "1000")
    else if elapsed_ms <=? 5000 then (worker_processing_le_5000_ms, "5000")
    else if elapsed_ms <=? 30000 then (worker_processing_le_30000_ms, "30000")
    else (worker_processing_gt_30000_ms, "+Inf") in
  inc_labeled (labels "worker_processing_time_ms_bucket" [("model", metrics_label model); ("le", le)])
    (fetch_add bucket 1 m).
Definition record_rate_limited (policy tenant : string) (m : Metrics) : Metrics :=
  inc_labeled (labels "rate_limited_total" [("policy", metrics_label policy); ("tenant", metrics_label tenant)])
    (fetch_add rate_limited_total 1 m).

(** [format_labeled_lines]: the counters with labels in the order of their keys. *)
Definition key_le (a b : string * Z) : Prop := String.leb a.1 b.1 = true.
#[export] Instance key_le_dec a b : Decision (key_le a b).
Proof. unfold key_le. apply _. Defined.
Definition format_labeled_lines (m : Metrics) : string :=
  str_join (ascii_of_nat 10) ((λ kv, kv.1 +:+ " " +:+ dec_string kv.2) <$> merge_sort key_le (map_to_list (labeled m))).

(** The number of pending entries in the reply of [XPENDING]. *)
Fixpoint pending_count_from_value `{Base64} (value : Value) : Z :=
  match value with
  | VInteger value => Z.max 0 value
  | VString value => Z.max 0 (default 0 (parse_signed 64 value))
  | VBytes value => Z.max 0 (default 0 (s ← from_utf8 value; parse_signed 64 s))
  | VArray (value :: _) => pending_count_from_value value
  | VMap values =>
      (fix first values :=
         match values with
         | [] => 0
         | (key, value) :: values =>
             if eq_ignore_ascii_case key "pending" || eq_ignore_ascii_case key "count"
             then pending_count_from_value value else first values
         end) values
  | _ => 0
  end.

(** The lines of [/metrics] for a histogram: its cumulative buckets, ending with the count. *)
Definition cumulative (m : Metrics) (buckets : list Counter) (count : Counter) : list Z :=
  ((λ n, uwrap 64 (foldr (λ c acc, counters m c + acc) 0 (take (S n) buckets))) <$> seq 0 (length buckets))
  ++ [counters m count].

(** ** Lemmas: keys *)

Lemma sanitize_key_app s t : sanitize_key (s +:+ t) = sanitize_key s +:+ sanitize_key t.
Proof.
  induction s as [|a s IH]; [done|]. cbn [String.append sanitize_key]. rewrite IH.
  by destruct (is_continuation a).
Qed.
Lemma key_char_kept a : is_key_char a = true → is_continuation a = false.
Proof.
  pose (P a := implb (is_key_char a) (negb (is_continuation a))).
  assert (P a = true) as HP by (apply byte_forallb; by vm_compute).
  unfold P in HP. intros Ha. rewrite Ha in HP. by destruct (is_continuation a).
Qed.
Lemma sanitize_key_chars s : str_forallb is_key_char (sanitize_key s) = true.
Proof.
  induction s as [|a s IH]; simpl; [done|]. destruct (is_continuation a); [done|]. simpl.
  rewrite IH, andb_true_r. by destruct (is_key_char a) eqn:E.
Qed.
Lemma sanitize_key_id s : str_forallb is_key_char s = true → sanitize_key s = s.
Proof.
  induction s as [|a s IH]; simpl; [done|]. intros [Ha Hs]%andb_true_iff.
  by rewrite (key_char_kept _ Ha), Ha, IH.
Qed.
Lemma sanitize_key_idemp s : sanitize_key (sanitize_key s) = sanitize_key s.
Proof. apply sanitize_key_id, sanitize_key_chars. Qed.

(** ** The calendar *)

(** The days of one era of 400 years, which begins on a 1st of March. *)
Definition era_day (doe : Z) : Z * Z * Z := civil_from_days (doe - 719468).
Definition shift_years (n : Z) (date : Z * Z * Z) : Z * Z * Z := let '(y, m, d) := date in (y + n, m, d).

Lemma civil_era z : civil_from_days (z - 719468) = shift_years (400 * (z / 146097)) (era_day (z mod 146097)).
Proof.
  unfold era_day, civil_from_days. rewrite !Z.sub_add.
  assert (Hera : Z.quot (if 0 <=? z then z else z - 146096) 146097 = z / 146097).
  { destruct (Z.leb_spec 0 z); [by apply Z.quot_div_nonneg|].
    rewrite <- (Z.opp_involutive (z - 146096)), Z.quot_opp_l, Z.quot_div_nonneg by lia.
    pose proof (Z.div_mod z 146097 ltac:(lia)). pose proof (Z.mod_pos_bound z 146097 ltac:(lia)).
    pose proof (Z.div_mod (- (z - 146096)) 146097 ltac:(lia)).
    pose proof (Z.mod_pos_bound (- (z - 146096)) 146097 ltac:(lia)). nia. }
  rewrite Hera. pose proof (Z.mod_pos_bound z 146097 ltac:(lia)) as Hb.
  rewrite (proj2 (Z.leb_le 0 (z mod 146097))) by lia.
  rewrite (Z.quot_small (z mod 146097)) by lia. rewrite Z.mul_0_l, Z.sub_0_r.
  replace (z - z / 146097 * 146097) with (z mod 146097) by (rewrite Z.mod_eq; lia).
  unfold shift_years. cbv zeta. set (doe := z mod 146097). f_equal. f_equal.
  destruct (_ <=? 2); lia.
Qed.

Lemma next_day_shift n date : next_day (shift_years (400 * n) date) = shift_years (400 * n) (next_day date).
Proof.
  destruct date as [[y m] d]. unfold next_day, shift_years.
  assert (month_days (y + 400 * n) m = month_days y m) as ->.
  { unfold month_days, is_leap. rewrite (Z.mul_comm 400 n).
    replace (n * 400) with (n * 100 * 4) at 1 by lia. rewrite Z.mod_add by lia.
    replace (n * 400) with (n * 4 * 100) at 1 by lia. rewrite Z.mod_add by lia.
    by rewrite Z.mod_add by lia. }
  repeat case_match; simplify_eq/=; f_equal; f_equal; lia.
Qed.

(** A year of the era begins in March: its first day, and its day [doy] as the carry to the
    calendar year, month and day. *)
Definition year_start (y : Z) : Z := 365 * y + y / 4 - y / 100 + y / 400.
Definition year_of (doe : Z) : Z := (doe - doe / 1460 + doe / 36524 - doe / 146096) / 365.
Definition month_day (doy : Z) : Z * Z * Z :=
  let mp := (5 * doy + 2) / 153 in
  let m := if mp <? 10 then mp + 3 else mp - 9 in
  (if m <=? 2 then 1 else 0, m, doy - (153 * mp + 2) / 5 + 1).
Definition year_length (leap : bool) : Z := if leap then 366 else 365.

Lemma era_day_month_day doe :
  0 ≤ doe < 146097 →
  era_day doe = shift_years (year_of doe) (month_day (doe - (365 * year_of doe + year_of doe / 4 - year_of doe / 100))).
Proof.
  intros Hd. unfold era_day, civil_from_days. rewrite Z.sub_add. rewrite (proj2 (Z.leb_le 0 doe)) by lia.
  rewrite Z.quot_small by lia. rewrite Z.mul_0_l, Z.sub_0_r. fold (year_of doe). cbv zeta.
  rewrite Z.mul_0_l, Z.add_0_r. unfold shift_years, month_day. cbv zeta. f_equal. f_equal.
  destruct (_ <=? 2); lia.
Qed.

Lemma year_of_mono a b : 0 ≤ a ≤ b → b < 146097 → year_of a ≤ year_of b.
Proof.
  intros Hab Hb. apply Z.div_le_mono; [lia|].
  assert (a - a / 1460 ≤ b - b / 1460) by (Z.to_euclidean_division_equations; lia).
  assert (a / 36524 ≤ b / 36524) by (by apply Z.div_le_mono; lia).
  destruct (decide (b = 146096)) as [->|Hb'].
  - destruct (decide (a = 146096)) as [->|Ha]; [done|].
    assert (a - a / 1460 ≤ 145995) by (Z.to_euclidean_division_equations; lia).
    assert (a / 36524 ≤ 4) by (Z.to_euclidean_division_equations; lia).
    assert (a / 36524 = 4 → a = 146096) by (Z.to_euclidean_division_equations; lia).
    rewrite (Z.div_small a 146096) by lia. change (146096 / 1460) with 100. change (146096 / 36524) with 4.
    change (146096 / 146096) with 1. lia.
  - rewrite (Z.div_small a 146096), (Z.div_small b 146096) by lia. lia.
Qed.

(** Facts of each of the 400 years, and of each day of a year, by computation. *)
Definition year_ok (y : Z) : bool :=
  (year_of (year_start y) =? y) && (year_of (year_start (y + 1) - 1) =? y) &&
  (year_start (y + 1) - year_start y =? year_length (is_leap (y + 1))) && (y / 400 =? 0).
Lemma years_ok y : 0 ≤ y < 400 → year_ok y = true.
Proof.
  intros Hy. assert (forallb year_ok (seqZ 0 400) = true) as Hall by (by vm_compute).
  apply forallb_Forall in Hall. rewrite Forall_forall in Hall. apply Hall, elem_of_seqZ. lia.
Qed.

Definition month_length (leap : bool) (m : Z) : Z :=
  if bool_decide (m ∈ [4; 6; 9; 11]) then 30 else if m =? 2 then year_length leap - 337 else 31.
Definition next_month_day (leap : bool) (date : Z * Z * Z) : Z * Z * Z :=
  let '(c, m, d) := date in
  if d <? month_length leap m then (c, m, d + 1) else if m <? 12 then (c, m + 1, 1) else (c + 1, 1, 1).
Definition date_eqb (a b : Z * Z * Z) : bool :=
  let '(y, m, d) := a in let '(y', m', d') := b in (y =? y') && (m =? m') && (d =? d').
Lemma date_eqb_true a b : date_eqb a b = true → a = b.
Proof. destruct a as [[] ?], b as [[] ?]; simpl. rewrite !andb_true_iff, !Z.eqb_eq. naive_solver. Qed.
Definition month_day_ok (leap : bool) (doy : Z) : bool :=
  let '(c, m, d) := month_day doy in
  implb (m =? 2) (c =? 1) &&
  date_eqb (next_month_day leap (month_day doy))
    (if doy + 1 <? year_length leap then month_day (doy + 1) else (1, 3, 1)).
Lemma month_days_ok leap doy : 0 ≤ doy < year_length leap → month_day_ok leap doy = true.
Proof.
  intros Hd. assert (forallb (month_day_ok leap) (seqZ 0 (year_length leap)) = true) as Hall
    by (destruct leap; by vm_compute).
  apply forallb_Forall in Hall. rewrite Forall_forall in Hall. apply Hall, elem_of_seqZ. lia.
Qed.

Lemma next_day_month_day y doy :
  0 ≤ doy < year_length (is_leap (y + 1)) →
  next_day (shift_years y (month_day doy)) =
  shift_years y (if doy + 1 <? year_length (is_leap (y + 1)) then month_day (doy + 1) else (1, 3, 1)).
Proof.
  intros Hd. pose proof (month_days_ok _ _ Hd) as Hok. unfold month_day_ok in Hok.
  destruct (month_day doy) as [[c m] d]. apply andb_true_iff in Hok as [Hc Heq].
  apply date_eqb_true in Heq. rewrite <- Heq. unfold next_day, shift_years, next_month_day.
  assert (month_days (c + y) m = month_length (is_leap (y + 1)) m) as ->.
  { unfold month_days, month_length. destruct (bool_decide _); [done|].
    destruct (m =? 2); [|reflexivity].
    apply Z.eqb_eq in Hc as ->. rewrite (Z.add_comm 1 y). by destruct (is_leap _). }
  destruct (d <? _); [reflexivity|]. destruct (m <? 12); [reflexivity|]. f_equal. f_equal. lia.
Qed.

Lemma year_exists n doe :
  0 ≤ doe < year_start (Z.of_nat n) → ∃ y, 0 ≤ y < Z.of_nat n ∧ year_start y ≤ doe < year_start (y + 1).
Proof.
  induction n as [|n IH]; intros Hd; [by change (year_start (Z.of_nat 0)) with 0 in Hd; lia|].
  destruct (decide (doe < year_start (Z.of_nat n))) as [Hlt|Hge].
  - destruct IH as (y&?&?); [lia|]. exists y. lia.
  - exists (Z.of_nat n). replace (Z.of_nat n + 1) with (Z.of_nat (S n)) by lia. lia.
Qed.

Lemma year_start_bounds y : 0 ≤ y ≤ 400 → 0 ≤ year_start y ≤ 146097.
Proof. intros Hy. unfold year_start. Z.to_euclidean_division_equations. lia. Qed.

(** A day of the era by its year and the day in it. *)
Lemma era_at y doy :
  0 ≤ y < 400 → 0 ≤ doy < year_length (is_leap (y + 1)) →
  era_day (year_start y + doy) = shift_years y (month_day doy).
Proof.
  intros Hy Hdoy. pose proof (years_ok y Hy) as Hok. unfold year_ok in Hok.
  rewrite !andb_true_iff, !Z.eqb_eq in Hok. destruct Hok as [[[H1 H2] H3] H4].
  pose proof (year_start_bounds y ltac:(lia)). pose proof (year_start_bounds (y + 1) ltac:(lia)).
  assert (year_of (year_start y + doy) = y) as Hyear.
  { apply Z.le_antisymm.
    - rewrite <- H2 at 2. apply year_of_mono; lia.
    - rewrite <- H1 at 1. apply year_of_mono; lia. }
  rewrite era_day_month_day, Hyear by lia. do 2 f_equal. unfold year_start. lia.
Qed.

Lemma era_split doe :
  0 ≤ doe < 146097 →
  ∃ y doy, 0 ≤ y < 400 ∧ 0 ≤ doy < year_length (is_leap (y + 1)) ∧ doe = year_start y + doy.
Proof.
  intros Hd. destruct (year_exists 400 doe) as (y&Hy&Hlo&Hhi); [done|]. simpl in Hy.
  pose proof (years_ok y Hy) as Hok. unfold year_ok in Hok. rewrite !andb_true_iff, !Z.eqb_eq in Hok.
  destruct Hok as [[[H1 H2] H3] H4]. exists y, (doe - year_start y). split_and!; lia.
Qed.

Lemma era_next doe :
  0 ≤ doe < 146097 →
  next_day (era_day doe) = if doe + 1 <? 146097 then era_day (doe + 1) else shift_years 400 (era_day 0).
Proof.
  intros Hd. destruct (era_split doe Hd) as (y&doy&Hy&Hdoy&->).
  rewrite era_at, next_day_month_day by done. pose proof (years_ok y Hy) as Hok. unfold year_ok in Hok.
  rewrite !andb_true_iff, !Z.eqb_eq in Hok. destruct Hok as [[[H1 H2] H3] H4].
  pose proof (year_start_bounds (y + 1) ltac:(lia)).
  destruct (Z.ltb_spec (doy + 1) (year_length (is_leap (y + 1)))) as [Hin|Hend].
  - rewrite (proj2 (Z.ltb_lt _ _)) by lia. by rewrite <- Z.add_assoc, era_at by lia.
  - replace (year_start y + doy + 1) with (year_start (y + 1)) by lia.
    destruct (decide (y = 399)) as [->|Hy']; [by vm_compute|].
    assert (year_start (y + 1) < 146097).
    { pose proof (year_start_bounds (y + 2) ltac:(lia)). pose proof (years_ok (y + 1) ltac:(lia)) as Hok'.
      unfold year_ok in Hok'. rewrite !andb_true_iff, !Z.eqb_eq in Hok'. destruct Hok' as [[_ H3'] _].
      replace (y + 1 + 1) with (y + 2) in H3' by lia. unfold year_length in H3'. case_match; lia. }
    rewrite (proj2 (Z.ltb_lt _ _)) by lia. rewrite <- (Z.add_0_r (year_start (y + 1))), era_at;
      [unfold shift_years, month_day; simpl; f_equal; f_equal; lia|lia|unfold year_length; case_match; lia].
Qed.

(** the date of a day number is the Gregorian date of that day: the number 0 is the
    first of January 1970, and each number has the day after the date of the one before, for
    days before 1970 as well. *)
Theorem civil_from_days_calendar :
  civil_from_days 0 = (1970, 1, 1) ∧ ∀ z, civil_from_days (z + 1) = next_day (civil_from_days z).
Proof.
  split; [done|]. intros z. set (x := z + 719468).
  replace z with (x - 719468) by lia. replace (x - 719468 + 1) with (x + 1 - 719468) by lia.
  rewrite !civil_era, next_day_shift. pose proof (Z.mod_pos_bound x 146097 ltac:(lia)) as Hb.
  rewrite era_next by done. destruct (Z.ltb_spec (x mod 146097 + 1) 146097).
  - assert ((x + 1) / 146097 = x / 146097 ∧ (x + 1) mod 146097 = x mod 146097 + 1) as [-> ->]; [|done].
    Z.to_euclidean_division_equations. lia.
  - assert ((x + 1) / 146097 = x / 146097 + 1 ∧ (x + 1) mod 146097 = 0) as [-> ->].
    { Z.to_euclidean_division_equations. lia. }
    destruct (era_day 0) as [[y m] d]. unfold shift_years. f_equal. f_equal. lia.
Qed.

(** ** Histograms *)

(** The buckets of a histogram count every observation once. *)
Definition histogram_ok (buckets : list Counter) (count : Counter) (m : Metrics) : Prop :=
  uwrap 64 (foldr (λ c acc, counters m c + acc) 0 buckets) = uwrap 64 (counters m count).
Definition latency_buckets : list Counter :=
  [enqueue_latency_le_100_ms; enqueue_latency_le_500_ms; enqueue_latency_le_1000_ms; enqueue_latency_gt_1000_ms].
Definition body_buckets : list Counter := [body_size_le_10kb; body_size_le_128kb; body_size_le_5mb; body_size_gt_5mb].
Definition processing_buckets : list Counter :=
  [worker_processing_le_1000_ms; worker_processing_le_5000_ms; worker_processing_le_30000_ms; worker_processing_gt_30000_ms].
Definition metrics_ok (m : Metrics) : Prop :=
  histogram_ok latency_buckets enqueue_latency_count m ∧ histogram_ok body_buckets body_size_count m ∧
  histogram_ok processing_buckets worker_processing_count m.

Lemma uwrap_cong a b : uwrap 64 a = uwrap 64 b ↔ ∃ k, a = b + 2 ^ 64 * k.
Proof.
  unfold uwrap. split.
  - intros H. exists (a / 2 ^ 64 - b / 2 ^ 64).
    pose proof (Z.div_mod a (2 ^ 64) ltac:(lia)). pose proof (Z.div_mod b (2 ^ 64) ltac:(lia)). lia.
  - intros [k ->]. by rewrite Z.mul_comm, Z.mod_add by lia.
Qed.
Lemma uwrap_rep a : ∃ k, uwrap 64 a = a + 2 ^ 64 * k.
Proof. apply uwrap_cong. unfold uwrap. by rewrite Z.mod_mod by lia. Qed.

(** One observation: the count and one bucket grow by one. *)
Ltac histogram :=
  unfold metrics_ok, histogram_ok, latency_buckets, body_buckets, processing_buckets; simpl;
  rewrite !uwrap_cong; intros ([q1 ?]&[q2 ?]&[q3 ?]);
  repeat match goal with |- context [uwrap 64 ?x] => let k := fresh "k" in let H := fresh in
    destruct (uwrap_rep x) as [k H]; rewrite H; clear H end;
  split_and!;
  first
    [ exists q1; lia | exists q2; lia | exists q3; lia
    | match goal with k : Z, k' : Z |- _ =>
        first [exists (q1 + k - k'); lia | exists (q2 + k - k'); lia | exists (q3 + k - k'); lia] end ].

Lemma observe_latency_ok ms policy bucket m : metrics_ok m → metrics_ok (observe_enqueue_latency ms policy bucket m).
Proof.
  unfold observe_enqueue_latency.
  destruct (_ <=? 100); [histogram|]. destruct (_ <=? 500); [histogram|]. destruct (_ <=? 1000); histogram.
Qed.
Lemma observe_body_ok size m : metrics_ok m → metrics_ok (observe_body_size size m).
Proof.
  unfold observe_body_size.
  destruct (_ <=? _); [histogram|]. destruct (_ <=? _); [histogram|]. destruct (_ <=? _); histogram.
Qed.
Lemma observe_processing_ok ms model m : metrics_ok m → metrics_ok (observe_worker_processing ms model m).
Proof.
  unfold observe_worker_processing.
  destruct (_ <=? 1000); [histogram|]. destruct (_ <=? 5000); [histogram|]. destruct (_ <=? 30000); histogram.
Qed.
Lemma metrics_default_ok : metrics_ok metrics_default.
Proof. by split_and!. Qed.
