(* ===== verification/AiProg.v ===== *)
(** * AI gateway service: programs

    The service's functions await Redis, the HTTP client, the clock and each other between any
    two effects, and many of them run at once. A function is therefore a program ([Prog]): a
    tree of commands to the outside ([Cmd]), each with a continuation for every reply. Nothing
    is assumed of the replies: a command can fail, and a reply can have the wrong form, which
    is an error of the conversion.

    A program has two readings. [exec] runs it against an environment, a function that answers
    commands over some state. [runs] gives its traces, all replies and all points where the
    task may be dropped included; [wp] proves what is known whenever a command is issued; and
    [system] is the interleaving of the traces of any number of tasks. *)

From S2P Require Export AiUtil.
Local Open Scope string_scope.
Local Open Scope list_scope.
Local Open Scope Z_scope.

(** ** Commands and replies *)

Inductive Cmd :=
(** the clock, in milliseconds; a new [Ulid] *)
| CNow
| CUlid
(** streams *)
| CXadd (stream : string) (fields : list (string * Value))
| CXtrim (stream : string) (max_len : Z)
| CXreadgroup (group consumer : string) (count block_ms : Z) (stream : string)
| CXautoclaim (stream group consumer : string) (min_idle_ms count : Z)
| CXack (stream group entry_id : string)
| CXgroupCreate (stream group : string)
(** keys; [ex] is the time to live in seconds, [nx] the option [NX] *)
| CGet (key : string)
| CSet (key value : string) (ex : option Z) (nx : bool)
| CDel (key : string)
| CIncrBy (key : string) (n : Z)
| CExpire (key : string) (secs : Z)
| CTtl (key : string)
| CScan (pattern : string)
(** the token bucket script *)
| CEval (keys args : list string)
(** publish and subscribe; waiting for a message on a channel *)
| CPublish (channel message : string)
| CSubscribe (channel : string)
| CNotified (channel : string) (timeout_secs : Z)
(** the HTTP client *)
| CHttp (method url : string) (headers : list (string * string)) (body : string)
(** the permit of the body semaphore *)
| CPermit
(** the metrics of the process *)
| CMetrics (f : Metrics → Metrics).

Inductive Reply :=
| RErr (e : string)
| RDone
| RInt (n : Z)
| RText (s : string)
| RNil
| RInts (l : list Z)
| RKeys (l : list string)
| REntries (l : list (string * gmap string Value))
| RHttp (status : Z) (headers : list (string * string)) (body : string).

Notation Event := (Cmd * Reply)%type.

(** ** Programs *)

Inductive Prog (A : Type) :=
| Ret (a : A)
| Do (c : Cmd) (k : Reply → Prog A).
Arguments Ret {A} a.
Arguments Do {A} c k.

Fixpoint bind {A B} (p : Prog A) (k : A → Prog B) : Prog B :=
  match p with Ret a => k a | Do c k' => Do c (λ r, bind (k' r) k) end.
(** The result of a fallible [async fn]. *)
Notation Fut A := (Prog (result A ServiceError)).
(** [p.await?] *)
Definition try_bind {A B E} (p : Prog (result A E)) (k : A → Prog (result B E)) : Prog (result B E) :=
  bind p (λ r, match r with Ok a => k a | Err e => Ret (Err e) end).

Declare Scope prog_scope.
Delimit Scope prog_scope with prog.
Notation "'await' x <- p ; k" := (bind p (λ x, k))
  (at level 200, x name, p at level 100, k at level 200) : prog_scope.
Notation "'try' x <- p ; k" := (try_bind p (λ x, k))
  (at level 200, x name, p at level 100, k at level 200) : prog_scope.
Open Scope prog_scope.

Definition lift {A} (r : result A ServiceError) : Fut A := Ret r.
Definition ok {A} (a : A) : Fut A := Ret (Ok a).
Definition err {A} (e : ServiceError) : Fut A := Ret (Err e).

(** *** Commands whose reply is converted *)

Definition convert {A} (get : Reply → option A) (r : Reply) : result A ServiceError :=
  match r with
  | RErr e => Err (from_redis_error e)
  | _ => ok_or (get r) (from_redis_error "Parse Error")
  end.
Lemma ok_or_Ok {A E} (o : option A) (e : E) a : ok_or o e = Ok a → o = Some a.
Proof. destruct o; simpl; congruence. Qed.
Definition redis {A} (c : Cmd) (get : Reply → option A) : Fut A := Do c (λ r, Ret (convert get r)).
Definition as_unit (r : Reply) : option unit := Some ().
Definition as_int (r : Reply) : option Z := match r with RInt n => Some n | _ => None end.
Definition as_text (r : Reply) : option string := match r with RText s => Some s | _ => None end.
Definition as_opt_text (r : Reply) : option (option string) :=
  match r with RText s => Some (Some s) | RNil => Some None | _ => None end.

Definition now_ms : Prog Z := Do CNow (λ r, Ret (match r with RInt n => n | _ => 0 end)).
Definition new_job_id : Prog string := Do CUlid (λ r, Ret (match r with RText s => s | _ => "" end)).
Definition redis_get (key : string) : Fut (option string) := redis (CGet key) as_opt_text.
Definition redis_set (key value : string) (ex : option Z) : Fut unit := redis (CSet key value ex false) as_unit.
Definition redis_del (key : string) : Fut Z := redis (CDel key) as_int.
Definition metrics (f : Metrics → Metrics) : Prog unit := Do (CMetrics f) (λ _, Ret ()).

(** ** Tasks that run together *)

Fixpoint map_prog {A B} (f : A → Prog B) (l : list A) : Prog (list B) :=
  match l with [] => Ret [] | x :: l => await y <- f x; await ys <- map_prog f l; Ret (y :: ys) end.

(** [tokio::join!]: the schedule says whose command is next; behind its end the programs run
    one after the other. *)
Fixpoint join {A B} (sched : list bool) (p : Prog A) (q : Prog B) : Prog (A * B) :=
  match sched with
  | [] => await a <- p; await b <- q; Ret (a, b)
  | true :: sched => match p with Do c k => Do c (λ r, join sched (k r) q) | Ret _ => join sched p q end
  | false :: sched => match q with Do c k => Do c (λ r, join sched p (k r)) | Ret _ => join sched p q end
  end.
(** Spawned tasks that are awaited one after the other. *)
Fixpoint join_all {A} (sched : list nat) (ps : list (Prog A)) : Prog (list A) :=
  match sched with
  | [] => map_prog id ps
  | i :: sched =>
      match ps !! i with
      | Some (Do c k) => Do c (λ r, join_all sched (<[i := k r]> ps))
      | _ => join_all sched ps
      end
  end.

(** ** Running a program *)

Fixpoint exec {W A} (respond : Cmd → W → Reply * W) (p : Prog A) (w : W) : A * W :=
  match p with
  | Ret a => (a, w)
  | Do c k => let '(r, w) := respond c w in exec respond (k r) w
  end.

(** The traces of a program; [None] if it has not come to its end. *)
Inductive runs {A} : Prog A → list Event → option A → Prop :=
| runs_stop p : runs p [] None
| runs_ret a : runs (Ret a) [] (Some a)
| runs_do c k r tr o : runs (k r) tr o → runs (Do c k) ((c, r) :: tr) o.

(** Tasks by their number, and a sequence of events that is a trace of each. *)
Record Task := MkTask { task_type : Type; task_prog : Prog task_type }.
Definition of_task (t : nat) (tr : list (nat * Event)) : list Event := (filter (λ e, e.1 = t) tr).*2.
Definition system (tasks : nat → Task) (tr : list (nat * Event)) : Prop :=
  ∀ t, ∃ o, runs (task_prog (tasks t)) (of_task t tr) o.

(** ** What is known when a command is issued

    [wp I K p Q]: if a task knows that the events [K] have happened, then whenever [p] issues
    a command, the event satisfies [I] of what the task knows by then, and at the end the
    result satisfies [Q]. *)

Definition known := Event → Prop.
Definition add (K : known) (e : Event) : known := λ e', K e' ∨ e' = e.
Fixpoint wp {A} (I : known → Event → Prop) (K : known) (p : Prog A) (Q : known → A → Prop) : Prop :=
  match p with
  | Ret a => Q K a
  | Do c k => ∀ r, I K (c, r) ∧ wp I (add K (c, r)) (k r) Q
  end.

Definition sub (K K' : known) : Prop := ∀ e, K e → K' e.
Class Mono {A} (Q : known → A → Prop) : Prop := mono K K' a : sub K K' → Q K a → Q K' a.

Lemma sub_refl K : sub K K. Proof. by intros e. Qed.
Lemma sub_trans K1 K2 K3 : sub K1 K2 → sub K2 K3 → sub K1 K3.
Proof. intros H1 H2 e He. by apply H2, H1. Qed.
Lemma sub_add K e : sub K (add K e). Proof. intros e' He'. by left. Qed.
Lemma add_sub K K' e : sub K K' → sub (add K e) (add K' e).
Proof. intros H e' [He'|He']; [left; by apply H|by right]. Qed.
#[export] Hint Resolve sub_refl sub_add add_sub : spacegate.

Section wp.
Context (I : known → Event → Prop).
Implicit Types K : known.

Lemma wp_impl {A} K (p : Prog A) (Q Q' : known → A → Prop) :
  wp I K p Q → (∀ K' a, sub K K' → Q K' a → Q' K' a) → wp I K p Q'.
Proof.
  revert K. induction p as [a|c k IH]; simpl; intros K Hp HQ; [by apply HQ; [apply sub_refl|]|].
  intros r. destruct (Hp r) as [? Hk]. split; [done|]. eapply IH; [exact Hk|]. intros K' a Hs.
  apply HQ. eapply sub_trans; [apply sub_add|exact Hs].
Qed.
Lemma wp_bind {A B} K (p : Prog A) (k : A → Prog B) Q :
  wp I K p (λ K a, wp I K (k a) Q) → wp I K (bind p k) Q.
Proof.
  revert K. induction p as [a|c k' IH]; simpl; intros K Hp; [done|].
  intros r. destruct (Hp r) as [? Hk]. split; [done|]. by apply IH.
Qed.
Lemma wp_try {A B} K (p : Fut A) (k : A → Fut B) Q :
  wp I K p (λ K r, match r with Ok a => wp I K (k a) Q | Err e => Q K (Err e) end) →
  wp I K (try_bind p k) Q.
Proof.
  intros Hp. apply wp_bind. eapply wp_impl; [exact Hp|]. by intros K' [a|e] _.
Qed.
Lemma wp_map_prog {A B} K (f : A → Prog B) l :
  (∀ x K', x ∈ l → sub K K' → wp I K' (f x) (λ _ _, True)) → wp I K (map_prog f l) (λ _ _, True).
Proof.
  revert K. induction l as [|x l IH]; intros K Hf; simpl; [done|]. apply wp_bind.
  eapply wp_impl; [apply Hf; [by left|apply sub_refl]|]. intros K' b Hs _. apply wp_bind.
  eapply wp_impl; [apply IH|done]. intros y K'' Hy Hs'. apply Hf; [by right|]. by eapply sub_trans.
Qed.

Context `{!Mono I}.
Lemma wp_mono {A} K K' (p : Prog A) Q : Mono Q → sub K K' → wp I K p Q → wp I K' p Q.
Proof.
  intros HQ. revert K K'. induction p as [a|c k IH]; simpl; intros K K' Hs Hp; [by eapply mono|].
  intros r. destruct (Hp r) as [? Hk]. split; [by eapply mono|]. eapply IH; [|exact Hk].
  by apply add_sub.
Qed.
Lemma wp_join {A B} sched K (p : Prog A) (q : Prog B) (P : known → A → Prop) (Q : known → B → Prop) :
  Mono P → Mono Q → wp I K p P → wp I K q Q →
  wp I K (join sched p q) (λ K r, P K r.1 ∧ Q K r.2).
Proof.
  intros HP HQ. revert K p q. induction sched as [|[] sched IH]; intros K p q Hp Hq; simpl.
  - apply wp_bind. eapply wp_impl; [exact Hp|]. intros K1 a Hs1 Ha. apply wp_bind.
    eapply wp_impl; [by eapply wp_mono|]. intros K2 b Hs2 Hb. split; [|done]. by eapply mono.
  - destruct p as [a|c k]; [by apply IH|]. intros r. destruct (Hp r) as [? Hk]. split; [done|].
    apply IH; [done|]. eapply wp_mono; [done|apply sub_add|done].
  - destruct q as [b|c k]; [by apply IH|]. intros r. destruct (Hq r) as [? Hk]. split; [done|].
    apply IH; [|done]. eapply wp_mono; [done|apply sub_add|done].
Qed.
Lemma wp_join_all {A} sched K (ps : list (Prog A)) :
  Forall (λ p, wp I K p (λ _ _, True)) ps → wp I K (join_all sched ps) (λ _ _, True).
Proof.
  revert K ps. induction sched as [|i sched IH]; intros K ps Hps; simpl.
  - apply wp_map_prog. intros p K' Hp Hs. rewrite Forall_forall in Hps.
    eapply wp_mono; [by intros ???|exact Hs|by apply Hps].
  - destruct (ps !! i) as [[a|c k]|] eqn:Hi; [by apply IH| |by apply IH].
    pose proof (Forall_lookup_1 _ _ _ _ Hps Hi) as Hp. intros r. destruct (Hp r) as [? Hk]. split; [done|].
    apply IH, Forall_insert; [|done]. eapply Forall_impl; [exact Hps|]. intros p Hp'.
    eapply wp_mono; [by intros ???|apply sub_add|done].
Qed.

(** Every event of a trace satisfies [I] of the events before it. *)
Lemma wp_runs {A} K (p : Prog A) Q tr o :
  wp I K p Q → runs p tr o →
  ∀ tr1 e tr2, tr = tr1 ++ e :: tr2 → I (λ e', K e' ∨ e' ∈ tr1) e.
Proof.
  intros Hp Hr. revert K Hp. induction Hr as [p|a|c k r tr o Hr IH]; intros K Hp tr1 e tr2 Heq.
  1,2: by destruct tr1.
  simpl in Hp. destruct (Hp r) as [HI Hk]. destruct tr1 as [|e1 tr1]; simplify_eq/=.
  - eapply mono; [|exact HI]. intros e' He'. by left.
  - eapply mono; [|by eapply IH]. intros e' [[He'|He']|He']; [by left|right; rewrite He'; left|right; by right].
Qed.
Theorem wp_system tasks tr :
  (∀ t, wp I (λ _, False) (task_prog (tasks t)) (λ _ _, True)) → system tasks tr →
  ∀ tr1 t e tr2, tr = tr1 ++ (t, e) :: tr2 → I (λ e', e' ∈ of_task t tr1) e.
Proof.
  intros Hwp Hsys tr1 t e tr2 ->. destruct (Hsys t) as [o Hr].
  assert (of_task t (tr1 ++ (t, e) :: tr2) = of_task t tr1 ++ e :: of_task t tr2) as Heq.
  { unfold of_task. rewrite filter_app, fmap_app, filter_cons_True by done. done. }
  rewrite Heq in Hr. eapply mono; [|by eapply wp_runs]. intros e' [[]|He']. done.
Qed.
End wp.

Lemma of_task_sub t tr e : e ∈ of_task t tr → (t, e) ∈ tr.
Proof.
  unfold of_task. intros [[t' e'] [-> He]]%list_elem_of_fmap. apply list_elem_of_filter in He as [Ht He]. simpl in *. by subst.
Qed.

(** An execution is a trace. *)
Lemma exec_runs {W A} (respond : Cmd → W → Reply * W) (p : Prog A) w :
  ∃ tr, runs p tr (Some (exec respond p w).1).
Proof.
  revert w. induction p as [a|c k IH]; intros w; simpl; [exists []; constructor|].
  destruct (respond c w) as [r w']. destruct (IH r w') as [tr Htr]. eexists ((c, r) :: tr). by constructor.
Qed.
Lemma exec_bind {W A B} (respond : Cmd → W → Reply * W) (p : Prog A) (k : A → Prog B) w :
  exec respond (bind p k) w = let '(a, w) := exec respond p w in exec respond (k a) w.
Proof.
  revert w. induction p as [a|c k' IH]; intros w; simpl; [done|]. destruct (respond c w) as [r w']. apply IH.
Qed.

(** The result of a trace that has come to its end. *)
Lemma wp_result {A} (I : known → Event → Prop) K (p : Prog A) Q tr a :
  Mono Q → wp I K p Q → runs p tr (Some a) → Q (λ e, K e ∨ e ∈ tr) a.
Proof.
  intros HQ Hp Hr. remember (Some a) as o eqn:Ho. revert K Hp.
  induction Hr as [p|a'|c k r tr o Hr IH]; intros K Hp; simplify_eq/=.
  - eapply mono; [|exact Hp]. intros e He. by left.
  - destruct (Hp r) as [_ Hk]. eapply mono; [|by apply IH].
    intros e' [[He'|He']|He']; [by left|right; rewrite He'; left|right; by right].
Qed.

(** ** Commands a program never issues *)

Fixpoint issues {A} (P : Cmd → Prop) (p : Prog A) : Prop :=
  match p with Ret _ => True | Do c k => P c ∧ ∀ r, issues P (k r) end.

Section issues.
Context (P : Cmd → Prop).
Lemma issues_bind {A B} (p : Prog A) (k : A → Prog B) : issues P p → (∀ a, issues P (k a)) → issues P (bind p k).
Proof. intros Hp Hk. induction p as [a|c k' IH]; simpl in *; [done|]. split; [apply Hp|]. intros r. apply IH, Hp. Qed.
Lemma issues_try {A B} (p : Fut A) (k : A → Fut B) : issues P p → (∀ a, issues P (k a)) → issues P (try_bind p k).
Proof. intros Hp Hk. apply issues_bind; [done|]. by intros [a|e]. Qed.
Lemma issues_redis {A} c (get : Reply → option A) : P c → issues P (redis c get).
Proof. done. Qed.
Lemma issues_metrics f : P (CMetrics f) → issues P (metrics f).
Proof. done. Qed.
Lemma issues_map_prog {A B} (f : A → Prog B) l : (∀ x, issues P (f x)) → issues P (map_prog f l).
Proof. intros Hf. induction l as [|x l IH]; [done|]. repeat (apply issues_bind; [done|intros]). done. Qed.
Lemma issues_join {A B} sched (p : Prog A) (q : Prog B) : issues P p → issues P q → issues P (join sched p q).
Proof.
  revert p q. induction sched as [|[] sched IH]; intros p q Hp Hq; simpl.
  - repeat (apply issues_bind; [done|intros]). done.
  - destruct p as [a|c k]; [by apply IH|]. split; [apply Hp|]. intros r. apply IH; [apply Hp|done].
  - destruct q as [b|c k]; [by apply IH|]. split; [apply Hq|]. intros r. apply IH; [done|apply Hq].
Qed.
Lemma issues_wp {A} (I : known → Event → Prop) K (p : Prog A) :
  (∀ K c r, P c → I K (c, r)) → issues P p → wp I K p (λ _ _, True).
Proof.
  intros HI. revert K. induction p as [a|c k IH]; intros K Hp; [done|]. intros r. split; [by apply HI, Hp|].
  apply IH, Hp.
Qed.
Lemma issues_runs {A} (p : Prog A) tr o e : issues P p → runs p tr o → e ∈ tr → P e.1.
Proof.
  intros Hp Hr. induction Hr as [p|a|c k r tr o Hr IH]; [by intros ?%elem_of_nil|by intros ?%elem_of_nil|].
  intros [->|He]%elem_of_cons; [apply Hp|]. apply IH; [apply Hp|done].
Qed.
End issues.
#[export] Hint Resolve issues_redis issues_metrics : issues.

(** ** Fallible programs: what is known if they succeed *)

Definition okwp {A} (I : known → Event → Prop) (K : known) (p : Fut A) (Q : known → A → Prop) : Prop :=
  wp I K p (λ K r, ∀ a, r = Ok a → Q K a).

Section okwp.
Context (I : known → Event → Prop).
Lemma wp_frame {A} K (p : Prog A) Q : wp I K p Q → wp I K p (λ K' a, sub K K' ∧ Q K' a).
Proof. intros Hp. eapply wp_impl; [exact Hp|]. done. Qed.
Lemma wp_seq {A B} K (p : Prog A) (k : A → Prog B) Q R :
  wp I K p Q → (∀ K' a, sub K K' → Q K' a → wp I K' (k a) R) → wp I K (bind p k) R.
Proof. intros Hp Hk. apply wp_bind. eapply wp_impl; [exact Hp|]. intros K' a. apply Hk. Qed.
Lemma okwp_try {A B} K (p : Fut A) (k : A → Fut B) Q R :
  okwp I K p Q → (∀ K' a, sub K K' → Q K' a → okwp I K' (k a) R) → okwp I K (try_bind p k) R.
Proof.
  intros Hp Hk. eapply wp_seq; [exact Hp|]. intros K' [a|e] Hs HQ; [by apply Hk, HQ|]. intros a Ha. done.
Qed.
Lemma okwp_bind {A B} K (p : Prog A) (k : A → Fut B) Q R :
  wp I K p Q → (∀ K' a, sub K K' → Q K' a → okwp I K' (k a) R) → okwp I K (bind p k) R.
Proof. apply wp_seq. Qed.
Lemma okwp_impl {A} K (p : Fut A) (Q Q' : known → A → Prop) :
  okwp I K p Q → (∀ K' a, sub K K' → Q K' a → Q' K' a) → okwp I K p Q'.
Proof. intros Hp HQ. eapply wp_impl; [exact Hp|]. simpl. eauto. Qed.
Lemma okwp_redis {A} K c (get : Reply → option A) :
  (∀ r, I K (c, r)) → okwp I K (redis c get) (λ K' a, ∃ r, K' (c, r) ∧ convert get r = Ok a).
Proof. intros HI r. split; [done|]. intros a Ha. exists r. split; [by right|done]. Qed.
Lemma okwp_lift {A} K (r : result A ServiceError) : okwp I K (lift r) (λ _ a, r = Ok a).
Proof. by intros a Ha. Qed.
Lemma okwp_ok {A} K (a : A) (Q : known → A → Prop) : Q K a → okwp I K (ok a) Q.
Proof. intros HQ a' [= <-]. done. Qed.
Lemma okwp_err {A} K e (Q : known → A → Prop) : okwp I K (err e) Q.
Proof. by intros a Ha. Qed.
Lemma okwp_wp {A} K (p : Fut A) Q : okwp I K p Q → wp I K p (λ _ _, True).
Proof. intros Hp. eapply wp_impl; [exact Hp|]. done. Qed.
Lemma wp_okwp {A} K (p : Fut A) : wp I K p (λ _ _, True) → okwp I K p (λ _ _, True).
Proof. intros Hp. eapply wp_impl; [exact Hp|]. done. Qed.
End okwp.
