(* ===== verification/AiLimit.v ===== *)
(** * AI gateway service: rate limits

    [ratelimit.rs], the handler [check_rate_limit] and the token bucket script of [types.rs].

    Rules of a tenant are stored under keys that name the tenant and the dimensions the rule
    restricts. A check looks for the most specific stored rule and runs the script, which
    keeps one bucket for each tenant in two keys that expire. *)

From S2P Require Export AiProg.
Local Open Scope string_scope.
Local Open Scope list_scope.
Local Open Scope Z_scope.

(** ** The token bucket script

    Redis keys with a time to live in milliseconds of the server's clock, and Lua numbers.
    [lua_ceil_scaled a b] is [math.ceil((a / b) * 10)] on doubles; other values are integers,
    on which doubles are exact below [2 ^ 53]. *)
Class RedisPx := {
  PxDB : Type;
  px_get : Z → string → PxDB → option string;
  px_set : Z → string → string → Z → PxDB → PxDB;
  lua_tonumber : string → option Z;
  lua_ceil_scaled : Z → Z → Z;
}.
Class RedisPxLaws (R : RedisPx) : Prop := {
  px_get_set t k v ttl db t' k' :
    t ≤ t' →
    px_get t' k' (px_set t k v ttl db) =
    if decide (k' = k) then if t' <? t + ttl then Some v else None else px_get t' k' db;
  lua_tonumber_z n : - 2 ^ 53 < n < 2 ^ 53 → lua_tonumber (z_string n) = Some n;
  lua_ceil_scaled_bound a b : 0 < a < 2 ^ 53 → 0 < b < 2 ^ 53 → 9 * a ≤ b * lua_ceil_scaled a b;
}.

Definition ceil_div (a b : Z) : Z := - (- a / b).

Section script.
Context `{RedisPx}.

(** [srv] is the server's time. [None] is an error of the script, before it has written. *)
Definition token_bucket (srv : Z) (tokens_key ts_key : string) (rate burst now cost : Z) (db : PxDB)
  : PxDB * option (list Z) :=
  if (rate <=? 0) || (burst <=? 0) || (cost <=? 0) then (db, Some [0; 0; 1000])
  else
    let burst_milli := burst * 1000 in
    let cost_milli := cost * 1000 in
    match (match px_get srv tokens_key db with Some s => lua_tonumber s | None => Some burst_milli end),
          (match px_get srv ts_key db with Some s => lua_tonumber s | None => Some now end) with
    | Some tokens, Some last_ts =>
        let elapsed := Z.max 0 (now - last_ts) in
        let tokens := Z.min burst_milli (tokens + elapsed * rate) in
        let ttl := Z.max 300000 (lua_ceil_scaled burst_milli rate) in
        if cost_milli <=? tokens then
          let tokens := tokens - cost_milli in
          (px_set srv ts_key (z_string now) ttl (px_set srv tokens_key (z_string tokens) ttl db), Some [1; tokens; 0])
        else
          let wait_ms := ceil_div (cost_milli - tokens) rate in
          (px_set srv ts_key (z_string now) ttl (px_set srv tokens_key (z_string tokens) ttl db), Some [0; tokens; wait_ms])
    | _, _ => (db, None)
    end.
Definition TOKEN_BUCKET_LUA (srv : Z) (keys args : list string) (db : PxDB) : PxDB * option (list Z) :=
  match keys, args with
  | [tokens_key; ts_key], [rate; burst; now; cost] =>
      match lua_tonumber rate, lua_tonumber burst, lua_tonumber now, lua_tonumber cost with
      | Some rate, Some burst, Some now, Some cost => token_bucket srv tokens_key ts_key rate burst now cost db
      | _, _, _, _ => (db, None)
      end
  | _, _ => (db, None)
  end.
End script.

(** ** Keys *)

Definition tenant_rate_limit_keys (tenant : string) : string * string :=
  let tenant_key := sanitize_key tenant in
  ("ai:ratelimit:" +:+ tenant_key +:+ ":tokens", "ai:ratelimit:" +:+ tenant_key +:+ ":ts").

Definition non_empty_opt (value : option string) : option string :=
  value ← value; let value := str_trim value in if str_is_empty value then None else Some value.

Section limits.
Context `{HttpLib} `{!Base64} `{!AiLib} (cfg : Args).

Definition global_rate_limit : TenantRateLimit :=
  MkTenantRateLimit (rate_limit_rps cfg) (rate_limit_burst cfg) (Z.max 1 (rate_limit_cost cfg)).

Definition tenant_rate_limit_candidate_keys (tenant model path policy : string) : list string :=
  let base := tenant_rate_limit_prefix cfg +:+ sanitize_key tenant in
  let model := sanitize_key model in
  let path := sanitize_key path in
  let policy := sanitize_key policy in
  [base +:+ ":model:" +:+ model +:+ ":path:" +:+ path +:+ ":policy:" +:+ policy;
   base +:+ ":model:" +:+ model +:+ ":path:" +:+ path;
   base +:+ ":model:" +:+ model +:+ ":policy:" +:+ policy;
   base +:+ ":path:" +:+ path +:+ ":policy:" +:+ policy;
   base +:+ ":model:" +:+ model;
   base +:+ ":path:" +:+ path;
   base +:+ ":policy:" +:+ policy;
   base].

(** ** Stored limits *)

Record ParsedStoredTenantRateLimit := MkParsed { ps_limit : TenantRateLimit; ps_ttl_secs : option Z }.

(** The third field defaults to 1; anything behind it is ignored. *)
Definition parse_tenant_rate_limit_csv (raw : string) : option TenantRateLimit :=
  match str_trim <$> str_split "," raw with
  | rps :: burst :: rest =>
      rps ← parse_unsigned 64 rps;
      burst ← parse_unsigned 64 burst;
      let cost := default 1 (cost ← head rest; parse_unsigned 64 cost) in
      Some (MkTenantRateLimit rps burst (Z.max 1 cost))
  | _ => None
  end.
Definition parse_stored_tenant_rate_limit (raw : string) : option ParsedStoredTenantRateLimit :=
  let raw := str_trim raw in
  if str_is_empty raw then None
  else
    match de_stored_limit raw with
    | Some stored => Some (MkParsed (MkTenantRateLimit (str_rps stored) (str_burst stored) (Z.max 1 (str_cost stored)))
                             (str_ttl_secs stored))
    | None =>
        match de_limit raw with
        | Some limit => Some (MkParsed (MkTenantRateLimit (trl_rps limit) (trl_burst limit) (Z.max 1 (trl_cost limit))) None)
        | None => (λ limit, MkParsed limit None) <$> parse_tenant_rate_limit_csv raw
        end
    end.

(** The loop of [resolve_rate_limit] and [resolve_tenant_rate_limit_rule]. *)
Fixpoint first_stored (keys : list string) : Fut (option (string * ParsedStoredTenantRateLimit)) :=
  match keys with
  | [] => ok None
  | key :: keys =>
      try raw <- redis_get key;
      match raw ≫= parse_stored_tenant_rate_limit with
      | Some stored => ok (Some (key, stored))
      | None => first_stored keys
      end
  end.
Definition resolve_rate_limit (tenant model path policy : string) : Fut TenantRateLimit :=
  try found <- first_stored (tenant_rate_limit_candidate_keys tenant model path policy);
  ok (match found with Some (_, stored) => ps_limit stored | None => global_rate_limit end).

(** ** Rules *)

Definition tenant_rate_limit_rule_key (rule : TenantRateLimitRule) : string :=
  let key := tenant_rate_limit_prefix cfg +:+ sanitize_key (str_trim (rule_tenant rule)) in
  let push key name value := match non_empty_opt value with Some v => key +:+ name +:+ sanitize_key v | None => key end in
  push (push (push key ":model:" (rule_model rule)) ":path:" (rule_path rule)) ":policy:" (rule_policy rule).

(** Pairs of a name and a value. *)
Fixpoint rule_dimensions (parts : list string) (model path policy : option string)
  : option string * option string * option string :=
  match parts with
  | name :: value :: parts =>
      if decide (name = "model") then rule_dimensions parts (Some value) path policy
      else if decide (name = "path") then rule_dimensions parts model (Some value) policy
      else if decide (name = "policy") then rule_dimensions parts model path (Some value)
      else rule_dimensions parts model path policy
  | _ => (model, path, policy)
  end.
Definition tenant_rate_limit_rule_from_key (key : string) (limit : TenantRateLimit) (ttl_secs : option Z)
  : option TenantRateLimitRule :=
  rest ← str_strip_prefix (tenant_rate_limit_prefix cfg) key;
  match str_split ":" rest with
  | [] => None
  | tenant :: parts =>
      if str_is_empty tenant then None
      else
        let '(model, path, policy) := rule_dimensions parts None None None in
        Some (MkTenantRateLimitRule tenant model path policy (trl_rps limit) (trl_burst limit) (Z.max 1 (trl_cost limit)) ttl_secs)
  end.

Definition validate_admin_rule_dimension (name value : string) : result unit ServiceError :=
  if str_contains_char ":" value then Err (bad_request (name +:+ " must not contain ':'")) else Ok ().
Definition validate_policy_dimension (policy : string) : result unit ServiceError :=
  if bool_decide (policy ∈ ["abandon"; "queue"; "wait"]) then Ok ()
  else Err (bad_request "policy must be abandon, queue, or wait").
Definition validate_opt (f : string → result unit ServiceError) (value : option string) : result unit ServiceError :=
  match non_empty_opt value with Some v => f v | None => Ok () end.
Definition validate_tenant_rule_dimensions (rule : TenantRateLimitRule) : result unit ServiceError :=
  if str_is_empty (str_trim (rule_tenant rule)) then Err (bad_request "tenant is required")
  else
    let? _ := validate_admin_rule_dimension "tenant" (str_trim (rule_tenant rule)) in
    let? _ := validate_opt (validate_admin_rule_dimension "model") (rule_model rule) in
    let? _ := validate_opt (validate_admin_rule_dimension "path") (rule_path rule) in
    validate_opt validate_policy_dimension (rule_policy rule).
Definition validate_tenant_rate_limit_rule (rule : TenantRateLimitRule) : result unit ServiceError :=
  let? _ := validate_tenant_rule_dimensions rule in
  if rule_rps rule =? 0 then Err (bad_request "rps must be greater than 0")
  else if rule_burst rule =? 0 then Err (bad_request "burst must be greater than 0")
  else if rule_cost rule =? 0 then Err (bad_request "cost must be greater than 0")
  else if rule_burst rule <? rule_cost rule then Err (bad_request "cost must be less than or equal to burst")
  else Ok ().

Definition set_rule_cost (cost : Z) (r : TenantRateLimitRule) : TenantRateLimitRule :=
  MkTenantRateLimitRule (rule_tenant r) (rule_model r) (rule_path r) (rule_policy r) (rule_rps r) (rule_burst r) cost (rule_ttl_secs r).
Definition tenant_rate_limit_rule_view (key : string) (rule : TenantRateLimitRule) (ttl_remaining_secs : option Z) :=
  MkTenantRateLimitRuleView key rule ttl_remaining_secs.

Definition read_ttl_remaining_secs (key : string) : Prog (option Z) :=
  await r <- redis (CTtl key) as_int;
  let ttl := match r with Ok ttl => ttl | Err _ => -2 end in
  Ret (if 0 <? ttl then Some ttl else None).

Definition upsert_tenant_rate_limit_rule (rule : TenantRateLimitRule) : Fut TenantRateLimitRuleView :=
  try _ <- lift (validate_tenant_rate_limit_rule rule);
  let rule := set_rule_cost (Z.max 1 (rule_cost rule)) rule in
  let key := tenant_rate_limit_rule_key rule in
  try value <- lift (map_err (λ e, internal ("serialize tenant rate limit: " +:+ e))
    (ser_stored_limit (MkStoredTenantRateLimit (rule_rps rule) (rule_burst rule) (rule_cost rule) (rule_ttl_secs rule))));
  let expiration := (λ ttl, swrap 64 (Z.max 1 ttl)) <$> rule_ttl_secs rule in
  try _ <- redis_set key value expiration;
  await ttl_remaining_secs <- read_ttl_remaining_secs key;
  ok (tenant_rate_limit_rule_view key rule ttl_remaining_secs).
Definition delete_tenant_rate_limit_rule (rule : TenantRateLimitRule) : Fut Z :=
  try _ <- lift (validate_tenant_rule_dimensions rule);
  redis_del (tenant_rate_limit_rule_key rule).

Definition tenant_rule_matches_filters (rule : TenantRateLimitRule) (filters : list (string * string)) : bool :=
  forallb (λ '(name, value),
    let value := str_trim value in
    if str_is_empty value then true
    else if decide (name = "tenant") then str_contains (rule_tenant rule) value
    else if decide (name = "model") then str_contains (default "" (rule_model rule)) value
    else if decide (name = "path") then str_contains (default "" (rule_path rule)) value
    else if decide (name = "policy") then bool_decide (default "" (rule_policy rule) = value)
    else true) filters.
Definition is_legacy_tenant_rate_limit_key (key : string) : bool :=
  ends_with key ":rps" || ends_with key ":burst" || ends_with key ":cost".
Definition rule_specificity (rule : TenantRateLimitRule) : Z :=
  let given o := if bool_decide (is_Some (non_empty_opt o)) then 1 else 0 in
  given (rule_model rule) + given (rule_path rule) + given (rule_policy rule).
Definition tenant_rule_specificity_rule (view : TenantRateLimitRuleView) : Z := rule_specificity (view_rule view).

(** One key of the scan; [None] is a key that is skipped. *)
Definition list_key (filters : list (string * string)) (key : string) : Fut (option TenantRateLimitRuleView) :=
  if is_legacy_tenant_rate_limit_key key then ok None
  else
    try raw <- redis_get key;
    match raw ≫= parse_stored_tenant_rate_limit with
    | None => ok None
    | Some stored =>
        match tenant_rate_limit_rule_from_key key (ps_limit stored) (ps_ttl_secs stored) with
        | None => ok None
        | Some rule =>
            let rule := set_rule_cost (Z.max 1 (rule_cost rule)) rule in
            if tenant_rule_matches_filters rule filters then
              await ttl_remaining_secs <- read_ttl_remaining_secs key;
              ok (Some (tenant_rate_limit_rule_view key rule ttl_remaining_secs))
            else ok None
        end
    end.
Fixpoint try_map {A B} (f : A → Fut B) (l : list A) : Fut (list B) :=
  match l with [] => ok [] | x :: l => try y <- f x; try ys <- try_map f l; ok (y :: ys) end.
Definition as_keys (r : Reply) : option (list string) := match r with RKeys l => Some l | _ => None end.
Definition view_le (a b : TenantRateLimitRuleView) : Prop :=
  tenant_rule_specificity_rule b < tenant_rule_specificity_rule a ∨
  (tenant_rule_specificity_rule b = tenant_rule_specificity_rule a ∧ String.leb (view_key a) (view_key b) = true).
#[export] Instance view_le_dec a b : Decision (view_le a b).
Proof. unfold view_le. apply _. Defined.
(** The pages of the scan are read before the keys are looked up. *)
Definition list_tenant_rate_limit_rules (filters : list (string * string)) : Fut (list TenantRateLimitRuleView) :=
  try keys <- redis (CScan (tenant_rate_limit_prefix cfg +:+ "*")) as_keys;
  try out <- try_map (list_key filters) keys;
  ok (merge_sort view_le (omap id out)).

Definition or_default (value : option string) (d : string) : string := default d (non_empty_opt value).
Definition resolve_tenant_rate_limit_rule (query : TenantRateLimitResolveQuery) : Fut TenantRateLimitResolveView :=
  let tenant := str_trim (q_tenant query) in
  if str_is_empty tenant then err (bad_request "tenant is required")
  else
    try _ <- lift (validate_admin_rule_dimension "tenant" tenant);
    let model := or_default (q_model query) "default" in
    let path := or_default (q_path query) "/" in
    let policy := or_default (q_policy query) "abandon" in
    try _ <- lift (validate_admin_rule_dimension "model" model);
    try _ <- lift (validate_admin_rule_dimension "path" path);
    try _ <- lift (validate_policy_dimension policy);
    let candidate_keys := tenant_rate_limit_candidate_keys tenant model path policy in
    try found <- first_stored candidate_keys;
    ok (match found with
        | Some (key, stored) =>
            MkTenantRateLimitResolveView tenant model path policy (ps_limit stored) (Some key) false candidate_keys
        | None => MkTenantRateLimitResolveView tenant model path policy global_rate_limit None true candidate_keys
        end).

(** ** The check: [handlers.rs] *)

Definition bucket_args (l : TenantRateLimit) (now : Z) : list string :=
  [dec_string (trl_rps l); dec_string (trl_burst l); dec_string now; dec_string (trl_cost l)].

Definition as_ints (r : Reply) : option (list Z) := match r with RInts l => Some l | _ => None end.
Definition check_rate_limit (headers : HeaderMap) (uri : Uri) : Fut RateLimitResponse :=
  try tenant <- lift (required_header headers "x-tenant-id");
  let model := default "default" (optional_header headers "x-model") in
  let path := default (uri_path uri) (optional_header headers "x-original-path") in
  let policy := default "abandon" (optional_header headers "x-ratelimit-policy") in
  try rate_limit <- resolve_rate_limit tenant model path policy;
  let '(tokens_key, ts_key) := tenant_rate_limit_keys tenant in
  await now <- now_ms;
  try out <- redis (CEval [tokens_key; ts_key] (bucket_args rate_limit now)) as_ints;
  let allowed := bool_decide (default 0 (out !! 0%nat) = 1) in
  await _ <- (if allowed then Ret () else metrics (record_rate_limited policy tenant));
  ok (MkRateLimitResponse allowed (default 0 (out !! 1%nat)) (default 0 (out !! 2%nat))).
End limits.
