(* ===== verification/AiBucket.v ===== *)
(** * AI gateway service: what the token bucket guarantees

    The script keeps, for each tenant, one ideal bucket ([bucket_step]) that is never
    forgotten: a key that expires is read as a full bucket, and the time to live is so long
    that the bucket is full by then. The bound on the checks that pass and the meaning of the
    reported waiting time follow from the ideal bucket. *)

From S2P Require Export AiLimit.
Local Open Scope string_scope.
Local Open Scope list_scope.
Local Open Scope Z_scope.

(** ** The ideal bucket

    The level in thousandths of a token and the time of the last check; [None] before the
    first check. *)

Section bucket.
Variable l : TenantRateLimit.
Notation rate := (trl_rps l).
Notation capacity := (trl_burst l * 1000).
Notation price := (trl_cost l * 1000).

Definition level (st : option (Z * Z)) (now : Z) : Z :=
  match st with
  | Some (tokens, last) => Z.min capacity (tokens + Z.max 0 (now - last) * rate)
  | None => capacity
  end.
Definition bucket_step (st : option (Z * Z)) (now : Z) : (Z * Z) * list Z :=
  let tokens := level st now in
  if price <=? tokens then ((tokens - price, now), [1; tokens - price; 0])
  else ((tokens, now), [0; tokens; ceil_div (price - tokens) rate]).
Fixpoint bucket_run (st : option (Z * Z)) (times : list Z) : list (list Z) :=
  match times with
  | [] => []
  | now :: times => let '(st, out) := bucket_step st now in out :: bucket_run (Some st) times
  end.

(** Limits whose values are exact in Lua. *)
Definition limit_ok : Prop := 0 < rate < 2 ^ 53 ∧ 0 < capacity < 2 ^ 53 ∧ 0 < price < 2 ^ 53.
Definition level_ok (st : option (Z * Z)) : Prop :=
  match st with Some (tokens, _) => 0 ≤ tokens ≤ capacity | None => True end.
Lemma bucket_step_time st now : (bucket_step st now).1.2 = now.
Proof. unfold bucket_step. by destruct (_ <=? level st now). Qed.

Context (Hl : limit_ok).

Lemma level_bounds st now : level_ok st → 0 ≤ level st now ≤ capacity.
Proof.
  destruct Hl as (?&?&?). destruct st as [[tokens last]|]; simpl; [|lia]. intros ?.
  assert (0 ≤ Z.max 0 (now - last) * rate) by (apply Z.mul_nonneg_nonneg; lia). lia.
Qed.
Lemma bucket_step_ok st now : level_ok st → level_ok (Some (bucket_step st now).1).
Proof.
  intros Hst. pose proof (level_bounds st now Hst). destruct Hl as (?&?&?). unfold bucket_step.
  destruct (Z.leb_spec price (level st now)); simpl; lia.
Qed.
End bucket.

(** ** Checks

    A check of a tenant, with the times of the server and of the service. *)
Record Check := MkCheck { ck_tenant : string; ck_srv : Z; ck_now : Z }.
(** Two checks of one tenant in this order: neither clock runs backwards, and the server's is
    not more than nine times as fast. *)
Definition clock_le (c c' : Check) : Prop :=
  ck_srv c ≤ ck_srv c' ∧ ck_now c ≤ ck_now c' ∧ ck_srv c' - ck_srv c ≤ 9 * (ck_now c' - ck_now c).

Section checks.
Context `{RedisPx}.
Variable limit_of : string → TenantRateLimit.

Definition check_script (c : Check) (db : PxDB) : PxDB * option (list Z) :=
  let l := limit_of (sanitize_key (ck_tenant c)) in
  let '(tokens_key, ts_key) := tenant_rate_limit_keys (ck_tenant c) in
  TOKEN_BUCKET_LUA (ck_srv c) [tokens_key; ts_key] (bucket_args l (ck_now c)) db.
(** The checks of all tenants as one sequence of script runs, each with its answer. *)
Fixpoint check_run (checks : list Check) (db : PxDB) : list (Check * option (list Z)) * PxDB :=
  match checks with
  | [] => ([], db)
  | c :: checks =>
      let '(db, out) := check_script c db in
      let '(outs, db) := check_run checks db in
      ((c, out) :: outs, db)
  end.
Definition of_tenant (t : string) (c : Check) : bool := bool_decide (sanitize_key (ck_tenant c) = t).

Definition tokens_key (t : string) : string := "ai:ratelimit:" +:+ t +:+ ":tokens".
Definition ts_key (t : string) : string := "ai:ratelimit:" +:+ t +:+ ":ts".
Definition ttl_of (l : TenantRateLimit) : Z := Z.max 300000 (lua_ceil_scaled (trl_burst l * 1000) (trl_rps l)).

(** The keys of the tenant [t] (a sanitized name) hold the bucket [st], which was written at
    the server's time [wrote]; [srv] is the time now. *)
Definition holds_bucket (t : string) (srv wrote : Z) (db : PxDB) (st : option (Z * Z)) : Prop :=
  level_ok (limit_of t) st ∧
  ∀ srv', srv ≤ srv' →
    match st with
    | None => px_get srv' (tokens_key t) db = None ∧ px_get srv' (ts_key t) db = None
    | Some (tokens, last) =>
        px_get srv' (tokens_key t) db = (if srv' <? wrote + ttl_of (limit_of t) then Some (z_string tokens) else None) ∧
        px_get srv' (ts_key t) db = (if srv' <? wrote + ttl_of (limit_of t) then Some (z_string last) else None)
    end.
(** The check [c] may be the next one of a bucket written at [wrote]. *)
Definition next_check (wrote : Z) (st : option (Z * Z)) (c : Check) : Prop :=
  0 ≤ ck_now c < 2 ^ 53 ∧
  match st with
  | Some (_, last) => 0 ≤ last ≤ ck_now c ∧ ck_srv c - wrote ≤ 9 * (ck_now c - last)
  | None => True
  end.

Context (Hlaws : RedisPxLaws _).

Lemma tonumber_dec n : 0 ≤ n < 2 ^ 53 → lua_tonumber (dec_string n) = Some n.
Proof.
  intros Hn. rewrite <- (lua_tonumber_z n) by lia. unfold z_string. by rewrite (proj2 (Z.ltb_ge n 0)) by lia.
Qed.

Lemma keys_ne t t' : tokens_key t ≠ ts_key t'.
Proof.
  unfold tokens_key, ts_key. intros [= Heq%(f_equal str_rev)]. rewrite !str_rev_append in Heq. discriminate Heq.
Qed.
Lemma tokens_key_inj t t' : tokens_key t = tokens_key t' → t = t'.
Proof. unfold tokens_key. intros Heq%str_app_inj_l. by apply str_app_inj_r in Heq. Qed.
Lemma ts_key_inj t t' : ts_key t = ts_key t' → t = t'.
Proof. unfold ts_key. intros Heq%str_app_inj_l. by apply str_app_inj_r in Heq. Qed.

(** A run of the script either leaves the keys of other tenants alone or does not write. *)
Lemma token_bucket_frame srv t rate burst now cost db srv' k :
  srv ≤ srv' → k ≠ tokens_key t → k ≠ ts_key t →
  px_get srv' k (token_bucket srv (tokens_key t) (ts_key t) rate burst now cost db).1 = px_get srv' k db.
Proof.
  intros Hs H1 H2. unfold token_bucket. repeat case_match; try done; cbn [fst];
    by rewrite !px_get_set, !decide_False.
Qed.
Lemma check_script_frame c db srv' k :
  ck_srv c ≤ srv' → k ≠ tokens_key (sanitize_key (ck_tenant c)) → k ≠ ts_key (sanitize_key (ck_tenant c)) →
  px_get srv' k (check_script c db).1 = px_get srv' k db.
Proof.
  intros. unfold check_script, tenant_rate_limit_keys. cbv beta iota zeta. unfold TOKEN_BUCKET_LUA, bucket_args.
  repeat case_match; try done. by apply token_bucket_frame.
Qed.
Lemma check_other t srv wrote db st c :
  holds_bucket t srv wrote db st → srv ≤ ck_srv c → sanitize_key (ck_tenant c) ≠ t →
  holds_bucket t (ck_srv c) wrote (check_script c db).1 st.
Proof.
  intros [Hlev Hget] Hs Ht. split; [done|]. intros srv' Hs'.
  rewrite !check_script_frame.
  - apply Hget. lia.
  - done.
  - intros Heq. symmetry in Heq. by apply keys_ne in Heq.
  - intros Heq. by apply ts_key_inj in Heq.
  - done.
  - intros Heq. by apply tokens_key_inj in Heq.
  - apply keys_ne.
Qed.

(** A check of the tenant itself is a step of the bucket. *)
Lemma check_own t srv wrote db st c :
  limit_ok (limit_of t) → holds_bucket t srv wrote db st → srv ≤ ck_srv c →
  next_check wrote st c → sanitize_key (ck_tenant c) = t →
  ∃ db', check_script c db = (db', Some (bucket_step (limit_of t) st (ck_now c)).2) ∧
    holds_bucket t (ck_srv c) (ck_srv c) db' (Some (bucket_step (limit_of t) st (ck_now c)).1).
Proof.
  intros Hl [Hlev Hget] Hs [Hnow Hnext] Ht. pose proof Hl as (Hrate&Hcap&Hprice).
  pose proof (level_bounds _ Hl st (ck_now c) Hlev) as Hb.
  assert (Hread : ∃ tokens last,
    match px_get (ck_srv c) (tokens_key t) db with Some s => lua_tonumber s | None => Some (trl_burst (limit_of t) * 1000) end = Some tokens ∧
    match px_get (ck_srv c) (ts_key t) db with Some s => lua_tonumber s | None => Some (ck_now c) end = Some last ∧
    Z.min (trl_burst (limit_of t) * 1000) (tokens + Z.max 0 (ck_now c - last) * trl_rps (limit_of t)) = level (limit_of t) st (ck_now c)).
  { specialize (Hget (ck_srv c) Hs). destruct st as [[tokens last]|].
    - destruct Hget as [-> ->]. destruct Hnext as [Hlast Hclock]. simpl in Hlev.
      destruct (Z.ltb_spec (ck_srv c) (wrote + ttl_of (limit_of t))) as [Hlt|Hge].
      + exists tokens, last. rewrite !lua_tonumber_z by lia. done.
      + exists (trl_burst (limit_of t) * 1000), (ck_now c). split_and!; [done..|].
        pose proof (lua_ceil_scaled_bound _ _ Hcap Hrate). unfold ttl_of in Hge. simpl.
        rewrite Z.sub_diag. simpl. rewrite (Z.max_r 0 (ck_now c - last)) by lia. nia.
    - destruct Hget as [-> ->]. exists (trl_burst (limit_of t) * 1000), (ck_now c). split_and!; [done..|].
      rewrite Z.sub_diag. simpl. lia. }
  destruct Hread as (tokens&last&Htok&Hlast&Hlevel).
  pose proof (bucket_step_ok _ Hl st (ck_now c) Hlev) as Hlev'.
  assert (Hstep : ∃ out db',
    check_script c db = (px_set (ck_srv c) (ts_key t) (z_string (ck_now c)) (ttl_of (limit_of t))
      (px_set (ck_srv c) (tokens_key t) (z_string (bucket_step (limit_of t) st (ck_now c)).1.1) (ttl_of (limit_of t)) db'), Some out) ∧
    out = (bucket_step (limit_of t) st (ck_now c)).2 ∧ db' = db).
  { unfold check_script, tenant_rate_limit_keys. rewrite Ht. cbv beta iota zeta. unfold TOKEN_BUCKET_LUA, bucket_args.
    fold (tokens_key t) (ts_key t). rewrite !tonumber_dec by lia. unfold token_bucket.
    rewrite (proj2 (Z.leb_gt _ 0)) by lia. rewrite (proj2 (Z.leb_gt (trl_burst _) 0)) by lia.
    rewrite (proj2 (Z.leb_gt (trl_cost _) 0)) by lia. cbn [orb]. cbv zeta. rewrite Htok, Hlast, Hlevel.
    exists (bucket_step (limit_of t) st (ck_now c)).2, db. split; [|done]. unfold bucket_step. destruct (_ <=? level _ _ _); reflexivity. }
  destruct Hstep as (out&db'&->&->&->). eexists. split; [done|]. split; [done|]. intros srv' Hs'.
  pose proof (bucket_step_time (limit_of t) st (ck_now c)) as Htime.
  destruct (bucket_step (limit_of t) st (ck_now c)) as [[tokens' last'] out]. cbn [fst snd] in *. subst last'.
  rewrite !px_get_set by done. rewrite (decide_False _ _ (keys_ne t t)). by rewrite !decide_True by done.
Qed.

(** The answers to the checks of the tenant [t]. *)
Definition answers_of (t : string) (outs : list (Check * option (list Z))) : list (option (list Z)) :=
  (filter (λ co, of_tenant t co.1) outs).*2.
Definition times_of (t : string) (checks : list Check) : list Z := ck_now <$> filter (of_tenant t) checks.

Lemma check_run_refines t srv wrote db st checks :
  limit_ok (limit_of t) → holds_bucket t srv wrote db st →
  Forall (λ c, srv ≤ ck_srv c) checks → StronglySorted (λ c c', ck_srv c ≤ ck_srv c') checks →
  Forall (next_check wrote st) (filter (of_tenant t) checks) →
  StronglySorted clock_le (filter (of_tenant t) checks) →
  answers_of t (check_run checks db).1 = Some <$> bucket_run (limit_of t) st (times_of t checks).
Proof.
  intros Hl. unfold times_of. revert srv wrote db st.
  induction checks as [|c checks IH]; intros srv wrote db st Hh Hsrv Hsort Hnext Hclock; [done|].
  apply Forall_cons in Hsrv as [Hs Hsrv]. apply StronglySorted_inv in Hsort as [Hsort Hall].
  cbn [check_run]. destruct (check_script c db) as [db' out] eqn:E.
  destruct (check_run checks db') as [outs db''] eqn:E'. cbn [fst].
  unfold answers_of. destruct (decide (of_tenant t c)) as [Hc|Hc].
  - rewrite !filter_cons_True in * by done. pose proof (bool_decide_unpack _ Hc) as Ht. clear Hc.
    apply Forall_cons in Hnext as [Hc Hnext]. apply StronglySorted_inv in Hclock as [Hclock Hle].
    destruct (check_own t srv wrote db st c Hl Hh Hs Hc Ht) as (db1&Heq&Hh'). rewrite Heq in E. simplify_eq.
    cbn [fmap list_fmap bucket_run]. destruct (bucket_step _ _ _) as [st' ans] eqn:Est. cbn [fst snd] in *.
    cbn [fmap list_fmap]. f_equal.
    specialize (IH (ck_srv c) (ck_srv c) db' (Some st') Hh' Hall Hsort). rewrite E' in IH. apply IH; [|done].
    pose proof (bucket_step_time (limit_of (sanitize_key (ck_tenant c))) st (ck_now c)) as Hlast.
    rewrite Est in Hlast. cbn [fst] in Hlast.
    apply Forall_forall. intros c' Hc'. rewrite Forall_forall in Hle, Hnext. destruct (Hnext _ Hc') as [? _].
    destruct (Hle _ Hc') as (?&?&?). destruct Hc as [? _]. destruct st' as [tok last]. simpl in Hlast. subst last.
    split; [done|]. split; lia.
  - rewrite !filter_cons_False in * by done.
    assert (sanitize_key (ck_tenant c) ≠ t) as Ht by (intros Ht; apply Hc; by apply bool_decide_pack).
    specialize (IH (ck_srv c) wrote db' st). rewrite E' in IH. apply IH; [|done..].
    replace db' with (check_script c db).1 by (by rewrite E). by eapply check_other.
Qed.
End checks.

(** ** Guarantees of the ideal bucket *)

Definition passed (out : list Z) : bool := bool_decide (head out = Some 1).
(** The checks that passed at a time in [[a, b]]. *)
Definition passed_between (a b : Z) (history : list (Z * list Z)) : list (Z * list Z) :=
  filter (λ e, passed e.2 = true ∧ a ≤ e.1 ≤ b) history.

Section guarantees.
Variable l : TenantRateLimit.
Context (Hl : limit_ok l).
Notation rate := (trl_rps l).
Notation capacity := (trl_burst l * 1000).
Notation price := (trl_cost l * 1000).
Notation run st times := (zip times (bucket_run l st times)).

Lemma bucket_step_cases st now :
  level_ok l st →
  (passed (bucket_step l st now).2 = true ∧ price ≤ level l st now ∧ (bucket_step l st now).1 = (level l st now - price, now)) ∨
  (passed (bucket_step l st now).2 = false ∧ level l st now < price ∧ (bucket_step l st now).1 = (level l st now, now)).
Proof.
  intros Hst. unfold bucket_step. destruct (Z.leb_spec price (level l st now)); [left|right]; done.
Qed.
Lemma run_cons st now times :
  run st (now :: times) = (now, (bucket_step l st now).2) :: run (Some (bucket_step l st now).1) times.
Proof. simpl. by destruct (bucket_step l st now). Qed.

Lemma none_later a b st times : Forall (λ t, b < t) times → passed_between a b (run st times) = [].
Proof.
  unfold passed_between. revert st. induction times as [|t times IH]; intros st Ht; [done|].
  apply Forall_cons in Ht as [? Ht]. rewrite run_cons, filter_cons_False by (simpl; lia). by apply IH.
Qed.

(** What passes from a known level on. *)
Lemma passes_from a b tokens last times :
  level_ok l (Some (tokens, last)) → a ≤ last ≤ b → StronglySorted Z.le (last :: times) →
  price * Z.of_nat (length (passed_between a b (run (Some (tokens, last)) times))) ≤ tokens + rate * (b - last).
Proof.
  revert tokens last. induction times as [|now times IH]; intros tokens last Hlev Hab Hs.
  { simpl in *. destruct Hl as (?&?&?). nia. }
  apply StronglySorted_inv in Hs as [Hs Hle]. pose proof Hs as [Hs' Hle']%StronglySorted_inv.
  apply Forall_cons in Hle as [Hnow _]. pose proof Hl as (?&?&?).
  destruct (decide (b < now)) as [Hb|Hb].
  { rewrite none_later; [simpl in *; nia|]. constructor; [done|]. eapply Forall_impl; [exact Hle'|]. simpl. lia. }
  pose proof (level_bounds l Hl (Some (tokens, last)) now Hlev) as Hlv.
  assert (level l (Some (tokens, last)) now ≤ tokens + rate * (now - last)).
  { simpl. rewrite (Z.max_r 0 (now - last)) by lia. lia. }
  rewrite run_cons. unfold passed_between. rewrite filter_cons. cbn [fst snd].
  pose proof (bucket_step_ok l Hl (Some (tokens, last)) now Hlev) as Hok.
  destruct (bucket_step_cases (Some (tokens, last)) now Hlev) as [(Hp&?&Est)|(Hp&?&Est)]; rewrite Hp, Est in *.
  - rewrite decide_True by (split; [done|lia]). cbn [length].
    specialize (IH _ _ Hok ltac:(lia) Hs). unfold passed_between in IH. nia.
  - rewrite decide_False by naive_solver.
    specialize (IH _ _ Hok ltac:(lia) Hs). unfold passed_between in IH. nia.
Qed.

Lemma passes_bound a b st times :
  level_ok l st → a ≤ b → StronglySorted Z.le times →
  price * Z.of_nat (length (passed_between a b (run st times))) ≤ capacity + rate * (b - a).
Proof.
  intros Hlev Hab. revert st Hlev. induction times as [|now times IH]; intros st Hlev Hs.
  { simpl. destruct Hl as (?&?&?). nia. }
  pose proof Hs as [Hs' Hle']%StronglySorted_inv. pose proof Hl as (?&?&?).
  destruct (decide (b < now)) as [Hb|Hb].
  { rewrite none_later; [simpl in *; nia|]. constructor; [done|]. eapply Forall_impl; [exact Hle'|]. simpl. lia. }
  pose proof (bucket_step_ok l Hl st now Hlev) as Hok. pose proof (level_bounds l Hl st now Hlev) as Hlv.
  rewrite run_cons. unfold passed_between. rewrite filter_cons. cbn [fst snd].
  destruct (decide (now < a)) as [Ha|Ha].
  { rewrite decide_False by lia. by apply IH. }
  destruct (bucket_step_cases st now Hlev) as [(Hp&?&Est)|(Hp&?&Est)]; rewrite Hp, Est in *.
  - rewrite decide_True by (split; [done|lia]). cbn [length].
    pose proof (passes_from a b _ _ times Hok ltac:(lia) Hs) as IH'. unfold passed_between in IH'. nia.
  - rewrite decide_False by naive_solver.
    pose proof (passes_from a b _ _ times Hok ltac:(lia) Hs) as IH'. unfold passed_between in IH'. nia.
Qed.

Lemma ceil_div_spec x y n : 0 < y → (ceil_div x y ≤ n ↔ x ≤ n * y).
Proof.
  intros Hy. unfold ceil_div. pose proof (Z.div_mod (- x) y ltac:(lia)). pose proof (Z.mod_pos_bound (- x) y Hy).
  split; nia.
Qed.

(** The waiting time a rejected check reports is the time until a check passes. *)
Lemma retry_exact st times h1 t1 out1 t2 out2 h2 :
  level_ok l st → price ≤ capacity → StronglySorted Z.le times →
  run st times = h1 ++ (t1, out1) :: (t2, out2) :: h2 → passed out1 = false →
  (passed out2 = true ↔ t1 + default 0 (out1 !! 2%nat) ≤ t2).
Proof.
  intros Hlev Hpc. revert st h1 Hlev. induction times as [|now times IH]; intros st h1 Hlev Hs Hrun Hp1; [by destruct h1|].
  rewrite run_cons in Hrun. pose proof (bucket_step_ok l Hl st now Hlev) as Hok.
  pose proof Hs as [Hs' Hle']%StronglySorted_inv.
  destruct h1 as [|e h1]; [|injection Hrun as _ Hrun; by eapply (IH _ h1 Hok)].
  injection Hrun as <- <- Hrun. destruct times as [|now2 times]; [done|].
  rewrite run_cons in Hrun. injection Hrun as <- <- _.
  apply Forall_cons in Hle' as [Hle _]. pose proof (level_bounds l Hl st now Hlev) as Hb. pose proof Hl as (?&?&?).
  destruct (bucket_step_cases st now Hlev) as [(Hp&?&Est)|(_&Hlow&Est)]; [congruence|]. rewrite Est in *.
  assert ((bucket_step l st now).2 = [0; level l st now; ceil_div (price - level l st now) rate]) as ->.
  { unfold bucket_step. destruct (Z.leb_spec price (level l st now)); [lia|reflexivity]. }
  change (default 0 ([0; level l st now; ceil_div (price - level l st now) rate] !! 2%nat))
    with (ceil_div (price - level l st now) rate).
  assert (level l (Some (level l st now, now)) now2 = Z.min capacity (level l st now + (now2 - now) * rate)) as Hlv2.
  { simpl. by rewrite (Z.max_r 0 (now2 - now)) by lia. }
  destruct (bucket_step_cases (Some (level l st now, now)) now2 Hok) as [(->&Hlv&_)|(->&Hlv&_)]; rewrite Hlv2 in Hlv.
  - split; [|done]. intros _. assert (ceil_div (price - level l st now) rate ≤ now2 - now); [|lia].
    apply ceil_div_spec; lia.
  - split; [done|]. intros Hw. assert (ceil_div (price - level l st now) rate ≤ now2 - now) as Hc by lia.
    apply ceil_div_spec in Hc; lia.
Qed.
End guarantees.

(** ** Properties *)

Section properties.
Context `{R : RedisPx} (Hlaws : RedisPxLaws R).
Variable limit_of : string → TenantRateLimit.

(** Nothing is stored for the tenant [t]. *)
Definition keys_absent (t : string) (db : PxDB) : Prop :=
  ∀ srv, px_get srv (tokens_key t) db = None ∧ px_get srv (ts_key t) db = None.
(** The server's clock does not run backwards; nor does the service's between the checks of
    [t], and the server's is not more than nine times as fast. *)
Definition checks_ok (t : string) (checks : list Check) : Prop :=
  StronglySorted (λ c c', ck_srv c ≤ ck_srv c') checks ∧
  Forall (λ c, 0 ≤ ck_now c < 2 ^ 53) (filter (of_tenant t) checks) ∧
  StronglySorted clock_le (filter (of_tenant t) checks).
(** The times and answers of the checks of [t]. *)
Definition history_of (t : string) (outs : list (Check * option (list Z))) : list (Z * list Z) :=
  omap (λ co, if of_tenant t co.1 then (λ out, (ck_now co.1, out)) <$> co.2 else None) outs.

Lemma check_run_bucket t db checks :
  limit_ok (limit_of t) → keys_absent t db → checks_ok t checks →
  answers_of t (check_run limit_of checks db).1 = Some <$> bucket_run (limit_of t) None (times_of t checks).
Proof.
  intros Hl Hdb (Hs&Hn&Hc). destruct checks as [|c checks]; [done|].
  apply (check_run_refines limit_of Hlaws t (ck_srv c) 0); try done.
  - constructor; [done|]. by apply StronglySorted_inv in Hs as [_ ?].
  - eapply Forall_impl; [exact Hn|]. intros c' ?. by split.
Qed.

Lemma check_run_checks checks db : (check_run limit_of checks db).1.*1 = checks.
Proof.
  revert db. induction checks as [|c checks IH]; intros db; [done|]. simpl.
  destruct (check_script limit_of c db) as [db' out]. specialize (IH db').
  destruct (check_run limit_of checks db') as [outs db'']. cbn [fst] in *. cbn [fmap list_fmap fst]. f_equal. exact IH.
Qed.
Lemma history_zip t outs l :
  answers_of t outs = Some <$> l → history_of t outs = zip (times_of t outs.*1) l.
Proof.
  unfold answers_of, times_of, history_of. revert l. induction outs as [|[c out] outs IH]; intros l Heq; [done|].
  cbn [omap list_omap fst snd fmap list_fmap]. destruct (of_tenant t c) eqn:E.
  - rewrite filter_cons_True in Heq by (by simpl; rewrite E). rewrite filter_cons_True by (by rewrite E).
    destruct l as [|o l]; [done|]. simpl in Heq. injection Heq as -> Heq. simpl. f_equal. by apply IH.
  - rewrite filter_cons_False in Heq by (simpl; rewrite E; exact id). rewrite filter_cons_False by (rewrite E; exact id). by apply IH.
Qed.
Lemma check_run_history t db checks :
  limit_ok (limit_of t) → keys_absent t db → checks_ok t checks →
  history_of t (check_run limit_of checks db).1 = zip (times_of t checks) (bucket_run (limit_of t) None (times_of t checks)).
Proof.
  intros. rewrite (history_zip _ _ (bucket_run (limit_of t) None (times_of t checks))); [by rewrite check_run_checks|].
  by apply check_run_bucket.
Qed.
Lemma times_sorted t checks : checks_ok t checks → StronglySorted Z.le (times_of t checks).
Proof.
  intros (_&_&Hc). unfold times_of. induction Hc as [|c cs Hc IH Hall]; [constructor|].
  simpl. constructor; [done|]. apply Forall_fmap. eapply Forall_impl; [exact Hall|]. intros c' (_&?&_). done.
Qed.
End properties.

(** with the checks of all tenants interleaved in any way, the script answers each check
    of a tenant as an ideal token bucket of its own that never expires, full at first: the
    expiry of the keys and the other tenants are not noticed. The tenant's limit is valid and
    exact in Lua, the clocks do not run backwards, and the server's is not more than nine
    times as fast as the service's. *)
Theorem bucket_refines `{R : RedisPx} `{!RedisPxLaws R} limit_of t db checks
  (Hl : limit_ok (limit_of t)) (Hdb : keys_absent t db) (Hchecks : checks_ok t checks) :
  answers_of t (check_run limit_of checks db).1 = Some <$> bucket_run (limit_of t) None (times_of t checks).
Proof. by apply check_run_bucket. Qed.


(** ** A reference server *)

#[export] Instance ref_px : RedisPx := {|
  PxDB := gmap string (string * Z);
  px_get t k db := '(v, e) ← db !! k; if t <? e then Some v else None;
  px_set t k v ttl db := <[k := (v, t + ttl)]> db;
  lua_tonumber := parse_signed 64;
  lua_ceil_scaled a b := ceil_div (10 * a) b;
|}.
#[export] Instance ref_px_laws : RedisPxLaws ref_px.
Proof.
  split; simpl.
  - intros t k v ttl db t' k' _. case_decide; subst; [by rewrite lookup_insert_eq|by rewrite lookup_insert_ne].
  - intros n Hn. apply parse_signed_z_string; [lia|]. unfold in_signed. lia.
  - intros a b Ha Hb. pose proof (proj1 (ceil_div_spec (10 * a) b (ceil_div (10 * a) b) ltac:(lia)) ltac:(lia)). lia.
Qed.

(** Two tokens a second and a burst of two; the fourth check comes when the third was told. *)
Definition ex_limit : TenantRateLimit := MkTenantRateLimit 2 2 1.
Definition ex_checks : list Check :=
  [MkCheck "a" 10 0; MkCheck "b" 11 0; MkCheck "a" 12 1; MkCheck "a" 13 2; MkCheck "a" 600 500; MkCheck "a" 400000 399000].
Lemma ex_checks_ok : checks_ok "a" ex_checks.
Proof.
  split_and!.
  - repeat constructor; simpl; lia.
  - simpl. repeat constructor; simpl; lia.
  - simpl. repeat constructor; unfold clock_le; simpl; lia.
Qed.
Lemma ex_bucket_run :
  Some <$> bucket_run ex_limit None (times_of "a" ex_checks) =
  Some <$> [[1; 1000; 0]; [1; 2; 0]; [0; 4; 498]; [1; 0; 0]; [1; 1000; 0]].
Proof. vm_compute. reflexivity. Qed.
Lemma bucket_refines_witness :
  answers_of "a" (check_run (λ _, ex_limit) ex_checks ∅).1 =
  Some <$> [[1; 1000; 0]; [1; 2; 0]; [0; 4; 498]; [1; 0; 0]; [1; 1000; 0]].
Proof.
  assert (Hl : limit_ok ((λ _, ex_limit) "a")) by (unfold limit_ok; simpl; lia).
  refine (eq_trans (bucket_refines (λ _, ex_limit) "a" ∅ ex_checks Hl _ ex_checks_ok) ex_bucket_run).
  by intros srv.
Defined.

(** A service clock that is set back credits the same time twice: of four checks that pass at
    one token a second the last comes a millisecond after the second. *)
Example clock_set_back :
  (λ e, (e.1, passed e.2)) <$> history_of "a" (check_run (λ _, MkTenantRateLimit 1 1 1)
    [MkCheck "a" 0 0; MkCheck "a" 1000 1000; MkCheck "a" 1001 1; MkCheck "a" 1002 1001] ∅).1 =
  [(0, true); (1000, true); (1, false); (1001, true)].
Proof. reflexivity. Qed.
