(* ===== verification/AiRules.v ===== *)
(** * AI gateway service: the rules of a tenant

    The key of a rule is a path of its sanitized dimensions, so it can be read back, and the
    candidate keys of a request are the keys of exactly the rules that apply to it, from the
    most to the least specific. The edits and the resolution of rules over Redis are therefore
    operations on an abstract table of rules ([rules_refine]). *)

From S2P Require Export AiLimit.
Local Open Scope string_scope.
Local Open Scope list_scope.
Local Open Scope Z_scope.

(** ** Keys as paths *)

Definition dim (name : string) (o : option string) : list string :=
  match o with Some v => [name; v] | None => [] end.
Definition rule_parts (tenant : string) (model path policy : option string) : list string :=
  tenant :: dim "model" model ++ dim "path" path ++ dim "policy" policy.
(** A dimension of a rule as it is in the key. *)
Definition key_dim (o : option string) : option string := sanitize_key <$> non_empty_opt o.
Definition key_parts (r : TenantRateLimitRule) : list string :=
  rule_parts (sanitize_key (str_trim (rule_tenant r))) (key_dim (rule_model r)) (key_dim (rule_path r)) (key_dim (rule_policy r)).

Lemma str_join_cons c x y l : str_join c (x :: y :: l) = x +:+ String c (str_join c (y :: l)).
Proof. done. Qed.

Lemma join_rule_parts t m p q :
  str_join ":" (rule_parts t m p q) =
  t +:+ from_option (λ m, ":model:" +:+ m) "" m +:+ from_option (λ p, ":path:" +:+ p) "" p +:+
  from_option (λ q, ":policy:" +:+ q) "" q.
Proof.
  destruct m, p, q; simpl; rewrite ?str_app_nil_r; try done;
    repeat (rewrite <- str_app_assoc; simpl); done.
Qed.
Lemma rule_parts_inj t m p q t' m' p' q' :
  rule_parts t m p q = rule_parts t' m' p' q' → t = t' ∧ m = m' ∧ p = p' ∧ q = q'.
Proof. destruct m, p, q, m', p', q'; intros; by simplify_eq/=. Qed.

Lemma no_char_sanitize s : no_char ":" s → no_char ":" (sanitize_key s).
Proof.
  induction s as [|a s IH]; simpl; [done|]. rewrite no_char_cons. intros [Ha Hs].
  destruct (is_continuation a); [by apply IH|]. apply no_char_cons. split; [|by apply IH].
  by destruct (is_key_char a).
Qed.
Definition no_colon (o : option string) : Prop := from_option (no_char ":") True o.
Lemma rule_parts_split t m p q :
  no_char ":" t → no_colon m → no_colon p → no_colon q →
  str_split ":" (str_join ":" (rule_parts t m p q)) = rule_parts t m p q.
Proof.
  intros Ht Hm Hp Hq. apply str_split_join; [done|].
  unfold rule_parts. constructor; [done|]. rewrite !Forall_app.
  split_and!; [destruct m|destruct p|destruct q]; repeat constructor; done.
Qed.
Lemma join_parts_inj t m p q t' m' p' q' :
  no_char ":" t → no_colon m → no_colon p → no_colon q → no_char ":" t' → no_colon m' → no_colon p' → no_colon q' →
  str_join ":" (rule_parts t m p q) = str_join ":" (rule_parts t' m' p' q') →
  t = t' ∧ m = m' ∧ p = p' ∧ q = q'.
Proof.
  intros ???????? Heq. apply rule_parts_inj.
  rewrite <- (rule_parts_split t m p q), <- (rule_parts_split t' m' p' q') by done. by rewrite Heq.
Qed.

Section rules.
Context (cfg : Args).
Implicit Types r : TenantRateLimitRule.

Lemma rule_key_parts r : tenant_rate_limit_rule_key cfg r = tenant_rate_limit_prefix cfg +:+ str_join ":" (key_parts r).
Proof.
  unfold tenant_rate_limit_rule_key, key_parts, key_dim. rewrite join_rule_parts.
  destruct (non_empty_opt (rule_model r)), (non_empty_opt (rule_path r)), (non_empty_opt (rule_policy r));
    simpl; rewrite ?str_app_nil_r; repeat rewrite <- str_app_assoc; done.
Qed.

(** The dimensions a candidate key names, from the most to the least specific. *)
Definition subsets : list (bool * bool * bool) :=
  [(true, true, true); (true, true, false); (true, false, true); (false, true, true);
   (true, false, false); (false, true, false); (false, false, true); (false, false, false)].
Definition given (b : bool) (s : string) : option string := if b then Some (sanitize_key s) else None.
Definition candidate (tenant model path policy : string) (s : bool * bool * bool) : list string :=
  let '(m, p, q) := s in rule_parts (sanitize_key tenant) (given m model) (given p path) (given q policy).
Lemma candidate_keys_parts tenant model path policy :
  tenant_rate_limit_candidate_keys cfg tenant model path policy =
  (λ s, tenant_rate_limit_prefix cfg +:+ str_join ":" (candidate tenant model path policy s)) <$> subsets.
Proof.
  unfold tenant_rate_limit_candidate_keys, subsets, candidate. cbn [fmap list_fmap]. rewrite !join_rule_parts.
  cbn [given from_option]. rewrite !str_app_nil_r. repeat rewrite <- str_app_assoc. done.
Qed.

(** *** The rules that apply to a request *)

Definition dim_applies (o : option string) (s : string) : Prop :=
  match key_dim o with Some v => v = sanitize_key s | None => True end.
Definition applies (r : TenantRateLimitRule) (tenant model path policy : string) : Prop :=
  sanitize_key (str_trim (rule_tenant r)) = sanitize_key tenant ∧
  dim_applies (rule_model r) model ∧ dim_applies (rule_path r) path ∧ dim_applies (rule_policy r) policy.
Definition has (o : option string) : bool := bool_decide (is_Some (non_empty_opt o)).
Definition subset_of (r : TenantRateLimitRule) : bool * bool * bool := (has (rule_model r), has (rule_path r), has (rule_policy r)).
Definition subset_size (s : bool * bool * bool) : Z :=
  let '(m, p, q) := s in (if m then 1 else 0) + (if p then 1 else 0) + (if q then 1 else 0).

Lemma rule_specificity_subset r : rule_specificity r = subset_size (subset_of r).
Proof. done. Qed.
Lemma subset_in s : s ∈ subsets.
Proof. destruct s as [[[] []] []]; unfold subsets; set_solver. Qed.
Lemma subsets_sorted : StronglySorted (λ s s', subset_size s' ≤ subset_size s) subsets.
Proof. repeat constructor; simpl; lia. Qed.

(** A rule the service accepts has dimensions without colons. *)
Definition rule_plain (r : TenantRateLimitRule) : Prop :=
  no_char ":" (str_trim (rule_tenant r)) ∧ no_colon (non_empty_opt (rule_model r)) ∧
  no_colon (non_empty_opt (rule_path r)) ∧ no_colon (non_empty_opt (rule_policy r)).
Lemma key_dim_plain o : no_colon (non_empty_opt o) → no_colon (key_dim o).
Proof. unfold key_dim. destruct (non_empty_opt o); simpl; [apply no_char_sanitize|done]. Qed.
Lemma given_plain b s : no_char ":" s → no_colon (given b s).
Proof. destruct b; simpl; [apply no_char_sanitize|done]. Qed.

Lemma dim_applies_given o s b : key_dim o = given b s ↔ dim_applies o s ∧ has o = b.
Proof.
  unfold dim_applies, key_dim, given, has. destruct (non_empty_opt o) as [v|]; cbn [fmap option_fmap option_map].
  - rewrite bool_decide_eq_true_2 by (by eexists). destruct b; (split; [intros Heq|intros [Heq ?]]); try done.
    + by injection Heq as ->.
    + by rewrite Heq.
  - rewrite bool_decide_eq_false_2 by (by intros []). destruct b; split; try done. by intros [_ ?].
Qed.
Lemma candidate_rule r tenant model path policy s :
  rule_plain r → no_char ":" tenant → no_char ":" model → no_char ":" path → no_char ":" policy →
  str_join ":" (key_parts r) = str_join ":" (candidate tenant model path policy s) ↔
  applies r tenant model path policy ∧ subset_of r = s.
Proof.
  intros (Ht&Hm&Hp&Hq) ????. destruct s as [[bm bp] bq]. unfold key_parts, candidate, applies, subset_of.
  assert (str_join ":" (rule_parts (sanitize_key (str_trim (rule_tenant r))) (key_dim (rule_model r)) (key_dim (rule_path r)) (key_dim (rule_policy r))) =
    str_join ":" (rule_parts (sanitize_key tenant) (given bm model) (given bp path) (given bq policy)) ↔
    sanitize_key (str_trim (rule_tenant r)) = sanitize_key tenant ∧ key_dim (rule_model r) = given bm model ∧
    key_dim (rule_path r) = given bp path ∧ key_dim (rule_policy r) = given bq policy) as ->.
  { split; [|by intros (->&->&->&->)].
    apply join_parts_inj; auto using no_char_sanitize, key_dim_plain, given_plain. }
  rewrite !dim_applies_given. naive_solver.
Qed.
End rules.

(** ** Rules over Redis

    An environment whose commands succeed: [kv] is what its keys hold. Keys do not expire
    while the rules are looked at. *)

Class KvEnv (W : Type) := { kv_respond : Cmd → W → Reply * W; kv : W → string → option string }.
Class KvLaws {W} (E : KvEnv W) : Prop := {
  kv_get k w : kv_respond (CGet k) w = (match kv w k with Some v => RText v | None => RNil end, w);
  kv_set k v ex w : ∃ r w', kv_respond (CSet k v ex false) w = (r, w') ∧ (∀ e, r ≠ RErr e) ∧
    ∀ k', kv w' k' = if decide (k' = k) then Some v else kv w k';
  kv_del k w : ∃ n w', kv_respond (CDel k) w = (RInt n, w') ∧
    ∀ k', kv w' k' = if decide (k' = k) then None else kv w k';
  kv_ttl k w : ∃ r, kv_respond (CTtl k) w = (r, w);
}.
Class AiLaws (L : AiLib) : Prop := {
  stored_limit_roundtrip x raw :
    ser_stored_limit x = Ok raw → str_trim raw = raw ∧ raw ≠ "" ∧ de_stored_limit raw = Some x;
}.

(** The abstract table: rules by their dimensions as they are in a key. *)
Notation RuleTable := (gmap (list string) TenantRateLimitRule).

Inductive RuleEdit := Upsert (r : TenantRateLimitRule) | DeleteRule (r : TenantRateLimitRule).

Section table.
Context `{L : AiLib} (cfg : Args) {W : Type} `{E : !KvEnv W}.
Implicit Types r : TenantRateLimitRule.

Definition rule_limit (r : TenantRateLimitRule) : TenantRateLimit :=
  MkTenantRateLimit (rule_rps r) (rule_burst r) (Z.max 1 (rule_cost r)).
Definition edit_rule (e : RuleEdit) : result unit ServiceError * W → result unit ServiceError * W := λ s,
  match e with
  | Upsert r => let '(res, w) := exec kv_respond (upsert_tenant_rate_limit_rule cfg r) s.2 in (result_map (λ _, ()) res, w)
  | DeleteRule r => let '(res, w) := exec kv_respond (delete_tenant_rate_limit_rule cfg r) s.2 in (result_map (λ _, ()) res, w)
  end.
(** All edits, one after the other. *)
Definition edit_rules (edits : list RuleEdit) (w : W) : W := (foldl (λ s e, edit_rule e s) (Ok (), w) edits).2.

Definition edit_valid (e : RuleEdit) : bool :=
  match e with
  | Upsert r => match validate_tenant_rate_limit_rule r, ser_stored_limit (MkStoredTenantRateLimit (rule_rps r) (rule_burst r)
      (Z.max 1 (rule_cost r)) (rule_ttl_secs r)) with Ok _, Ok _ => true | _, _ => false end
  | DeleteRule r => match validate_tenant_rule_dimensions r with Ok _ => true | Err _ => false end
  end.
Definition edit_table (t : RuleTable) (e : RuleEdit) : RuleTable :=
  if edit_valid e then
    match e with Upsert r => <[key_parts r := r]> t | DeleteRule r => delete (key_parts r) t end
  else t.
(** The most specific rule of the table that applies decides. *)
Definition resolved (t : RuleTable) (tenant model path policy : string) (l : TenantRateLimit) : Prop :=
  (∃ parts r, t !! parts = Some r ∧ applies r tenant model path policy ∧ l = rule_limit r ∧
     ∀ parts' r', t !! parts' = Some r' → applies r' tenant model path policy → rule_specificity r' ≤ rule_specificity r) ∨
  (l = global_rate_limit cfg ∧ ∀ parts r, t !! parts = Some r → ¬ applies r tenant model path policy).

(** The keys of the rules hold the table. *)
Definition key_of (parts : list string) : string := tenant_rate_limit_prefix cfg +:+ str_join ":" parts.
Definition stores (w : W) (t : RuleTable) : Prop :=
  (∀ parts r, t !! parts = Some r → parts = key_parts r ∧ rule_plain r) ∧
  ∀ ten m p q, let parts := rule_parts ten m p q in
    no_char ":" ten → no_colon m → no_colon p → no_colon q →
    (kv w (key_of parts) ≫= parse_stored_tenant_rate_limit) =
    (λ r, MkParsed (rule_limit r) (rule_ttl_secs r)) <$> t !! parts.

Context `{!KvLaws E} `{!AiLaws L}.

Lemma validate_dimensions_plain r : validate_tenant_rule_dimensions r = Ok () → rule_plain r.
Proof.
  unfold validate_tenant_rule_dimensions, validate_admin_rule_dimension, validate_opt, rule_plain, no_char.
  destruct (str_is_empty _); [done|]. destruct (str_contains_char _ _); [done|]. cbn [result_bind].
  destruct (non_empty_opt (rule_model r)) as [m|]; [destruct (str_contains_char ":" m) eqn:?; [done|]|]; cbn [result_bind];
  (destruct (non_empty_opt (rule_path r)) as [p|]; [destruct (str_contains_char ":" p) eqn:?; [done|]|]; cbn [result_bind]);
  (destruct (non_empty_opt (rule_policy r)) as [q|]; [unfold validate_policy_dimension; case_bool_decide as Hq; [|done]|]);
  intros _; split_and!; try done; simpl; set_unfold in Hq; destruct_or! Hq; subst q; done.
Qed.
Lemma validate_rule_dimensions r : validate_tenant_rate_limit_rule r = Ok () → validate_tenant_rule_dimensions r = Ok ().
Proof.
  unfold validate_tenant_rate_limit_rule. destruct (validate_tenant_rule_dimensions r) as [[]|]; [done|]. done.
Qed.

Lemma parse_stored x raw :
  ser_stored_limit x = Ok raw →
  parse_stored_tenant_rate_limit raw =
  Some (MkParsed (MkTenantRateLimit (str_rps x) (str_burst x) (Z.max 1 (str_cost x))) (str_ttl_secs x)).
Proof.
  intros Hs. destruct (stored_limit_roundtrip x raw Hs) as (Ht&Hne&Hde). unfold parse_stored_tenant_rate_limit.
  rewrite Ht, Hde. by destruct raw.
Qed.
Lemma key_parts_plain r : rule_plain r →
  no_char ":" (sanitize_key (str_trim (rule_tenant r))) ∧ no_colon (key_dim (rule_model r)) ∧
  no_colon (key_dim (rule_path r)) ∧ no_colon (key_dim (rule_policy r)).
Proof. intros (?&?&?&?). split_and!; auto using no_char_sanitize, key_dim_plain. Qed.
Lemma key_of_inj r ten m p q :
  rule_plain r → no_char ":" ten → no_colon m → no_colon p → no_colon q →
  key_of (rule_parts ten m p q) = key_of (key_parts r) → rule_parts ten m p q = key_parts r.
Proof.
  intros (?&?&?&?)%key_parts_plain ???? Heq%str_app_inj_l. apply join_parts_inj in Heq as (->&->&->&->); done.
Qed.

Lemma set_cost_parts c r : key_parts (set_rule_cost c r) = key_parts r.
Proof. done. Qed.

Lemma edit_rule_stores e s t : stores s.2 t → stores (edit_rule e s).2 (edit_table t e).
Proof.
  intros [Hplain Hkv]. unfold edit_table, edit_valid, edit_rule. destruct e as [r|r].
  - unfold upsert_tenant_rate_limit_rule, try_bind, lift. cbn [bind].
    destruct (validate_tenant_rate_limit_rule r) as [[]|e] eqn:Hv; [|done]. cbn [bind exec].
    cbn [rule_rps rule_burst rule_cost rule_ttl_secs set_rule_cost].
    destruct (ser_stored_limit _) as [raw|e] eqn:Hs; [|done]. cbn [map_err bind exec].
    unfold redis_set, redis. cbn [bind exec]. rewrite rule_key_parts, set_cost_parts. fold (key_of (key_parts r)).
    destruct (kv_set (key_of (key_parts r)) raw ((λ ttl, swrap 64 (Z.max 1 ttl)) <$> rule_ttl_secs r) s.2) as (rep&w'&->&Hrep&Hget).
    assert (convert as_unit rep = Ok ()) as -> by (destruct rep; try done; by destruct (Hrep e)).
    cbn [bind]. unfold read_ttl_remaining_secs, redis. cbn [bind exec].
    destruct (kv_ttl (key_of (key_parts r)) w') as [rt ->]. cbn [exec ok snd].
    pose proof (validate_dimensions_plain r (validate_rule_dimensions r Hv)) as Hp. split.
    + intros parts r'. rewrite lookup_insert. case_decide as Hk; [|apply Hplain]. intros [= <-]. done.
    + intros ten m p q parts ????. rewrite Hget. subst parts. case_decide as Hk.
      * apply key_of_inj in Hk; [|done..]. rewrite Hk, lookup_insert_eq. cbn [mbind option_bind].
        rewrite (parse_stored _ _ Hs). cbn. unfold rule_limit. do 3 f_equal. lia.
      * rewrite lookup_insert_ne by (intros Heq; apply Hk; by rewrite Heq). by apply Hkv.
  - unfold delete_tenant_rate_limit_rule, try_bind, lift. cbn [bind].
    destruct (validate_tenant_rule_dimensions r) as [[]|e] eqn:Hv; [|done]. cbn [bind exec].
    unfold redis_del, redis. cbn [bind exec]. rewrite rule_key_parts. fold (key_of (key_parts r)).
    destruct (kv_del (key_of (key_parts r)) s.2) as (n&w'&->&Hget). cbn [exec snd].
    pose proof (validate_dimensions_plain r Hv) as Hp. split.
    + intros parts r'. rewrite lookup_delete_Some. intros [_ ?]. by apply Hplain.
    + intros ten m p q parts ????. rewrite Hget. subst parts. case_decide as Hk.
      * apply key_of_inj in Hk; [|done..]. by rewrite Hk, lookup_delete_eq.
      * rewrite lookup_delete_ne by (intros Heq; apply Hk; by rewrite Heq). by apply Hkv.
Qed.
Lemma edit_rules_stores edits w t : stores w t → stores (edit_rules edits w) (foldl edit_table t edits).
Proof.
  unfold edit_rules. change w with (@Ok unit ServiceError (), w).2 at 1. generalize (@Ok unit ServiceError (), w).
  clear w. revert t. induction edits as [|e edits IH]; intros t s Hs; [done|]. simpl. by apply IH, edit_rule_stores.
Qed.

Lemma first_stored_exec keys w :
  exec kv_respond (first_stored keys) w =
  (Ok (find_map (λ k, (λ s, (k, s)) <$> (kv w k ≫= parse_stored_tenant_rate_limit)) keys), w).
Proof.
  induction keys as [|k keys IH]; [done|]. cbn [first_stored find_map]. unfold redis_get, redis, try_bind.
  cbn [bind exec]. rewrite kv_get.
  destruct (kv w k) as [v|]; cbn [convert as_opt_text ok_or bind mbind option_bind fmap option_fmap option_map]; [|exact IH].
  by destruct (parse_stored_tenant_rate_limit v).
Qed.

Lemma resolve_stores w t tenant model path policy :
  stores w t → no_char ":" tenant → no_char ":" model → no_char ":" path → no_char ":" policy →
  ∃ l, exec kv_respond (resolve_rate_limit cfg tenant model path policy) w = (Ok l, w) ∧
    resolved t tenant model path policy l.
Proof.
  intros [Hplain Hkv] Ht Hm Hp Hq. unfold resolve_rate_limit, try_bind. rewrite exec_bind, first_stored_exec.
  rewrite candidate_keys_parts. set (look := λ k, _ <$> _).
  assert (Hlook : ∀ s, look (key_of (candidate tenant model path policy s)) =
    (λ r, (key_of (candidate tenant model path policy s), MkParsed (rule_limit r) (rule_ttl_secs r))) <$>
    t !! candidate tenant model path policy s).
  { intros [[bm bp] bq]. unfold look, candidate. rewrite Hkv by auto using no_char_sanitize, given_plain.
    by destruct (t !! _). }
  assert (Hcand : ∀ s r, t !! candidate tenant model path policy s = Some r →
    applies r tenant model path policy ∧ subset_of r = s).
  { intros s r Hr. destruct (Hplain _ _ Hr) as [Hk Hr']. apply (candidate_rule r tenant model path policy s); try done. by rewrite <- Hk. }
  assert (Happ : ∀ parts r, t !! parts = Some r → applies r tenant model path policy →
    t !! candidate tenant model path policy (subset_of r) = Some r).
  { intros parts r Hr Ha. destruct (Hplain _ _ Hr) as [-> Hr'].
    assert (key_parts r = candidate tenant model path policy (subset_of r)) as <-; [|done].
    pose proof (proj2 (candidate_rule r tenant model path policy (subset_of r) Hr' Ht Hm Hp Hq) (conj Ha eq_refl)) as Heq.
    destruct (subset_of r) as [[bm bp] bq]. pose proof (key_parts_plain r Hr') as (?&?&?&?).
    apply join_parts_inj in Heq as (E1&E2&E3&E4); [|by auto using no_char_sanitize, given_plain..].
    unfold key_parts, candidate. by rewrite E1, E2, E3, E4. }
  destruct (find_map look _) as [[key stored]|] eqn:Hfind.
  - apply find_map_Some in Hfind as (k1&k&k2&Hl&Hk&Hnone). apply fmap_app_inv in Hl as (s1&s23&->&Hs23&Hl).
    destruct s23 as [|s s2]; [done|]. injection Hs23 as -> ->. change (_ +:+ _) with (key_of (candidate tenant model path policy s)) in Hk.
    rewrite Hlook in Hk. destruct (t !! candidate tenant model path policy s) as [r|] eqn:Hr; [|done]. simpl in Hk. simplify_eq.
    eexists. split; [done|]. left. exists (candidate tenant model path policy s), r. destruct (Hcand _ _ Hr) as [Ha Hs].
    split_and!; [done..|]. intros parts' r' Hr' Ha'. rewrite !rule_specificity_subset, Hs.
    pose proof (Happ _ _ Hr' Ha') as Hc. pose proof (subset_in (subset_of r')) as Hin. rewrite Hl in Hin.
    apply elem_of_app in Hin as [Hin|Hin].
    + exfalso. rewrite Forall_fmap, Forall_forall in Hnone. specialize (Hnone _ Hin). simpl in Hnone.
      change (_ +:+ _) with (key_of (candidate tenant model path policy (subset_of r'))) in Hnone. rewrite Hlook, Hc in Hnone. done.
    + pose proof subsets_sorted as Hsort. rewrite Hl in Hsort. apply StronglySorted_app in Hsort as (_&_&Hsort).
      apply StronglySorted_inv in Hsort as [_ Hall]. apply elem_of_cons in Hin as [->|Hin]; [done|].
      rewrite Forall_forall in Hall. by apply Hall.
  - apply find_map_None in Hfind. rewrite Forall_fmap, Forall_forall in Hfind.
    eexists. split; [done|]. right. split; [done|]. intros parts r Hr Ha.
    specialize (Hfind _ (subset_in (subset_of r))). simpl in Hfind.
    change (_ +:+ _) with (key_of (candidate tenant model path policy (subset_of r))) in Hfind.
    by rewrite Hlook, (Happ _ _ Hr Ha) in Hfind.
Qed.
End table.

(** *** Reading a key back *)

(** A sanitized text has no space to trim: no character of a key begins or, read backwards,
    ends a white space. *)
Definition no_key_head (p : string) : bool := match p with String a _ => negb (is_key_char a) | "" => false end.
Lemma whitespace_heads : forallb no_key_head WHITESPACE = true ∧ forallb no_key_head (str_rev <$> WHITESPACE) = true.
Proof. by vm_compute. Qed.
Lemma key_unprefixed ps s : forallb no_key_head ps = true → str_forallb is_key_char s = true → unprefixed ps s.
Proof.
  intros Hps%forallb_Forall Hs. apply unprefixed_spec. eapply Forall_impl; [exact Hps|]. intros [|a p] Ha u ->; [done|].
  simpl in Ha, Hs. by destruct (is_key_char a).
Qed.
Lemma str_forallb_rev f s : str_forallb f (str_rev s) = str_forallb f s.
Proof.
  assert (∀ s acc, str_forallb f (str_rev_app s acc) = str_forallb f s && str_forallb f acc) as H.
  { clear s. induction s as [|a s IH]; intros acc; simpl; [done|]. rewrite IH. simpl.
    by destruct (f a), (str_forallb f s). }
  unfold str_rev. rewrite H. simpl. apply andb_true_r.
Qed.
Lemma trim_key s : str_forallb is_key_char s = true → str_trim s = s.
Proof.
  intros Hs. destruct whitespace_heads as [H1 H2]. unfold str_trim, trim_start_ws.
  rewrite trim_start_any_id by by apply key_unprefixed. unfold trim_end_ws.
  rewrite trim_start_any_id by (apply key_unprefixed; [done|by rewrite str_forallb_rev]).
  apply str_rev_involutive.
Qed.
Lemma key_dim_again o : from_option (λ v, sanitize_key v ≠ "") True (non_empty_opt o) → key_dim (key_dim o) = key_dim o.
Proof.
  unfold key_dim at 2 3. destruct (non_empty_opt o) as [v|]; [|done]. intros Hv. simpl in Hv.
  unfold key_dim, non_empty_opt. cbn [fmap option_fmap option_map mbind option_bind]. rewrite trim_key by apply sanitize_key_chars.
  destruct (str_is_empty (sanitize_key v)) eqn:E; [by apply str_is_empty_true in E|].
  cbn. by rewrite sanitize_key_idemp.
Qed.

(** Dimensions that leave something in the key, as those of valid UTF-8 do. *)
Definition rule_visible (r : TenantRateLimitRule) : Prop :=
  sanitize_key (str_trim (rule_tenant r)) ≠ "" ∧
  Forall (λ o, from_option (λ v, sanitize_key v ≠ "") True (non_empty_opt o)) [rule_model r; rule_path r; rule_policy r].

Section listing.
Context (cfg : Args).

Lemma rule_dimensions_parts m p q :
  rule_dimensions (dim "model" m ++ dim "path" p ++ dim "policy" q) None None None = (m, p, q).
Proof. by destruct m, p, q. Qed.
Lemma rule_from_rule_key r l ttl :
  rule_plain r → rule_visible r →
  tenant_rate_limit_rule_from_key cfg (tenant_rate_limit_rule_key cfg r) l ttl =
  Some (MkTenantRateLimitRule (sanitize_key (str_trim (rule_tenant r))) (key_dim (rule_model r)) (key_dim (rule_path r))
    (key_dim (rule_policy r)) (trl_rps l) (trl_burst l) (Z.max 1 (trl_cost l)) ttl).
Proof.
  intros Hp [Hne _]. pose proof (key_parts_plain r Hp) as (?&?&?&?).
  unfold tenant_rate_limit_rule_from_key. rewrite rule_key_parts.
  rewrite (proj2 (str_strip_prefix_Some _ _ _) eq_refl). cbn [mbind option_bind].
  unfold key_parts. rewrite rule_parts_split by done. unfold rule_parts.
  destruct (str_is_empty _) eqn:E; [by apply str_is_empty_true in E|]. by rewrite rule_dimensions_parts.
Qed.
End listing.


(** the rule that is listed for a stored rule stands for it: it has the same key, so
    editing or deleting it edits or deletes the stored rule, and it applies to the same
    requests, although its dimensions are the sanitized ones. *)
Theorem listed_rule_roundtrip (cfg : Args) r l ttl
  (Hr : validate_tenant_rule_dimensions r = Ok ()) (Hv : rule_visible r) :
  ∃ r', tenant_rate_limit_rule_from_key cfg (tenant_rate_limit_rule_key cfg r) l ttl = Some r' ∧
    tenant_rate_limit_rule_key cfg r' = tenant_rate_limit_rule_key cfg r ∧
    ∀ tenant model path policy, applies r' tenant model path policy ↔ applies r tenant model path policy.
Proof.
  pose proof (validate_dimensions_plain r Hr) as Hp. eexists. split; [by apply rule_from_rule_key|].
  destruct Hv as [Hne Hall]. apply Forall_cons in Hall as [Hm Hall]. apply Forall_cons in Hall as [Hpa Hall].
  apply Forall_cons in Hall as [Hq _].
  assert (sanitize_key (str_trim (sanitize_key (str_trim (rule_tenant r)))) = sanitize_key (str_trim (rule_tenant r))) as Ht.
  { rewrite trim_key by apply sanitize_key_chars. apply sanitize_key_idemp. }
  split.
  - rewrite !rule_key_parts. unfold key_parts. cbn [rule_tenant rule_model rule_path rule_policy].
    by rewrite Ht, !key_dim_again.
  - intros. unfold applies, dim_applies. cbn [rule_tenant rule_model rule_path rule_policy].
    by rewrite Ht, !key_dim_again.
Qed.

(** ** A reference codec and store *)

Definition field_range (n : Z) : bool := (0 <=? n) && (n <? 2 ^ 64).
Definition opt_text (o : option Z) : string := from_option dec_string "-" o.
Definition ref_ser_limit (x : StoredTenantRateLimit) : result string string :=
  if field_range (str_rps x) && field_range (str_burst x) && field_range (str_cost x) && from_option field_range true (str_ttl_secs x)
  then Ok (str_join ";" ["<"; dec_string (str_rps x); dec_string (str_burst x); dec_string (str_cost x); opt_text (str_ttl_secs x); ">"])
  else Err "out of range".
Definition ref_de_limit (raw : string) : option StoredTenantRateLimit :=
  match str_split ";" raw with
  | [_; rps; burst; cost; ttl; _] =>
      rps ← parse_radix 10 rps; burst ← parse_radix 10 burst; cost ← parse_radix 10 cost;
      if decide (ttl = "-") then Some (MkStoredTenantRateLimit rps burst cost None)
      else ttl ← parse_radix 10 ttl; Some (MkStoredTenantRateLimit rps burst cost (Some ttl))
  | _ => None
  end.
(** Texts without a semicolon, two for each pair. *)
Fixpoint flat (l : list (string * string)) : list string :=
  match l with [] => ["."] | (k, v) :: l => k :: v :: flat l end.
Fixpoint pairs (l : list string) : list (string * string) :=
  match l with k :: v :: l => (k, v) :: pairs l | _ => [] end.
Definition ref_ser_strings (l : list (string * string)) : result string string :=
  if forallb (λ s, negb (str_contains_char ";" s)) (flat l) then Ok (str_join ";" (flat l)) else Err "semicolon".
Definition ref_de_strings (raw : string) : option (list (string * string)) := Some (pairs (str_split ";" raw)).
Definition ref_ser_result (r : StoredResult) : result string string :=
  if field_range (sr_http_status r) && field_range (sr_completed_at_ms r) then
    ref_ser_strings ([(sr_job_id r, sr_status r); (dec_string (sr_http_status r), dec_string (sr_completed_at_ms r));
      (sr_body_base64 r, ""); match sr_error r with Some e => ("error", e) | None => ("", "") end] ++ sr_headers r)
  else Err "out of range".
Definition ref_de_result (raw : string) : result StoredResult string :=
  match pairs (str_split ";" raw) with
  | (id, status) :: (http, at_ms) :: (body, _) :: (tag, e) :: headers =>
      match parse_radix 10 http, parse_radix 10 at_ms with
      | Some http, Some at_ms => Ok (MkStoredResult id status http headers body at_ms (if str_is_empty tag then None else Some e))
      | _, _ => Err ""
      end
  | _ => Err ""
  end.
#[export] Instance ref_ai : AiLib := {|
  header_name_try_from := Some;
  ser_strings := ref_ser_strings; de_strings := ref_de_strings;
  ser_result := ref_ser_result; de_result := ref_de_result;
  ser_stored_limit := ref_ser_limit; de_stored_limit := ref_de_limit; de_limit _ := None;
  json_from_str _ := None; json_to_string _ := Ok "";
  value_debug _ := ""; parse_method := Some; header_value_error _ := ""; base64_error _ := ""; status_error _ _ := "";
|}.

Lemma field_range_spec n : field_range n = true → 0 ≤ n ∧ parse_radix 10 (dec_string n) = Some n.
Proof.
  unfold field_range. rewrite andb_true_iff, Z.leb_le. intros [Hn _]. split; [done|]. by apply parse_radix_string.
Qed.
Lemma digits_no_char c n : 0 ≤ n → is_ascii_digit c = false → no_char c (dec_string n).
Proof.
  intros Hn Hc. pose proof (parse_radix_string 10 n ltac:(lia) Hn) as Hp. fold (dec_string n) in Hp.
  unfold parse_radix in Hp. destruct (str_is_empty _); [done|]. revert Hp. generalize 0 as acc.
  induction (dec_string n) as [|a s IH]; intros acc Hp; [done|]. simpl in Hp.
  destruct (to_digit 10 a) as [d|] eqn:Ha; [|done]. apply no_char_cons. split; [|by eapply IH].
  intros ->. apply to_digit_10 in Ha. congruence.
Qed.
Lemma pairs_flat l : pairs (flat l) = l.
Proof. induction l as [|[k v] l IH]; simpl; [done|]. by rewrite IH. Qed.
Lemma ref_strings_roundtrip l raw : ref_ser_strings l = Ok raw → pairs (str_split ";" raw) = l.
Proof.
  unfold ref_ser_strings. destruct (forallb _ _) eqn:Hf; [|done]. intros [= <-].
  rewrite str_split_join; [apply pairs_flat|by destruct l as [|[]]|]. apply Is_true_eq_left, forallb_True in Hf.
  eapply Forall_impl; [exact Hf|]. intros x Hx%Is_true_eq_true%negb_true_iff. exact Hx.
Qed.
Lemma ref_result_roundtrip r raw : ref_ser_result r = Ok raw → ref_de_result raw = Ok r.
Proof.
  unfold ref_ser_result, ref_de_result. destruct (_ && _) eqn:Hr; [|done]. intros Hs.
  apply ref_strings_roundtrip in Hs as ->. apply andb_true_iff in Hr as [H1 H2].
  apply field_range_spec in H1 as [_ H1], H2 as [_ H2]. destruct r as [id st http hs body at_ms e].
  cbn [sr_job_id sr_status sr_http_status sr_headers sr_body_base64 sr_completed_at_ms sr_error] in *.
  destruct e; cbn [app]; by rewrite H1, H2.
Qed.
#[export] Instance ref_ai_laws : AiLaws ref_ai.
Proof.
  split. intros [rps burst cost ttl] raw. simpl. unfold ref_ser_limit. cbn [str_rps str_burst str_cost str_ttl_secs].
  destruct (_ && _) eqn:Hr; [|done]. intros Heq.
  assert (raw = str_join ";" ["<"; dec_string rps; dec_string burst; dec_string cost; opt_text ttl; ">"]) as Hraw
    by (by injection Heq). clear Heq.
  rewrite !andb_true_iff in Hr. destruct Hr as [[[H1 H2] H3] H4].
  apply field_range_spec in H1 as [? H1], H2 as [? H2], H3 as [? H3].
  assert (Ht : no_char ";" (opt_text ttl)).
  { destruct ttl as [n|]; simpl in *; [|done]. apply field_range_spec in H4 as [? _]. by apply digits_no_char. }
  split_and!; [|by rewrite Hraw|].
  - rewrite Hraw. cbn [str_join String.append]. unfold str_trim, trim_start_ws.
    rewrite trim_start_any_id by done. unfold trim_end_ws. rewrite trim_start_any_id; [by rewrite str_rev_involutive|].
    assert (∀ x, str_rev (x +:+ String ";" ">") = ">;" +:+ str_rev x) as Hrev by (intros x; by rewrite str_rev_append).
    cbn [str_join].
    match goal with |- context [str_rev ?x] => assert (x =
      ("<;" +:+ dec_string rps +:+ ";" +:+ dec_string burst +:+ ";" +:+ dec_string cost +:+ ";" +:+ opt_text ttl) +:+ ";>") as -> end.
    { repeat (rewrite <- str_app_assoc; cbn [String.append]). done. }
    rewrite Hrev. done.
  - rewrite Hraw. unfold ref_de_limit. rewrite str_split_join; [|done|].
    + rewrite H1, H2, H3. cbn [mbind option_bind]. destruct ttl as [n|]; simpl in *; [|done].
      apply field_range_spec in H4 as [? H4]. rewrite decide_False; [by rewrite H4|]. intros Heq. by rewrite Heq in H4.
    + repeat constructor; try done; by apply digits_no_char.
Qed.

#[export] Instance ref_kv : KvEnv (gmap string string) := {|
  kv_respond c w :=
    match c with
    | CGet k => (match w !! k with Some v => RText v | None => RNil end, w)
    | CSet k v _ _ => (RDone, <[k := v]> w)
    | CDel k => (RInt 1, delete k w)
    | CTtl _ => (RInt (-1), w)
    | CNow => (RInt 0, w)
    | _ => (RNil, w)
    end;
  kv w k := w !! k;
|}.
#[export] Instance ref_kv_laws : KvLaws ref_kv.
Proof.
  split; simpl.
  - done.
  - intros k v ex w. eexists _, _. split; [done|]. split; [done|]. intros k'. rewrite lookup_insert. by repeat case_decide.
  - intros k w. eexists _, _. split; [done|]. intros k'. rewrite lookup_delete. by repeat case_decide.
  - intros k w. by eexists.
Qed.

Definition ex_rule (model path : option string) (rps : Z) : TenantRateLimitRule :=
  MkTenantRateLimitRule " acme " model path None rps 20 1 None.
Definition ex_edits : list RuleEdit := [
  Upsert (ex_rule None None 1); Upsert (ex_rule (Some "gpt 4") None 2); Upsert (ex_rule (Some "gpt_4") (Some "/v1") 3);
  Upsert (ex_rule (Some "a:b") None 4); DeleteRule (ex_rule None (Some "x") 0)].
Notation ex_args := args_default.
(** The rule of model and path is the most specific one; the one with a colon is refused. *)
Example ex_edits_resolve :
  (exec (kv_respond (KvEnv:=ref_kv)) (resolve_rate_limit ex_args "acme" "gpt 4" "/v1" "queue") (edit_rules ex_args ex_edits ∅)).1 =
  Ok (MkTenantRateLimit 3 20 1).
Proof. by vm_compute. Qed.

Lemma listed_rule_roundtrip_witness :
  let r := ex_rule (Some "gpt 4") (Some "/v1") 2 in
  ∃ r', tenant_rate_limit_rule_from_key ex_args (tenant_rate_limit_rule_key ex_args r) (MkTenantRateLimit 2 20 1) None = Some r' ∧
    tenant_rate_limit_rule_key ex_args r' = tenant_rate_limit_rule_key ex_args r ∧
    ∀ tenant model path policy, applies r' tenant model path policy ↔ applies r tenant model path policy.
Proof.
  apply (listed_rule_roundtrip ex_args (ex_rule (Some "gpt 4") (Some "/v1") 2)); [reflexivity|].
  split; [by vm_compute|]. repeat (apply Forall_cons; split; [by vm_compute|]). by apply Forall_nil.
Defined.

(** A rule for the model [rps] is stored and applied, but its key is taken for one of an
    older format: it is never listed. *)
Example rps_model_not_listed :
  is_legacy_tenant_rate_limit_key (tenant_rate_limit_rule_key ex_args (ex_rule (Some "rps") None 1)) = true.
Proof. by vm_compute. Qed.
(** A tenant header with colons is limited by the rule of another tenant's model. *)
Example colon_tenant_alias :
  (exec (kv_respond (KvEnv:=ref_kv)) (resolve_rate_limit ex_args "acme:model:gpt_4" "m" "/p" "queue")
    (edit_rules ex_args ex_edits ∅)).1 = Ok (MkTenantRateLimit 2 20 1).
Proof. by vm_compute. Qed.
