(* ===== verification/AiQueue.v ===== *)
(** * AI gateway service: the job queue

    [queue.rs], [result_store.rs], [callback.rs], [object_store.rs], [wait_subscriber.rs] and
    the handlers of jobs, as programs ([AiProg.Prog]).

    A request is stored as an entry of a Redis stream, its body in the entry or, if it is
    large, in an object store. Workers read entries, take a lease of the job, count the
    delivery, call the upstream, store the result, call back, and acknowledge the entry.
    Entries that stay unacknowledged are claimed again; a job that was delivered too often and
    a callback that failed too often go to dead letter streams.

    A body is the finite sequence of its chunks. The loops that run forever ([spawn_workers],
    [spawn_reclaimer], [spawn_callback_retry_worker]) repeat [worker_once], [reclaim_once] and
    [callback_retry_once]. *)

From S2P Require Export AiLimit.
Local Open Scope string_scope.
Local Open Scope list_scope.
Local Open Scope Z_scope.

(** ** Values the program computes itself *)

Definition xml_escape_char (a : ascii) : string :=
  if is_char "&" a then "&amp;" else if is_char "<" a then "&lt;" else if is_char ">" a then "&gt;"
  else if bool_decide (byte_val a = 34%N) then "&quot;" else if bool_decide (byte_val a = 39%N) then "&apos;"
  else String a "".
(** The replacements one after the other: [&] comes first, so no escape is escaped again. *)
Fixpoint xml_escape (input : string) : string :=
  match input with "" => "" | String a s => xml_escape_char a +:+ xml_escape s end.

Definition hex_digit_upper (d : Z) : ascii := ascii_of_N (Z.to_N (if d <? 10 then 48 + d else 55 + d)).
Definition percent (a : ascii) : string :=
  let n := Z.of_N (byte_val a) in String "%" (String (hex_digit_upper (n / 16)) (String (hex_digit_upper (n mod 16)) "")).
Fixpoint encode_query_component (input : string) : string :=
  match input with
  | "" => ""
  | String a s =>
      (if is_ascii_alphanumeric a || is_char "-" a || is_char "_" a || is_char "." a || is_char "~" a
       then String a "" else percent a) +:+ encode_query_component s
  end.

Definition extract_xml_tag (xml tag : string) : option string :=
  '(_, rest) ← str_split_once_str ("<" +:+ tag +:+ ">") xml;
  '(text, _) ← str_split_once_str ("</" +:+ tag +:+ ">") rest;
  Some (str_trim text).

Definition complete_part (part : CompletedPart) : string :=
  "<Part><PartNumber>" +:+ dec_string (cp_part_number part) +:+ "</PartNumber><ETag>" +:+
  xml_escape (cp_etag part) +:+ "</ETag></Part>".
Definition complete_multipart_xml (parts : list CompletedPart) : string :=
  "<CompleteMultipartUpload>" +:+ foldr (λ p s, complete_part p +:+ s) "" parts +:+ "</CompleteMultipartUpload>".

(** Saturating 64-bit arithmetic. *)
Definition u64_max : Z := 2 ^ 64 - 1.
Definition sat_add (a b : Z) : Z := Z.min u64_max (a + b).
Definition sat_sub (a b : Z) : Z := Z.max 0 (a - b).
Definition sat_mul (a b : Z) : Z := Z.min u64_max (a * b).
(** [attempt] is a [u32]; the shift is by at most 16. *)
Definition callback_retry_delay_ms (initial_delay_ms max_delay_ms attempt : Z) : Z :=
  let exponent := Z.min (sat_sub attempt 1) 16 in
  let multiplier := Z.shiftl 1 exponent in
  Z.min (sat_mul initial_delay_ms multiplier) max_delay_ms.

(** *** Streams and priorities *)

Definition parse_queue_priority (value : string) : option QueuePriority :=
  let value := to_ascii_lowercase (str_trim value) in
  if bool_decide (value = "high") then Some High
  else if bool_decide (value ∈ ["normal"; "default"; "medium"]) then Some Normal
  else if bool_decide (value = "low") then Some Low
  else None.
Definition contains_csv_value (csv needle : string) : bool :=
  existsb (λ value, negb (str_is_empty value) && eq_ignore_ascii_case value needle) (str_trim <$> str_split "," csv).
Definition configured_streams (cfg : Args) : list string :=
  if enable_priority_streams cfg
  then [high_priority_stream_key cfg; stream_key cfg; low_priority_stream_key cfg]
  else [stream_key cfg].
Definition push_weighted (out : list string) (stream : string) (weight : Z) : list string :=
  out ++ replicate (Z.to_nat weight) stream.
Definition worker_stream_order (cfg : Args) : list string :=
  if negb (enable_priority_streams cfg) then [stream_key cfg]
  else
    let out := push_weighted [] (high_priority_stream_key cfg) (queue_high_weight cfg) in
    let out := push_weighted out (stream_key cfg) (queue_normal_weight cfg) in
    let out := push_weighted out (low_priority_stream_key cfg) (queue_low_weight cfg) in
    match out with [] => [stream_key cfg] | _ => out end.

Definition job_lease_key (job_id : string) : string := "ai:job:lease:" +:+ sanitize_key job_id.
Definition job_attempt_key (job_id : string) : string := "ai:job:attempt:" +:+ sanitize_key job_id.

Definition validate_callback_url (cfg : Args) (policy : QueuePolicy) (callback_url : string) : result unit ServiceError :=
  if bool_decide (policy = Queue) && str_is_empty callback_url
  then Err (bad_request "missing required header `x-callback-url` for queue policy")
  else if negb (str_is_empty callback_url) && require_https_callback cfg && negb (starts_with callback_url "https://")
  then Err (bad_request "x-callback-url must use https")
  else Ok ().

Section queue.
Context `{HttpLib} `{!Base64} `{!AiLib} (cfg : Args).

Definition request_priority (headers : HeaderMap) (tenant model : string) : QueuePriority :=
  match optional_header headers "x-queue-priority" ≫= parse_queue_priority with
  | Some priority => priority
  | None =>
      if contains_csv_value (queue_high_tenants cfg) tenant || contains_csv_value (queue_high_models cfg) model then High
      else if contains_csv_value (queue_low_tenants cfg) tenant || contains_csv_value (queue_low_models cfg) model then Low
      else default Normal (parse_queue_priority (queue_default_priority cfg))
  end.
Definition stream_for_request (headers : HeaderMap) (tenant model : string) : string * QueuePriority :=
  let priority := request_priority headers tenant model in
  if negb (enable_priority_streams cfg) then (stream_key cfg, priority)
  else (match priority with
        | High => high_priority_stream_key cfg | Low => low_priority_stream_key cfg | Normal => stream_key cfg end, priority).

(** ** Redis and HTTP *)

Definition trim_stream (stream : string) : Fut unit :=
  if 0 <? stream_max_len cfg then redis (CXtrim stream (swrap 64 (stream_max_len cfg))) as_unit else ok ().
Definition xadd (stream : string) (fields : list (string * Value)) : Fut string := redis (CXadd stream fields) as_text.
Definition as_entries (r : Reply) : option (list (string * Fields)) :=
  match r with REntries l => Some l | RNil => Some [] | _ => None end.
(** [xreadgroup_map_or_empty]: nil is no entry. *)
Definition xreadgroup_map_or_empty (group consumer : string) (count block : Z) (stream : string) : Fut (list (string * Fields)) :=
  redis (CXreadgroup group consumer count block stream) as_entries.

Definition http (method url : string) (headers : list (string * string)) (body : string)
  : Fut (Z * list (string * string) * string) :=
  Do (CHttp method url headers body) (λ r, Ret (match r with
    | RHttp status headers body => Ok (status, headers, body)
    | RErr e => Err (from_http_error e)
    | _ => Err (from_http_error "")
    end)).
Definition http_ok (method url : string) (headers : list (string * string)) (body : string)
  : Fut (list (string * string) * string) :=
  try resp <- http method url headers body;
  let '(status, headers, body) := resp in
  if (400 <=? status) && (status <=? 599) then err (from_http_error (status_error status url)) else ok (headers, body).

(** ** Bodies: [object_store.rs] *)

Definition object_url (object_ref : string) : string :=
  trim_end_matches "/" (default "" (object_store_endpoint cfg)) +:+ "/" +:+
  trim_matches "/" (object_store_bucket cfg) +:+ "/" +:+ trim_start_matches "/" object_ref.
Definition object_url_with_query (object_ref query : string) : string := object_url object_ref +:+ "?" +:+ query.
Definition object_auth_header (raw : option string) : result (option (string * string)) ServiceError :=
  match raw with
  | None => Ok None
  | Some raw =>
      match str_split_once ":" raw with
      | None => Err (bad_request "AI_OBJECT_STORE_AUTH_HEADER must be `Header-Name: value`")
      | Some (name, value) =>
          match header_name_try_from (str_trim name), hv_from_str (str_trim value) with
          | Some _, Some _ => Ok (Some (str_trim name, str_trim value))
          | _, _ => Err (bad_request "invalid object auth header")
          end
      end
  end.
Definition auth_headers : Fut (list (string * string)) := lift (result_map option_list (object_auth_header (object_store_auth_header cfg))).

Definition initiate_multipart_upload (object_ref : string) : Fut string :=
  try auth <- auth_headers;
  try resp <- http_ok "POST" (object_url_with_query object_ref "uploads") auth "";
  lift (ok_or (extract_xml_tag resp.2 "UploadId") (internal "multipart initiate response missing UploadId")).
Definition part_url (object_ref upload_id : string) (part_number : Z) : string :=
  object_url_with_query object_ref
    ("partNumber=" +:+ dec_string part_number +:+ "&uploadId=" +:+ encode_query_component upload_id).
Definition upload_url (object_ref upload_id : string) : string :=
  object_url_with_query object_ref ("uploadId=" +:+ encode_query_component upload_id).
Definition find_header (name : string) (l : list (string * string)) : option string :=
  snd <$> find (λ kv, eq_ignore_ascii_case kv.1 name) l.
Definition upload_multipart_part (object_ref upload_id : string) (part_number : Z) (body : string) : Fut CompletedPart :=
  try auth <- auth_headers;
  try resp <- http_ok "PUT" (part_url object_ref upload_id part_number) auth body;
  lift (result_map (MkCompletedPart part_number)
    (ok_or (etag ← find_header "etag" resp.1; hv_to_str etag) (internal "multipart upload part response missing ETag"))).
Definition complete_multipart_upload (object_ref upload_id : string) (parts : list CompletedPart) : Fut unit :=
  try auth <- auth_headers;
  try _ <- http_ok "POST" (upload_url object_ref upload_id) (("content-type", "application/xml") :: auth) (complete_multipart_xml parts);
  ok ().
Definition abort_multipart_upload (object_ref upload_id : string) : Fut unit :=
  try auth <- auth_headers;
  try _ <- http_ok "DELETE" (upload_url object_ref upload_id) auth "";
  ok ().
Definition abort_upload_if_needed (object_ref upload_id : string) : Prog unit :=
  await _ <- metrics (fetch_add object_multipart_abort_total 1);
  await _ <- abort_multipart_upload object_ref upload_id;
  Ret ().

Definition too_large : ServiceError :=
  payload_too_large ("request body exceeds max size " +:+ dec_string (max_body_bytes cfg)).
Definition read_error (e : string) : ServiceError := bad_request ("read request body: " +:+ e).

(** [while pending.len() >= part_size]: every part takes bytes away, so the length is enough
    fuel. *)
Fixpoint upload_full_parts (fuel : nat) (object_ref upload_id : string) (part_size : Z) (pending : string)
    (parts : list CompletedPart) : Fut (string * list CompletedPart) :=
  match fuel with
  | O => ok (pending, parts)
  | S fuel =>
      if part_size <=? Z.of_nat (String.length pending) then
        try part <- upload_multipart_part object_ref upload_id (Z.of_nat (length parts) + 1) (str_take (Z.to_nat part_size) pending);
        upload_full_parts fuel object_ref upload_id part_size (str_drop (Z.to_nat part_size) pending) (parts ++ [part])
      else ok (pending, parts)
  end.
Definition full_parts (object_ref upload_id : string) (part_size : Z) (pending : string) (parts : list CompletedPart) :=
  upload_full_parts (String.length pending) object_ref upload_id part_size pending parts.
(** The rest of the stream. *)
Fixpoint upload_chunks (object_ref upload_id : string) (part_size : Z) (stream : list (result string string))
    (pending : string) (total_size : Z) (parts : list CompletedPart) : Fut (string * list CompletedPart) :=
  match stream with
  | [] => ok (pending, parts)
  | Err e :: _ => err (read_error e)
  | Ok chunk :: stream =>
      let total_size := total_size + Z.of_nat (String.length chunk) in
      if u64_max <? total_size then err (payload_too_large "request body is too large")
      else if max_body_bytes cfg <? total_size then
        await _ <- abort_upload_if_needed object_ref upload_id; err too_large
      else
        try pp <- full_parts object_ref upload_id part_size (pending +:+ chunk) parts;
        upload_chunks object_ref upload_id part_size stream pp.1 total_size pp.2
  end.
Definition upload_all (object_ref upload_id : string) (pending : string) (stream : list (result string string))
    (part_size total_size : Z) : Fut unit :=
  try pp <- full_parts object_ref upload_id part_size pending [];
  try pp <- upload_chunks object_ref upload_id part_size stream pp.1 total_size pp.2;
  let '(pending, parts) := pp in
  try parts <- (if negb (str_is_empty pending) || bool_decide (parts = [])
                then try part <- upload_multipart_part object_ref upload_id (Z.of_nat (length parts) + 1) pending; ok (parts ++ [part])
                else ok parts);
  try _ <- complete_multipart_upload object_ref upload_id parts;
  await _ <- metrics (fetch_add object_offload_total 1);
  ok ().
Definition finish_offload_upload (object_ref upload_id : string) (pending : string) (stream : list (result string string))
    (part_size total_size : Z) : Fut unit :=
  await upload_result <- upload_all object_ref upload_id pending stream part_size total_size;
  await _ <- (match upload_result with Err _ => abort_upload_if_needed object_ref upload_id | Ok _ => Ret () end);
  Ret upload_result.

(** [store_body]: the place of the body and, if it is offloaded, the upload that goes on. *)
Fixpoint store_chunks (object_ref : string) (part_size : Z) (stream : list (result string string)) (pending : string)
    (total_size : Z) : Fut (BodyLocation * option (Fut unit)) :=
  match stream with
  | [] => ok (MkBodyLocation (b64_encode pending) "" total_size "inline", None)
  | Err e :: _ => err (read_error e)
  | Ok chunk :: stream =>
      let total_size := total_size + Z.of_nat (String.length chunk) in
      let beyond := inline_threshold cfg <? Z.of_nat (String.length pending + String.length chunk) in
      if u64_max <? total_size then err (payload_too_large "request body is too large")
      else if max_body_bytes cfg <? total_size then err too_large
      else if bool_decide (object_store_endpoint cfg = None) && beyond then
        err (payload_too_large ("request body exceeds inline threshold " +:+ dec_string (inline_threshold cfg) +:+
          " and object store is not configured"))
      else if beyond then
        try upload_id <- initiate_multipart_upload object_ref;
        ok (MkBodyLocation "" object_ref total_size "object",
            Some (finish_offload_upload object_ref upload_id (pending +:+ chunk) stream part_size total_size))
      else store_chunks object_ref part_size stream (pending +:+ chunk) total_size
  end.
Definition store_body (job_id : string) (body : list (result string string)) : Fut (BodyLocation * option (Fut unit)) :=
  let object_ref := trim_matches "/" (object_store_prefix cfg) +:+ "/" +:+ sanitize_key job_id +:+ "/body.bin" in
  store_chunks object_ref (Z.max (object_multipart_part_size cfg) (5 * 1024 * 1024)) body "" 0.

Definition load_body (fields : Fields) : Fut string :=
  let storage := default "inline" (field_string fields "storage") in
  if bool_decide (storage = "object") then
    try object_ref <- lift (ok_or (field_string fields "ref") (bad_request "job body is missing object ref"));
    try auth <- auth_headers;
    try resp <- http_ok "GET" (object_url object_ref) auth "";
    ok resp.2
  else
    match field_string fields "body" with
    | Some body_base64 => lift (ok_or (b64_decode body_base64) (bad_request ("decode job body: " +:+ base64_error body_base64)))
    | None => ok (default "" (field_bytes fields "body"))
    end.
End queue.
