(* ===== verification/AiJobs.v ===== *)
(** * AI gateway service: jobs, workers and callbacks

    The part of [queue.rs] that enqueues and processes jobs, [result_store.rs], [callback.rs],
    [wait_subscriber.rs] and the handlers of jobs in [handlers.rs], as programs.

    Tasks that the source spawns and awaits run under a schedule ([sched]), any of which is
    possible. A request the HTTP client cannot build is a request that is answered with an
    error. A panic of a task is not modelled. *)

From S2P Require Export AiQueue.
Local Open Scope string_scope.
Local Open Scope list_scope.
Local Open Scope Z_scope.

(** ** Waiting for a result: [wait_subscriber.rs]

    The waiters of each channel by their numbers. *)

Record WaitSubscriberHub := MkHub { waiters : gmap string (list nat) }.
(** [wait_for_channel] before it subscribes. *)
Definition register_waiter (channel : string) (waiter : nat) (hub : WaitSubscriberHub) : WaitSubscriberHub :=
  MkHub (<[channel := default [] (waiters hub !! channel) ++ [waiter]]> (waiters hub)).
(** A message of [run_dispatch_loop]: the waiters that are notified, and the hub behind it. *)
Definition dispatch_message (channel : string) (hub : WaitSubscriberHub) : list nat * WaitSubscriberHub :=
  match waiters hub !! channel with
  | Some list => (list, MkHub (delete channel (waiters hub)))
  | None => ([], hub)
  end.

Definition wait_for_channel (channel : string) (timeout_secs : Z) : Fut unit :=
  Do (CSubscribe channel) (λ r,
    match r with
    | RErr e => err (internal ("pubsub subscribe: " +:+ e))
    | _ => Do (CNotified channel timeout_secs) (λ r, Ret (match r with
        | RDone => Ok ()
        | RErr _ => Err (internal "wait subscriber channel closed")
        | _ => Err (gateway_timeout ("timed out waiting for channel " +:+ channel))
        end))
    end).

Section jobs.
Context `{HttpLib} `{!Base64} `{!AiLib} (cfg : Args).

(** ** Results: [result_store.rs] *)

Definition i64_max : Z := 2 ^ 63 - 1.
Definition store_result (result : StoredResult) : Fut unit :=
  try json <- lift (map_err (λ e, internal ("serialize result: " +:+ e)) (ser_result result));
  try _ <- redis_set (result_key cfg (sr_job_id result)) json (Some (Z.min (result_ttl_secs cfg) i64_max));
  try _ <- redis (CPublish (result_channel cfg (sr_job_id result)) "done") as_int;
  ok ().
Definition load_result (job_id : string) : Fut (option StoredResult) :=
  try raw <- redis_get (result_key cfg job_id);
  lift (match raw with
        | None => Ok None
        | Some s => map_err (λ e, internal ("parse result: " +:+ e)) (result_map Some (de_result s))
        end).

(** ** Callbacks: [callback.rs] *)

Definition post_callback (callback_url job_id : string) (body : Json) : Fut unit :=
  match json_to_string body with
  | Err e => err (from_http_error e)
  | Ok body =>
      try _ <- http_ok "POST" callback_url [("x-gateway-job-id", job_id); ("content-type", "application/json")] body;
      ok ()
  end.

Definition callback_retry_fields (callback_url job_id body : string) (attempt next_attempt_at_ms : Z)
    (last_error : string) (created_at : Z) : list (string * Value) := [
  ("job_id", VString job_id);
  ("callback_url", VString callback_url);
  ("body", VString body);
  ("attempt", VInteger attempt);
  ("next_attempt_at_ms", VInteger (swrap 64 next_attempt_at_ms));
  ("last_error", VString last_error);
  ("created_at", VInteger (swrap 64 created_at))].
Definition enqueue_callback_retry_raw (callback_url job_id body : string) (attempt next_attempt_at_ms : Z)
    (last_error : string) : Fut unit :=
  await created_at <- now_ms;
  try _ <- xadd (callback_retry_stream cfg)
    (callback_retry_fields callback_url job_id body attempt next_attempt_at_ms last_error created_at);
  try _ <- trim_stream cfg (callback_retry_stream cfg);
  await _ <- metrics (fetch_add callback_retry_total 1);
  ok ().
Definition enqueue_callback_retry (callback_url job_id : string) (body : Json) (last_error : string) : Fut unit :=
  try body <- lift (map_err (λ e, internal ("serialize callback retry: " +:+ e)) (json_to_string body));
  await now <- now_ms;
  enqueue_callback_retry_raw callback_url job_id body 1 (sat_add now (callback_retry_initial_delay_ms cfg)) last_error.

Definition ack_callback_retry (entry_id : string) : Fut unit :=
  try _ <- redis (CXack (callback_retry_stream cfg) (callback_retry_group cfg) entry_id) as_int; ok ().
Definition callback_dlq_fields (callback_url job_id body : string) (attempts : Z) (final_error : string)
    (failed_at : Z) : list (string * Value) := [
  ("job_id", VString job_id);
  ("callback_url", VString callback_url);
  ("body", VString body);
  ("attempts", VInteger attempts);
  ("final_error", VString final_error);
  ("failed_at", VInteger (swrap 64 failed_at))].
Definition enqueue_callback_dlq (callback_url job_id : string) (body : Json) (attempts : Z) (final_error : string) : Fut unit :=
  try body <- lift (map_err (λ e, internal ("serialize callback dlq: " +:+ e)) (json_to_string body));
  await failed_at <- now_ms;
  try _ <- xadd (callback_dlq_stream cfg) (callback_dlq_fields callback_url job_id body attempts final_error failed_at);
  try _ <- trim_stream cfg (callback_dlq_stream cfg);
  await _ <- metrics (fetch_add callback_retry_dlq_total 1);
  ok ().

Definition process_callback_retry_entry (entry_id : string) (fields : Fields) : Fut unit :=
  let job_id := default "" (field_string fields "job_id") in
  let callback_url := default "" (field_string fields "callback_url") in
  let body := default "{}" (field_string fields "body") in
  let attempt := default 1 (field_u32 fields "attempt") in
  let next_attempt_at_ms := default 0 (field_u64 fields "next_attempt_at_ms") in
  await now <- now_ms;
  if now <? next_attempt_at_ms then
    let last_error := default "" (field_string fields "last_error") in
    try _ <- enqueue_callback_retry_raw callback_url job_id body attempt next_attempt_at_ms last_error;
    ack_callback_retry entry_id
  else
    let parsed := default (JObject [("body", JString body)]) (json_from_str body) in
    await posted <- post_callback callback_url job_id parsed;
    match posted with
    | Ok _ =>
        try _ <- ack_callback_retry entry_id;
        await _ <- metrics (fetch_add callback_retry_success_total 1);
        ok ()
    | Err e =>
        if callback_max_retry_attempts cfg <=? attempt then
          try _ <- enqueue_callback_dlq callback_url job_id parsed attempt (se_message e);
          ack_callback_retry entry_id
        else
          let next_attempt := Z.min (2 ^ 32 - 1) (attempt + 1) in
          let delay_ms := callback_retry_delay_ms (callback_retry_initial_delay_ms cfg)
            (callback_retry_max_delay_ms cfg) next_attempt in
          let retry_body := match json_to_string parsed with Ok s => s | Err _ => "{}" end in
          try _ <- enqueue_callback_retry_raw callback_url job_id retry_body next_attempt (sat_add now delay_ms) (se_message e);
          ack_callback_retry entry_id
    end.

Fixpoint process_callback_retries (entries : list (string * Fields)) : Fut unit :=
  match entries with
  | [] => ok ()
  | (entry_id, fields) :: entries =>
      try _ <- process_callback_retry_entry entry_id fields; process_callback_retries entries
  end.
Definition as_claimed (r : Reply) : option (list (string * Fields)) :=
  match r with REntries l => Some l | _ => None end.
Definition reclaim_callback_retries : Fut unit :=
  let consumer := consumer_name cfg +:+ "-callback-reclaimer" in
  let min_idle_ms := sat_mul (callback_retry_reclaim_idle_secs cfg) 1000 in
  try entries <- redis (CXautoclaim (callback_retry_stream cfg) (callback_retry_group cfg) consumer min_idle_ms 10) as_claimed;
  process_callback_retries entries.
Definition callback_retry_once : Fut unit :=
  try _ <- reclaim_callback_retries;
  try entries <- xreadgroup_map_or_empty (callback_retry_group cfg) (consumer_name cfg) 5 1000 (callback_retry_stream cfg);
  process_callback_retries entries.

(** ** Jobs: [queue.rs] *)

Definition acquire_job_lease (job_id owner : string) : Fut bool :=
  try result <- redis (CSet (job_lease_key job_id) owner (Some (Z.max (job_process_lease_secs cfg) 1)) true) as_opt_text;
  ok (bool_decide (is_Some result)).
Definition release_job_lease (job_id : string) : Prog unit := await _ <- redis_del (job_lease_key job_id); Ret ().
Definition increment_job_delivery_attempt (job_id : string) : Fut Z :=
  let key := job_attempt_key job_id in
  try attempt <- redis (CIncrBy key 1) as_int;
  try _ <- redis (CExpire key (swrap 64 (Z.max (result_ttl_secs cfg) 300))) as_unit;
  ok (uwrap 32 (Z.max attempt 0)).
Definition clear_job_delivery_attempt (job_id : string) : Prog unit := await _ <- redis_del (job_attempt_key job_id); Ret ().
Definition ack_stream_entry (stream entry_id : string) : Fut unit :=
  try _ <- redis (CXack stream (consumer_group cfg) entry_id) as_int; ok ().

Definition stream_fields_to_json (fields : Fields) : result string ServiceError :=
  map_err (λ e, internal ("serialize job dlq fields: " +:+ e))
    (ser_strings ((λ kv, (kv.1, default (value_debug kv.2) (field_string fields kv.1))) <$> map_to_list fields)).
Definition job_dlq_fields (job_id stream entry_id : string) (attempts : Z) (reason fields_json : string)
    (failed_at : Z) : list (string * Value) := [
  ("job_id", VString job_id);
  ("source_stream", VString stream);
  ("source_entry_id", VString entry_id);
  ("attempts", VInteger attempts);
  ("reason", VString reason);
  ("fields", VString fields_json);
  ("failed_at", VInteger (swrap 64 failed_at))].
Definition enqueue_job_dlq (stream entry_id : string) (fields : Fields) (attempts : Z) (reason : string) : Fut unit :=
  let job_id := default "" (field_string fields "job_id") in
  try fields_json <- lift (stream_fields_to_json fields);
  await failed_at <- now_ms;
  try _ <- xadd (job_dlq_stream cfg) (job_dlq_fields job_id stream entry_id attempts reason fields_json failed_at);
  try _ <- trim_stream cfg (job_dlq_stream cfg);
  ok ().

(** The result of the upstream's answer. *)
Definition upstream_result (job_id : string) (upstream : Reply) (now : Z) : StoredResult :=
  match upstream with
  | RHttp status headers body =>
      MkStoredResult job_id "completed" status
        (map_to_list (collect_strings (omap (λ kv, (λ v, (kv.1, v)) <$> hv_to_str kv.2) headers)))
        (b64_encode body) now None
  | RErr e => MkStoredResult job_id "failed" 502 [] "" now (Some e)
  | _ => MkStoredResult job_id "failed" 502 [] "" now (Some "")
  end.
Definition call_upstream (base : string) (job_id : string) (fields : Fields) (body : string) : Prog StoredResult :=
  let method := default "POST" (field_string fields "method") in
  let path := default "/" (field_string fields "path") in
  let headers := default [] (de_strings (default "{}" (field_string fields "headers"))) in
  let url := trim_end_matches "/" base +:+ path in
  let parsed_method := default "POST" (parse_method method) in
  Do (CHttp parsed_method url (filter (λ kv, should_forward_header kv.1 = true) headers) body) (λ upstream,
    await now <- now_ms; Ret (upstream_result job_id upstream now)).
Definition process_job (fields : Fields) : Fut unit :=
  match upstream_base_url cfg with
  | None => err (internal "upstream base URL is not configured")
  | Some base =>
      try job_id <- lift (ok_or (field_string fields "job_id") (bad_request "job missing job_id"));
      let callback_url := default "" (field_string fields "callback_url") in
      try body <- load_body cfg fields;
      await result <- call_upstream base job_id fields body;
      try _ <- store_result result;
      try _ <- (if str_is_empty callback_url then ok ()
                else
                  let callback_body := callback_body result in
                  await posted <- post_callback callback_url job_id callback_body;
                  match posted with
                  | Ok _ => ok ()
                  | Err e =>
                      await _ <- metrics (fetch_add callback_failure_total 1);
                      enqueue_callback_retry callback_url job_id callback_body (se_message e)
                  end);
      await _ <- metrics (fetch_add worker_completed_total 1);
      ok ()
  end.

Definition process_stream_entry (stream entry_id : string) (fields : Fields) : Fut bool :=
  try job_id <- lift (ok_or (field_string fields "job_id") (bad_request "job missing job_id"));
  await now <- now_ms;
  let lease_owner := consumer_name cfg +:+ ":" +:+ stream +:+ ":" +:+ entry_id +:+ ":" +:+ dec_string now in
  try leased <- acquire_job_lease job_id lease_owner;
  if negb leased then await _ <- metrics (fetch_add lease_skip_total 1); ok false
  else
    try attempt <- increment_job_delivery_attempt job_id;
    if job_max_delivery_attempts cfg <? attempt then
      try _ <- enqueue_job_dlq stream entry_id fields attempt "max_delivery_attempts_exceeded";
      try _ <- ack_stream_entry stream entry_id;
      await _ <- release_job_lease job_id;
      await _ <- metrics (fetch_add job_dlq_total 1);
      ok true
    else
      await processing_started_at <- now_ms;
      let model := default "default" (field_string fields "model") in
      await processed <- process_job fields;
      await now <- now_ms;
      await _ <- metrics (observe_worker_processing (sat_sub now processing_started_at) model);
      match processed with
      | Ok _ =>
          try _ <- ack_stream_entry stream entry_id;
          await _ <- clear_job_delivery_attempt job_id;
          await _ <- release_job_lease job_id;
          ok true
      | Err e => await _ <- release_job_lease job_id; err e
      end.

(** The entries of a read are processed at the same time. *)
Definition count_processed (results : list (result bool ServiceError)) : Z :=
  Z.of_nat (length (filter (λ r, match r with Ok b => b | Err _ => false end = true) results)).
Definition read_worker_stream (sched : list nat) (consumer stream : string) (block_ms : Z) : Fut Z :=
  try entries <- xreadgroup_map_or_empty (consumer_group cfg) consumer 5 block_ms stream;
  await results <- join_all sched ((λ e, process_stream_entry stream e.1 e.2) <$> entries);
  await _ <- map_prog (λ r, match r with Ok _ => Ret () | Err _ => metrics (fetch_add worker_failed_total 1) end) results;
  ok (count_processed results).
Fixpoint worker_streams (sched : nat → list nat) (consumer : string) (streams : list string) : Fut unit :=
  match streams with
  | [] => ok ()
  | stream :: streams =>
      let block := match streams with [] => 1000 | _ => 10 end in
      try processed <- read_worker_stream (sched (length streams)) consumer stream block;
      if 0 <? processed then ok () else worker_streams sched consumer streams
  end.
Definition worker_once (sched : nat → list nat) (consumer : string) : Fut unit :=
  worker_streams sched consumer (worker_stream_order cfg).

Definition reclaim_entry (stream : string) (entry : string * Fields) : Prog unit :=
  await r <- process_stream_entry stream entry.1 entry.2;
  match r with Ok true => metrics (fetch_add reclaimed_total 1) | _ => Ret () end.
Definition reclaim_stream (stream : string) : Fut unit :=
  let consumer := consumer_name cfg +:+ "-reclaimer" in
  let min_idle_ms := sat_mul (reclaim_min_idle_secs cfg) 1000 in
  try entries <- redis (CXautoclaim stream (consumer_group cfg) consumer min_idle_ms 10) as_claimed;
  await _ <- map_prog (reclaim_entry stream) entries;
  ok ().
Definition try_iter {A} (f : A → Fut unit) (l : list A) : Fut unit := try _ <- try_map f l; ok ().
Definition reclaim_once : Fut unit := try_iter reclaim_stream (configured_streams cfg).

Definition ensure_consumer_group (stream group : string) : Fut unit :=
  Do (CXgroupCreate stream group) (λ res, Ret (match res with
    | RErr e => if str_contains e "BUSYGROUP" then Ok () else Err (from_redis_error e)
    | _ => Ok ()
    end)).
Definition ensure_consumer_groups : Fut unit :=
  try _ <- try_iter (λ stream, ensure_consumer_group stream (consumer_group cfg)) (configured_streams cfg);
  ensure_consumer_group (callback_retry_stream cfg) (callback_retry_group cfg).

(** *** Enqueueing *)

Definition acquire_permit : Fut unit :=
  Do CPermit (λ r, Ret (match r with RErr _ => Err (internal "body semaphore closed") | _ => Ok () end)).
Definition job_fields (job_id tenant_id : string) (policy : QueuePolicy) (model : string) (priority : QueuePriority)
    (method path headers : string) (body_ref : BodyLocation) (callback_url : string) (created_at : Z) : list (string * Value) := [
  ("job_id", VString job_id);
  ("tenant_id", VString tenant_id);
  ("policy", VString (policy_as_str policy));
  ("model", VString model);
  ("priority", VString (priority_as_str priority));
  ("method", VString method);
  ("path", VString path);
  ("headers", VString headers);
  ("body", VString (bl_body_base64 body_ref));
  ("ref", VString (bl_object_ref body_ref));
  ("size", VInteger (swrap 64 (bl_size body_ref)));
  ("storage", VString (bl_storage body_ref));
  ("callback_url", VString callback_url);
  ("created_at", VInteger (swrap 64 created_at))].
Definition xadd_future (stream : string) (fields : list (string * Value)) : Fut string :=
  try stream_id <- xadd stream fields; try _ <- trim_stream cfg stream; ok stream_id.
(** [tokio::join!] of the upload and the entry; the upload's error comes first. *)
Definition add_job (sched : list bool) (pending_upload : option (Fut unit)) (entry : Fut string) : Fut string :=
  match pending_upload with
  | Some upload =>
      await rs <- join sched upload entry;
      try _ <- lift rs.1;
      lift rs.2
  | None => entry
  end.
Definition enqueue_job (sched : list bool) (policy : QueuePolicy) (uri : Uri) (headers : HeaderMap)
    (body : list (result string string)) : Fut AcceptedJob :=
  await enqueue_started_at <- now_ms;
  try _ <- acquire_permit;
  await job_id <- new_job_id;
  try tenant_id <- lift (required_header headers "x-tenant-id");
  let model := default "default" (optional_header headers "x-model") in
  let callback_url := default "" (optional_header headers "x-callback-url") in
  try _ <- lift (validate_callback_url cfg policy callback_url);
  let original_method := default "POST" (optional_header headers "x-original-method") in
  let original_path := default (uri_path uri) (optional_header headers "x-original-path") in
  try request_headers <- lift (headers_to_json headers);
  await created_at <- now_ms;
  try body_outcome <- store_body cfg job_id body;
  let '(body_ref, pending_upload) := body_outcome in
  let '(stream_key, priority) := stream_for_request cfg headers tenant_id model in
  try stream_id <- add_job sched pending_upload (xadd_future stream_key
    (job_fields job_id tenant_id policy model priority original_method original_path request_headers body_ref callback_url created_at));
  await _ <- metrics (fetch_add enqueue_total 1);
  await now <- now_ms;
  await _ <- metrics (observe_enqueue_latency (sat_sub now enqueue_started_at) (policy_as_str policy)
    (body_size_bucket (bl_size body_ref) (bl_storage body_ref)));
  await _ <- metrics (observe_body_size (bl_size body_ref));
  await _ <- metrics (fetch_add (match priority with
    | High => enqueue_priority_high_total | Normal => enqueue_priority_normal_total | Low => enqueue_priority_low_total end) 1);
  await _ <- metrics (fetch_add (match policy with Queue => enqueue_queue_total | Wait => enqueue_wait_total end) 1);
  ok (MkAcceptedJob (MkEnqueueResponse job_id stream_id stream_key "queued" (job_poll_url job_id) (job_status_url_legacy job_id)) created_at).

(** ** The handlers of jobs: [handlers.rs] *)

(** [(status, Json(value)).into_response()] *)
Definition json_response (status : Z) (value : Json) : ApiResponse :=
  match json_to_string value with
  | Ok body => MkApiResponse status (hm_insert "content-type" "application/json" hm_empty) body
  | Err e => MkApiResponse 500 (hm_insert "content-type" "text/plain; charset=utf-8" hm_empty) e
  end.
(** [impl IntoResponse for ServiceError] *)
Definition error_response (e : ServiceError) : ApiResponse := json_response (se_status e) (JObject [("error", JString (se_message e))]).
Definition enqueue_response_json (r : EnqueueResponse) : Json := JObject [
  ("job_id", JString (er_job_id r));
  ("stream_id", JString (er_stream_id r));
  ("stream_key", JString (er_stream_key r));
  ("status", JString (er_status r));
  ("poll_url", JString (er_poll_url r));
  ("status_url", JString (er_status_url r))].
Definition enqueue (sched : list bool) (uri : Uri) (headers : HeaderMap) (body : list (result string string)) : Fut ApiResponse :=
  try accepted <- enqueue_job sched Queue uri headers body;
  let response := aj_response accepted in
  let resp := json_response 202 (enqueue_response_json response) in
  try id <- lift (header_value (er_job_id response));
  try location <- lift (header_value (er_poll_url response));
  ok (MkApiResponse (ar_status resp) (hm_insert "location" location (hm_insert "x-job-id" id (ar_headers resp))) (ar_body resp)).

Definition load_response (job : AcceptedJob) (result : StoredResult) : Fut ApiResponse :=
  await now <- now_ms; lift (result_to_response now result (aj_created_at_ms job)).
Definition timeout_json (response : EnqueueResponse) (waited_ms : Z) : Json := JObject [
  ("error", JString "timeout");
  ("job_id", JString (er_job_id response));
  ("poll_url", JString (er_poll_url response));
  ("waited_ms", JNumber (dec_string waited_ms));
  ("message", JString "Job is still processing. Switch to queue mode with a callback for long tasks.")].
Definition enqueue_and_wait (sched : list bool) (uri : Uri) (headers : HeaderMap) (body : list (result string string)) : Fut ApiResponse :=
  let timeout_secs := default (wait_timeout_secs cfg) (optional_header headers "x-request-timeout" ≫= parse_unsigned 64) in
  await _ <- metrics (fetch_add wait_total 1);
  try accepted <- enqueue_job sched Wait uri headers body;
  let job_id := er_job_id (aj_response accepted) in
  let channel := result_channel cfg job_id in
  try found <- load_result job_id;
  match found with
  | Some result => load_response accepted result
  | None =>
      await wait <- wait_for_channel channel timeout_secs;
      match wait with
      | Ok _ =>
          try found <- load_result job_id;
          match found with
          | Some result => load_response accepted result
          | None => err (gateway_timeout ("job " +:+ job_id +:+ " completed notification received but result is missing"))
          end
      | Err e =>
          if se_status e =? 504 then
            await _ <- metrics (fetch_add wait_timeout_total 1);
            await now <- now_ms;
            ok (json_response 504 (timeout_json (aj_response accepted) (sat_sub now (aj_created_at_ms accepted))))
          else err e
      end
  end.
Definition get_job (job_id : string) : Fut ApiResponse :=
  try found <- load_result job_id;
  match found with
  | Some result =>
      if bool_decide (sr_status result = "completed") then lift (poll_result_to_response result)
      else ok (json_response 200 (JObject [
        ("job_id", JString (sr_job_id result));
        ("status", JString (sr_status result));
        ("http_status", JNumber (dec_string (sr_http_status result)));
        ("error", from_option JString JNull (sr_error result));
        ("completed_at", JString (format_completed_at_rfc3339 (sr_completed_at_ms result)))]))
  | None => ok (json_response 404 (JObject [("error", JString "not_found"); ("job_id", JString job_id)]))
  end.
End jobs.
