(* ===== verification/AiJobsRun.v ===== *)
(** * AI gateway service: no job is lost

    Theorems about the programs of [AiJobs] in any interleaving and with any replies, dropped
    tasks, failures and claimed entries included. An entry of a stream is acknowledged only
    when its job is done ([acknowledged_is_settled]); a job is accepted only when its entry and
    its body are stored; what the worker calls is what the client sent. *)

From S2P Require Export AiJobs.
Local Open Scope string_scope.
Local Open Scope list_scope.
Local Open Scope Z_scope.

Definition not_ack (c : Cmd) : Prop := match c with CXack _ _ _ => False | _ => True end.

(** [issues not_ack p], by the form of [p]. *)
Ltac quiet_step :=
  lazymatch goal with
  | |- issues _ (try_bind _ _) => apply issues_try
  | |- issues _ (bind _ _) => apply issues_bind
  | |- issues _ (join _ _ _) => apply issues_join
  | |- issues _ (map_prog _ _) => apply issues_map_prog
  | |- issues _ (redis _ _) => apply issues_redis; exact I
  | |- issues _ (metrics _) => apply issues_metrics; exact I
  | |- issues _ (Ret _) => exact I
  | |- issues _ (ok _) => exact I
  | |- issues _ (err _) => exact I
  | |- issues _ (lift _) => exact I
  | |- issues _ now_ms => split; [exact I|intros ?; exact I]
  | |- issues _ new_job_id => split; [exact I|intros ?; exact I]
  | |- issues _ (Do _ _) => split; [exact I|]
  | |- ∀ _, _ => intros ?
  | |- issues _ (match ?x with _ => _ end) => destruct x
  | |- issues _ (let '(_, _) := ?x in _) => destruct x
  | |- True => exact I
  | |- issues _ _ => progress cbv beta zeta
  end.
Ltac quiet := repeat first [solve [eauto with issues] | quiet_step].

(** ** Programs that acknowledge nothing *)

Section quiet.
Context `{HttpLib} `{!Base64} `{!AiLib} (cfg : Args).

Lemma quiet_redis_get k : issues not_ack (redis_get k). Proof. done. Qed.
Lemma quiet_redis_set k v ex : issues not_ack (redis_set k v ex). Proof. done. Qed.
Lemma quiet_redis_del k : issues not_ack (redis_del k). Proof. done. Qed.
Lemma quiet_xadd s f : issues not_ack (xadd s f). Proof. done. Qed.
Lemma quiet_trim s : issues not_ack (trim_stream cfg s).
Proof. unfold trim_stream. quiet. Qed.
Lemma quiet_http_ok m u h b : issues not_ack (http_ok m u h b).
Proof. unfold http_ok, http. quiet. Qed.
#[local] Hint Resolve quiet_redis_get quiet_redis_set quiet_redis_del quiet_xadd quiet_trim quiet_http_ok : issues.
Lemma quiet_auth : issues not_ack (auth_headers cfg). Proof. done. Qed.
#[local] Hint Resolve quiet_auth : issues.
Lemma quiet_abort r u : issues not_ack (abort_upload_if_needed cfg r u).
Proof. unfold abort_upload_if_needed, abort_multipart_upload. quiet. Qed.
Lemma quiet_load_body f : issues not_ack (load_body cfg f).
Proof. unfold load_body. quiet. Qed.
Lemma quiet_load_result j : issues not_ack (load_result cfg j).
Proof. unfold load_result. quiet. Qed.
Lemma quiet_store_result r : issues not_ack (store_result cfg r).
Proof. unfold store_result. quiet. Qed.
Lemma quiet_release j : issues not_ack (release_job_lease j).
Proof. unfold release_job_lease. quiet. Qed.
Lemma quiet_clear j : issues not_ack (clear_job_delivery_attempt j).
Proof. unfold clear_job_delivery_attempt. quiet. Qed.
Lemma quiet_wait c n : issues not_ack (wait_for_channel c n).
Proof. unfold wait_for_channel. quiet. Qed.
Lemma quiet_group s g : issues not_ack (ensure_consumer_group s g).
Proof. unfold ensure_consumer_group. quiet. Qed.
Lemma quiet_try_map {A B} (f : A → Fut B) l : (∀ x, issues not_ack (f x)) → issues not_ack (try_map f l).
Proof. intros Hf. induction l as [|x l IH]; cbn [try_map]; quiet. Qed.
End quiet.
#[export] Hint Resolve quiet_redis_get quiet_redis_set quiet_redis_del quiet_xadd quiet_trim quiet_http_ok
  quiet_auth quiet_abort quiet_load_body quiet_load_result quiet_store_result quiet_release quiet_clear quiet_wait quiet_group
  quiet_try_map : issues.


(** ** What is known when an entry is acknowledged *)

Section settled.
Context `{HttpLib} `{!Base64} `{!AiLib} (cfg : Args).
Implicit Types K : known.

(** The entry was handed to this task by a read of the group or by a claim. *)
Definition delivered K (stream group entry_id : string) (fields : Fields) : Prop :=
  ∃ c entries, K (c, REntries entries) ∧ (entry_id, fields) ∈ entries ∧
    ((∃ consumer count block, c = CXreadgroup group consumer count block stream) ∨
     (∃ consumer idle count, c = CXautoclaim stream group consumer idle count)).
(** The task took the lease of the job and counted the delivery; [attempt] is the count. *)
Definition counted K (job_id : string) (attempt : Z) : Prop :=
  (∃ owner token, K (CSet (job_lease_key job_id) owner (Some (Z.max (job_process_lease_secs cfg) 1)) true, RText token)) ∧
  ∃ n, K (CIncrBy (job_attempt_key job_id) 1, RInt n) ∧ attempt = uwrap 32 (Z.max n 0).
(** The upstream was called, and Redis took its answer as the job's result. *)
Definition result_stored K (job_id : string) (result : StoredResult) : Prop :=
  (∃ method url headers body upstream now, K (CHttp method url headers body, upstream) ∧
     result = upstream_result job_id upstream now) ∧
  ∃ json r, ser_result result = Ok json ∧ (∀ e, r ≠ RErr e) ∧
    K (CSet (result_key cfg job_id) json (Some (Z.min (result_ttl_secs cfg) i64_max)) false, r).
(** The callback was delivered, or it is an entry of the retry stream. *)
Definition posted K (url job_id body : string) : Prop :=
  ∃ status headers text, ¬ 400 ≤ status ≤ 599 ∧
    K (CHttp "POST" url [("x-gateway-job-id", job_id); ("content-type", "application/json")] body, RHttp status headers text).
Definition retry_queued K (url job_id body : string) : Prop :=
  ∃ attempt next_ms error at_ms id,
    K (CXadd (callback_retry_stream cfg) (callback_retry_fields url job_id body attempt next_ms error at_ms), RText id).

(** The job of an entry is done: its result is stored and its callback is delivered or queued,
    or it was delivered too often and lies in the dead letter stream with all its fields. *)
Definition job_done K (stream entry_id : string) (fields : Fields) : Prop :=
  ∃ job_id attempt, field_string fields "job_id" = Some job_id ∧ counted K job_id attempt ∧
    ((attempt ≤ job_max_delivery_attempts cfg ∧
      ∃ result, result_stored K job_id result ∧
        let url := default "" (field_string fields "callback_url") in
        (url = "" ∨ ∃ body, json_to_string (callback_body result) = Ok body ∧
           (posted K url job_id body ∨ retry_queued K url job_id body))) ∨
     (job_max_delivery_attempts cfg < attempt ∧
      ∃ json at_ms id, stream_fields_to_json fields = Ok json ∧
        K (CXadd (job_dlq_stream cfg)
             (job_dlq_fields job_id stream entry_id attempt "max_delivery_attempts_exceeded" json at_ms), RText id))).

(** A callback is done: delivered, queued again with the same body, or, after the last
    attempt, in its dead letter stream. *)
Definition retry_body (body : string) : string :=
  match json_to_string (default (JObject [("body", JString body)]) (json_from_str body)) with Ok s => s | Err _ => "{}" end.
Definition callback_done K (fields : Fields) : Prop :=
  let url := default "" (field_string fields "callback_url") in
  let job_id := default "" (field_string fields "job_id") in
  let body := default "{}" (field_string fields "body") in
  let attempt := default 1 (field_u32 fields "attempt") in
  posted K url job_id (retry_body body) ∨ retry_queued K url job_id body ∨
  retry_queued K url job_id (retry_body body) ∨
  (callback_max_retry_attempts cfg ≤ attempt ∧ ∃ error at_ms id,
     K (CXadd (callback_dlq_stream cfg) (callback_dlq_fields url job_id (retry_body body) attempt error at_ms), RText id)).

Definition settled K (stream group entry_id : string) : Prop :=
  ∃ fields, delivered K stream group entry_id fields ∧
    ((group = consumer_group cfg ∧ stream ∈ configured_streams cfg ∧ job_done K stream entry_id fields) ∨
     (group = callback_retry_group cfg ∧ stream = callback_retry_stream cfg ∧ callback_done K fields)).
Definition ack_settled K (e : Event) : Prop :=
  match e.1 with CXack stream group entry_id => settled K stream group entry_id | _ => True end.

(** *** What is known stays known *)

Lemma delivered_mono K K' s g i f : sub K K' → delivered K s g i f → delivered K' s g i f.
Proof. intros Hs (c & l & Hc & ?). exists c, l. split; [by apply Hs|done]. Qed.
Lemma counted_mono K K' j n : sub K K' → counted K j n → counted K' j n.
Proof.
  intros Hs [(o & t & Ho) (m & Hm & ->)]. split; [exists o, t; by apply Hs|]. exists m. split; [by apply Hs|done].
Qed.
Lemma result_stored_mono K K' j r : sub K K' → result_stored K j r → result_stored K' j r.
Proof.
  intros Hs [(m & u & h & b & up & now & Hc & ->) (json & r' & ? & ? & Hr)].
  split; [exists m, u, h, b, up, now; split; [by apply Hs|done]|]. exists json, r'. split_and!; [done|done|by apply Hs].
Qed.
Lemma posted_mono K K' u j b : sub K K' → posted K u j b → posted K' u j b.
Proof. intros Hs (st & h & t & ? & Hp). exists st, h, t. split; [done|by apply Hs]. Qed.
Lemma retry_queued_mono K K' u j b : sub K K' → retry_queued K u j b → retry_queued K' u j b.
Proof. intros Hs (a & n & e & t & id & Hq). exists a, n, e, t, id. by apply Hs. Qed.
#[local] Hint Resolve delivered_mono counted_mono result_stored_mono posted_mono retry_queued_mono : core.
Lemma job_done_mono K K' s i f : sub K K' → job_done K s i f → job_done K' s i f.
Proof.
  intros Hs (j & n & Hj & Hc & Hd). exists j, n. split_and!; [done|by eauto|].
  destruct Hd as [(Hn & r & Hr & Hu)|(Hn & json & t & id & Hf & Hx)]; [left|right]; (split; [done|]).
  - exists r. split; [by eauto|]. destruct Hu as [->|(b & Hb & Hp)]; [by left|]. right. exists b.
    split; [done|]. destruct Hp; eauto.
  - exists json, t, id. split; [done|by apply Hs].
Qed.
Lemma callback_done_mono K K' f : sub K K' → callback_done K f → callback_done K' f.
Proof.
  intros Hs [?|[?|[?|(Hn & e & t & id & Hx)]]]; [left; by eauto|right; left; by eauto|right; right; left; by eauto|].
  right; right; right. split; [done|]. exists e, t, id. by apply Hs.
Qed.
#[export] Instance ack_settled_mono : Mono ack_settled.
Proof.
  intros K K' [c r] Hs. unfold ack_settled. destruct c; simpl; try done. intros (f & Hd & Hx). exists f.
  split; [by eauto|]. destruct Hx as [(?&?&?)|(?&?&?)]; [left|right]; split_and!; try done.
  - by eapply job_done_mono.
  - by eapply callback_done_mono.
Qed.

(** *** Replies *)

Lemma convert_text r s : convert as_text r = Ok s → r = RText s.
Proof. destruct r; simpl; intros; by simplify_eq. Qed.
Lemma convert_int r n : convert as_int r = Ok n → r = RInt n.
Proof. destruct r; simpl; intros; by simplify_eq. Qed.
Lemma convert_ok {A} (get : Reply → option A) r a : convert get r = Ok a → ∀ e, r ≠ RErr e.
Proof. by destruct r. Qed.
Lemma convert_opt_text r s : convert as_opt_text r = Ok (Some s) → r = RText s.
Proof. destruct r; simpl; intros; by simplify_eq. Qed.
Lemma convert_entries r l : convert as_entries r = Ok l → r = REntries l ∨ l = [].
Proof. destruct r; simpl; intros; simplify_eq; auto. Qed.
Lemma convert_claimed r l : convert as_claimed r = Ok l → r = REntries l.
Proof. destruct r; simpl; intros; by simplify_eq. Qed.

(** ** The programs' steps *)

Notation okw := (okwp ack_settled).
Lemma quiet_ok {A} K (p : Fut A) : issues not_ack p → okw K p (λ _ _, True).
Proof. intros Hp. apply wp_okwp. eapply issues_wp; [|exact Hp]. intros K' c r Hc. by destruct c. Qed.
Lemma quiet_wp {A} K (p : Prog A) : issues not_ack p → wp ack_settled K p (λ _ _, True).
Proof. apply issues_wp. intros K' c r Hc. by destruct c. Qed.
Lemma redis_ok {A} K c (get : Reply → option A) :
  not_ack c → okw K (redis c get) (λ K' a, ∃ r, K' (c, r) ∧ convert get r = Ok a).
Proof. intros Hc. apply okwp_redis. intros r. by destruct c. Qed.
Lemma xadd_ok K s f : okw K (xadd s f) (λ K' id, K' (CXadd s f, RText id)).
Proof. eapply okwp_impl; [by apply redis_ok|]. intros K' id _ (r & Hr & Hc). by apply convert_text in Hc as ->. Qed.

(** One step of a fallible program: of one that is quiet, and of one with a specification. *)
Ltac quietly :=
  lazymatch goal with
  | |- okwp _ _ (try_bind _ _) _ => eapply okwp_try; [apply quiet_ok; quiet|]
  | |- okwp _ _ (bind _ _) _ => eapply okwp_bind; [apply quiet_wp; quiet|]
  | |- wp _ _ (bind _ _) _ => eapply wp_seq; [apply quiet_wp; quiet|]
  end; intros ? ? ? _.
Ltac learn lem :=
  lazymatch goal with
  | |- okwp _ _ (try_bind _ _) _ => eapply okwp_try; [apply lem|]
  | |- okwp _ _ (bind _ _) _ => eapply okwp_bind; [apply lem|]
  | |- wp _ _ (bind _ _) _ => eapply wp_seq; [apply lem|]
  end; intros ? ? ?.
(** A fact of what was known before. *)
Ltac known := unfold sub in *; eauto 8.

Lemma retry_raw_ok K url j b a n e :
  okw K (enqueue_callback_retry_raw cfg url j b a n e) (λ K' _, retry_queued K' url j b).
Proof.
  unfold enqueue_callback_retry_raw. quietly. learn xadd_ok. intros Hx. quietly. quietly. apply okwp_ok.
  eexists _, _, _, _, _. known.
Qed.
Lemma http_ok_ok K m u h b :
  okw K (http_ok m u h b) (λ K' _, ∃ status headers text, ¬ 400 ≤ status ≤ 599 ∧ K' (CHttp m u h b, RHttp status headers text)).
Proof.
  unfold http_ok. eapply (okwp_try _ _ _ _ (λ K' a, K' (CHttp m u h b, RHttp a.1.1 a.1.2 a.2))).
  - intros r. split; [done|]. intros a. destruct r; intros Ha; simplify_eq/=. by right.
  - intros K' [[st hs] t] Hs Hx. destruct (_ && _) eqn:Hst; [apply okwp_err|]. apply okwp_ok. eexists _, _, _.
    split; [|exact Hx]. rewrite <- not_true_iff_false, andb_true_iff, !Z.leb_le in Hst. exact Hst.
Qed.
Lemma post_callback_ok K u j v :
  okw K (post_callback u j v) (λ K' _, ∃ b, json_to_string v = Ok b ∧ posted K' u j b).
Proof.
  unfold post_callback. destruct (json_to_string v) as [b|e] eqn:Hv; [|apply okwp_err]. learn http_ok_ok.
  intros Hp. apply okwp_ok. by exists b.
Qed.
Lemma store_result_ok K r :
  okw K (store_result cfg r) (λ K' _, ∃ json rep, ser_result r = Ok json ∧ (∀ e, rep ≠ RErr e) ∧
    K' (CSet (result_key cfg (sr_job_id r)) json (Some (Z.min (result_ttl_secs cfg) i64_max)) false, rep)).
Proof.
  unfold store_result. eapply okwp_try; [apply okwp_lift|]. intros K1 json Hs1 Hj.
  eapply okwp_try; [by apply redis_ok|]. intros K2 u Hs2 (rep & Hrep & Hc). quietly. apply okwp_ok.
  pose proof (convert_ok _ _ _ Hc) as Hrep'. exists json, rep. split_and!; [|done|known].
  destruct (ser_result r); simpl in Hj; congruence.
Qed.

(** *** Jobs *)

Lemma sr_job_id_upstream j u n : sr_job_id (upstream_result j u n) = j.
Proof. by destruct u. Qed.
Lemma call_upstream_ok K base j f b :
  wp ack_settled K (call_upstream base j f b) (λ K' res, sr_job_id res = j ∧
    ∃ m u h body upstream now, K' (CHttp m u h body, upstream) ∧ res = upstream_result j upstream now).
Proof.
  intros r. split; [done|]. intros r'. split; [done|]. split; [apply sr_job_id_upstream|].
  eexists _, _, _, _, r, _. split; [left; by right|done].
Qed.
Lemma enqueue_callback_retry_ok K u j v e :
  okw K (enqueue_callback_retry cfg u j v e) (λ K' _, ∃ b, json_to_string v = Ok b ∧ retry_queued K' u j b).
Proof.
  unfold enqueue_callback_retry. learn okwp_lift. intros Hb. quietly.
  eapply okwp_impl; [apply retry_raw_ok|]. intros Kf u' _ Hq. exists a. split; [|exact Hq].
  destruct (json_to_string v); simpl in Hb; congruence.
Qed.
Lemma run_callback_ok K u j v :
  okw K (if str_is_empty u then ok ()
         else
           await posted <- post_callback u j v;
           match posted with
           | Ok _ => ok ()
           | Err e => await _ <- metrics (fetch_add callback_failure_total 1); enqueue_callback_retry cfg u j v (se_message e)
           end)
    (λ K' _, u = "" ∨ ∃ b, json_to_string v = Ok b ∧ (posted K' u j b ∨ retry_queued K' u j b)).
Proof.
  destruct (str_is_empty u) eqn:Hu; [apply okwp_ok; left; by destruct u|].
  eapply okwp_bind; [apply post_callback_ok|]. intros K1 [[]|e] Hs HQ.
  - apply okwp_ok. destruct (HQ tt eq_refl) as (b & Hb & Hp). right. eauto.
  - quietly. eapply okwp_impl; [apply enqueue_callback_retry_ok|]. intros K2 _ _ (b & Hb & Hp). right. eauto.
Qed.
Lemma process_job_ok K fields :
  okw K (process_job cfg fields) (λ K' _, ∃ job_id result, field_string fields "job_id" = Some job_id ∧
    result_stored K' job_id result ∧
    let url := default "" (field_string fields "callback_url") in
    (url = "" ∨ ∃ body, json_to_string (callback_body result) = Ok body ∧ (posted K' url job_id body ∨ retry_queued K' url job_id body))).
Proof.
  unfold process_job. destruct (upstream_base_url cfg) as [base|]; [|apply okwp_err].
  learn okwp_lift. intros Hj%ok_or_Ok. quietly.
  eapply okwp_bind; [apply call_upstream_ok|].
  intros K3 res Hs3 (<- & m & u & h & b & up & now & Hcall & Hres). learn store_result_ok.
  intros (json & rep & Hser & Hrep & Hset). learn run_callback_ok. intros Hcb. quietly. apply okwp_ok.
  exists (sr_job_id res), res. split_and!; [done| |].
  - split; [exists m, u, h, b, up, now; split; [known|done]|]. exists json, rep. split_and!; [done|done|known].
  - destruct Hcb as [->|(b' & Hb' & Hp)]; [by left|]. right. exists b'. split; [done|].
    destruct Hp; [left; by eapply posted_mono|right; by eapply retry_queued_mono].
Qed.
Lemma lease_ok (I : known → Event → Prop) K j o :
  (∀ r, I K (CSet (job_lease_key j) o (Some (Z.max (job_process_lease_secs cfg) 1)) true, r)) →
  okwp I K (acquire_job_lease cfg j o) (λ K' leased, leased = true → ∃ token,
    K' (CSet (job_lease_key j) o (Some (Z.max (job_process_lease_secs cfg) 1)) true, RText token)).
Proof.
  intros HI. unfold acquire_job_lease. eapply okwp_try; [by apply okwp_redis|]. intros K1 res Hs (r & Hr & Hc). apply okwp_ok.
  intros Hl. apply bool_decide_eq_true in Hl as [t ->]. apply convert_opt_text in Hc as ->. by exists t.
Qed.
Lemma increment_ok (I : known → Event → Prop) K j :
  (∀ r, I K (CIncrBy (job_attempt_key j) 1, r)) → (∀ K n r, I K (CExpire (job_attempt_key j) n, r)) →
  okwp I K (increment_job_delivery_attempt cfg j) (λ K' attempt, ∃ n, K' (CIncrBy (job_attempt_key j) 1, RInt n) ∧
    attempt = uwrap 32 (Z.max n 0)).
Proof.
  intros HI HE. unfold increment_job_delivery_attempt. eapply okwp_try; [by apply okwp_redis|]. intros K1 n Hs (r & Hr & Hc).
  apply convert_int in Hc as ->. eapply okwp_try; [by apply okwp_redis|]. intros K2 u Hs2 _. apply okwp_ok.
  exists n. split; [by apply Hs2|done].
Qed.
Lemma enqueue_job_dlq_ok K s i f n reason :
  okw K (enqueue_job_dlq cfg s i f n reason) (λ K' _, ∃ json at_ms id, stream_fields_to_json f = Ok json ∧
    K' (CXadd (job_dlq_stream cfg) (job_dlq_fields (default "" (field_string f "job_id")) s i n reason json at_ms), RText id)).
Proof.
  unfold enqueue_job_dlq. learn okwp_lift. intros Hj. quietly. learn xadd_ok. intros Hx. quietly. apply okwp_ok.
  eexists _, _, _. split; [exact Hj|known].
Qed.
Lemma ack_ok K s i : settled K s (consumer_group cfg) i → okw K (ack_stream_entry cfg s i) (λ _ _, True).
Proof. intros Hx r. split; [done|]. by destruct r. Qed.

Lemma process_stream_entry_ok K s i f :
  s ∈ configured_streams cfg → delivered K s (consumer_group cfg) i f →
  okw K (process_stream_entry cfg s i f) (λ _ _, True).
Proof.
  intros Hs Hd. unfold process_stream_entry. eapply okwp_try; [apply okwp_lift|]. intros K0 j Hs0 Hj%ok_or_Ok.
  quietly. eapply okwp_try; [by apply lease_ok|]. intros K2 [] Hs2 Hl; cbn [negb]; [|apply quiet_ok; quiet].
  destruct (Hl eq_refl) as [token Ht]. eapply okwp_try; [by apply increment_ok|].
  intros K3 attempt Hs3 (n & Hn & Ha).
  assert (counted K3 j attempt) as Hcount by (split; [eexists _, _; known|by exists n]).
  destruct (Z.ltb_spec (job_max_delivery_attempts cfg) attempt) as [Hmax|Hmax].
  - eapply okwp_try; [apply enqueue_job_dlq_ok|]. intros K4 u Hs4 (json & t & id & Hfj & Hx).
    eapply okwp_try; [apply ack_ok|intros K5 u' _ _; apply quiet_ok; quiet].
    exists f. split; [eapply delivered_mono; [|exact Hd]; known|]. left. split_and!; [done|done|].
    exists j, attempt. split_and!; [done|by eapply counted_mono|]. right. split; [done|]. exists json, t, id.
    split; [done|]. by rewrite Hj in Hx.
  - quietly. eapply okwp_bind; [apply process_job_ok|]. intros K5 processed Hs5 HQ. quietly. quietly.
    destruct processed as [u|e]; [|apply quiet_ok; quiet].
    destruct (HQ u eq_refl) as (j' & result & Hj' & Hr & Hcb). rewrite Hj in Hj'. injection Hj' as <-.
    eapply okwp_try; [apply ack_ok|intros Kf u' _ _; apply quiet_ok; quiet].
    assert (sub K5 K'2) by (by eapply sub_trans).
    exists f. split; [eapply delivered_mono; [|exact Hd]; known|]. left. split_and!; [done|done|].
    eapply job_done_mono; [eassumption|]. exists j, attempt. split_and!; [done|eapply counted_mono; [|exact Hcount]; known|].
    left. split; [done|]. by exists result.
Qed.

(** *** Callbacks *)

Lemma ack_callback_ok K i :
  settled K (callback_retry_stream cfg) (callback_retry_group cfg) i → okw K (ack_callback_retry cfg i) (λ _ _, True).
Proof. intros Hx r. split; [done|]. by destruct r. Qed.
Lemma enqueue_callback_dlq_ok K u j v n e :
  okw K (enqueue_callback_dlq cfg u j v n e) (λ K' _, ∃ b at_ms id, json_to_string v = Ok b ∧
    K' (CXadd (callback_dlq_stream cfg) (callback_dlq_fields u j b n e at_ms), RText id)).
Proof.
  unfold enqueue_callback_dlq. eapply okwp_try; [apply okwp_lift|]. intros K1 b Hs1 Hb. quietly. learn xadd_ok. intros Hx.
  quietly. quietly. apply okwp_ok. exists b. eexists _, _. split; [|known]. destruct (json_to_string v); simpl in Hb; congruence.
Qed.
Lemma process_callback_retry_entry_ok K i f :
  delivered K (callback_retry_stream cfg) (callback_retry_group cfg) i f →
  okw K (process_callback_retry_entry cfg i f) (λ _ _, True).
Proof.
  intros Hd. unfold process_callback_retry_entry. eapply okwp_bind; [apply quiet_wp; quiet|]. intros K1 now Hs1 _.
  assert (∀ K', sub K K' → callback_done K' f → settled K' (callback_retry_stream cfg) (callback_retry_group cfg) i) as Hdone.
  { intros K' Hs Hc. exists f. split; [by eapply delivered_mono|]. by right. }
  destruct (now <? _).
  { eapply okwp_try; [apply retry_raw_ok|]. intros K2 u Hs2 Hq. apply ack_callback_ok, Hdone; [by eapply sub_trans|].
    right; by left. }
  eapply okwp_bind; [apply post_callback_ok|]. intros K2 [[]|e] Hs2 HQ.
  - destruct (HQ tt eq_refl) as (b & Hb & Hp).
    eapply okwp_try; [apply ack_callback_ok, Hdone; [by eapply sub_trans|]|intros; apply quiet_ok; quiet].
    left. unfold retry_body. by rewrite Hb.
  - assert (sub K K2) as Hs by (by eapply sub_trans). destruct (_ <=? _) eqn:Hn.
    + eapply okwp_try; [apply enqueue_callback_dlq_ok|]. intros K3 u Hs3 (b & t & id & Hb & Hx).
      apply ack_callback_ok, Hdone; [by eapply sub_trans|]. right; right; right. split; [by apply Z.leb_le|].
      exists (se_message e), t, id. unfold retry_body. by rewrite Hb.
    + eapply okwp_try; [apply retry_raw_ok|]. intros K3 u Hs3 Hq. apply ack_callback_ok, Hdone; [by eapply sub_trans|].
      right; right; by left.
Qed.
Lemma process_callback_retries_ok K l :
  (∀ i f, (i, f) ∈ l → delivered K (callback_retry_stream cfg) (callback_retry_group cfg) i f) →
  okw K (process_callback_retries cfg l) (λ _ _, True).
Proof.
  revert K. induction l as [|[i f] l IH]; intros K Hl; [by apply okwp_ok|]. cbn [process_callback_retries].
  eapply okwp_try; [apply process_callback_retry_entry_ok, Hl; by left|]. intros K1 u Hs _. apply IH.
  intros i' f' Hi. eapply delivered_mono; [exact Hs|]. apply Hl. by right.
Qed.

(** *** The loops *)

Lemma read_group_ok K g c n b s :
  okw K (xreadgroup_map_or_empty g c n b s) (λ K' l, ∀ i f, (i, f) ∈ l → delivered K' s g i f).
Proof.
  eapply okwp_impl; [by apply redis_ok|]. intros K' l _ (r & Hr & Hc) i f Hi.
  apply convert_entries in Hc as [->| ->]; [|by apply elem_of_nil in Hi]. exists (CXreadgroup g c n b s), l.
  split_and!; [done|done|]. left. by eexists _, _, _.
Qed.
Lemma claim_ok K s g c t n :
  okw K (redis (CXautoclaim s g c t n) as_claimed) (λ K' l, ∀ i f, (i, f) ∈ l → delivered K' s g i f).
Proof.
  eapply okwp_impl; [by apply redis_ok|]. intros K' l _ (r & Hr & Hc) i f Hi.
  apply convert_claimed in Hc as ->. exists (CXautoclaim s g c t n), l.
  split_and!; [done|done|]. right. by eexists _, _, _.
Qed.
Lemma callback_retry_once_ok K : okw K (callback_retry_once cfg) (λ _ _, True).
Proof.
  unfold callback_retry_once, reclaim_callback_retries. eapply okwp_try.
  - eapply okwp_try; [apply claim_ok|]. intros K1 l _ Hl. by apply process_callback_retries_ok.
  - intros K1 u _ _. eapply okwp_try; [apply read_group_ok|]. intros K2 l _ Hl. by apply process_callback_retries_ok.
Qed.

Lemma read_worker_stream_ok K sched c s b :
  s ∈ configured_streams cfg → okw K (read_worker_stream cfg sched c s b) (λ _ _, True).
Proof.
  intros Hs. unfold read_worker_stream. eapply okwp_try; [apply read_group_ok|]. intros K1 l _ Hl.
  eapply okwp_bind; [apply wp_join_all; [apply _|]|intros K2 rs _ _; apply quiet_ok; quiet].
  apply Forall_fmap, Forall_forall. intros [i f] Hi. eapply okwp_wp, process_stream_entry_ok; [done|by apply Hl].
Qed.
Lemma worker_order_configured s : s ∈ worker_stream_order cfg → s ∈ configured_streams cfg.
Proof.
  unfold worker_stream_order, configured_streams, push_weighted. destruct (enable_priority_streams cfg); [simpl negb; cbv iota|done].
  destruct (_ ++ _) as [|x l] eqn:Hl; [intros ->%list_elem_of_singleton; right; by left|]. rewrite <- Hl.
  rewrite !elem_of_app, !elem_of_replicate. set_solver.
Qed.
Lemma worker_once_ok K sched c : okw K (worker_once cfg sched c) (λ _ _, True).
Proof.
  unfold worker_once. pose proof worker_order_configured as Hc. revert K Hc.
  induction (worker_stream_order cfg) as [|s l IH]; intros K Hc; [by apply okwp_ok|]. cbn [worker_streams].
  eapply okwp_try; [apply read_worker_stream_ok, Hc; by left|]. intros K1 n _ _.
  destruct (0 <? n); [by apply okwp_ok|]. apply IH. intros s' Hs'. apply Hc. by right.
Qed.
Lemma try_iter_ok {A} K (f : A → Fut unit) l :
  (∀ K x, x ∈ l → okw K (f x) (λ _ _, True)) → okw K (try_iter f l) (λ _ _, True).
Proof.
  intros Hf. unfold try_iter. eapply (okwp_try _ _ _ _ (λ _ _, True)); [|intros; by apply okwp_ok]. revert K.
  induction l as [|x l IH]; intros K; [by apply okwp_ok|]. cbn [try_map].
  eapply okwp_try; [apply Hf; by left|]. intros K1 u _ _.
  eapply (okwp_try _ _ _ _ (λ _ _, True)); [|intros; by apply okwp_ok]. apply IH. intros K' y Hy. apply Hf. by right.
Qed.
Lemma reclaim_once_ok K : okw K (reclaim_once cfg) (λ _ _, True).
Proof.
  apply try_iter_ok. clear K. intros K s Hs. unfold reclaim_stream. eapply okwp_try; [apply claim_ok|]. intros K1 l _ Hl.
  eapply okwp_bind; [|intros; by apply okwp_ok]. apply wp_map_prog. intros [i f] K2 Hi Hs2. unfold reclaim_entry.
  eapply wp_seq; [eapply okwp_wp, process_stream_entry_ok; [done|eapply delivered_mono; [exact Hs2|by apply Hl]]|].
  intros K3 [[]|e] _ _; apply quiet_wp; quiet.
Qed.
End settled.

(** ** Bodies in the object store *)

Section uploads.
Context `{HttpLib} `{!Base64} `{!AiLib} (cfg : Args).
Implicit Types K : known.

Definition accepted_status (status : Z) : Prop := ¬ 400 ≤ status ≤ 599.
(** Part [i] was put with [body], and the part's tag is the one of the answer. *)
Definition part_put K (object_ref upload_id : string) (i : nat) (body : string) (part : CompletedPart) : Prop :=
  cp_part_number part = Z.of_nat i + 1 ∧
  ∃ auth status headers text, accepted_status status ∧
    K (CHttp "PUT" (part_url cfg object_ref upload_id (Z.of_nat i + 1)) auth body, RHttp status headers text) ∧
    (etag ← find_header "etag" headers; hv_to_str etag) = Some (cp_etag part).
Definition parts_put K (object_ref upload_id : string) (bodies : list string) (parts : list CompletedPart) : Prop :=
  length bodies = length parts ∧
  ∀ i body part, bodies !! i = Some body → parts !! i = Some part → part_put K object_ref upload_id i body part.
(** The object is complete: its parts in their order are [content]. *)
Definition uploaded K (object_ref content : string) : Prop :=
  ∃ upload_id bodies parts auth status headers text,
    concat_str bodies = content ∧ parts_put K object_ref upload_id bodies parts ∧ accepted_status status ∧
    K (CHttp "POST" (upload_url cfg object_ref upload_id) (("content-type", "application/xml") :: auth)
         (complete_multipart_xml parts), RHttp status headers text).

Lemma parts_put_mono K K' r u bs ps : sub K K' → parts_put K r u bs ps → parts_put K' r u bs ps.
Proof.
  intros Hs [Hl Hp]. split; [done|]. intros i b p Hb Hpi. destruct (Hp _ _ _ Hb Hpi) as (? & a & st & h & t & ? & Hk & ?).
  split; [done|]. exists a, st, h, t. split_and!; [done|by apply Hs|done].
Qed.
Lemma parts_put_snoc K r u bs ps b p :
  parts_put K r u bs ps → part_put K r u (length ps) b p → parts_put K r u (bs ++ [b]) (ps ++ [p]).
Proof.
  intros [Hl Hp] Hb. split; [rewrite !length_app; simpl; lia|]. intros i b' p'.
  rewrite !lookup_app. destruct (decide (i < length ps)%nat).
  - destruct (bs !! i) eqn:E1; [|apply lookup_ge_None in E1; lia].
    destruct (ps !! i) eqn:E2; [|apply lookup_ge_None in E2; lia]. intros; simplify_eq. by apply Hp.
  - rewrite (lookup_ge_None_2 bs), (lookup_ge_None_2 ps) by lia. rewrite Hl.
    destruct (i - length ps)%nat eqn:Hi; [|done]. simpl. intros; simplify_eq.
    by replace i with (length ps) by lia.
Qed.

Context (I : known → Event → Prop) (HI : ∀ K c r, not_ack c → I K (c, r)).

Lemma http_ok_spec K m u h b :
  okwp I K (http_ok m u h b) (λ K' a, ∃ status, accepted_status status ∧ K' (CHttp m u h b, RHttp status a.1 a.2)).
Proof.
  unfold http_ok. eapply (okwp_try _ _ _ _ (λ K' a, K' (CHttp m u h b, RHttp a.1.1 a.1.2 a.2))).
  - intros r. split; [by apply HI|]. intros a. destruct r; intros Ha; simplify_eq/=. by right.
  - intros K' [[st hs] t] Hs Hx. destruct (_ && _) eqn:Hst; [apply okwp_err|]. apply okwp_ok. exists st.
    split; [|exact Hx]. rewrite <- not_true_iff_false, andb_true_iff, !Z.leb_le in Hst. exact Hst.
Qed.
Lemma upload_part_spec K r u i b :
  okwp I K (upload_multipart_part cfg r u (Z.of_nat i + 1) b) (λ K' part, part_put K' r u i b part).
Proof.
  unfold upload_multipart_part. eapply okwp_try; [apply okwp_lift|]. intros K1 auth Hs1 Ha.
  eapply okwp_try; [apply http_ok_spec|]. intros K2 [hs t] Hs2 (st & Hst & Hk). intros part Hp.
  destruct (etag ← find_header "etag" _; _) as [etag|] eqn:Het; simplify_eq/=.
  split; [done|]. by exists auth, st, hs, t.
Qed.
Lemma full_parts_spec n K r u ps b bs parts :
  parts_put K r u bs parts →
  okwp I K (upload_full_parts cfg n r u ps b parts) (λ K' out,
    ∃ bs', parts_put K' r u (bs ++ bs') out.2 ∧ concat_str bs' +:+ out.1 = b).
Proof.
  revert K b bs parts. induction n as [|n IH]; intros K b bs parts Hp; cbn [upload_full_parts].
  { apply okwp_ok. exists []. by rewrite app_nil_r. }
  destruct (ps <=? _); [|apply okwp_ok; exists []; by rewrite app_nil_r].
  eapply okwp_try; [apply upload_part_spec|]. intros K1 part Hs1 Hpart.
  eapply okwp_impl; [apply IH; eapply parts_put_snoc; [by eapply parts_put_mono|exact Hpart]|].
  intros K2 out _ (bs' & Hbs & Hc). exists (str_take (Z.to_nat ps) b :: bs'). rewrite <- app_assoc in Hbs.
  split; [done|]. simpl. by rewrite <- str_app_assoc, Hc, str_take_drop.
Qed.

(** The fuel is enough: what is left is less than a part. *)
Lemma full_parts_done K r u ps b parts :
  0 < ps → okwp I K (full_parts cfg r u ps b parts) (λ _ out, Z.of_nat (String.length out.1) < ps).
Proof.
  intros Hps. unfold full_parts. assert (∀ n b parts K, (String.length b ≤ n)%nat →
    okwp I K (upload_full_parts cfg n r u ps b parts) (λ _ out, Z.of_nat (String.length out.1) < ps)) as Hn; [|by apply Hn].
  clear K b parts. induction n as [|n IH]; intros b parts K Hb; cbn [upload_full_parts]; [by apply okwp_ok; simpl; lia|].
  destruct (Z.leb_spec ps (Z.of_nat (String.length b))) as [Hle|Hlt]; [|by apply okwp_ok].
  eapply okwp_try; [apply upload_part_spec|]. intros K1 part _ _. apply IH.
  rewrite str_drop_length. lia.
Qed.
(** A body that was read to its end, within the limit. *)
Definition read_all (stream : list (result string string)) (total : Z) (text : string) : Prop :=
  ∃ chunks, stream = Ok <$> chunks ∧ text = concat_str chunks ∧ total + str_len text ≤ Z.max total (max_body_bytes cfg).
Lemma read_all_nil total : read_all [] total "".
Proof. exists []. split_and!; [done|done|]. change (str_len "") with 0. lia. Qed.
Lemma read_all_cons c stream total text :
  total + str_len c ≤ max_body_bytes cfg → read_all stream (total + str_len c) text → read_all (Ok c :: stream) total (c +:+ text).
Proof.
  intros Hm (chunks & -> & -> & Hl). exists (c :: chunks). split_and!; [done|done|]. rewrite str_len_app. lia.
Qed.

Lemma quietI {A} K (p : Prog A) : issues not_ack p → wp I K p (λ _ _, True).
Proof. by apply issues_wp. Qed.
Lemma upload_chunks_spec st K r u ps b n bs parts :
  parts_put K r u bs parts →
  okwp I K (upload_chunks cfg r u ps st b n parts) (λ K' out,
    ∃ bs' text, parts_put K' r u (bs ++ bs') out.2 ∧ concat_str bs' +:+ out.1 = b +:+ text ∧ read_all st n text).
Proof.
  revert K b n bs parts. induction st as [|[c|e] st IH]; intros K b n bs parts Hp; cbn [upload_chunks].
  - apply okwp_ok. exists [], "". rewrite app_nil_r, str_app_nil_r. split_and!; [done|done|apply read_all_nil].
  - cbv zeta. destruct (u64_max <? _); [apply okwp_err|]. destruct (Z.ltb_spec (max_body_bytes cfg) (n + Z.of_nat (String.length c))) as [?|Hm].
    { eapply okwp_bind; [apply quietI, quiet_abort|]. intros. apply okwp_err. }
    eapply okwp_try; [by apply full_parts_spec|]. intros K1 [b1 parts1] Hs1 (bs1 & Hp1 & Hc1).
    eapply okwp_impl; [by apply IH|]. intros K2 out _ (bs2 & text & Hp2 & Hc2 & Hr).
    exists (bs1 ++ bs2), (c +:+ text). rewrite app_assoc. split_and!; [done| |by apply read_all_cons].
    cbn [fst snd] in Hc1, Hc2. by rewrite concat_str_app, <- str_app_assoc, Hc2, str_app_assoc, Hc1, str_app_assoc.
  - apply okwp_err.
Qed.
Lemma complete_spec K r u bs parts content :
  parts_put K r u bs parts → concat_str bs = content →
  okwp I K (complete_multipart_upload cfg r u parts) (λ K' _, uploaded K' r content).
Proof.
  intros Hp Hc. unfold complete_multipart_upload. eapply okwp_try; [apply okwp_lift|]. intros K1 auth Hs1 _.
  eapply okwp_try; [apply http_ok_spec|]. intros K2 [hs t] Hs2 (st & Hst & Hk). apply okwp_ok.
  exists u, bs, parts, auth, st, hs, t. split_and!; [done|eapply parts_put_mono; [|exact Hp]; by eapply sub_trans|done|done].
Qed.
Lemma uploaded_mono K K' r content : sub K K' → uploaded K r content → uploaded K' r content.
Proof.
  intros Hs (u & bs & ps & a & st & h & t & ? & Hp & ? & Hk). exists u, bs, ps, a, st, h, t.
  split_and!; [done|by eapply parts_put_mono|done|by apply Hs].
Qed.
Lemma upload_all_spec K r u b st ps n :
  okwp I K (upload_all cfg r u b st ps n) (λ K' _, ∃ text, read_all st n text ∧ uploaded K' r (b +:+ text)).
Proof.
  unfold upload_all. eapply okwp_try; [by apply (full_parts_spec _ _ _ _ _ _ [])|].
  intros K1 [b1 parts1] Hs1 (bs1 & Hp1 & Hc1). simpl in Hp1, Hc1.
  eapply okwp_try; [by apply upload_chunks_spec|]. intros K2 [b2 parts2] Hs2 (bs2 & text & Hp2 & Hc2 & Hr).
  simpl in Hp2, Hc2.
  eapply (okwp_try _ _ _ _ (λ K' parts, ∃ bs, parts_put K' r u bs parts ∧ concat_str bs = b +:+ text)).
  - assert (concat_str (bs1 ++ bs2) +:+ b2 = b +:+ text) as Hcat.
    { by rewrite concat_str_app, <- str_app_assoc, Hc2, str_app_assoc, Hc1. }
    destruct (_ || _) eqn:Hrest.
    + eapply okwp_try; [apply upload_part_spec|]. intros K3 part Hs3 Hpart. apply okwp_ok.
      exists ((bs1 ++ bs2) ++ [b2]). split; [apply parts_put_snoc; [by eapply parts_put_mono|done]|].
      rewrite concat_str_app. simpl. by rewrite str_app_nil_r.
    + apply okwp_ok. exists (bs1 ++ bs2). split; [done|].
      apply orb_false_iff in Hrest as [Hb _]. apply negb_false_iff, str_is_empty_true in Hb as ->.
      by rewrite str_app_nil_r in Hcat.
  - intros K3 parts Hs3 (bs & Hp & Hc). eapply okwp_try; [by eapply complete_spec|]. intros K4 x Hs4 Hu.
    eapply okwp_bind; [by apply quietI|]. intros K5 y Hs5 _. apply okwp_ok. exists text.
    split; [done|by eapply uploaded_mono].
Qed.
Lemma finish_spec K r u b st ps n :
  okwp I K (finish_offload_upload cfg r u b st ps n) (λ K' _, ∃ text, read_all st n text ∧ uploaded K' r (b +:+ text)).
Proof.
  unfold finish_offload_upload. eapply okwp_bind; [apply upload_all_spec|]. intros K1 [x|e] Hs1 HQ.
  - eapply okwp_bind; [by apply quietI|]. intros K2 y Hs2 _ a [= <-]. destruct (HQ x eq_refl) as (text & ? & ?).
    exists text. split; [done|by eapply uploaded_mono].
  - eapply okwp_bind; [apply quietI, quiet_abort|]. by intros K2 y Hs2 _ a Ha.
Qed.

(** What [store_body] promises: the body is in the entry, or the upload that goes on stores it. *)
Definition body_stored (object_ref : string) (content : string) (loc : BodyLocation) K : Prop :=
  (loc = MkBodyLocation (b64_encode content) "" (str_len content) "inline") ∨
  (∃ size, loc = MkBodyLocation "" object_ref size "object" ∧ uploaded K object_ref content).
Definition store_outcome (object_ref b : string) (st : list (result string string)) (n : Z)
    (out : BodyLocation * option (Fut unit)) : Prop :=
  match out.2 with
  | None => ∃ text, read_all st n text ∧ out.1 = MkBodyLocation (b64_encode (b +:+ text)) "" (n + str_len text) "inline"
  | Some upload => (∃ size, out.1 = MkBodyLocation "" object_ref size "object") ∧
      ∀ K, okwp I K upload (λ K' _, ∃ text, read_all st n text ∧ uploaded K' object_ref (b +:+ text))
  end.
Lemma store_chunks_spec st K r ps b n :
  okwp I K (store_chunks cfg r ps st b n) (λ _ out, store_outcome r b st n out).
Proof.
  revert K b n. induction st as [|[c|e] st IH]; intros K b n; cbn [store_chunks].
  - apply okwp_ok. exists "". split; [apply read_all_nil|]. simpl. rewrite str_app_nil_r.
    change (str_len "") with 0. by rewrite Z.add_0_r.
  - cbv zeta. destruct (u64_max <? _); [apply okwp_err|]. destruct (Z.ltb_spec (max_body_bytes cfg) (n + Z.of_nat (String.length c))) as [?|Hm];
      [apply okwp_err|]. destruct (_ && _); [apply okwp_err|]. destruct (inline_threshold cfg <? _).
    + eapply okwp_try; [apply wp_okwp, quietI; unfold initiate_multipart_upload; quiet|]. intros K1 u Hs1 _.
      apply okwp_ok. split; [by eexists|]. intros K2. eapply okwp_impl; [apply finish_spec|].
      intros K3 x _ (text & Hr & Hu). exists (c +:+ text). split; [by apply read_all_cons|]. by rewrite str_app_assoc.
    + eapply okwp_impl; [apply IH|]. intros K1 [loc [up|]] _; unfold store_outcome; simpl.
      * intros [Hl Hu]. split; [done|]. intros K2. eapply okwp_impl; [apply Hu|]. intros K3 x _ (text & Hr & Hx).
        exists (c +:+ text). split; [by apply read_all_cons|]. by rewrite str_app_assoc.
      * intros (text & Hr & ->). exists (c +:+ text). split; [by apply read_all_cons|].
        rewrite str_app_assoc, str_len_app. f_equal. unfold str_len. lia.
  - apply okwp_err.
Qed.

(** *** Enqueueing *)

Context `{!Mono I}.
Definition body_ref (job_id : string) : string :=
  trim_matches "/" (object_store_prefix cfg) +:+ "/" +:+ sanitize_key job_id +:+ "/body.bin".
(** The job of a request is accepted: its entry is in the stream of its priority, under the id
    of the answer, and its whole body is in the entry or in the object store. *)
Definition job_stored K (policy : QueuePolicy) (uri : Uri) (headers : HeaderMap) (body : list (result string string))
    (job : AcceptedJob) : Prop :=
  let r := aj_response job in
  let model := default "default" (optional_header headers "x-model") in
  let callback_url := default "" (optional_header headers "x-callback-url") in
  ∃ content tenant hjson loc priority,
    read_all body 0 content ∧ required_header headers "x-tenant-id" = Ok tenant ∧ headers_to_json headers = Ok hjson ∧
    validate_callback_url cfg policy callback_url = Ok () ∧
    stream_for_request cfg headers tenant model = (er_stream_key r, priority) ∧
    body_stored (body_ref (er_job_id r)) content loc K ∧
    K (CXadd (er_stream_key r) (job_fields (er_job_id r) tenant policy model priority
         (default "POST" (optional_header headers "x-original-method"))
         (default (uri_path uri) (optional_header headers "x-original-path")) hjson loc callback_url (aj_created_at_ms job)),
       RText (er_stream_id r)).

Lemma body_stored_mono K K' r content loc : sub K K' → body_stored r content loc K → body_stored r content loc K'.
Proof. intros Hs [?|(n & ? & Hu)]; [by left|right; exists n; split; [done|by eapply uploaded_mono]]. Qed.
Lemma job_stored_mono K K' policy uri headers body job :
  sub K K' → job_stored K policy uri headers body job → job_stored K' policy uri headers body job.
Proof.
  intros Hs (c & t & j & loc & p & ? & ? & ? & ? & ? & Hb & Hx). exists c, t, j, loc, p.
  split_and!; try done; [by eapply body_stored_mono|by apply Hs].
Qed.
Lemma xadd_future_spec K s f : okwp I K (xadd_future cfg s f) (λ K' id, K' (CXadd s f, RText id)).
Proof.
  unfold xadd_future. eapply okwp_try; [apply okwp_redis; intros; by apply HI|]. intros K1 id Hs1 (r & Hr & Hc).
  apply convert_text in Hc as ->. eapply okwp_try; [apply wp_okwp, quietI; quiet|]. intros K2 u Hs2 _. apply okwp_ok.
  by apply Hs2.
Qed.
Lemma add_job_spec K sched r st s f out :
  store_outcome r "" st 0 out →
  okwp I K (add_job sched out.2 (xadd_future cfg s f)) (λ K' id,
    K' (CXadd s f, RText id) ∧ ∃ content, read_all st 0 content ∧ body_stored r content out.1 K').
Proof.
  destruct out as [loc [up|]]; unfold store_outcome; simpl.
  - intros [[size ->] Hu]. eapply okwp_bind.
    + apply (wp_join I sched K up (xadd_future cfg s f) (λ K' x, ∀ a, x = Ok a → ∃ text, read_all st 0 text ∧ uploaded K' r text)
        (λ K' x, ∀ id, x = Ok id → K' (CXadd s f, RText id))); [| |apply Hu|apply xadd_future_spec].
      * intros K1 K2 a Hs Ha b Hb. destruct (Ha b Hb) as (t & ? & ?). exists t. split; [done|by eapply uploaded_mono].
      * intros K1 K2 a Hs Ha b Hb. by apply Hs, Ha.
    + intros K1 [ru rx] Hs [Hup Hx]. simpl in *. destruct ru as [x|e]; [|apply okwp_err]. intros id Hid.
      split; [by apply Hx|]. destruct (Hup x eq_refl) as (text & ? & ?). exists text. split; [done|]. right. by exists size.
  - intros (text & Hr & ->). eapply okwp_impl; [apply xadd_future_spec|]. intros K1 id _ Hid. split; [done|].
    exists text. split; [done|]. left. done.
Qed.
Lemma enqueue_job_spec K sched policy uri headers body :
  okwp I K (enqueue_job cfg sched policy uri headers body) (λ K' job, job_stored K' policy uri headers body job).
Proof.
  unfold enqueue_job. eapply okwp_bind; [apply quietI; quiet|]. intros K1 t0 _ _.
  eapply okwp_try; [apply wp_okwp, quietI; unfold acquire_permit; quiet|]. intros K2 u _ _.
  eapply okwp_bind; [apply quietI; quiet|]. intros K3 job_id _ _.
  eapply okwp_try; [apply okwp_lift|]. intros K4 tenant _ Htenant.
  eapply okwp_try; [apply okwp_lift|]. intros K5 u' _ Hurl.
  eapply okwp_try; [apply okwp_lift|]. intros K6 hjson _ Hjson.
  eapply okwp_bind; [apply quietI; quiet|]. intros K7 created _ _.
  eapply okwp_try; [apply store_chunks_spec|]. intros K8 [loc up] _ Hout.
  destruct (stream_for_request _ _ _ _) as [s priority] eqn:Hs.
  eapply okwp_try; [apply (add_job_spec _ _ _ _ _ _ _ Hout)|]. intros K9 id _ (Hx & content & Hr & Hb).
  repeat (eapply okwp_bind; [apply quietI; quiet|]; intros ? ? ? _).
  apply okwp_ok. exists content, tenant, hjson, loc, priority. simpl. split_and!; try done.
  - by destruct u'.
  - eapply body_stored_mono; [|exact Hb]. unfold sub in *. eauto 8.
  - unfold sub in *. eauto 8.
Qed.
End uploads.

(** ** The tasks of the service *)

Section service.
Context `{HttpLib} `{!Base64} `{!AiLib} (cfg : Args).

(** One round of a loop, or one request. *)
Inductive Program :=
| Worker (sched : nat → list nat) (consumer : string)
| Reclaimer
| CallbackRetry
| Groups
| Enqueue (sched : list bool) (uri : Uri) (headers : HeaderMap) (body : list (result string string))
| EnqueueAndWait (sched : list bool) (uri : Uri) (headers : HeaderMap) (body : list (result string string))
| GetJob (job_id : string)
| CheckRateLimit (headers : HeaderMap) (uri : Uri)
| UpsertRule (rule : TenantRateLimitRule)
| RemoveRule (rule : TenantRateLimitRule)
| ListRules (filters : list (string * string))
| ResolveRule (query : TenantRateLimitResolveQuery).
Definition program_task (p : Program) : Task :=
  match p with
  | Worker sched consumer => MkTask _ (worker_once cfg sched consumer)
  | Reclaimer => MkTask _ (reclaim_once cfg)
  | CallbackRetry => MkTask _ (callback_retry_once cfg)
  | Groups => MkTask _ (ensure_consumer_groups cfg)
  | Enqueue sched uri headers body => MkTask _ (enqueue cfg sched uri headers body)
  | EnqueueAndWait sched uri headers body => MkTask _ (enqueue_and_wait cfg sched uri headers body)
  | GetJob job_id => MkTask _ (get_job cfg job_id)
  | CheckRateLimit headers uri => MkTask _ (check_rate_limit cfg headers uri)
  | UpsertRule rule => MkTask _ (upsert_tenant_rate_limit_rule cfg rule)
  | RemoveRule rule => MkTask _ (delete_tenant_rate_limit_rule cfg rule)
  | ListRules filters => MkTask _ (list_tenant_rate_limit_rules cfg filters)
  | ResolveRule query => MkTask _ (resolve_tenant_rate_limit_rule cfg query)
  end.

Lemma quiet_first_stored keys : issues not_ack (first_stored keys).
Proof. induction keys as [|k keys IH]; cbn [first_stored]; quiet. Qed.
Lemma quiet_ttl key : issues not_ack (read_ttl_remaining_secs key).
Proof. unfold read_ttl_remaining_secs. quiet. Qed.
#[local] Hint Resolve quiet_first_stored quiet_ttl : issues.
Lemma quiet_list_key filters key : issues not_ack (list_key cfg filters key).
Proof. unfold list_key. quiet. Qed.
#[local] Hint Resolve quiet_list_key : issues.
Lemma not_ack_settled K c r : not_ack c → ack_settled cfg K (c, r).
Proof. by destruct c. Qed.
Lemma enqueue_job_quiet {B} K sched policy uri headers body (k : AcceptedJob → Fut B) :
  (∀ a, issues not_ack (k a)) →
  wp (ack_settled cfg) K (try_bind (enqueue_job cfg sched policy uri headers body) k) (λ _ _, True).
Proof.
  intros Hk. eapply okwp_wp, okwp_try; [apply enqueue_job_spec; [apply not_ack_settled|apply _]|]. intros K1 a _ _.
  apply quiet_ok, Hk.
Qed.
Lemma program_settled p K : wp (ack_settled cfg) K (task_prog (program_task p)) (λ _ _, True).
Proof.
  destruct p; cbn [program_task task_prog].
  - eapply okwp_wp, worker_once_ok.
  - eapply okwp_wp, reclaim_once_ok.
  - eapply okwp_wp, callback_retry_once_ok.
  - apply quiet_wp. unfold ensure_consumer_groups, try_iter. quiet.
  - apply enqueue_job_quiet. intros a. quiet.
  - unfold enqueue_and_wait. cbv zeta. eapply wp_seq; [apply quiet_wp; quiet|]. intros K1 u _ _.
    apply enqueue_job_quiet. intros a. unfold load_response. quiet.
  - apply quiet_wp. unfold get_job. quiet.
  - apply quiet_wp. unfold check_rate_limit, resolve_rate_limit. quiet.
  - apply quiet_wp. unfold upsert_tenant_rate_limit_rule. quiet.
  - apply quiet_wp. unfold delete_tenant_rate_limit_rule. quiet.
  - apply quiet_wp. unfold list_tenant_rate_limit_rules. quiet.
  - apply quiet_wp. unfold resolve_tenant_rate_limit_rule. quiet.
Qed.
End service.
