(* ===== verification/AiJobsSafe.v ===== *)
(** * AI gateway service: what the queue guarantees

    The properties of the job queue for every schedule and every reply: entries are
    acknowledged only when their jobs are done, accepted jobs are stored with their whole
    bodies, a job is called at most as often as is configured, and a worker sends what the
    client sent. The examples at the end show where a guarantee ends. *)

From S2P Require Export AiJobsRun AiRules RefHttp.
Local Open Scope string_scope.
Local Open Scope list_scope.
Local Open Scope Z_scope.

(** ** Entries *)

(** C2: at-least-once processing: in any interleaving of the service's tasks, with any replies
    of Redis and of HTTP servers, whenever a task acknowledges an entry of a stream, that task
    had been handed the entry, and either the entry is a job whose upstream answer Redis has
    stored and whose callback has been delivered or queued, or a job that was delivered too
    often and lies with all its fields in the dead letter stream, or the entry is a callback
    that was delivered, queued again with the same body, or put into its dead letter stream. *)
Theorem acknowledged_is_settled `{HttpLib} `{!Base64} `{!AiLib} (cfg : Args) (programs : nat → Program)
    (tr tr1 tr2 : list (nat * Event)) (t : nat) (stream group entry_id : string) (r : Reply) :
  system (λ t, program_task cfg (programs t)) tr →
  tr = tr1 ++ (t, (CXack stream group entry_id, r)) :: tr2 →
  settled cfg (λ e, e ∈ of_task t tr1) stream group entry_id.
Proof.
  intros Hsys Htr. apply (wp_system (ack_settled cfg) (λ t, program_task cfg (programs t)) tr
    (λ t, program_settled cfg (programs t) _) Hsys tr1 t (CXack stream group entry_id, r) tr2 Htr).
Qed.

(** C16: a job is accepted only if it is stored: whenever [enqueue_job] succeeds, with whatever
    replies, the entry with the request's headers, path, tenant and policy is in the stream of
    its priority under the id of the answer, and the whole body, which is within the limit, is
    in the entry or in the object store as the parts of a completed upload, in order. *)
Theorem accepted_job_is_stored `{HttpLib} `{!Base64} `{!AiLib} (cfg : Args) (sched : list bool) (policy : QueuePolicy)
    (uri : Uri) (headers : HeaderMap) (body : list (result string string)) (tr : list Event) (job : AcceptedJob) :
  runs (enqueue_job cfg sched policy uri headers body) tr (Some (Ok job)) →
  job_stored cfg (λ e, e ∈ tr) policy uri headers body job.
Proof.
  intros Hr. pose (I := λ (_ : known) (_ : Event), True).
  assert (Mono I) by (by intros ???). assert (HI : ∀ K c r, not_ack c → I K (c, r)) by done.
  assert (Hp := enqueue_job_spec cfg I HI (λ _, False) sched policy uri headers body).
  eapply wp_result in Hp; [|intros K K' a Hs Ha b Hb; by eapply job_stored_mono, Ha|exact Hr].
  eapply job_stored_mono; [|by apply Hp]. by intros e [[]|?].
Qed.

(** ** Deliveries *)

Section deliveries.
Context `{HttpLib} `{!Base64} `{!AiLib} (cfg : Args).

Definition no_http (c : Cmd) : Prop := match c with CHttp _ _ _ _ => False | _ => True end.
(** Every HTTP request of a task belongs to a counted delivery within the bound. *)
Definition http_counted (job_id : string) (K : known) (e : Event) : Prop :=
  match e.1 with
  | CHttp _ _ _ _ => ∃ attempt, counted cfg K job_id attempt ∧ attempt ≤ job_max_delivery_attempts cfg
  | _ => True
  end.
#[export] Instance http_counted_mono job_id : Mono (http_counted job_id).
Proof.
  intros K K' [c r] Hs. unfold http_counted. destruct c; simpl; try done. intros (n & Hn & ?). exists n.
  split; [by eapply counted_mono|done].
Qed.
Lemma http_counted_quiet {A} job_id K (p : Prog A) : issues no_http p → wp (http_counted job_id) K p (λ _ _, True).
Proof. apply issues_wp. intros K' c r Hc. by destruct c. Qed.
Lemma http_counted_any {A} job_id K (p : Prog A) n :
  counted cfg K job_id n → n ≤ job_max_delivery_attempts cfg → wp (http_counted job_id) K p (λ _ _, True).
Proof.
  revert K. induction p as [a|c k IH]; intros K Hc Hn; [done|]. intros r. split.
  - unfold http_counted. destruct c; try done. by exists n.
  - apply IH; [|done]. eapply counted_mono; [|exact Hc]. apply sub_add.
Qed.
Ltac no_request := apply http_counted_quiet;
  unfold enqueue_job_dlq, ack_stream_entry, release_job_lease, trim_stream, xadd, redis_del; quiet.
Lemma process_entry_counted K s i f j :
  field_string f "job_id" = Some j → wp (http_counted j) K (process_stream_entry cfg s i f) (λ _ _, True).
Proof.
  intros Hj. eapply okwp_wp. unfold process_stream_entry.
  eapply okwp_try; [apply okwp_lift|]. intros K0 j' Hs0 Hj'%ok_or_Ok. rewrite Hj in Hj'. injection Hj' as <-.
  eapply okwp_bind; [no_request|]. intros K1 now Hs1 _.
  eapply okwp_try; [by apply lease_ok|]. intros K2 [] Hs2 Hl; cbn [negb]; [|apply wp_okwp; no_request].
  destruct (Hl eq_refl) as [token Ht]. eapply okwp_try; [by apply increment_ok|].
  intros K3 attempt Hs3 (n & Hn & Ha). destruct (Z.ltb_spec (job_max_delivery_attempts cfg) attempt) as [Hmax|Hmax].
  - apply wp_okwp. no_request.
  - apply wp_okwp. eapply http_counted_any; [|exact Hmax]. split; [|by exists n].
    eexists _, token. by apply Hs3.
Qed.

(** The replies of Redis to the increments of a counter, in their order. *)
Definition incr_reply (key : string) (e : nat * Event) : option Z :=
  match e.2 with (CIncrBy k _, RInt n) => if decide (k = key) then Some n else None | _ => None end.
Lemma incr_reply_eq key t n m : incr_reply key (t, (CIncrBy key m, RInt n)) = Some n.
Proof. unfold incr_reply. cbn [snd]. by rewrite decide_True. Qed.
Lemma omap_NoDup_inj {A} (g : A → option Z) l a b n :
  NoDup (omap g l) → a ∈ l → b ∈ l → g a = Some n → g b = Some n → a = b.
Proof.
  induction l as [|x l IH]; [by intros ? ?%elem_of_nil|]. simpl. intros Hnd Ha Hb Hga Hgb.
  assert (∀ y, y ∈ l → g y = Some n → n ∈ omap g l) as Hin by (intros y Hy Hgy; apply list_elem_of_omap; by exists y).
  apply elem_of_cons in Ha as [->|Ha], Hb as [->|Hb]; [done| | |].
  - rewrite Hga in Hnd. apply NoDup_cons in Hnd as [Hn _]. destruct Hn. by eapply Hin.
  - rewrite Hgb in Hnd. apply NoDup_cons in Hnd as [Hn _]. destruct Hn. by eapply Hin.
  - apply IH; [|done..]. destruct (g x); [by apply NoDup_cons in Hnd as [_ ?]|done].
Qed.
(** A relation that gives distinct tasks distinct numbers. *)
Lemma distinct_numbers (P : nat → Z → Prop) ts :
  (∀ t t' n, P t n → P t' n → t = t') → NoDup ts → Forall (λ t, ∃ n, P t n) ts →
  ∃ ns, length ns = length ts ∧ NoDup ns ∧ ∀ n, n ∈ ns → ∃ t, t ∈ ts ∧ P t n.
Proof.
  intros Hinj Hnd Hall. induction Hall as [|t ts [n Hn] _ IH].
  - exists []. split_and!; [done|constructor|]. by intros n ?%elem_of_nil.
  - apply NoDup_cons in Hnd as [Ht Hnd]. destruct (IH Hnd) as (ns & Hl & Hns & Hin). exists (n :: ns).
    split_and!; [simpl; lia| |].
    + apply NoDup_cons. split; [|done]. intros (t' & Ht' & Hp)%Hin. by rewrite (Hinj t t' n) in Ht.
    + intros m [->|Hm]%elem_of_cons; [exists t; split; [by left|done]|]. destruct (Hin m Hm) as (t' & ? & ?).
      exists t'. split; [by right|done].
Qed.
Lemma NoDup_range_length (l : list Z) m : NoDup l → Forall (λ n, 1 ≤ n ≤ m) l → Z.of_nat (length l) ≤ Z.max 0 m.
Proof.
  intros Hnd Hl. assert (l ⊆+ seqZ 1 m) as Hsub.
  { apply NoDup_submseteq; [done|]. intros n Hn. rewrite Forall_forall in Hl. apply Hl in Hn. apply elem_of_seqZ. lia. }
  apply submseteq_length in Hsub. rewrite length_seqZ in Hsub. lia.
Qed.
End deliveries.

(** C17: the upstream of a job is called at most as often as the job may be delivered: while
    the delivery counter of the job answers distinct positive numbers, that is until it is
    cleared or expires, at most [job_max_delivery_attempts] of the tasks that process its
    entries issue any HTTP request for it, however they are interleaved and whatever fails. *)
Theorem deliveries_bounded `{HttpLib} `{!Base64} `{!AiLib} (cfg : Args) (entries : nat → string * string * Fields)
    (tr : list (nat * Event)) (job_id : string) (ts : list nat) :
  system (λ t, MkTask _ (process_stream_entry cfg (entries t).1.1 (entries t).1.2 (entries t).2)) tr →
  NoDup (omap (incr_reply (job_attempt_key job_id)) tr) →
  Forall (λ n, 1 ≤ n < 2 ^ 32) (omap (incr_reply (job_attempt_key job_id)) tr) →
  NoDup ts →
  Forall (λ t, field_string (entries t).2 "job_id" = Some job_id ∧
               ∃ method url headers body r, (CHttp method url headers body, r) ∈ of_task t tr) ts →
  Z.of_nat (length ts) ≤ Z.max 0 (job_max_delivery_attempts cfg).
Proof.
  intros Hsys Hnd Hrange Hts Hall.
  assert (Forall (λ t, ∃ n, (t, (CIncrBy (job_attempt_key job_id) 1, RInt n)) ∈ tr ∧ 1 ≤ n ≤ job_max_delivery_attempts cfg) ts) as Hn.
  { eapply Forall_impl; [exact Hall|]. intros t (Hj & m & u & h & b & r & Hin). 
    destruct (Hsys t) as [o Hr]. apply list_elem_of_split in Hin as (l1 & l2 & Hl). pose proof Hl as Hsplit.
    eapply (wp_runs (http_counted cfg job_id) (λ _, False)) in Hl as (attempt & [_ (n & Hc & ->)] & Hmax);
      [|by apply process_entry_counted|exact Hr].
    exists n. assert ((t, (CIncrBy (job_attempt_key job_id) 1, RInt n)) ∈ tr) as Hin.
    { apply of_task_sub. rewrite Hsplit. destruct Hc as [[]|Hc]. apply elem_of_app. by left. }
    split; [done|]. assert (1 ≤ n < 2 ^ 32) as Hb.
    { rewrite Forall_forall in Hrange. apply Hrange, list_elem_of_omap. eexists. split; [exact Hin|apply incr_reply_eq]. }
    unfold uwrap in Hmax. rewrite Z.max_l, Z.mod_small in Hmax; lia. }
  apply distinct_numbers in Hn as (ns & <- & Hns & Hin); [|intros t t' n [Ht _] [Ht' _]|done].
  - apply NoDup_range_length; [done|]. apply Forall_forall. intros n (t & _ & _ & ?)%Hin. done.
  - assert ((t, (CIncrBy (job_attempt_key job_id) 1, RInt n)) = (t', (CIncrBy (job_attempt_key job_id) 1, RInt n))) as Heq.
    { eapply (omap_NoDup_inj (incr_reply (job_attempt_key job_id)) tr _ _ n);
        [exact Hnd|exact Ht|exact Ht'|apply incr_reply_eq|apply incr_reply_eq]. }
    by injection Heq.
Qed.

(** ** From the client to the upstream and back *)

(** Redis returns a text as a text or as its bytes, and a number as a number or as its text. *)
Inductive same_value `{Base64} : Value → Value → Prop :=
| same_refl v : same_value v v
| same_bytes s : from_utf8 s = Some s → same_value (VString s) (VBytes s)
| same_int n : same_value (VInteger n) (VString (z_string n)).
Definition read_back `{Base64} (fields : list (string * Value)) (entry : Fields) : Prop :=
  Forall (λ kv, ∃ v, entry !! kv.1 = Some v ∧ same_value kv.2 v) fields.
(** [serde_json] reads a map of strings back, in some order. *)
Class AiStringLaws (L : AiLib) : Prop :=
  strings_roundtrip l json : ser_strings l = Ok json → ∃ l', de_strings json = Some l' ∧ l' ≡ₚ l.
(** [serde_json] reads a result back. *)
Class AiResultLaws (L : AiLib) : Prop :=
  result_roundtrip r json : ser_result r = Ok json → de_result json = Ok r.

Ltac in_list := first [left; reflexivity | right; in_list].
Lemma read_back_string `{Base64} fields entry k s :
  read_back fields entry → (k, VString s) ∈ fields → field_string entry k = Some s.
Proof.
  intros Hr Hin. unfold read_back in Hr. rewrite Forall_forall in Hr. destruct (Hr _ Hin) as (v & Hv & Hs).
  unfold field_string. simpl in Hv. rewrite Hv. by inversion Hs; subst.
Qed.


(** ** Callbacks *)

(** Callbacks back off: the delay before attempt [n] is the initial delay doubled with each
    attempt, at most 16 times, up to the maximum, without overflow in between. *)
Theorem callback_delay_backs_off (initial_ms max_ms attempt : Z) :
  0 ≤ initial_ms → 0 ≤ max_ms ≤ u64_max → 1 ≤ attempt →
  callback_retry_delay_ms initial_ms max_ms attempt = Z.min (initial_ms * 2 ^ Z.min (attempt - 1) 16) max_ms ∧
  ∀ later, attempt ≤ later → callback_retry_delay_ms initial_ms max_ms attempt ≤ callback_retry_delay_ms initial_ms max_ms later.
Proof.
  intros Hi Hm Ha.
  assert (∀ n, 1 ≤ n → callback_retry_delay_ms initial_ms max_ms n = Z.min (initial_ms * 2 ^ Z.min (n - 1) 16) max_ms) as Heq.
  { intros n Hn. unfold callback_retry_delay_ms, sat_sub, sat_mul. rewrite (Z.max_r 0) by lia.
    rewrite Z.shiftl_1_l. lia. }
  split; [by apply Heq|]. intros later Hl. rewrite !Heq by lia.
  assert (2 ^ Z.min (attempt - 1) 16 ≤ 2 ^ Z.min (later - 1) 16) by (apply Z.pow_le_mono_r; lia). nia.
Qed.

Section retries.
Context `{HttpLib} `{!Base64} `{!AiLib} (cfg : Args) (fields : Fields).
(** An entry for the retry stream: as it was, or with the next attempt and its delay. *)
Definition retry_step (entry : list (string * Value)) : Prop :=
  let attempt := default 1 (field_u32 fields "attempt") in
  ∃ body attempt' next_ms error at_ms,
    entry = callback_retry_fields (default "" (field_string fields "callback_url")) (default "" (field_string fields "job_id"))
      body attempt' next_ms error at_ms ∧
    ((attempt' = attempt ∧ next_ms = default 0 (field_u64 fields "next_attempt_at_ms") ∧
      body = default "{}" (field_string fields "body")) ∨
     (attempt < callback_max_retry_attempts cfg ∧ attempt' = attempt + 1 ∧
      ∃ now, next_ms = sat_add now (callback_retry_delay_ms (callback_retry_initial_delay_ms cfg) (callback_retry_max_delay_ms cfg) attempt'))).
Definition retries_step (c : Cmd) : Prop :=
  match c with CXadd s entry => s = callback_retry_stream cfg → retry_step entry | _ => True end.
Lemma enqueue_raw_step url j b a n e :
  (∀ at_ms, retry_step (callback_retry_fields url j b a n e at_ms)) →
  issues retries_step (enqueue_callback_retry_raw cfg url j b a n e).
Proof.
  intros Hstep. unfold enqueue_callback_retry_raw. apply issues_bind; [quiet|]. intros t.
  apply issues_try; [by apply issues_redis; intros _|]. intros u. unfold trim_stream. quiet.
Qed.
Lemma process_retry_step entry_id :
  callback_retry_stream cfg ≠ callback_dlq_stream cfg → callback_max_retry_attempts cfg < 2 ^ 32 →
  issues retries_step (process_callback_retry_entry cfg entry_id fields).
Proof.
  intros Hne Hmax. unfold process_callback_retry_entry, ack_callback_retry. apply issues_bind; [quiet|]. intros now.
  cbv zeta. destruct (now <? _).
  { apply issues_try; [|intros u; quiet]. apply enqueue_raw_step. intros t. eexists _, _, _, _, _. split; [done|]. by left. }
  apply issues_bind; [unfold post_callback, http_ok, http; quiet|]. intros [u|e]; [quiet|].
  destruct (_ <=? _) eqn:Ha.
  - apply issues_try; [|intros u; quiet]. unfold enqueue_callback_dlq, trim_stream. apply issues_try; [quiet|]. intros b.
    apply issues_bind; [quiet|]. intros t. apply issues_try; [|intros; quiet]. apply issues_redis. by intros Heq.
  - apply Z.leb_gt in Ha. apply issues_try; [|intros u; quiet]. apply enqueue_raw_step. intros t.
    eexists _, _, _, _, _. split; [done|]. right. rewrite Z.min_r by lia. split_and!; [done|done|]. by eexists.
Qed.
End retries.


(** ** Answers *)

Section answers.
Context `{HL : HttpLib} `{!HttpLaws HL} `{!Base64} `{!AiLib}.
Lemma return_headers_ne l h k :
  Forall (λ kv, header_name_try_from kv.1 = Some kv.1) l → k ∉ l.*1 → hm_get (return_headers l h) k = hm_get h k.
Proof.
  intros Hl. revert h. induction Hl as [|[k' v] l Hk _ IH]; intros h Hn; [done|]. cbn [fmap list_fmap fst] in Hn.
  apply not_elem_of_cons in Hn as [Hne Hn]. unfold return_headers in *. cbn [foldl]. rewrite IH by done.
  repeat case_match; try done. simplify_eq/=. by apply hm_get_insert_ne.
Qed.
Lemma return_headers_in l h k v :
  Forall (λ kv, header_name_try_from kv.1 = Some kv.1 ∧ hv_from_str kv.2 = Some kv.2) l → NoDup l.*1 → (k, v) ∈ l →
  should_return_upstream_header k = true → hm_get (return_headers l h) k = Some v.
Proof.
  intros Hl Hnd Hin Hk. revert h. induction Hl as [|[k' v'] l [Hk' Hv'] Hl IH]; intros h; [by apply elem_of_nil in Hin|].
  cbn [fmap list_fmap fst] in Hnd. apply NoDup_cons in Hnd as [Hnew Hnd].
  apply elem_of_cons in Hin as [[= <- <-]|Hin]; [|by apply IH].
  change (hm_get (return_headers l (if should_return_upstream_header k then
    match header_name_try_from k, hv_from_str v with Some name, Some value => hm_insert name value h | _, _ => h end else h)) k = Some v).
  simpl in Hk', Hv'. rewrite Hk, Hk', Hv'. rewrite return_headers_ne; [by apply hm_get_insert_eq| |done].
  eapply Forall_impl; [exact Hl|]. by intros x [??].
Qed.
End answers.

(** a poll gives the upstream's answer: when Redis returns the result of an answered job,
    [get_job] answers with the upstream's status, its body byte for byte, the job's id, and
    every readable header of the upstream that [should_return_upstream_header] keeps. *)
Theorem poll_returns_the_answer `{HL : HttpLib} `{!HttpLaws HL} `{B : Base64} `{!Base64Laws B} `{L : AiLib} `{!AiResultLaws L}
    {W} (respond : Cmd → W → Reply * W) (cfg : Args) (job_id json body : string) (status now : Z)
    (headers : list (string * string)) (w w' : W) :
  let result := upstream_result job_id (RHttp status headers body) now in
  ser_result result = Ok json → respond (CGet (result_key cfg job_id)) w = (RText json, w') →
  100 ≤ status ≤ 999 → hv_from_str job_id = Some job_id →
  Forall (λ kv, header_name_try_from kv.1 = Some kv.1 ∧ hv_from_str kv.2 = Some kv.2) (sr_headers result) →
  ∃ answer, exec respond (get_job cfg job_id) w = (Ok (MkApiResponse status answer body), w') ∧
    hm_get answer "x-job-id" = Some job_id ∧
    ∀ k v, (k, v) ∈ sr_headers result → should_return_upstream_header k = true → k ≠ "x-job-id" → hm_get answer k = Some v.
Proof.
  intros result Hser Hget Hst Hid Hheaders.
  assert (NoDup (sr_headers result).*1) as Hnd by apply NoDup_fst_map_to_list.
  eexists. split; [|split; [apply hm_get_insert_eq|]].
  - subst result. unfold get_job, load_result, redis_get, redis, try_bind. cbn [bind exec]. rewrite Hget. simpl convert.
    cbn [bind ok_or lift]. rewrite (result_roundtrip _ _ Hser). cbn [result_map map_err bind].
    rewrite bool_decide_true by done. unfold poll_result_to_response, stored_response, lift. cbn [exec].
    cbn [upstream_result sr_body_base64]. rewrite b64_decode_encode. cbn [ok_or result_bind].
    unfold header_value. cbn [sr_job_id]. rewrite Hid. cbn [ok_or result_bind sr_http_status sr_headers].
    unfold status_from_u16. rewrite (proj2 (Z.leb_le 100 status)), (proj2 (Z.leb_le status 999)) by lia. done.
  - intros k v Hin Hk Hne. rewrite hm_get_insert_ne by congruence. by apply return_headers_in.
Qed.

(** ** Examples: the settings of a file that names only the upstream *)

#[export] Instance ref_ai_strings : AiStringLaws ref_ai.
Proof. intros l json Hs. exists l. split; [|done]. simpl. unfold ref_de_strings. f_equal. by apply ref_strings_roundtrip. Qed.
#[export] Instance ref_ai_results : AiResultLaws ref_ai.
Proof. intros r json. apply ref_result_roundtrip. Qed.

Definition ex_file : ServiceConfigFile := MkServiceConfigFile
  (MkServerSection None None) (MkRedisSection None) (MkUpstreamSection (Some "http://up/"))
  (MkQueueSection None None None None None None None None None None None None None None None None)
  (MkRateLimitSection None None None None) (MkWorkerSection None None None None None None)
  (MkCallbackSection None None None None None None None None) (MkResultSection None None None)
  (MkBodySection None None None) (MkObjectStoreSection None None None None None) (MkAdminSection None).
Definition ex_cfg : Args := into_args ex_file.

(** The trace of a program that is given these replies, and its result if it ends. *)
Fixpoint trace {A} (replies : list Reply) (p : Prog A) : list Event * option A :=
  match p, replies with
  | Ret a, _ => ([], Some a)
  | Do c k, r :: replies => let '(tr, o) := trace replies (k r) in ((c, r) :: tr, o)
  | Do _ _, [] => ([], None)
  end.
Lemma trace_runs {A} replies (p : Prog A) : runs p (trace replies p).1 (trace replies p).2.
Proof.
  revert replies. induction p as [a|c k IH]; intros [|r replies]; simpl; try constructor.
  destruct (trace replies (k r)) as [tr o] eqn:Ht. constructor. specialize (IH r replies). by rewrite Ht in IH.
Qed.
(** Two tasks, one behind the other. *)
Definition two_traces (a b : list Event) : list (nat * Event) := (pair 0%nat <$> a) ++ (pair 1%nat <$> b).
Lemma two_traces_system (tasks : nat → Task) a b oa ob :
  runs (task_prog (tasks 0%nat)) a oa → runs (task_prog (tasks 1%nat)) b ob → system tasks (two_traces a b).
Proof.
  intros Ha Hb t.
  assert (∀ n (l : list Event), of_task t (pair n <$> l) = if decide (n = t) then l else []) as Hof.
  { intros n l. unfold of_task. induction l as [|e l IH]; [by case_decide|]. cbn [fmap list_fmap]. rewrite filter_cons. cbn [fst].
    case_decide; [|done]. cbn [fmap list_fmap snd]. f_equal. exact IH. }
  assert (of_task t (two_traces a b) = of_task t (pair 0%nat <$> a) ++ of_task t (pair 1%nat <$> b)) as ->
    by (unfold of_task, two_traces; by rewrite filter_app, fmap_app).
  rewrite !Hof. destruct t as [|[|t]]; simpl; rewrite ?app_nil_r; [by exists oa|by exists ob|exists None; constructor].
Qed.

Definition ex_callback : Fields := list_to_map [("job_id", VString "j"); ("callback_url", VString "http://c"); ("body", VString "{}")].
Definition ex_replies : list Reply := [REntries []; REntries [("1-0", ex_callback)]; RInt 5; RHttp 200 [] ""; RInt 1].
Lemma acknowledged_is_settled_witness :
  let tr1 := (pair 0%nat <$> (trace (take 4 ex_replies) (callback_retry_once ex_cfg)).1) in
  settled ex_cfg (λ e, e ∈ of_task 0 tr1) "ai:callback-retry" "ai-gateway-callbacks" "1-0".
Proof.
  apply (acknowledged_is_settled ex_cfg (λ _, CallbackRetry)
    (two_traces (trace ex_replies (callback_retry_once ex_cfg)).1 (trace [] (callback_retry_once ex_cfg)).1) _ [] 0
    "ai:callback-retry" "ai-gateway-callbacks" "1-0" (RInt 1)).
  - eapply (two_traces_system (λ t, program_task ex_cfg CallbackRetry)); apply trace_runs.
  - vm_compute. reflexivity.
Defined.

Definition ex_headers : HeaderMap := [("x-tenant-id", "acme"); ("host", "h"); ("accept", "*/*")].
Definition ex_uri : Uri := MkUri None None (Some (MkPq "/v1/chat" None)).
Definition ex_enqueue : Fut AcceptedJob := enqueue_job ex_cfg [] Wait ex_uri ex_headers [Ok "hel"; Ok "lo"].
Definition ex_accepted : AcceptedJob :=
  MkAcceptedJob (MkEnqueueResponse "01J" "1-0" "ai:jobs" "queued" "/jobs/01J/status" "/v1/jobs/01J") 6.
Definition ex_enqueue_replies : list Reply :=
  [RInt 5; RDone; RText "01J"; RInt 6; RText "1-0"; RInt 0; RDone; RInt 7; RDone; RDone; RDone; RDone].
Lemma accepted_job_is_stored_witness :
  job_stored ex_cfg (λ e, e ∈ (trace ex_enqueue_replies ex_enqueue).1) Wait ex_uri ex_headers [Ok "hel"; Ok "lo"] ex_accepted.
Proof.
  apply (accepted_job_is_stored ex_cfg [] Wait ex_uri ex_headers [Ok "hel"; Ok "lo"] _ ex_accepted).
  assert ((trace ex_enqueue_replies ex_enqueue).2 = Some (Ok ex_accepted)) as <- by (vm_compute; reflexivity).
  apply trace_runs.
Defined.

Definition ex_entry : Fields := list_to_map [("job_id", VString "j"); ("path", VString "/p")].
Definition ex_delivery (n : Z) : list Event :=
  (trace [RInt 1; RText "OK"; RInt n; RInt 1; RInt 2; RErr "refused"] (process_stream_entry ex_cfg "ai:jobs" "1-0" ex_entry)).1.
(** Two deliveries of a job whose upstream is down. *)
Definition ex_deliveries : list (nat * Event) := two_traces (ex_delivery 1) (ex_delivery 2).
Lemma ex_delivery_http n : n = 1 ∨ n = 2 → ∃ m u h b r, (CHttp m u h b, r) ∈ ex_delivery n.
Proof. intros [-> | ->]; eexists _, _, _, _, _; vm_compute; do 5 right; left. Qed.
Lemma deliveries_bounded_witness : Z.of_nat (length [0%nat; 1%nat]) ≤ Z.max 0 (job_max_delivery_attempts ex_cfg).
Proof.
  assert (omap (incr_reply (job_attempt_key "j")) ex_deliveries = [1; 2]) as Hr by (vm_compute; reflexivity).
  apply (deliveries_bounded ex_cfg (λ _, ("ai:jobs", "1-0", ex_entry)) ex_deliveries "j" [0%nat; 1%nat]).
  - eapply (two_traces_system (λ t, MkTask _ (process_stream_entry ex_cfg "ai:jobs" "1-0" ex_entry))); apply trace_runs.
  - rewrite Hr. apply (bool_decide_unpack _). exact I.
  - rewrite Hr. repeat constructor; lia.
  - apply (bool_decide_unpack _). exact I.
  - repeat constructor.
    + destruct (ex_delivery_http 1 (or_introl eq_refl)) as (m & u & h & b & r & Hin). by exists m, u, h, b, r.
    + destruct (ex_delivery_http 2 (or_intror eq_refl)) as (m & u & h & b & r & Hin). by exists m, u, h, b, r.
Defined.

Definition ex_hjson : string := "accept;*/*;x-tenant-id;acme;host;h;.".
Definition ex_job_fields : list (string * Value) :=
  job_fields "01J" "acme" Wait "default" Normal "POST" "/v1/chat" ex_hjson (MkBodyLocation (b64_encode "hello") "" (str_len "hello") "inline") "" 6.
Lemma ex_read_back (fields : list (string * Value)) : NoDup fields.*1 → read_back fields (list_to_map fields).
Proof.
  intros Hnd. apply Forall_forall. intros [k v] Hin. exists v. split; [by apply elem_of_list_to_map_1|constructor].
Qed.

Lemma callback_delay_backs_off_witness :
  callback_retry_delay_ms 1000 60000 4 = Z.min (1000 * 2 ^ Z.min (4 - 1) 16) 60000 ∧
  callback_retry_delay_ms 1000 60000 4 = 8000.
Proof.
  split; [|vm_compute; reflexivity].
  apply (callback_delay_backs_off 1000 60000 4); [lia| |lia]. split; [lia|]. by vm_compute.
Defined.

Definition ex_retry_entry : list (string * Value) :=
  callback_retry_fields "http://c" "j" "" 2 (5 + 2000) "http: refused" 6.

Definition ex_upstream : list (string * string) := [("content-type", "text/plain"); ("connection", "close")].
Lemma poll_returns_the_answer_witness :
  ∃ answer, exec (λ _ w, (RText "j;completed;200;5;=hello;;;;connection;close;content-type;text/plain;.", w)) (get_job ex_cfg "j") ()
      = (Ok (MkApiResponse 200 answer "hello"), ()) ∧ hm_get answer "x-job-id" = Some "j" ∧
    ∀ k v, (k, v) ∈ sr_headers (upstream_result "j" (RHttp 200 ex_upstream "hello") 5) →
      should_return_upstream_header k = true → k ≠ "x-job-id" → hm_get answer k = Some v.
Proof.
  apply (poll_returns_the_answer (λ (_ : Cmd) (w : unit), (RText "j;completed;200;5;=hello;;;;connection;close;content-type;text/plain;.", w))
    ex_cfg "j" "j;completed;200;5;=hello;;;;connection;close;content-type;text/plain;." "hello" 200 5 ex_upstream () ()).
  - vm_compute. reflexivity.
  - reflexivity.
  - lia.
  - reflexivity.
  - apply Forall_forall. by intros [k v] _.
Defined.

(** ** Where a guarantee ends *)

(** Every waiter of a channel is notified by its next message, and by that one alone. *)
Lemma dispatch_notifies channel waiter hub :
  let '(notified, hub') := dispatch_message channel (register_waiter channel waiter hub) in
  notified = default [] (waiters hub !! channel) ++ [waiter] ∧ (dispatch_message channel hub').1 = [].
Proof. unfold dispatch_message, register_waiter. cbn [waiters]. rewrite lookup_insert_eq. cbn [waiters]. by rewrite lookup_delete_eq. Qed.

(** The environment of a lost notification: a worker stores and publishes the result right
    behind the handler's first look, before the handler subscribes; nobody publishes again. *)
Definition ex_result : string := "01J;completed;200;6;=hello;;;;.".
Definition lost_notification (c : Cmd) (w : gmap string string) : Reply * gmap string string :=
  match c with
  | CGet k => (match w !! k with Some v => RText v | None => RNil end, <[k := ex_result]> w)
  | CNow => (RInt 6, w)
  | CUlid => (RText "01J", w)
  | CXadd _ _ => (RText "1-0", w)
  | CNotified _ _ => (RNil, w)
  | _ => (RDone, w)
  end.
(** The handler waits for its whole timeout and answers 504 although the result is there. *)
Example lost_wakeup :
  let '(answer, w) := exec lost_notification (enqueue_and_wait ex_cfg [] ex_uri ex_headers [Ok "hello"]) ∅ in
  (match answer with Ok answer => ar_status answer | Err e => se_status e end, w !! "result:01J") = (504, Some ex_result).
Proof. vm_compute. reflexivity. Qed.

Definition ex_offload_cfg : Args := into_args (MkServiceConfigFile
  (cf_server ex_file) (cf_redis ex_file) (cf_upstream ex_file) (cf_queue ex_file) (cf_rate_limit ex_file) (cf_worker ex_file)
  (cf_callback ex_file) (cf_result ex_file) (MkBodySection None (Some 4) None)
  (MkObjectStoreSection (Some "http://s3") None None None None) (cf_admin ex_file)).
Definition ex_upload_id : string := "<UploadId>u</UploadId>".
(** The recorded size of an offloaded body is the size of what was read before the upload began. *)
Example offloaded_size :
  match (trace [RHttp 200 [] ex_upload_id] (store_body ex_offload_cfg "j" [Ok "abc"; Ok "def"; Ok "ghi"])).2 with
  | Some (Ok (loc, _)) => Some (bl_storage loc, bl_size loc)
  | _ => None
  end = Some ("object", 6).
Proof. vm_compute. reflexivity. Qed.
(** A failed upload is an error for the client, but the entry is in the stream. *)
Definition failing_store (c : Cmd) (w : list string) : Reply * list string :=
  match c with
  | CHttp "POST" _ _ _ => (RHttp 200 [] ex_upload_id, w)
  | CHttp _ _ _ _ => (RErr "refused", w)
  | CUlid => (RText "01J", w)
  | CNow | CXtrim _ _ => (RInt 6, w)
  | CXadd stream _ => (RText "1-0", stream :: w)
  | _ => (RDone, w)
  end.
Example failed_upload_is_queued :
  let '(answer, w) := exec failing_store (enqueue ex_offload_cfg [] ex_uri
    [("x-tenant-id", "acme"); ("x-callback-url", "https://c")] [Ok "abc"; Ok "def"]) [] in
  (match answer with Ok answer => ar_status answer | Err e => se_status e end, w) = (500, ["ai:jobs"]).
Proof. vm_compute. reflexivity. Qed.
(** A job that was delivered too often has no result: a poll says that it is not found. *)
Example buried_job_not_found :
  match exec (λ c (w : unit), (RNil, w)) (get_job ex_cfg "j") () with
  | (Ok answer, _) => ar_status answer
  | (Err e, _) => se_status e
  end = 404.
Proof. reflexivity. Qed.
