(* ===== verification/WasmAbi.v ===== *)
(** * WebAssembly host: the binary interface

    [crates/plugin-wasm/src/abi.rs] and [error.rs]: the enumerations of the proxy-wasm
    interface, reads and writes of the guest's linear memory, and the layout of lists of pairs
    and of property paths.

    The memory is the string of its bytes. A slice that is out of range is a panic of the host,
    [None]; [decode_pairs_total] shows that no bytes of a guest cause one. *)

From S2P Require Export Utf8.
Local Open Scope string_scope.
Local Open Scope list_scope.
Local Open Scope Z_scope.

(** ** Errors *)

(** An error of wasmtime is its text. *)
Inductive WasmHostError :=
| Fetch (e : string)
| Wasmtime (e : string)
| Instantiate (e : string)
| AbiViolation (e : string)
| MemoryOob (ptr len : Z)
| GuestTrap (hook source : string)
| Dispatch (e : string)
| BodyTooLarge (actual limit : Z)
| ResourceLimit (e : string)
| ConfigError (e : string).

Definition requires_vm_rebuild (e : WasmHostError) : bool :=
  match e with GuestTrap _ _ | Wasmtime _ | Dispatch _ | ResourceLimit _ => true | _ => false end.

Definition host_error_string (e : WasmHostError) : string :=
  match e with
  | Fetch e => "fetch wasm: " +:+ e
  | Wasmtime e => "wasmtime: " +:+ e
  | Instantiate e => "instantiation failed: " +:+ e
  | AbiViolation e => "guest abi violation: " +:+ e
  | MemoryOob ptr len => "memory oob: ptr=" +:+ z_string ptr +:+ " len=" +:+ z_string len
  | GuestTrap hook source => "wasm guest trap during " +:+ hook +:+ ": " +:+ source
  | Dispatch e => "dispatch_http_call: " +:+ e
  | BodyTooLarge actual limit =>
      "body too large: " +:+ z_string actual +:+ " bytes exceeds limit " +:+ z_string limit +:+ " bytes"
  | ResourceLimit e => "resource limit: " +:+ e
  | ConfigError e => "config: " +:+ e
  end.

(** ** Enumerations *)

Inductive Status := SOk | NotFound | BadArgument | SerializationFailure | ParseFailure
  | InvalidMemoryAccess | SEmpty | CasMismatch | InternalFailure | Unimplemented.
#[export] Instance Status_eq_dec : EqDecision Status.
Proof. solve_decision. Defined.
Definition status_i32 (s : Status) : Z :=
  match s with
  | SOk => 0 | NotFound => 1 | BadArgument => 2 | SerializationFailure => 3 | ParseFailure => 4
  | InvalidMemoryAccess => 6 | SEmpty => 7 | CasMismatch => 8 | InternalFailure => 10 | Unimplemented => 12
  end.

Inductive Action := Continue | Pause.
#[export] Instance Action_eq_dec : EqDecision Action.
Proof. solve_decision. Defined.
Definition action_from_u32 (v : Z) : Action := if v =? 1 then Pause else Continue.

Inductive MapType := HttpRequestHeaders | HttpRequestTrailers | HttpResponseHeaders | HttpResponseTrailers
  | GrpcCallInitialMetadata | GrpcCallTrailingMetadata | HttpCallResponseHeaders | HttpCallResponseTrailers.
Definition map_type_from_i32 (v : Z) : option MapType :=
  if v =? 0 then Some HttpRequestHeaders else if v =? 1 then Some HttpRequestTrailers
  else if v =? 2 then Some HttpResponseHeaders else if v =? 3 then Some HttpResponseTrailers
  else if v =? 4 then Some GrpcCallInitialMetadata else if v =? 5 then Some GrpcCallTrailingMetadata
  else if v =? 6 then Some HttpCallResponseHeaders else if v =? 7 then Some HttpCallResponseTrailers
  else None.

Inductive BufferType := HttpRequestBody | HttpResponseBody | DownstreamData | UpstreamData
  | HttpCallResponseBody | GrpcCallMessage | VmConfiguration | PluginConfiguration | ForeignFunctionArguments.
Definition buffer_type_from_i32 (v : Z) : option BufferType :=
  if v =? 0 then Some HttpRequestBody else if v =? 1 then Some HttpResponseBody
  else if v =? 2 then Some DownstreamData else if v =? 3 then Some UpstreamData
  else if v =? 4 then Some HttpCallResponseBody else if v =? 5 then Some GrpcCallMessage
  else if v =? 6 then Some VmConfiguration else if v =? 7 then Some PluginConfiguration
  else if v =? 8 then Some ForeignFunctionArguments else None.

Inductive StreamType := HttpRequestStream | HttpResponseStream | DownstreamStream | UpstreamStream.
Definition stream_type_from_i32 (v : Z) : option StreamType :=
  if v =? 0 then Some HttpRequestStream else if v =? 1 then Some HttpResponseStream
  else if v =? 2 then Some DownstreamStream else if v =? 3 then Some UpstreamStream else None.

Inductive MetricType := Counter | Gauge | Histogram.
#[export] Instance MetricType_eq_dec : EqDecision MetricType.
Proof. solve_decision. Defined.
Definition metric_type_from_i32 (v : Z) : option MetricType :=
  if v =? 0 then Some Counter else if v =? 1 then Some Gauge else if v =? 2 then Some Histogram else None.

(** [tracing::Level] *)
Inductive Level := TRACE | DEBUG | INFO | WARN | ERROR.
Definition log_level_to_tracing (level : Z) : option Level :=
  if level =? 0 then Some TRACE else if level =? 1 then Some DEBUG else if level =? 2 then Some INFO
  else if level =? 3 then Some WARN else if (level =? 4) || (level =? 5) then Some ERROR else None.
(** [host_max_log_level] as the number of the level, by what [tracing::enabled!] answers *)
Definition host_max_log_level (enabled : Level → bool) : Z :=
  if enabled TRACE then 0 else if enabled DEBUG then 1 else if enabled INFO then 2
  else if enabled WARN then 3 else 4.

(** [wasi_errno], [wasi_fd] *)
Definition SUCCESS : Z := 0.
Definition BADF : Z := 8.
Definition FAULT : Z := 21.
Definition NOTSUP : Z := 58.
Definition STDOUT : Z := 1.
Definition STDERR : Z := 2.

(** ** Little-endian numbers *)

Fixpoint le_bytes (n : nat) (z : Z) : string :=
  match n with O => "" | S n => String (ascii_of_N (Z.to_N (z mod 256))) (le_bytes n (z / 256)) end.
Fixpoint le_value (s : string) : Z :=
  match s with "" => 0 | String a s => Z.of_N (byte_val a) + 256 * le_value s end.

(** ** Guest memory *)

(** [&s[start..end]] *)
Definition str_slice (s : string) (start fin : Z) : option string :=
  if (start <=? fin) && (fin <=? str_len s)
  then Some (str_take (Z.to_nat (fin - start)) (str_drop (Z.to_nat start) s)) else None.

Definition read_bytes (mem : string) (ptr len : Z) : result string WasmHostError :=
  let fin := ptr + len in
  if str_len mem <? fin then Err (MemoryOob ptr len)
  else Ok (str_take (Z.to_nat len) (str_drop (Z.to_nat ptr) mem)).
Definition read_string_lossy (mem : string) (ptr len : Z) : result string WasmHostError :=
  result_map from_utf8_lossy (read_bytes mem ptr len).
Definition write_bytes (mem : string) (ptr : Z) (data : string) : result string WasmHostError :=
  let fin := ptr + str_len data in
  if str_len mem <? fin then Err (MemoryOob ptr (uwrap 32 (str_len data)))
  else Ok (str_take (Z.to_nat ptr) mem +:+ data +:+ str_drop (Z.to_nat fin) mem).
Definition read_u32 (mem : string) (ptr : Z) : result Z WasmHostError :=
  result_map le_value (read_bytes mem ptr 4).
Definition write_u32 (mem : string) (ptr value : Z) : result string WasmHostError :=
  write_bytes mem ptr (le_bytes 4 value).
Definition write_u64 (mem : string) (ptr value : Z) : result string WasmHostError :=
  write_bytes mem ptr (le_bytes 8 value).

(** ** Pairs *)

Notation Pairs := (list (string * string)).
Definition NUL : ascii := ascii_of_nat 0.

Definition pair_sizes (kv : string * string) : string :=
  le_bytes 4 (uwrap 32 (str_len kv.1)) +:+ le_bytes 4 (uwrap 32 (str_len kv.2)).
Definition pair_data (kv : string * string) : string :=
  kv.1 +:+ String NUL (kv.2 +:+ String NUL "").
Definition encode_pairs (pairs : Pairs) : string :=
  le_bytes 4 (uwrap 32 (Z.of_nat (length pairs))) +:+ concat_str (pair_sizes <$> pairs) +:+ concat_str (pair_data <$> pairs).

Definition u32_from_slice (bytes : string) (pos : Z) : option Z := le_value <$> str_slice bytes pos (pos + 4).

(** The first loop of [decode_pairs]: [None] is the return of [None]. *)
Fixpoint decode_sizes (bytes : string) (count : nat) (pos : Z) : option (list (Z * Z) * Z) :=
  match count with
  | O => Some ([], pos)
  | S count =>
      k ← u32_from_slice bytes pos; v ← u32_from_slice bytes (pos + 4);
      '(sizes, pos) ← decode_sizes bytes count (pos + 8); Some ((k, v) :: sizes, pos)
  end.
(** The second loop, where a slice may panic. *)
Fixpoint decode_data (bytes : string) (sizes : list (Z * Z)) (pos : Z) : option (option Pairs) :=
  match sizes with
  | [] => Some (Some [])
  | (ks, vs) :: sizes =>
      if str_len bytes <? pos + ks + 1 + vs + 1 then Some None
      else
        key ← str_slice bytes pos (pos + ks);
        val ← str_slice bytes (pos + ks + 1) (pos + ks + 1 + vs);
        rest ← decode_data bytes sizes (pos + ks + 1 + vs + 1);
        Some (match rest with Some l => Some ((key, val) :: l) | None => None end)
  end.
Definition decode_pairs (bytes : string) : option (option Pairs) :=
  if str_is_empty bytes then Some (Some [])
  else if bool_decide (bytes = String NUL "") then Some (Some [])
  else if str_len bytes <? 4 then Some None
  else
    match u32_from_slice bytes 0 with
    | None => Some None
    | Some count =>
        if str_len bytes <? 4 + count * 8 then Some None
        else match decode_sizes bytes (Z.to_nat count) 4 with
             | None => Some None
             | Some (sizes, pos) => decode_data bytes sizes pos
             end
    end.

(** ** Property paths *)

Definition decode_property_path (bytes : string) : list string :=
  let trimmed := default bytes (str_strip_suffix (String NUL "") bytes) in
  if str_is_empty trimmed then [] else str_split NUL trimmed.

(** ** Theory: numbers and slices *)

Lemma le_bytes_length n z : String.length (le_bytes n z) = n.
Proof. revert z. induction n as [|n IH]; intros z; simpl; [done|by rewrite IH]. Qed.
Lemma le_bytes_len n z : str_len (le_bytes n z) = Z.of_nat n.
Proof. unfold str_len. by rewrite le_bytes_length. Qed.

Lemma le_value_bytes n z : 0 ≤ z < 256 ^ Z.of_nat n → le_value (le_bytes n z) = z.
Proof.
  revert z. induction n as [|n IH]; intros z Hz; cbn [le_bytes le_value].
  - change (256 ^ Z.of_nat 0) with 1 in Hz. lia.
  - rewrite Nat2Z.inj_succ, Z.pow_succ_r in Hz by lia.
    rewrite IH by (split; [apply Z.div_pos; lia|apply Z.div_lt_upper_bound; lia]).
    pose proof (Z.mod_pos_bound z 256 ltac:(lia)). unfold byte_val.
    rewrite N_ascii_embedding by lia. rewrite Z2N.id by lia. pose proof (Z.div_mod z 256 ltac:(lia)). lia.
Qed.

Lemma le_value_nonneg s : 0 ≤ le_value s.
Proof. induction s as [|a s IH]; simpl; lia. Qed.

Lemma str_slice_len s a b t : 0 ≤ a → str_slice s a b = Some t → str_len t = b - a.
Proof.
  unfold str_slice, str_len. intros Ha. case_match eqn:E; [|done]. intros [= <-].
  apply andb_true_iff in E as [?%Z.leb_le ?%Z.leb_le]. rewrite str_take_length, str_drop_length. lia.
Qed.

Lemma str_slice_Some s a b : 0 ≤ a ≤ b → b ≤ str_len s → is_Some (str_slice s a b).
Proof.
  intros. unfold str_slice. rewrite (proj2 (Z.leb_le a b)), (proj2 (Z.leb_le b _)) by lia. by eexists.
Qed.

Lemma str_slice_mid p q r a b : a = str_len p → b = str_len p + str_len q →
  str_slice (p +:+ q +:+ r) a b = Some q.
Proof.
  intros -> ->. unfold str_slice. rewrite !str_len_app.
  pose proof (str_len_nonneg p). pose proof (str_len_nonneg q). pose proof (str_len_nonneg r).
  rewrite (proj2 (Z.leb_le _ _)), (proj2 (Z.leb_le _ _)) by lia. simpl. f_equal.
  replace (str_len p + str_len q - str_len p) with (str_len q) by lia. unfold str_len at 1 2.
  rewrite !Nat2Z.id. by rewrite str_drop_app, str_take_app.
Qed.

(** ** Theory: guest memory *)

(** What a read returns, as a region of the memory. *)
Definition region (mem : string) (ptr : Z) (data : string) : Prop :=
  ∃ p r, mem = p +:+ data +:+ r ∧ str_len p = ptr.

Lemma str_split_at n s : (n ≤ String.length s)%nat → ∃ p r, s = p +:+ r ∧ String.length p = n.
Proof.
  intros. exists (str_take n s), (str_drop n s). rewrite str_take_drop, str_take_length. split; [done|lia].
Qed.

Lemma read_bytes_region mem ptr data : region mem ptr data → read_bytes mem ptr (str_len data) = Ok data.
Proof.
  intros (p & r & -> & <-). unfold read_bytes. rewrite !str_len_app.
  pose proof (str_len_nonneg r). rewrite (proj2 (Z.ltb_ge _ _)) by lia.
  unfold str_len. rewrite !Nat2Z.id. by rewrite str_drop_app, str_take_app.
Qed.

Lemma read_bytes_Ok mem ptr len data : 0 ≤ ptr → 0 ≤ len →
  read_bytes mem ptr len = Ok data → region mem ptr data ∧ str_len data = len.
Proof.
  unfold read_bytes. intros Hp Hl. case_match eqn:E; [done|]. intros [= <-]. apply Z.ltb_ge in E.
  unfold str_len in *. split.
  - destruct (str_split_at (Z.to_nat ptr) mem) as (p & r & -> & Hlen); [lia|].
    rewrite <- Hlen, str_drop_app. exists p, (str_drop (Z.to_nat len) r).
    by rewrite str_take_drop; unfold str_len; split; [|lia].
  - rewrite str_take_length, str_drop_length. lia.
Qed.

(** A write changes its own region and nothing else. *)
Lemma write_bytes_Ok mem ptr data mem' : 0 ≤ ptr → write_bytes mem ptr data = Ok mem' →
  ∃ p q r, mem = p +:+ q +:+ r ∧ mem' = p +:+ data +:+ r ∧ str_len p = ptr ∧ str_len q = str_len data.
Proof.
  unfold write_bytes. intros Hp. case_match eqn:E; [done|]. intros [= <-]. apply Z.ltb_ge in E.
  pose proof (str_len_nonneg data). unfold str_len in *.
  destruct (str_split_at (Z.to_nat ptr) mem) as (p & s & -> & Hlen); [lia|].
  rewrite str_length_app in E.
  destruct (str_split_at (String.length data) s) as (q & r & -> & Hq); [lia|].
  exists p, q, r. split_and!; [done| |lia|lia].
  rewrite <- Hlen at 1. rewrite str_take_app. f_equal. f_equal.
  replace (Z.to_nat _) with (String.length (p +:+ q)) by (rewrite str_length_app; lia).
  by rewrite str_app_assoc, str_drop_app.
Qed.

Lemma write_read mem ptr data mem' : 0 ≤ ptr → write_bytes mem ptr data = Ok mem' → region mem' ptr data.
Proof. intros Hp (p & q & r & _ & -> & ? & _)%write_bytes_Ok; [|done]. by exists p, r. Qed.

Lemma write_bytes_total mem ptr data : 0 ≤ ptr → ptr + str_len data ≤ str_len mem →
  ∃ mem', write_bytes mem ptr data = Ok mem'.
Proof. intros ? ?. unfold write_bytes. rewrite (proj2 (Z.ltb_ge _ _)) by lia. by eexists. Qed.

Lemma str_app_eq_len p p' s s' : p +:+ s = p' +:+ s' → String.length p = String.length p' → p = p' ∧ s = s'.
Proof.
  revert p'. induction p as [|a p IH]; intros [|a' p']; simpl; try done.
  intros [= -> Hs] [= Hl]. by destruct (IH _ Hs Hl) as [-> ->].
Qed.

(** A region that a write does not touch is kept. *)
Lemma region_write mem ptr data mem' ptr2 data2 : 0 ≤ ptr →
  write_bytes mem ptr data = Ok mem' → region mem ptr2 data2 →
  ptr2 + str_len data2 ≤ ptr ∨ ptr + str_len data ≤ ptr2 → region mem' ptr2 data2.
Proof.
  intros Hp (p & q & r & -> & -> & Hlp & Hlq)%write_bytes_Ok (p2 & r2 & Heq & Hp2) Hdis; [|done].
  pose proof (str_len_nonneg p2). pose proof (str_len_nonneg data2). destruct Hdis as [Hd|Hd].
  - destruct (str_split_at (String.length (p2 +:+ data2)) p) as (u & v & -> & Hu).
    { rewrite str_length_app. unfold str_len in *. lia. }
    rewrite str_app_assoc in Heq. rewrite <- (str_app_assoc u v) in Heq.
    rewrite (str_app_assoc p2 data2) in Heq. rewrite <- !str_app_assoc in Heq.
    rewrite (str_app_assoc p2 data2) in Heq. apply str_app_eq_len in Heq as [-> _]; [|done].
    exists p2, (v +:+ data +:+ r). split; [by rewrite !str_app_assoc|done].
  - destruct (str_split_at (Z.to_nat (ptr2 - ptr - str_len data)) r) as (u & v & -> & Hu).
    { apply (f_equal str_len) in Heq. rewrite !str_len_app in Heq. pose proof (str_len_nonneg r2).
      unfold str_len in *. lia. }
    replace (p +:+ q +:+ u +:+ v) with ((p +:+ q +:+ u) +:+ v) in Heq by (by rewrite <- !str_app_assoc).
    apply str_app_eq_len in Heq as [<- ->].
    + exists (p +:+ data +:+ u), r2. split; [by rewrite <- !str_app_assoc|]. rewrite <- Hp2, !str_len_app. lia.
    + rewrite !str_length_app. unfold str_len in *. lia.
Qed.

(** ** Theory: pairs *)

Lemma decode_sizes_len bytes count pos l pos' :
  decode_sizes bytes count pos = Some (l, pos') → pos' = pos + 8 * Z.of_nat count ∧ length l = count.
Proof.
  revert pos l pos'. induction count as [|count IH]; intros pos l pos'; cbn [decode_sizes].
  - intros [= <- <-]. simpl. split; [lia|done].
  - unfold mbind, option_bind. repeat case_match; intros; simplify_eq/=.
    match goal with H : decode_sizes _ _ _ = _ |- _ => apply IH in H as [-> Hl] end. split; lia.
Qed.

Lemma decode_sizes_nonneg bytes count pos l pos' :
  decode_sizes bytes count pos = Some (l, pos') → Forall (λ kv, 0 ≤ kv.1 ∧ 0 ≤ kv.2) l.
Proof.
  revert pos l pos'. induction count as [|count IH]; intros pos l pos'; cbn [decode_sizes].
  - intros [= <- <-]. done.
  - unfold mbind, option_bind, u32_from_slice. repeat case_match; intros; simplify_eq/=.
    constructor; [|by eapply IH]. simpl.
    repeat match goal with H : le_value <$> ?o = Some _ |- _ => destruct o; simplify_eq/= end.
    split; apply le_value_nonneg.
Qed.

Lemma decode_data_total bytes sizes pos : 0 ≤ pos → Forall (λ kv, 0 ≤ kv.1 ∧ 0 ≤ kv.2) sizes →
  is_Some (decode_data bytes sizes pos).
Proof.
  intros Hpos Hs. revert pos Hpos. induction Hs as [|[ks vs] sizes [Hk Hv] _ IH]; intros pos Hpos; [by eexists|].
  simpl in *. case_match eqn:E; [by eexists|]. apply Z.ltb_ge in E.
  destruct (str_slice_Some bytes pos (pos + ks)) as [key ->]; [lia..|].
  destruct (str_slice_Some bytes (pos + ks + 1) (pos + ks + 1 + vs)) as [val ->]; [lia..|]. simpl.
  destruct (IH (pos + ks + 1 + vs + 1)) as [rest ->]; [lia|]. by eexists.
Qed.

Definition pairs_small (pairs : Pairs) : Prop :=
  Z.of_nat (length pairs) < 2 ^ 32 ∧ Forall (λ kv, str_len kv.1 < 2 ^ 32 ∧ str_len kv.2 < 2 ^ 32) pairs.

Definition sizes_of (pairs : Pairs) : list (Z * Z) := (λ kv, (str_len kv.1, str_len kv.2)) <$> pairs.

Lemma u32_from_slice_mid p z r pos : pos = str_len p → 0 ≤ z < 2 ^ 32 →
  u32_from_slice (p +:+ le_bytes 4 z +:+ r) pos = Some z.
Proof.
  intros -> Hz. unfold u32_from_slice. rewrite str_slice_mid; [|done|by rewrite le_bytes_len].
  cbn [fmap option_fmap option_map]. f_equal. apply le_value_bytes. change (256 ^ Z.of_nat 4) with (2 ^ 32). lia.
Qed.

Lemma decode_sizes_encode p pairs r pos : pos = str_len p →
  Forall (λ kv : string * string, str_len kv.1 < 2 ^ 32 ∧ str_len kv.2 < 2 ^ 32) pairs →
  decode_sizes (p +:+ concat_str (pair_sizes <$> pairs) +:+ r) (length pairs) pos =
  Some (sizes_of pairs, pos + 8 * Z.of_nat (length pairs)).
Proof.
  intros Hpos Hs. revert p pos Hpos. induction Hs as [|[k v] pairs [Hk Hv] _ IH]; intros p pos ->.
  - cbn [length decode_sizes sizes_of fmap list_fmap]. do 2 f_equal. lia.
  - rewrite fmap_cons, concat_str_cons. cbn [length decode_sizes fst snd] in *.
    pose proof (str_len_nonneg k). pose proof (str_len_nonneg v).
    rewrite (eq_refl : pair_sizes (k, v) = le_bytes 4 (uwrap 32 (str_len k)) +:+ le_bytes 4 (uwrap 32 (str_len v))).
    rewrite !(uwrap_id 32) by (unfold in_unsigned; lia).
    rewrite <- !str_app_assoc. rewrite (u32_from_slice_mid p _ _ (str_len p)) by (reflexivity || lia). cbn [mbind option_bind].
    rewrite (str_app_assoc p). rewrite u32_from_slice_mid; [|by rewrite str_len_app, le_bytes_len|lia].
    cbn [mbind option_bind]. rewrite (str_app_assoc (p +:+ _)).
    specialize (IH ((p +:+ le_bytes 4 (str_len k)) +:+ le_bytes 4 (str_len v)) (str_len p + 8)).
    rewrite IH by (rewrite !str_len_app, !le_bytes_len; lia).
    cbn [mbind option_bind]. unfold sizes_of. rewrite fmap_cons. cbn [fst snd]. do 2 f_equal. lia.
Qed.

Lemma decode_data_encode p pairs pos : pos = str_len p →
  decode_data (p +:+ concat_str (pair_data <$> pairs)) (sizes_of pairs) pos = Some (Some pairs).
Proof.
  revert p pos. induction pairs as [|[k v] pairs IH]; intros p pos ->; [done|].
  unfold sizes_of. rewrite !fmap_cons, concat_str_cons. fold (sizes_of pairs). cbn [decode_data fst snd].
  rewrite (eq_refl : pair_data (k, v) = k +:+ String NUL (v +:+ String NUL "")).
  change (String NUL (v +:+ String NUL "")) with (String NUL "" +:+ (v +:+ String NUL "")).
  rewrite <- !str_app_assoc. pose proof (str_len_nonneg (concat_str (pair_data <$> pairs))).
  rewrite (proj2 (Z.ltb_ge _ _)).
  2: { rewrite !str_len_app. change (str_len (String NUL "")) with 1. lia. }
  rewrite (str_slice_mid p k _ _ _ eq_refl eq_refl). cbn [mbind option_bind].
  set (all := p +:+ k +:+ _).
  assert (all = (p +:+ k +:+ String NUL "") +:+ v +:+ (String NUL "" +:+ concat_str (pair_data <$> pairs))) as ->.
  { unfold all. by rewrite <- !str_app_assoc. }
  rewrite str_slice_mid; [|rewrite !str_len_app; change (str_len (String NUL "")) with 1; lia..]. cbn [mbind option_bind].
  rewrite (str_app_assoc v), (str_app_assoc (p +:+ _)).
  specialize (IH ((p +:+ k +:+ String NUL "") +:+ v +:+ String NUL "") (str_len p + str_len k + 1 + str_len v + 1)).
  rewrite IH; [done|].
  rewrite !str_len_app. change (str_len (String NUL "")) with 1. lia.
Qed.

Lemma decode_pairs_ok bytes : is_Some (decode_pairs bytes).
Proof.
  unfold decode_pairs. repeat case_match; try by eexists. destruct_and?.
  match goal with H : decode_sizes _ _ _ = Some _ |- _ => pose proof H as Hs end.
  eapply decode_data_total; [|by eapply decode_sizes_nonneg]. apply decode_sizes_len in Hs as [-> _]. lia.
Qed.

Lemma decode_encode_pairs pairs : pairs_small pairs → decode_pairs (encode_pairs pairs) = Some (Some pairs).
Proof.
  intros [Hc Hs]. unfold decode_pairs.
  assert (str_len (encode_pairs pairs) = 4 + 8 * Z.of_nat (length pairs) + str_len (concat_str (pair_data <$> pairs))) as Hlen.
  { unfold encode_pairs. rewrite !str_len_app, le_bytes_len. clear. rewrite Z.add_assoc. f_equal. f_equal.
    induction pairs as [|[k v] l IH]; [done|]. rewrite fmap_cons, concat_str_cons, str_len_app, IH.
    unfold pair_sizes. rewrite str_len_app, !le_bytes_len. simpl length. lia. }
  pose proof (str_len_nonneg (concat_str (pair_data <$> pairs))).
  rewrite bool_decide_eq_false_2.
  2: { intros Hn. rewrite Hn in Hlen. change (str_len (String NUL "")) with 1 in Hlen. lia. }
  destruct (str_is_empty (encode_pairs pairs)) eqn:He.
  { apply str_is_empty_true in He. rewrite He in Hlen. change (str_len "") with 0 in Hlen. lia. }
  rewrite (proj2 (Z.ltb_ge _ _)) by lia. clear He.
  unfold encode_pairs in Hlen |- *. rewrite uwrap_id in Hlen |- * by (unfold in_unsigned; lia).
  assert (u32_from_slice (le_bytes 4 (Z.of_nat (length pairs)) +:+ concat_str (pair_sizes <$> pairs) +:+
    concat_str (pair_data <$> pairs)) 0 = Some (Z.of_nat (length pairs))) as ->.
  { change (le_bytes 4 (Z.of_nat (length pairs))) with ("" +:+ le_bytes 4 (Z.of_nat (length pairs))).
    rewrite <- str_app_assoc. apply u32_from_slice_mid; [done|lia]. }
  rewrite (proj2 (Z.ltb_ge _ _)) by lia. rewrite Nat2Z.id.
  rewrite decode_sizes_encode; [|by rewrite le_bytes_len|done].
  rewrite str_app_assoc. apply decode_data_encode.
  rewrite str_len_app, le_bytes_len in Hlen |- *. rewrite str_len_app in Hlen. lia.
Qed.

(** ** The properties *)

(** The bytes in which the host hands a list of headers to a guest are read back as the same
    list, in the same order and with repeated names, whatever bytes the names and values hold
    (zero bytes included), as long as no length needs more than 32 bits. *)
Theorem pairs_roundtrip pairs : pairs_small pairs → decode_pairs (encode_pairs pairs) = Some (Some pairs).
Proof. apply decode_encode_pairs. Qed.
Lemma pairs_roundtrip_witness :
  pairs_small [(":path", "/"); ("a", String NUL ""); ("a", "")] ∧
  decode_pairs (encode_pairs [(":path", "/"); ("a", String NUL ""); ("a", "")]) =
    Some (Some [(":path", "/"); ("a", String NUL ""); ("a", "")]).
Proof.
  assert (pairs_small [(":path", "/"); ("a", String NUL ""); ("a", "")]) as Hs.
  { split; [done|]. repeat constructor. }
  split; [exact Hs|]. apply (pairs_roundtrip [(":path", "/"); ("a", String NUL ""); ("a", "")] Hs).
Defined.

(** No bytes that a guest passes as a list of pairs make the host panic: every slice that is
    taken of them is in range, so the decoder returns a list or refuses. *)
Theorem decode_pairs_total bytes : is_Some (decode_pairs bytes).
Proof. apply decode_pairs_ok. Qed.
