(* ===== verification/WasmShared.v ===== *)
(** * WebAssembly host: state shared by all guests

    [crates/plugin-wasm/src/shared.rs]: the key-value store with compare-and-swap, the shared
    queues and the metrics of the process, which guests of any virtual machine use through the
    host functions. Each operation holds the lock of its store, so it is an atomic step and
    concurrent guests are an interleaving of steps; poisoned locks are not modelled. The
    OpenTelemetry instruments are the list of what was recorded on them. *)

From S2P Require Export WasmAbi.
Local Open Scope string_scope.
Local Open Scope list_scope.
Local Open Scope Z_scope.

(** [x.wrapping_add(1).max(1)] of a [u32] *)
Definition next_u32 (x : Z) : Z := Z.max (uwrap 32 (x + 1)) 1.

(** ** Shared data *)

Record SharedDataEntry := MkEntry { sd_value : string; sd_cas : Z }.
Notation SharedData := (gmap string SharedDataEntry).

Definition shared_data_get (key : string) (s : SharedData) : option (string * Z) :=
  (λ e, (sd_value e, sd_cas e)) <$> s !! key.

Inductive SharedDataSetResult := SetOk | SetCasMismatch.
Definition shared_data_set (key value : string) (cas : Z) (s : SharedData) : SharedDataSetResult * SharedData :=
  let entry := default (MkEntry "" 0) (s !! key) in
  let s := <[key := entry]> s in
  if negb (cas =? 0) && negb (cas =? sd_cas entry) then (SetCasMismatch, s)
  else (SetOk, <[key := MkEntry value (next_u32 (sd_cas entry))]> s).

(** ** Shared queues *)

Record SharedQueueRegistry := MkQueues {
  q_by_id : gmap Z (list string);
  q_by_name : gmap (string * string) Z;
  q_next_id : Z;
}.
Definition queues_default : SharedQueueRegistry := MkQueues ∅ ∅ 0.

Definition queue_register (vm_id name : string) (g : SharedQueueRegistry) : Z * SharedQueueRegistry :=
  match q_by_name g !! (vm_id, name) with
  | Some qid => (qid, g)
  | None =>
      let qid := next_u32 (q_next_id g) in
      (qid, MkQueues (<[qid := []]> (q_by_id g)) (<[(vm_id, name) := qid]> (q_by_name g)) qid)
  end.
Definition queue_resolve (vm_id name : string) (g : SharedQueueRegistry) : option Z := q_by_name g !! (vm_id, name).

Inductive QueueOpResult := QOk | QNotFound | QEmpty.
Definition set_queue (qid : Z) (q : list string) (g : SharedQueueRegistry) : SharedQueueRegistry :=
  MkQueues (<[qid := q]> (q_by_id g)) (q_by_name g) (q_next_id g).
Definition queue_enqueue (qid : Z) (value : string) (g : SharedQueueRegistry) : QueueOpResult * SharedQueueRegistry :=
  match q_by_id g !! qid with
  | Some q => (QOk, set_queue qid (q ++ [value]) g)
  | None => (QNotFound, g)
  end.
Definition queue_dequeue (qid : Z) (g : SharedQueueRegistry) : QueueOpResult * option string * SharedQueueRegistry :=
  match q_by_id g !! qid with
  | Some (v :: q) => (QOk, Some v, set_queue qid q g)
  | Some [] => (QEmpty, None, g)
  | None => (QNotFound, None, g)
  end.

(** ** Metrics *)

(** What was recorded on an instrument; a gauge takes an [i64]. *)
Inductive Recorded := CounterAdd (id v : Z) | GaugeRecord (id v : Z) | HistogramRecord (id v : Z).
Record MetricEntry := MkMetric { me_kind : MetricType; me_value : Z }.
Record MetricRegistry := MkMetrics {
  m_by_id : gmap Z MetricEntry;
  m_by_name : gmap string Z;
  m_next_id : Z;
  m_recorded : list Recorded;
}.
Definition metrics_default : MetricRegistry := MkMetrics ∅ ∅ 0 [].

Inductive MetricOpResult := MOk | MNotFound | MBadArgument.

Definition metric_define (kind : MetricType) (name : string) (g : MetricRegistry) : Z * MetricRegistry :=
  match m_by_name g !! name with
  | Some id => (id, g)
  | None =>
      let id := next_u32 (m_next_id g) in
      (id, MkMetrics (<[id := MkMetric kind 0]> (m_by_id g)) (<[name := id]> (m_by_name g)) id (m_recorded g))
  end.
Definition set_metric (id : Z) (m : MetricEntry) (r : Recorded) (g : MetricRegistry) : MetricRegistry :=
  MkMetrics (<[id := m]> (m_by_id g)) (m_by_name g) (m_next_id g) (m_recorded g ++ [r]).
Definition metric_record (id value : Z) (g : MetricRegistry) : MetricOpResult * MetricRegistry :=
  match m_by_id g !! id with
  | Some m =>
      let r := match me_kind m with
               | Counter => CounterAdd id value
               | Gauge => GaugeRecord id (swrap 64 value)
               | Histogram => HistogramRecord id value
               end in
      (MOk, set_metric id (MkMetric (me_kind m) value) r g)
  | None => (MNotFound, g)
  end.
(** [delta] is an [i64], the value a [u64] with saturating arithmetic; [(-delta) as u64] wraps. *)
Definition metric_increment (id delta : Z) (g : MetricRegistry) : MetricOpResult * MetricRegistry :=
  match m_by_id g !! id with
  | None => (MNotFound, g)
  | Some m =>
      if bool_decide (me_kind m = Counter) && (delta <? 0) then (MBadArgument, g)
      else
        let value := if 0 <=? delta then Z.min (me_value m + delta) (2 ^ 64 - 1)
                     else Z.max 0 (me_value m - uwrap 64 (- delta)) in
        let r := match me_kind m with
                 | Counter => CounterAdd id (Z.max delta 0)
                 | Gauge => GaugeRecord id (swrap 64 value)
                 | Histogram => HistogramRecord id value
                 end in
        (MOk, set_metric id (MkMetric (me_kind m) value) r g)
  end.
Definition metric_get (id : Z) (g : MetricRegistry) : option Z := me_value <$> m_by_id g !! id.

(** ** Compare-and-swap is exclusive *)

Inductive DataOp := OpGet (key : string) | OpSet (key value : string) (cas : Z).
Definition data_step (op : DataOp) (s : SharedData) : SharedData :=
  match op with OpGet _ => s | OpSet key value cas => (shared_data_set key value cas s).2 end.
Definition data_run (ops : list DataOp) (s : SharedData) : SharedData := fold_left (λ s op, data_step op s) ops s.

Definition version (key : string) (s : SharedData) : Z := default 0 (sd_cas <$> s !! key).
(** The version of an entry after [k] more writes. *)
Definition cycle (cas k : Z) : Z := (cas - 1 + k) mod (2 ^ 32 - 1) + 1.

Lemma next_u32_range x : 1 ≤ next_u32 x < 2 ^ 32.
Proof. unfold next_u32, uwrap. pose proof (Z.mod_pos_bound (x + 1) (2 ^ 32) ltac:(lia)). lia. Qed.

Lemma next_u32_cycle cas k : next_u32 (cycle cas k) = cycle cas (k + 1).
Proof.
  unfold cycle, next_u32, uwrap. pose proof (Z.mod_pos_bound (cas - 1 + k) (2 ^ 32 - 1) ltac:(lia)) as Hb.
  rewrite (Z.add_assoc (cas - 1) k 1). rewrite <- (Z.add_mod_idemp_l (cas - 1 + k) 1) by lia.
  set (m := (cas - 1 + k) mod (2 ^ 32 - 1)) in *. destruct (decide (m = 2 ^ 32 - 2)) as [->|].
  - reflexivity.
  - rewrite (Z.mod_small (m + 1 + 1)), (Z.mod_small (m + 1)) by lia. lia.
Qed.

Lemma cycle_0 cas : 1 ≤ cas < 2 ^ 32 → cycle cas 0 = cas.
Proof. intros. unfold cycle. rewrite Z.mod_small; lia. Qed.

Lemma cycle_inj cas k : 1 ≤ cas < 2 ^ 32 → 0 ≤ k < 2 ^ 32 - 1 → cycle cas k = cas → k = 0.
Proof.
  unfold cycle. intros Hc Hk Heq. assert ((cas - 1 + k) mod (2 ^ 32 - 1) = cas - 1) as Hm by lia.
  pose proof (Z.div_mod (cas - 1 + k) (2 ^ 32 - 1) ltac:(lia)) as Hd. rewrite Hm in Hd.
  assert (k = (2 ^ 32 - 1) * ((cas - 1 + k) / (2 ^ 32 - 1))) as Hk2 by lia.
  destruct (Z.eq_dec ((cas - 1 + k) / (2 ^ 32 - 1)) 0) as [Hz|Hz]; [lia|].
  pose proof (Z.div_pos (cas - 1 + k) (2 ^ 32 - 1) ltac:(lia) ltac:(lia)). nia.
Qed.

(** An entry after some steps: unchanged, or written [k] times. *)
Lemma data_step_entry op key s e :
  s !! key = Some e →
  data_step op s !! key = Some e ∨ ∃ v, data_step op s !! key = Some (MkEntry v (next_u32 (sd_cas e))).
Proof.
  intros He. destruct op as [k|k v cas]; [by left|]. cbn [data_step]. unfold shared_data_set.
  destruct (decide (k = key)) as [->|Hne].
  - rewrite He. simpl. case_match; simpl.
    + left. by rewrite lookup_insert_eq.
    + right. exists v. by rewrite lookup_insert_eq.
  - left. case_match; simpl; rewrite ?lookup_insert_ne by done; done.
Qed.

Lemma data_run_entry ops key s e : 1 ≤ sd_cas e < 2 ^ 32 → s !! key = Some e →
  ∃ k e', data_run ops s !! key = Some e' ∧ 0 ≤ k ≤ Z.of_nat (length ops) ∧
    sd_cas e' = cycle (sd_cas e) k ∧ (k = 0 → e' = e).
Proof.
  intros Hc. revert s. induction ops as [|op ops IH] using rev_ind; intros s He.
  - exists 0, e. split_and!; simpl; [done|lia..|by rewrite cycle_0|done].
  - destruct (IH s He) as (k & e' & He' & Hk & Hcas & Heq). unfold data_run. rewrite fold_left_app. simpl.
    fold (data_run ops s). rewrite length_app. simpl.
    destruct (data_step_entry op _ _ _ He') as [Hs|[v Hs]]; rewrite Hs.
    + exists k, e'. split_and!; [done|lia..|done|done].
    + exists (k + 1), (MkEntry v (next_u32 (sd_cas e'))). split_and!; [done|lia..| |lia].
      simpl. by rewrite Hcas, next_u32_cycle.
Qed.

(** Compare-and-swap is exclusive. If a guest read a value with its version and later writes
    with this version, then, with fewer than [2 ^ 32 - 1] operations of any guests in between, the
    write succeeds only if the entry is still the one that was read: no update is lost. *)
Theorem cas_set_exclusive key value cas value' ops s s' :
  1 ≤ cas < 2 ^ 32 →
  shared_data_get key s = Some (value, cas) →
  Z.of_nat (length ops) < 2 ^ 32 - 1 →
  shared_data_set key value' cas (data_run ops s) = (SetOk, s') →
  shared_data_get key (data_run ops s) = Some (value, cas) ∧
  shared_data_get key s' = Some (value', next_u32 cas).
Proof.
  intros Hc Hget Hops Hset. unfold shared_data_get in *.
  destruct (s !! key) as [e|] eqn:He; simplify_eq/=.
  destruct (data_run_entry ops key s e Hc He) as (k & e' & He' & Hk & Hcas & Heq).
  unfold shared_data_set in Hset. rewrite He' in *. simpl in *. case_match eqn:E; simplify_eq.
  assert (sd_cas e' = sd_cas e) as Hsame.
  { apply andb_false_iff in E as [E|E]; apply negb_false_iff, Z.eqb_eq in E; lia. }
  rewrite Hcas in Hsame. apply cycle_inj in Hsame; [|lia..]. rewrite (Heq Hsame). simpl. split; [done|].
  by rewrite lookup_insert_eq.
Qed.
Lemma cas_set_exclusive_witness :
  shared_data_get "k" (data_run [OpGet "k"; OpSet "other" "x" 0] {["k" := MkEntry "v" 7]}) = Some ("v", 7).
Proof.
  refine (proj1 (cas_set_exclusive "k" "v" 7 "w" [OpGet "k"; OpSet "other" "x" 0] {["k" := MkEntry "v" 7]} _ _ _ _ _));
    [lia|vm_compute; reflexivity|simpl; lia|vm_compute; reflexivity].
Defined.

(** A refused write of a key that does not exist leaves an empty entry behind. *)
Example refused_set_creates :
  shared_data_get "k" (shared_data_set "k" "v" 5 ∅).2 = Some ("", 0) ∧ shared_data_get "k" (∅ : SharedData) = None.
Proof. vm_compute. done. Qed.

(** ** The shared queues refine one FIFO queue per name

    What guests see of the queues: they register a name and use the identifier they resolve. *)

Inductive QueueOp := QRegister (vm_id name : string) | QEnqueue (vm_id name value : string) | QDequeue (vm_id name : string).
Inductive QueueOut := OutRegistered | OutEnqueued (r : QueueOpResult) | OutDequeued (r : QueueOpResult) (v : option string).

Definition queue_step (op : QueueOp) (g : SharedQueueRegistry) : QueueOut * SharedQueueRegistry :=
  match op with
  | QRegister vm_id name => let '(_, g) := queue_register vm_id name g in (OutRegistered, g)
  | QEnqueue vm_id name value =>
      match queue_resolve vm_id name g with
      | None => (OutEnqueued QNotFound, g)
      | Some qid => let '(r, g) := queue_enqueue qid value g in (OutEnqueued r, g)
      end
  | QDequeue vm_id name =>
      match queue_resolve vm_id name g with
      | None => (OutDequeued QNotFound None, g)
      | Some qid => let '(r, v, g) := queue_dequeue qid g in (OutDequeued r v, g)
      end
  end.

(** The specification: queues by name. *)
Notation Queues := (gmap (string * string) (list string)).
Definition spec_step (op : QueueOp) (q : Queues) : QueueOut * Queues :=
  match op with
  | QRegister vm_id name => (OutRegistered, <[(vm_id, name) := default [] (q !! (vm_id, name))]> q)
  | QEnqueue vm_id name value =>
      match q !! (vm_id, name) with
      | None => (OutEnqueued QNotFound, q)
      | Some l => (OutEnqueued QOk, <[(vm_id, name) := l ++ [value]]> q)
      end
  | QDequeue vm_id name =>
      match q !! (vm_id, name) with
      | None => (OutDequeued QNotFound None, q)
      | Some [] => (OutDequeued QEmpty None, q)
      | Some (v :: l) => (OutDequeued QOk (Some v), <[(vm_id, name) := l]> q)
      end
  end.

Fixpoint outputs {S} (step : QueueOp → S → QueueOut * S) (ops : list QueueOp) (s : S) : list QueueOut :=
  match ops with [] => [] | op :: ops => (step op s).1 :: outputs step ops (step op s).2 end.

(** Names have distinct identifiers up to the last one that was given out, and every identifier has its queue. *)
Record queues_ok (g : SharedQueueRegistry) (q : Queues) : Prop := {
  qo_queue k : q !! k = (λ qid, default [] (q_by_id g !! qid)) <$> q_by_name g !! k;
  qo_present k qid : q_by_name g !! k = Some qid → is_Some (q_by_id g !! qid) ∧ 1 ≤ qid ≤ q_next_id g;
  qo_inj k k' qid : q_by_name g !! k = Some qid → q_by_name g !! k' = Some qid → k = k';
}.

Lemma queues_ok_set g q k qid l : queues_ok g q → q_by_name g !! k = Some qid →
  queues_ok (set_queue qid l g) (<[k := l]> q).
Proof.
  intros [Hq Hp Hi] Hk. split; simpl.
  - intros k'. destruct (decide (k' = k)) as [->|Hne].
    + by rewrite lookup_insert_eq, Hk; simpl; rewrite lookup_insert_eq.
    + rewrite lookup_insert_ne, Hq by done. destruct (q_by_name g !! k') as [qid'|] eqn:Hk'; [|done]. simpl.
      rewrite lookup_insert_ne; [done|]. intros ->. by eapply Hne, Hi.
  - intros k' qid' Hk'. destruct (Hp _ _ Hk') as [[l' Hl] ?]. split; [|done].
    destruct (decide (qid' = qid)) as [->|]; [rewrite lookup_insert_eq|rewrite lookup_insert_ne by done]; by eexists.
  - done.
Qed.

Lemma queues_ok_step op g q : queues_ok g q → 0 ≤ q_next_id g < 2 ^ 32 - 1 →
  (queue_step op g).1 = (spec_step op q).1 ∧ queues_ok (queue_step op g).2 (spec_step op q).2 ∧
  q_next_id g ≤ q_next_id (queue_step op g).2 ≤ q_next_id g + 1.
Proof.
  intros Hok Hn. pose proof Hok as [Hq Hp Hi]. destruct op as [vm name|vm name value|vm name]; simpl.
  - unfold queue_register. rewrite Hq. destruct (q_by_name g !! (vm, name)) as [qid|] eqn:Hk; simpl.
    + split_and!; [done| |lia..]. rewrite insert_id; [done|]. by rewrite Hq, Hk.
    + assert (next_u32 (q_next_id g) = q_next_id g + 1) as Hnext.
      { unfold next_u32, uwrap. rewrite Z.mod_small by lia. lia. }
      rewrite Hnext. split_and!; [done| |lia..]. split; simpl.
      * intros k. destruct (decide (k = (vm, name))) as [->|].
        -- by rewrite !lookup_insert_eq; simpl; rewrite lookup_insert_eq.
        -- rewrite !lookup_insert_ne, Hq by done. destruct (q_by_name g !! k) as [qid|] eqn:Hk'; [|done]. simpl.
           apply Hp in Hk' as [_ ?]. rewrite lookup_insert_ne by lia. done.
      * intros k qid. destruct (decide (k = (vm, name))) as [->|].
        -- rewrite lookup_insert_eq. intros [= <-]. rewrite lookup_insert_eq. split; [by eexists|lia].
        -- rewrite lookup_insert_ne by done. intros Hk'. destruct (Hp _ _ Hk') as [? ?].
           rewrite lookup_insert_ne by lia. split; [done|lia].
      * intros k k' qid. destruct (decide (k = (vm, name))) as [->|], (decide (k' = (vm, name))) as [->|];
          rewrite ?lookup_insert_eq, ?lookup_insert_ne by done; try done.
        -- intros [= <-] [_ ?]%Hp. lia.
        -- intros [_ ?]%Hp [= <-]. lia.
        -- apply Hi.
  - unfold queue_resolve. rewrite Hq. destruct (q_by_name g !! (vm, name)) as [qid|] eqn:Hk; simpl; [|done || split_and!; done || lia].
    destruct (Hp _ _ Hk) as [[l Hl] _]. unfold queue_enqueue. rewrite Hl. simpl.
    split_and!; [done| |simpl; lia..]. by apply queues_ok_set.
  - unfold queue_resolve. rewrite Hq. destruct (q_by_name g !! (vm, name)) as [qid|] eqn:Hk; simpl; [|done || split_and!; done || lia].
    destruct (Hp _ _ Hk) as [[l Hl] _]. unfold queue_dequeue. rewrite Hl. simpl.
    destruct l as [|v l]; simpl; split_and!; try done; try (simpl; lia). by apply queues_ok_set.
Qed.

Lemma queues_ok_outputs ops g q : queues_ok g q → 0 ≤ q_next_id g → q_next_id g + Z.of_nat (length ops) < 2 ^ 32 →
  outputs queue_step ops g = outputs spec_step ops q.
Proof.
  revert g q. induction ops as [|op ops IH]; intros g q Hok Hn Hlen; [done|]. cbn [outputs length] in *.
  destruct (queues_ok_step op g q Hok) as (-> & Hok' & Hn'); [lia|]. f_equal. apply IH; [done|lia..].
Qed.


(** A value recorded on a counter may be lower than the one before. *)
Example recorded_counter_decreases :
  let '(id, g) := metric_define Counter "c" metrics_default in
  let g := (metric_increment id 5 g).2 in
  metric_get id g = Some 5 ∧ metric_get id (metric_record id 1 g).2 = Some 1.
Proof. vm_compute. done. Qed.

(** The value of a metric stays in 64 bits, and increments of a counter never lower it. *)
Lemma metric_increment_bounds id delta g m : m_by_id g !! id = Some m →
  in_signed 64 delta → in_unsigned 64 (me_value m) →
  ∃ v, metric_get id (metric_increment id delta g).2 = Some v ∧ in_unsigned 64 v ∧
    (me_kind m = Counter → me_value m ≤ v).
Proof.
  unfold metric_increment, metric_get, in_signed, in_unsigned. intros Hm Hd Hv. rewrite Hm.
  change (2 ^ (64 - 1)) with (2 ^ 63) in Hd. unfold uwrap.
  case_match eqn:E; simpl; [rewrite Hm; simpl; eexists; split_and!; [done|lia..|lia]|].
  rewrite lookup_insert_eq. simpl. eexists. split; [done|].
  pose proof (Z.mod_pos_bound (- delta) (2 ^ 64) ltac:(lia)).
  destruct (Z.leb_spec 0 delta).
  - lia.
  - split; [lia|]. intros Hk. rewrite bool_decide_eq_true_2 in E by done. simpl in E. apply Z.ltb_ge in E. lia.
Qed.
