(* ===== verification/WasmConfig.v ===== *)
(** * WebAssembly host: the configuration of the plugin

    [crates/plugin-wasm/src/config.rs]: the configuration of one wasm plugin, the limits it puts
    on the guest, and the upstream a guest's cluster name stands for. [serde_yaml] is the
    parameter [YamlLib]; the derived deserialisation is not modelled. *)

From S2P Require Export WasmAbi Json Trim.
Local Open Scope string_scope.
Local Open Scope list_scope.
Local Open Scope Z_scope.

Class YamlLib := yaml_to_string : Json → result string string.

Inductive FailStrategy := FailOpen | FailClose.
#[export] Instance FailStrategy_eq_dec : EqDecision FailStrategy.
Proof. solve_decision. Defined.

Record WasmLimits := MkLimits {
  max_memory_pages : option Z;
  fuel_per_call : option Z;
  epoch_timeout_millis : option Z;
  max_body_bytes : option Z;
  max_pending_calls : option Z;
}.
Definition limits_default : WasmLimits := MkLimits None None None None None.

Record OciAuthConfig := MkOciAuth {
  oa_registry : option string;
  oa_username : option string;
  oa_password : option string;
  oa_bearer_token : option string;
  oa_identity_token : option string;
}.

Record WasmPluginShellConfig := MkShellConfig {
  url : string;
  oci_auth : option OciAuthConfig;
  sha256 : option string;
  cfg_module_cache_key : option string;
  use_cache : bool;
  plugin_config : Json;
  fail_strategy : FailStrategy;
  clusters : gmap string string;
  limits : WasmLimits;
  validate_on_create : bool;
  plugin_name : string;
  plugin_root_id : string;
  plugin_vm_id : string;
  vm_pool_size : Z;
  wait_vm_pool_size : Z;
}.

Definition default_use_cache : bool := true.
Definition default_vm_pool_size : Z := 1.
Definition default_vm_id : string := "default".
Definition default_validate : bool := false.
Definition shell_config_default : WasmPluginShellConfig :=
  MkShellConfig "" None None None default_use_cache JNull FailOpen ∅ limits_default false "" ""
    default_vm_id default_vm_pool_size 0.

Definition clamp (lo hi x : Z) : Z := Z.max lo (Z.min hi x).
Definition normalized_vm_pool_size (cfg : WasmPluginShellConfig) : Z := clamp 1 64 (vm_pool_size cfg).
Definition normalized_wait_vm_pool_size (cfg : WasmPluginShellConfig) : Z := Z.min (wait_vm_pool_size cfg) 64.
Definition max_memory_bytes (cfg : WasmPluginShellConfig) : option Z :=
  (λ pages, pages * 64 * 1024) <$> max_memory_pages (limits cfg).
Definition guest_fuel_per_call (cfg : WasmPluginShellConfig) : Z :=
  Z.max (default ((2 ^ 64 - 1) / 4) (fuel_per_call (limits cfg))) 1.
Definition DAY_MILLIS : Z := 24 * 60 * 60 * 1000.
Definition guest_epoch_deadline_ticks (cfg : WasmPluginShellConfig) : Z :=
  clamp 1 DAY_MILLIS (default DAY_MILLIS (epoch_timeout_millis (limits cfg))).

Definition json_is_null (v : Json) : bool := match v with JNull => true | _ => false end.
Definition configuration_bytes `{YamlLib} (cfg : WasmPluginShellConfig) : string :=
  if json_is_null (plugin_config cfg) then ""
  else default "" (result_ok (yaml_to_string (plugin_config cfg))).

Definition resolve_cluster (cfg : WasmPluginShellConfig) (cluster : string) : option string :=
  match clusters cfg !! cluster with
  | Some v => Some v
  | None =>
      match str_strip_prefix "outbound|" cluster with
      | Some rest =>
          match str_split_once_str "||" rest with
          | None => None
          | Some (port, host) =>
              let port := str_trim port in let host := str_trim host in
              if str_is_empty host || str_is_empty port then None
              else Some ("http://" +:+ host +:+ ":" +:+ port)
          end
      | None => None
      end
  end.

(** ** Bounds *)

(** Whatever the configuration asks for, a pool has between 1 and 64 virtual machines and the
    waiting pool at most 64, a call of the guest has at least one unit of fuel, and it is
    interrupted after at least one millisecond and at most a day. *)
Theorem limits_bounded cfg : 0 ≤ wait_vm_pool_size cfg →
  1 ≤ normalized_vm_pool_size cfg ≤ 64 ∧ 0 ≤ normalized_wait_vm_pool_size cfg ≤ 64 ∧
  1 ≤ guest_fuel_per_call cfg ∧ 1 ≤ guest_epoch_deadline_ticks cfg ≤ 86400000.
Proof.
  unfold normalized_vm_pool_size, normalized_wait_vm_pool_size, guest_fuel_per_call,
    guest_epoch_deadline_ticks, clamp, DAY_MILLIS. lia.
Qed.
