(* ===== verification/WasmState.v ===== *)
(** * WebAssembly host: the state of a virtual machine

    [crates/plugin-wasm/src/host_state.rs] and the functions of [host_fn.rs] that read and change
    it without touching the memory of the guest: headers, pseudo headers, bodies, properties.

    A field of [HostState] that belongs to the guest instance, the memory and its allocator, is
    in [WasmHost.Caller]. The HTTP client is the list of calls that were handed to it. *)

From S2P Require Export WasmConfig WasmShared Http.
From S2P Require Import RefHttp.
Local Open Scope string_scope.
Local Open Scope list_scope.
Local Open Scope Z_scope.

Definition ROOT_CONTEXT_ID : Z := 1.

Inductive ContextStage := StInit | StRequestHeaders | StRequestBody | StRequestTrailers
  | StResponseHeaders | StResponseBody | StResponseTrailers | StLog.
#[export] Instance ContextStage_eq_dec : EqDecision ContextStage.
Proof. solve_decision. Defined.

Record PseudoHeaders := MkPseudo { ps_method : string; ps_path : string; ps_authority : string; ps_scheme : string }.
Definition pseudo_default : PseudoHeaders := MkPseudo "" "" "" "".

(** [std::net::SocketAddr] and its [Display] *)
Record SocketAddr := MkSocketAddr { sa_ip : IpAddr; sa_port : Z }.
Definition socket_addr_string (a : SocketAddr) : string :=
  match sa_ip a with
  | V4 _ => ip_string (sa_ip a) +:+ ":" +:+ dec_string (sa_port a)
  | V6 _ => "[" +:+ ip_string (sa_ip a) +:+ "]:" +:+ dec_string (sa_port a)
  end.

(** [HeaderName::try_from] of a text, as the lower-case name, and [HeaderValue::from_bytes]. *)
Class HeaderLib `{HttpLib} := {
  header_name_of : string → option string;
  hv_from_bytes : string → option string;
}.

(** A colon is no character of a header name. *)
Class HeaderLibLaws `{HttpLib} (L : HeaderLib) : Prop :=
  header_name_colon s : starts_with s ":" = true → header_name_of s = None.

Section state.
Context `{HttpLib}.

Record LocalResponse := MkLocal { lr_status : Z; lr_headers : HeaderMap; lr_body : string }.
Record HttpCallResult := MkCallResult {
  hr_status : Z; hr_status_message : string; hr_headers : HeaderMap; hr_body : string }.

Record RequestContext := MkCtx {
  rc_parent_id : Z;
  rc_stage : ContextStage;
  rc_pseudo : PseudoHeaders;
  rc_request_headers : HeaderMap;
  rc_request_trailers : HeaderMap;
  rc_request_body : option string;
  rc_response_status : option Z;
  rc_response_status_message : string;
  rc_response_headers : HeaderMap;
  rc_response_trailers : HeaderMap;
  rc_response_body : option string;
  rc_last_headers : HeaderMap;
  rc_last_trailers : HeaderMap;
  rc_last_body : string;
  rc_last_status : Z;
  rc_last_status_message : string;
  rc_continue_requested : bool;
  rc_local_response : option LocalResponse;
  rc_request_protocol : string;
  rc_request_size : Z;
  rc_response_size : Z;
  rc_done_marker : bool;
  rc_awaiting_done : bool;
}.
Definition request_context_default : RequestContext :=
  MkCtx 0 StInit pseudo_default hm_empty hm_empty None None "" hm_empty hm_empty None
    hm_empty hm_empty "" 0 "" false None "" 0 0 false false.

(** A call that was handed to the HTTP client in a task of its own. *)
Record HttpCall := MkCall {
  hc_token : Z;
  hc_url : string;
  hc_method : string;
  hc_headers : list (string * string);
  hc_body : string;
  hc_timeout_ms : Z;
}.

Record HostState := MkHost {
  shell_cfg : WasmPluginShellConfig;
  configuration : string;
  root_context_id : Z;
  effective_context : Z;
  contexts : gmap Z RequestContext;
  tick_period : option Z;
  pending_calls : gmap Z Z;  (** the token, and the context that made the call *)
  next_token : Z;
  http_calls : list HttpCall;
  user_properties : gmap string string;
  source_addr : option SocketAddr;
  destination_addr : option SocketAddr;
  hs_plugin_name : string;
  hs_plugin_root_id : string;
  hs_plugin_vm_id : string;
}.

Definition host_state_new `{YamlLib} (cfg : WasmPluginShellConfig) : HostState :=
  MkHost cfg (configuration_bytes cfg) ROOT_CONTEXT_ID ROOT_CONTEXT_ID ∅ None ∅ 1 [] ∅ None None
    (plugin_name cfg) (plugin_root_id cfg) (plugin_vm_id cfg).

(** [HostResourceLimiter::memory_growing] *)
Definition memory_growing (cfg : WasmPluginShellConfig) (desired : Z) : bool :=
  match max_memory_bytes cfg with Some max => desired <=? max | None => true end.

(** Updates of one field *)
Definition upd_contexts f (s : HostState) : HostState :=
  MkHost (shell_cfg s) (configuration s) (root_context_id s) (effective_context s) (f (contexts s)) (tick_period s)
    (pending_calls s) (next_token s) (http_calls s) (user_properties s) (source_addr s) (destination_addr s)
    (hs_plugin_name s) (hs_plugin_root_id s) (hs_plugin_vm_id s).
Definition set_effective v (s : HostState) : HostState :=
  MkHost (shell_cfg s) (configuration s) (root_context_id s) v (contexts s) (tick_period s)
    (pending_calls s) (next_token s) (http_calls s) (user_properties s) (source_addr s) (destination_addr s)
    (hs_plugin_name s) (hs_plugin_root_id s) (hs_plugin_vm_id s).
Definition set_tick_period v (s : HostState) : HostState :=
  MkHost (shell_cfg s) (configuration s) (root_context_id s) (effective_context s) (contexts s) v
    (pending_calls s) (next_token s) (http_calls s) (user_properties s) (source_addr s) (destination_addr s)
    (hs_plugin_name s) (hs_plugin_root_id s) (hs_plugin_vm_id s).
Definition upd_pending f (s : HostState) : HostState :=
  MkHost (shell_cfg s) (configuration s) (root_context_id s) (effective_context s) (contexts s) (tick_period s)
    (f (pending_calls s)) (next_token s) (http_calls s) (user_properties s) (source_addr s) (destination_addr s)
    (hs_plugin_name s) (hs_plugin_root_id s) (hs_plugin_vm_id s).
Definition add_call c (s : HostState) : HostState :=
  MkHost (shell_cfg s) (configuration s) (root_context_id s) (effective_context s) (contexts s) (tick_period s)
    (pending_calls s) (next_token s) (http_calls s ++ [c]) (user_properties s) (source_addr s) (destination_addr s)
    (hs_plugin_name s) (hs_plugin_root_id s) (hs_plugin_vm_id s).
Definition upd_properties f (s : HostState) : HostState :=
  MkHost (shell_cfg s) (configuration s) (root_context_id s) (effective_context s) (contexts s) (tick_period s)
    (pending_calls s) (next_token s) (http_calls s) (f (user_properties s)) (source_addr s) (destination_addr s)
    (hs_plugin_name s) (hs_plugin_root_id s) (hs_plugin_vm_id s).

Definition current_context (s : HostState) : option RequestContext := contexts s !! effective_context s.
(** [contexts.get_mut(&id)], where the context exists *)
Definition upd_context (id : Z) (f : RequestContext → RequestContext) : HostState → HostState :=
  upd_contexts (alter f id).

Definition next_dispatch_token (s : HostState) : Z * HostState :=
  (next_token s,
   MkHost (shell_cfg s) (configuration s) (root_context_id s) (effective_context s) (contexts s) (tick_period s)
     (pending_calls s) (next_u32 (next_token s)) (http_calls s) (user_properties s) (source_addr s) (destination_addr s)
     (hs_plugin_name s) (hs_plugin_root_id s) (hs_plugin_vm_id s)).

(** Updates of a context *)
Definition ctx_set_pseudo v c := MkCtx (rc_parent_id c) (rc_stage c) v (rc_request_headers c) (rc_request_trailers c)
  (rc_request_body c) (rc_response_status c) (rc_response_status_message c) (rc_response_headers c) (rc_response_trailers c)
  (rc_response_body c) (rc_last_headers c) (rc_last_trailers c) (rc_last_body c) (rc_last_status c) (rc_last_status_message c)
  (rc_continue_requested c) (rc_local_response c) (rc_request_protocol c) (rc_request_size c) (rc_response_size c)
  (rc_done_marker c) (rc_awaiting_done c).
Definition ctx_set_maps rh rt sh st lh lt c := MkCtx (rc_parent_id c) (rc_stage c) (rc_pseudo c) rh rt
  (rc_request_body c) (rc_response_status c) (rc_response_status_message c) sh st
  (rc_response_body c) lh lt (rc_last_body c) (rc_last_status c) (rc_last_status_message c)
  (rc_continue_requested c) (rc_local_response c) (rc_request_protocol c) (rc_request_size c) (rc_response_size c)
  (rc_done_marker c) (rc_awaiting_done c).
Definition ctx_set_bodies qb sb c := MkCtx (rc_parent_id c) (rc_stage c) (rc_pseudo c) (rc_request_headers c) (rc_request_trailers c)
  qb (rc_response_status c) (rc_response_status_message c) (rc_response_headers c) (rc_response_trailers c)
  sb (rc_last_headers c) (rc_last_trailers c) (rc_last_body c) (rc_last_status c) (rc_last_status_message c)
  (rc_continue_requested c) (rc_local_response c) (rc_request_protocol c) (rc_request_size c) (rc_response_size c)
  (rc_done_marker c) (rc_awaiting_done c).
Definition ctx_set_response_status v c := MkCtx (rc_parent_id c) (rc_stage c) (rc_pseudo c) (rc_request_headers c) (rc_request_trailers c)
  (rc_request_body c) v (rc_response_status_message c) (rc_response_headers c) (rc_response_trailers c)
  (rc_response_body c) (rc_last_headers c) (rc_last_trailers c) (rc_last_body c) (rc_last_status c) (rc_last_status_message c)
  (rc_continue_requested c) (rc_local_response c) (rc_request_protocol c) (rc_request_size c) (rc_response_size c)
  (rc_done_marker c) (rc_awaiting_done c).
Definition ctx_set_continue v c := MkCtx (rc_parent_id c) (rc_stage c) (rc_pseudo c) (rc_request_headers c) (rc_request_trailers c)
  (rc_request_body c) (rc_response_status c) (rc_response_status_message c) (rc_response_headers c) (rc_response_trailers c)
  (rc_response_body c) (rc_last_headers c) (rc_last_trailers c) (rc_last_body c) (rc_last_status c) (rc_last_status_message c)
  v (rc_local_response c) (rc_request_protocol c) (rc_request_size c) (rc_response_size c)
  (rc_done_marker c) (rc_awaiting_done c).
Definition ctx_set_local v c := MkCtx (rc_parent_id c) (rc_stage c) (rc_pseudo c) (rc_request_headers c) (rc_request_trailers c)
  (rc_request_body c) (rc_response_status c) (rc_response_status_message c) (rc_response_headers c) (rc_response_trailers c)
  (rc_response_body c) (rc_last_headers c) (rc_last_trailers c) (rc_last_body c) (rc_last_status c) (rc_last_status_message c)
  (rc_continue_requested c) v (rc_request_protocol c) (rc_request_size c) (rc_response_size c)
  (rc_done_marker c) (rc_awaiting_done c).
Definition ctx_set_done d a c := MkCtx (rc_parent_id c) (rc_stage c) (rc_pseudo c) (rc_request_headers c) (rc_request_trailers c)
  (rc_request_body c) (rc_response_status c) (rc_response_status_message c) (rc_response_headers c) (rc_response_trailers c)
  (rc_response_body c) (rc_last_headers c) (rc_last_trailers c) (rc_last_body c) (rc_last_status c) (rc_last_status_message c)
  (rc_continue_requested c) (rc_local_response c) (rc_request_protocol c) (rc_request_size c) (rc_response_size c) d a.
Definition ctx_set_stage v c := MkCtx (rc_parent_id c) v (rc_pseudo c) (rc_request_headers c) (rc_request_trailers c)
  (rc_request_body c) (rc_response_status c) (rc_response_status_message c) (rc_response_headers c) (rc_response_trailers c)
  (rc_response_body c) (rc_last_headers c) (rc_last_trailers c) (rc_last_body c) (rc_last_status c) (rc_last_status_message c)
  (rc_continue_requested c) (rc_local_response c) (rc_request_protocol c) (rc_request_size c) (rc_response_size c)
  (rc_done_marker c) (rc_awaiting_done c).

(** ** Buffers *)

Definition read_buffer (s : HostState) (t : BufferType) : option string :=
  match t with
  | PluginConfiguration | VmConfiguration => Some (configuration s)
  | HttpRequestBody => c ← current_context s; rc_request_body c
  | HttpResponseBody => c ← current_context s; rc_response_body c
  | HttpCallResponseBody => rc_last_body <$> current_context s
  | DownstreamData | UpstreamData | GrpcCallMessage | ForeignFunctionArguments => None
  end.

Definition splice_buffer (cur : string) (start size : Z) (replacement : string) : string :=
  let start := Z.min start (str_len cur) in
  let size := Z.min size (Z.max 0 (str_len cur - start)) in
  str_take (Z.to_nat start) cur +:+ replacement +:+ str_drop (Z.to_nat (start + size)) cur.

(** ** Headers *)

Context `{!HeaderLib}.

Definition map_of (mt : MapType) (c : RequestContext) : option HeaderMap :=
  match mt with
  | HttpRequestHeaders => Some (rc_request_headers c)
  | HttpRequestTrailers => Some (rc_request_trailers c)
  | HttpResponseHeaders => Some (rc_response_headers c)
  | HttpResponseTrailers => Some (rc_response_trailers c)
  | HttpCallResponseHeaders => Some (rc_last_headers c)
  | HttpCallResponseTrailers => Some (rc_last_trailers c)
  | GrpcCallInitialMetadata | GrpcCallTrailingMetadata => None
  end.
Definition set_map (mt : MapType) (m : HeaderMap) (c : RequestContext) : RequestContext :=
  let set rh rt sh st lh lt := ctx_set_maps rh rt sh st lh lt c in
  let rh := rc_request_headers c in let rt := rc_request_trailers c in
  let sh := rc_response_headers c in let st := rc_response_trailers c in
  let lh := rc_last_headers c in let lt := rc_last_trailers c in
  match mt with
  | HttpRequestHeaders => set m rt sh st lh lt
  | HttpRequestTrailers => set rh m sh st lh lt
  | HttpResponseHeaders => set rh rt m st lh lt
  | HttpResponseTrailers => set rh rt sh m lh lt
  | HttpCallResponseHeaders => set rh rt sh st m lt
  | HttpCallResponseTrailers => set rh rt sh st lh m
  | GrpcCallInitialMetadata | GrpcCallTrailingMetadata => c
  end.

Definition pseudo_lookup (c : RequestContext) (mt : MapType) (key : string) : option string :=
  match mt with
  | HttpRequestHeaders =>
      if bool_decide (key = ":method") then Some (ps_method (rc_pseudo c))
      else if bool_decide (key = ":path") then Some (ps_path (rc_pseudo c))
      else if bool_decide (key = ":authority") then Some (ps_authority (rc_pseudo c))
      else if bool_decide (key = ":scheme") then Some (ps_scheme (rc_pseudo c)) else None
  | HttpResponseHeaders => if bool_decide (key = ":status") then dec_string <$> rc_response_status c else None
  | HttpCallResponseHeaders =>
      if bool_decide (key = ":status") && (0 <? rc_last_status c) then Some (dec_string (rc_last_status c)) else None
  | _ => None
  end.

Definition lookup_header (s : HostState) (mt : MapType) (key_lower : string) : option string :=
  c ← current_context s; map ← map_of mt c;
  match pseudo_lookup c mt key_lower with
  | Some value => Some value
  | None => name ← header_name_of key_lower; val ← hm_get map name; hv_to_str val
  end.

Inductive HeaderMutation := MutAdd (v : string) | MutReplace (v : string) | MutRemove.
Definition mutation_value (m : HeaderMutation) : option string :=
  match m with MutAdd v | MutReplace v => Some v | MutRemove => None end.

Definition mutate_pseudo (mt : MapType) (key : string) (new_val : option string) (c : RequestContext) : RequestContext :=
  let p := rc_pseudo c in let v := default "" new_val in
  match mt with
  | HttpRequestHeaders =>
      if bool_decide (key = ":path") then ctx_set_pseudo (MkPseudo (ps_method p) v (ps_authority p) (ps_scheme p)) c
      else if bool_decide (key = ":method") then ctx_set_pseudo (MkPseudo v (ps_path p) (ps_authority p) (ps_scheme p)) c
      else if bool_decide (key = ":authority") then ctx_set_pseudo (MkPseudo (ps_method p) (ps_path p) v (ps_scheme p)) c
      else if bool_decide (key = ":scheme") then ctx_set_pseudo (MkPseudo (ps_method p) (ps_path p) (ps_authority p) v) c
      else c
  | HttpResponseHeaders =>
      match new_val with
      | Some v => if bool_decide (key = ":status") then ctx_set_response_status (parse_unsigned 16 v) c else c
      | None => c
      end
  | _ => c
  end.

Definition mutate_map (m : HeaderMutation) (name : string) (map : HeaderMap) : HeaderMap :=
  match m with
  | MutAdd v => match hv_from_bytes v with Some val => hm_append name val map | None => map end
  | MutReplace v => match hv_from_bytes v with Some val => hm_insert name val map | None => map end
  | MutRemove => hm_remove name map
  end.

Definition is_grpc (mt : MapType) : bool :=
  match mt with GrpcCallInitialMetadata | GrpcCallTrailingMetadata => true | _ => false end.

Definition mutate_header (mt : MapType) (key : string) (m : HeaderMutation) (s : HostState) : Status * HostState :=
  if is_grpc mt then (Unimplemented, s)
  else
    let ctx_id := effective_context s in
    match contexts s !! ctx_id with
    | None => (NotFound, s)
    | Some c =>
        if starts_with key ":" then (SOk, upd_context ctx_id (mutate_pseudo mt key (mutation_value m)) s)
        else
          match header_name_of key with
          | None => (BadArgument, s)
          | Some name =>
              match map_of mt c with
              | None => (Unimplemented, s)
              | Some map => (SOk, upd_context ctx_id (set_map mt (mutate_map m name map)) s)
              end
          end
    end.

Definition pseudo_pairs (mt : MapType) (c : RequestContext) : Pairs :=
  let p := rc_pseudo c in
  let entry k v := if str_is_empty v then [] else [(k, v)] in
  match mt with
  | HttpRequestHeaders =>
      entry ":method" (ps_method p) ++ entry ":path" (ps_path p) ++
      entry ":authority" (ps_authority p) ++ entry ":scheme" (ps_scheme p)
  | HttpResponseHeaders => match rc_response_status c with Some s => [(":status", dec_string s)] | None => [] end
  | HttpCallResponseHeaders => if 0 <? rc_last_status c then [(":status", dec_string (rc_last_status c))] else []
  | _ => []
  end.
Definition collect_pairs (s : HostState) (mt : MapType) : Pairs :=
  match current_context s with
  | None => []
  | Some c => match map_of mt c with None => [] | Some map => pseudo_pairs mt c ++ hm_iter map end
  end.

Definition pairs_to_header_map (pairs : Pairs) : HeaderMap :=
  foldl (λ out kv,
    match header_name_of kv.1 with
    | None => out
    | Some key => match hv_from_bytes kv.2 with None => out | Some val => hm_append key val out end
    end) hm_empty pairs.

Definition replace_map (mt : MapType) (new_map : HeaderMap) (s : HostState) : HostState :=
  upd_context (effective_context s)
    (match mt with
     | HttpRequestHeaders | HttpRequestTrailers | HttpResponseHeaders | HttpResponseTrailers => set_map mt new_map
     | _ => id
     end) s.

(** ** Properties *)

Definition canonicalize_path (segments : list string) : string := str_join NUL segments.

Definition approx_header_bytes (map : HeaderMap) : Z :=
  foldl (λ sum kv, sum + (str_len kv.1 + 2 + str_len kv.2 + 2)) 0 (hm_iter map).

Definition resolve_well_known (s : HostState) (segments : list string) : option string :=
  let joined := str_join "." (List.filter utf8_valid segments) in
  let ctx := current_context s in
  let nonempty o := (o : option string) ≫= λ b, if str_is_empty b then None else Some b in
  if bool_decide (joined = "plugin_name") then Some (hs_plugin_name s)
  else if bool_decide (joined = "plugin_root_id") then Some (hs_plugin_root_id s)
  else if bool_decide (joined = "plugin_vm_id") then Some (hs_plugin_vm_id s)
  else if bool_decide (joined = "source.address") then
    opt_or (socket_addr_string <$> source_addr s) (nonempty ((λ c, ps_authority (rc_pseudo c)) <$> ctx))
  else if bool_decide (joined = "source.port") then (λ a, dec_string (sa_port a)) <$> source_addr s
  else if bool_decide (joined = "destination.address") then socket_addr_string <$> destination_addr s
  else if bool_decide (joined = "destination.port") then (λ a, dec_string (sa_port a)) <$> destination_addr s
  else if bool_decide (joined = "request.protocol") then nonempty (rc_request_protocol <$> ctx)
  else if bool_decide (joined = "request.size") then (λ c, dec_string (rc_request_size c)) <$> ctx
  else if bool_decide (joined = "request.total_size") then
    (λ c, dec_string (uwrap 64 (rc_request_size c + approx_header_bytes (rc_request_headers c)))) <$> ctx
  else if bool_decide (joined = "response.size") then (λ c, dec_string (rc_response_size c)) <$> ctx
  else if bool_decide (joined = "response.total_size") then
    (λ c, dec_string (uwrap 64 (rc_response_size c + approx_header_bytes (rc_response_headers c)))) <$> ctx
  else None.

(** The value of a property: what the guest wrote is preferred. *)
Definition get_property (s : HostState) (segments : list string) : option string :=
  match user_properties s !! canonicalize_path segments with
  | Some v => Some v
  | None => resolve_well_known s segments
  end.
End state.

(** ** Theory *)

(** [canonicalize_path] undoes the splitting of a path, up to one zero byte at its end. *)
Lemma canonical_path bytes : canonicalize_path (decode_property_path bytes) =
  default bytes (str_strip_suffix (String NUL "") bytes).
Proof.
  unfold canonicalize_path, decode_property_path. case_match eqn:E.
  - apply str_is_empty_true in E. by rewrite E.
  - apply str_join_split.
Qed.

Lemma splice_whole cur replacement : splice_buffer cur 0 (str_len cur) replacement = replacement.
Proof.
  unfold splice_buffer. pose proof (str_len_nonneg cur). rewrite Z.min_l by lia.
  rewrite Z.sub_0_r, Z.max_r, Z.min_id, Z.add_0_l by lia. unfold str_len. rewrite Nat2Z.id.
  change (Z.to_nat 0) with 0%nat. replace (str_take 0 cur) with "" by (by destruct cur).
  assert (str_drop (String.length cur) cur = "") as ->; [|by rewrite str_app_nil_r].
  rewrite <- (str_app_nil_r cur) at 2. apply str_drop_app.
Qed.
Lemma splice_prepend cur replacement : splice_buffer cur 0 0 replacement = replacement +:+ cur.
Proof.
  unfold splice_buffer. pose proof (str_len_nonneg cur). rewrite Z.min_l by lia. rewrite Z.min_l by lia.
  change (Z.to_nat (0 + 0)) with 0%nat. by destruct cur.
Qed.

Section theory.
Context `{HttpLib} `{!HeaderLib} `{!HttpLaws _}.

Lemma upd_context_eq id f (s : HostState) c : contexts s !! id = Some c → contexts (upd_context id f s) !! id = Some (f c).
Proof. intros Hc. unfold upd_context. simpl. by rewrite lookup_alter_eq, Hc. Qed.
Lemma upd_context_ne id id' f (s : HostState) : id ≠ id' → contexts (upd_context id f s) !! id' = contexts s !! id'.
Proof. intros. unfold upd_context. simpl. by rewrite lookup_alter_ne. Qed.

Lemma map_of_set mt m c map : map_of mt c = Some map → map_of mt (set_map mt m c) = Some m.
Proof. by destruct mt. Qed.

(** A header that was set is read back: for a name that is not a pseudo header. *)
Lemma replace_then_lookup s mt key name v c val :
  is_grpc mt = false → starts_with key ":" = false → header_name_of key = Some name →
  current_context s = Some c → hv_from_bytes v = Some val →
  let '(st, s') := mutate_header mt key (MutReplace v) s in
  st = SOk ∧ lookup_header s' mt key = hv_to_str val.
Proof.
  intros Hg Hk Hn Hc Hv. unfold mutate_header, current_context in *. rewrite Hg, Hc, Hk, Hn.
  destruct (map_of mt c) as [m|] eqn:Hm; [|by destruct mt].
  split; [done|]. unfold lookup_header, current_context. simpl. rewrite lookup_alter_eq, Hc. simpl.
  rewrite (map_of_set _ _ _ _ Hm). simpl. rewrite Hv.
  assert (∀ c', pseudo_lookup c' mt key = None) as ->.
  { intros c'. destruct mt; simpl; try done;
      repeat (case_bool_decide; subst; simpl; try done). }
  rewrite Hn. simpl. by rewrite hm_get_insert_eq.
Qed.
End theory.

(** ** A reference instance *)

#[export] Instance ref_header_lib : HeaderLib (H:=ref_http) := {|
  header_name_of s := if str_is_empty s || starts_with s ":" then None else Some (to_ascii_lowercase s);
  hv_from_bytes := Some;
|}.
#[export] Instance ref_header_laws : HeaderLibLaws ref_header_lib.
Proof. intros s Hs. simpl. by rewrite Hs, orb_true_r. Qed.
