(* ===== verification/WasmHost.v ===== *)
(** * WebAssembly host: the host functions

    The functions that [crates/plugin-wasm/src/host_fn.rs] registers under the module [env], and
    the WASI functions of [vm.rs]. A guest calls them with 32-bit numbers, most of them positions
    in its memory, and gets a status.

    [Caller] is what a call sees: the memory and the allocator the guest exports, the state of its
    virtual machine, and the state that all virtual machines share. The allocator is guest code:
    it gets a size and the memory, and gives a position and the memory, or traps. *)

From S2P Require Export WasmState.
From S2P Require Import RefHttp.
Local Open Scope string_scope.
Local Open Scope list_scope.
Local Open Scope Z_scope.

(** What the host takes from its environment: the log levels that are on, the clocks, in
    nanoseconds, the random bytes of the operating system, and the parser of request methods. *)
Class HostEnv := {
  enabled : Level → bool;
  system_nanos : option Z;
  instant_nanos : Z;
  getrandom : Z → option string;
  method_parse : string → option string;
}.

Section host.
Context `{HttpLib} `{!HeaderLib} `{!HostEnv}.

(** The state of the process: [shared.rs], and the log. *)
Record Shared := MkShared {
  sh_data : SharedData; sh_queues : SharedQueueRegistry; sh_metrics : MetricRegistry;
  sh_log : list (Level * string) }.

Record Caller := MkCaller {
  cl_mem : option string;
  cl_alloc : option (Z → string → option (Z * string));
  cl_host : HostState;
  cl_shared : Shared;
}.
Definition set_mem m (c : Caller) : Caller := MkCaller (Some m) (cl_alloc c) (cl_host c) (cl_shared c).
Definition set_host h (c : Caller) : Caller := MkCaller (cl_mem c) (cl_alloc c) h (cl_shared c).
Definition set_shared s (c : Caller) : Caller := MkCaller (cl_mem c) (cl_alloc c) (cl_host c) s.

(** ** A monad: the state, and the early return of a status *)

Definition HostM (A : Type) : Type := Caller → result A Status * Caller.
Definition hret {A} (a : A) : HostM A := λ c, (Ok a, c).
Definition hfail {A} (s : Status) : HostM A := λ c, (Err s, c).
Definition hbind {A B} (m : HostM A) (k : A → HostM B) : HostM B := λ c,
  match m c with (Ok a, c') => k a c' | (Err s, c') => (Err s, c') end.
Notation "x '<~' m ';;' k" := (hbind m (λ x, k)) (at level 100, m at next level, right associativity).
Notation "m ';;;' k" := (hbind m (λ _, k)) (at level 100, right associativity).

(** The status a host function returns. *)
Definition hostcall (m : HostM unit) (c : Caller) : Z * Caller :=
  match m c with (Ok _, c') => (status_i32 SOk, c') | (Err s, c') => (status_i32 s, c') end.

Definition u32 (x : Z) : Z := uwrap 32 x.
Definition state : HostM HostState := λ c, (Ok (cl_host c), c).
Definition put (h : HostState) : HostM unit := λ c, (Ok tt, set_host h c).
Definition shared : HostM Shared := λ c, (Ok (cl_shared c), c).
Definition put_shared (s : Shared) : HostM unit := λ c, (Ok tt, set_shared s c).
Definition or_fail {A} (s : Status) (o : option A) : HostM A :=
  match o with Some a => hret a | None => hfail s end.
Definition status_of (s : Status) : HostM unit := if decide (s = SOk) then hret tt else hfail s.

(** [MemoryHelper::from_caller], reads and writes; every error is [InvalidMemoryAccess]. *)
Definition from_caller : HostM string := λ c,
  match cl_mem c with Some m => (Ok m, c) | None => (Err InvalidMemoryAccess, c) end.
Definition read (ptr len : Z) : HostM string :=
  mem <~ from_caller;; or_fail InvalidMemoryAccess (result_ok (read_bytes mem (u32 ptr) (u32 len))).
Definition read_string (ptr len : Z) : HostM string :=
  mem <~ from_caller;; or_fail InvalidMemoryAccess (result_ok (read_string_lossy mem (u32 ptr) (u32 len))).
Definition update_mem (f : string → result string WasmHostError) : HostM unit :=
  mem <~ from_caller;;
  match f mem with Ok mem' => λ c, (Ok tt, set_mem mem' c) | Err _ => hfail InvalidMemoryAccess end.
Definition write_u32_at (ptr v : Z) : HostM unit := update_mem (λ mem, write_u32 mem (u32 ptr) v).
Definition write_u64_at (ptr v : Z) : HostM unit := update_mem (λ mem, write_u64 mem (u32 ptr) v).
(** [if size > 0 { read } else { Vec::new() }] *)
Definition read_opt (ptr size : Z) : HostM string := if 0 <? size then read ptr size else hret "".

(** A call of the guest's allocator. *)
Definition call_alloc (len : Z) : HostM Z := λ c,
  match cl_alloc c with
  | None => (Err InternalFailure, c)
  | Some alloc =>
      match alloc len (default "" (cl_mem c)) with
      | None => (Err InternalFailure, c)
      | Some (ptr, mem) => (Ok ptr, set_mem mem c)
      end
  end.

Definition write_alloc_pair (payload : string) (return_data_ptr return_size_ptr : Z) : HostM unit :=
  _ <~ from_caller;;
  if str_is_empty payload then
    write_u32_at return_data_ptr 0;;; write_u32_at return_size_ptr 0
  else
    guest_ptr <~ call_alloc (u32 (str_len payload));;
    update_mem (λ mem, write_bytes mem guest_ptr payload);;;
    write_u32_at return_data_ptr guest_ptr;;;
    write_u32_at return_size_ptr (u32 (str_len payload)).

(** [decode_pairs] does not panic ([WasmAbi.decode_pairs_total]). *)
Definition decode_pairs' (raw : string) : option Pairs := default None (decode_pairs raw).

(** ** Logging, clocks, contexts *)

Definition proxy_log (level msg_ptr msg_size : Z) : HostM unit :=
  msg <~ read_string msg_ptr msg_size;;
  lvl <~ or_fail BadArgument (log_level_to_tracing level);;
  s <~ shared;;
  put_shared (MkShared (sh_data s) (sh_queues s) (sh_metrics s) (sh_log s ++ [(lvl, msg)])).
Definition proxy_get_log_level (return_ptr : Z) : HostM unit :=
  write_u32_at return_ptr (host_max_log_level enabled).
Definition proxy_get_current_time_nanoseconds (return_ptr : Z) : HostM unit :=
  write_u64_at return_ptr (default 0 (uwrap 64 <$> system_nanos)).
Definition proxy_set_tick_period_milliseconds (period : Z) : HostM unit :=
  st <~ state;; put (set_tick_period (if 0 <? period then Some period else None) st).

Definition proxy_set_effective_context (ctx_id : Z) : HostM unit :=
  st <~ state;;
  let cid := u32 ctx_id in
  if bool_decide (is_Some (contexts st !! cid)) || (cid =? root_context_id st)
  then put (set_effective cid st) else hfail BadArgument.

Definition proxy_done : HostM unit :=
  st <~ state;;
  let cid := effective_context st in
  match contexts st !! cid with
  | Some ctx => if negb (rc_awaiting_done ctx) then hfail NotFound
                else put (upd_context cid (ctx_set_done true false) st)
  | None => hfail NotFound
  end.

(** ** Streams *)

Definition proxy_continue_stream (stream_type : Z) : HostM unit :=
  kind <~ or_fail BadArgument (stream_type_from_i32 stream_type);;
  match kind with
  | HttpRequestStream | HttpResponseStream =>
      st <~ state;; put (upd_context (effective_context st) (ctx_set_continue true) st)
  | DownstreamStream | UpstreamStream => hfail Unimplemented
  end.
Definition proxy_close_stream (stream_type : Z) : HostM unit :=
  match stream_type_from_i32 stream_type with
  | Some (HttpRequestStream | HttpResponseStream) => hret tt
  | Some (DownstreamStream | UpstreamStream) => hfail Unimplemented
  | None => hfail BadArgument
  end.

(** ** Buffers *)

Definition proxy_get_buffer_bytes (buffer_type start max_size return_data_ptr return_size_ptr : Z) : HostM unit :=
  t <~ or_fail BadArgument (buffer_type_from_i32 buffer_type);;
  st <~ state;;
  bytes <~ or_fail NotFound (read_buffer st t);;
  let start := u32 start in let max_size := u32 max_size in
  if str_len bytes <? start then hfail BadArgument
  else
    let fin := Z.min (start + max_size) (str_len bytes) in
    write_alloc_pair (default "" (str_slice bytes start fin)) return_data_ptr return_size_ptr.

Definition proxy_get_buffer_status (buffer_type return_size_ptr return_unused_ptr : Z) : HostM unit :=
  t <~ or_fail BadArgument (buffer_type_from_i32 buffer_type);;
  st <~ state;;
  b <~ or_fail NotFound (read_buffer st t);;
  write_u32_at return_size_ptr (u32 (str_len b));;;
  λ c, (Ok tt, (write_u32_at return_unused_ptr 0 c).2).

Definition proxy_set_buffer_bytes (buffer_type start size data_ptr data_size : Z) : HostM unit :=
  t <~ or_fail BadArgument (buffer_type_from_i32 buffer_type);;
  new_bytes <~ read data_ptr data_size;;
  st <~ state;;
  let ctx_id := effective_context st in
  ctx <~ or_fail NotFound (contexts st !! ctx_id);;
  match t with
  | HttpRequestBody =>
      let cur := default "" (rc_request_body ctx) in
      put (upd_context ctx_id
        (ctx_set_bodies (Some (splice_buffer cur (u32 start) (u32 size) new_bytes)) (rc_response_body ctx)) st)
  | HttpResponseBody =>
      let cur := default "" (rc_response_body ctx) in
      put (upd_context ctx_id
        (ctx_set_bodies (rc_request_body ctx) (Some (splice_buffer cur (u32 start) (u32 size) new_bytes))) st)
  | _ => hfail BadArgument
  end.

(** ** Headers *)

Definition proxy_get_header_map_size (map_type return_size_ptr : Z) : HostM unit :=
  mt <~ or_fail BadArgument (map_type_from_i32 map_type);;
  st <~ state;;
  write_u32_at return_size_ptr (u32 (str_len (encode_pairs (collect_pairs st mt)))).
Definition proxy_get_header_map_pairs (map_type return_data_ptr return_size_ptr : Z) : HostM unit :=
  mt <~ or_fail BadArgument (map_type_from_i32 map_type);;
  st <~ state;;
  write_alloc_pair (encode_pairs (collect_pairs st mt)) return_data_ptr return_size_ptr.
Definition proxy_set_header_map_pairs (map_type data_ptr data_size : Z) : HostM unit :=
  mt <~ or_fail BadArgument (map_type_from_i32 map_type);;
  raw <~ read data_ptr data_size;;
  pairs <~ or_fail SerializationFailure (decode_pairs' raw);;
  st <~ state;;
  put (replace_map mt (pairs_to_header_map pairs) st).
Definition proxy_get_header_map_value (map_type key_ptr key_size return_data_ptr return_size_ptr : Z) : HostM unit :=
  mt <~ or_fail BadArgument (map_type_from_i32 map_type);;
  key <~ read_string key_ptr key_size;;
  st <~ state;;
  value <~ or_fail NotFound (lookup_header st mt (to_ascii_lowercase key));;
  write_alloc_pair value return_data_ptr return_size_ptr.

Definition mutate (mt : MapType) (key : string) (m : HeaderMutation) : HostM unit :=
  st <~ state;;
  let '(status, st') := mutate_header mt key m st in
  put st';;; status_of status.
Definition set_header_with (f : string → HeaderMutation) (map_type key_ptr key_size value_ptr value_size : Z) : HostM unit :=
  mt <~ or_fail BadArgument (map_type_from_i32 map_type);;
  key <~ read_string key_ptr key_size;;
  value <~ read_string value_ptr value_size;;
  mutate mt key (f value).
Definition proxy_add_header_map_value : Z → Z → Z → Z → Z → HostM unit := set_header_with MutAdd.
Definition proxy_replace_header_map_value : Z → Z → Z → Z → Z → HostM unit := set_header_with MutReplace.
Definition proxy_remove_header_map_value (map_type key_ptr key_size : Z) : HostM unit :=
  mt <~ or_fail BadArgument (map_type_from_i32 map_type);;
  key <~ read_string key_ptr key_size;;
  mutate mt key MutRemove.

(** ** Status and local response *)

Definition proxy_get_status (status_code_ptr msg_data_ptr msg_size_ptr : Z) : HostM unit :=
  st <~ state;;
  let '(code, msg) :=
    match current_context st with
    | Some c =>
        if 0 <? rc_last_status c then (rc_last_status c, rc_last_status_message c)
        else match rc_response_status c with
             | Some rs => (rs, rc_response_status_message c)
             | None => (0, "")
             end
    | None => (0, "")
    end in
  write_u32_at status_code_ptr code;;;
  write_alloc_pair msg msg_data_ptr msg_size_ptr.

(** The effect of [proxy_send_local_response] on the state: [status as u16] *)
Definition send_local (status : Z) (headers : Pairs) (body : string) (st : HostState) : HostState :=
  upd_context (effective_context st)
    (ctx_set_local (Some (MkLocal (uwrap 16 status) (pairs_to_header_map headers) body))) st.
Definition proxy_send_local_response (status body_data body_size headers_data headers_size : Z) : HostM unit :=
  _ <~ from_caller;;
  body <~ read_opt body_data body_size;;
  headers_bytes <~ read_opt headers_data headers_size;;
  let pairs := default [] (decode_pairs' headers_bytes) in
  st <~ state;; put (send_local status pairs body st).

(** ** HTTP calls *)

Record Outgoing := MkOutgoing { og_method : string; og_path : string; og_authority : string; og_others : Pairs }.
Definition outgoing (pairs : Pairs) : Outgoing :=
  foldl (λ o kv,
    let key := from_utf8_lossy kv.1 in let val := from_utf8_lossy kv.2 in
    if bool_decide (key = ":method") then MkOutgoing val (og_path o) (og_authority o) (og_others o)
    else if bool_decide (key = ":path") then MkOutgoing (og_method o) val (og_authority o) (og_others o)
    else if bool_decide (key = ":authority") then MkOutgoing (og_method o) (og_path o) val (og_others o)
    else if bool_decide (key = ":scheme") then o
    else MkOutgoing (og_method o) (og_path o) (og_authority o) (og_others o ++ [(key, val)]))
    (MkOutgoing "GET" "/" "" []) pairs.

(** The headers the task puts on its request. *)
Definition call_headers (others : Pairs) : list (string * string) :=
  omap (λ kv, if starts_with kv.1 ":" then None
              else name ← header_name_of kv.1; val ← hv_from_bytes kv.2; Some (name, val)) others.

(** From the decoded arguments on: the token, or the status of a refusal. *)
Definition dispatch_call (cluster : string) (pairs : Pairs) (body : string) (timeout_ms : Z) (st : HostState)
    : result Z Status * HostState :=
  let o := outgoing pairs in
  if str_is_empty (og_method o) || str_is_empty (og_path o) then (Err BadArgument, st)
  else
    let base := opt_or (resolve_cluster (shell_cfg st) cluster)
                  (if str_is_empty (og_authority o) then None else Some ("http://" +:+ og_authority o)) in
    match base with
    | None => (Err BadArgument, st)
    | Some base =>
        let full := match max_pending_calls (limits (shell_cfg st)) with
                    | Some limit => limit <=? Z.of_nat (size (pending_calls st))
                    | None => false
                    end in
        if full then (Err InternalFailure, st)
        else
          let url := trim_end_matches "/" base +:+ og_path o in
          let '(token, st) := next_dispatch_token st in
          let st := upd_pending <[token := effective_context st]> st in
          let call := MkCall token url (default "GET" (method_parse (og_method o))) (call_headers (og_others o)) body
                        (Z.max timeout_ms 1) in
          (Ok token, add_call call st)
    end.

Definition recover {A} (d : A) (m : HostM A) : HostM A := λ c,
  match m c with (Ok a, c') => (Ok a, c') | (Err _, c') => (Ok d, c') end.
Definition proxy_http_call (upstream_data upstream_size headers_data headers_size body_data body_size timeout_ms
    return_token_ptr : Z) : HostM unit :=
  cluster <~ read_string upstream_data upstream_size;;
  headers_bytes <~ recover "" (read headers_data headers_size);;
  st <~ state;;
  body <~ (if 0 <? body_size then
             match max_body_bytes (limits (shell_cfg st)) with
             | Some limit => if limit <? body_size then hfail BadArgument else recover "" (read body_data body_size)
             | None => recover "" (read body_data body_size)
             end
           else hret "");;
  pairs <~ or_fail SerializationFailure (decode_pairs' headers_bytes);;
  st <~ state;;
  let '(r, st') := dispatch_call cluster pairs body timeout_ms st in
  match r with
  | Err s => hfail s
  | Ok token => put st';;; write_u32_at return_token_ptr token
  end.

(** What the task makes of the client's answer: an error, or the status with its canonical reason,
    the headers and the body. *)
Record Answer := MkAnswer { an_status : Z; an_reason : string; an_headers : HeaderMap; an_body : result string string }.
Definition call_result (max_body : option Z) (answer : result Answer string) : HttpCallResult :=
  match answer with
  | Ok a =>
      let body := default "" (result_ok (an_body a)) in
      let ok := MkCallResult (an_status a) (an_reason a) (pairs_to_header_map (hm_iter (an_headers a))) body in
      match max_body with
      | Some limit =>
          if limit <? str_len body then
            MkCallResult 0 ("dispatch_http_call response body too large: " +:+ z_string (str_len body) +:+ " > " +:+
              z_string limit) hm_empty ""
          else ok
      | None => ok
      end
  | Err e => MkCallResult 0 e hm_empty ""
  end.

(** ** Shared data and queues *)

Definition with_queues (s : Shared) q : Shared := MkShared (sh_data s) q (sh_metrics s) (sh_log s).
Definition with_metrics (s : Shared) m : Shared := MkShared (sh_data s) (sh_queues s) m (sh_log s).

Definition proxy_get_shared_data (k_ptr k_size v_data_ptr v_size_ptr cas_ptr : Z) : HostM unit :=
  key <~ read k_ptr k_size;;
  s <~ shared;;
  e <~ or_fail NotFound (shared_data_get key (sh_data s));;
  write_alloc_pair e.1 v_data_ptr v_size_ptr;;;
  write_u32_at cas_ptr e.2.
Definition proxy_set_shared_data (k_ptr k_size v_ptr v_size cas : Z) : HostM unit :=
  key <~ read k_ptr k_size;;
  value <~ read_opt v_ptr v_size;;
  s <~ shared;;
  let '(r, data) := shared_data_set key value (u32 cas) (sh_data s) in
  put_shared (MkShared data (sh_queues s) (sh_metrics s) (sh_log s));;;
  match r with SetOk => hret tt | SetCasMismatch => hfail CasMismatch end.

Definition proxy_register_shared_queue (n_ptr n_size return_qid_ptr : Z) : HostM unit :=
  name <~ read_string n_ptr n_size;;
  st <~ state;; s <~ shared;;
  let '(qid, q) := queue_register (hs_plugin_vm_id st) name (sh_queues s) in
  put_shared (with_queues s q);;; write_u32_at return_qid_ptr qid.
Definition proxy_resolve_shared_queue (vid_ptr vid_size n_ptr n_size return_qid_ptr : Z) : HostM unit :=
  vid <~ read_string vid_ptr vid_size;;
  name <~ read_string n_ptr n_size;;
  s <~ shared;;
  qid <~ or_fail NotFound (queue_resolve vid name (sh_queues s));;
  write_u32_at return_qid_ptr qid.
Definition queue_status (r : QueueOpResult) : Status :=
  match r with QOk => SOk | QNotFound => NotFound | QEmpty => SEmpty end.
Definition proxy_enqueue_shared_queue (qid v_ptr v_size : Z) : HostM unit :=
  _ <~ from_caller;;
  bytes <~ read_opt v_ptr v_size;;
  s <~ shared;;
  let '(r, q) := queue_enqueue (u32 qid) bytes (sh_queues s) in
  put_shared (with_queues s q);;; status_of (queue_status r).
Definition proxy_dequeue_shared_queue (qid v_data_ptr v_size_ptr : Z) : HostM unit :=
  s <~ shared;;
  let '(r, v, q) := queue_dequeue (u32 qid) (sh_queues s) in
  put_shared (with_queues s q);;;
  match r, v with
  | QOk, Some bytes => write_alloc_pair bytes v_data_ptr v_size_ptr
  | QNotFound, _ => hfail NotFound
  | _, _ => hfail SEmpty
  end.

(** ** Metrics *)

Definition metric_status (r : MetricOpResult) : Status :=
  match r with MOk => SOk | MNotFound => NotFound | MBadArgument => BadArgument end.
Definition proxy_define_metric (metric_type name_ptr name_size return_mid_ptr : Z) : HostM unit :=
  kind <~ or_fail BadArgument (metric_type_from_i32 metric_type);;
  name <~ read_string name_ptr name_size;;
  s <~ shared;;
  let '(id, m) := metric_define kind name (sh_metrics s) in
  put_shared (with_metrics s m);;; write_u32_at return_mid_ptr id.
Definition proxy_record_metric (mid value : Z) : HostM unit :=
  s <~ shared;;
  let '(r, m) := metric_record (u32 mid) (uwrap 64 value) (sh_metrics s) in
  put_shared (with_metrics s m);;; status_of (metric_status r).
Definition proxy_increment_metric (mid delta : Z) : HostM unit :=
  s <~ shared;;
  let '(r, m) := metric_increment (u32 mid) delta (sh_metrics s) in
  put_shared (with_metrics s m);;; status_of (metric_status r).
Definition proxy_get_metric (mid return_ptr : Z) : HostM unit :=
  s <~ shared;;
  v <~ or_fail NotFound (metric_get (u32 mid) (sh_metrics s));;
  write_u64_at return_ptr v.

(** ** Properties *)

Definition proxy_get_property (path_ptr path_size return_data_ptr return_size_ptr : Z) : HostM unit :=
  raw <~ read path_ptr path_size;;
  match decode_property_path raw with
  | [] => hfail NotFound
  | segments =>
      st <~ state;;
      v <~ or_fail NotFound (get_property st segments);;
      write_alloc_pair v return_data_ptr return_size_ptr
  end.
Definition proxy_set_property (path_ptr path_size v_ptr v_size : Z) : HostM unit :=
  raw <~ read path_ptr path_size;;
  match decode_property_path raw with
  | [] => hfail BadArgument
  | segments =>
      value <~ read_opt v_ptr v_size;;
      st <~ state;; put (upd_properties <[canonicalize_path segments := value]> st)
  end.

(** ** Calls that are not supported *)

Definition proxy_grpc : HostM unit := hfail Unimplemented.
Definition proxy_call_foreign_function : HostM unit := hfail NotFound.

(** ** WASI *)

(** Every failure of a read or a write is [FAULT]. *)
Definition wasi (m : HostM unit) (c : Caller) : Z * Caller :=
  match m c with (Ok _, c') => (SUCCESS, c') | (Err _, c') => (FAULT, c') end.

Definition random_get (ptr len : Z) : Caller → Z * Caller := wasi (
  _ <~ from_caller;;
  buf <~ or_fail InternalFailure (getrandom (Z.max len 0));;
  update_mem (λ mem, write_bytes mem (u32 ptr) buf)).
Definition clock_time_get (clock_id return_ptr : Z) (c : Caller) : Z * Caller :=
  match cl_mem c with
  | None => (FAULT, c)
  | Some _ =>
      if clock_id =? 0 then wasi (write_u64_at return_ptr (default 0 (uwrap 64 <$> system_nanos))) c
      else if clock_id =? 1 then wasi (write_u64_at return_ptr (uwrap 64 instant_nanos)) c
      else (NOTSUP, c)
  end.
Definition environ_get (c : Caller) : Z * Caller := (SUCCESS, c).
Definition environ_sizes_get (count_ptr buf_ptr : Z) : Caller → Z * Caller :=
  wasi (write_u32_at count_ptr 0;;; write_u32_at buf_ptr 0).
Definition args_get (c : Caller) : Z * Caller := (SUCCESS, c).
Definition args_sizes_get (argc_ptr buf_size_ptr : Z) : Caller → Z * Caller :=
  wasi (write_u32_at argc_ptr 0;;; write_u32_at buf_size_ptr 0).
Definition proc_exit (c : Caller) : Caller := c.

(** The bytes of the vectors from number [i] on; positions wrap around as in a release build. *)
Fixpoint gather (n : nat) (iovs i total : Z) (bytes_out : string) : HostM (Z * string) :=
  match n with
  | O => hret (total, bytes_out)
  | S n =>
      let entry_ptr := u32 (u32 iovs + u32 (i * 8)) in
      mem <~ from_caller;;
      buf_ptr <~ or_fail InvalidMemoryAccess (result_ok (read_u32 mem entry_ptr));;
      buf_len <~ or_fail InvalidMemoryAccess (result_ok (read_u32 mem (u32 (entry_ptr + 4))));;
      chunk <~ or_fail InvalidMemoryAccess (result_ok (read_bytes mem buf_ptr buf_len));;
      gather n iovs (i + 1) (Z.min (total + buf_len) (2 ^ 32 - 1)) (bytes_out +:+ chunk)
  end.
Definition fd_write (fd iovs iovs_len nwritten_ptr : Z) (c : Caller) : Z * Caller :=
  if negb (fd =? STDOUT) && negb (fd =? STDERR) then (BADF, c)
  else wasi (
    r <~ gather (Z.to_nat (u32 iovs_len)) iovs 0 0 "";;
    let msg := trim_end_matches (ascii_of_nat 10) (from_utf8_lossy r.2) in
    s <~ shared;;
    put_shared (MkShared (sh_data s) (sh_queues s) (sh_metrics s)
      (sh_log s ++ [(if fd =? STDOUT then INFO else ERROR, msg)]));;;
    write_u32_at nwritten_ptr r.1) c.
End host.

Notation "x '<~' m ';;' k" := (hbind m (λ x, k)) (at level 100, m at next level, right associativity).
Notation "m ';;;' k" := (hbind m (λ _, k)) (at level 100, right associativity).

(** ** What a guest finds in its memory *)

Section delivery.
Context `{HttpLib} `{!HeaderLib} `{!HostEnv}.

(** The cells at [dp] and [sp] hold the position and the length of a copy of the payload. *)
Definition delivered (c : Caller) (dp sp : Z) (payload : string) : Prop :=
  ∃ mem ptr, cl_mem c = Some mem ∧ region mem ptr payload ∧
    region mem (u32 dp) (le_bytes 4 ptr) ∧ region mem (u32 sp) (le_bytes 4 (str_len payload)).

(** An allocation of [n] bytes apart from the two cells of a call. *)
Record allocates (c : Caller) (n dp sp ptr : Z) (mem mem' : string) : Prop := {
  al_mem : cl_mem c = Some mem;
  al_call : ∃ alloc, cl_alloc c = Some alloc ∧ alloc n mem = Some (ptr, mem');
  al_ptr : 0 ≤ ptr < 2 ^ 32;
  al_fits : ptr + n ≤ str_len mem' ∧ u32 dp + 4 ≤ str_len mem' ∧ u32 sp + 4 ≤ str_len mem';
  al_apart : ptr + n ≤ u32 dp ∨ u32 dp + 4 ≤ ptr;
  al_apart' : ptr + n ≤ u32 sp ∨ u32 sp + 4 ≤ ptr;
  al_cells : u32 dp + 4 ≤ u32 sp ∨ u32 sp + 4 ≤ u32 dp;
}.

Lemma write_bytes_len mem ptr data mem' : 0 ≤ ptr → write_bytes mem ptr data = Ok mem' → str_len mem' = str_len mem.
Proof. intros Hp (p & q & r & -> & -> & _ & Hq)%write_bytes_Ok; [|done]. rewrite !str_len_app. lia. Qed.

Lemma u32_nonneg x : 0 ≤ u32 x.
Proof. unfold u32, uwrap. pose proof (Z.mod_pos_bound x (2 ^ 32) ltac:(lia)). lia. Qed.

Lemma write_alloc_pair_ok payload dp sp c mem ptr mem' :
  payload ≠ "" → str_len payload < 2 ^ 32 → allocates c (str_len payload) dp sp ptr mem mem' →
  ∃ mem2, write_alloc_pair payload dp sp c = (Ok tt, set_mem mem2 c) ∧ delivered (set_mem mem2 c) dp sp payload.
Proof.
  intros Hne Hlen [Hmem (alloc & Halloc & Hcall) Hptr [Hf1 [Hf2 Hf3]] Ha1 Ha2 Hc].
  pose proof (u32_nonneg dp). pose proof (u32_nonneg sp). pose proof (str_len_nonneg payload).
  assert (u32 (str_len payload) = str_len payload) as Hu by (apply uwrap_id; unfold in_unsigned; lia).
  destruct (write_bytes_total mem' ptr payload) as [m1 Hm1]; [lia..|].
  pose proof (write_bytes_len _ _ _ _ (proj1 Hptr) Hm1) as Hl1.
  destruct (write_bytes_total m1 (u32 dp) (le_bytes 4 ptr)) as [m2 Hm2]; [lia|rewrite le_bytes_len; lia|].
  pose proof (write_bytes_len _ _ _ _ (u32_nonneg dp) Hm2) as Hl2.
  destruct (write_bytes_total m2 (u32 sp) (le_bytes 4 (str_len payload))) as [m3 Hm3]; [lia|rewrite le_bytes_len; lia|].
  exists m3. split.
  - unfold write_alloc_pair, hbind, from_caller, call_alloc. rewrite Hmem.
    destruct (str_is_empty payload) eqn:He; [by apply str_is_empty_true in He|].
    rewrite Halloc. cbn [default from_option id]. rewrite Hu, Hmem. cbn [default from_option id]. rewrite Hcall.
    unfold write_u32_at, update_mem, hbind, from_caller, set_mem, write_u32. cbn [cl_mem cl_alloc cl_host cl_shared].
    rewrite Hm1. cbn [cl_mem cl_alloc cl_host cl_shared]. rewrite Hm2. cbn [cl_mem cl_alloc cl_host cl_shared]. by rewrite Hm3.
  - exists m3, ptr. split_and!; [done|..].
    + eapply region_write; [|exact Hm3| |]; [lia| |rewrite le_bytes_len; lia].
      eapply region_write; [|exact Hm2| |]; [lia| |rewrite le_bytes_len; lia]. by eapply write_read; [|done]; lia.
    + eapply region_write; [|exact Hm3| |]; [lia| |rewrite !le_bytes_len; lia]. by eapply write_read; [|done]; lia.
    + by eapply write_read; [|done]; lia.
Qed.

(** The headers a guest asks for are in its memory when the call returns. If the guest's
    allocator gives a free area, [proxy_get_header_map_pairs] answers [Ok], changes nothing but
    the memory, and the bytes at the returned position decode to exactly the headers of the
    context, pseudo headers first. *)
Theorem header_pairs_delivered map_type mt dp sp c mem ptr mem' :
  let pairs := collect_pairs (cl_host c) mt in
  map_type_from_i32 map_type = Some mt → pairs_small pairs → str_len (encode_pairs pairs) < 2 ^ 32 →
  allocates c (str_len (encode_pairs pairs)) dp sp ptr mem mem' →
  ∃ mem2 bytes, hostcall (proxy_get_header_map_pairs map_type dp sp) c = (status_i32 SOk, set_mem mem2 c) ∧
    delivered (set_mem mem2 c) dp sp bytes ∧ decode_pairs bytes = Some (Some pairs).
Proof.
  intros pairs Hmt Hsmall Hlen Halloc.
  destruct (write_alloc_pair_ok (encode_pairs pairs) dp sp c mem ptr mem') as (mem2 & Hw & Hd); [|done..|].
  { intros E%(f_equal str_len). unfold encode_pairs in E. rewrite str_len_app, le_bytes_len in E.
    match type of E with _ + str_len ?s = _ => pose proof (str_len_nonneg s) end. change (str_len "") with 0 in E. lia. }
  exists mem2, (encode_pairs pairs). split_and!; [|done|by apply decode_encode_pairs].
  unfold hostcall, proxy_get_header_map_pairs, hbind, or_fail, state, hret. rewrite Hmt. by fold pairs; rewrite Hw.
Qed.
End delivery.

(** ** Reference instances *)

#[export] Instance ref_host_env : HostEnv := {|
  enabled l := match l with INFO | WARN | ERROR => true | _ => false end;
  system_nanos := Some 0;
  instant_nanos := 0;
  getrandom n := Some (str_repeat NUL (Z.to_nat n));
  method_parse s := if str_is_empty s then None else Some s;
|}.
#[export] Instance ref_yaml : YamlLib := λ _, Ok "service_cluster: ai".

Definition shared_default : Shared := MkShared ∅ queues_default metrics_default [].
Definition witness_caller : Caller (H:=ref_http) :=
  let ctx := ctx_set_pseudo (MkPseudo "GET" "/v1" "" "http")
    (ctx_set_maps [("host", "a.b"); ("x-tenant-id", "t")] [] [] [] [] [] request_context_default) in
  MkCaller (Some (str_repeat NUL 256)) (Some (λ _ mem, Some (16, mem)))
    (set_effective 2 (upd_contexts <[2 := ctx]> (host_state_new shell_config_default))) shared_default.

Lemma header_pairs_delivered_witness :
  ∃ mem2 bytes, hostcall (proxy_get_header_map_pairs 0 0 4) witness_caller = (0, set_mem mem2 witness_caller) ∧
    delivered (set_mem mem2 witness_caller) 0 4 bytes ∧
    decode_pairs bytes = Some (Some [(":method", "GET"); (":path", "/v1"); (":scheme", "http"); ("host", "a.b"); ("x-tenant-id", "t")]).
Proof.
  refine (header_pairs_delivered 0 HttpRequestHeaders 0 4 witness_caller (str_repeat NUL 256) 16 (str_repeat NUL 256) eq_refl _ _ _).
  - split; [done|]. by repeat constructor.
  - vm_compute. reflexivity.
  - split; [done|by eexists|lia|vm_compute; split_and!; congruence|vm_compute; right; congruence..|vm_compute; left; congruence].
Defined.
