(* ===== verification/WasmVm.v ===== *)
(** * WebAssembly host: one virtual machine

    [crates/plugin-wasm/src/vm.rs]: the start of a guest instance, and the way a request takes
    through the hooks of the guest, with the calls it waits for, to the inner service and back.

    The guest is a parameter: the functions its module exports, over a state [G] of its own, its
    memory included. A call of a hook may change the state of the guest, the state of the virtual
    machine and the shared state, as the host functions let it, and returns a number or traps. The
    answers of HTTP calls arrive on the channel in an order that is not determined, so a request is
    processed against any list of them; a request that waits for an answer that is not in the list
    is [Waiting]. *)

From S2P Require Export WasmHost.
From S2P Require Import RefHttp.
Local Open Scope string_scope.
Local Open Scope list_scope.
Local Open Scope Z_scope.

(** [Uri::from_str], [Debug] of a version, [StatusCode::canonical_reason]. *)
Class VmLib `{HttpLib} := {
  uri_parse : string → option Uri;
  version_debug : Z → string;
  canonical_reason : Z → option string;
}.

Section vm.
Context `{HttpLib} `{!HeaderLib} `{!HostEnv} `{!VmLib} `{YamlLib} {G : Type}.

(** ** Guests *)

Record VmState := MkVmState { vs_host : HostState; vs_shared : Shared; vs_guest : G }.
Definition upd_host (f : HostState → HostState) (v : VmState) : VmState :=
  MkVmState (f (vs_host v)) (vs_shared v) (vs_guest v).

(** What a call may use before it is interrupted. *)
Record Budget := MkBudget { bu_fuel : Z; bu_deadline : Z }.
Definition Hook : Type := Budget → list Z → VmState → result Z string * VmState.

Record Exports := MkExports {
  ex_memory : option Z;  (** the pages of the memory *)
  ex_memory_allocate : bool;
  ex_malloc : bool;
  ex_initialize : option Hook;
  ex_start : option Hook;
  ex_context_create : option Hook;
  ex_vm_start : option Hook;
  ex_configure : option Hook;
  ex_request_headers : option Hook;
  ex_request_body : option Hook;
  ex_request_trailers : option Hook;
  ex_response_headers : option Hook;
  ex_response_body : option Hook;
  ex_response_trailers : option Hook;
  ex_http_call_response : option Hook;
  ex_log : option Hook;
  ex_done : option Hook;
  ex_delete : option Hook;
  ex_tick : option Hook;
}.

Record Vm := MkVm {
  vm_state : VmState;
  vm_root_id : Z;
  vm_next_ctx_id : Z;
  vm_fail_strategy : FailStrategy;
  fn_on_context_create : Hook;
  fn_on_vm_start : option Hook;
  fn_on_configure : Hook;
  fn_on_request_headers : Hook;
  fn_on_request_body : option Hook;
  fn_on_request_trailers : option Hook;
  fn_on_response_headers : Hook;
  fn_on_response_body : option Hook;
  fn_on_response_trailers : option Hook;
  fn_on_http_call_response : Hook;
  fn_on_log : option Hook;
  fn_on_done : option Hook;
  fn_on_delete : option Hook;
  fn_on_tick : option Hook;
}.

(** ** A monad of one request

    The state of the virtual machine, the answers on the channel, and the requests the inner
    service got. *)

Record Proc := MkProc { p_vm : VmState; p_rx : list (Z * HttpCallResult); p_inner : list Request }.
Inductive Outcome (A : Type) := Done (a : A) | Failed (e : WasmHostError) | Waiting | Panicked.
Arguments Done {A} a.
Arguments Failed {A} e.
Arguments Waiting {A}.
Arguments Panicked {A}.

Definition VmM (A : Type) : Type := Proc → Outcome A * Proc.
Definition vret {A} (a : A) : VmM A := λ p, (Done a, p).
Definition vfail {A} (e : WasmHostError) : VmM A := λ p, (Failed e, p).
Definition vbind {A B} (m : VmM A) (k : A → VmM B) : VmM B := λ p,
  match m p with
  | (Done a, p') => k a p'
  | (Failed e, p') => (Failed e, p')
  | (Waiting, p') => (Waiting, p')
  | (Panicked, p') => (Panicked, p')
  end.
Notation "x '<<' m ';;' k" := (vbind m (λ x, k)) (at level 100, m at next level, right associativity).
Notation "m ';;>' k" := (vbind m (λ _, k)) (at level 100, right associativity).

Definition vhost : VmM HostState := λ p, (Done (vs_host (p_vm p)), p).
Definition vupd (f : HostState → HostState) : VmM unit := λ p,
  (Done tt, MkProc (upd_host f (p_vm p)) (p_rx p) (p_inner p)).

(** [prepare_store_for_guest_call] and the call: the budget is the configured one. *)
Definition budget (cfg : WasmPluginShellConfig) : Budget :=
  MkBudget (guest_fuel_per_call cfg) (guest_epoch_deadline_ticks cfg).
Definition run_hook (h : Hook) (args : list Z) (v : VmState) : result Z string * VmState :=
  h (budget (shell_cfg (vs_host v))) args v.
Definition try_hook (h : Hook) (args : list Z) : VmM (result Z string) := λ p,
  let '(r, v) := run_hook h args (p_vm p) in (Done r, MkProc v (p_rx p) (p_inner p)).
Definition call_hook (name : string) (h : Hook) (args : list Z) : VmM Z :=
  r << try_hook h args;; match r with Ok v => vret v | Err e => vfail (GuestTrap name e) end.

(** ** The start of an instance *)

Definition required {A} (name : string) (o : option A) : result A WasmHostError :=
  ok_or o (AbiViolation ("get " +:+ name +:+ ": not exported")).

(** A call during the start, whose trap becomes the error [err]. *)
Definition start_hook (err : string → WasmHostError) (h : Hook) (args : list Z) (v : VmState) : result (Z * VmState) WasmHostError :=
  match run_hook h args v with (Ok r, v') => Ok (r, v') | (Err e, _) => Err (err e) end.

(** [Vm::new], from the linking of the module on, which fails with a text or gives the exports. *)
Definition vm_new (cfg : WasmPluginShellConfig) (linked : result (Exports * G) string) (sh : Shared)
    : result Vm WasmHostError :=
  match linked with
  | Err e => Err (Instantiate ("instantiate: " +:+ e))
  | Ok (ex, g) =>
      let? pages := ok_or (ex_memory ex) (AbiViolation "no `memory` export") in
      let? _ := match max_memory_pages (limits cfg) with
                | Some max_pages =>
                    if max_pages <? pages then
                      Err (ResourceLimit ("initial memory pages " +:+ z_string pages +:+
                        " exceeds max_memory_pages " +:+ z_string max_pages))
                    else Ok tt
                | None => Ok tt
                end in
      let? _ := if ex_memory_allocate ex || ex_malloc ex then Ok tt
                else Err (AbiViolation "no memory allocator export (proxy_on_memory_allocate or malloc)") in
      let v := MkVmState (host_state_new cfg) sh g in
      let? v :=
        match ex_initialize ex with
        | Some init => result_map snd (start_hook (λ e, Instantiate ("_initialize: " +:+ e)) init [] v)
        | None =>
            match ex_start ex with
            | Some start => result_map snd (start_hook (λ e, Instantiate ("_start: " +:+ e)) start [] v)
            | None => Ok v
            end
        end in
      let? context_create := required "proxy_on_context_create" (ex_context_create ex) in
      let? configure := required "proxy_on_configure" (ex_configure ex) in
      let? request_headers := required "proxy_on_request_headers" (ex_request_headers ex) in
      let? response_headers := required "proxy_on_response_headers" (ex_response_headers ex) in
      let? http_call_response := required "proxy_on_http_call_response" (ex_http_call_response ex) in
      let root_id := root_context_id (vs_host v) in
      let v := upd_host (upd_contexts <[root_id := request_context_default]>) v in
      let v := upd_host (set_effective root_id) v in
      let? ' (_, v) := start_hook (GuestTrap "on_context_create") context_create [root_id; 0] v in
      let cfg_len := uwrap 32 (str_len (configuration (vs_host v))) in
      let? v :=
        match ex_vm_start ex with
        | Some f =>
            let? ' (ok, v) := start_hook (GuestTrap "on_vm_start") f [root_id; cfg_len] (upd_host (set_effective root_id) v) in
            if ok =? 0 then Err (Instantiate "guest on_vm_start returned 0 (=invalid VM configuration)") else Ok v
        | None => Ok v
        end in
      let cfg_len := uwrap 32 (str_len (configuration (vs_host v))) in
      let? ' (_, v) := start_hook (GuestTrap "on_configure") configure [root_id; cfg_len] (upd_host (set_effective root_id) v) in
      Ok (MkVm v root_id (root_id + 1) (fail_strategy cfg) context_create (ex_vm_start ex) configure request_headers
            (ex_request_body ex) (ex_request_trailers ex) response_headers (ex_response_body ex)
            (ex_response_trailers ex) http_call_response (ex_log ex) (ex_done ex) (ex_delete ex) (ex_tick ex))
  end.

(** ** Bodies, URIs and responses *)

Definition collect_body_limited (body : string) (limit : option Z) : result string WasmHostError :=
  match limit with
  | Some limit => if limit <? str_len body then Err (BodyTooLarge (Z.min (limit + 1) (2 ^ 64 - 1)) limit) else Ok body
  | None => Ok body
  end.

Definition rebuild_uri (scheme authority path : string) : option Uri :=
  let s := if str_is_empty scheme || str_is_empty authority then "" else scheme +:+ "://" +:+ authority in
  uri_parse (s +:+ (if str_is_empty path then "/" else path)).

Definition build_local_response (l : LocalResponse) : Response :=
  let status := if (100 <=? lr_status l) && (lr_status l <=? 999) then lr_status l else 200 in
  MkResp status (foldl (λ m kv, hm_insert kv.1 kv.2 m) hm_empty (hm_iter (lr_headers l))) ext_empty (lr_body l).

(** [Display] of a path with its query, and of an authority *)
Definition pq_string (p : PathAndQuery) : string :=
  let s := match pq_query p with Some q => pq_path p +:+ "?" +:+ q | None => pq_path p end in
  if str_is_empty s then "/" else if starts_with s "/" || starts_with s "*" then s else "/" +:+ s.
Definition authority_string (a : string * option Z) : string :=
  match a.2 with Some port => a.1 +:+ ":" +:+ dec_string port | None => a.1 end.

Definition pseudo_of (req : Request) : PseudoHeaders :=
  let u := req_uri req in
  MkPseudo (req_method req)
    (match uri_path_and_query u with Some p => pq_string p | None => "/" end)
    (match uri_authority u with
     | Some a => authority_string a
     | None => default "" (h ← hm_get (req_headers req) "host"; hv_to_str h)
     end)
    (default "http" (uri_scheme u)).

Definition header_count (m : HeaderMap) : Z := Z.of_nat (length (hm_iter m)).

(** ** Waiting for answers *)

(** The answer of a call, in the context that made it. *)
Definition take_answer (result : HttpCallResult) (c : RequestContext) : RequestContext :=
  MkCtx (rc_parent_id c) (rc_stage c) (rc_pseudo c) (rc_request_headers c) (rc_request_trailers c)
    (rc_request_body c) (rc_response_status c) (rc_response_status_message c) (rc_response_headers c)
    (rc_response_trailers c) (rc_response_body c) (hr_headers result) (rc_last_trailers c) (hr_body result)
    (hr_status result) (hr_status_message result) false (rc_local_response c)
    (rc_request_protocol c) (rc_request_size c) (rc_response_size c) (rc_done_marker c) (rc_awaiting_done c).

(** [drive_until_continue], on the answers that arrive. *)
Fixpoint drive (vm : Vm) (ctx_id : Z) (rx : list (Z * HttpCallResult)) (v : VmState) (inner : list Request) : Outcome unit * Proc :=
  let p := MkProc v rx inner in
  match contexts (vs_host v) !! ctx_id with
  | None => (Failed (AbiViolation ("ctx " +:+ z_string ctx_id +:+ " gone")), p)
  | Some ctx =>
      if bool_decide (is_Some (rc_local_response ctx)) then (Done tt, p)
      else if rc_continue_requested ctx && bool_decide (pending_calls (vs_host v) = ∅) then (Done tt, p)
      else if bool_decide (pending_calls (vs_host v) = ∅) then (Done tt, p)
      else
        match rx with
        | [] => (Waiting, p)
        | (token, result) :: rx =>
            let source_ctx_id := default ctx_id (pending_calls (vs_host v) !! token) in
            let h := vs_host v in
            let h := upd_pending (delete token) h in
            let h := set_effective source_ctx_id h in
            let h := upd_context source_ctx_id (take_answer result) h in
            match run_hook (fn_on_http_call_response vm)
                    [source_ctx_id; token; uwrap 32 (header_count (hr_headers result) + 1); uwrap 32 (str_len (hr_body result)); 0]
                    (MkVmState h (vs_shared v) (vs_guest v)) with
            | (Err e, v) => (Failed (GuestTrap "on_http_call_response" e), MkProc v rx inner)
            | (Ok _, v) => drive vm ctx_id rx v inner
            end
        end
  end.
Definition drive_until_continue (vm : Vm) (ctx_id : Z) : VmM unit := λ p,
  drive vm ctx_id (p_rx p) (p_vm p) (p_inner p).

(** ** The end of a context *)

Definition invoke_log_done_delete (vm : Vm) (ctx_id : Z) : VmM unit :=
  vupd (set_effective ctx_id);;>
  vupd (upd_context ctx_id (ctx_set_stage StLog));;>
  _ << match fn_on_log vm with Some f => _ << try_hook f [ctx_id];; vret tt | None => vret tt end;;
  _ << match fn_on_done vm with
       | Some f =>
           vupd (upd_context ctx_id (λ c, ctx_set_done (rc_done_marker c) true c));;>
           (* whether the guest was done is only logged *)
           _ << try_hook f [ctx_id];; vret tt
       | None => vret tt
       end;;
  _ << match fn_on_delete vm with Some f => _ << try_hook f [ctx_id];; vret tt | None => vret tt end;;
  vupd (upd_contexts (delete ctx_id)).

(** ** One request *)

(** [if let Some(ctx) = st.contexts.get_mut(&id) { .. st.effective_context = id; }] *)
Definition enter (id : Z) (f : RequestContext → RequestContext) (h : HostState) : HostState :=
  match contexts h !! id with Some _ => set_effective id (upd_context id f h) | None => h end.
(** [if action == Pause { drive_until_continue }] *)
Definition pause_drive (vm : Vm) (id : Z) (action : Z) : VmM unit :=
  if decide (action_from_u32 action = Pause) then drive_until_continue vm id else vret tt.
(** [contexts.get_mut(&id).and_then(|c| c.local_response.take())] *)
Definition take_local (id : Z) : VmM (option LocalResponse) :=
  h << vhost;;
  vupd (upd_context id (ctx_set_local None));;>
  vret (c ← contexts h !! id; rc_local_response c).
(** A local response ends the request; otherwise it goes on with [k]. *)
Definition unless_local (vm : Vm) (id : Z) (k : VmM Response) : VmM Response :=
  local << take_local id;;
  match local with
  | Some l => invoke_log_done_delete vm id;;> vret (build_local_response l)
  | None => k
  end.
Definition lift {A} (r : result A WasmHostError) : VmM A :=
  match r with Ok a => vret a | Err e => vfail e end.
Definition call_inner (inner : Service) (req : Request) : VmM Response := λ p,
  let p := MkProc (p_vm p) (p_rx p) (p_inner p ++ [req]) in
  match inner req with Some resp => (Done resp, p) | None => (Panicked, p) end.

Definition request_context (root_id : Z) (req : Request) (c : RequestContext) : RequestContext :=
  MkCtx root_id StRequestHeaders (pseudo_of req) (req_headers req) (rc_request_trailers c)
    (rc_request_body c) (rc_response_status c) (rc_response_status_message c) (rc_response_headers c) (rc_response_trailers c)
    (rc_response_body c) (rc_last_headers c) (rc_last_trailers c) (rc_last_body c) (rc_last_status c) (rc_last_status_message c)
    false (rc_local_response c) (version_debug (req_version req)) (rc_request_size c) (rc_response_size c)
    (rc_done_marker c) (rc_awaiting_done c).
Definition enter_stage (st : ContextStage) (c : RequestContext) : RequestContext := ctx_set_continue false (ctx_set_stage st c).
Definition set_sizes q s c := MkCtx (rc_parent_id c) (rc_stage c) (rc_pseudo c) (rc_request_headers c) (rc_request_trailers c)
  (rc_request_body c) (rc_response_status c) (rc_response_status_message c) (rc_response_headers c) (rc_response_trailers c)
  (rc_response_body c) (rc_last_headers c) (rc_last_trailers c) (rc_last_body c) (rc_last_status c) (rc_last_status_message c)
  (rc_continue_requested c) (rc_local_response c) (rc_request_protocol c) q s (rc_done_marker c) (rc_awaiting_done c).

Definition max_body (h : HostState) : option Z := max_body_bytes (limits (shell_cfg h)).

(** The request hooks, up to the call of the inner service. [None] is the body of the caller. *)
Definition on_request_body (vm : Vm) (id : Z) (body : string) (k : option string → VmM Response) : VmM Response :=
  match fn_on_request_body vm with
  | Some f =>
      h << vhost;;
      collected << lift (collect_body_limited body (max_body h));;
      vupd (enter id (λ c, set_sizes (str_len collected) (rc_response_size c)
        (enter_stage StRequestBody (ctx_set_bodies (Some collected) (rc_response_body c) c))));;>
      action << call_hook "on_request_body" f [id; uwrap 32 (str_len collected); 1];;
      pause_drive vm id action;;>
      unless_local vm id (
        h << vhost;;
        k (Some (default collected (c ← contexts h !! id; rc_request_body c))))
  | None => k None
  end.
Definition on_request_trailers (vm : Vm) (id : Z) (k : VmM Response) : VmM Response :=
  match fn_on_request_trailers vm with
  | Some f =>
      vupd (set_effective id);;>
      vupd (upd_context id (enter_stage StRequestTrailers));;>
      action << call_hook "on_request_trailers" f [id; 0];;
      pause_drive vm id action;;>
      unless_local vm id k
  | None => k
  end.

(** The request that is handed to the inner service. *)
Definition forwarded (h : HostState) (id : Z) (req : Request) (body : option string) : Request :=
  let '(new_headers, new_pseudo) :=
    match contexts h !! id with
    | Some c => (rc_request_headers c, rc_pseudo c)
    | None => (hm_empty, pseudo_default)
    end in
  MkReq (default (req_method req) (method_parse (ps_method new_pseudo)))
    (default (req_uri req) (rebuild_uri (ps_scheme new_pseudo) (ps_authority new_pseudo) (ps_path new_pseudo)))
    (req_version req) new_headers (req_ext req) (default (req_body req) body).

(** The response hooks. *)
Definition on_response_headers (vm : Vm) (id : Z) (resp : Response) (k : VmM Response) : VmM Response :=
  vupd (enter id (λ c, ctx_set_continue false (ctx_set_stage StResponseHeaders
    (MkCtx (rc_parent_id c) (rc_stage c) (rc_pseudo c) (rc_request_headers c) (rc_request_trailers c)
      (rc_request_body c) (Some (resp_status resp)) (default "" (canonical_reason (resp_status resp))) (resp_headers resp)
      (rc_response_trailers c) (rc_response_body c) (rc_last_headers c) (rc_last_trailers c) (rc_last_body c) (rc_last_status c)
      (rc_last_status_message c) (rc_continue_requested c) (rc_local_response c) (rc_request_protocol c) (rc_request_size c)
      (rc_response_size c) (rc_done_marker c) (rc_awaiting_done c)))));;>
  action << call_hook "on_response_headers" (fn_on_response_headers vm)
    [id; uwrap 32 (header_count (resp_headers resp) + 1); if fn_on_response_body vm then 0 else 1];;
  pause_drive vm id action;;>
  unless_local vm id k.
Definition on_response_body (vm : Vm) (id : Z) (resp : Response) : VmM (HeaderMap * string) :=
  match fn_on_response_body vm with
  | Some f =>
      h << vhost;;
      collected << lift (collect_body_limited (resp_body resp) (max_body h));;
      vupd (enter id (λ c, set_sizes (rc_request_size c) (str_len collected)
        (enter_stage StResponseBody (ctx_set_bodies (rc_request_body c) (Some collected) c))));;>
      action << call_hook "on_response_body" f [id; uwrap 32 (str_len collected); 1];;
      pause_drive vm id action;;>
      h << vhost;;
      vret (default (resp_headers resp) (rc_response_headers <$> contexts h !! id),
            default collected (c ← contexts h !! id; rc_response_body c))
  | None => vret (resp_headers resp, resp_body resp)
  end.
Definition on_response_trailers (vm : Vm) (id : Z) (headers : HeaderMap) : VmM HeaderMap :=
  match fn_on_response_trailers vm with
  | Some f =>
      vupd (set_effective id);;>
      vupd (upd_context id (enter_stage StResponseTrailers));;>
      _ << call_hook "on_response_trailers" f [id; 0];;
      h << vhost;;
      vret (default headers (rc_response_headers <$> contexts h !! id))
  | None => vret headers
  end.

(** [Vm::process], after the answers of earlier requests were dropped from the channel; [id] is
    the new context. *)
Definition process (vm : Vm) (id : Z) (req : Request) (inner : Service) : VmM Response :=
  vupd (upd_pending (λ _, ∅));;>
  (* create_context *)
  vupd (set_effective id);;>
  _ << call_hook "on_context_create" (fn_on_context_create vm) [id; vm_root_id vm];;
  vupd (upd_contexts (λ m, <[id := request_context (vm_root_id vm) req (default request_context_default (m !! id))]> m));;>
  vupd (set_effective id);;>
  action << call_hook "on_request_headers" (fn_on_request_headers vm)
    [id; uwrap 32 (header_count (req_headers req) + 4); if fn_on_request_body vm then 0 else 1];;
  h << vhost;;
  _ << (if decide (action_from_u32 action = Pause ∧ pending_calls h ≠ ∅) then drive_until_continue vm id else vret tt);;
  unless_local vm id (
    on_request_body vm id (req_body req) (λ body,
      on_request_trailers vm id (
        h << vhost;;
        resp << call_inner inner (forwarded h id req body);;
        on_response_headers vm id resp (
          hb << on_response_body vm id resp;;
          headers << on_response_trailers vm id hb.1;;
          invoke_log_done_delete vm id;;>
          vret (MkResp (resp_status resp) headers (resp_ext resp) hb.2))))).

(** The next state of the virtual machine, whatever the outcome. *)
Definition with_state (vm : Vm) (v : VmState) (next : Z) : Vm :=
  MkVm v (vm_root_id vm) next (vm_fail_strategy vm) (fn_on_context_create vm) (fn_on_vm_start vm) (fn_on_configure vm)
    (fn_on_request_headers vm) (fn_on_request_body vm) (fn_on_request_trailers vm) (fn_on_response_headers vm)
    (fn_on_response_body vm) (fn_on_response_trailers vm) (fn_on_http_call_response vm) (fn_on_log vm) (fn_on_done vm)
    (fn_on_delete vm) (fn_on_tick vm).
Definition vm_process (vm : Vm) (req : Request) (inner : Service) (rx : list (Z * HttpCallResult)) : Outcome Response * Proc * Vm :=
  let '(out, p) := process vm (vm_next_ctx_id vm) req inner (MkProc (vm_state vm) rx []) in
  (out, p, with_state vm (p_vm p) (uwrap 32 (vm_next_ctx_id vm + 1))).

(** ** Ticks *)

Definition tick_period_ms (vm : Vm) : Z := default 0 (tick_period (vs_host (vm_state vm))).
Definition tick (vm : Vm) : result unit WasmHostError * Vm :=
  match fn_on_tick vm with
  | None => (Ok tt, vm)
  | Some f =>
      let v := upd_host (set_effective (vm_root_id vm)) (vm_state vm) in
      let '(r, v) := run_hook f [vm_root_id vm] v in
      (match r with Ok _ => Ok tt | Err e => Err (GuestTrap "on_tick" e) end, with_state vm v (vm_next_ctx_id vm))
  end.
End vm.

Arguments Done {A} a.
Arguments Failed {A} e.
Arguments Waiting {A}.
Arguments Panicked {A}.
Arguments VmState {_} G.
Arguments Exports {_} G.
Arguments Vm {_} G.
Arguments Proc {_} G.
Notation "x '<<' m ';;' k" := (vbind m (λ x, k)) (at level 100, m at next level, right associativity).
Notation "m ';;>' k" := (vbind m (λ _, k)) (at level 100, right associativity).

(** ** A reference instance *)

#[export] Instance ref_vm_lib : VmLib (H:=ref_http) := {|
  uri_parse s :=
    match str_strip_prefix "http://" s with
    | Some rest =>
        let '(a, p) := default (rest, "") (str_split_once "/" rest) in
        authority ← ref_authority_parse a; Some (MkUri (Some "http") (Some authority) (ref_pq_parse ("/" +:+ p)))
    | None => Some (MkUri None None (ref_pq_parse s))
    end;
  version_debug _ := "HTTP/1.1";
  canonical_reason s := if s =? 200 then Some "OK" else None;
|}.
