(* ===== verification/WasmGuest.v ===== *)
(** * WebAssembly host: what guests can do

    A guest acts on the host only through the host functions. This file says what any sequence of
    host calls keeps of the state of the virtual machine ([host_evolves]), and what follows for the
    requests it processes, whatever the guest does: the guest is any set of hooks whose effect on
    the host is a sequence of host calls ([honest]). *)

From S2P Require Export WasmVm.
From S2P Require Import RefHttp.
Local Open Scope string_scope.
Local Open Scope list_scope.
Local Open Scope Z_scope.

Section guest.
Context `{HttpLib} `{!HeaderLib} `{!HostEnv}.
Implicit Types h : HostState.

(** ** Every host function *)

Inductive host_function : (Caller → Caller) → Prop :=
| hf_log l p s : host_function (λ c, (proxy_log l p s c).2)
| hf_get_log_level p : host_function (λ c, (proxy_get_log_level p c).2)
| hf_time p : host_function (λ c, (proxy_get_current_time_nanoseconds p c).2)
| hf_tick t : host_function (λ c, (proxy_set_tick_period_milliseconds t c).2)
| hf_effective i : host_function (λ c, (proxy_set_effective_context i c).2)
| hf_done : host_function (λ c, (proxy_done c).2)
| hf_continue t : host_function (λ c, (proxy_continue_stream t c).2)
| hf_close t : host_function (λ c, (proxy_close_stream t c).2)
| hf_buffer_bytes a b d e f : host_function (λ c, (proxy_get_buffer_bytes a b d e f c).2)
| hf_buffer_status a b d : host_function (λ c, (proxy_get_buffer_status a b d c).2)
| hf_set_buffer a b d e f : host_function (λ c, (proxy_set_buffer_bytes a b d e f c).2)
| hf_map_size a b : host_function (λ c, (proxy_get_header_map_size a b c).2)
| hf_map_pairs a b d : host_function (λ c, (proxy_get_header_map_pairs a b d c).2)
| hf_set_pairs a b d : host_function (λ c, (proxy_set_header_map_pairs a b d c).2)
| hf_map_value a b d e f : host_function (λ c, (proxy_get_header_map_value a b d e f c).2)
| hf_add_value a b d e f : host_function (λ c, (proxy_add_header_map_value a b d e f c).2)
| hf_replace_value a b d e f : host_function (λ c, (proxy_replace_header_map_value a b d e f c).2)
| hf_remove_value a b d : host_function (λ c, (proxy_remove_header_map_value a b d c).2)
| hf_status a b d : host_function (λ c, (proxy_get_status a b d c).2)
| hf_local a b d e f : host_function (λ c, (proxy_send_local_response a b d e f c).2)
| hf_http_call a b d e f g i j : host_function (λ c, (proxy_http_call a b d e f g i j c).2)
| hf_get_shared a b d e f : host_function (λ c, (proxy_get_shared_data a b d e f c).2)
| hf_set_shared a b d e f : host_function (λ c, (proxy_set_shared_data a b d e f c).2)
| hf_register a b d : host_function (λ c, (proxy_register_shared_queue a b d c).2)
| hf_resolve a b d e f : host_function (λ c, (proxy_resolve_shared_queue a b d e f c).2)
| hf_enqueue a b d : host_function (λ c, (proxy_enqueue_shared_queue a b d c).2)
| hf_dequeue a b d : host_function (λ c, (proxy_dequeue_shared_queue a b d c).2)
| hf_define a b d e : host_function (λ c, (proxy_define_metric a b d e c).2)
| hf_record a b : host_function (λ c, (proxy_record_metric a b c).2)
| hf_increment a b : host_function (λ c, (proxy_increment_metric a b c).2)
| hf_metric a b : host_function (λ c, (proxy_get_metric a b c).2)
| hf_get_property a b d e : host_function (λ c, (proxy_get_property a b d e c).2)
| hf_set_property a b d e : host_function (λ c, (proxy_set_property a b d e c).2)
| hf_grpc : host_function (λ c, (proxy_grpc c).2)
| hf_foreign : host_function (λ c, (proxy_call_foreign_function c).2)
| hf_random a b : host_function (λ c, (random_get a b c).2)
| hf_clock a b : host_function (λ c, (clock_time_get a b c).2)
| hf_environ : host_function (λ c, (environ_get c).2)
| hf_environ_sizes a b : host_function (λ c, (environ_sizes_get a b c).2)
| hf_args : host_function (λ c, (args_get c).2)
| hf_args_sizes a b : host_function (λ c, (args_sizes_get a b c).2)
| hf_fd_write a b d e : host_function (λ c, (fd_write a b d e c).2)
| hf_exit : host_function proc_exit.

(** ** What a sequence of host calls keeps *)

Record host_evolves h h' : Prop := {
  he_cfg : shell_cfg h' = shell_cfg h;
  he_root : root_context_id h' = root_context_id h;
  he_contexts : dom (contexts h') = dom (contexts h);
  he_calls : ∃ new, http_calls h' = http_calls h ++ new ∧
    (∀ t, is_Some (pending_calls h' !! t) → is_Some (pending_calls h !! t) ∨ t ∈ hc_token <$> new);
  he_limit : ∀ limit, max_pending_calls (limits (shell_cfg h)) = Some limit →
    Z.of_nat (size (pending_calls h')) ≤ Z.max limit (Z.of_nat (size (pending_calls h)));
}.

#[export] Instance host_evolves_preorder : PreOrder host_evolves.
Proof.
  split.
  - intros h. split; try done; [|intros; lia]. exists []. rewrite app_nil_r. by split; [|left].
  - intros h1 h2 h3 [Hc1 Hr1 Hd1 (n1 & Hn1 & Hp1) Hl1] [Hc2 Hr2 Hd2 (n2 & Hn2 & Hp2) Hl2].
    split; [congruence..| |].
    + exists (n1 ++ n2). rewrite Hn2, Hn1, app_assoc. split; [done|]. intros t Ht.
      rewrite fmap_app, elem_of_app. destruct (Hp2 t Ht) as [Ht2|]; [|by right; right].
      destruct (Hp1 t Ht2); [by left|right; by left].
    + intros limit Hlim. specialize (Hl1 limit Hlim). rewrite Hc1 in Hl2. specialize (Hl2 limit Hlim). lia.
Qed.

(** A change of contexts that keeps which contexts there are, or of other fields. *)
Lemma evolves_same h h' : shell_cfg h' = shell_cfg h → root_context_id h' = root_context_id h →
  dom (contexts h') = dom (contexts h) → http_calls h' = http_calls h → pending_calls h' = pending_calls h → host_evolves h h'.
Proof.
  intros Hc Hr Hd Hh Hp. split; [done..| |intros; rewrite Hp; lia].
  exists []. rewrite app_nil_r, Hp. by split; [|left].
Qed.
Lemma evolves_upd_context id f h : host_evolves h (upd_context id f h).
Proof. apply evolves_same; try done. simpl. apply dom_alter_L. Qed.

Lemma evolves_dispatch cluster pairs body timeout h : host_evolves h (dispatch_call cluster pairs body timeout h).2.
Proof.
  unfold dispatch_call, next_dispatch_token. case_match; [reflexivity|]. destruct (opt_or _ _) as [base|]; [|reflexivity].
  destruct (max_pending_calls (limits (shell_cfg h))) as [limit|] eqn:Hlim;
    [destruct (limit <=? _) eqn:Hfull; [reflexivity|]|].
  all: split; try done; simpl; [|intros limit' Hlim'; simplify_eq].
  1, 3: eexists; split; [done|]; intros t; destruct (decide (t = next_token h)) as [->|];
    [intros _; right; set_solver|rewrite lookup_insert_ne by done; by left].
  apply Z.leb_gt in Hfull.
  destruct (decide (is_Some (pending_calls h !! next_token h))) as [[x Hx]|Hn].
  - rewrite map_size_insert_Some by done. lia.
  - rewrite map_size_insert_None by (by apply eq_None_not_Some). lia.
Qed.

(** ** Host calls, by the structure of the functions *)

Definition quiet {A} (m : HostM A) : Prop := ∀ c, cl_host (m c).2 = cl_host c.
Definition evolves_at {A} h (m : HostM A) : Prop := ∀ c, cl_host c = h → host_evolves h (cl_host (m c).2).

Lemma quiet_bind {A B} (m : HostM A) (k : A → HostM B) : quiet m → (∀ a, quiet (k a)) → quiet (hbind m k).
Proof.
  intros Hm Hk c. unfold hbind. specialize (Hm c). destruct (m c) as [[a|s] c']; simpl in *; [by rewrite Hk|done].
Qed.
Lemma quiet_ret {A} (a : A) : quiet (hret a).
Proof. done. Qed.
Lemma quiet_fail {A} s : quiet (hfail (A:=A) s).
Proof. done. Qed.
Lemma quiet_or_fail {A} s (o : option A) : quiet (or_fail s o).
Proof. by destruct o. Qed.
Lemma quiet_state : quiet state.
Proof. done. Qed.
Lemma quiet_shared : quiet shared.
Proof. done. Qed.
Lemma quiet_put_shared s : quiet (put_shared s).
Proof. done. Qed.
Lemma quiet_status s : quiet (status_of s).
Proof. unfold status_of. by case_decide. Qed.
Lemma quiet_from_caller : quiet from_caller.
Proof. intros c. unfold from_caller. by case_match. Qed.
Lemma quiet_update_mem f : quiet (update_mem f).
Proof. apply quiet_bind; [apply quiet_from_caller|]. intros mem. by case_match. Qed.
Lemma quiet_call_alloc n : quiet (call_alloc n).
Proof. intros c. unfold call_alloc. by repeat case_match. Qed.
Lemma quiet_recover {A} (d : A) m : quiet m → quiet (recover d m).
Proof. intros Hm c. unfold recover. specialize (Hm c). by destruct (m c) as [[] ?]. Qed.
#[local] Hint Resolve quiet_ret quiet_fail quiet_or_fail quiet_state quiet_shared quiet_put_shared quiet_status
  quiet_from_caller quiet_update_mem quiet_call_alloc quiet_recover : quiet.

Lemma quiet_read p n : quiet (read p n).
Proof. apply quiet_bind; auto with quiet. Qed.
Lemma quiet_read_string p n : quiet (read_string p n).
Proof. apply quiet_bind; auto with quiet. Qed.
#[local] Hint Resolve quiet_read quiet_read_string : quiet.
Lemma quiet_read_opt p n : quiet (read_opt p n).
Proof. unfold read_opt. case_match; auto with quiet. Qed.
Lemma quiet_write_u32 p n : quiet (write_u32_at p n).
Proof. apply quiet_update_mem. Qed.
Lemma quiet_write_u64 p n : quiet (write_u64_at p n).
Proof. apply quiet_update_mem. Qed.
#[local] Hint Resolve quiet_read_opt quiet_write_u32 quiet_write_u64 : quiet.

Ltac quietly := repeat (first [apply quiet_bind; intros | progress cbv zeta | case_match | solve [auto with quiet]]).
Lemma quiet_write_pair s p n : quiet (write_alloc_pair s p n).
Proof. unfold write_alloc_pair. quietly. Qed.
#[local] Hint Resolve quiet_write_pair : quiet.
Lemma quiet_gather n iovs i t b : quiet (gather n iovs i t b).
Proof. revert i t b. induction n as [|n IH]; intros i t b; cbn [gather]; quietly. Qed.

Lemma evolves_quiet {A} h (m : HostM A) : quiet m → evolves_at h m.
Proof. intros Hm c <-. by rewrite Hm. Qed.
Lemma evolves_bind {A B} h (m : HostM A) (k : A → HostM B) : quiet m → (∀ a, evolves_at h (k a)) → evolves_at h (hbind m k).
Proof.
  intros Hm Hk c Hc. unfold hbind. specialize (Hm c). destruct (m c) as [[a|s] c']; simpl in *.
  - apply Hk. congruence.
  - by rewrite Hm, Hc.
Qed.
Lemma evolves_state {B} h (k : HostState → HostM B) : evolves_at h (k h) → evolves_at h (hbind state k).
Proof. intros Hk c Hc. unfold hbind, state. rewrite Hc. by apply Hk. Qed.
Lemma evolves_put {B} h h' (k : unit → HostM B) : host_evolves h h' → quiet (k tt) → evolves_at h (hbind (put h') k).
Proof. intros Hh Hk c Hc. unfold hbind, put. by rewrite Hk. Qed.
Lemma evolves_put_last h h' : host_evolves h h' → evolves_at h (put h').
Proof. by intros Hh c Hc. Qed.

Lemma evolves_mutate h mt key m : evolves_at h (mutate mt key m).
Proof.
  unfold mutate. apply evolves_state. destruct (mutate_header mt key m h) as [st h'] eqn:Hm.
  apply evolves_put; [|apply quiet_status]. unfold mutate_header in Hm.
  repeat case_match; simplify_eq; try reflexivity; apply evolves_upd_context.
Qed.

Ltac evolve :=
  repeat (first [apply evolves_mutate | apply evolves_state | apply evolves_put; [|quietly] | apply evolves_put_last
                | apply evolves_bind; [quietly|intros] | case_match | apply evolves_quiet; solve [quietly]]);
  try (apply evolves_upd_context || by apply evolves_same).

Lemma evolves_http_call h a b d e f g i j : evolves_at h (proxy_http_call a b d e f g i j).
Proof.
  unfold proxy_http_call. apply evolves_bind; [quietly|intros cluster]. apply evolves_bind; [quietly|intros hb].
  apply evolves_state. apply evolves_bind; [quietly|intros body]. apply evolves_bind; [quietly|intros pairs].
  apply evolves_state. pose proof (evolves_dispatch cluster pairs body i h) as Hd.
  destruct (dispatch_call cluster pairs body i h) as [[token|s] h']; [|apply evolves_quiet; quietly].
  apply evolves_put; [done|quietly].
Qed.

Lemma evolves_wasi h m c : evolves_at h m → cl_host c = h → host_evolves h (cl_host (wasi m c).2).
Proof. intros Hm Hc. specialize (Hm c Hc). unfold wasi. by destruct (m c) as [[] ?]. Qed.

Lemma host_function_evolves f c : host_function f → host_evolves (cl_host c) (cl_host (f c)).
Proof.
  assert (∀ {A} (m : HostM A), evolves_at (cl_host c) m → host_evolves (cl_host c) (cl_host (m c).2)) as Hat.
  { intros A m Hm. by apply Hm. }
  destruct 1; try reflexivity; try (apply Hat).
  all: try solve [apply evolves_quiet; quietly].
  - unfold proxy_set_tick_period_milliseconds. evolve.
  - unfold proxy_set_effective_context. evolve.
  - unfold proxy_done. evolve.
  - unfold proxy_continue_stream. evolve.
  - unfold proxy_close_stream. apply evolves_quiet. quietly.
  - unfold proxy_set_buffer_bytes. evolve.
  - unfold proxy_set_header_map_pairs. evolve.
  - unfold proxy_add_header_map_value, set_header_with. evolve.
  - unfold proxy_replace_header_map_value, set_header_with. evolve.
  - unfold proxy_remove_header_map_value. evolve.
  - unfold proxy_send_local_response. evolve.
  - apply evolves_http_call.
  - unfold proxy_set_property. evolve.
  - apply evolves_wasi; [|done]. apply evolves_quiet. quietly.
  - unfold clock_time_get. repeat case_match; try reflexivity; (apply evolves_wasi; [|done]; apply evolves_quiet; quietly).
  - apply evolves_wasi; [|done]. apply evolves_quiet. quietly.
  - apply evolves_wasi; [|done]. apply evolves_quiet. quietly.
  - unfold fd_write. case_match; [reflexivity|]. apply evolves_wasi; [|done]. apply evolves_quiet.
    apply quiet_bind; [apply quiet_gather|]. intros r. quietly.
Qed.
End guest.

(** ** Honest guests *)

Section requests.
Context `{HttpLib} `{!HeaderLib} `{!HostEnv} `{!VmLib} {G : Type}.
Implicit Types (vm : Vm G) (v : VmState G) (p : Proc G) (h : HostState).

(** One host call, from any memory and with any allocator. *)
Definition host_step (a b : HostState * Shared) : Prop :=
  ∃ f c, host_function f ∧ (cl_host c, cl_shared c) = a ∧ (cl_host (f c), cl_shared (f c)) = b.
(** The effect of a hook on the host is a sequence of host calls, also when it traps. *)
Definition honest (f : Hook (G:=G)) : Prop := ∀ b args v r v',
  f b args v = (r, v') → rtc host_step (vs_host v, vs_shared v) (vs_host v', vs_shared v').

Record honest_vm vm : Prop := {
  hv_create : honest (fn_on_context_create vm);
  hv_request_headers : honest (fn_on_request_headers vm);
  hv_request_body f : fn_on_request_body vm = Some f → honest f;
  hv_request_trailers f : fn_on_request_trailers vm = Some f → honest f;
  hv_response_headers : honest (fn_on_response_headers vm);
  hv_response_body f : fn_on_response_body vm = Some f → honest f;
  hv_response_trailers f : fn_on_response_trailers vm = Some f → honest f;
  hv_call_response : honest (fn_on_http_call_response vm);
  hv_log f : fn_on_log vm = Some f → honest f;
  hv_done f : fn_on_done vm = Some f → honest f;
  hv_delete f : fn_on_delete vm = Some f → honest f;
}.

Lemma honest_evolves f b args v r v' : honest f → f b args v = (r, v') → host_evolves (vs_host v) (vs_host v').
Proof.
  intros Hf Hr. specialize (Hf _ _ _ _ _ Hr).
  change (vs_host v) with (vs_host v, vs_shared v).1. change (vs_host v') with (vs_host v', vs_shared v').1.
  induction Hf as [|x y z (g & c & Hg & <- & <-) _ IH]; [reflexivity|]. etrans; [|exact IH]. by apply host_function_evolves.
Qed.

(** ** Steps of a request

    [vkeeps]: all a step does is to evolve the host. [ends id]: the step evolves it but for the
    context [id], which is gone when the step is done. *)

Record request_evolves h h' : Prop := {
  re_cfg : shell_cfg h' = shell_cfg h;
  re_calls : ∃ new, http_calls h' = http_calls h ++ new ∧
    (∀ t, is_Some (pending_calls h' !! t) → is_Some (pending_calls h !! t) ∨ t ∈ hc_token <$> new);
  re_limit : ∀ limit, max_pending_calls (limits (shell_cfg h)) = Some limit →
    Z.of_nat (size (pending_calls h')) ≤ Z.max limit (Z.of_nat (size (pending_calls h)));
}.
Lemma request_evolves_of h h' : host_evolves h h' → request_evolves h h'.
Proof. by intros [? _ _ ? ?]. Qed.
#[export] Instance request_evolves_preorder : PreOrder request_evolves.
Proof.
  split; [intros h; by apply request_evolves_of|].
  intros h1 h2 h3 [Hc1 (n1 & Hn1 & Hp1) Hl1] [Hc2 (n2 & Hn2 & Hp2) Hl2]. split; [congruence| |].
  - exists (n1 ++ n2). rewrite Hn2, Hn1, app_assoc. split; [done|]. intros t Ht.
    rewrite fmap_app, elem_of_app. destruct (Hp2 t Ht) as [Ht2|]; [|by right; right].
    destruct (Hp1 t Ht2); [by left|right; by left].
  - intros limit Hlim. specialize (Hl1 limit Hlim). rewrite Hc1 in Hl2. specialize (Hl2 limit Hlim). lia.
Qed.

Definition waits p : Prop := p_rx p = [] ∧ pending_calls (vs_host (p_vm p)) ≠ ∅.
Definition vkeeps {A} (m : VmM A) : Prop := ∀ p out p', m p = (out, p') →
  host_evolves (vs_host (p_vm p)) (vs_host (p_vm p')) ∧ (out = Waiting → waits p').
Definition ends {A} (id : Z) (m : VmM A) : Prop := ∀ p out p', m p = (out, p') →
  request_evolves (vs_host (p_vm p)) (vs_host (p_vm p')) ∧
  (out = Waiting → waits p') ∧
  (∀ a, out = Done a → dom (contexts (vs_host (p_vm p'))) = dom (contexts (vs_host (p_vm p))) ∖ {[id]}).

Lemma vkeeps_ret {A} (a : A) : vkeeps (vret a).
Proof. intros p out p' [= <- <-]. done. Qed.
Lemma vkeeps_fail {A} e : vkeeps (vfail (A:=A) e).
Proof. intros p out p' [= <- <-]. done. Qed.
Lemma vkeeps_vhost : vkeeps vhost.
Proof. intros p out p' [= <- <-]. done. Qed.
Lemma vkeeps_lift {A} (r : result A WasmHostError) : vkeeps (lift r).
Proof. destruct r; [apply vkeeps_ret|apply vkeeps_fail]. Qed.
Lemma vkeeps_bind {A B} (m : VmM A) (k : A → VmM B) : vkeeps m → (∀ a, vkeeps (k a)) → vkeeps (vbind m k).
Proof.
  intros Hm Hk p out p'. unfold vbind. destruct (m p) as [[a|e| |] p1] eqn:Hp; apply Hm in Hp as [Hp Hw].
  - intros Hkp. apply Hk in Hkp as [? ?]. split; [by etrans|done].
  - intros [= <- <-]. done.
  - intros [= <- <-]. split; [done|]. intros _. by apply Hw.
  - intros [= <- <-]. done.
Qed.
Lemma ends_bind {A B} id (m : VmM A) (k : A → VmM B) : vkeeps m → (∀ a, ends id (k a)) → ends id (vbind m k).
Proof.
  intros Hm Hk p out p'. unfold vbind. destruct (m p) as [[a|e| |] p1] eqn:Hp; apply Hm in Hp as [Hp Hw].
  - intros Hkp. apply Hk in Hkp as (? & ? & Hd). split_and!; [etrans; [by apply request_evolves_of|done]|done|].
    intros b Hb. rewrite (Hd b Hb), (he_contexts _ _ Hp). done.
  - intros [= <- <-]. split_and!; [by apply request_evolves_of|done..].
  - intros [= <- <-]. split_and!; [by apply request_evolves_of| |done]. intros _. by apply Hw.
  - intros [= <- <-]. split_and!; [by apply request_evolves_of|done..].
Qed.
Lemma ends_ret {A} id (m : VmM unit) (a : A) : ends id m → ends id (vbind m (λ _, vret a)).
Proof.
  intros Hm p out p'. unfold vbind. destruct (m p) as [[[]|e| |] p1] eqn:Hp; apply Hm in Hp as (He & Hw & Hd);
    intros [= <- <-]; split_and!; try done; [intros ? _; by apply (Hd tt)|intros _; by apply Hw].
Qed.

Lemma vkeeps_vupd (f : HostState → HostState) : (∀ h, host_evolves h (f h)) → vkeeps (vupd f).
Proof. intros Hf p out p' [= <- <-]. split; [apply Hf|done]. Qed.
Lemma vkeeps_try f args : honest f → vkeeps (try_hook f args).
Proof.
  intros Hf p out p'. unfold try_hook, run_hook. destruct (f _ _ _) as [r v'] eqn:Hr. intros [= <- <-]. simpl.
  split; [by eapply honest_evolves|done].
Qed.
Lemma vkeeps_call name f args : honest f → vkeeps (call_hook name f args).
Proof.
  intros Hf. apply vkeeps_bind; [by apply vkeeps_try|]. intros [x|e]; [apply vkeeps_ret|apply vkeeps_fail].
Qed.
Lemma evolves_enter id f h : host_evolves h (enter id f h).
Proof.
  unfold enter. case_match; [|reflexivity]. etrans; [apply evolves_upd_context|]. by apply evolves_same.
Qed.
Lemma evolves_effective id h : host_evolves h (set_effective id h).
Proof. by apply evolves_same. Qed.

Lemma evolves_remove token h : host_evolves h (upd_pending (delete token) h).
Proof.
  split; try done.
  - exists []. rewrite app_nil_r. split; [done|]. simpl. intros t [x Hx]. left.
    apply lookup_delete_Some in Hx as [_ ?]. by eexists.
  - intros limit _. simpl. destruct (pending_calls h !! token) as [x|] eqn:Hx.
    + rewrite (map_size_delete_Some _ _ (ex_intro _ x Hx)). lia.
    + rewrite map_size_delete_None by done. lia.
Qed.

Lemma vkeeps_drive vm id : honest (fn_on_http_call_response vm) → vkeeps (drive_until_continue vm id).
Proof.
  intros Hf. assert (∀ rx v inner out p', drive vm id rx v inner = (out, p') →
    host_evolves (vs_host v) (vs_host (p_vm p')) ∧ (out = Waiting → waits p')) as Hd.
  { induction rx as [|[token res] rx IH]; intros v inner out p'; simpl.
    - repeat case_match; intros; simplify_eq/=; (split; [reflexivity|]); try done.
      intros _. split; [done|]. simpl. by eapply bool_decide_eq_false_1.
    - repeat case_match; intros; simplify_eq/=; try (split; [reflexivity|done]).
      all: match goal with H : run_hook _ _ _ = _ |- _ => eapply honest_evolves in H; [|exact Hf] end.
      all: assert (host_evolves (vs_host v) (vs_host v0)) as Hv by
        (etrans; [apply evolves_remove|]; etrans; [apply evolves_effective|]; etrans; [apply evolves_upd_context|]; eassumption).
      + match goal with H : drive _ _ _ _ _ = _ |- _ => apply IH in H as [? ?] end. split; [by etrans|done].
      + split; [done|done]. }
  intros p out p' Hp. by apply Hd in Hp.
Qed.

Hint Resolve vkeeps_ret vkeeps_fail vkeeps_vhost vkeeps_lift vkeeps_try vkeeps_call vkeeps_drive evolves_enter
  evolves_effective evolves_upd_context : core.

Lemma vkeeps_pause vm id action : honest (fn_on_http_call_response vm) → vkeeps (pause_drive vm id action).
Proof. intros. unfold pause_drive. case_decide; auto. Qed.
Lemma vkeeps_take id : vkeeps (take_local id).
Proof. apply vkeeps_bind; [auto|]. intros h. apply vkeeps_bind; [by apply vkeeps_vupd|]. auto. Qed.

Lemma ends_delete vm id : honest_vm vm → ends id (invoke_log_done_delete vm id).
Proof.
  intros []. unfold invoke_log_done_delete.
  do 2 (apply ends_bind; [by apply vkeeps_vupd|intros _]).
  apply ends_bind; [case_match; [apply vkeeps_bind; auto|auto]|intros _].
  apply ends_bind.
  { case_match; [|auto]. apply vkeeps_bind; [by apply vkeeps_vupd|intros _]. apply vkeeps_bind; auto. }
  intros _. apply ends_bind; [case_match; [apply vkeeps_bind; auto|auto]|intros _].
  intros p out p' [= <- <-]. split_and!; try done.
  - split; try done; [|simpl; lia]. exists []. rewrite app_nil_r. by split; [|left].
  - intros _ _. simpl. by rewrite dom_delete_L.
Qed.
Lemma ends_unless vm id (k : VmM Response) : honest_vm vm → ends id k → ends id (unless_local vm id k).
Proof.
  intros Hvm Hk. apply ends_bind; [apply vkeeps_take|]. intros [l|]; [|done]. by apply ends_ret, ends_delete.
Qed.
Lemma ends_inner {A} id inner req (k : Response → VmM A) : (∀ resp, ends id (k resp)) → ends id (vbind (call_inner inner req) k).
Proof.
  intros Hk. apply ends_bind; [|done]. intros p out p'. unfold call_inner. case_match; intros [= <- <-]; done.
Qed.

(** The part of [process] after the context was entered. *)
Lemma ends_process_rest vm id req inner : honest_vm vm →
  ends id (unless_local vm id (on_request_body vm id (req_body req) (λ body,
    on_request_trailers vm id (
      h << vhost;;
      resp << call_inner inner (forwarded h id req body);;
      on_response_headers vm id resp (
        hb << on_response_body vm id resp;;
        headers << on_response_trailers vm id hb.1;;
        invoke_log_done_delete vm id;;>
        vret (MkResp (resp_status resp) headers (resp_ext resp) hb.2)))))).
Proof.
  intros Hvm. pose proof Hvm as [].
  assert (∀ {A} (f : HostState → HostState) (k : VmM A), (∀ h, host_evolves h (f h)) → ends id k → ends id (vupd f;;> k)) as Hupd.
  { intros A f k Hf Hk. apply ends_bind; [by apply vkeeps_vupd|done]. }
  assert (∀ {A} name f args (k : Z → VmM A), honest f → (∀ a, ends id (k a)) → ends id (vbind (call_hook name f args) k)) as Hcall.
  { intros. apply ends_bind; auto. }
  assert (∀ {A} a (k : VmM A), ends id k → ends id (pause_drive vm id a;;> k)) as Hpause.
  { intros. apply ends_bind; [by apply vkeeps_pause|done]. }
  assert (∀ resp, ends id (hb << on_response_body vm id resp;; headers << on_response_trailers vm id hb.1;;
    invoke_log_done_delete vm id;;> vret (MkResp (resp_status resp) headers (resp_ext resp) hb.2))) as Hresp.
  { intros resp. apply ends_bind.
    - unfold on_response_body. case_match; [|auto]. apply vkeeps_bind; [auto|intros ?]. apply vkeeps_bind; [auto|intros ?].
      apply vkeeps_bind; [by apply vkeeps_vupd|intros ?]. apply vkeeps_bind; [auto|intros ?].
      apply vkeeps_bind; [by apply vkeeps_pause|intros ?]. apply vkeeps_bind; auto.
    - intros hb. apply ends_bind.
      + unfold on_response_trailers. case_match; [|auto]. do 2 (apply vkeeps_bind; [by apply vkeeps_vupd|intros ?]).
        apply vkeeps_bind; [auto|intros ?]. apply vkeeps_bind; auto.
      + intros headers. by apply ends_ret, ends_delete. }
  assert (∀ body, ends id (on_request_trailers vm id (h << vhost;; resp << call_inner inner (forwarded h id req body);;
    on_response_headers vm id resp (hb << on_response_body vm id resp;; headers << on_response_trailers vm id hb.1;;
    invoke_log_done_delete vm id;;> vret (MkResp (resp_status resp) headers (resp_ext resp) hb.2))))) as Htrail.
  { intros body.
    match goal with |- ends _ (on_request_trailers _ _ ?k) => assert (ends id k) as Hk end.
    { apply ends_bind; [auto|intros ?]. apply ends_inner. intros resp. apply Hupd; [auto|]. apply Hcall; [done|intros ?].
      apply Hpause. by apply ends_unless. }
    unfold on_request_trailers. case_match; [|done]. do 2 (apply Hupd; [auto|]). apply Hcall; [auto|intros ?].
    apply Hpause. by apply ends_unless. }
  apply ends_unless; [done|]. unfold on_request_body. case_match; [|done].
  apply ends_bind; [auto|intros ?]. apply ends_bind; [auto|intros ?]. apply Hupd; [auto|]. apply Hcall; [auto|intros ?].
  apply Hpause. apply ends_unless; [done|]. apply ends_bind; auto.
Qed.

Definition cleared p : HostState := upd_pending (λ _, ∅) (vs_host (p_vm p)).

Lemma process_spec vm id req inner p out p' : honest_vm vm → process vm id req inner p = (out, p') →
  request_evolves (cleared p) (vs_host (p_vm p')) ∧ (out = Waiting → waits p') ∧
  (∀ resp, out = Done resp → dom (contexts (vs_host (p_vm p'))) = dom (contexts (vs_host (p_vm p))) ∖ {[id]}).
Proof.
  intros Hvm. pose proof Hvm as []. unfold process.
  unfold vbind at 1. unfold vupd at 1. cbn [p_vm p_rx p_inner].
  set (p0 := MkProc _ _ _). change (cleared p) with (vs_host (p_vm p0)).
  change (dom (contexts (vs_host (p_vm p)))) with (dom (contexts (vs_host (p_vm p0)))). clearbody p0. clear p.
  unfold vbind at 1. unfold vupd at 1. set (p1 := MkProc _ _ _).
  assert (host_evolves (vs_host (p_vm p0)) (vs_host (p_vm p1))) as E1 by (apply evolves_effective). clearbody p1.
  unfold vbind at 1. destruct (call_hook _ _ _ p1) as [o2 p2] eqn:Hc. apply vkeeps_call in Hc as [E2 W2]; [|done].
  assert (host_evolves (vs_host (p_vm p0)) (vs_host (p_vm p2))) as E02 by (by etrans). clear E1 E2.
  destruct o2 as [a|e| |];
    [|intros [= <- <-]; split_and!; [by apply request_evolves_of|intros; try done; by apply W2|done]..].
  unfold vbind at 1. unfold vupd at 1. set (p3 := MkProc _ _ _).
  assert (request_evolves (vs_host (p_vm p2)) (vs_host (p_vm p3))) as E3.
  { split; try done; [|simpl; lia]. exists []. rewrite app_nil_r. by split; [|left]. }
  assert (dom (contexts (vs_host (p_vm p3))) = {[id]} ∪ dom (contexts (vs_host (p_vm p2)))) as D3.
  { simpl. by rewrite dom_insert_L. }
  clearbody p3. intros Hrest.
  assert (ends id (vupd (set_effective id);;>
    action << call_hook "on_request_headers" (fn_on_request_headers vm)
      [id; uwrap 32 (header_count (req_headers req) + 4); if fn_on_request_body vm then 0 else 1];;
    h << vhost;;
    _ << (if decide (action_from_u32 action = Pause ∧ pending_calls h ≠ ∅) then drive_until_continue vm id else vret tt);;
    unless_local vm id (on_request_body vm id (req_body req) (λ body,
    on_request_trailers vm id (
      h << vhost;;
      resp << call_inner inner (forwarded h id req body);;
      on_response_headers vm id resp (
        hb << on_response_body vm id resp;;
        headers << on_response_trailers vm id hb.1;;
        invoke_log_done_delete vm id;;>
        vret (MkResp (resp_status resp) headers (resp_ext resp) hb.2))))))) as Hends.
  { apply ends_bind; [by apply vkeeps_vupd|intros _]. apply ends_bind; [auto|intros x]. apply ends_bind; [auto|intros h].
    apply ends_bind; [case_decide; auto|intros _]. by apply ends_process_rest. }
  apply Hends in Hrest as (He & Hw & Hd). split_and!; [|done|].
  - etrans; [by apply request_evolves_of|]. by etrans.
  - intros resp Hr. rewrite (Hd resp Hr), D3, (he_contexts _ _ E02). set_solver.
Qed.

(** ** The properties *)

Section properties.
Variables (vm : Vm G) (req : Request) (inner : Service) (rx : list (Z * HttpCallResult)).
Hypothesis honest_guest : honest_vm vm.
Let out : Outcome Response := (vm_process vm req inner rx).1.1.
Let before : HostState := vs_host (vm_state vm).
Let after : HostState := vs_host (vm_state (vm_process vm req inner rx).2).

Lemma vm_process_spec :
  request_evolves (upd_pending (λ _, ∅) before) after ∧
  (out = Waiting → pending_calls after ≠ ∅ ∧ p_rx (vm_process vm req inner rx).1.2 = []) ∧
  (∀ resp, out = Done resp → dom (contexts after) = dom (contexts before) ∖ {[vm_next_ctx_id vm]}).
Proof.
  subst out before after. unfold vm_process.
  destruct (process vm (vm_next_ctx_id vm) req inner (MkProc (vm_state vm) rx [])) as [o p] eqn:Hp.
  destruct (process_spec _ _ _ _ _ _ _ honest_guest Hp) as (He & Hw & Hd). split_and!; [done| |done].
  intros Ho. by destruct (Hw Ho).
Qed.

(** C8: A request waits only for calls of its own. Whatever a guest does, and whatever answers of
    earlier requests still arrive, a request that does not end has used up the answers it got and
    waits for at least one HTTP call, and every call it waits for was sent while this request was
    processed. *)
Theorem waits_for_own_calls : out = Waiting →
  p_rx (vm_process vm req inner rx).1.2 = [] ∧ pending_calls after ≠ ∅ ∧
  ∃ calls, http_calls after = http_calls before ++ calls ∧
    ∀ t, is_Some (pending_calls after !! t) → t ∈ hc_token <$> calls.
Proof.
  intros Ho. destruct vm_process_spec as ([_ (calls & Hc & Hp) _] & Hw & _). destruct (Hw Ho) as [? ?].
  split_and!; [done..|]. exists calls. split; [done|]. intros t Ht. destruct (Hp t Ht) as [[x Hx]|]; [|done].
  simpl in Hx. by rewrite lookup_empty in Hx.
Qed.

(** The limit on open calls holds. Whatever a guest does, a virtual machine that has processed
    a request, however the request ended, has at most [max_pending_calls] calls open. *)
Theorem open_calls_bounded limit :
  max_pending_calls (limits (shell_cfg before)) = Some limit → 0 ≤ limit →
  Z.of_nat (size (pending_calls after)) ≤ limit.
Proof.
  intros Hl ?. destruct vm_process_spec as ([_ _ Hs] & _). specialize (Hs limit Hl). simpl in Hs.
  rewrite map_size_empty in Hs. lia.
Qed.

(** C34: A request that is answered leaves nothing behind: whatever the guest did, the contexts of
    the virtual machine are those there were before, without one for the request. *)
Theorem answered_request_frees_context resp : out = Done resp →
  dom (contexts after) = dom (contexts before) ∖ {[vm_next_ctx_id vm]}.
Proof. destruct vm_process_spec as (_ & _ & Hd). apply Hd. Qed.
End properties.
End requests.

(** ** Concrete guests *)

(** A hook that makes one host call from the given memory, and one that does nothing. *)
Definition via_host (mem : string) (g : Caller → Caller) (ret : Z) : Hook (H:=ref_http) (G:=unit) := λ _ _ v,
  let c := g (MkCaller (Some mem) None (vs_host v) (vs_shared v)) in (Ok ret, MkVmState (cl_host c) (cl_shared c) tt).
Definition silent : Hook (H:=ref_http) (G:=unit) := λ _ _ v, (Ok 0, v).

Lemma via_host_honest mem g ret : host_function g → honest (via_host mem g ret).
Proof. intros Hg b args v r v' [= <- <-]. apply rtc_once. by exists g, (MkCaller (Some mem) None (vs_host v) (vs_shared v)). Qed.
Lemma silent_honest : honest silent.
Proof. intros b args v r v' [= <- <-]. done. Qed.

Definition example_vm (cfg : WasmPluginShellConfig) (request_headers : Hook) (request_body : option Hook)
    (response_headers : Hook) (response_body : option Hook) : Vm unit :=
  let h := upd_contexts <[1 := request_context_default]> (host_state_new cfg) in
  MkVm (MkVmState h shared_default tt) 1 2 FailOpen silent None silent request_headers request_body None
    response_headers response_body None silent None None None None.
Lemma example_vm_honest cfg a b c d : honest a → (∀ f, b = Some f → honest f) → honest c → (∀ f, d = Some f → honest f) →
  honest_vm (example_vm cfg a b c d).
Proof. intros. by split; simpl; try done; apply silent_honest. Qed.

Definition cfg_limits (l : WasmLimits) : WasmPluginShellConfig :=
  MkShellConfig "" None None None true JNull FailOpen {["svc" := "http://svc:80"]} l false "" "" "default" 1 0.
Definition call_memory : string := encode_pairs [(":method", "POST"); (":path", "/check"); (":authority", "svc")].
Definition calling : Hook := via_host call_memory (λ c, (proxy_http_call 0 0 0 (str_len call_memory) 0 0 100 0 c).2) 1.
Definition calling_vm : Vm unit := example_vm (cfg_limits (MkLimits None None None None (Some 1))) calling None silent None.
Definition example_request (body : string) : Request :=
  MkReq "GET" (MkUri None None (Some (MkPq "/" None))) 11 [("host", "a.b")] ext_empty body.
Definition example_inner : Service := λ req, Some (MkResp 200 [("x", "y")] ext_empty (req_body req)).

Lemma calling_vm_honest : honest_vm calling_vm.
Proof.
  apply example_vm_honest; try done; [|apply silent_honest]. apply via_host_honest. apply hf_http_call.
Qed.

(** Outcomes, as values that are cheap to compute. *)
Definition answer_of (o : Outcome Response) : option (Z * list (string * string) * string) :=
  match o with Done r => Some (resp_status r, resp_headers r, resp_body r) | _ => None end.
Definition failure_of (o : Outcome (Response (H:=ref_http))) : option WasmHostError :=
  match o with Failed e => Some e | _ => None end.
Definition is_waiting (o : Outcome (Response (H:=ref_http))) : bool := match o with Waiting => true | _ => false end.
Lemma is_waiting_true o : is_waiting o = true → o = Waiting.
Proof. by destruct o. Qed.
Lemma answer_of_Some o a : answer_of o = Some a → ∃ r, o = Done r.
Proof. destruct o as [r| | |]; [|done..]. by exists r. Qed.

Lemma waits_for_own_calls_witness :
  pending_calls (vs_host (vm_state (vm_process calling_vm (example_request "") example_inner []).2)) ≠ ∅.
Proof.
  refine (proj1 (proj2 (waits_for_own_calls calling_vm (example_request "") example_inner [] calling_vm_honest _))).
  apply is_waiting_true. vm_compute. reflexivity.
Defined.
Lemma open_calls_bounded_witness :
  Z.of_nat (size (pending_calls (vs_host (vm_state (vm_process calling_vm (example_request "") example_inner []).2)))) ≤ 1.
Proof.
  refine (open_calls_bounded calling_vm (example_request "") example_inner [] calling_vm_honest 1 eq_refl _). lia.
Defined.
Definition answer_ok : HttpCallResult := MkCallResult 200 "OK" [] "fine".
Lemma answered_request_frees_context_witness :
  dom (contexts (vs_host (vm_state (vm_process calling_vm (example_request "") example_inner [(1, answer_ok)]).2))) =
  dom (contexts (vs_host (vm_state calling_vm))) ∖ {[2]}.
Proof.
  destruct (answer_of_Some (vm_process calling_vm (example_request "") example_inner [(1, answer_ok)]).1.1
    (200, [("x", "y")], "")) as [r Hr]; [vm_compute; reflexivity|].
  exact (answered_request_frees_context calling_vm (example_request "") example_inner [(1, answer_ok)] calling_vm_honest r Hr).
Defined.

(** ** What the host does not do *)

(** A body over the limit is refused, but the context of the request stays. *)
Definition limited_vm : Vm unit := example_vm (cfg_limits (MkLimits None None None (Some 1) None)) silent (Some silent) silent None.
Example body_too_large_leaks :
  let r := vm_process limited_vm (example_request "xx") example_inner [] in
  failure_of r.1.1 = Some (BodyTooLarge 2 1) ∧ requires_vm_rebuild (BodyTooLarge 2 1) = false ∧
  bool_decide (is_Some (contexts (vs_host (vm_state r.2)) !! 2)) = true.
Proof. cbv zeta. split_and?; vm_compute; reflexivity. Qed.

(** A header that a guest adds in [proxy_on_response_headers] is lost if it exports no hook for the body. *)
Definition adding : Hook := via_host "x-addedyes" (λ c, (proxy_add_header_map_value 2 0 7 7 3 c).2) 0.
Example response_header_lost :
  answer_of (vm_process (example_vm shell_config_default silent None adding None) (example_request "") example_inner []).1.1 =
    Some (200, [("x", "y")], "") ∧
  answer_of (vm_process (example_vm shell_config_default silent None adding (Some silent)) (example_request "") example_inner []).1.1 =
    Some (200, [("x", "y"); ("x-added", "yes")], "").
Proof. cbv zeta. split_and?; vm_compute; reflexivity. Qed.

(** A status that a guest replaces stays as it was, although the call answers [Ok]. *)
Definition restating : Hook := via_host ":status404" (λ c, (proxy_replace_header_map_value 2 0 7 7 3 c).2) 0.
Example response_status_kept :
  answer_of (vm_process (example_vm shell_config_default silent None restating (Some silent)) (example_request "") example_inner []).1.1 =
    Some (200, [("x", "y")], "").
Proof. cbv zeta. split_and?; vm_compute; reflexivity. Qed.

(** A local response that is sent in [proxy_on_response_body] is ignored, and of two headers with
    the same name in a local response only one is sent. *)
Definition refusing : Hook := via_host "" (λ c, (proxy_send_local_response 403 0 0 0 0 c).2) 0.
Example late_local_response_ignored :
  answer_of (vm_process (example_vm shell_config_default silent None silent (Some refusing)) (example_request "b") example_inner []).1.1 =
    Some (200, [("x", "y")], "b").
Proof. cbv zeta. split_and?; vm_compute; reflexivity. Qed.
Example local_response_headers_merged :
  resp_headers (build_local_response (MkLocal 200 (pairs_to_header_map [("set-cookie", "a"); ("set-cookie", "b")]) "")) =
    [("set-cookie", "b")] ∧
  resp_status (build_local_response (MkLocal 0 [] "")) = 200.
Proof. cbv zeta. split_and?; vm_compute; reflexivity. Qed.

(** A guest that pauses without an open call does not hold the request up. *)
Definition pausing : Hook := via_host "" id 1.
Example pause_without_call_goes_on :
  answer_of (vm_process (example_vm shell_config_default pausing None silent None) (example_request "b") example_inner []).1.1 =
    Some (200, [("x", "y")], "b").
Proof. cbv zeta. split_and?; vm_compute; reflexivity. Qed.

(** The property [source.address] of a request is the name of the server it is for. *)
Example source_address_is_host :
  let h := host_state_new shell_config_default in
  let ctx := ctx_set_pseudo (pseudo_of (example_request "")) request_context_default in
  get_property (set_effective 2 (upd_contexts <[2 := ctx]> h)) (decode_property_path ("source" +:+ String NUL "address")) = Some "a.b".
Proof. cbv zeta. split_and?; vm_compute; reflexivity. Qed.
