(* ===== verification/WasmQueue.v ===== *)
(** * The queue plugin of the AI gateway

    [plugins/wasm/ai-gateway-queue/src/lib.rs] and [policy.rs]: the WebAssembly plugin that asks the
    AI gateway service whether a request is within its rate limit, and rejects, queues or waits for
    a request that is not.

    The plugin calls the host through the proxy-wasm SDK, which is the class [ProxyWasm]: its
    operations, over the state [W] of the host. The parser of [serde_json] is [JsonLib]. *)

From S2P Require Export WasmAbi Json Trim.
Local Open Scope string_scope.
Local Open Scope list_scope.
Local Open Scope Z_scope.

(** [proxy_wasm::traits::HttpContext] and [Context], as far as the plugin uses them. A call is
    dispatched with a cluster, headers, a body and a timeout in milliseconds. *)
Class ProxyWasm (W : Type) := {
  get_plugin_configuration : W → option string;
  get_http_request_header : string → W → option string;
  get_http_request_headers : W → list (string * string);
  get_http_request_body : Z → Z → W → option string;
  get_http_call_response_header : string → W → option string;
  get_http_call_response_body : Z → Z → W → option string;
  dispatch_http_call : string → list (string * string) → option string → Z → W → result Z Status * W;
  resume_http_request : W → W;
  send_http_response : Z → list (string * string) → option string → W → W;
  log : Level → string → W → W;
}.

(** ** policy.rs *)

Definition normalize_policy (value : string) : option string :=
  let v := to_ascii_lowercase (str_trim value) in
  if bool_decide (v = "abandon") then Some "abandon"
  else if bool_decide (v = "queue") then Some "queue"
  else if bool_decide (v = "wait") then Some "wait" else None.

Definition normalize_priority (value : string) : option string :=
  let v := to_ascii_lowercase (str_trim value) in
  if bool_decide (v = "high") then Some "high"
  else if bool_decide (v ∈ ["normal"; "default"; "medium"]) then Some "normal"
  else if bool_decide (v = "low") then Some "low" else None.

(** A text of the source with its double quotes written as backquotes. *)
Definition dq : ascii := ascii_of_nat 34.
Definition js : string → string := str_map (λ a, if decide (a = "`"%char) then dq else a).

Definition contains_allowed_true (text : string) : bool :=
  str_contains text (js "`allowed`:true") || str_contains text (js "`allowed`: true").

Fixpoint take_digits (s : string) : string :=
  match s with String a s' => if is_ascii_digit a then String a (take_digits s') else "" | "" => "" end.
Definition extract_json_number (text key : string) : option Z :=
  let quoted := String dq (key +:+ String dq "") in
  find_map (λ needle,
    match str_split_once_str needle text with
    | None => None
    | Some (_, rest) =>
        parse_unsigned 64 (take_digits (trim_start_any (String.length rest) (WHITESPACE ++ [String dq ""]) rest))
    end) [quoted +:+ ":"; quoted +:+ ":" +:+ String dq ""].

(** ** Helpers of lib.rs *)

Inductive Policy := Abandon | Queue | Wait.
#[export] Instance Policy_eq_dec : EqDecision Policy.
Proof. solve_decision. Defined.
Definition policy_name (p : Policy) : string :=
  match p with Abandon => "abandon" | Queue => "queue" | Wait => "wait" end.

Definition should_forward_to_service (name : string) : bool :=
  let lower := to_ascii_lowercase name in
  negb (starts_with lower ":") &&
  negb (bool_decide (lower ∈ ["host"; "connection"; "content-length"; "transfer-encoding"; "x-original-method";
    "x-original-path"; "x-ratelimit-policy"; "x-tenant-id"; "x-model"; "x-queue-priority"])).

Definition contains_value (values : list string) (needle : string) : bool :=
  existsb (λ value, eq_ignore_ascii_case value needle) values.

Fixpoint value_at (value : Json) (path : list string) : option Json :=
  match path with [] => Some value | key :: path => v ← json_get key value; value_at v path end.
Definition string_at (value : Json) (path : list string) : option string := v ← value_at value path; json_str v.
(** [Value::as_u64], [as_bool], [as_array] *)
Definition json_u64 (v : Json) : option Z := match v with JNumber text => parse_unsigned 64 text | _ => None end.
Definition json_bool (v : Json) : option bool := match v with JBool b => Some b | _ => None end.
Definition json_array (v : Json) : option (list Json) := match v with JArray l => Some l | _ => None end.

Definition not_blank (s : string) : bool := negb (str_is_empty (str_trim s)).
Definition set_string (value : Json) (path : list string) (target : string) : string :=
  match string_at value path with Some v => if not_blank v then v else target | None => target end.
Definition set_u64 (value : Json) (path : list string) (target : Z) : Z := default target (v ← value_at value path; json_u64 v).
Definition set_bool (value : Json) (path : list string) (target : bool) : bool := default target (v ← value_at value path; json_bool v).

Definition parse_csv (value : string) : list string :=
  List.filter (λ s, negb (str_is_empty s)) (str_trim <$> str_split "," value).
Definition string_vec_at (value : Json) (path : list string) : option (list string) :=
  match value_at value path with
  | None => None
  | Some value =>
      match json_str value with
      | Some raw => Some (parse_csv raw)
      | None => (λ values, omap (M:=list) json_str values) <$> json_array value
      end
  end.
Definition normalize_header_name (value fallback : string) : string :=
  let value := to_ascii_lowercase (str_trim value) in
  if str_is_empty value || starts_with value ":" then fallback else value.

(** ** Configuration *)

Record AiGatewayConfig := MkAiConfig {
  service_cluster : string;
  service_authority : string;
  rate_limit_path : string;
  enqueue_path : string;
  wait_path : string;
  service_timeout_ms : Z;
  require_policy : bool;
  policy_header : string;
  tenant_header : string;
  model_header : string;
  priority_header : string;
  default_policy : option string;
  priority_enabled : bool;
  default_priority : string;
  high_priority_models : list string;
  low_priority_models : list string;
  high_priority_tenants : list string;
  low_priority_tenants : list string;
}.
Definition config_default : AiGatewayConfig :=
  MkAiConfig "ai-gateway-service" "ai-gateway-service" "/v1/ratelimit/check" "/v1/queue/enqueue" "/v1/queue/enqueue-and-wait"
    65000 true "x-ratelimit-policy" "x-tenant-id" "x-model" "x-queue-priority" None true "normal" [] [] [] [].

Definition apply_json (value : Json) (c : AiGatewayConfig) : AiGatewayConfig :=
  let str2 a b t := set_string value b (set_string value a t) in
  let vec a b := default [] (opt_or (string_vec_at value a) (string_vec_at value b)) in
  MkAiConfig
    (str2 ["service_cluster"] ["service"; "cluster"] (service_cluster c))
    (str2 ["service_authority"] ["service"; "authority"] (service_authority c))
    (str2 ["rate_limit_path"] ["paths"; "rate_limit"] (rate_limit_path c))
    (str2 ["enqueue_path"] ["paths"; "enqueue"] (enqueue_path c))
    (str2 ["wait_path"] ["paths"; "wait"] (wait_path c))
    (set_u64 value ["service"; "timeout_ms"] (set_u64 value ["service_timeout_ms"] (service_timeout_ms c)))
    (set_bool value ["policies"; "require"] (set_bool value ["require_policy"] (require_policy c)))
    (str2 ["policy_header"] ["headers"; "policy"] (policy_header c))
    (str2 ["tenant_header"] ["headers"; "tenant"] (tenant_header c))
    (str2 ["model_header"] ["headers"; "model"] (model_header c))
    (str2 ["priority_header"] ["headers"; "priority"] (priority_header c))
    (opt_or (string_at value ["default_policy"]) (string_at value ["policies"; "default"]))
    (set_bool value ["priority"; "enabled"] (set_bool value ["priority_enabled"] (priority_enabled c)))
    (str2 ["default_priority"] ["priority"; "default"] (default_priority c))
    (vec ["priority"; "high_models"] ["high_priority_models"])
    (vec ["priority"; "low_models"] ["low_priority_models"])
    (vec ["priority"; "high_tenants"] ["high_priority_tenants"])
    (vec ["priority"; "low_tenants"] ["low_priority_tenants"]).

(** [str::lines] *)
Fixpoint lines_of (pieces : list string) : list string :=
  match pieces with
  | [] => []
  | [last] => if str_is_empty last then [] else [last]
  | l :: rest => default l (str_strip_suffix (String (ascii_of_nat 13) "") l) :: lines_of rest
  end.
Definition str_lines (text : string) : list string := lines_of (str_split (ascii_of_nat 10) text).
Definition trim_set (chars : string) (s : string) : string :=
  let f a := str_contains_char a chars in trim_end_if f (trim_start_if f s).
Definition parse_bool (s : string) : option bool :=
  if bool_decide (s = "true") then Some true else if bool_decide (s = "false") then Some false else None.

Definition apply_legacy_line (line : string) (c : AiGatewayConfig) : AiGatewayConfig :=
  let '(MkAiConfig cluster authority rate_limit enqueue wait timeout require policy tenant model priority defpol
          enabled defprio highm lowm hight lowt) := c in
  match str_split_once ":" line with
  | None => c
  | Some (key, value) =>
      let key := trim_set (js "`'{, ") (str_trim key) in
      let value := trim_set (js "`', ") (str_trim value) in
      let named k := bool_decide (key = k) in
      if named "service_cluster" then MkAiConfig value authority rate_limit enqueue wait timeout require policy tenant model priority defpol enabled defprio highm lowm hight lowt
      else if named "service_authority" then MkAiConfig cluster value rate_limit enqueue wait timeout require policy tenant model priority defpol enabled defprio highm lowm hight lowt
      else if named "rate_limit_path" then MkAiConfig cluster authority value enqueue wait timeout require policy tenant model priority defpol enabled defprio highm lowm hight lowt
      else if named "enqueue_path" then MkAiConfig cluster authority rate_limit value wait timeout require policy tenant model priority defpol enabled defprio highm lowm hight lowt
      else if named "wait_path" then MkAiConfig cluster authority rate_limit enqueue value timeout require policy tenant model priority defpol enabled defprio highm lowm hight lowt
      else if named "service_timeout_ms" then MkAiConfig cluster authority rate_limit enqueue wait (default timeout (parse_unsigned 64 value)) require policy tenant model priority defpol enabled defprio highm lowm hight lowt
      else if named "require_policy" then MkAiConfig cluster authority rate_limit enqueue wait timeout (default require (parse_bool value)) policy tenant model priority defpol enabled defprio highm lowm hight lowt
      else if named "policy_header" then MkAiConfig cluster authority rate_limit enqueue wait timeout require value tenant model priority defpol enabled defprio highm lowm hight lowt
      else if named "tenant_header" then MkAiConfig cluster authority rate_limit enqueue wait timeout require policy value model priority defpol enabled defprio highm lowm hight lowt
      else if named "model_header" then MkAiConfig cluster authority rate_limit enqueue wait timeout require policy tenant value priority defpol enabled defprio highm lowm hight lowt
      else if named "priority_header" then MkAiConfig cluster authority rate_limit enqueue wait timeout require policy tenant model value defpol enabled defprio highm lowm hight lowt
      else if named "default_policy" then MkAiConfig cluster authority rate_limit enqueue wait timeout require policy tenant model priority (Some value) enabled defprio highm lowm hight lowt
      else if named "priority_enabled" then MkAiConfig cluster authority rate_limit enqueue wait timeout require policy tenant model priority defpol (default enabled (parse_bool value)) defprio highm lowm hight lowt
      else if named "default_priority" then MkAiConfig cluster authority rate_limit enqueue wait timeout require policy tenant model priority defpol enabled value highm lowm hight lowt
      else if named "high_priority_models" then MkAiConfig cluster authority rate_limit enqueue wait timeout require policy tenant model priority defpol enabled defprio (parse_csv value) lowm hight lowt
      else if named "low_priority_models" then MkAiConfig cluster authority rate_limit enqueue wait timeout require policy tenant model priority defpol enabled defprio highm (parse_csv value) hight lowt
      else if named "high_priority_tenants" then MkAiConfig cluster authority rate_limit enqueue wait timeout require policy tenant model priority defpol enabled defprio highm lowm (parse_csv value) lowt
      else if named "low_priority_tenants" then MkAiConfig cluster authority rate_limit enqueue wait timeout require policy tenant model priority defpol enabled defprio highm lowm hight (parse_csv value)
      else c
  end.
Definition apply_legacy_lines (text : string) (c : AiGatewayConfig) : AiGatewayConfig :=
  foldl (λ c line, apply_legacy_line line c) c (str_lines text).

Definition normalized (c : AiGatewayConfig) : AiGatewayConfig :=
  MkAiConfig (service_cluster c) (service_authority c) (rate_limit_path c) (enqueue_path c) (wait_path c) (service_timeout_ms c)
    (require_policy c)
    (normalize_header_name (policy_header c) "x-ratelimit-policy")
    (normalize_header_name (tenant_header c) "x-tenant-id")
    (normalize_header_name (model_header c) "x-model")
    (normalize_header_name (priority_header c) "x-queue-priority")
    (v ← default_policy c; normalize_policy v)
    (priority_enabled c)
    (default "normal" (normalize_priority (default_priority c)))
    (high_priority_models c) (low_priority_models c) (high_priority_tenants c) (low_priority_tenants c).

Definition config_parse `{JsonLib} (raw : string) : AiGatewayConfig :=
  if str_is_empty raw then config_default
  else match json_from_slice raw with
       | Some value => normalized (apply_json value config_default)
       | None => normalized (apply_legacy_lines (from_utf8_lossy raw) config_default)
       end.

(** ** The context of a request *)

Inductive Pending := PRateLimit (policy : Policy) | PQueue | PWait.
Record AiGatewayHttp := MkHttp {
  cfg : AiGatewayConfig;
  pending : option (Z * Pending);
  rate_limited_enqueue : option Policy;
  body_pending : bool;
}.
(** [AiGatewayRoot::create_http_context] *)
Definition create_http_context (root : AiGatewayConfig) : AiGatewayHttp := MkHttp root None None false.
Definition set_pending v (s : AiGatewayHttp) := MkHttp (cfg s) v (rate_limited_enqueue s) (body_pending s).
Definition set_enqueue v (s : AiGatewayHttp) := MkHttp (cfg s) (pending s) v (body_pending s).
Definition set_body_pending v (s : AiGatewayHttp) := MkHttp (cfg s) (pending s) (rate_limited_enqueue s) v.

Section handlers.
Context {W : Type} `{!ProxyWasm W}.
Implicit Types (s : AiGatewayHttp) (w : W).

(** [AiGatewayRoot::on_configure] and [on_vm_start] *)
Definition on_configure `{JsonLib} (w : W) : AiGatewayConfig := config_parse (default "" (get_plugin_configuration w)).
Definition on_vm_start (w : W) : bool * W := (true, log INFO "ai-gateway-queue wasm plugin started" w).

Definition request_policy (c : AiGatewayConfig) w : option Policy :=
  value ← opt_or (get_http_request_header (policy_header c) w) (default_policy c);
  match normalize_policy value with
  | Some p => if bool_decide (p = "abandon") then Some Abandon else if bool_decide (p = "queue") then Some Queue
              else if bool_decide (p = "wait") then Some Wait else None
  | None => None
  end.
Definition header_not_blank (name : string) w : option string :=
  v ← get_http_request_header name w; if not_blank v then Some v else None.
Definition tenant_id (c : AiGatewayConfig) w : option string := header_not_blank (tenant_header c) w.
Definition model (c : AiGatewayConfig) w : option string := header_not_blank (model_header c) w.

Definition queue_priority (c : AiGatewayConfig) (tenant_id model : string) w : option string :=
  if negb (priority_enabled c) then None
  else
    match v ← get_http_request_header (priority_header c) w; normalize_priority v with
    | Some priority => Some priority
    | None =>
        if contains_value (high_priority_tenants c) tenant_id || contains_value (high_priority_models c) model then Some "high"
        else if contains_value (low_priority_tenants c) tenant_id || contains_value (low_priority_models c) model then Some "low"
        else normalize_priority (default_priority c)
    end.

Definition service_headers (c : AiGatewayConfig) (path : string) w : list (string * string) :=
  let policy := default "abandon" (policy_name <$> request_policy c w) in
  let tenant := default "" (tenant_id c w) in
  let model := default "default" (model c w) in
  [(":method", "POST"); (":path", path); (":authority", service_authority c);
   ("x-original-method", default "POST" (get_http_request_header ":method" w));
   ("x-original-path", default "/" (get_http_request_header ":path" w));
   ("x-ratelimit-policy", policy); ("x-tenant-id", tenant); ("x-model", model)] ++
  match queue_priority c tenant model w with Some p => [("x-queue-priority", p)] | None => [] end ++
  List.filter (λ kv, should_forward_to_service kv.1) (get_http_request_headers w).

Definition send_json (status : Z) (body : string) w : W :=
  send_http_response status [("content-type", "application/json")] (Some body) w.

Definition dispatch_service_call (p : Pending) (path : string) (body : option string) s w : bool * AiGatewayHttp * W :=
  match dispatch_http_call (service_cluster (cfg s)) (service_headers (cfg s) path w) body (service_timeout_ms (cfg s)) w with
  | (Ok token, w) => (true, set_pending (Some (token, p)) s, w)
  | (Err status, w) => (false, s, log WARN "dispatch service call failed" w)
  end.

Definition dispatch_enqueue (policy : Policy) (body : string) s w : AiGatewayHttp * W :=
  let p := if decide (policy = Queue) then PQueue else PWait in
  let path := if decide (policy = Queue) then enqueue_path (cfg s) else wait_path (cfg s) in
  match dispatch_service_call p path (Some body) s w with
  | (true, s, w) => (s, w)
  | (false, s, w) => (s, send_json 502 (js "{`error`:`queue_service_unavailable`}") w)
  end.

Definition service_status w : Z :=
  default 502 (v ← get_http_call_response_header ":status" w; parse_unsigned 16 v).

(** The addition wraps around, as in a release build. *)
Definition send_rate_limited_response (text : string) w : W :=
  let retry_after_ms := default 1000 (extract_json_number text "retry_after_ms") in
  let retry_after_secs := dec_string (Z.max (uwrap 64 (retry_after_ms + 999) / 1000) 1) in
  let response_body := js "{`error`:`rate_limited`,`retry_after_ms`:" +:+ dec_string retry_after_ms +:+ "}" in
  send_http_response 429
    [("content-type", "application/json"); ("retry-after", retry_after_secs);
     ("x-ratelimit-retry-after-ms", dec_string retry_after_ms)]
    (Some response_body) w.

Definition response_headers_for_client w : list (string * string) :=
  omap (λ name, (λ v, (name, v)) <$> get_http_call_response_header name w)
    ["content-type"; "x-job-id"; "x-queue-wait-ms"; "x-gateway-job-id"; "retry-after"; "location"].
Definition forward_service_response (body_size : Z) w : W :=
  send_http_response (service_status w) (response_headers_for_client w)
    (Some (default "" (get_http_call_response_body 0 body_size w))) w.

Definition handle_rate_limit_response (body_size : Z) (policy : Policy) s w : AiGatewayHttp * W :=
  let status := service_status w in
  let text := from_utf8_lossy (default "" (get_http_call_response_body 0 body_size w)) in
  if (status =? 200) && contains_allowed_true text then (s, resume_http_request w)
  else if status =? 200 then
    match policy with
    | Abandon => (s, send_rate_limited_response text w)
    | Queue | Wait => if body_pending s then (set_enqueue (Some policy) s, w) else dispatch_enqueue policy "" s w
    end
  else (s, send_json 502 (js "{`error`:`rate_limit_service_error`}") w).

(** ** The callbacks *)

Definition on_http_call_response (token_id body_size : Z) s w : AiGatewayHttp * W :=
  match pending s with
  | None => (s, w)
  | Some (pending_token, p) =>
      if negb (token_id =? pending_token) then (s, w)
      else
        let s := set_pending None s in
        match p with
        | PRateLimit policy => handle_rate_limit_response body_size policy s w
        | PQueue | PWait => (s, forward_service_response body_size w)
        end
  end.

Definition on_http_request_headers (end_of_stream : bool) s w : Action * AiGatewayHttp * W :=
  match request_policy (cfg s) w with
  | None => (Pause, s, send_json 400 (js "{`error`:`missing_or_invalid_rate_limit_policy`}") w)
  | Some policy =>
      match tenant_id (cfg s) w with
      | None => (Pause, s, send_json 400 (js "{`error`:`missing_x_tenant_id`}") w)
      | Some _ =>
          let s := set_body_pending (negb end_of_stream && bool_decide (policy ≠ Abandon)) s in
          match dispatch_service_call (PRateLimit policy) (rate_limit_path (cfg s)) None s w with
          | (true, s, w) => (Pause, s, w)
          | (false, s, w) => (Pause, s, send_json 502 (js "{`error`:`rate_limit_service_unavailable`}") w)
          end
      end
  end.

Definition on_http_request_body (body_size : Z) (end_of_stream : bool) s w : Action * AiGatewayHttp * W :=
  if negb (body_pending s) && bool_decide (rate_limited_enqueue s = None) then (Continue, s, w)
  else if negb end_of_stream then (Pause, s, w)
  else
    let s := set_body_pending false s in
    match rate_limited_enqueue s with
    | None => (Continue, s, w)
    | Some policy =>
        let s := set_enqueue None s in
        let body := default "" (get_http_request_body 0 body_size w) in
        let '(s, w) := dispatch_enqueue policy body s w in
        (Pause, s, w)
    end.
End handlers.

(** ** What the service is told *)

Lemma service_headers_reserved `{!ProxyWasm W} c path (w : W) name value : (name, value) ∈ service_headers c path w →
  should_forward_to_service name = true ∨ (name, value) ∈
    [(":method", "POST"); (":path", path); (":authority", service_authority c);
     ("x-original-method", default "POST" (get_http_request_header ":method" w));
     ("x-original-path", default "/" (get_http_request_header ":path" w));
     ("x-ratelimit-policy", default "abandon" (policy_name <$> request_policy c w));
     ("x-tenant-id", default "" (tenant_id c w)); ("x-model", default "default" (model c w))] ∨
  name = "x-queue-priority" ∧ queue_priority c (default "" (tenant_id c w)) (default "default" (model c w)) w = Some value.
Proof.
  unfold service_headers. rewrite !elem_of_app. intros [Hin|[Hin|Hin]].
  - by right; left.
  - right; right. destruct (queue_priority _ _ _ _) as [p|]; [|by apply not_elem_of_nil in Hin].
    apply list_elem_of_singleton in Hin as [= -> ->]. done.
  - left. apply list_elem_of_In, List.filter_In in Hin as [_ Hf]. exact Hf.
Qed.

(** C9: The service learns from the plugin alone whom it answers for: whatever headers a client
    sends, in any case and any number, every header of a call to the service that names the tenant,
    the policy, the model or the priority carries what the plugin made of the request, and those
    that say where the call goes are the plugin's. *)
Theorem service_identity `{!ProxyWasm W} c path (w : W) name value :
  (name, value) ∈ service_headers c path w →
  (to_ascii_lowercase name = "x-tenant-id" → value = default "" (tenant_id c w)) ∧
  (to_ascii_lowercase name = "x-ratelimit-policy" → value = default "abandon" (policy_name <$> request_policy c w)) ∧
  (to_ascii_lowercase name = "x-model" → value = default "default" (model c w)) ∧
  (to_ascii_lowercase name = "x-queue-priority" →
     queue_priority c (default "" (tenant_id c w)) (default "default" (model c w)) w = Some value) ∧
  (to_ascii_lowercase name = ":path" → value = path) ∧ (to_ascii_lowercase name = ":method" → value = "POST").
Proof.
  intros [Hf|[Hin|[-> Hq]]]%service_headers_reserved.
  - unfold should_forward_to_service in Hf. apply andb_true_iff in Hf as [Hcolon Hres].
    split_and!; intros Hn; rewrite Hn in Hcolon, Hres; vm_compute in Hcolon, Hres; discriminate.
  - split_and!; intros Hn; repeat (apply elem_of_cons in Hin as [[= -> ->]|Hin]; [done || (vm_compute in Hn; discriminate)|]);
      by apply not_elem_of_nil in Hin.
  - split_and!; intros Hn; try (vm_compute in Hn; discriminate); done.
Qed.

(** A plugin without a host: the headers of one request *)
Definition headers_only : ProxyWasm (list (string * string)) := {|
  get_plugin_configuration _ := None;
  get_http_request_header name w := snd <$> List.find (λ kv, bool_decide (kv.1 = name)) w;
  get_http_request_headers w := w;
  get_http_request_body _ _ _ := None;
  get_http_call_response_header _ _ := None;
  get_http_call_response_body _ _ _ := None;
  dispatch_http_call _ _ _ _ w := (Err InternalFailure, w);
  resume_http_request w := w;
  send_http_response _ _ _ w := w;
  log _ _ w := w;
|}.
Lemma service_identity_witness :
  default "" (tenant_id (ProxyWasm0:=headers_only) config_default [("x-tenant-id", "acme"); ("X-Tenant-Id", "evil")]) = "acme".
Proof.
  symmetry. refine (proj1 (service_identity (ProxyWasm0:=headers_only) config_default "/v1/ratelimit/check"
    [("x-tenant-id", "acme"); ("X-Tenant-Id", "evil")] "x-tenant-id" "acme" _) eq_refl).
  apply list_elem_of_In. vm_compute. tauto.
Defined.

(** ** Configurations that are not read

    The host hands the configuration over as YAML. A configuration in the nested form of the
    plugin's documentation is then not JSON, its lines are read as those of the older form, and
    none of them is one: the defaults remain. *)
Definition lf : string := String (ascii_of_nat 10) "".
#[local] Instance no_json : JsonLib := λ _, None.
Example nested_configuration_ignored :
  config_parse ("service:" +:+ lf +:+ "  cluster: my-service" +:+ lf +:+ "  timeout_ms: 1000" +:+ lf +:+
    "policies:" +:+ lf +:+ "  default: wait" +:+ lf +:+ "priority:" +:+ lf +:+ "  enabled: false" +:+ lf) =
  config_parse ("anything: else" +:+ lf) ∧
  service_cluster (config_parse ("service_cluster: my-service" +:+ lf)) = "my-service".
Proof. split; vm_compute; reflexivity. Qed.
