(* ===== verification/WasmQueueRun.v ===== *)
(** * The queue plugin in its host

    The queue plugin ([WasmQueue]) as the guest of a virtual machine ([WasmVm]), and what a client
    of the gateway sees of the two together ([queue_plugin_refines]).

    The SDK that is compiled into the plugin is between them. Its calls are the class
    [ProxyWasm] over the state of the host, with the laws [HostSdk]: a call has the effect of the
    host function it is made for. Its dispatcher hands each callback to the object of the context,
    which it creates in [proxy_on_context_create] and drops in [proxy_on_delete]; it exports every
    hook, those the plugin does not override with the defaults of the traits. *)

From S2P Require Export WasmQueue WasmVm.
From S2P Require Import RefHttp.
Local Open Scope string_scope.
Local Open Scope list_scope.
Local Open Scope Z_scope.

Section queue_guest.
Context `{HttpLib} `{!HeaderLib} `{!HostEnv} `{!VmLib} `{YamlLib} `{JsonLib}.

(** [proxy_http_call] on decoded arguments *)
Definition http_call (cluster : string) (headers : Pairs) (body : string) (timeout_ms : Z) (h : HostState)
    : result Z Status * HostState :=
  match max_body_bytes (limits (shell_cfg h)) with
  | Some limit => if limit <? str_len body then (Err BadArgument, h) else dispatch_call cluster headers body timeout_ms h
  | None => dispatch_call cluster headers body timeout_ms h
  end.

Class HostSdk (P : ProxyWasm HostState) : Prop := {
  sdk_config h : default "" (get_plugin_configuration h) = configuration h;
  sdk_request_header name h :
    get_http_request_header name h = lookup_header h HttpRequestHeaders (to_ascii_lowercase name);
  sdk_request_headers h : get_http_request_headers h = collect_pairs h HttpRequestHeaders;
  sdk_request_body size h :
    default "" (get_http_request_body 0 size h) = str_take (Z.to_nat size) (default "" (read_buffer h HttpRequestBody));
  sdk_call_header name h :
    get_http_call_response_header name h = lookup_header h HttpCallResponseHeaders (to_ascii_lowercase name);
  sdk_call_body size h :
    default "" (get_http_call_response_body 0 size h) =
    str_take (Z.to_nat size) (default "" (read_buffer h HttpCallResponseBody));
  sdk_dispatch cluster headers body timeout_ms h :
    dispatch_http_call cluster headers body timeout_ms h =
    http_call cluster headers (default "" body) (swrap 32 timeout_ms) h;
  sdk_resume h : resume_http_request h = upd_context (effective_context h) (ctx_set_continue true) h;
  sdk_send status headers body h : send_http_response status headers body h = send_local status headers (default "" body) h;
  sdk_log level message h : log level message h = h;
}.

(** The SDK, as far as the laws go *)
Definition host_sdk : ProxyWasm HostState := {|
  get_plugin_configuration h := Some (configuration h);
  get_http_request_header name h := lookup_header h HttpRequestHeaders (to_ascii_lowercase name);
  get_http_request_headers h := collect_pairs h HttpRequestHeaders;
  get_http_request_body _ size h := str_take (Z.to_nat size) <$> read_buffer h HttpRequestBody;
  get_http_call_response_header name h := lookup_header h HttpCallResponseHeaders (to_ascii_lowercase name);
  get_http_call_response_body _ size h := str_take (Z.to_nat size) <$> read_buffer h HttpCallResponseBody;
  dispatch_http_call cluster headers body timeout_ms h := http_call cluster headers (default "" body) (swrap 32 timeout_ms) h;
  resume_http_request h := upd_context (effective_context h) (ctx_set_continue true) h;
  send_http_response status headers body h := send_local status headers (default "" body) h;
  log _ _ h := h;
|}.
Lemma host_sdk_laws : HostSdk host_sdk.
Proof.
  split; try done; intros size h; cbn [get_http_request_body get_http_call_response_body host_sdk];
    (destruct (read_buffer h _) as [s|]; [done|]); by destruct (Z.to_nat size).
Qed.

Context {P : ProxyWasm HostState}.

(** ** The guest *)

Record QueueGuest := MkQueueGuest { qg_root : AiGatewayConfig; qg_streams : gmap Z AiGatewayHttp }.
Notation State := (VmState QueueGuest).
Implicit Types (v : State) (h : HostState) (c : RequestContext) (s : AiGatewayHttp).

Definition invalid : string := "wasm trap: invalid context_id".
Definition with_stream (id : Z) v (f : AiGatewayHttp → HostState → Z * AiGatewayHttp * HostState) : result Z string * State :=
  match qg_streams (vs_guest v) !! id with
  | None => (Err invalid, v)
  | Some s =>
      let '(r, s, h) := f s (vs_host v) in
      (Ok r, MkVmState h (vs_shared v) (MkQueueGuest (qg_root (vs_guest v)) (<[id := s]> (qg_streams (vs_guest v)))))
  end.
Definition action_u32 (a : Action) : Z := match a with Continue => 0 | Pause => 1 end.
Definition arg (args : list Z) (n : nat) : Z := nth n args 0.

Definition hook_context_create : Hook (G:=QueueGuest) := λ _ args v,
  if arg args 1 =? 0 then (Ok 0, MkVmState (vs_host v) (vs_shared v) (MkQueueGuest config_default (qg_streams (vs_guest v))))
  else (Ok 0, MkVmState (vs_host v) (vs_shared v)
    (MkQueueGuest (qg_root (vs_guest v))
      (<[arg args 0 := create_http_context (qg_root (vs_guest v))]> (qg_streams (vs_guest v))))).
Definition hook_vm_start : Hook (G:=QueueGuest) := λ _ _ v,
  let '(ok, h) := on_vm_start (vs_host v) in (Ok (if ok then 1 else 0), MkVmState h (vs_shared v) (vs_guest v)).
Definition hook_configure : Hook (G:=QueueGuest) := λ _ _ v,
  (Ok 1, MkVmState (vs_host v) (vs_shared v) (MkQueueGuest (on_configure (vs_host v)) (qg_streams (vs_guest v)))).
Definition hook_request_headers : Hook (G:=QueueGuest) := λ _ args v,
  with_stream (arg args 0) v (λ s h,
    let '(a, s, h) := on_http_request_headers (negb (arg args 2 =? 0)) s h in (action_u32 a, s, h)).
Definition hook_request_body : Hook (G:=QueueGuest) := λ _ args v,
  with_stream (arg args 0) v (λ s h,
    let '(a, s, h) := on_http_request_body (arg args 1) (negb (arg args 2 =? 0)) s h in (action_u32 a, s, h)).
Definition hook_call_response : Hook (G:=QueueGuest) := λ _ args v,
  with_stream (arg args 0) v (λ s h,
    let '(s, h) := on_http_call_response (arg args 1) (arg args 3) s h in (0, s, h)).
(** A hook that the plugin does not override. *)
Definition hook_default (r : Z) : Hook (G:=QueueGuest) := λ _ _ v, (Ok r, v).
Definition hook_delete : Hook (G:=QueueGuest) := λ _ args v,
  (Ok 0, MkVmState (vs_host v) (vs_shared v) (MkQueueGuest (qg_root (vs_guest v)) (delete (arg args 0) (qg_streams (vs_guest v))))).

Definition queue_exports (pages : Z) : Exports QueueGuest :=
  MkExports (Some pages) true true (Some (hook_default 0)) None (Some hook_context_create) (Some hook_vm_start)
    (Some hook_configure) (Some hook_request_headers) (Some hook_request_body) (Some (hook_default 0))
    (Some (hook_default 0)) (Some (hook_default 0)) (Some (hook_default 0)) (Some hook_call_response)
    (Some (hook_default 0)) (Some (hook_default 1)) (Some hook_delete) (Some (hook_default 0)).

(** A virtual machine that runs the plugin with configuration [c]. *)
Record runs_queue (vm : Vm QueueGuest) (c : AiGatewayConfig) : Prop := {
  rq_root : qg_root (vs_guest (vm_state vm)) = c;
  rq_root_id : vm_root_id vm ≠ 0;
  rq_create : fn_on_context_create vm = hook_context_create;
  rq_headers : fn_on_request_headers vm = hook_request_headers;
  rq_body : fn_on_request_body vm = Some hook_request_body;
  rq_trailers : fn_on_request_trailers vm = Some (hook_default 0);
  rq_response_headers : fn_on_response_headers vm = hook_default 0;
  rq_response_body : fn_on_response_body vm = Some (hook_default 0);
  rq_response_trailers : fn_on_response_trailers vm = Some (hook_default 0);
  rq_call_response : fn_on_http_call_response vm = hook_call_response;
  rq_log : fn_on_log vm = Some (hook_default 0);
  rq_done : fn_on_done vm = Some (hook_default 1);
  rq_delete : fn_on_delete vm = Some hook_delete;
}.

(** [vm_new] starts the plugin. *)
Lemma queue_starts (HP : HostSdk P) cfg pages g sh : (∀ max_pages, max_memory_pages (limits cfg) = Some max_pages → pages ≤ max_pages) →
  ∃ vm, vm_new cfg (Ok (queue_exports pages, g)) sh = Ok vm ∧ runs_queue vm (config_parse (configuration_bytes cfg)).
Proof.
  intros Hmax. unfold vm_new. cbn [queue_exports ex_memory ok_or result_bind ex_memory_allocate ex_malloc orb].
  assert ((match max_memory_pages (limits cfg) with
    | Some max_pages => if max_pages <? pages then Err (ResourceLimit ("initial memory pages " +:+ z_string pages +:+
                        " exceeds max_memory_pages " +:+ z_string max_pages)) else Ok tt
    | None => Ok tt end) = Ok tt) as ->.
  { case_match; [|done]. by rewrite (proj2 (Z.ltb_ge _ _)) by (by apply Hmax). }
  unfold start_hook, run_hook, required.
  cbn [queue_exports ex_initialize ex_context_create ex_configure ex_request_headers ex_response_headers ex_http_call_response
    ex_vm_start ok_or result_bind result_map hook_default snd].
  unfold hook_vm_start, on_vm_start, hook_context_create, upd_host. cbn [arg nth vs_host vs_shared vs_guest Z.eqb result_bind].
  rewrite sdk_log.
  eexists. split; [reflexivity|]. split; try reflexivity; [|done]. cbn. unfold on_configure. by rewrite sdk_config.
Qed.

(** ** The specification

    The first answer to a call, and the answers after it. *)
Fixpoint answer_to (token : Z) (rx : list (Z * HttpCallResult)) : option (HttpCallResult * list (Z * HttpCallResult)) :=
  match rx with
  | [] => None
  | (t, r) :: rx => if decide (t = token) then Some (r, rx) else answer_to token rx
  end.

Inductive Verdict := Forward | Reply (status : Z) (body : string) | NoAnswer.
Definition allowed (r : HttpCallResult) : bool := contains_allowed_true (from_utf8_lossy (hr_body r)).
(** The status the plugin sees of an answer: a call that failed has none. *)
Definition seen_status (r : HttpCallResult) : Z := if 0 <? hr_status r then hr_status r else 502.
Definition rejected_body (text : string) : string :=
  js "{`error`:`rate_limited`,`retry_after_ms`:" +:+ dec_string (default 1000 (extract_json_number text "retry_after_ms")) +:+ "}".

(** What becomes of a request with the policy, whose check has the token [t1] and whose job, if
    there is one, the token [t2]. *)
Definition verdict (policy : Policy) (t1 t2 : Z) (rx : list (Z * HttpCallResult)) : Verdict :=
  match answer_to t1 rx with
  | None => NoAnswer
  | Some (r, rx) =>
      if negb (seen_status r =? 200) then Reply 502 (js "{`error`:`rate_limit_service_error`}")
      else if allowed r then Forward
      else match policy with
           | Abandon => Reply 429 (rejected_body (from_utf8_lossy (hr_body r)))
           | Queue | Wait =>
               match answer_to t2 rx with
               | None => NoAnswer
               | Some (r, _) => Reply (seen_status r) (hr_body r)
               end
           end
  end.
(** Whether a job was handed in. *)
Definition queued (policy : Policy) (t1 : Z) (rx : list (Z * HttpCallResult)) : bool :=
  match answer_to t1 rx with
  | Some (r, _) => (seen_status r =? 200) && negb (allowed r) && bool_decide (policy ≠ Abandon)
  | None => false
  end.

(** An answer of the HTTP client: a failed call has status 0; a body has a 32-bit length. *)
Definition valid_answer (r : HttpCallResult) : Prop :=
  (hr_status r = 0 ∨ 100 ≤ hr_status r ≤ 999) ∧ str_len (hr_body r) < 2 ^ 32.

(** ** What the proofs look at in a host *)

Record looks (id : Z) (sc : WasmPluginShellConfig) h c (pend : gmap Z Z) (token : Z) (calls : list HttpCall) : Prop := {
  lk_ctx : contexts h !! id = Some c;
  lk_eff : effective_context h = id;
  lk_cfg : shell_cfg h = sc;
  lk_pend : pending_calls h = pend;
  lk_token : next_token h = token;
  lk_calls : http_calls h = calls;
}.

Lemma looks_current id sc h c pd tk cl : looks id sc h c pd tk cl → current_context h = Some c.
Proof. intros [Hc He _ _ _ _]. unfold current_context. by rewrite He. Qed.
Lemma looks_upd id sc h c pd tk cl f : looks id sc h c pd tk cl → looks id sc (upd_context id f h) (f c) pd tk cl.
Proof. intros []. split; try done. by apply upd_context_eq. Qed.
Lemma looks_effective id sc h c pd tk cl : looks id sc h c pd tk cl → looks id sc (set_effective id h) c pd tk cl.
Proof. by intros []; split. Qed.
Lemma looks_delete id sc h c pd tk cl t : looks id sc h c pd tk cl → looks id sc (upd_pending (delete t) h) c (delete t pd) tk cl.
Proof. intros [? ? ? <- ? ?]; by split. Qed.
Lemma looks_enter id sc h c pd tk cl f : looks id sc h c pd tk cl → looks id sc (enter id f h) (f c) pd tk cl.
Proof.
  intros Hl. unfold enter. rewrite (lk_ctx _ _ _ _ _ _ _ Hl). by apply looks_effective, looks_upd.
Qed.

(** What the plugin reads of the request does not change with the answers that arrive. *)
Record same_request (c c' : RequestContext) : Prop := {
  sr_pseudo : rc_pseudo c' = rc_pseudo c;
  sr_headers : rc_request_headers c' = rc_request_headers c;
  sr_body : rc_request_body c' = rc_request_body c;
}.
#[local] Instance same_request_preorder : PreOrder same_request.
Proof. split; [by split|]. intros c1 c2 c3 [? ? ?] [? ? ?]. split; congruence. Qed.

Definition ctx_header c (name : string) : option string :=
  match pseudo_lookup c HttpRequestHeaders name with
  | Some value => Some value
  | None => n ← header_name_of name; v ← hm_get (rc_request_headers c) n; hv_to_str v
  end.

Context `{!HostSdk P} `{!HeaderLibLaws _}.

Lemma request_header_looks h c name : current_context h = Some c →
  get_http_request_header name h = ctx_header c (to_ascii_lowercase name).
Proof. intros Hc. rewrite sdk_request_header. unfold lookup_header. by rewrite Hc. Qed.

(** Two hosts in which the request is the same: the plugin makes the same of it. *)
Lemma same_headers h h' c c' : current_context h = Some c → current_context h' = Some c' → same_request c c' →
  ∀ name, get_http_request_header name h' = get_http_request_header name h.
Proof.
  intros Hc Hc' [Hp Hh _] name. rewrite (request_header_looks h' c'), (request_header_looks h c) by done.
  unfold ctx_header, pseudo_lookup. by rewrite Hp, Hh.
Qed.

(** *** The headers of a call to the service *)

Lemma lossy_ascii_head a (s : string) : (byte_val a <? 128)%N = true → ∃ t, from_utf8_lossy (String a s) = String a t.
Proof.
  intros Ha. assert (utf8_next a s = (true, String a "", s)) as Hn by (unfold utf8_next, utf8_char_width; by rewrite Ha).
  unfold from_utf8_lossy. rewrite (utf8_chunks_cons _ _ _ _ _ Hn), fmap_cons, concat_str_cons. by eexists.
Qed.
Lemma lossy_head_colon k : starts_with (from_utf8_lossy k) ":" = true → starts_with k ":" = true.
Proof.
  destruct k as [|a k]; [done|]. destruct (utf8_next a k) as [[ok ch] rest] eqn:Hn.
  unfold from_utf8_lossy. rewrite (utf8_chunks_cons _ _ _ _ _ Hn), fmap_cons, concat_str_cons. cbn [fst snd].
  rewrite !starts_with_spec. destruct ok.
  - apply utf8_next_good with (t := "") in Hn as (c' & -> & _). intros [t [= -> _]]. by exists k.
  - intros [t Ht]. discriminate.
Qed.

Lemma outgoing_app l l' : outgoing (l ++ l') = foldl (λ o kv,
    let key := from_utf8_lossy kv.1 in let val := from_utf8_lossy kv.2 in
    if bool_decide (key = ":method") then MkOutgoing val (og_path o) (og_authority o) (og_others o)
    else if bool_decide (key = ":path") then MkOutgoing (og_method o) val (og_authority o) (og_others o)
    else if bool_decide (key = ":authority") then MkOutgoing (og_method o) (og_path o) val (og_others o)
    else if bool_decide (key = ":scheme") then o
    else MkOutgoing (og_method o) (og_path o) (og_authority o) (og_others o ++ [(key, val)])) (outgoing l) l'.
Proof. apply foldl_app. Qed.

Lemma outgoing_plain l l' : Forall (λ kv : string * string, starts_with kv.1 ":" = false) l' →
  og_method (outgoing (l ++ l')) = og_method (outgoing l) ∧ og_path (outgoing (l ++ l')) = og_path (outgoing l).
Proof.
  intros Hl. rewrite outgoing_app. generalize (outgoing l). induction Hl as [|[k v] l' Hk _ IH]; [done|]. intros o.
  cbn [foldl fst snd] in *. destruct (IH (if bool_decide (from_utf8_lossy k = ":method") then MkOutgoing (from_utf8_lossy v) (og_path o) (og_authority o) (og_others o)
    else if bool_decide (from_utf8_lossy k = ":path") then MkOutgoing (og_method o) (from_utf8_lossy v) (og_authority o) (og_others o)
    else if bool_decide (from_utf8_lossy k = ":authority") then MkOutgoing (og_method o) (og_path o) (from_utf8_lossy v) (og_others o)
    else if bool_decide (from_utf8_lossy k = ":scheme") then o
    else MkOutgoing (og_method o) (og_path o) (og_authority o) (og_others o ++ [(from_utf8_lossy k, from_utf8_lossy v)]))) as [-> ->].
  assert (∀ t, from_utf8_lossy k ≠ String ":" t) as Hn.
  { intros t Ht. enough (starts_with k ":" = true) by congruence. apply lossy_head_colon, starts_with_spec.
    rewrite Ht. by exists t. }
  rewrite !bool_decide_eq_false_2 by (apply Hn). done.
Qed.

Lemma service_headers_outgoing gc path h :
  og_method (outgoing (service_headers gc path h)) = "POST" ∧ og_path (outgoing (service_headers gc path h)) = from_utf8_lossy path.
Proof.
  unfold service_headers.
  match goal with |- context [(?kv1 :: ?kv2 :: ?kv3 :: ?l) ++ ?r] =>
    change ((kv1 :: kv2 :: kv3 :: l) ++ r) with ([kv1; kv2; kv3] ++ (l ++ r)) end.
  match goal with |- context [?l ++ ?r] => assert (Forall (λ kv : string * string, starts_with kv.1 ":" = false) r) as Hr end.
  { apply Forall_app. split; [by repeat constructor|]. apply Forall_app. split; [case_match; by repeat constructor|].
    rewrite List.Forall_forall. intros [k v] [_ Hf]%List.filter_In. simpl in *. unfold should_forward_to_service in Hf.
    apply andb_true_iff in Hf as [Hf%negb_true_iff _]. destruct (starts_with k ":") eqn:Hk; [|done].
    apply starts_with_spec in Hk as [t ->]. done. }
  destruct (outgoing_plain [(":method", "POST"); (":path", path); (":authority", service_authority gc)] _ Hr) as [-> ->]. done.
Qed.

(** *** Calls to the service *)

Record service_call (call : HttpCall) (token : Z) (base path body : string) : Prop := {
  sc_token : hc_token call = token;
  sc_url : hc_url call = trim_end_matches "/" base +:+ from_utf8_lossy path;
  sc_body : hc_body call = body;
}.
(** The limits of the configuration leave room for a call with the body. *)
Definition room (sc : WasmPluginShellConfig) (body : string) : Prop :=
  (∀ limit, max_pending_calls (limits sc) = Some limit → 1 ≤ limit) ∧
  (∀ limit, max_body_bytes (limits sc) = Some limit → str_len body ≤ limit).

Lemma http_call_ok gc path body timeout h id sc c tk cl base :
  looks id sc h c ∅ tk cl → resolve_cluster sc (service_cluster gc) = Some base → from_utf8_lossy path ≠ "" → room sc body →
  ∃ call h', http_call (service_cluster gc) (service_headers gc path h) body timeout h = (Ok tk, h') ∧
    looks id sc h' c {[tk := id]} (next_u32 tk) (cl ++ [call]) ∧ service_call call tk base path body.
Proof.
  intros [Hc He Hs Hp Ht Hcl] Hbase Hpath [Hroom Hbody]. unfold http_call.
  destruct (service_headers_outgoing gc path h) as [Hm Hpa].
  assert (∃ call h', dispatch_call (service_cluster gc) (service_headers gc path h) body timeout h = (Ok tk, h') ∧
    looks id sc h' c {[tk := id]} (next_u32 tk) (cl ++ [call]) ∧ service_call call tk base path body) as Hd.
  { unfold dispatch_call, next_dispatch_token. rewrite Hm, Hpa, Hs, Hbase.
    destruct (str_is_empty (from_utf8_lossy path)) eqn:Hn; [by apply str_is_empty_true in Hn|]. cbn [str_is_empty orb opt_or].
    assert ((match max_pending_calls (limits sc) with
             | Some limit => limit <=? Z.of_nat (size (pending_calls h)) | None => false end) = false) as ->.
    { case_match eqn:E; [|done]. rewrite Hp, map_size_empty. apply Z.leb_gt. specialize (Hroom _ eq_refl). simpl. lia. }
    set (headers := call_headers _). set (ms := Z.max timeout 1). cbn [opt_or str_is_empty orb].
    exists (MkCall tk (trim_end_matches "/" base +:+ from_utf8_lossy path) (default "GET" (method_parse "POST")) headers body ms).
    eexists. split; [rewrite Ht; reflexivity|]. split.
    - split; [exact Hc|exact He|reflexivity| |reflexivity|].
      + cbn. rewrite Hp, He. reflexivity.
      + cbn. rewrite Hcl. reflexivity.
    - split; reflexivity. }
  rewrite Hs. destruct (max_body_bytes (limits sc)) as [limit|] eqn:Hlim; [|done].
  rewrite (proj2 (Z.ltb_ge _ _)) by (by apply Hbody). done.
Qed.

(** *** The hooks *)

Lemma request_headers_looks gc h id sc c tk cl base policy tenant :
  looks id sc h c ∅ tk cl → resolve_cluster sc (service_cluster gc) = Some base →
  from_utf8_lossy (rate_limit_path gc) ≠ "" → room sc "" →
  request_policy gc h = Some policy → tenant_id gc h = Some tenant →
  ∃ call h', on_http_request_headers false (create_http_context gc) h =
      (Pause, MkHttp gc (Some (tk, PRateLimit policy)) None (bool_decide (policy ≠ Abandon)), h') ∧
    looks id sc h' c {[tk := id]} (next_u32 tk) (cl ++ [call]) ∧ service_call call tk base (rate_limit_path gc) "".
Proof.
  intros Hl Hbase Hpath Hroom Hpol Hten. unfold on_http_request_headers. cbn [create_http_context cfg]. rewrite Hpol, Hten.
  unfold dispatch_service_call. cbn [set_body_pending create_http_context cfg]. rewrite sdk_dispatch. change (default "" (@None string)) with "".
  destruct (http_call_ok gc (rate_limit_path gc) "" (swrap 32 (service_timeout_ms gc)) h id sc c tk cl base) as (call & h' & -> & Hl' & Hsc);
    [done..|]. exists call, h'. by split_and!.
Qed.

Lemma seen_status_looks h res c : current_context h = Some (take_answer res c) → valid_answer res → service_status h = seen_status res.
Proof.
  intros Hc [Hv _]. unfold service_status, seen_status. rewrite sdk_call_header. unfold lookup_header. rewrite Hc.
  change (to_ascii_lowercase ":status") with ":status". cbn [mbind option_bind map_of pseudo_lookup take_answer rc_last_status].
  rewrite bool_decide_eq_true_2 by done. cbn [andb]. destruct (Z.ltb_spec 0 (hr_status res)) as [Hs|Hs].
  - simpl. replace (dec_string (hr_status res)) with (z_string (hr_status res)).
    + rewrite parse_z_string; [done|]. change (2 ^ 16) with 65536. lia.
    + unfold z_string. by rewrite (proj2 (Z.ltb_ge _ _)) by lia.
  - rewrite header_name_colon by done. done.
Qed.
Lemma call_body_looks h res c : current_context h = Some (take_answer res c) → valid_answer res →
  default "" (get_http_call_response_body 0 (uwrap 32 (str_len (hr_body res))) h) = hr_body res.
Proof.
  intros Hc [_ Hv]. rewrite sdk_call_body. unfold read_buffer. rewrite Hc. cbn [fmap option_fmap option_map default from_option id take_answer rc_last_body].
  pose proof (str_len_nonneg (hr_body res)). rewrite uwrap_id by (unfold in_unsigned; lia). apply str_take_all. unfold str_len. lia.
Qed.
(** *** A virtual machine in the middle of a request *)

Record runs (id : Z) (sc : WasmPluginShellConfig) v c s (pend : gmap Z Z) (token : Z) (calls : list HttpCall) : Prop := {
  rs_looks : looks id sc (vs_host v) c pend token calls;
  rs_stream : qg_streams (vs_guest v) !! id = Some s;
  rs_local : rc_local_response c = None;
}.

Lemma with_stream_runs id v s f r s' h' : qg_streams (vs_guest v) !! id = Some s → f s (vs_host v) = (r, s', h') →
  ∃ g, with_stream id v f = (Ok r, MkVmState h' (vs_shared v) g) ∧ qg_streams g !! id = Some s'.
Proof. intros Hs Hf. unfold with_stream. rewrite Hs, Hf. eexists. split; [done|]. apply lookup_insert_eq. Qed.

Lemma vbind_done {A B} (m : VmM (G:=QueueGuest) A) (k : A → VmM B) p a p' : m p = (Done a, p') → vbind m k p = k a p'.
Proof. unfold vbind. by intros ->. Qed.
Lemma vbind_waiting {A B} (m : VmM (G:=QueueGuest) A) (k : A → VmM B) p p' : m p = (Waiting, p') → vbind m k p = (Waiting, p').
Proof. unfold vbind. by intros ->. Qed.
Lemma call_hook_ok name (f : Hook) args v rx inner r v' : f (budget (shell_cfg (vs_host v))) args v = (Ok r, v') →
  call_hook name f args (MkProc v rx inner) = (Done r, MkProc v' rx inner).
Proof. unfold call_hook, try_hook, vbind, run_hook. cbn [p_vm p_rx p_inner]. by intros ->. Qed.

Section one_vm.
Variables (vm : Vm QueueGuest) (gc : AiGatewayConfig) (id : Z) (sc : WasmPluginShellConfig).
Hypothesis queue_vm : runs_queue vm gc.

(** An answer that the plugin does not wait for. *)
Lemma drive_stale t r rx v c s tk pol tk' cl inner :
  runs id sc v c s {[tk := id]} tk' cl → pending s = Some (tk, pol) → t ≠ tk →
  ∃ v', runs id sc v' (take_answer r c) s {[tk := id]} tk' cl ∧
    drive vm id ((t, r) :: rx) v inner = drive vm id rx v' inner.
Proof.
  intros [Hl Hs Hloc] Hp Ht. pose proof Hl as [Hc He Hcf Hpd Hnt Hcl]. cbn [drive]. rewrite Hc, Hloc, Hpd.
  rewrite (bool_decide_eq_false_2 (is_Some None)) by (by intros [? ?]).
  rewrite !(bool_decide_eq_false_2 ({[tk := id]} = ∅)) by apply map_non_empty_singleton. rewrite andb_false_r.
  rewrite lookup_singleton_ne by done. cbn [default from_option].
  assert (looks id sc (upd_context id (take_answer r) (set_effective id (upd_pending (delete t) (vs_host v))))
    (take_answer r c) {[tk := id]} tk' cl) as Hl'.
  { apply looks_upd, looks_effective. rewrite <- (delete_id {[tk := id]} t) by (by apply lookup_singleton_ne).
    by apply looks_delete. }
  unfold run_hook. rewrite (rq_call_response _ _ queue_vm). unfold hook_call_response. cbn [arg nth vs_host vs_shared vs_guest].
  edestruct (with_stream_runs id (MkVmState (upd_context id (take_answer r) (set_effective id (upd_pending (delete t) (vs_host v))))
    (vs_shared v) (vs_guest v)) s) as (g & -> & Hg); [done| |].
  { cbn [vs_host]. unfold on_http_call_response. rewrite Hp, (proj2 (Z.eqb_neq _ _) Ht). reflexivity. }
  eexists. split; [|reflexivity]. by split.
Qed.

(** The answer that the plugin waits for: its callback runs, and the virtual machine looks again. *)
Definition after_answer (r : HttpCallResult) s tk v : VmState QueueGuest :=
  let '(s', h') := on_http_call_response tk (uwrap 32 (str_len (hr_body r))) s (vs_host v) in
  MkVmState h' (vs_shared v) (MkQueueGuest (qg_root (vs_guest v)) (<[id := s']> (qg_streams (vs_guest v)))).

Lemma drive_answer r rx v c s tk tk' cl inner :
  runs id sc v c s {[tk := id]} tk' cl →
  ∃ v', runs id sc v' (take_answer r c) s ∅ tk' cl ∧
    drive vm id ((tk, r) :: rx) v inner = drive vm id rx (after_answer r s tk v') inner.
Proof.
  intros [Hl Hs Hloc]. pose proof Hl as [Hc He Hcf Hpd Hnt Hcl]. cbn [drive]. rewrite Hc, Hloc, Hpd.
  rewrite (bool_decide_eq_false_2 (is_Some None)) by (by intros [? ?]).
  rewrite !(bool_decide_eq_false_2 ({[tk := id]} = ∅)) by apply map_non_empty_singleton. rewrite andb_false_r.
  rewrite lookup_singleton_eq. change (default id (Some id)) with id.
  set (h1 := upd_context id (take_answer r) (set_effective id (upd_pending (delete tk) (vs_host v)))).
  assert (looks id sc h1 (take_answer r c) ∅ tk' cl) as Hl'.
  { apply looks_upd, looks_effective. rewrite <- (delete_singleton_eq tk id). by apply looks_delete. }
  exists (MkVmState h1 (vs_shared v) (vs_guest v)). split; [by split|].
  unfold run_hook. rewrite (rq_call_response _ _ queue_vm). unfold hook_call_response, with_stream.
  cbn [arg nth vs_host vs_shared vs_guest]. rewrite Hs. unfold after_answer. cbn [vs_host vs_shared vs_guest].
  destruct (on_http_call_response tk (uwrap 32 (str_len (hr_body r))) s h1) as [s' h'] eqn:E. reflexivity.
Qed.

Lemma drive_waits v c s tk tk' cl inner : runs id sc v c s {[tk := id]} tk' cl →
  drive vm id [] v inner = (Waiting, MkProc v [] inner).
Proof.
  intros [Hl Hs Hloc]. pose proof Hl as [Hc He Hcf Hpd Hnt Hcl]. cbn [drive]. rewrite Hc, Hloc, Hpd.
  rewrite (bool_decide_eq_false_2 (is_Some None)) by (by intros [? ?]).
  by rewrite !(bool_decide_eq_false_2 ({[tk := id]} = ∅)), andb_false_r by apply map_non_empty_singleton.
Qed.

(** A request that waits is at its answer, or at the end of the answers. *)
Lemma drive_to_answer rx v c s tk pol tk' cl inner :
  runs id sc v c s {[tk := id]} tk' cl → pending s = Some (tk, pol) →
  match answer_to tk rx with
  | None => ∃ v', drive vm id rx v inner = (Waiting, MkProc v' [] inner) ∧ http_calls (vs_host v') = cl
  | Some (r, rx') => ∃ v' c', runs id sc v' (take_answer r c') s ∅ tk' cl ∧ same_request c c' ∧
      drive vm id rx v inner = drive vm id rx' (after_answer r s tk v') inner
  end.
Proof.
  intros Hr Hp. revert v c Hr. induction rx as [|[t r] rx IH]; intros v c Hr.
  - exists v. split; [by eapply drive_waits|]. apply (lk_calls _ _ _ _ _ _ _ (rs_looks _ _ _ _ _ _ _ _ Hr)).
  - cbn [answer_to]. case_decide as Ht.
    + subst t. destruct (drive_answer r rx v c s tk tk' cl inner Hr) as (v' & Hr' & Hd). by exists v', c.
    + destruct (drive_stale t r rx v c s tk pol tk' cl inner Hr Hp Ht) as (v1 & Hr1 & Hd1).
      specialize (IH v1 _ Hr1). destruct (answer_to tk rx) as [[r' rx']|].
      * destruct IH as (v' & c' & H1' & Hsame & Hd). exists v', c'. split_and!; [done| |by rewrite Hd1].
        etrans; [|exact Hsame]. by split.
      * destruct IH as (v' & Hd & Hcl). exists v'. by rewrite Hd1.
Qed.

(** Without an open call the virtual machine goes on. *)
Lemma drive_done rx v c pd tk cl inner : looks id sc (vs_host v) c pd tk cl → is_Some (rc_local_response c) ∨ pd = ∅ →
  drive vm id rx v inner = (Done tt, MkProc v rx inner).
Proof.
  intros [Hc He Hcf Hpd Hnt Hcl] Hor. destruct rx as [|[t r] rx]; cbn [drive]; rewrite Hc, Hpd.
  all: destruct (decide (is_Some (rc_local_response c))) as [Hl|Hl];
    [by rewrite bool_decide_eq_true_2|rewrite bool_decide_eq_false_2 by done].
  all: destruct Hor as [|Hor]; [done|]; rewrite (bool_decide_eq_true_2 (pd = ∅)) by done; by rewrite andb_true_r; case_match.
Qed.


(** *** The steps of a request *)

Lemma runs_upd f v c s pd tk cl : runs id sc v c s pd tk cl → rc_local_response (f c) = None →
  runs id sc (upd_host (upd_context id f) v) (f c) s pd tk cl.
Proof. intros [Hl Hs Hloc] Hf. split; [|done|done]. by apply looks_upd. Qed.
Lemma runs_effective v c s pd tk cl : runs id sc v c s pd tk cl → runs id sc (upd_host (set_effective id) v) c s pd tk cl.
Proof. intros [Hl Hs Hloc]. split; [|done|done]. by apply looks_effective. Qed.
Lemma runs_enter f v c s pd tk cl : runs id sc v c s pd tk cl → rc_local_response (f c) = None →
  runs id sc (upd_host (enter id f) v) (f c) s pd tk cl.
Proof. intros [Hl Hs Hloc] Hf. split; [|done|done]. by apply looks_enter. Qed.

Lemma ends_request v rx inner : ∃ v', invoke_log_done_delete vm id (MkProc v rx inner) = (Done tt, MkProc v' rx inner) ∧
  http_calls (vs_host v') = http_calls (vs_host v).
Proof.
  unfold invoke_log_done_delete. rewrite (rq_log _ _ queue_vm), (rq_done _ _ queue_vm), (rq_delete _ _ queue_vm).
  eexists. split; reflexivity.
Qed.

(** A local response ends the request; without one it goes on. *)
Lemma local_answers v c l pd tk cl rx inner k : looks id sc (vs_host v) c pd tk cl → rc_local_response c = Some l →
  ∃ v', unless_local vm id k (MkProc v rx inner) = (Done (build_local_response l), MkProc v' rx inner) ∧
    http_calls (vs_host v') = cl.
Proof.
  intros [Hc _ _ _ _ Hcl] Hl. unfold unless_local.
  rewrite (vbind_done _ _ _ (Some l) (MkProc (upd_host (upd_context id (ctx_set_local None)) v) rx inner)).
  - destruct (ends_request (upd_host (upd_context id (ctx_set_local None)) v) rx inner) as (v' & He & Hcl').
    exists v'. rewrite (vbind_done _ _ _ tt _ He). split; [done|]. by rewrite Hcl'.
  - unfold take_local, vbind, vhost, vupd, vret. cbn [p_vm p_rx p_inner mbind option_bind]. rewrite Hc. cbn [mbind option_bind]. by rewrite Hl.
Qed.
Lemma no_local v c s pd tk cl rx inner k : runs id sc v c s pd tk cl →
  ∃ v', unless_local vm id k (MkProc v rx inner) = k (MkProc v' rx inner) ∧ runs id sc v' (ctx_set_local None c) s pd tk cl.
Proof.
  intros Hr. exists (upd_host (upd_context id (ctx_set_local None)) v). split; [|by apply runs_upd].
  unfold unless_local. apply vbind_done with (a := None). unfold take_local, vbind, vhost, vupd, vret. cbn [p_vm p_rx p_inner mbind option_bind].
  rewrite (lk_ctx _ _ _ _ _ _ _ (rs_looks _ _ _ _ _ _ _ _ Hr)). cbn [mbind option_bind]. by rewrite (rs_local _ _ _ _ _ _ _ _ Hr).
Qed.

(** A body within the limit of the configuration *)
Definition within (body : string) : Prop := ∀ limit, max_body_bytes (limits sc) = Some limit → str_len body ≤ limit.
Lemma collects v c s pd tk cl body : runs id sc v c s pd tk cl → within body →
  collect_body_limited body (max_body (vs_host v)) = Ok body.
Proof.
  intros Hr Hw. unfold collect_body_limited, max_body. rewrite (lk_cfg _ _ _ _ _ _ _ (rs_looks _ _ _ _ _ _ _ _ Hr)).
  destruct (max_body_bytes (limits sc)) as [limit|] eqn:E; [|done]. by rewrite (proj2 (Z.ltb_ge _ _)) by (by apply Hw).
Qed.


(** What follows the hook of the request's body *)
Definition inner_response (req : Request) (inner : Service) (body : option string) : VmM (G:=QueueGuest) Response :=
  h << vhost;;
  resp << call_inner inner (forwarded h id req body);;
  on_response_headers vm id resp (
    hb << on_response_body vm id resp;;
    headers << on_response_trailers vm id hb.1;;
    invoke_log_done_delete vm id;;>
    vret (MkResp (resp_status resp) headers (resp_ext resp) hb.2)).

(** The plugin overrides no hook of a response: it comes back as it is. *)
Lemma response_body_unchanged v c s pd tk cl rx calls (resp : Response) :
  runs id sc v c s pd tk cl → within (resp_body resp) → rc_response_headers c = resp_headers resp →
  ∃ v' c', on_response_body vm id resp (MkProc v rx calls) = (Done (resp_headers resp, resp_body resp), MkProc v' rx calls) ∧
    runs id sc v' c' s pd tk cl ∧ rc_response_headers c' = resp_headers resp.
Proof.
  intros Hr Hw Hh. unfold on_response_body. rewrite (rq_response_body _ _ queue_vm).
  erewrite vbind_done by reflexivity. cbn [p_vm p_rx p_inner]. rewrite (collects _ _ _ _ _ _ _ Hr Hw).
  erewrite vbind_done by reflexivity.
  set (f := λ c, set_sizes (rc_request_size c) (str_len (resp_body resp))
    (enter_stage StResponseBody (ctx_set_bodies (rc_request_body c) (Some (resp_body resp)) c))).
  pose proof (runs_enter f _ _ _ _ _ _ Hr (rs_local _ _ _ _ _ _ _ _ Hr)) as Hr1.
  erewrite vbind_done by reflexivity. cbn [p_vm p_rx p_inner].
  erewrite vbind_done by (eapply call_hook_ok; reflexivity). erewrite vbind_done by reflexivity.
  erewrite vbind_done by reflexivity. cbn [p_vm p_rx p_inner].
  exists (upd_host (enter id f) v), (f c). split; [|by split].
  change (upd_host (enter id _) v) with (upd_host (enter id f) v).
  rewrite (lk_ctx _ _ _ _ _ _ _ (rs_looks _ _ _ _ _ _ _ _ Hr1)). unfold vret. cbn. by rewrite Hh.
Qed.
Lemma response_trailers_unchanged v c s pd tk cl rx calls headers :
  runs id sc v c s pd tk cl → rc_response_headers c = headers →
  ∃ v' c', on_response_trailers vm id headers (MkProc v rx calls) = (Done headers, MkProc v' rx calls) ∧
    runs id sc v' c' s pd tk cl.
Proof.
  intros Hr Hh. unfold on_response_trailers. rewrite (rq_response_trailers _ _ queue_vm).
  apply runs_effective in Hr. apply (runs_upd (enter_stage StResponseTrailers)) in Hr; [|apply (rs_local _ _ _ _ _ _ _ _ Hr)].
  do 2 (erewrite vbind_done by reflexivity). cbn [p_vm p_rx p_inner].
  erewrite vbind_done by (eapply call_hook_ok; reflexivity). erewrite vbind_done by reflexivity. cbn [p_vm p_rx p_inner].
  rewrite (lk_ctx _ _ _ _ _ _ _ (rs_looks _ _ _ _ _ _ _ _ Hr)). do 2 eexists. split; [|exact Hr]. unfold vret. cbn. by rewrite Hh.
Qed.

Lemma response_unchanged v c s pd tk cl rx calls (resp : Response) :
  runs id sc v c s pd tk cl → within (resp_body resp) →
  ∃ v', on_response_headers vm id resp (
    hb << on_response_body vm id resp;;
    headers << on_response_trailers vm id hb.1;;
    invoke_log_done_delete vm id;;>
    vret (MkResp (resp_status resp) headers (resp_ext resp) hb.2)) (MkProc v rx calls) = (Done resp, MkProc v' rx calls) ∧
    http_calls (vs_host v') = cl.
Proof.
  intros Hr Hw. unfold on_response_headers. rewrite (rq_response_headers _ _ queue_vm), (rq_response_body _ _ queue_vm).
  erewrite vbind_done by reflexivity. match goal with |- context [enter id ?f] => pose proof (runs_enter f _ _ _ _ _ _ Hr) as Hr1 end.
  cbn [p_vm p_rx p_inner] in *. specialize (Hr1 (rs_local _ _ _ _ _ _ _ _ Hr)).
  erewrite vbind_done by (eapply call_hook_ok; reflexivity). erewrite vbind_done by reflexivity.
  destruct (no_local _ _ _ _ _ _ rx calls (
    hb << on_response_body vm id resp;; headers << on_response_trailers vm id hb.1;; invoke_log_done_delete vm id;;>
    vret (MkResp (resp_status resp) headers (resp_ext resp) hb.2)) Hr1) as (v2 & -> & Hr2).
  destruct (response_body_unchanged _ _ _ _ _ _ rx calls resp Hr2 Hw eq_refl) as (v3 & c3 & E3 & Hr3 & Hh3).
  rewrite (vbind_done _ _ _ _ _ E3). cbn [fst snd].
  destruct (response_trailers_unchanged _ _ _ _ _ _ rx calls _ Hr3 Hh3) as (v4 & c4 & E4 & Hr4).
  rewrite (vbind_done _ _ _ _ _ E4). destruct (ends_request v4 rx calls) as (v5 & E5 & Hcl).
  rewrite (vbind_done _ _ _ _ _ E5). exists v5. split; [by destruct resp|].
  rewrite Hcl. apply (lk_calls _ _ _ _ _ _ _ (rs_looks _ _ _ _ _ _ _ _ Hr4)).
Qed.

(** The request that is handed on has the headers and the body of the client's. *)
Definition same_forwarded (req req' : Request) : Prop :=
  req_headers req' = req_headers req ∧ req_body req' = req_body req ∧
  req_version req' = req_version req ∧ req_ext req' = req_ext req.

Lemma inner_response_spec v c s pd tk cl rx calls req inner :
  runs id sc v c s pd tk cl → rc_request_headers c = req_headers req →
  (∀ r resp, inner r = Some resp → within (resp_body resp)) →
  ∃ req' v', on_request_trailers vm id (inner_response req inner (Some (req_body req))) (MkProc v rx calls) =
      (match inner req' with Some resp => Done resp | None => Panicked end, MkProc v' rx (calls ++ [req'])) ∧
    same_forwarded req req' ∧ http_calls (vs_host v') = cl.
Proof.
  intros Hr Hh Hw. unfold on_request_trailers. rewrite (rq_trailers _ _ queue_vm).
  apply runs_effective in Hr. apply (runs_upd (enter_stage StRequestTrailers)) in Hr; [|apply (rs_local _ _ _ _ _ _ _ _ Hr)].
  do 2 (erewrite vbind_done by reflexivity). cbn [p_vm p_rx p_inner].
  erewrite vbind_done by (eapply call_hook_ok; reflexivity). erewrite vbind_done by reflexivity.
  destruct (no_local _ _ _ _ _ _ rx calls (inner_response req inner (Some (req_body req))) Hr) as (v2 & -> & Hr2).
  unfold inner_response. erewrite vbind_done by reflexivity. cbn [p_vm p_rx p_inner].
  exists (forwarded (vs_host v2) id req (Some (req_body req))).
  assert (same_forwarded req (forwarded (vs_host v2) id req (Some (req_body req)))) as Hsame.
  { unfold forwarded. rewrite (lk_ctx _ _ _ _ _ _ _ (rs_looks _ _ _ _ _ _ _ _ Hr2)). by split_and!. }
  unfold vbind at 1. unfold call_inner. cbn [p_vm p_rx p_inner].
  destruct (inner _) as [resp|] eqn:Hi.
  - destruct (response_unchanged _ _ _ _ _ _ rx (calls ++ [forwarded (vs_host v2) id req (Some (req_body req))]) resp Hr2 (Hw _ _ Hi))
      as (v3 & -> & Hcl). by exists v3.
  - exists v2. split_and!; [done..|]. apply (lk_calls _ _ _ _ _ _ _ (rs_looks _ _ _ _ _ _ _ _ Hr2)).
Qed.

(** *** Local responses *)

Lemma looks_send h c pd tk cl status headers body : looks id sc h c pd tk cl →
  looks id sc (send_http_response status headers (Some body) h)
    (ctx_set_local (Some (MkLocal (uwrap 16 status) (pairs_to_header_map headers) body)) c) pd tk cl.
Proof.
  intros Hl. rewrite sdk_send. unfold send_local. rewrite (lk_eff _ _ _ _ _ _ _ Hl). by apply looks_upd.
Qed.
Lemma local_response_spec status headers body : 100 ≤ status ≤ 999 →
  resp_status (build_local_response (MkLocal (uwrap 16 status) headers body)) = status ∧
  resp_body (build_local_response (MkLocal (uwrap 16 status) headers body)) = body.
Proof.
  intros Hs. unfold build_local_response. cbn [lr_status lr_body resp_status resp_body]. split; [|done].
  rewrite uwrap_id by (unfold in_unsigned; change (2 ^ 16) with 65536; lia).
  rewrite (proj2 (Z.leb_le 100 status)), (proj2 (Z.leb_le status 999)) by lia. reflexivity.
Qed.
Lemma seen_status_range r : valid_answer r → 100 ≤ seen_status r ≤ 999.
Proof. intros [Hv _]. unfold seen_status. destruct (Z.ltb_spec 0 (hr_status r)); lia. Qed.

Lemma answer_to_valid tk rx r rx' : Forall (λ tr, valid_answer tr.2) rx → answer_to tk rx = Some (r, rx') →
  valid_answer r ∧ Forall (λ tr, valid_answer tr.2) rx'.
Proof.
  induction 1 as [|[t r0] rx Hr Hrx IH]; [done|]. cbn [answer_to]. case_decide; [|exact IH]. intros [= <- <-]. by split.
Qed.

(** The virtual machine has a local response: the request is over. *)
Lemma waited_reply v rx v2 rx' c pd tk cl status headers body calls k :
  drive vm id rx v calls = drive vm id rx' v2 calls →
  looks id sc (vs_host v2) (ctx_set_local (Some (MkLocal (uwrap 16 status) headers body)) c) pd tk cl → 100 ≤ status ≤ 999 →
  ∃ v' resp, (drive_until_continue vm id;;> unless_local vm id k) (MkProc v rx calls) = (Done resp, MkProc v' rx' calls) ∧
    resp_status resp = status ∧ resp_body resp = body ∧ http_calls (vs_host v') = cl.
Proof.
  intros Hd Hl Hs. destruct (local_answers v2 _ _ pd tk cl rx' calls k Hl eq_refl) as (v' & Hu & Hcl).
  exists v'. eexists. split; [|destruct (local_response_spec status headers body Hs) as [H1' H2']; split_and!; [exact H1'|exact H2'|done]].
  rewrite (vbind_done _ _ _ tt (MkProc v2 rx' calls)); [exact Hu|].
  unfold drive_until_continue. cbn [p_vm p_rx p_inner]. rewrite Hd. eapply drive_done; [exact Hl|]. left. by eexists.
Qed.


(** *** The hook of the request's body *)

Definition job_path (p : Policy) : string := if decide (p = Queue) then enqueue_path gc else wait_path gc.
Definition job_pending (p : Policy) : Pending := if decide (p = Queue) then PQueue else PWait.

(** What the guest sees when its body hook runs *)
Definition in_body (body : string) c : RequestContext :=
  set_sizes (str_len body) (rc_response_size c) (enter_stage StRequestBody (ctx_set_bodies (Some body) (rc_response_body c) c)).

Lemma request_body_enter v c s pd tk cl body rx calls k :
  runs id sc v c s pd tk cl → within body →
  ∃ v', runs id sc v' (in_body body c) s pd tk cl ∧
    on_request_body vm id body k (MkProc v rx calls) =
    (action << call_hook "on_request_body" hook_request_body [id; uwrap 32 (str_len body); 1];;
     pause_drive vm id action;;>
     unless_local vm id (h << vhost;; k (Some (default body (c ← contexts h !! id; rc_request_body c))))) (MkProc v' rx calls).
Proof.
  intros Hr Hw. unfold on_request_body. rewrite (rq_body _ _ queue_vm).
  erewrite vbind_done by reflexivity. cbn [p_vm p_rx p_inner]. rewrite (collects _ _ _ _ _ _ _ Hr Hw).
  erewrite vbind_done by reflexivity. erewrite vbind_done by reflexivity. cbn [p_vm p_rx p_inner].
  eexists. split; [|reflexivity]. exact (runs_enter (in_body body) _ _ _ _ _ _ Hr (rs_local _ _ _ _ _ _ _ _ Hr)).
Qed.

Lemma body_continues v c s tk cl body rx calls k :
  runs id sc v c s ∅ tk cl → rate_limited_enqueue s = None → within body →
  ∃ v' c' s', on_request_body vm id body k (MkProc v rx calls) = k (Some body) (MkProc v' rx calls) ∧
    runs id sc v' c' s' ∅ tk cl ∧ rc_request_headers c' = rc_request_headers c.
Proof.
  intros Hr He Hw. destruct (request_body_enter v c s ∅ tk cl body rx calls k Hr Hw) as (v1 & Hr1 & ->).
  assert (∃ s', on_http_request_body (uwrap 32 (str_len body)) true s (vs_host v1) = (Continue, s', vs_host v1)) as [s' Hb].
  { unfold on_http_request_body. rewrite He. destruct (body_pending s); cbn [negb andb]; eexists; [|reflexivity].
    cbn [set_body_pending rate_limited_enqueue]. rewrite He. reflexivity. }
  destruct (with_stream_runs id v1 s (λ s h,
    let '(a, s, h) := on_http_request_body (uwrap 32 (str_len body)) true s h in (action_u32 a, s, h)) 0 s' (vs_host v1))
    as (g & Hws & Hg); [apply (rs_stream _ _ _ _ _ _ _ _ Hr1)|by rewrite Hb|].
  erewrite vbind_done by (apply call_hook_ok; exact Hws). erewrite vbind_done by reflexivity.
  assert (runs id sc (MkVmState (vs_host v1) (vs_shared v1) g) (in_body body c) s' ∅ tk cl) as Hr2.
  { split; [apply (rs_looks _ _ _ _ _ _ _ _ Hr1)|done|apply (rs_local _ _ _ _ _ _ _ _ Hr1)]. }
  destruct (no_local _ _ _ _ _ _ rx calls
    (h << vhost;; k (Some (default body (c ← contexts h !! id; rc_request_body c)))) Hr2) as (v3 & -> & Hr3).
  erewrite vbind_done by reflexivity. cbn [p_vm p_rx p_inner]. rewrite (lk_ctx _ _ _ _ _ _ _ (rs_looks _ _ _ _ _ _ _ _ Hr3)).
  do 3 eexists. split; [reflexivity|]. by split.
Qed.


Variable base : string.
Hypothesis cluster_known : resolve_cluster sc (service_cluster gc) = Some base.

Lemma dispatch_job policy body s h c tk cl :
  cfg s = gc → looks id sc h c ∅ tk cl → from_utf8_lossy (job_path policy) ≠ "" → room sc body →
  ∃ call h', dispatch_enqueue policy body s h = (set_pending (Some (tk, job_pending policy)) s, h') ∧
    looks id sc h' c {[tk := id]} (next_u32 tk) (cl ++ [call]) ∧ service_call call tk base (job_path policy) body.
Proof.
  intros Hcfg Hl Hpath Hroom. unfold dispatch_enqueue, dispatch_service_call. rewrite Hcfg, sdk_dispatch.
  change (default "" (Some body)) with body. fold (job_path policy) (job_pending policy).
  destruct (http_call_ok gc (job_path policy) body (swrap 32 (service_timeout_ms gc)) h id sc c tk cl base)
    as (call & h' & -> & Hl' & Hsc); [done..|]. by exists call, h'.
Qed.

(** The answer to a job goes to the client. *)
Lemma job_answer_sent r v c s policy tk tk' cl : valid_answer r →
  runs id sc v (take_answer r c) s ∅ tk' cl → pending s = Some (tk, job_pending policy) →
  ∃ hs, looks id sc (vs_host (after_answer r s tk v))
    (ctx_set_local (Some (MkLocal (uwrap 16 (seen_status r)) hs (hr_body r))) (take_answer r c)) ∅ tk' cl.
Proof.
  intros Hv [Hl _ _] Hp. exists (pairs_to_header_map (response_headers_for_client (vs_host v))).
  pose proof (looks_current _ _ _ _ _ _ _ Hl) as Hc.
  assert (on_http_call_response tk (uwrap 32 (str_len (hr_body r))) s (vs_host v) =
    (set_pending None s, send_http_response (seen_status r) (response_headers_for_client (vs_host v)) (Some (hr_body r)) (vs_host v))) as E.
  { unfold on_http_call_response. rewrite Hp, Z.eqb_refl. cbn [negb].
    assert (forward_service_response (uwrap 32 (str_len (hr_body r))) (vs_host v) =
      send_http_response (seen_status r) (response_headers_for_client (vs_host v)) (Some (hr_body r)) (vs_host v)) as <-.
    { unfold forward_service_response. by rewrite (seen_status_looks _ r c), (call_body_looks _ r c). }
    unfold job_pending. by case_decide. }
  unfold after_answer. rewrite E. cbn [vs_host]. by apply looks_send.
Qed.

Lemma body_queues v c s policy tk cl body rx calls k :
  runs id sc v c s ∅ tk cl → cfg s = gc → rate_limited_enqueue s = Some policy → within body → str_len body < 2 ^ 32 →
  room sc body → from_utf8_lossy (job_path policy) ≠ "" → Forall (λ tr, valid_answer tr.2) rx →
  ∃ v' job, service_call job tk base (job_path policy) body ∧ http_calls (vs_host v') = cl ++ [job] ∧
    match answer_to tk rx with
    | None => on_request_body vm id body k (MkProc v rx calls) = (Waiting, MkProc v' [] calls)
    | Some (r, rx') => ∃ resp, on_request_body vm id body k (MkProc v rx calls) = (Done resp, MkProc v' rx' calls) ∧
        resp_status resp = seen_status r ∧ resp_body resp = hr_body r
    end.
Proof.
  intros Hr Hcfg He Hw Hlen Hroom Hpath Hvalid.
  destruct (request_body_enter v c s ∅ tk cl body rx calls k Hr Hw) as (v1 & Hr1 & ->).
  pose proof (str_len_nonneg body) as Hnn.
  assert (default "" (get_http_request_body 0 (uwrap 32 (str_len body)) (vs_host v1)) = body) as Hbody.
  { rewrite sdk_request_body. unfold read_buffer. rewrite (looks_current _ _ _ _ _ _ _ (rs_looks _ _ _ _ _ _ _ _ Hr1)).
    cbn [mbind option_bind in_body set_sizes enter_stage ctx_set_bodies ctx_set_stage ctx_set_continue rc_request_body].
    rewrite uwrap_id by (unfold in_unsigned; lia). change (default "" (Some body)) with body. apply str_take_all. unfold str_len. lia. }
  set (s1 := set_enqueue None (set_body_pending false s)).
  destruct (dispatch_job policy body s1 (vs_host v1) (in_body body c) tk cl) as (job & h' & Hd & Hl' & Hsc);
    [done|apply (rs_looks _ _ _ _ _ _ _ _ Hr1)|done..|].
  assert (on_http_request_body (uwrap 32 (str_len body)) true s (vs_host v1) =
    (Pause, set_pending (Some (tk, job_pending policy)) s1, h')) as Hb.
  { unfold on_http_request_body. rewrite He. rewrite (bool_decide_eq_false_2 (Some policy = None)) by done. rewrite andb_false_r. cbn [negb].
    cbn [set_body_pending rate_limited_enqueue]. rewrite He, Hbody. fold (set_body_pending false s). fold s1. by rewrite Hd. }
  destruct (with_stream_runs id v1 s (λ s h,
    let '(a, s, h) := on_http_request_body (uwrap 32 (str_len body)) true s h in (action_u32 a, s, h)) 1
    (set_pending (Some (tk, job_pending policy)) s1) h')
    as (g & Hws & Hg); [apply (rs_stream _ _ _ _ _ _ _ _ Hr1)|by rewrite Hb|].
  erewrite vbind_done by (apply call_hook_ok; exact Hws).
  change (pause_drive vm id 1) with (drive_until_continue vm id).
  assert (runs id sc (MkVmState h' (vs_shared v1) g) (in_body body c) (set_pending (Some (tk, job_pending policy)) s1)
    {[tk := id]} (next_u32 tk) (cl ++ [job])) as Hr2.
  { split; [done..|]. apply (rs_local _ _ _ _ _ _ _ _ Hr1). }
  pose proof (drive_to_answer rx _ _ _ tk _ _ _ calls Hr2 eq_refl) as Hdrive.
  destruct (answer_to tk rx) as [[r rx']|] eqn:Hans.
  - destruct Hdrive as (v3 & c3 & Hr3 & _ & Hd3). destruct (answer_to_valid _ _ _ _ Hvalid Hans) as [Hv _].
    destruct (job_answer_sent r v3 c3 _ policy tk _ _ Hv Hr3 eq_refl) as [hs Hl3].
    match goal with |- context [unless_local vm id ?k] =>
      destruct (waited_reply _ _ _ _ _ _ _ _ _ _ _ calls k Hd3 Hl3 (seen_status_range _ Hv)) as (v' & resp & E & Hst & Hbo & Hcl) end.
    exists v', job. split_and!; [done..|]. exists resp. split_and!; [exact E|done|done].
  - destruct Hdrive as (v3 & Hd3 & Hcl). exists v3, job. split_and!; [done..|]. by apply vbind_waiting.
Qed.


(** *** The answer to the check *)

Definition checking (policy : Policy) (tk : Z) : AiGatewayHttp :=
  MkHttp gc (Some (tk, PRateLimit policy)) None (bool_decide (policy ≠ Abandon)).

Lemma check_answered r v c policy tk tk' cl : valid_answer r →
  runs id sc v (take_answer r c) (checking policy tk) ∅ tk' cl →
  let v' := after_answer r (checking policy tk) tk v in
  let replies status body := ∃ hs, looks id sc (vs_host v')
    (ctx_set_local (Some (MkLocal (uwrap 16 status) hs body)) (take_answer r c)) ∅ tk' cl in
  if negb (seen_status r =? 200) then replies 502 (js "{`error`:`rate_limit_service_error`}")
  else if allowed r then runs id sc v' (ctx_set_continue true (take_answer r c)) (set_pending None (checking policy tk)) ∅ tk' cl
  else match policy with
       | Abandon => replies 429 (rejected_body (from_utf8_lossy (hr_body r)))
       | Queue | Wait => runs id sc v' (take_answer r c) (set_enqueue (Some policy) (set_pending None (checking policy tk))) ∅ tk' cl
       end.
Proof.
  intros Hv [Hl Hs Hloc] v' replies. pose proof (looks_current _ _ _ _ _ _ _ Hl) as Hc.
  assert (v' = let '(s', h') := handle_rate_limit_response (uwrap 32 (str_len (hr_body r))) policy (set_pending None (checking policy tk)) (vs_host v) in
    MkVmState h' (vs_shared v) (MkQueueGuest (qg_root (vs_guest v)) (<[id := s']> (qg_streams (vs_guest v))))) as Hv'.
  { unfold v', after_answer, on_http_call_response. cbn [checking pending]. by rewrite Z.eqb_refl. }
  unfold handle_rate_limit_response in Hv'.
  rewrite (seen_status_looks _ r c), (call_body_looks _ r c) in Hv' by done. fold (allowed r) in Hv'.
  destruct (seen_status r =? 200); cbn [negb andb] in *.
  - destruct (allowed r); cbn [negb andb] in *.
    + rewrite Hv'. rewrite sdk_resume, (lk_eff _ _ _ _ _ _ _ Hl). split; [by apply looks_upd|apply lookup_insert_eq|done].
    + destruct policy.
      * eexists. rewrite Hv'. cbn [vs_host]. unfold send_rate_limited_response. by apply looks_send.
      * rewrite Hv'. split; [done|apply lookup_insert_eq|done].
      * rewrite Hv'. split; [done|apply lookup_insert_eq|done].
  - eexists. rewrite Hv'. cbn [vs_host]. unfold send_json. by apply looks_send.
Qed.


(** *** A whole request *)

(** What the client and the inner service see of the verdict *)
Definition follows (req : Request) (inner : Service) (verdict : Verdict) (out : Outcome Response) (served : list Request) : Prop :=
  match verdict with
  | NoAnswer => out = Waiting ∧ served = []
  | Reply status body => served = [] ∧ ∃ resp, out = Done resp ∧ resp_status resp = status ∧ resp_body resp = body
  | Forward => ∃ req', served = [req'] ∧ same_forwarded req req' ∧
      out = match inner req' with Some resp => Done resp | None => Panicked end
  end.

(** The calls to the service: the check, and the job if it was handed in. *)
Definition calls_made (policy : Policy) (tk : Z) (rx : list (Z * HttpCallResult)) (body : string) (calls : list HttpCall) : Prop :=
  ∃ check jobs, calls = check :: jobs ∧ service_call check tk base (rate_limit_path gc) "" ∧
    if queued policy tk rx then ∃ job, jobs = [job] ∧ service_call job (next_u32 tk) base (job_path policy) body
    else jobs = [].

Section phase.
Variables (req : Request) (inner : Service) (rx : list (Z * HttpCallResult)) (policy : Policy).
Hypothesis job_path_known : from_utf8_lossy (job_path policy) ≠ "".
Hypothesis room_for_calls : room sc (req_body req).
Hypothesis body_length : str_len (req_body req) < 2 ^ 32.
Hypothesis answers_valid : Forall (λ tr, valid_answer tr.2) rx.
Hypothesis responses_within : ∀ r resp, inner r = Some resp → within (resp_body resp).

Lemma room_empty : room sc "".
Proof. destruct room_for_calls as [H1' H2']. split; [done|]. intros l Hl. specialize (H2' l Hl). pose proof (str_len_nonneg (req_body req)). change (str_len "") with 0. lia. Qed.

Definition after_headers (action : Z) : VmM (G:=QueueGuest) Response :=
  h << vhost;;
  _ << (if decide (action_from_u32 action = Pause ∧ pending_calls h ≠ ∅) then drive_until_continue vm id else vret tt);;
  unless_local vm id (on_request_body vm id (req_body req) (λ body, on_request_trailers vm id (inner_response req inner body))).

Lemma request_follows v c tk cl :
  runs id sc v c (checking policy tk) {[tk := id]} (next_u32 tk) cl → rc_request_headers c = req_headers req →
  ∃ v' rx' out served, after_headers 1 (MkProc v rx []) = (out, MkProc v' rx' served) ∧
    follows req inner (verdict policy tk (next_u32 tk) rx) out served ∧
    ∃ jobs, http_calls (vs_host v') = cl ++ jobs ∧
      if queued policy tk rx then ∃ job, jobs = [job] ∧ service_call job (next_u32 tk) base (job_path policy) (req_body req)
      else jobs = [].
Proof.
  intros Hr Hh. unfold after_headers. erewrite vbind_done by reflexivity. cbn [p_vm p_rx p_inner].
  rewrite (lk_pend _ _ _ _ _ _ _ (rs_looks _ _ _ _ _ _ _ _ Hr)).
  rewrite decide_True by (split; [done|apply map_non_empty_singleton]).
  match goal with |- context [unless_local vm id ?k0] => set (k := k0) end.
  pose proof (drive_to_answer rx _ _ _ tk _ _ _ [] Hr eq_refl) as Hd. unfold verdict, queued.
  destruct (answer_to tk rx) as [[r rx1]|] eqn:Hans.
  2: { destruct Hd as (v' & Hd & Hcl). exists v', [], Waiting, []. split_and!; [by apply vbind_waiting|done..|].
       exists []. by rewrite app_nil_r. }
  destruct Hd as (v1 & c1 & Hr1 & Hsame & Hd). destruct (answer_to_valid _ _ _ _ answers_valid Hans) as [Hv Hv1].
  pose proof (check_answered _ _ _ _ _ _ _ Hv Hr1) as Hcheck. cbn zeta in Hcheck.
  set (v2 := after_answer r (checking policy tk) tk v1) in *.
  assert (∀ status body, 100 ≤ status ≤ 999 → (∃ hs, looks id sc (vs_host v2)
      (ctx_set_local (Some (MkLocal (uwrap 16 status) hs body)) (take_answer r c1)) ∅ (next_u32 tk) cl) →
    ∃ v' rx' out served, (_ << drive_until_continue vm id;; unless_local vm id k) (MkProc v rx []) = (out, MkProc v' rx' served) ∧
    follows req inner (Reply status body) out served ∧ ∃ jobs, http_calls (vs_host v') = cl ++ jobs ∧ jobs = []) as Hreply.
  { intros status body Hst [hs Hl]. destruct (waited_reply _ _ _ _ _ _ _ _ _ _ _ [] k Hd Hl Hst) as (v' & resp & E & Hs & Hb & Hcl).
    exists v', rx1, (Done resp), []. split_and!; [done|split; [done|by exists resp]|]. exists []. by rewrite app_nil_r. }
  destruct (seen_status r =? 200); cbn [negb andb] in *; [|by apply Hreply; [lia|]].
  destruct (allowed r) eqn:Hallow; cbn [negb andb] in *.
  - destruct (no_local _ _ _ _ _ _ rx1 [] k Hcheck) as (v3 & Hun & Hr3).
    destruct (body_continues _ _ _ _ _ (req_body req) rx1 [] (λ body, on_request_trailers vm id (inner_response req inner body)) Hr3)
      as (v4 & c4 & s4 & Hb4 & Hr4 & Hh4); [done|exact (proj2 room_for_calls)|].
    destruct (inner_response_spec _ _ _ _ _ _ rx1 [] req inner Hr4) as (req' & v5 & Hin & Hsf & Hcl); [|done|].
    { rewrite Hh4. cbn. rewrite (sr_headers _ _ Hsame). exact Hh. }
    exists v5, rx1. do 2 eexists. split_and!.
    + rewrite (vbind_done _ _ _ tt (MkProc v2 rx1 [])).
      * rewrite Hun. unfold k. rewrite Hb4. exact Hin.
      * unfold drive_until_continue. cbn [p_vm p_rx p_inner]. rewrite Hd. eapply drive_done; [apply (rs_looks _ _ _ _ _ _ _ _ Hcheck)|by right].
    + by exists req'.
    + exists []. by rewrite app_nil_r.
  - destruct (decide (policy = Abandon)) as [->|Hpol]; [by apply Hreply; [lia|]|].
    assert (runs id sc v2 (take_answer r c1) (set_enqueue (Some policy) (set_pending None (checking policy tk))) ∅ (next_u32 tk) cl)
      as Hr2 by (destruct policy; [done..]). clear Hcheck Hreply.
    destruct (no_local _ _ _ _ _ _ rx1 [] k Hr2) as (v3 & Hun & Hr3).
    destruct (body_queues _ _ _ policy _ _ (req_body req) rx1 [] (λ body, on_request_trailers vm id (inner_response req inner body)) Hr3)
      as (v4 & job & Hjob & Hcl & Hq); [done|done|exact (proj2 room_for_calls)|done..|].
    rewrite (bool_decide_eq_true_2 (policy ≠ Abandon)) by done. rewrite (vbind_done _ _ _ tt (MkProc v2 rx1 [])).
    2: { unfold drive_until_continue. cbn [p_vm p_rx p_inner]. rewrite Hd. eapply drive_done; [apply (rs_looks _ _ _ _ _ _ _ _ Hr2)|by right]. }
    rewrite Hun. unfold k. exists v4.
    assert (∃ jobs, http_calls (vs_host v4) = cl ++ jobs ∧
      ∃ job, jobs = [job] ∧ service_call job (next_u32 tk) base (job_path policy) (req_body req)) as Hjobs.
    { exists [job]. split; [done|]. by exists job. }
    assert ((match policy with Abandon => Reply 429 (rejected_body (from_utf8_lossy (hr_body r)))
      | _ => match answer_to (next_u32 tk) rx1 with None => NoAnswer | Some (r, _) => Reply (seen_status r) (hr_body r) end end) =
      match answer_to (next_u32 tk) rx1 with None => NoAnswer | Some (r, _) => Reply (seen_status r) (hr_body r) end) as ->
      by (destruct policy; done).
    destruct (answer_to (next_u32 tk) rx1) as [[r2 rx2]|].
    + destruct Hq as (resp & Hq & Hst & Hbo). exists rx2, (Done resp), []. split_and!; [done|split; [done|by exists resp]|done].
    + exists [], Waiting, []. by split_and!.
Qed.
End phase.

End one_vm.

(** ** The property *)

Section property.
Variables (vm : Vm QueueGuest) (gc : AiGatewayConfig) (req : Request) (inner : Service) (rx : list (Z * HttpCallResult)).
Let before : HostState := vs_host (vm_state vm).
Let sc : WasmPluginShellConfig := shell_cfg before.
Let token : Z := next_token before.

(** The host when the plugin sees the headers of the request: it has the request in a new context. *)
Definition request_host : HostState :=
  set_effective (vm_next_ctx_id vm) (upd_contexts
    <[vm_next_ctx_id vm := request_context (vm_root_id vm) req request_context_default]> (upd_pending (λ _, ∅) before)).

(** The verdict on the request, and the calls to the service. *)
Definition request_verdict : Verdict :=
  match request_policy gc request_host with
  | None => Reply 400 (js "{`error`:`missing_or_invalid_rate_limit_policy`}")
  | Some policy =>
      match tenant_id gc request_host with
      | None => Reply 400 (js "{`error`:`missing_x_tenant_id`}")
      | Some _ => verdict policy token (next_u32 token) rx
      end
  end.
Definition request_calls (base : string) (calls : list HttpCall) : Prop :=
  match request_policy gc request_host, tenant_id gc request_host with
  | Some policy, Some _ => calls_made gc base policy token rx (req_body req) calls
  | _, _ => calls = []
  end.

Hypothesis queue_vm : runs_queue vm gc.
Hypothesis fresh : contexts before !! vm_next_ctx_id vm = None.

Lemma upd_contexts_ext f g h : f (contexts h) = g (contexts h) → upd_contexts f h = upd_contexts g h.
Proof. unfold upd_contexts. by intros ->. Qed.
Lemma vm_process_headers : ∃ v,
  looks (vm_next_ctx_id vm) sc (vs_host v) (request_context (vm_root_id vm) req request_context_default) ∅ token (http_calls before) ∧
  vs_host v = request_host ∧
  qg_streams (vs_guest v) !! vm_next_ctx_id vm = Some (create_http_context gc) ∧
  process vm (vm_next_ctx_id vm) req inner (MkProc (vm_state vm) rx []) =
    (action << call_hook "on_request_headers" hook_request_headers
      [vm_next_ctx_id vm; uwrap 32 (header_count (req_headers req) + 4); 0];;
     after_headers vm (vm_next_ctx_id vm) req inner action) (MkProc v rx []).
Proof.
  unfold process. do 2 (erewrite vbind_done by reflexivity). cbn [p_vm p_rx p_inner].
  rewrite (rq_create _ _ queue_vm), (rq_headers _ _ queue_vm), (rq_body _ _ queue_vm).
  set (g := MkQueueGuest (qg_root (vs_guest (vm_state vm)))
    (<[vm_next_ctx_id vm := create_http_context (qg_root (vs_guest (vm_state vm)))]> (qg_streams (vs_guest (vm_state vm))))).
  set (h := set_effective (vm_next_ctx_id vm) (upd_pending (λ _, ∅) before)).
  erewrite vbind_done.
  2: { apply call_hook_ok with (r := 0) (v' := MkVmState h (vs_shared (vm_state vm)) g). unfold hook_context_create.
       cbn [arg nth]. rewrite (proj2 (Z.eqb_neq _ _) (rq_root_id _ _ queue_vm)). reflexivity. }
  do 2 (erewrite vbind_done by reflexivity). cbn [p_vm p_rx p_inner].
  exists (MkVmState request_host (vs_shared (vm_state vm)) g). split_and!; [|done| |].
  - split; try reflexivity. apply lookup_insert_eq.
  - cbn [vs_guest g qg_streams]. rewrite (rq_root _ _ queue_vm). apply lookup_insert_eq.
  - unfold upd_host. cbn [vs_host vs_shared vs_guest].
    rewrite (upd_contexts_ext _ <[vm_next_ctx_id vm := request_context (vm_root_id vm) req request_context_default]> h).
    + reflexivity.
    + change (contexts h) with (contexts before). by rewrite fresh.
Qed.

Lemma refused_request v (body : string) c s :
  looks (vm_next_ctx_id vm) sc (vs_host v) c ∅ token (http_calls before) → qg_streams (vs_guest v) !! vm_next_ctx_id vm = Some s →
  on_http_request_headers false s (vs_host v) = (Pause, s, send_json 400 body (vs_host v)) →
  ∃ v' resp, (action << call_hook "on_request_headers" hook_request_headers
      [vm_next_ctx_id vm; uwrap 32 (header_count (req_headers req) + 4); 0];;
     after_headers vm (vm_next_ctx_id vm) req inner action) (MkProc v rx []) = (Done resp, MkProc v' rx []) ∧
    resp_status resp = 400 ∧ resp_body resp = body ∧ http_calls (vs_host v') = http_calls before.
Proof.
  intros Hl Hs Hh.
  destruct (with_stream_runs (vm_next_ctx_id vm) v s (λ s h,
    let '(a, s, h) := on_http_request_headers false s h in (action_u32 a, s, h)) 1 s (send_json 400 body (vs_host v)))
    as (g & Hws & Hg); [done|by rewrite Hh|].
  erewrite vbind_done by (apply call_hook_ok; exact Hws).
  pose proof (looks_send _ _ _ _ _ _ _ 400 [("content-type", "application/json")] body Hl) as Hl2. fold (send_json 400 body (vs_host v)) in Hl2.
  unfold after_headers. erewrite vbind_done by reflexivity. cbn [p_vm p_rx p_inner vs_host].
  rewrite (lk_pend _ _ _ _ _ _ _ Hl2). rewrite decide_False by (by intros [_ ?]). erewrite vbind_done by reflexivity.
  match goal with |- context [unless_local _ _ ?k] =>
    destruct (local_answers vm gc (vm_next_ctx_id vm) sc queue_vm (MkVmState (send_json 400 body (vs_host v)) (vs_shared v) g) _ _ _ _ _ rx [] k Hl2 eq_refl)
      as (v' & -> & Hcl) end.
  exists v'. eexists. split; [reflexivity|]. split_and!; [..|done]; apply local_response_spec; lia.
Qed.

Lemma checked_request v base policy tenant :
  looks (vm_next_ctx_id vm) sc (vs_host v) (request_context (vm_root_id vm) req request_context_default) ∅ token (http_calls before) →
  qg_streams (vs_guest v) !! vm_next_ctx_id vm = Some (create_http_context gc) →
  resolve_cluster sc (service_cluster gc) = Some base → from_utf8_lossy (rate_limit_path gc) ≠ "" → room sc "" →
  request_policy gc (vs_host v) = Some policy → tenant_id gc (vs_host v) = Some tenant →
  ∃ v' check, service_call check token base (rate_limit_path gc) "" ∧
    runs (vm_next_ctx_id vm) sc v' (request_context (vm_root_id vm) req request_context_default) (checking gc policy token)
      {[token := vm_next_ctx_id vm]} (next_u32 token) (http_calls before ++ [check]) ∧
    ∀ k : Z → VmM (G:=QueueGuest) Response, (action << call_hook "on_request_headers" hook_request_headers
      [vm_next_ctx_id vm; uwrap 32 (header_count (req_headers req) + 4); 0];; k action) (MkProc v rx []) = k 1 (MkProc v' rx []).
Proof.
  intros Hl Hs Hbase Hpath Hroom Hpol Hten.
  destruct (request_headers_looks gc (vs_host v) _ sc _ _ _ base policy tenant Hl Hbase Hpath Hroom Hpol Hten) as (check & h' & Hh & Hl' & Hcall).
  destruct (with_stream_runs (vm_next_ctx_id vm) v _ (λ s h,
    let '(a, s, h) := on_http_request_headers false s h in (action_u32 a, s, h)) 1 (checking gc policy token) h' Hs)
    as (g & Hws & Hg); [by rewrite Hh|].
  exists (MkVmState h' (vs_shared v) g), check. split_and!; [done|by split|].
  intros k. apply vbind_done, call_hook_ok. exact Hws.
Qed.

End property.
End queue_guest.

(** ** Concrete requests *)

#[local] Instance no_json : JsonLib := λ _, None.
#[local] Instance example_sdk : ProxyWasm HostState := host_sdk (H:=ref_http) (H0:=ref_header_lib).

Definition queue_shell : WasmPluginShellConfig :=
  MkShellConfig "" None None None true JNull FailOpen {["ai-gateway-service" := "http://svc:80"]}
    (MkLimits None None None (Some 100) (Some 1)) false "" "" "default" 1 0.
Definition queue_vm_example : Vm (H:=ref_http) QueueGuest :=
  let h := upd_contexts <[1 := request_context_default]> (host_state_new queue_shell) in
  MkVm (MkVmState h shared_default (MkQueueGuest config_default ∅)) 1 2 FailOpen hook_context_create (Some hook_vm_start)
    hook_configure hook_request_headers (Some hook_request_body) (Some (hook_default 0)) (hook_default 0) (Some (hook_default 0))
    (Some (hook_default 0)) hook_call_response (Some (hook_default 0)) (Some (hook_default 1)) (Some hook_delete) (Some (hook_default 0)).
Definition queue_request (policy : string) : Request (H:=ref_http) :=
  MkReq "POST" (MkUri None None (Some (MkPq "/chat" None))) 11
    [("x-ratelimit-policy", policy); ("x-tenant-id", "acme")] ext_empty "prompt".
Definition queue_inner : Service (H:=ref_http) := λ _, Some (MkResp 200 [] ext_empty "ok").
Definition answer (status : Z) (body : string) : HttpCallResult (H:=ref_http) := MkCallResult status "" [] body.
Definition denied : HttpCallResult (H:=ref_http) := answer 200 (js "{`allowed`:false,`retry_after_ms`:1500}").

Lemma queue_vm_example_runs : runs_queue (H:=ref_http) queue_vm_example config_default.
Proof. split; try reflexivity. discriminate. Qed.

