(* ===== verification/WasmShell.v ===== *)
(** * WebAssembly host: the shell

    [crates/plugin-wasm/src/shell.rs]: the pools of virtual machines of a plugin instance, which of
    them serves a request, what becomes of a machine whose guest failed, and the ticks.

    A slot is a [tokio::sync::Mutex] around a machine, which is fair: those who asked for it get it
    in the order they asked, and [try_lock] fails while somebody has it or waits for it. It is the
    queue of its users, whose head has the machine. A request is a call of [call], then a poll of
    its future up to the lock, then the work on the machine; these are the steps of
    [shell_step], in any interleaving with those of other requests and of the tasks that tick. *)

From S2P Require Export WasmVm.
From S2P Require Import RefHttp WasmGuest.
Local Open Scope string_scope.
Local Open Scope list_scope.
Local Open Scope Z_scope.

(** Who asks for a machine: a request, or the task that ticks. *)
Inductive User := UReq (id : nat) | UTick.
#[export] Instance User_eq_dec : EqDecision User.
Proof. solve_decision. Defined.

Section shell.
Context `{HttpLib} `{!HeaderLib} `{!HostEnv} `{!VmLib} `{YamlLib} {G : Type}.

(** The plugin as it was linked: [Vm::new] makes a machine of it. *)
Variable linked : result (Exports G * G) string.

(** ** State *)

Record VmSlot := MkSlot { sl_vm : Vm G; sl_users : list User; sl_inflight : Z }.
Definition slot_new (vm : Vm G) : VmSlot := MkSlot vm [] 0.
Record WasmPluginShell := MkShell {
  sh_cfg : WasmPluginShellConfig;
  vms : list VmSlot;
  wait_vms : list VmSlot;
  next_vm : Z;
  next_wait_vm : Z;
}.

(** The pool a request uses. *)
Definition pool (wait : bool) (s : WasmPluginShell) : list VmSlot := if wait then wait_vms s else vms s.
Definition upd_pool (wait : bool) (f : list VmSlot → list VmSlot) (s : WasmPluginShell) : WasmPluginShell :=
  if wait then MkShell (sh_cfg s) (vms s) (f (wait_vms s)) (next_vm s) (next_wait_vm s)
  else MkShell (sh_cfg s) (f (vms s)) (wait_vms s) (next_vm s) (next_wait_vm s).

(** ** [WasmPluginShell::create], from the compiled module on *)

Fixpoint create_slots (n : nat) (cfg : WasmPluginShellConfig) (name : string) (index : Z) (sh : Shared)
    : result (list VmSlot) string :=
  match n with
  | O => Ok []
  | S n =>
      match vm_new cfg linked sh with
      | Err e => Err ("Vm::new[" +:+ name +:+ z_string index +:+ "]: " +:+ host_error_string e)
      | Ok vm => let? slots := create_slots n cfg name (index + 1) (vs_shared (vm_state vm)) in Ok (slot_new vm :: slots)
      end
  end.
Definition last_shared (sh : Shared) (slots : list VmSlot) : Shared :=
  match last slots with Some s => vs_shared (vm_state (sl_vm s)) | None => sh end.
Definition create (cfg : WasmPluginShellConfig) (sh : Shared) : result WasmPluginShell string :=
  if str_is_empty (str_trim (url cfg)) then Err "wasm plugin: missing or empty `url`"
  else
    let? vms := create_slots (Z.to_nat (normalized_vm_pool_size cfg)) cfg "" 0 sh in
    let? wait_vms := create_slots (Z.to_nat (normalized_wait_vm_pool_size cfg)) cfg "wait:" 0 (last_shared sh vms) in
    Ok (MkShell cfg vms wait_vms 0 0).

(** ** The choice of a machine *)

Definition is_wait_policy (req : Request) : bool :=
  match v ← hm_get (req_headers req) "x-ratelimit-policy"; hv_to_str v with
  | Some value => eq_ignore_ascii_case (str_trim value) "wait"
  | None => false
  end.

(** A request between [call] and its answer: the pool and the index it starts with, and the slot
    it locks or waits for. *)
Record Call := MkCallState { ca_wait : bool; ca_start : Z; ca_slot : option nat; ca_req : Request }.

Definition call (req : Request) (s : WasmPluginShell) : Call * WasmPluginShell :=
  let use_wait_pool := is_wait_policy req && negb (bool_decide (wait_vms s = [])) in
  if use_wait_pool then
    (MkCallState true (next_wait_vm s) None req,
     MkShell (sh_cfg s) (vms s) (wait_vms s) (next_vm s) (uwrap 64 (next_wait_vm s + 1)))
  else
    (MkCallState false (next_vm s) None req,
     MkShell (sh_cfg s) (vms s) (wait_vms s) (uwrap 64 (next_vm s + 1)) (next_wait_vm s)).

Definition is_free (slots : list VmSlot) (i : nat) : bool :=
  match slots !! i with Some s => bool_decide (sl_users s = []) | None => false end.
Definition slot_index (slots : list VmSlot) (start : Z) (offset : nat) : nat :=
  Z.to_nat (uwrap 64 (start + Z.of_nat offset) mod Z.of_nat (length slots)).
(** The slot a request locks or waits for *)
Definition choose (slots : list VmSlot) (start : Z) : nat :=
  match find_map (λ offset, let i := slot_index slots start offset in if is_free slots i then Some i else None)
          (seq 0 (length slots)) with
  | Some i => i
  | None => slot_index slots start 0
  end.

Definition add_user (u : User) (d : Z) (sl : VmSlot) : VmSlot := MkSlot (sl_vm sl) (sl_users sl ++ [u]) (sl_inflight sl + d).
Definition release (vm : Vm G) (d : Z) (sl : VmSlot) : VmSlot := MkSlot vm (tail (sl_users sl)) (sl_inflight sl - d).

(** The future of a request is dropped, with what it has of the machine. *)
Definition leave (id : nat) (vm : Vm G) (sl : VmSlot) : VmSlot :=
  MkSlot vm (filter (λ u, u ≠ UReq id) (sl_users sl)) (sl_inflight sl - 1).

Definition empty_pool (wait : bool) : Response :=
  MkResp 500 hm_empty ext_empty ("wasm plugin error: empty " +:+ (if wait then "wait" else "normal") +:+ " VM pool").

(** The future up to the lock: the slot, or an answer. *)
Definition poll (id : nat) (c : Call) (s : WasmPluginShell) : (Call + Response) * WasmPluginShell :=
  let slots := pool (ca_wait c) s in
  if bool_decide (slots = []) then (inr (empty_pool (ca_wait c)), s)
  else
    let i := choose slots (ca_start c) in
    (inl (MkCallState (ca_wait c) (ca_start c) (Some i) (ca_req c)),
     upd_pool (ca_wait c) (alter (add_user (UReq id) 1) i) s).

(** ** The work on a machine *)

Definition failure (cfg : WasmPluginShellConfig) (e : WasmHostError) : Response :=
  MkResp (if decide (fail_strategy cfg = FailOpen) then 502 else 500) hm_empty ext_empty
    ("wasm plugin error: " +:+ host_error_string e).

(** [process_with_vm]: the answer, if the future does not panic, and the machine; [None] if the
    request still waits for an answer to a call. *)
Definition process_with_vm (cfg : WasmPluginShellConfig) (vm : Vm G) (req : Request) (inner : Service)
    (rx : list (Z * HttpCallResult)) : option (option Response * Vm G) :=
  let '(out, p, vm) := vm_process vm req inner rx in
  match out with
  | Done resp => Some (Some resp, vm)
  | Failed e =>
      let vm :=
        if requires_vm_rebuild e then
          match vm_new cfg linked (vs_shared (vm_state vm)) with Ok new_vm => new_vm | Err _ => vm end
        else vm in
      Some (Some (failure cfg e), vm)
  | Waiting => None
  | Panicked => Some (None, vm)
  end.

(** ** Ticks *)

(** One round of [spawn_tick_loop] at time [now]: [None] if the task ends. *)
Definition tick_round (now : Z) (last_tick : option Z) (vm : Vm G) : option (option Z) * Vm G :=
  let period := tick_period_ms vm in
  if period =? 0 then (Some None, vm)
  else
    let due := match last_tick with Some t => period <=? now - t | None => true end in
    if negb due then (Some last_tick, vm)
    else
      match tick vm with
      | (Err _, vm) => (None, vm)
      | (Ok _, vm) => (Some (Some now), vm)
      end.

(** ** Interleavings *)

Record World := MkWorld {
  w_shell : WasmPluginShell;
  w_calls : gmap nat Call;       (** requests without an answer *)
  w_answers : gmap nat (option Response);
}.

(** What a machine sees of the state it shares with others when it starts on a request. *)
Definition with_shared (sh : Shared) (vm : Vm G) : Vm G :=
  with_state vm (MkVmState (vs_host (vm_state vm)) sh (vs_guest (vm_state vm))) (vm_next_ctx_id vm).

Inductive shell_step (inner : Service) : World → World → Prop :=
| step_call id req w c s :
    w_calls w !! id = None → w_answers w !! id = None → call req (w_shell w) = (c, s) →
    shell_step inner w (MkWorld s (<[id := c]> (w_calls w)) (w_answers w))
| step_poll id c c' s w :
    w_calls w !! id = Some c → ca_slot c = None → poll id c (w_shell w) = (inl c', s) →
    shell_step inner w (MkWorld s (<[id := c']> (w_calls w)) (w_answers w))
| step_refuse id c r s w :
    w_calls w !! id = Some c → ca_slot c = None → poll id c (w_shell w) = (inr r, s) →
    shell_step inner w (MkWorld s (delete id (w_calls w)) (<[id := Some r]> (w_answers w)))
| step_finish id c i sl us sh rx r vm w :
    w_calls w !! id = Some c → ca_slot c = Some i →
    pool (ca_wait c) (w_shell w) !! i = Some sl → sl_users sl = UReq id :: us →
    process_with_vm (sh_cfg (w_shell w)) (with_shared sh (sl_vm sl)) (ca_req c) inner rx = Some (r, vm) →
    shell_step inner w (MkWorld (upd_pool (ca_wait c) (alter (release vm 1) i) (w_shell w))
      (delete id (w_calls w)) (<[id := r]> (w_answers w)))
| step_drop id c i sl vm w :
    w_calls w !! id = Some c → ca_slot c = Some i → pool (ca_wait c) (w_shell w) !! i = Some sl →
    (head (sl_users sl) ≠ Some (UReq id) → vm = sl_vm sl) →
    shell_step inner w (MkWorld (upd_pool (ca_wait c) (alter (leave id vm) i) (w_shell w)) (delete id (w_calls w)) (w_answers w))
| step_tick_lock wait i w :
    shell_step inner w (MkWorld (upd_pool wait (alter (add_user UTick 0) i) (w_shell w)) (w_calls w) (w_answers w))
| step_tick wait i sl us now last_tick next vm w :
    pool wait (w_shell w) !! i = Some sl → sl_users sl = UTick :: us →
    tick_round now last_tick (sl_vm sl) = (next, vm) →
    shell_step inner w (MkWorld (upd_pool wait (alter (release vm 0) i) (w_shell w)) (w_calls w) (w_answers w)).

Definition shell_steps (inner : Service) : World → World → Prop := rtc (shell_step inner).
(** A shell with nobody using it *)
Definition idle (w : World) : Prop :=
  w_calls w = ∅ ∧ Forall (λ sl, sl_users sl = [] ∧ sl_inflight sl = 0) (vms (w_shell w) ++ wait_vms (w_shell w)).

(** ** The choice *)

Lemma slot_index_lt slots start offset : slots ≠ [] → (slot_index slots start offset < length slots)%nat.
Proof.
  intros Hs. assert (0 < Z.of_nat (length slots)) by (destruct slots; [done|simpl; lia]).
  unfold slot_index. pose proof (Z.mod_pos_bound (uwrap 64 (start + Z.of_nat offset)) (Z.of_nat (length slots))). lia.
Qed.
Lemma choose_lt slots start : slots ≠ [] → (choose slots start < length slots)%nat.
Proof.
  intros Hs. unfold choose. destruct (find_map _ _) as [i|] eqn:E; [|by apply slot_index_lt].
  apply find_map_Some in E as (l1 & x & l2 & _ & Hx & _). cbn zeta in Hx. case_match; [|done]. injection Hx as <-. by apply slot_index_lt.
Qed.
(** The indices that are tried are all of the pool's. *)
Lemma slot_index_onto slots start j : 0 ≤ start → start + Z.of_nat (length slots) ≤ 2 ^ 64 → (j < length slots)%nat →
  ∃ offset, offset ∈ seq 0 (length slots) ∧ slot_index slots start offset = j.
Proof.
  intros Hs Hw Hj. set (n := Z.of_nat (length slots)). assert (0 < n) by lia.
  pose proof (Z.mod_pos_bound (Z.of_nat j - start) n). exists (Z.to_nat ((Z.of_nat j - start) mod n)).
  split; [apply elem_of_seq; lia|]. unfold slot_index. rewrite Z2Nat.id by lia. fold n.
  rewrite uwrap_id by (unfold in_unsigned; lia).
  rewrite Zplus_mod_idemp_r. replace (start + (Z.of_nat j - start)) with (Z.of_nat j) by lia. rewrite Z.mod_small by lia. lia.
Qed.

(** A request waits for a machine only if every machine of its pool is taken. The slot a request
    locks or waits for is one of its pool, it is free if any is, and the slots that are tried are
    all of the pool's, from the next one on in turn, as long as the counter of the requests does
    not wrap around among them. *)
Theorem waits_only_when_busy slots start j sl :
  slots ≠ [] → 0 ≤ start → start + Z.of_nat (length slots) ≤ 2 ^ 64 →
  slots !! j = Some sl → sl_users sl = [] →
  ∃ sl', slots !! choose slots start = Some sl' ∧ sl_users sl' = [] ∧
    (is_free slots (slot_index slots start 0) = true → choose slots start = slot_index slots start 0).
Proof.
  intros Hs H0' Hw Hj Hu. pose proof (lookup_lt_Some _ _ _ Hj) as Hlt.
  destruct (slot_index_onto slots start j H0' Hw Hlt) as (o & Ho & Hoj).
  assert (is_free slots j = true) as Hf by (unfold is_free; rewrite Hj; by apply bool_decide_eq_true_2).
  set (try := λ offset, let i := slot_index slots start offset in if is_free slots i then Some i else None).
  assert (∃ i, find_map try (seq 0 (length slots)) = Some i) as [i Hi].
  { destruct (find_map try (seq 0 (length slots))) as [i|] eqn:E; [by exists i|]. apply find_map_None in E.
    rewrite Forall_forall in E. specialize (E o Ho). unfold try in E. rewrite Hoj in E. cbn zeta in E. by rewrite Hf in E. }
  assert (choose slots start = i) as -> by (unfold choose; fold try; by rewrite Hi).
  pose proof Hi as (l1 & x & l2 & Hl & Hx & Hnone)%find_map_Some. unfold try in Hx. cbn zeta in Hx.
  destruct (is_free slots (slot_index slots start x)) eqn:Hfx; [|done]. injection Hx as Hx. rewrite Hx in Hfx.
  unfold is_free in Hfx. destruct (slots !! i) as [sl'|] eqn:Hi'; [|done]. exists sl'. split_and!; [done|by apply bool_decide_eq_true_1 in Hfx|].
  intros H0f. destruct l1 as [|y l1].
  - destruct slots; [done|]. cbn in Hl. injection Hl as <- _. done.
  - destruct slots; [done|]. cbn in Hl. injection Hl as <- _. apply Forall_cons in Hnone as [Hn _]. unfold try in Hn. cbn zeta in Hn.
    rewrite H0f in Hn. done.
Qed.

(** ** The users of the slots *)

Definition req_of (u : User) : option nat := match u with UReq id => Some id | UTick => None end.
Definition requests (sl : VmSlot) : list nat := omap req_of (sl_users sl).

Record shell_ok (w : World) : Prop := {
  ok_call id c i : w_calls w !! id = Some c → ca_slot c = Some i →
    ∃ sl, pool (ca_wait c) (w_shell w) !! i = Some sl ∧ id ∈ requests sl;
  ok_user wait i sl id : pool wait (w_shell w) !! i = Some sl → id ∈ requests sl →
    ∃ c, w_calls w !! id = Some c ∧ ca_wait c = wait ∧ ca_slot c = Some i;
  ok_slot wait i sl : pool wait (w_shell w) !! i = Some sl →
    NoDup (requests sl) ∧ sl_inflight sl = Z.of_nat (length (requests sl));
}.

Lemma pool_upd wait wait' f (s : WasmPluginShell) :
  pool wait' (upd_pool wait f s) = if decide (wait' = wait) then f (pool wait s) else pool wait' s.
Proof. by destruct wait, wait'. Qed.
Lemma pool_alter wait wait' f i j (s : WasmPluginShell) :
  pool wait' (upd_pool wait (alter f i) s) !! j =
  if decide (wait' = wait ∧ j = i) then f <$> pool wait s !! i else pool wait' s !! j.
Proof.
  rewrite pool_upd. destruct (decide (wait' = wait)) as [->|Hw].
  - destruct (decide (j = i)) as [->|Hj].
    + rewrite decide_True by done. by rewrite list_lookup_alter_eq.
    + rewrite decide_False by (by intros [_ ?]). by rewrite list_lookup_alter_ne.
  - by rewrite decide_False by (by intros [? _]).
Qed.
Lemma requests_add sl u d : requests (add_user u d sl) = requests sl ++ omap req_of [u].
Proof. unfold requests, add_user. cbn [sl_users]. apply omap_app. Qed.
Lemma requests_leave id vm sl : requests (leave id vm sl) = filter (λ i, i ≠ id) (requests sl).
Proof.
  unfold requests, leave. cbn [sl_users]. induction (sl_users sl) as [|u us IH]; [done|].
  rewrite filter_cons. destruct u as [id'|].
  - change (omap req_of (UReq id' :: us)) with (id' :: omap req_of us). rewrite filter_cons.
    destruct (decide (id' = id)) as [->|Hn].
    + rewrite !decide_False by auto. exact IH.
    + rewrite !decide_True by congruence. cbn [omap list_omap req_of]. f_equal. exact IH.
  - rewrite decide_True by done. exact IH.
Qed.
Lemma filter_absent (l : list nat) id : id ∉ l → filter (λ i, i ≠ id) l = l.
Proof.
  induction l as [|y l IH]; [done|]. intros [? ?]%not_elem_of_cons. rewrite filter_cons, decide_True by done.
  f_equal. by apply IH.
Qed.
Lemma filter_NoDup_length (l : list nat) id : NoDup l → id ∈ l → length (filter (λ i, i ≠ id) l) = (length l - 1)%nat.
Proof.
  induction 1 as [|x l Hx Hl IH]; [by intros ?%not_elem_of_nil|]. rewrite filter_cons. intros [->|Hin]%elem_of_cons.
  - rewrite decide_False by auto. rewrite filter_absent by done. cbn. lia.
  - rewrite decide_True by (intros ->; done). cbn. rewrite IH by done. destruct l; [by apply not_elem_of_nil in Hin|]. cbn. lia.
Qed.

Lemma ok_same w wait i f : shell_ok w → (∀ sl, pool wait (w_shell w) !! i = Some sl → requests (f sl) = requests sl ∧ sl_inflight (f sl) = sl_inflight sl) →
  shell_ok (MkWorld (upd_pool wait (alter f i) (w_shell w)) (w_calls w) (w_answers w)).
Proof.
  intros [Hc Hu Hs] Hf.
  assert (∀ wait' j sl, pool wait' (upd_pool wait (alter f i) (w_shell w)) !! j = Some sl →
    ∃ sl0, pool wait' (w_shell w) !! j = Some sl0 ∧ requests sl = requests sl0 ∧ sl_inflight sl = sl_inflight sl0) as Hback.
  { intros wait' j sl. rewrite pool_alter. case_decide as Hd; [destruct Hd as [-> ->]|by exists sl].
    intros (sl0 & Hp & ->)%fmap_Some. exists sl0. split; [done|]. by apply Hf. }
  split; cbn [w_shell w_calls].
  - intros id c j Hid Hsl. destruct (Hc id c j Hid Hsl) as (sl & Hp & Hin). rewrite pool_alter. case_decide as Hd; [|by exists sl].
    destruct Hd as [<- <-]. rewrite Hp. exists (f sl). split; [done|]. by rewrite (proj1 (Hf sl Hp)).
  - intros wait' j sl id (sl0 & Hp & -> & _)%Hback Hin. by eapply Hu.
  - intros wait' j sl (sl0 & Hp & -> & ->)%Hback. by eapply Hs.
Qed.

Lemma ok_add w id c c' i f : shell_ok w → w_calls w !! id = Some c → ca_slot c = None →
  ca_wait c' = ca_wait c → ca_slot c' = Some i → (i < length (pool (ca_wait c) (w_shell w)))%nat →
  (∀ sl, requests (f sl) = requests sl ++ [id] ∧ sl_inflight (f sl) = sl_inflight sl + 1) →
  shell_ok (MkWorld (upd_pool (ca_wait c) (alter f i) (w_shell w)) (<[id := c']> (w_calls w)) (w_answers w)).
Proof.
  intros [Hc Hu Hs] Hid Hnone Hwait Hi Hlt Hf.
  assert (∀ wait j sl, pool wait (w_shell w) !! j = Some sl → id ∉ requests sl) as Hfresh.
  { intros wait j sl Hp Hin. destruct (Hu wait j sl id Hp Hin) as (c0 & Hc0 & _ & Hsome). congruence. }
  split; cbn [w_shell w_calls].
  - intros id' c0 j Hid' Hj. rewrite pool_alter. destruct (decide (id' = id)) as [->|Hne].
    + rewrite lookup_insert_eq in Hid'. injection Hid' as <-. assert (j = i) as -> by congruence. rewrite Hwait, decide_True by done.
      destruct (lookup_lt_is_Some_2 _ _ Hlt) as [sl Hsl]. rewrite Hsl. exists (f sl). split; [done|].
      rewrite (proj1 (Hf sl)). set_solver.
    + rewrite lookup_insert_ne in Hid' by done. destruct (Hc id' c0 j Hid' Hj) as (sl & Hp & Hin). case_decide as Hd; [|by exists sl].
      destruct Hd as [Hw <-]. rewrite <- Hw, Hp. exists (f sl). split; [done|]. rewrite (proj1 (Hf sl)). set_solver.
  - intros wait j sl id' Hp Hin. rewrite pool_alter in Hp. case_decide as Hd.
    + destruct Hd as [-> ->]. apply fmap_Some in Hp as (sl0 & Hp & ->). rewrite (proj1 (Hf sl0)) in Hin.
      apply elem_of_app in Hin as [Hin|Hin%list_elem_of_singleton].
      * destruct (Hu _ _ _ _ Hp Hin) as (c0 & Hc0 & ? & ?). exists c0. rewrite lookup_insert_ne; [done|]. intros ->. by eapply Hfresh.
      * subst id'. exists c'. by rewrite lookup_insert_eq.
    + destruct (Hu _ _ _ _ Hp Hin) as (c0 & Hc0 & ? & ?). exists c0. rewrite lookup_insert_ne; [done|]. intros ->. by eapply Hfresh.
  - intros wait j sl Hp. rewrite pool_alter in Hp. case_decide as Hd; [|by eapply Hs].
    destruct Hd as [-> ->]. apply fmap_Some in Hp as (sl0 & Hp & ->). destruct (Hf sl0) as [-> ->]. destruct (Hs _ _ _ Hp) as [Hnd ->].
    split; [|rewrite length_app; simpl; lia]. apply NoDup_app. split_and!; [done| |by apply NoDup_singleton].
    intros x Hx Hx'%list_elem_of_singleton. subst x. by eapply Hfresh.
Qed.

Lemma ok_remove w id c i f answers : shell_ok w → w_calls w !! id = Some c → ca_slot c = Some i →
  (∀ sl, pool (ca_wait c) (w_shell w) !! i = Some sl →
    requests (f sl) = filter (λ x, x ≠ id) (requests sl) ∧ sl_inflight (f sl) = sl_inflight sl - 1) →
  shell_ok (MkWorld (upd_pool (ca_wait c) (alter f i) (w_shell w)) (delete id (w_calls w)) answers).
Proof.
  intros [Hc Hu Hs] Hid Hi Hf. destruct (Hc id c i Hid Hi) as (sl1 & Hp1 & Hin1). split; cbn [w_shell w_calls].
  - intros id' c0 j [Hne Hid']%lookup_delete_Some Hj. destruct (Hc id' c0 j Hid' Hj) as (sl & Hp & Hin).
    rewrite pool_alter. case_decide as Hd; [|by exists sl]. destruct Hd as [Hw ->]. rewrite Hw in Hp. rewrite Hp. exists (f sl).
    split; [done|]. rewrite (proj1 (Hf _ Hp)). by apply list_elem_of_filter.
  - intros wait j sl id' Hp Hin. rewrite pool_alter in Hp. case_decide as Hd.
    + destruct Hd as [-> ->]. apply fmap_Some in Hp as (sl0 & Hp & ->). rewrite (proj1 (Hf _ Hp)) in Hin.
      apply list_elem_of_filter in Hin as [Hne Hin]. destruct (Hu _ _ _ _ Hp Hin) as (c0 & Hc0 & ? & ?). exists c0.
      by rewrite lookup_delete_ne.
    + destruct (Hu _ _ _ _ Hp Hin) as (c0 & Hc0 & Hw & Hj). exists c0. rewrite lookup_delete_ne; [done|]. intros <-.
      apply Hd. split; congruence.
  - intros wait j sl Hp. rewrite pool_alter in Hp. case_decide as Hd; [|by eapply Hs].
    destruct Hd as [-> ->]. apply fmap_Some in Hp as (sl0 & Hp & ->). destruct (Hf _ Hp) as [-> ->]. destruct (Hs _ _ _ Hp) as [Hnd ->].
    assert (sl0 = sl1) as -> by congruence.
    split; [by apply NoDup_filter|]. rewrite filter_NoDup_length by done. destruct (requests sl1); [by apply not_elem_of_nil in Hin1|].
    simpl. lia.
Qed.

Lemma call_pools req s c s' wait : call req s = (c, s') → pool wait s' = pool wait s ∧ ca_slot c = None.
Proof. unfold call. case_match; intros [= <- <-]; by destruct wait. Qed.
Lemma poll_slot id c s c' s' : poll id c s = (inl c', s') → ∃ i, s' = upd_pool (ca_wait c) (alter (add_user (UReq id) 1) i) s ∧
  i = choose (pool (ca_wait c) s) (ca_start c) ∧ pool (ca_wait c) s ≠ [] ∧ c' = MkCallState (ca_wait c) (ca_start c) (Some i) (ca_req c).
Proof. unfold poll. case_bool_decide; [done|]. intros [= <- <-]. by eexists. Qed.
Lemma poll_refused id c s r s' : poll id c s = (inr r, s') → s' = s ∧ pool (ca_wait c) s = [].
Proof. unfold poll. by case_bool_decide; intros [= <- <-]. Qed.

(** Calls that are not on a slot come and go freely. *)
Lemma ok_calls w s calls answers : shell_ok w → (∀ wait, pool wait s = pool wait (w_shell w)) →
  (∀ id c i, ca_slot c = Some i → calls !! id = Some c ↔ w_calls w !! id = Some c) → shell_ok (MkWorld s calls answers).
Proof.
  intros [Hc Hu Hs] Hp Hcalls. split; cbn [w_shell w_calls].
  - intros id c i Hid Hi. rewrite Hp. apply (Hcalls id c i Hi) in Hid. by eapply Hc.
  - intros wait i sl id. rewrite Hp. intros H1' H2'. destruct (Hu wait i sl id H1' H2') as (c & Hid & ? & Hi). exists c.
    split; [|done]. by apply (Hcalls id c i Hi).
  - intros wait i sl. rewrite Hp. apply Hs.
Qed.

Lemma shell_step_ok inner w w' : shell_ok w → shell_step inner w w' → shell_ok w'.
Proof.
  intros Hok Hstep. destruct Hstep as [id req w c s Hn _ Hcall|id c c' s w Hid Hi Hpoll|id c r s w Hid Hi Hpoll
    |id c i sl us sh rx r vm w Hid Hi Hsl Hus _|id c i sl vm w Hid Hi Hsl _|wait i w|wait i sl us now lt next vm w Hsl Hus _].
  - apply (ok_calls w); [done|intros wait; by apply (call_pools _ _ _ _ wait Hcall)|]. intros id' c' i Hi.
    destruct (decide (id' = id)) as [->|Hne]; [|by rewrite lookup_insert_ne]. rewrite lookup_insert_eq, Hn.
    destruct (call_pools _ _ _ _ true Hcall) as [_ Hs]. split; [intros [= <-]; congruence|done].
  - apply poll_slot in Hpoll as (i & -> & -> & Hne & ->). eapply ok_add; [done..|by apply choose_lt|].
    intros sl. rewrite requests_add. by split.
  - apply poll_refused in Hpoll as [-> _]. apply (ok_calls w); [done..|]. intros id' c' i Hi'.
    destruct (decide (id' = id)) as [->|Hne]; [|by rewrite lookup_delete_ne]. rewrite lookup_delete_eq, Hid.
    split; [done|]. intros [= ->]. congruence.
  - eapply ok_remove; [done..|]. intros sl' Hsl'. assert (sl' = sl) as -> by congruence. split; [|done].
    destruct Hok as [_ _ Hs]. destruct (Hs _ _ _ Hsl) as [Hnd _]. unfold requests, release in *. cbn [sl_users]. rewrite Hus in *.
    cbn [tail]. change (omap req_of (UReq id :: us)) with (id :: omap req_of us) in *. apply NoDup_cons in Hnd as [Hnin _].
    rewrite filter_cons, decide_False by auto. by rewrite filter_absent.
  - eapply ok_remove; [done..|]. intros sl' Hsl'. by rewrite requests_leave.
  - apply ok_same; [done|]. intros sl _. rewrite requests_add. cbn. by rewrite app_nil_r, Z.add_0_r.
  - apply ok_same; [done|]. intros sl' Hsl'. assert (sl' = sl) as -> by congruence. unfold requests, release. cbn [sl_users sl_inflight].
    rewrite Hus, Z.sub_0_r. done.
Qed.

Lemma idle_ok w : idle w → shell_ok w.
Proof.
  intros [Hc Hs]. rewrite Forall_forall in Hs.
  assert (∀ wait i sl, pool wait (w_shell w) !! i = Some sl → sl_users sl = [] ∧ sl_inflight sl = 0) as Hp.
  { intros wait i sl Hsl. apply Hs. apply elem_of_app. destruct wait; [right|left]; by eapply list_elem_of_lookup_2. }
  split.
  - intros id c i. by rewrite Hc, lookup_empty.
  - intros wait i sl id (Hu & _)%Hp. unfold requests. rewrite Hu. by intros ?%not_elem_of_nil.
  - intros wait i sl (Hu & Hi)%Hp. unfold requests. rewrite Hu, Hi. split; [apply NoDup_nil_2|done].
Qed.
Lemma reachable_ok inner w w' : idle w → shell_steps inner w w' → shell_ok w'.
Proof. intros Hi%idle_ok Hsteps. revert Hi. induction Hsteps; [done|]. intros Hok. apply IHHsteps. by eapply shell_step_ok. Qed.


(** ** Turns *)

Fixpoint ahead (u : User) (us : list User) : list User :=
  match us with [] => [] | v :: us => if decide (v = u) then [] else v :: ahead u us end.
(** Who gets the machine before the request *)
Definition queue_of (w : World) (id : nat) : option (list User) :=
  c ← w_calls w !! id; i ← ca_slot c; sl ← pool (ca_wait c) (w_shell w) !! i; Some (ahead (UReq id) (sl_users sl)).

Lemma ahead_app u us us' : u ∈ us → ahead u (us ++ us') = ahead u us.
Proof.
  induction us as [|v us IH]; [by intros ?%not_elem_of_nil|]. cbn. case_decide as Hd; [done|].
  intros [?|Hin]%elem_of_cons; [congruence|]. by rewrite IH.
Qed.
Lemma ahead_filter u us (P : User → Prop) `{!∀ v, Decision (P v)} : P u → sublist (ahead u (filter P us)) (ahead u us).
Proof.
  intros Hu. induction us as [|v us IH]; [done|]. rewrite filter_cons. destruct (decide (P v)) as [Hv|Hv].
  - cbn. case_decide; [done|]. by apply sublist_skip.
  - cbn. case_decide; [congruence|]. by apply sublist_cons.
Qed.
Lemma ahead_tail u us : head us ≠ Some u → sublist (ahead u (tail us)) (ahead u us).
Proof. destruct us as [|v us]; [done|]. cbn. intros Hne. rewrite decide_False by congruence. by apply sublist_cons. Qed.

Lemma queue_of_inv w id q : queue_of w id = Some q → ∃ c i sl, w_calls w !! id = Some c ∧ ca_slot c = Some i ∧
  pool (ca_wait c) (w_shell w) !! i = Some sl ∧ q = ahead (UReq id) (sl_users sl).
Proof.
  unfold queue_of. intros (c & Hc & (i & Hi & (sl & Hsl & [= <-])%bind_Some)%bind_Some)%bind_Some. by exists c, i, sl.
Qed.
Lemma elem_of_requests id sl : id ∈ requests sl ↔ UReq id ∈ sl_users sl.
Proof.
  unfold requests. rewrite list_elem_of_omap. split.
  - intros (u & Hu & Hid). destruct u; [|done]. by injection Hid as ->.
  - intros Hu. by exists (UReq id).
Qed.

(** The call of a request that keeps its place: the step changed one slot, in which nobody got in
    front of it. *)
Lemma queue_kept w w' id c i sl wait j f :
  w_calls w !! id = Some c → ca_slot c = Some i → pool (ca_wait c) (w_shell w) !! i = Some sl →
  w_calls w' !! id = Some c → w_shell w' = upd_pool wait (alter f j) (w_shell w) →
  (pool wait (w_shell w) !! j = Some sl → sublist (ahead (UReq id) (sl_users (f sl))) (ahead (UReq id) (sl_users sl))) →
  ∃ q', queue_of w' id = Some q' ∧ sublist q' (ahead (UReq id) (sl_users sl)).
Proof.
  intros Hid Hi Hsl Hid' Hw' Hf. unfold queue_of. rewrite Hid'. cbn [mbind option_bind]. rewrite Hi. cbn [mbind option_bind].
  rewrite Hw', pool_alter. case_decide as Hd; [destruct Hd as [<- <-]|]; rewrite Hsl; eexists; by split; [|auto].
Qed.


End shell.

(** ** A concrete shell

    One machine, for which two requests ask: the second waits for the first. *)

Notation World0 := (World (H:=ref_http) (G:=unit)).
Definition not_linked : result (Exports (H:=ref_http) unit * unit) string := Err "".
Definition one_machine : World0 := MkWorld (MkShell shell_config_default [slot_new calling_vm] [] 0 0) ∅ ∅.
Definition do_call (id : nat) (w : World0) : World0 :=
  let cs := call (example_request "") (w_shell w) in MkWorld cs.2 (<[id := cs.1]> (w_calls w)) (w_answers w).
Definition waiting_call (start : Z) : Call (H:=ref_http) := MkCallState false start (Some 0%nat) (example_request "").
Definition do_poll (id : nat) (start : Z) (w : World0) : World0 :=
  MkWorld (upd_pool false (alter (add_user (UReq id) 1) 0%nat) (w_shell w)) (<[id := waiting_call start]> (w_calls w)) (w_answers w).
Definition two_requests : World0 := do_poll 1 1 (do_call 1 (do_poll 0 0 (do_call 0 one_machine))).

Lemma one_machine_idle : idle one_machine.
Proof. split; [done|]. by repeat constructor. Qed.
Lemma two_requests_reached : shell_steps not_linked example_inner one_machine two_requests.
Proof.
  apply rtc_l with (y := do_call 0 one_machine); [eapply step_call; [reflexivity|reflexivity|apply surjective_pairing]|].
  apply rtc_l with (y := do_poll 0 0 (do_call 0 one_machine)).
  { apply (step_poll not_linked example_inner 0 (MkCallState false 0 None (example_request "")) (waiting_call 0)); reflexivity. }
  apply rtc_l with (y := do_call 1 (do_poll 0 0 (do_call 0 one_machine))); [eapply step_call; [reflexivity|reflexivity|apply surjective_pairing]|].
  apply rtc_once. apply (step_poll not_linked example_inner 1 (MkCallState false 1 None (example_request "")) (waiting_call 1)); reflexivity.
Qed.


Definition first_lost : World0 :=
  MkWorld (upd_pool false (alter (leave 0 calling_vm) 0%nat) (w_shell two_requests)) (delete 0%nat (w_calls two_requests)) ∅.

Lemma waits_only_when_busy_witness :
  ∃ sl, [MkSlot calling_vm [UReq 0] 1; slot_new calling_vm] !! choose [MkSlot calling_vm [UReq 0] 1; slot_new calling_vm] 4 = Some sl ∧
    sl_users sl = [].
Proof.
  destruct (waits_only_when_busy [MkSlot calling_vm [UReq 0] 1; slot_new calling_vm] 4 1 (slot_new calling_vm))
    as (sl & Hc & Hu & _); [done|lia|simpl; lia|done|done|]. by exists sl.
Defined.

(** A request that waits is bound to its machine: another one that is free again does not serve it. *)
Example waits_beside_a_free_machine :
  let slots := [MkSlot calling_vm [UReq 0] 1; MkSlot calling_vm [UReq 1] 1] in
  let queued := alter (add_user (UReq 2) 1) (choose slots 2) slots in
  let freed := alter (release calling_vm 1) 1%nat queued in
  sl_users <$> freed = [[UReq 0; UReq 2]; []].
Proof. reflexivity. Qed.

(** The wait pool is chosen by the header [x-ratelimit-policy], whatever header the plugin reads
    the policy from. *)
Example wait_pool_by_fixed_header :
  let request h v := MkReq (H:=ref_http) "GET" (MkUri None None None) 11 [(h, v)] ext_empty "" in
  is_wait_policy (request "x-ratelimit-policy" " WAIT ") = true ∧ is_wait_policy (request "x-policy" "wait") = false.
Proof. by split. Qed.
