(* ===== verification/WasmLoad.v ===== *)
(** * WebAssembly host: loading of modules

    [crates/plugin-wasm/src/runtime.rs] and [fetch.rs]: where the bytes of a module come from (a
    file, a URL, an OCI registry), the check of their digest, and the cache of compiled modules.

    What is not under [src/] is the class [LoadLib]: the files, the HTTP client, the parsers of
    [serde], [flate2] and [tar], [sha2], [Url], and the compiler of wasmtime. The outside world is
    a state [W] that a read or a request may change. *)

From S2P Require Export WasmConfig.
Local Open Scope string_scope.
Local Open Scope list_scope.
Local Open Scope Z_scope.

(** ** Data *)

Inductive Authorization := NoAuth | BearerAuth (token : string) | BasicAuth (username : string) (password : option string).
Record HttpGet := MkGet { hg_url : string; hg_accept : option string; hg_auth : Authorization }.
(** The answer: its status, the header [www-authenticate], and its body or the error of its reading. *)
Record HttpAnswer := MkAnswer { ha_status : Z; ha_challenge : option string; ha_body : result string string }.

Record OciPlatform := MkPlatform { pl_architecture : option string; pl_os : option string }.
Record OciDescriptor := MkDescriptor { de_media_type : string; de_digest : string; de_platform : option OciPlatform }.
Record OciManifest := MkManifest {
  mf_media_type : option string;
  mf_manifests : list OciDescriptor;
  mf_layers : list OciDescriptor;
  mf_blobs : list OciDescriptor;
}.
Record OciTokenResponse := MkToken { tk_token : option string; tk_access_token : option string }.

Class LoadLib (W : Type) := {
  read_file : string → W → result string string * W;
  (** [Path::is_dir], [parent] and [join] *)
  path_is_dir : string → W → bool;
  path_parent : string → option string;
  path_join : string → string → string;
  (** a request with a timeout in seconds; an error is its text *)
  http_send : Z → HttpGet → W → result HttpAnswer string * W;
  (** [Display] of a status code, and of the error [error_for_status] makes *)
  status_text : Z → string;
  status_error : string → Z → string;
  manifest_from_slice : string → result OciManifest string;
  token_from_slice : string → result OciTokenResponse string;
  (** [Url::parse], then [append_pair] of the pairs *)
  url_with_query : string → list (string * string) → result string string;
  (** the entries of a gzipped archive: the path, if it has one, and what reading it gives *)
  untar : string → result (list (result (option string * result string string) string)) string;
  sha256_hex : string → string;
  WasmModule : Type;
  module_new : string → result WasmModule string;
}.

Section load.
Context {W : Type} `{!LoadLib W}.

(** ** A monad: the outside world and errors *)

Definition LoadM (A : Type) : Type := W → result A WasmHostError * W.
Definition lret {A} (a : A) : LoadM A := λ w, (Ok a, w).
Definition lfail {A} (e : string) : LoadM A := λ w, (Err (Fetch e), w).
Definition lbind {A B} (m : LoadM A) (k : A → LoadM B) : LoadM B := λ w,
  match m w with (Ok a, w) => k a w | (Err e, w) => (Err e, w) end.
Notation "x '<-?' m ';;' k" := (lbind m (λ x, k)) (at level 100, m at next level, right associativity).
(** [map_err(|e| Fetch(format!("{context}{e}")))] *)
Definition lift_err {A} (context : string) (r : result A string) : LoadM A := λ w,
  (match r with Ok a => Ok a | Err e => Err (Fetch (context +:+ e)) end, w).
Definition from_result {A} (r : result A WasmHostError) : LoadM A := λ w, (r, w).
(** [if let Ok(a) = m { .. }]: the error is dropped. *)
Definition attempt {A} (m : LoadM A) : LoadM (option A) := λ w,
  match m w with (Ok a, w) => (Ok (Some a), w) | (Err _, w) => (Ok None, w) end.

Definition fs_read (what path : string) : LoadM string := λ w,
  let '(r, w) := read_file path w in lift_err (what +:+ path +:+ ": ") r w.
Definition send (timeout : Z) (context : string) (req : HttpGet) : LoadM HttpAnswer := λ w,
  let '(r, w) := http_send timeout req w in lift_err context r w.
Definition is_success (status : Z) : bool := (200 <=? status) && (status <? 300).

(** ** References to images *)

Record OciReference := MkRef { or_scheme : string; or_registry : string; or_repository : string; or_reference : string }.

Definition is_oci_url (url : string) : bool :=
  let lower := to_ascii_lowercase url in
  starts_with lower "oci://" || starts_with lower "docker://" || starts_with lower "image://" || starts_with lower "oci+http://".

Definition default_oci_scheme (rest : string) : string :=
  let registry := default "" (head (str_split "/" rest)) in
  if starts_with registry "localhost" || starts_with registry "127.0.0.1" || starts_with registry "[::1]" ||
     starts_with registry "host.docker.internal" then "http" else "https".

(** The last colon behind the last slash *)
Definition split_tag (image : string) : option (string * string) :=
  match str_rsplit_once "/" image with
  | Some (pre, last) => '(name, tag) ← str_rsplit_once ":" last; Some (pre +:+ "/" +:+ name, tag)
  | None => str_rsplit_once ":" image
  end.

Definition oci_rest (trim : string) : option (string * string) :=
  match str_strip_prefix "oci+http://" trim with
  | Some rest => Some ("http", rest)
  | None =>
      rest ← find_map (λ p, str_strip_prefix p trim) ["oci://"; "docker://"; "image://"];
      Some (default_oci_scheme rest, rest)
  end.
Definition blank (s : string) : bool := str_is_empty (str_trim s).
Definition oci_parse (url : string) : result OciReference WasmHostError :=
  let trim := str_trim url in
  match oci_rest trim with
  | None => Err (Fetch ("unsupported OCI URL scheme: " +:+ trim))
  | Some (scheme, rest) =>
      match str_split_once "/" rest with
      | None => Err (Fetch ("OCI URL must include registry and repository: " +:+ trim))
      | Some (registry, image) =>
          if blank registry || blank image then Err (Fetch ("OCI URL must include registry and repository: " +:+ trim))
          else
            let '(repository, reference) :=
              match str_rsplit_once "@" image with
              | Some rd => rd
              | None => default (image, "latest") (split_tag image)
              end in
            if blank repository || blank reference then
              Err (Fetch ("OCI URL must include repository and tag/digest: " +:+ trim))
            else Ok (MkRef scheme registry repository reference)
      end
  end.
Definition registry_url (kind : string) (r : OciReference) (reference : string) : string :=
  or_scheme r +:+ "://" +:+ or_registry r +:+ "/v2/" +:+ or_repository r +:+ kind +:+ reference.
Definition manifest_url : OciReference → string → string := registry_url "/manifests/".
Definition blob_url : OciReference → string → string := registry_url "/blobs/".

(** ** Challenges *)

Definition quote : ascii := ascii_of_nat 34.
Fixpoint quoted_pieces (s : string) (in_quotes : bool) : list string :=
  match s with
  | "" => [""]
  | String a s' =>
      if decide (a = ","%char ∧ in_quotes = false) then "" :: quoted_pieces s' false
      else
        match quoted_pieces s' (if decide (a = quote) then negb in_quotes else in_quotes) with
        | p :: ps => String a p :: ps
        | [] => [String a ""]
        end
  end.
Definition split_quoted_commas (value : string) : list string := str_trim <$> quoted_pieces value false.
Definition parse_bearer_challenge (header : string) : option (gmap string string) :=
  rest ← str_strip_prefix "Bearer " (str_trim header);
  Some (foldl (λ params part,
    match str_split_once "=" part with
    | None => params
    | Some (key, value) => <[to_ascii_lowercase (str_trim key) := trim_matches quote (str_trim value)]> params
    end) ∅ (split_quoted_commas rest)).

(** ** Requests to a registry *)

Definition given (o : option string) : option string := v ← o; if blank v then None else Some v.

Definition apply_registry_auth (auth : option OciAuthConfig) (bearer_token : option string) : Authorization :=
  match bearer_token, auth with
  | Some token, _ => BearerAuth token
  | None, None => NoAuth
  | None, Some auth =>
      match given (opt_or (oa_bearer_token auth) (oa_identity_token auth)) with
      | Some token => BearerAuth token
      | None => match given (oa_username auth) with Some username => BasicAuth username (oa_password auth) | None => NoAuth end
      end
  end.

Definition fetch_bearer_token (challenge : string) (r : OciReference) (auth : option OciAuthConfig) : LoadM string :=
  match parse_bearer_challenge challenge with
  | None => lfail ("registry " +:+ or_registry r +:+ " requires auth but did not return a Bearer challenge")
  | Some params =>
      match given (params !! "realm") with
      | None => lfail "Bearer auth challenge missing realm"
      | Some realm =>
          let scope := default ("repository:" +:+ or_repository r +:+ ":pull") (params !! "scope") in
          let pairs := match given (params !! "service") with Some s => [("service", s)] | None => [] end ++ [("scope", scope)] in
          url <-? lift_err ("parse Bearer token realm " +:+ realm +:+ ": ") (url_with_query realm pairs);;
          resp <-? send 60 ("GET OCI token " +:+ url +:+ ": ") (MkGet url None (apply_registry_auth auth None));;
          if negb (is_success (ha_status resp)) then lfail ("GET OCI token " +:+ url +:+ ": " +:+ status_text (ha_status resp))
          else
            bytes <-? lift_err ("read OCI token " +:+ url +:+ ": ") (ha_body resp);;
            token <-? lift_err ("parse OCI token response " +:+ url +:+ ": ") (token_from_slice bytes);;
            match given (opt_or (tk_token token) (tk_access_token token)) with
            | Some token => lret token
            | None => lfail ("OCI token response " +:+ url +:+ " did not include token")
            end
      end
  end.

Definition registry_get_bytes (url accept : string) (r : OciReference) (auth : option OciAuthConfig) : LoadM string :=
  let get token := send 60 ("GET " +:+ url +:+ ": ") (MkGet url (Some accept) (apply_registry_auth auth token)) in
  resp <-? get None;;
  resp <-? (if ha_status resp =? 401 then
              token <-? fetch_bearer_token (default "" (ha_challenge resp)) r auth;;
              get (Some token)
            else lret resp);;
  if negb (is_success (ha_status resp)) then lfail ("GET " +:+ url +:+ ": " +:+ status_text (ha_status resp))
  else lift_err ("read OCI response " +:+ url +:+ ": ") (ha_body resp).

(** ** Manifests and layers *)

Definition OCI_MANIFEST_ACCEPT : string := "application/vnd.oci.image.manifest.v1+json, application/vnd.docker.distribution.manifest.v2+json, application/vnd.oci.image.index.v1+json, application/vnd.docker.distribution.manifest.list.v2+json, application/vnd.oci.artifact.manifest.v1+json".
Definition OCI_BLOB_ACCEPT : string := "application/vnd.module.wasm.content.layer.v1+wasm, application/wasm, application/vnd.wasm.content.layer.v1+wasm, application/json, application/yaml, application/x-yaml, text/yaml, application/octet-stream, application/vnd.docker.image.rootfs.diff.tar.gzip, application/vnd.oci.image.layer.v1.tar+gzip".

Definition fetch_oci_manifest (r : OciReference) (manifest_ref : string) (auth : option OciAuthConfig) : LoadM OciManifest :=
  let url := manifest_url r manifest_ref in
  bytes <-? registry_get_bytes url OCI_MANIFEST_ACCEPT r auth;;
  lift_err ("parse OCI manifest " +:+ url +:+ ": ") (manifest_from_slice bytes).

Definition is_index_manifest (m : OciManifest) : bool :=
  match mf_media_type m with Some mt => str_contains mt "image.index" || str_contains mt "manifest.list" | None => false end ||
  negb (bool_decide (mf_manifests m = [])).
Definition is_wasm_platform (d : OciDescriptor) : bool :=
  match de_platform d with
  | Some p => bool_decide (pl_architecture p = Some "wasm") || bool_decide (pl_os p = Some "wasi")
  | None => false
  end.
Definition select_manifest_descriptor (manifests : list OciDescriptor) : result OciDescriptor WasmHostError :=
  ok_or (opt_or (List.find is_wasm_platform manifests) (head manifests)) (Fetch "OCI image index does not contain manifests").

Definition is_wasm_media_type (media_type : string) : bool :=
  bool_decide (media_type ∈ ["application/vnd.module.wasm.content.layer.v1+wasm"; "application/vnd.wasm.content.layer.v1+wasm";
    "application/wasm"]) || str_contains media_type "wasm".
Definition is_docker_tar_media_type (media_type : string) : bool :=
  bool_decide (media_type ∈ ["application/vnd.docker.image.rootfs.diff.tar.gzip"; "application/vnd.oci.image.layer.v1.tar+gzip";
    "application/vnd.oci.image.layer.nondistributable.v1.tar+gzip"]).
Definition select_wasm_descriptor (m : OciManifest) : result OciDescriptor WasmHostError :=
  let descriptors := mf_layers m ++ mf_blobs m in
  let single := match descriptors with
                | [d] => if is_docker_tar_media_type (de_media_type d) then None else Some d
                | _ => None
                end in
  ok_or (opt_or (List.find (λ d, is_wasm_media_type (de_media_type d)) descriptors) single)
    (Fetch "OCI image does not contain a wasm layer").

(** The first file of the layer that fits and is not empty *)
Fixpoint first_file (predicate : string → bool) (label : string)
    (entries : list (result (option string * result string string) string)) : result string WasmHostError :=
  match entries with
  | [] => Err (Fetch ("no " +:+ label +:+ " file found in tar.gz layer"))
  | Err e :: _ => Err (Fetch ("read tar.gz entry: " +:+ e))
  | Ok (None, _) :: entries => first_file predicate label entries
  | Ok (Some path, content) :: entries =>
      if predicate path then
        match content with
        | Err e => Err (Fetch ("read " +:+ label +:+ " from tar.gz entry " +:+ path +:+ ": " +:+ e))
        | Ok buf => if str_is_empty buf then first_file predicate label entries else Ok buf
        end
      else first_file predicate label entries
  end.
Definition extract_file_from_docker_layer_by (data : string) (predicate : string → bool) (label : string) : result string WasmHostError :=
  match untar data with
  | Err e => Err (Fetch ("read tar.gz entries: " +:+ e))
  | Ok entries => first_file predicate label entries
  end.
Definition extract_wasm_from_docker_layer (data : string) : result string WasmHostError :=
  extract_file_from_docker_layer_by data (λ path, ends_with path ".wasm") ".wasm".

Definition normalize_lookup_path (path : string) : string :=
  str_join "/" (List.filter (λ part, negb (str_is_empty part) && negb (bool_decide (part = ".")))
    (str_split "/" (trim_start_matches "/" (str_trim path)))).
Definition extract_file_from_docker_layer (data file_path : string) : result string WasmHostError :=
  let lookup := normalize_lookup_path file_path in
  extract_file_from_docker_layer_by data (λ path, bool_decide (normalize_lookup_path path = lookup)) lookup.

Definition resolve_manifest (r : OciReference) (auth : option OciAuthConfig) : LoadM OciManifest :=
  manifest <-? fetch_oci_manifest r (or_reference r) auth;;
  if is_index_manifest manifest then
    child <-? from_result (select_manifest_descriptor (mf_manifests manifest));;
    fetch_oci_manifest r (de_digest child) auth
  else lret manifest.
Definition docker_layers (m : OciManifest) : list OciDescriptor :=
  List.filter (λ l, is_docker_tar_media_type (de_media_type l)) (mf_layers m).
(** The layers from the top one on: the first from which [extract] gets something. *)
Fixpoint search_layers (extract : string → result string WasmHostError) (missing : string) (r : OciReference)
    (auth : option OciAuthConfig) (layers : list OciDescriptor) : LoadM string :=
  match layers with
  | [] => lfail missing
  | layer :: layers =>
      blob <-? registry_get_bytes (blob_url r (de_digest layer)) OCI_BLOB_ACCEPT r auth;;
      match extract blob with
      | Ok bytes => lret bytes
      | Err _ => search_layers extract missing r auth layers
      end
  end.

Definition fetch_oci_wasm_bytes (r : OciReference) (auth : option OciAuthConfig) : LoadM string :=
  manifest <-? resolve_manifest r auth;;
  match select_wasm_descriptor manifest with
  | Ok layer => registry_get_bytes (blob_url r (de_digest layer)) OCI_BLOB_ACCEPT r auth
  | Err _ =>
      if bool_decide (docker_layers manifest = []) then lfail "OCI image does not contain a wasm layer"
      else search_layers extract_wasm_from_docker_layer
             "Docker image layers do not contain a .wasm file; ensure the image includes a .wasm file in its filesystem"
             r auth (rev (docker_layers manifest))
  end.
Definition fetch_oci_file (r : OciReference) (file_path : string) (auth : option OciAuthConfig) : LoadM string :=
  manifest <-? resolve_manifest r auth;;
  if bool_decide (docker_layers manifest = []) then
    lfail ("OCI image does not contain Docker/OCI tar layers; cannot read `" +:+ file_path +:+ "` from image filesystem")
  else search_layers (λ blob, extract_file_from_docker_layer blob file_path)
         ("OCI image filesystem does not contain `" +:+ file_path +:+ "`") r auth (rev (docker_layers manifest)).

(** ** Where the bytes come from *)

Definition check_registry (r : OciReference) (auth : option OciAuthConfig) : LoadM unit :=
  match given (a ← auth; oa_registry a) with
  | Some auth_registry =>
      if eq_ignore_ascii_case auth_registry (or_registry r) then lret tt
      else lfail ("OCI auth registry `" +:+ auth_registry +:+ "` does not match image registry `" +:+ or_registry r +:+ "`")
  | None => lret tt
  end.
Definition fetch_oci_wasm_bytes_sync (url : string) (auth : option OciAuthConfig) : LoadM string :=
  r <-? from_result (oci_parse url);;
  _ <-? check_registry r auth;;
  fetch_oci_wasm_bytes r auth.
Definition fetch_oci_file_sync (url file_path : string) (auth : option OciAuthConfig) : LoadM string :=
  r <-? from_result (oci_parse url);;
  _ <-? check_registry r auth;;
  fetch_oci_file r file_path auth.
Definition fetch_http_wasm_bytes_sync (url : string) : LoadM string :=
  resp <-? send 30 ("GET " +:+ url +:+ ": ") (MkGet url None NoAuth);;
  if (400 <=? ha_status resp) && (ha_status resp <? 600) then lfail ("GET " +:+ url +:+ ": " +:+ status_error url (ha_status resp))
  else lift_err ("read " +:+ url +:+ " body: ") (ha_body resp).

Definition is_http_url (s : string) : bool := starts_with s "http://" || starts_with s "https://".
Definition fetch_wasm_bytes_sync_with_auth (url_or_path : string) (oci_auth : option OciAuthConfig) : LoadM string :=
  let trim := str_trim url_or_path in
  match str_strip_prefix "file://" trim with
  | Some rest => fs_read "read file " rest
  | None =>
      if is_http_url trim then fetch_http_wasm_bytes_sync trim
      else if is_oci_url trim then fetch_oci_wasm_bytes_sync trim oci_auth
      else fs_read "read path " trim
  end.

Definition read_local_related_file (base file_path : string) : LoadM string := λ w,
  let root := if path_is_dir base w then base else default "." (path_parent base) in
  fs_read "read file " (path_join root file_path) w.
Definition fetch_wasm_image_file_sync_with_auth (url_or_path file_path : string) (oci_auth : option OciAuthConfig) : LoadM string :=
  let trim := str_trim url_or_path in
  let file_path := normalize_lookup_path file_path in
  if str_is_empty file_path then lfail "schema path must not be empty"
  else if is_oci_url trim then fetch_oci_file_sync trim file_path oci_auth
  else
    match str_strip_prefix "file://" trim with
    | Some rest => read_local_related_file rest file_path
    | None =>
        if is_http_url trim then
          let base := trim_end_matches "/" trim in
          let parent := match str_rsplit_once "/" base with Some (prefix, _) => prefix | None => base end in
          fetch_http_wasm_bytes_sync (parent +:+ "/" +:+ file_path)
        else read_local_related_file trim file_path
    end.

(** ** Digests and the cache *)

Definition normalize_sha256 (s : string) : string := default (str_trim s) (str_strip_prefix "sha256:" (str_trim s)).
Definition cache_base (cfg : WasmPluginShellConfig) : string :=
  default (str_trim (url cfg)) (given (cfg_module_cache_key cfg)).
Definition module_cache_key (cfg : WasmPluginShellConfig) : string :=
  match given (sha256 cfg) with
  | Some sha => cache_base cfg +:+ "#sha256=" +:+ normalize_sha256 sha
  | None => cache_base cfg
  end.
Definition verify_sha256 (bytes : string) (expected : option string) : result unit WasmHostError :=
  match e ← normalize_sha256 <$> expected; if str_is_empty e then None else Some e with
  | None => Ok tt
  | Some expected =>
      let actual := sha256_hex bytes in
      if eq_ignore_ascii_case actual expected then Ok tt
      else Err (Fetch ("sha256 mismatch: expected " +:+ expected +:+ ", actual " +:+ actual))
  end.

Notation Cache := (gmap string WasmModule).
Definition compile (cfg : WasmPluginShellConfig) (bytes : string) : result WasmModule WasmHostError :=
  let? _ := verify_sha256 bytes (sha256 cfg) in
  match module_new bytes with Ok m => Ok m | Err e => Err (Wasmtime e) end.
(** [WasmModuleCache::get_or_compile] *)
Definition get_or_compile (cfg : WasmPluginShellConfig) (cache : Cache) (w : W) : result WasmModule WasmHostError * Cache * W :=
  let key := module_cache_key cfg in
  match (if use_cache cfg then cache !! key else None) with
  | Some m => (Ok m, cache, w)
  | None =>
      match fetch_wasm_bytes_sync_with_auth (str_trim (url cfg)) (oci_auth cfg) w with
      | (Err e, w) => (Err e, cache, w)
      | (Ok bytes, w) =>
          match compile cfg bytes with
          | Err e => (Err e, cache, w)
          | Ok m => (Ok m, if use_cache cfg then <[key := m]> cache else cache, w)
          end
      end
  end.

(** The cache in use: modules are loaded, and the cache may drop an entry at any time. *)
Inductive cache_step (allowed : WasmPluginShellConfig → Prop) : Cache * W → Cache * W → Prop :=
| step_load cfg cache w r cache' w' :
    allowed cfg → get_or_compile cfg cache w = (r, cache', w') → cache_step allowed (cache, w) (cache', w')
| step_evict key cache w : cache_step allowed (cache, w) (delete key cache, w)
| step_world cache w w' : cache_step allowed (cache, w) (cache, w').

(** ** Pinned modules *)

(** The digest that a configuration demands *)
Definition pinned (cfg : WasmPluginShellConfig) : option string :=
  e ← normalize_sha256 <$> sha256 cfg; if str_is_empty e then None else Some e.

Lemma compile_pinned cfg bytes m d : compile cfg bytes = Ok m → pinned cfg = Some d →
  module_new bytes = Ok m ∧ eq_ignore_ascii_case (sha256_hex bytes) d = true.
Proof.
  unfold compile, verify_sha256. fold (pinned cfg). intros Hc Hp. rewrite Hp in Hc.
  destruct (eq_ignore_ascii_case (sha256_hex bytes) d) eqn:E; cbn [result_bind] in Hc; [|done].
  destruct (module_new bytes); [|done]. by injection Hc as ->.
Qed.
Lemma pinned_given cfg d : pinned cfg = Some d → ∃ s, given (sha256 cfg) = Some s ∧ normalize_sha256 s = d.
Proof.
  unfold pinned, given. destruct (sha256 cfg) as [s|]; [|done]. cbn [fmap option_fmap option_map mbind option_bind].
  destruct (str_is_empty (normalize_sha256 s)) eqn:E; [done|]. intros [= <-]. exists s. split; [|done].
  unfold blank. destruct (str_is_empty (str_trim s)) eqn:Hb; [|done]. apply str_is_empty_true in Hb.
  unfold normalize_sha256 in E. rewrite Hb in E. done.
Qed.
(** A key tells the digest, if the part before it has no hash sign. *)
Lemma key_pinned cfg cfg' d : no_char "#" (cache_base cfg) → no_char "#" (cache_base cfg') →
  module_cache_key cfg' = module_cache_key cfg → pinned cfg = Some d → pinned cfg' = Some d.
Proof.
  intros Hb Hb' Hk Hp. pose proof Hp as (s & Hs & Hd)%pinned_given. unfold module_cache_key in Hk. rewrite Hs, Hd in Hk.
  assert (str_split_once "#" (cache_base cfg +:+ "#sha256=" +:+ d) = Some (cache_base cfg, "sha256=" +:+ d)) as Hsplit
    by (by apply str_split_once_Some).
  rewrite <- Hk in Hsplit. destruct (given (sha256 cfg')) as [s'|] eqn:Hs'.
  - assert (str_split_once "#" (cache_base cfg' +:+ "#sha256=" +:+ normalize_sha256 s') =
      Some (cache_base cfg', "sha256=" +:+ normalize_sha256 s')) as Hsplit' by (by apply str_split_once_Some).
    rewrite Hsplit' in Hsplit. injection Hsplit as _ Hn. unfold pinned.
    assert (sha256 cfg' = Some s') as ->.
    { unfold given in Hs'. destruct (sha256 cfg') as [x|]; [|done]. cbn [mbind option_bind] in Hs'. by destruct (blank x); simplify_eq. }
    cbn [fmap option_fmap option_map mbind option_bind]. rewrite Hn.
    unfold pinned in Hp. destruct (sha256 cfg); [|done]. cbn [fmap option_fmap option_map mbind option_bind] in Hp.
    destruct (str_is_empty (normalize_sha256 _)) eqn:E in Hp; [done|]. injection Hp as <-. by rewrite E.
  - apply str_split_once_None in Hb'. congruence.
Qed.

Definition plain (cfg : WasmPluginShellConfig) : Prop := no_char "#" (cache_base cfg).
Definition cache_ok (cache : Cache) : Prop :=
  ∀ k m, cache !! k = Some m → ∃ cfg bytes, plain cfg ∧ k = module_cache_key cfg ∧ compile cfg bytes = Ok m.

Lemma loaded_compiled cfg cache w r cache' w' : cache_ok cache → plain cfg → get_or_compile cfg cache w = (r, cache', w') →
  cache_ok cache' ∧ ∀ m, r = Ok m → ∃ cfg' bytes, plain cfg' ∧ module_cache_key cfg' = module_cache_key cfg ∧ compile cfg' bytes = Ok m.
Proof.
  intros Hok Hcfg. unfold get_or_compile. destruct (if use_cache cfg then cache !! module_cache_key cfg else None) as [m|] eqn:Hget.
  - intros [= <- <- <-]. split; [done|]. intros m' [= <-]. destruct (use_cache cfg); [|done].
    destruct (Hok _ _ Hget) as (cfg' & bytes & Hp & Hk & Hc). by exists cfg', bytes.
  - destruct (fetch_wasm_bytes_sync_with_auth _ _ w) as [[bytes|e] w1]; [|by intros [= <- <- <-]].
    destruct (compile cfg bytes) as [m|e] eqn:Hc; [|by intros [= <- <- <-]]. intros [= <- <- <-]. split.
    + destruct (use_cache cfg); [|done]. intros k m' [[<- <-]|[_ Hm]]%lookup_insert_Some; [|by apply Hok]. by exists cfg, bytes.
    + intros m' [= <-]. by exists cfg, bytes.
Qed.

Lemma cache_ok_empty : cache_ok ∅.
Proof. intros k m. by rewrite lookup_empty. Qed.
Lemma reachable_cache_ok x y : rtc (cache_step plain) x y → cache_ok x.1 → cache_ok y.1.
Proof.
  induction 1 as [|x y z Hstep _ IH]; [done|]. intros Hx. apply IH.
  destruct Hstep as [cfg1 c1 w1 r c2 w2 Hp1 Hg1|key c1 w1|c1 w1 w2]; cbn [fst] in *; [|intros k m' [_ Hm]%lookup_delete_Some; by apply Hx|done].
  exact (proj1 (loaded_compiled _ _ _ _ _ _ Hx Hp1 Hg1)).
Qed.

(** C10: A configuration that demands a digest never gets a module of other bytes. Whatever modules
    were loaded before, with whatever answers of files and registries and whatever the cache has
    dropped, the module it gets, from the cache or not, was compiled from bytes with the digest, as
    long as no configuration has a hash sign in its cache key or, without one, in its URL. *)
Theorem pinned_modules_verified cfg d w0 cache w m cache' w' :
  rtc (cache_step plain) (∅, w0) (cache, w) → plain cfg → pinned cfg = Some d →
  get_or_compile cfg cache w = (Ok m, cache', w') →
  ∃ bytes, module_new bytes = Ok m ∧ eq_ignore_ascii_case (sha256_hex bytes) d = true.
Proof.
  intros Hsteps Hcfg Hpin Hget.
  pose proof (reachable_cache_ok _ _ Hsteps cache_ok_empty) as Hok. cbn [fst] in Hok.
  destruct (loaded_compiled _ _ _ _ _ _ Hok Hcfg Hget) as [_ Hm]. destruct (Hm m eq_refl) as (cfg' & bytes & Hp' & Hk & Hc).
  exists bytes. eapply compile_pinned; [done|]. by apply (key_pinned cfg cfg').
Qed.

(** ** Reading references back *)

(** How an image is named behind its repository *)
Inductive Version := Tag (tag : string) | Digest (digest : string) | Untagged.
Definition version_suffix (v : Version) : string :=
  match v with Tag t => ":" +:+ t | Digest d => "@" +:+ d | Untagged => "" end.
Definition version_reference (v : Version) : string :=
  match v with Tag t => t | Digest d => d | Untagged => "latest" end.
(** The part behind the last slash *)
Definition last_segment (s : string) : string := match str_rsplit_once "/" s with Some (_, last) => last | None => s end.
Definition version_ok (repository : string) (v : Version) : Prop :=
  match v with
  | Tag t => no_char "@" repository ∧ no_char "@" t ∧ no_char "/" t ∧ no_char ":" t
  | Digest d => no_char "@" d
  | Untagged => no_char "@" repository ∧ no_char ":" (last_segment repository)
  end.

Lemma split_tag_tagged repository tag : no_char "/" tag → no_char ":" tag →
  split_tag (repository +:+ ":" +:+ tag) = Some (repository, tag).
Proof.
  intros Hs Hc. unfold split_tag. destruct (str_rsplit_once "/" repository) as [[pre last]|] eqn:E.
  - apply str_rsplit_once_Some in E as [-> Hlast]. rewrite <- str_app_assoc. cbn [String.append].
    rewrite str_rsplit_once_app; [|apply no_char_app; split; [done|by apply no_char_cons]].
    rewrite str_rsplit_once_app by done. done.
  - apply str_rsplit_once_no_char in E. rewrite str_rsplit_once_None; [by apply str_rsplit_once_app|].
    apply no_char_app. split; [done|]. by apply no_char_cons.
Qed.
Lemma split_tag_untagged repository : no_char ":" (last_segment repository) → split_tag repository = None.
Proof.
  unfold split_tag, last_segment. destruct (str_rsplit_once "/" repository) as [[pre last]|]; intros Hc; by rewrite str_rsplit_once_None.
Qed.

(** The URL of an image is read as it was meant: for each of the schemes, a registry, with a
    port or not, a repository of any number of segments, and a tag, a digest or neither, the parts
    are those that were put together, and without a version the tag is [latest]. *)
Theorem oci_reference_roundtrip prefix registry repository v url :
  url = prefix +:+ registry +:+ "/" +:+ repository +:+ version_suffix v → str_trim url = url →
  prefix ∈ ["oci+http://"; "oci://"; "docker://"; "image://"] →
  no_char "/" registry → version_ok repository v →
  blank registry = false → blank repository = false → blank (version_reference v) = false →
  blank (repository +:+ version_suffix v) = false →
  oci_parse url = Ok (MkRef (if decide (prefix = "oci+http://") then "http" else default_oci_scheme registry)
    registry repository (version_reference v)).
Proof.
  intros Hurl Htrim Hprefix Hreg Hv Hb1 Hb2 Hb3 Hb4. unfold oci_parse. rewrite Htrim. clear Htrim.
  set (rest := registry +:+ "/" +:+ repository +:+ version_suffix v) in *.
  assert (default_oci_scheme rest = default_oci_scheme registry) as Hscheme.
  { unfold default_oci_scheme, rest.
    change (registry +:+ "/" +:+ repository +:+ version_suffix v) with (registry +:+ String "/" (repository +:+ version_suffix v)).
    rewrite (str_split_app "/" registry) by done. by rewrite (str_split_no_char "/" registry). }
  assert (oci_rest url = Some (if decide (prefix = "oci+http://") then "http" else default_oci_scheme registry, rest)) as ->.
  { rewrite Hurl, <- Hscheme. repeat (apply elem_of_cons in Hprefix as [->|Hprefix]; [reflexivity|]). by apply not_elem_of_nil in Hprefix. }
  assert (str_split_once "/" rest = Some (registry, repository +:+ version_suffix v)) as -> by (by apply str_split_once_Some).
  rewrite Hb1, Hb4. cbn [orb].
  assert (match str_rsplit_once "@" (repository +:+ version_suffix v) with
    | Some rd => rd | None => default (repository +:+ version_suffix v, "latest") (split_tag (repository +:+ version_suffix v)) end =
    (repository, version_reference v)) as ->; [|by rewrite Hb2, Hb3].
  destruct v as [tag|digest|]; cbn [version_suffix version_reference version_ok] in *.
  - destruct Hv as (H1' & H2' & H3' & H4'). rewrite str_rsplit_once_None; [by rewrite split_tag_tagged|].
    apply no_char_app. split; [done|]. by apply no_char_cons.
  - cbn [String.append]. by rewrite str_rsplit_once_app.
  - destruct Hv as [H1' H2']. rewrite str_app_nil_r, str_rsplit_once_None by done. by rewrite split_tag_untagged.
Qed.

(** Credentials that are meant for another registry are not sent: nothing is. *)
Lemma other_registry_not_asked url auth r registry w : oci_parse url = Ok r → given (oa_registry auth) = Some registry →
  eq_ignore_ascii_case registry (or_registry r) = false →
  ∃ e, fetch_oci_wasm_bytes_sync url (Some auth) w = (Err (Fetch e), w).
Proof.
  intros Hr Hreg Hne. unfold fetch_oci_wasm_bytes_sync, lbind, from_result. rewrite Hr. unfold check_registry.
  cbn [mbind option_bind]. rewrite Hreg, Hne. by eexists.
Qed.

End load.

(** ** Concrete loads: files, and nothing else *)

#[local] Instance files_only : LoadLib (gmap string string) := {|
  read_file path w := (ok_or (w !! path) "not found", w);
  path_is_dir _ _ := false;
  path_parent path := fst <$> str_rsplit_once "/" path;
  path_join root path := root +:+ "/" +:+ path;
  http_send _ _ w := (Err "no network", w);
  status_text := z_string;
  status_error _ _ := "";
  manifest_from_slice _ := Err "";
  token_from_slice _ := Err "";
  url_with_query _ _ := Err "";
  untar _ := Err "";
  sha256_hex bytes := bytes;
  WasmModule := string;
  module_new bytes := Ok bytes;
|}.
Definition load_config (url : string) (key sha : option string) : WasmPluginShellConfig :=
  MkShellConfig url None sha key true JNull FailOpen ∅ limits_default false "" "" "default" 1 0.
Definition some_files : gmap string string := {["/m.wasm" := "abc"; "/other.wasm" := "def"]}.

Lemma pinned_modules_verified_witness :
  ∃ bytes, module_new (LoadLib:=files_only) bytes = Ok "abc" ∧ eq_ignore_ascii_case (sha256_hex (LoadLib:=files_only) bytes) "ABC" = true.
Proof.
  apply (pinned_modules_verified (LoadLib0:=files_only) (load_config "file:///m.wasm" None (Some " sha256:ABC")) "ABC" some_files ∅ some_files "abc"
    {["file:///m.wasm#sha256=ABC" := "abc"]} some_files); [apply rtc_refl|reflexivity..].
Defined.
Lemma oci_reference_roundtrip_witness :
  oci_parse "oci://registry.example.com:5000/ns/plugin:v1" = Ok (MkRef "https" "registry.example.com:5000" "ns/plugin" "v1").
Proof.
  apply (oci_reference_roundtrip "oci://" "registry.example.com:5000" "ns/plugin" (Tag "v1")); try (vm_compute; reflexivity).
  - set_solver.
  - split_and!; vm_compute; reflexivity.
Defined.

(** A cache key with a hash sign can stand for a digest that was never checked. *)
Example hash_sign_defeats_the_pin :
  let '(_, cache, w) := get_or_compile (load_config "file:///other.wasm" (Some "k#sha256=abc") None) ∅ some_files in
  (get_or_compile (load_config "file:///m.wasm" (Some "k") (Some "abc")) cache w).1.1 = Ok "def".
Proof. vm_compute. reflexivity. Qed.
(** A digest that is only the word [sha256:] is none. *)
Example empty_digest_accepts : verify_sha256 "anything" (Some "sha256:") = Ok tt.
Proof. reflexivity. Qed.
(** The path of a file beside the module may leave its directory. *)
Example lookup_path_escapes :
  normalize_lookup_path "/../../etc/passwd" = "../../etc/passwd" ∧
  (fetch_wasm_image_file_sync_with_auth "/plugins/m.wasm" "../../etc/passwd" None
     {["/plugins/../../etc/passwd" := "root"]}).1 = Ok "root".
Proof. split; vm_compute; reflexivity. Qed.
