(* ===== verification/K8sTypes.v ===== *)
(** * Kubernetes: the objects

    [crates/model/src/ext/k8s]: the custom resources of the gateway (HTTPSpaceroute, MCPRoute,
    SgFilter, WasmPlugin), the references from a plugin to what it is bound to, and the names of
    kinds. The objects of the Gateway API and of Kubernetes itself (Gateway, HTTPRoute, Secret,
    GatewayClass, and so on) are records of the fields that the source reads or writes. A
    [BTreeMap] is the sorted list of [BTree]; the bytes of a secret are a string. *)

From S2P Require Export Config ConfigService.
Local Open Scope string_scope.
Local Open Scope list_scope.
Local Open Scope Z_scope.

Notation StrMap := (list (string * string)).

(** ** Metadata and [ResourceExt] *)

Record OwnerReference := MkOwner { ow_uid : string; ow_name : string }.
Record ObjectMeta := MkMeta {
  md_name : option string;
  md_generate_name : option string;
  md_namespace : option string;
  md_annotations : option StrMap;
  md_labels : option StrMap;
  md_resource_version : option string;
  md_uid : option string;
  md_generation : option Z;
  md_owner_references : option (list OwnerReference);
}.
#[export] Instance OwnerReference_eq_dec : EqDecision OwnerReference.
Proof. solve_decision. Defined.
#[export] Instance ObjectMeta_eq_dec : EqDecision ObjectMeta.
Proof. solve_decision. Defined.

Record Object (Spec Status : Type) := MkObject {
  o_meta : ObjectMeta; o_spec : Spec; o_status : option Status }.
Arguments MkObject {Spec Status}.
Arguments o_meta {Spec Status}.
Arguments o_spec {Spec Status}.
Arguments o_status {Spec Status}.

(** [ObjectMeta { name, namespace, annotations, ..Default::default() }] *)
Definition meta_new (name namespace : string) (annotations : option StrMap) : ObjectMeta :=
  MkMeta (Some name) None (Some namespace) annotations None None None None None.
Definition set_resource_version (v : option string) (m : ObjectMeta) : ObjectMeta :=
  MkMeta (md_name m) (md_generate_name m) (md_namespace m) (md_annotations m) (md_labels m) v (md_uid m)
    (md_generation m) (md_owner_references m).
Definition set_annotations (a : option StrMap) (m : ObjectMeta) : ObjectMeta :=
  MkMeta (md_name m) (md_generate_name m) (md_namespace m) a (md_labels m) (md_resource_version m) (md_uid m)
    (md_generation m) (md_owner_references m).

Section resource_ext.
Context {Spec Status : Type}.
Implicit Types o : Object Spec Status.
Definition name_any o : string := default "" (opt_or (md_name (o_meta o)) (md_generate_name (o_meta o))).
Definition namespace o : option string := md_namespace (o_meta o).
Definition annotations o : StrMap := default [] (md_annotations (o_meta o)).
Definition labels o : StrMap := default [] (md_labels (o_meta o)).
Definition with_meta (f : ObjectMeta → ObjectMeta) o : Object Spec Status := MkObject (f (o_meta o)) (o_spec o) (o_status o).
Definition with_spec (spec : Spec) o : Object Spec Status := MkObject (o_meta o) spec (o_status o).
End resource_ext.

(** ** The Gateway API *)

Record ParentReference := MkParentRef {
  pr_group : option string; pr_kind : option string; pr_namespace : option string;
  pr_name : string; pr_section_name : option string; pr_port : option Z }.
(** [CommonRouteSpec] and [RouteStatus], whose conditions the source leaves empty *)
Notation ParentRefs := (option (list ParentReference)).
Record RouteParentStatus := MkParentStatus { ps_parent_ref : ParentReference; ps_controller_name : string }.
Notation RouteStatus := (list RouteParentStatus).

Inductive KPathMatch := KPathExact (value : string) | KPathPrefix (value : string) | KPathRegular (value : string).
Inductive KHeaderMatch := KHeaderExact (name value : string) | KHeaderRegular (name value : string).
Inductive KQueryMatch := KQueryExact (name value : string) | KQueryRegular (name value : string).
Record KRouteMatch := MkKMatch {
  km_path : option KPathMatch; km_headers : option (list KHeaderMatch);
  km_query_params : option (list KQueryMatch); km_method : option string }.

Inductive HttpPathModifier := ReplaceFullPath (path : string) | ReplacePrefixMatch (prefix : string).
Record LocalObjectReference := MkLocalRef { lr_group : string; lr_kind : string; lr_name : string }.
(** The payloads of the three filters that the source never opens are JSON. *)
Inductive HttpRouteFilter :=
| RequestHeaderModifier (set add : option (list (string * string))) (remove : option (list string))
| ResponseHeaderModifier (payload : Json)
| RequestMirror (payload : Json)
| RequestRedirect (payload : Json)
| URLRewrite (hostname : option string) (path : option HttpPathModifier)
| ExtensionRef (extension_ref : LocalObjectReference).

Definition is_extension_ref (f : HttpRouteFilter) : bool := match f with ExtensionRef _ => true | _ => false end.
Definition is_url_rewrite (f : HttpRouteFilter) : bool := match f with URLRewrite _ _ => true | _ => false end.
Definition is_request_header_modifier (f : HttpRouteFilter) : bool :=
  match f with RequestHeaderModifier _ _ _ => true | _ => false end.

Record BackendObjectReference := MkBackendObj {
  bo_group : option string; bo_kind : option string; bo_name : string; bo_namespace : option string; bo_port : option Z }.

(** The HTTPRoute of the Gateway API: a rule has matches, filters and backends, a backend a
    reference with a weight. *)
Record RawBackendRef := MkRawBackend { rb_weight : option Z; rb_inner : BackendObjectReference }.
Record RawHttpBackendRef := MkRawHttpBackend { rhb_backend_ref : option RawBackendRef; rhb_filters : option (list HttpRouteFilter) }.
Record RawHttpRouteRule := MkRawRule {
  rr_matches : option (list KRouteMatch); rr_filters : option (list HttpRouteFilter);
  rr_backend_refs : option (list RawHttpBackendRef) }.
Record HttpRouteSpec := MkRawSpec {
  rs_parent_refs : ParentRefs; rs_hostnames : option (list string); rs_rules : option (list RawHttpRouteRule) }.
Notation KHttpRoute := (Object HttpRouteSpec RouteStatus).

Record SecretRef := MkSecretRef { sec_kind : option string; sec_name : string; sec_namespace : option string }.
Record GatewayTlsConfig := MkGatewayTls {
  gt_mode : option string; gt_certificate_refs : option (list SecretRef); gt_options : option StrMap }.
Record Listener := MkListener {
  li_name : string; li_hostname : option string; li_port : Z; li_protocol : string; li_tls : option GatewayTlsConfig }.
Record GatewaySpec := MkGatewaySpec { gs_gateway_class_name : string; gs_listeners : list Listener }.
Notation KGateway := (Object GatewaySpec unit).

(** A secret is data and a type. *)
Record SecretSpec := MkSecret { se_type : option string; se_data : option StrMap }.
Notation Secret := (Object SecretSpec unit).

Record Condition := MkCondition {
  cd_type : string; cd_status : string; cd_reason : string; cd_message : string; cd_observed_generation : option Z }.
(** The status of a GatewayClass is its conditions. *)
Notation GatewayClassStatus := (option (list Condition)).
Record GatewayClassSpec := MkGatewayClassSpec { gc_controller_name : string }.
Notation GatewayClass := (Object GatewayClassSpec GatewayClassStatus).

(** ** Routes: [http_spaceroute.rs], [mcp_route.rs] *)

Record BackendRef := MkKBackendRef {
  kb_weight : option Z; kb_timeout_ms : option Z; kb_timeout_mode : option TimeoutMode;
  kb_downgrade_http2 : option bool; kb_inner : BackendObjectReference }.
Record HttpBackendRef := MkHttpBackendRef {
  khb_backend_ref : option BackendRef; khb_filters : option (list HttpRouteFilter) }.
Record KRouteRule := MkKRule {
  kr_matches : option (list KRouteMatch); kr_filters : option (list HttpRouteFilter);
  kr_backend_refs : option (list HttpBackendRef); kr_timeout_ms : option Z; kr_timeout_mode : option TimeoutMode }.
Record HttpSpacerouteSpec := MkSpacerouteSpec {
  hs_parent_refs : ParentRefs; hs_hostnames : option (list string); hs_rules : option (list KRouteRule) }.
Notation HttpSpaceroute := (Object HttpSpacerouteSpec RouteStatus).

Record McpRouteSpec := MkMcpSpec {
  ms_parent_refs : ParentRefs; ms_hostnames : option (list string); ms_transport : SgMcpTransport; ms_path : string;
  ms_legacy_sse : option SgMcpLegacySse; ms_backend_refs : list HttpBackendRef;
  ms_timeout_mode : TimeoutMode; ms_session_affinity : McpSessionAffinity }.
Notation McpRoute := (Object McpRouteSpec RouteStatus).

Definition RAW_HTTP_ROUTE_KIND : string := "raw.http.route.kind".
Definition RAW_HTTP_ROUTE_KIND_DEFAULT : string := "HTTPRoute".

(** [From<HttpRoute> for HttpSpaceroute] *)
Definition backend_of_raw (b : RawHttpBackendRef) : HttpBackendRef :=
  MkHttpBackendRef
    ((λ r, MkKBackendRef (rb_weight r) None None None
       (MkBackendObj (bo_group (rb_inner r)) (bo_kind (rb_inner r)) (bo_name (rb_inner r)) (bo_namespace (rb_inner r))
          (bo_port (rb_inner r)))) <$> rhb_backend_ref b)
    (rhb_filters b).
Definition rule_of_raw (r : RawHttpRouteRule) : KRouteRule :=
  MkKRule (rr_matches r) (rr_filters r) (fmap (M:=list) backend_of_raw <$> rr_backend_refs r) None None.
Definition spaceroute_of_httproute (o : KHttpRoute) : HttpSpaceroute :=
  MkObject
    (set_annotations (Some (bt_insert RAW_HTTP_ROUTE_KIND RAW_HTTP_ROUTE_KIND_DEFAULT (annotations o))) (o_meta o))
    (MkSpacerouteSpec (rs_parent_refs (o_spec o)) (rs_hostnames (o_spec o)) (fmap (M:=list) rule_of_raw <$> rs_rules (o_spec o)))
    (o_status o).

(** [get_gateway_name], of both routes *)
Definition gateway_name_of (refs : ParentRefs) (ns : string) : string :=
  default "" (refs ← refs;
    find_map (λ p, if decide (pr_namespace p = Some ns ∨ (ns = DEFAULT_NAMESPACE ∧ pr_namespace p = None))
                   then Some (pr_name p) else None) refs).
Definition spaceroute_gateway_name (ns : string) (o : HttpSpaceroute) : string := gateway_name_of (hs_parent_refs (o_spec o)) ns.
Definition mcp_gateway_name (ns : string) (o : McpRoute) : string := gateway_name_of (ms_parent_refs (o_spec o)) ns.

(** ** Plugins: [sg_filter.rs], [wasm_plugin.rs] *)

Record TargetRef := MkTarget {
  tr_kind : string; tr_name : string; tr_namespace : option string; tr_priority : Z }.
#[export] Instance TargetRef_eq_dec : EqDecision TargetRef.
Proof. solve_decision. Defined.
(** [PartialEq for K8sSgFilterSpecTargetRef]: the priority does not count, and no namespace is
    the empty one. *)
Definition target_eqb (t u : TargetRef) : bool :=
  bool_decide (tr_name t = tr_name u) && bool_decide (tr_kind t = tr_kind u) &&
  bool_decide (default "" (tr_namespace t) = default "" (tr_namespace u)).
(** What [Hash] feeds to the hasher. *)
Definition target_hash_input (t : TargetRef) : string * string * string :=
  (tr_kind t, tr_name t, default "" (tr_namespace t)).
(** [Display for K8sSgFilterSpecTargetRef] *)
Definition target_to_string (t : TargetRef) : string :=
  match tr_namespace t with
  | Some ns => tr_kind t +:+ ":" +:+ tr_name t +:+ "." +:+ ns
  | None => tr_kind t +:+ ":" +:+ tr_name t
  end.
Definition set_target_priority (p : Z) (t : TargetRef) : TargetRef := MkTarget (tr_kind t) (tr_name t) (tr_namespace t) p.

Record SpecFilter := MkSpecFilter {
  sf_code : string; sf_name : option string; sf_display_name : option string; sf_enable : bool; sf_config : Json }.
Record SgFilterSpec := MkFilterSpec { fs_filters : list SpecFilter; fs_target_refs : list TargetRef }.
Notation SgFilter := (Object SgFilterSpec unit).

Record WasmMatchRule := MkWasmRule {
  wr_ingress : list string; wr_domain : list string; wr_service : list string;
  wr_config_disable : bool; wr_config : Json }.
Record WasmPluginSpec := MkWasmSpec {
  ws_url : string; ws_plugin_name : option string; ws_sha256 : option string; ws_phase : option string;
  ws_priority : option Z; ws_image_pull_policy : option string; ws_image_pull_secret : option string;
  ws_default_config_disable : bool; ws_default_config : Json; ws_match_rules : list WasmMatchRule;
  ws_fail_strategy : option string }.
Record WasmPluginStatus := MkWasmStatus {
  wst_observed_generation : option Z; wst_phase : option string; wst_digest : option string; wst_message : option string }.
Notation WasmPlugin := (Object WasmPluginSpec WasmPluginStatus).

(** ** Kinds: [helper_struct.rs] *)

Record SgSingeFilter := MkSingeFilter {
  ss_name : string; ss_namespace : string; ss_filter : SpecFilter; ss_target_ref : option TargetRef }.
(** [From<SgSingeFilter> for SgFilter] *)
Definition filter_of_single (v : SgSingeFilter) : SgFilter :=
  MkObject (meta_new (if str_is_empty (ss_name v) then sf_code (ss_filter v) else ss_name v) (ss_namespace v) None)
    (MkFilterSpec [ss_filter v] (match ss_target_ref v with Some t => [t] | None => [] end)) None.

Inductive SgTargetKind := TargetGateway | TargetHttproute | TargetHttpspaceroute | TargetMcpRoute.
Definition target_kind_to_string (k : SgTargetKind) : string :=
  match k with
  | TargetGateway => "Gateway" | TargetHttproute => "HTTPRoute"
  | TargetHttpspaceroute => "HTTPSpaceroute" | TargetMcpRoute => "MCPRoute"
  end.
Inductive BackendObjectRefKind := RefService | RefExternalHttp | RefExternalHttps | RefFile.
Definition ref_kind_to_string (k : BackendObjectRefKind) : string :=
  match k with
  | RefService => "Service" | RefExternalHttp => "ExternalHttp" | RefExternalHttps => "ExternalHttps" | RefFile => "File"
  end.
Definition ref_kind_from (s : string) : BackendObjectRefKind :=
  if decide (s = "ExternalHttp") then RefExternalHttp
  else if decide (s = "ExternalHttps") then RefExternalHttps
  else if decide (s = "File") then RefFile else RefService.
Lemma ref_kind_roundtrip k : ref_kind_from (ref_kind_to_string k) = k.
Proof. by destruct k. Qed.

(** Two references are equal for the source when they name the same object: an equivalence that
    their hash respects. *)
Lemma target_eqb_spec t u : target_eqb t u = true ↔ target_hash_input t = target_hash_input u.
Proof.
  unfold target_eqb, target_hash_input. rewrite !andb_true_iff, !bool_decide_eq_true. split.
  - intros ((->&->)&->). done.
  - intros [= -> -> ->]. done.
Qed.
Lemma target_eqb_refl t : target_eqb t t = true.
Proof. by apply target_eqb_spec. Qed.
Lemma target_eqb_sym t u : target_eqb t u = target_eqb u t.
Proof. apply eq_true_iff_eq. rewrite !target_eqb_spec. by split. Qed.
Lemma target_eqb_priority p t u : target_eqb (set_target_priority p t) u = target_eqb t u.
Proof. done. Qed.
