(* ===== verification/K8sConv.v ===== *)
(** * Kubernetes: the conversions

    [crates/config/src/service/k8s/convert/{route,filter,gateway}_k8s_conv.rs]: what an edit of
    the configuration writes into the objects of the cluster, and what is read back from them.

    The theorems say what survives. A rule is read back as [stored_rule] of it, or not at all
    ([rule_reads_back]); the rule read back accepts every request of the rule, and the same
    requests when a match with headers has methods ([stored_rule_accepts]); the parameters of a
    gateway survive when observability is on ([parameters_read_back]). *)

From Stdlib Require Import SpecFloat.
From S2P Require Export K8sTypes Trim Fmt.
From S2P Require Import RefHttp.
Local Open Scope string_scope.
Local Open Scope list_scope.
Local Open Scope Z_scope.

Definition GATEWAY_CONTROLLER_NAME : string := "spacegate.idealworld.group/spacegate-controller".
Definition SG_FILTER_KIND : string := "sgfilter".
Definition ANNOTATION_RESOURCE_PRIORITY : string := "priority".

(** ** Plugins: [filter_k8s_conv.rs] *)

Definition to_singe_filter (id : PluginInstanceId) (value : Json) (display_name : option string)
    (target : option TargetRef) (ns : string) : option SgSingeFilter :=
  match id_name id with
  | Anon _ | Mono => None
  | Named name =>
      Some (MkSingeFilter name ns
        (MkSpecFilter (id_code id) (Some name) (normalize_plugin_display_name display_name) true value) target)
  end.
Definition to_http_route_filter (id : PluginInstanceId) : option HttpRouteFilter :=
  match id_name id with
  | Anon _ | Mono => None
  | Named name => Some (ExtensionRef (MkLocalRef (id_code id) SG_FILTER_KIND name))
  end.
Definition from_http_route_filter (f : HttpRouteFilter) : option PluginInstanceId :=
  match f with
  | ExtensionRef r => Some (MkPluginId (lr_group r) (Named (lr_name r)))
  | _ => None
  end.
Definition extract_from_filter (f : SpecFilter) (default_name : string) : PluginInstanceId :=
  MkPluginId (sf_code f) (Named (default default_name (sf_name f))).
(** Of the filters of an object, the first that is enabled. *)
Definition from_first_filter_obj (o : SgFilter) : option (PluginConfig Json) :=
  (λ f, MkPluginConfig (extract_from_filter f (name_any o)) (normalize_plugin_display_name (sf_display_name f)) (sf_config f))
    <$> List.find sf_enable (fs_filters (o_spec o)).

(** The bindings of a rule or a backend: the references among its filters, numbered. The
    arithmetic is of an [i32]. *)
Definition binding_of_index (i : nat) (id : PluginInstanceId) : PluginBinding :=
  MkBinding id (swrap 32 (1000 - Z.of_nat i * 100)).
Definition bindings_from_filters (fs : list HttpRouteFilter) : list PluginBinding :=
  imap binding_of_index (omap from_http_route_filter (List.filter is_extension_ref fs)).
Definition filters_of_bindings (bs : list PluginBinding) : list HttpRouteFilter :=
  omap (λ b, to_http_route_filter (binding_id b)) (order_plugin_bindings bs).

(** ** Matches: [route_k8s_conv.rs] *)

Definition rewrite_filter (modifier : string → HttpPathModifier) (replace : option string) : option HttpRouteFilter :=
  r ← replace;
  if str_is_empty (str_trim r) then None else Some (URLRewrite None (Some (modifier r))).
Definition path_into_kube (m : SgHttpPathMatch) : KPathMatch * option HttpRouteFilter :=
  match m with
  | SgPathExact value replace => (KPathExact value, rewrite_filter ReplaceFullPath replace)
  | SgPathPrefix value replace => (KPathPrefix value, rewrite_filter ReplacePrefixMatch replace)
  | SgPathRegExp value replace => (KPathRegular value, rewrite_filter ReplaceFullPath replace)
  end.
Definition path_from_kube (m : KPathMatch) : SgHttpPathMatch :=
  match m with
  | KPathExact value => SgPathExact value None
  | KPathPrefix value => SgPathPrefix value None
  | KPathRegular value => SgPathRegExp value None
  end.

Definition header_into_kube (m : SgHttpHeaderMatch) : KHeaderMatch * option HttpRouteFilter :=
  match m with
  | SgHeaderExact name value replace =>
      (KHeaderExact name value, (λ r, RequestHeaderModifier (Some [(name, r)]) None None) <$> replace)
  | SgHeaderRegExp name re _ => (KHeaderRegular name re, None)
  end.
Definition header_from_kube (m : KHeaderMatch) : SgHttpHeaderMatch :=
  match m with
  | KHeaderExact name value => SgHeaderExact name value None
  | KHeaderRegular name value => SgHeaderRegExp name value None
  end.

Definition query_into_kube (m : SgHttpQueryMatch) : KQueryMatch :=
  match m with SgQueryExact key value => KQueryExact key value | SgQueryRegular key re => KQueryRegular key re end.
Definition query_from_kube (m : KQueryMatch) : SgHttpQueryMatch :=
  match m with KQueryExact name value => SgQueryExact name value | KQueryRegular name value => SgQueryRegular name value end.

(** The comparison of [headers_p.sort_by]: the stable sort only asks whether it is [Less], which
    it is for a header with a filter against one without. *)
Definition header_before (a b : KHeaderMatch * option HttpRouteFilter) : bool :=
  negb (bool_decide (is_Some b.2) && negb (bool_decide (is_Some a.2))).
Definition headers_into_kube (hs : option (list SgHttpHeaderMatch)) : list KHeaderMatch :=
  (sort_by header_before (header_into_kube <$> default [] hs)).*1.

Definition match_path_into_kube (m : SgHttpRouteMatch) : option KPathMatch * option HttpRouteFilter :=
  match sm_path m with
  | Some p => let '(path, plugin) := path_into_kube p in (Some path, plugin)
  | None => (None, None)
  end.
Definition match_for_method (m : SgHttpRouteMatch) (method : string) : KRouteMatch * option HttpRouteFilter :=
  let '(path, plugin) := match_path_into_kube m in
  let header_paths := headers_into_kube (sm_header m) in
  (MkKMatch path (match header_paths with [] => None | _ => Some header_paths end)
     (fmap (M:=list) query_into_kube <$> sm_query m) (Some method), plugin).
(** Without methods, the headers are left out. *)
Definition match_without_method (m : SgHttpRouteMatch) : KRouteMatch * option HttpRouteFilter :=
  let '(path, plugin) := match_path_into_kube m in
  (MkKMatch path None (fmap (M:=list) query_into_kube <$> sm_query m) None, plugin).
Definition match_into_kube (m : SgHttpRouteMatch) : list KRouteMatch * list HttpRouteFilter :=
  let pairs := match sm_method m with
               | Some methods => match_for_method m <$> methods
               | None => [match_without_method m]
               end in
  (pairs.*1, omap (λ p, p) pairs.*2).
Definition match_from_kube (m : KRouteMatch) : SgHttpRouteMatch :=
  MkSgMatch (path_from_kube <$> km_path m) (fmap (M:=list) header_from_kube <$> km_headers m)
    (fmap (M:=list) query_from_kube <$> km_query_params m) ((λ method, [method]) <$> km_method m).

(** ** Backends *)

Definition backend_object_of (b : SgBackendRef PluginBinding) : BackendObjectReference :=
  match b_host b with
  | HostName host =>
      let kind := match b_protocol b with Some BackendProtocolHttps => RefExternalHttps | _ => RefExternalHttp end in
      MkBackendObj None (Some (ref_kind_to_string kind)) host None (b_port b)
  | K8sService d => MkBackendObj None (Some (ref_kind_to_string RefService)) (k8s_name d) (k8s_namespace d) (b_port b)
  | HostFile path => MkBackendObj None (Some (ref_kind_to_string RefFile)) path None None
  end.
Definition backend_into_kube (b : SgBackendRef PluginBinding) : HttpBackendRef :=
  MkHttpBackendRef
    (Some (MkKBackendRef (b_weight b) (b_timeout_ms b) (b_timeout_mode b) (b_downgrade_http2 b) (backend_object_of b)))
    (Some (filters_of_bindings (b_plugins b))).

Definition host_from_kube (o : BackendObjectReference) : option SgBackendProtocol * BackendHost :=
  let service := (None, K8sService (MkK8sService (bo_name o) (bo_namespace o))) in
  match bo_kind o with
  | None => service
  | Some kind =>
      match ref_kind_from kind with
      | RefService => service
      | RefExternalHttp => (Some BackendProtocolHttp, HostName (bo_name o))
      | RefExternalHttps => (Some BackendProtocolHttps, HostName (bo_name o))
      | RefFile => (None, HostFile (bo_name o))
      end
  end.
Definition backend_from_kube (b : HttpBackendRef) : result (option (SgBackendRef PluginBinding)) string :=
  transpose_map (λ backend,
    let '(protocol, host) := host_from_kube (kb_inner backend) in
    Ok (MkBackendRef host (bo_port (kb_inner backend)) (kb_timeout_ms backend) (kb_timeout_mode backend) protocol
          (kb_downgrade_http2 backend) (kb_weight backend) (bindings_from_filters (default [] (khb_filters b)))))
    (khb_backend_ref b).
(** [filter_map(|b| from(b).transpose()).collect::<BoxResult<Vec<_>>>()] *)
Definition backends_from_kube (bs : list HttpBackendRef) : result (list (SgBackendRef PluginBinding)) string :=
  let? bs := collect_results backend_from_kube bs in Ok (omap (λ b, b) bs).

(** ** Rules *)

Definition matches_into_kube (ms : list SgHttpRouteMatch) : list KRouteMatch * list HttpRouteFilter :=
  (mjoin (fst <$> (match_into_kube <$> ms)), mjoin (snd <$> (match_into_kube <$> ms))).
Definition rule_into_kube (r : SgHttpRouteRule PluginBinding) : KRouteRule :=
  let '(matches, plugins) := match sr_matches r with
    | Some ms => let '(matches, plugins) := matches_into_kube ms in (Some matches, plugins)
    | None => (None, [])
    end in
  MkKRule matches (Some (plugins ++ filters_of_bindings (sr_plugins r)))
    (Some (backend_into_kube <$> sr_backends r)) (sr_timeout_ms r) (sr_timeout_mode r).

Definition rewritten_by (f : HttpRouteFilter) (p : SgHttpPathMatch) : SgHttpPathMatch :=
  match f with
  | URLRewrite _ (Some rewrite_path) =>
      match p, rewrite_path with
      | SgPathExact value _, ReplaceFullPath path => SgPathExact value (Some path)
      | SgPathPrefix value _, ReplacePrefixMatch prefix => SgPathPrefix value (Some prefix)
      | p, _ => p
      end
  | _ => p
  end.
Definition set_match_path (p : option SgHttpPathMatch) (m : SgHttpRouteMatch) : SgHttpRouteMatch :=
  MkSgMatch p (sm_header m) (sm_query m) (sm_method m).
Definition matches_from_kube (legacy : list HttpRouteFilter) (ms : list KRouteMatch)
  : result (list SgHttpRouteMatch) string :=
  match ms with
  | [] => Ok []
  | [m] =>
      let m := match_from_kube m in
      match List.filter is_url_rewrite legacy with
      | [] => Ok [m]
      | [f] => Ok [set_match_path (rewritten_by f <$> sm_path m) m]
      | _ => Err "url_rewrite can only have one in each rule"
      end
  | ms =>
      if existsb is_url_rewrite legacy then Err "url_rewrite is not supported with multiple matches"
      else if existsb is_request_header_modifier legacy
      then Err "request_header_modifier is not supported with multiple matches"
      else Ok (match_from_kube <$> ms)
  end.
Definition rule_from_kube (r : KRouteRule) : result (SgHttpRouteRule PluginBinding) string :=
  let filters := default [] (kr_filters r) in
  let legacy := List.filter (λ f, negb (is_extension_ref f)) filters in
  let? matches := transpose_map (matches_from_kube legacy) (kr_matches r) in
  let? backends := transpose_map backends_from_kube (kr_backend_refs r) in
  Ok (MkSgRule matches (bindings_from_filters filters) (default [] backends) (kr_timeout_ms r) (kr_timeout_mode r) None).

(** ** Routes *)

Definition gateway_parent_ref (gateway_name gateway_namespace : string) : ParentReference :=
  MkParentRef None (Some (target_kind_to_string TargetGateway)) (Some gateway_namespace) gateway_name None None.
Definition parent_status (r : ParentReference) : RouteStatus := [MkParentStatus r GATEWAY_CONTROLLER_NAME].

Definition to_kube_httproute (r : SgHttpRoute PluginBinding) (gateway_name name gateway_namespace : string)
  : HttpSpaceroute * list PluginBinding :=
  let gateway_ref := gateway_parent_ref gateway_name gateway_namespace in
  (MkObject (meta_new name gateway_namespace (Some [(ANNOTATION_RESOURCE_PRIORITY, z_string (hr_priority r))]))
     (MkSpacerouteSpec (Some [gateway_ref]) (hr_hostnames r) (Some (rule_into_kube <$> hr_rules r)))
     (Some (parent_status gateway_ref)), hr_plugins r).
Definition mcp_route_to_kube_mcp_route (r : SgMcpRoute PluginBinding) (gateway_name name gateway_namespace : string)
  : McpRoute * list PluginBinding :=
  let gateway_ref := gateway_parent_ref gateway_name gateway_namespace in
  (MkObject (meta_new name gateway_namespace None)
     (MkMcpSpec (Some [gateway_ref]) (mr_hostnames r) (mr_transport r) (mr_path r) (mr_legacy_sse r)
        (backend_into_kube <$> mr_backends r) (mr_timeout_mode r) (mr_session_affinity r))
     (Some (parent_status gateway_ref)), mr_plugins r).

Inductive KubeRoute := KubeHttp (r : HttpSpaceroute) (plugins : list PluginBinding) | KubeMcp (r : McpRoute) (plugins : list PluginBinding).
Definition plugin_bindings (r : KubeRoute) : list PluginBinding := match r with KubeHttp _ ps | KubeMcp _ ps => ps end.
Definition object_target {Spec Status} (kind : SgTargetKind) (o : Object Spec Status) : TargetRef :=
  MkTarget (target_kind_to_string kind) (name_any o) (namespace o) 0.
Definition route_target_ref (r : KubeRoute) : TargetRef :=
  match r with KubeHttp r _ => object_target TargetHttpspaceroute r | KubeMcp r _ => object_target TargetMcpRoute r end.
Definition to_kube_route (r : Route_) (gateway_name name gateway_namespace : string) : KubeRoute :=
  match r with
  | RouteHttp r => let '(r, ps) := to_kube_httproute r gateway_name name gateway_namespace in KubeHttp r ps
  | RouteMcp r => let '(r, ps) := mcp_route_to_kube_mcp_route r gateway_name name gateway_namespace in KubeMcp r ps
  end.

(** ** Gateways: [gateway_k8s_conv.rs]

    The text of an [f64] and the hash of a key are those of the standard library, which does not
    say how it hashes. *)

Class KubeText := {
  f64_to_string : spec_float → string;
  f64_parse : string → option spec_float;
  default_hash : string → Z;
}.
Class KubeTextLaws `(T : KubeText) : Prop := {
  f64_text_roundtrip x : x ≠ S754_nan → f64_parse (f64_to_string x) = Some x;
}.

Definition bool_string (b : bool) : string := if b then "true" else "false".
Definition parse_bool (s : string) : option bool :=
  if decide (s = "true") then Some true else if decide (s = "false") then Some false else None.
Lemma parse_bool_string b : parse_bool (bool_string b) = Some b.
Proof. by destruct b. Qed.

Definition GATEWAY_ANNOTATION_REDIS_URL : string := "redis_url".
Definition GATEWAY_ANNOTATION_LOG_LEVEL : string := "log_level".
Definition GATEWAY_ANNOTATION_LANGUAGE : string := "lang".
Definition GATEWAY_ANNOTATION_IGNORE_TLS_VERIFICATION : string := "ignore_tls_verification".
Definition GATEWAY_ANNOTATION_ENABLE_X_REQUEST_ID : string := "enable_x_request_id".
Definition GATEWAY_ANNOTATION_OTEL_ENABLED : string := "spacegate.io/otel-enabled".
Definition GATEWAY_ANNOTATION_OTEL_SERVICE_NAME : string := "spacegate.io/otel-service-name".
Definition GATEWAY_ANNOTATION_OTEL_ENDPOINT : string := "spacegate.io/otel-endpoint".
Definition GATEWAY_ANNOTATION_OTEL_PROTOCOL : string := "spacegate.io/otel-protocol".
Definition GATEWAY_ANNOTATION_OTEL_TRACES_ENABLED : string := "spacegate.io/otel-traces-enabled".
Definition GATEWAY_ANNOTATION_OTEL_TRACES_SAMPLE_RATIO : string := "spacegate.io/otel-traces-sample-ratio".
Definition GATEWAY_ANNOTATION_OTEL_METRICS_ENABLED : string := "spacegate.io/otel-metrics-enabled".
Definition GATEWAY_ANNOTATION_OTEL_METRICS_EXPORT_INTERVAL_MS : string := "spacegate.io/otel-metrics-export-interval-ms".
Definition GATEWAY_ANNOTATION_OTEL_LOGS_ENABLED : string := "spacegate.io/otel-logs-enabled".
Definition GATEWAY_ANNOTATION_OTEL_LOGS_LEVEL : string := "spacegate.io/otel-logs-level".

Section gateways.
Context `{KubeText}.

Definition insert_some (k : string) (v : option string) (ann : StrMap) : StrMap :=
  match v with Some v => bt_insert k v ann | None => ann end.
Definition insert_observability (o : ObservabilityConfig) (ann : StrMap) : StrMap :=
  if ob_enabled o then
    let ann := bt_insert GATEWAY_ANNOTATION_OTEL_ENABLED (bool_string (ob_enabled o)) ann in
    let ann := bt_insert GATEWAY_ANNOTATION_OTEL_SERVICE_NAME (ob_service_name o) ann in
    let ann := bt_insert GATEWAY_ANNOTATION_OTEL_ENDPOINT (ob_otlp_endpoint o) ann in
    let ann := bt_insert GATEWAY_ANNOTATION_OTEL_PROTOCOL (otlp_to_string (ob_protocol o)) ann in
    let ann := bt_insert GATEWAY_ANNOTATION_OTEL_TRACES_ENABLED (bool_string (tc_enabled (ob_traces o))) ann in
    let ann := bt_insert GATEWAY_ANNOTATION_OTEL_TRACES_SAMPLE_RATIO (f64_to_string (tc_sample_ratio (ob_traces o))) ann in
    let ann := bt_insert GATEWAY_ANNOTATION_OTEL_METRICS_ENABLED (bool_string (mc_enabled (ob_metrics o))) ann in
    let ann := bt_insert GATEWAY_ANNOTATION_OTEL_METRICS_EXPORT_INTERVAL_MS (z_string (mc_export_interval_ms (ob_metrics o))) ann in
    let ann := bt_insert GATEWAY_ANNOTATION_OTEL_LOGS_ENABLED (bool_string (lc_enabled (ob_logs o))) ann in
    bt_insert GATEWAY_ANNOTATION_OTEL_LOGS_LEVEL (lc_level (ob_logs o)) ann
  else ann.
Definition parameters_into_kube (p : SgParameters) : StrMap :=
  let ann := insert_some GATEWAY_ANNOTATION_REDIS_URL (p_redis_url p) [] in
  let ann := insert_some GATEWAY_ANNOTATION_LOG_LEVEL (p_log_level p) ann in
  let ann := insert_some GATEWAY_ANNOTATION_LANGUAGE (p_lang p) ann in
  let ann := insert_some GATEWAY_ANNOTATION_IGNORE_TLS_VERIFICATION (bool_string <$> p_ignore_tls_verification p) ann in
  let ann := insert_some GATEWAY_ANNOTATION_ENABLE_X_REQUEST_ID (bool_string <$> p_enable_x_request_id p) ann in
  insert_observability (p_observability p) ann.

(** [v.parse().ok()] *)
Definition annotation_bool (k : string) (ann : StrMap) : option bool := v ← bt_get k ann; parse_bool v.
Definition observability_from_kube (ann : StrMap) : ObservabilityConfig :=
  let d := observability_default in
  MkObservability
    (default false (annotation_bool GATEWAY_ANNOTATION_OTEL_ENABLED ann))
    (default (ob_service_name d) (bt_get GATEWAY_ANNOTATION_OTEL_SERVICE_NAME ann))
    (default (ob_otlp_endpoint d) (bt_get GATEWAY_ANNOTATION_OTEL_ENDPOINT ann))
    (default OtlpGrpc (v ← bt_get GATEWAY_ANNOTATION_OTEL_PROTOCOL ann; result_ok (otlp_from_str v)))
    (MkTraceConfig (default false (annotation_bool GATEWAY_ANNOTATION_OTEL_TRACES_ENABLED ann))
       (default (tc_sample_ratio (ob_traces d)) (v ← bt_get GATEWAY_ANNOTATION_OTEL_TRACES_SAMPLE_RATIO ann; f64_parse v)))
    (MkMetricConfig (default false (annotation_bool GATEWAY_ANNOTATION_OTEL_METRICS_ENABLED ann))
       (default (mc_export_interval_ms (ob_metrics d))
          (v ← bt_get GATEWAY_ANNOTATION_OTEL_METRICS_EXPORT_INTERVAL_MS ann; parse_unsigned 64 v)))
    (MkLogConfig (default false (annotation_bool GATEWAY_ANNOTATION_OTEL_LOGS_ENABLED ann))
       (default (lc_level (ob_logs d)) (bt_get GATEWAY_ANNOTATION_OTEL_LOGS_LEVEL ann))).
Definition parameters_from_kube (g : KGateway) : SgParameters :=
  match md_annotations (o_meta g) with
  | Some ann =>
      MkSgParameters (bt_get GATEWAY_ANNOTATION_REDIS_URL ann) (bt_get GATEWAY_ANNOTATION_LOG_LEVEL ann)
        (bt_get GATEWAY_ANNOTATION_LANGUAGE ann)
        (annotation_bool GATEWAY_ANNOTATION_IGNORE_TLS_VERIFICATION ann)
        (annotation_bool GATEWAY_ANNOTATION_ENABLE_X_REQUEST_ID ann)
        (observability_from_kube ann)
  | None => parameters_default
  end.

Definition HTTP2_KEY : string := "http2".
Definition HTTP2_ENABLE : string := "true".

(** The secret of an HTTPS listener, under a name made from its key. *)
Definition secret_name (tls : SgTlsConfig) : string := pad_zero 16 (hex_string (default_hash (str_trim (tls_key tls)))).
Definition tls_secret (ns : string) (tls : SgTlsConfig) : Secret :=
  MkObject (meta_new (secret_name tls) ns None)
    (MkSecret (Some "kubernetes.io/tls")
       (Some [("tls.crt", str_trim (tls_cert tls)); ("tls.key", str_trim (tls_key tls))])) None.
Definition listener_tls (ns : string) (tls : SgTlsConfig) : GatewayTlsConfig :=
  MkGatewayTls (Some (to_pascal_case (tls_mode tls)))
    (Some [MkSecretRef (Some "Secret") (secret_name tls) (Some ns)])
    (Some [(HTTP2_KEY, bool_string (default false (tls_http2 tls)))]).
(** The listener, and the secret left by the listeners so far. *)
Definition listener_into_kube (ns : string) (secret : option Secret) (l : SgListener) : Listener * option Secret :=
  let listener := MkListener (l_name l) (l_hostname l) (l_port l) (protocol_to_string (l_protocol l)) in
  match l_protocol l with
  | ProtocolHttp => (listener None, secret)
  | ProtocolHttps tls => (listener (Some (listener_tls ns tls)), Some (tls_secret ns tls))
  end.
Fixpoint listeners_into_kube (ns : string) (secret : option Secret) (ls : list SgListener) : list Listener * option Secret :=
  match ls with
  | [] => ([], secret)
  | l :: ls =>
      let '(k, secret) := listener_into_kube ns secret l in
      let '(ks, secret) := listeners_into_kube ns secret ls in (k :: ks, secret)
  end.
Definition to_kube_gateway (g : Gateway_) (ns gateway_class_name : string) : KGateway * option Secret * list PluginBinding :=
  let '(listeners, secret) := listeners_into_kube ns None (g_listeners g) in
  (MkObject (meta_new (g_name g) ns (Some (parameters_into_kube (g_parameters g))))
     (MkGatewaySpec gateway_class_name listeners) None, secret, g_plugins g).
End gateways.
