(* ===== verification/K8sRoundtrip.v ===== *)
(** * Kubernetes: what survives a conversion

    Theorems on [K8sConv]: rules, backends and gateway parameters written to the cluster and
    read back. *)

From Stdlib Require Import SpecFloat.
From S2P Require Export K8sConv Gateway.
From S2P Require Import RefHttp.
Local Open Scope string_scope.
Local Open Scope list_scope.
Local Open Scope Z_scope.

(** ** Specification *)

(** The named plugins, in the order of their priorities, which are numbered anew. *)
Definition named_id (id : PluginInstanceId) : option PluginInstanceId :=
  match id_name id with Named _ => Some id | _ => None end.
Definition stored_bindings (bs : list PluginBinding) : list PluginBinding :=
  imap binding_of_index (omap (λ b, named_id (binding_id b)) (order_plugin_bindings bs)).

(** A backend keeps all but the port of a file, the missing protocol of a host and the protocol
    of a service. *)
Definition stored_port (b : SgBackendRef PluginBinding) : option Z :=
  match b_host b with HostFile _ => None | _ => b_port b end.
Definition stored_protocol (b : SgBackendRef PluginBinding) : option SgBackendProtocol :=
  match b_host b with
  | HostName _ => Some (default BackendProtocolHttp (b_protocol b))
  | _ => None
  end.
Definition stored_backend (b : SgBackendRef PluginBinding) : SgBackendRef PluginBinding :=
  MkBackendRef (b_host b) (stored_port b) (b_timeout_ms b) (b_timeout_mode b) (stored_protocol b)
    (b_downgrade_http2 b) (b_weight b) (stored_bindings (b_plugins b)).

(** A match becomes one match for each of its methods. *)
Definition nonblank (replace : option string) : option string :=
  r ← replace; if str_is_empty (str_trim r) then None else Some r.
Definition path_replace (p : SgHttpPathMatch) : option string :=
  match p with SgPathExact _ r | SgPathPrefix _ r | SgPathRegExp _ r => nonblank r end.
Definition stored_path (p : SgHttpPathMatch) : SgHttpPathMatch :=
  match p with
  | SgPathExact value r => SgPathExact value (nonblank r)
  | SgPathPrefix value r => SgPathPrefix value (nonblank r)
  | SgPathRegExp value _ => SgPathRegExp value None
  end.
Definition header_replaces (h : SgHttpHeaderMatch) : bool :=
  match h with SgHeaderExact _ _ (Some _) => true | _ => false end.
Definition plain_header (h : SgHttpHeaderMatch) : SgHttpHeaderMatch :=
  match h with
  | SgHeaderExact name value _ => SgHeaderExact name value None
  | SgHeaderRegExp name re _ => SgHeaderRegExp name re None
  end.
Definition stored_headers (hs : option (list SgHttpHeaderMatch)) : option (list SgHttpHeaderMatch) :=
  match sort_by (λ a b, negb (header_replaces b && negb (header_replaces a))) (default [] hs) with
  | [] => None
  | hs => Some (plain_header <$> hs)
  end.
Definition stored_match (m : SgHttpRouteMatch) : list SgHttpRouteMatch :=
  match sm_method m with
  | Some methods => (λ method, MkSgMatch (stored_path <$> sm_path m) (stored_headers (sm_header m)) (sm_query m) (Some [method])) <$> methods
  | None => [MkSgMatch (stored_path <$> sm_path m) None (sm_query m) None]
  end.
Definition stored_matches (ms : list SgHttpRouteMatch) : list SgHttpRouteMatch := mjoin (stored_match <$> ms).

Definition match_rewrites (m : SgHttpRouteMatch) : bool :=
  bool_decide (is_Some (p ← sm_path m; path_replace p)) && negb (bool_decide (sm_method m = Some [])).
(** A rule that is stored but cannot be read. *)
Definition unreadable (r : SgHttpRouteRule PluginBinding) : bool :=
  match sr_matches r with
  | Some ms => Nat.ltb 1 (length (stored_matches ms)) && existsb match_rewrites ms
  | None => false
  end.
Definition stored_rule (r : SgHttpRouteRule PluginBinding) : SgHttpRouteRule PluginBinding :=
  MkSgRule (stored_matches <$> sr_matches r) (stored_bindings (sr_plugins r)) (stored_backend <$> sr_backends r)
    (sr_timeout_ms r) (sr_timeout_mode r) None.

(** ** Plugins and backends *)

Lemma from_to_http_route_filter id : to_http_route_filter id ≫= from_http_route_filter = named_id id.
Proof. destruct id as [code []]; done. Qed.
Lemma to_http_route_filter_ref id f : to_http_route_filter id = Some f → is_extension_ref f = true.
Proof. unfold to_http_route_filter. destruct (id_name id); naive_solver. Qed.
Lemma filters_of_bindings_refs bs : List.filter is_extension_ref (filters_of_bindings bs) = filters_of_bindings bs.
Proof.
  unfold filters_of_bindings. induction (order_plugin_bindings bs) as [|b l IH]; [done|].
  cbn [omap list_omap]. destruct (to_http_route_filter (binding_id b)) as [f|] eqn:E; [|exact IH].
  cbn [List.filter]. rewrite (to_http_route_filter_ref _ _ E). by f_equal.
Qed.
Lemma omap_filters bs :
  omap from_http_route_filter (filters_of_bindings bs) = omap (λ b, named_id (binding_id b)) (order_plugin_bindings bs).
Proof.
  unfold filters_of_bindings. induction (order_plugin_bindings bs) as [|b l IH]; [done|].
  cbn [omap list_omap]. rewrite <- from_to_http_route_filter.
  destruct (to_http_route_filter (binding_id b)) as [f|] eqn:E; cbn; [|done].
  destruct (from_http_route_filter f); [by f_equal|done].
Qed.
Lemma bindings_read_back fs bs : List.filter is_extension_ref fs = [] →
  bindings_from_filters (fs ++ filters_of_bindings bs) = stored_bindings bs.
Proof.
  intros Hfs. unfold bindings_from_filters, stored_bindings.
  rewrite List.filter_app, Hfs, filters_of_bindings_refs. cbn [app]. by rewrite omap_filters.
Qed.

Lemma backend_bindings_read bs : bindings_from_filters (filters_of_bindings bs) = stored_bindings bs.
Proof. apply (bindings_read_back [] bs eq_refl). Qed.
Lemma backend_reads_back b : backend_from_kube (backend_into_kube b) = Ok (Some (stored_backend b)).
Proof.
  unfold backend_from_kube, backend_into_kube. cbn [khb_backend_ref khb_filters default from_option id transpose_map kb_inner].
  rewrite backend_bindings_read. unfold stored_backend, stored_port, stored_protocol, host_from_kube, backend_object_of.
  destruct b as [[host|[n ns]|path] port ms mode [[]|] down weight plugins]; reflexivity.
Qed.
Lemma backends_read_back bs : backends_from_kube (backend_into_kube <$> bs) = Ok (stored_backend <$> bs).
Proof.
  unfold backends_from_kube.
  assert (collect_results backend_from_kube (backend_into_kube <$> bs) = Ok ((λ b, Some (stored_backend b)) <$> bs)) as ->.
  - induction bs as [|b bs IH]; [done|]. rewrite !fmap_cons. cbn [collect_results]. rewrite backend_reads_back. cbn.
    by rewrite IH.
  - cbn. f_equal. induction bs as [|b bs IH]; [done|]. cbn. by f_equal.
Qed.

(** ** Matches *)

Lemma query_reads_back q : query_from_kube (query_into_kube q) = q.
Proof. by destruct q. Qed.
Lemma queries_read_back (qs : option (list SgHttpQueryMatch)) :
  fmap (M:=list) query_from_kube <$> (fmap (M:=list) query_into_kube <$> qs) = qs.
Proof.
  destruct qs as [qs|]; [|done]. cbn. f_equal. rewrite <- list_fmap_compose. rewrite <- (list_fmap_id qs) at 2.
  apply list_fmap_ext. intros i q _. apply query_reads_back.
Qed.

Section sort_fmap.
Context {A B : Type} (f : A → B) (before : B → B → bool).
Lemma sort_insert_fmap x l : sort_insert before (f x) (f <$> l) = f <$> sort_insert (λ a b, before (f a) (f b)) x l.
Proof.
  induction l as [|y l IH]; [done|]. cbn. destruct (before (f x) (f y)); [done|]. cbn. f_equal. exact IH.
Qed.
Lemma sort_by_fmap l : sort_by before (f <$> l) = f <$> sort_by (λ a b, before (f a) (f b)) l.
Proof. induction l as [|x l IH]; [done|]. cbn [sort_by]. rewrite fmap_cons. cbn [sort_by]. by rewrite IH, sort_insert_fmap. Qed.
End sort_fmap.
Lemma sort_by_ext {A} (b1 b2 : A → A → bool) l : (∀ x y, b1 x y = b2 x y) → sort_by b1 l = sort_by b2 l.
Proof.
  intros Hb. induction l as [|x l IH]; [done|]. cbn. rewrite IH. generalize (sort_by b2 l) as k.
  induction k as [|y k IHk]; [done|]. cbn. rewrite Hb. destruct (b2 x y); [done|]. by rewrite IHk.
Qed.

Lemma header_into_replaces h : bool_decide (is_Some (header_into_kube h).2) = header_replaces h.
Proof. by destruct h as [? ? []|]. Qed.
Lemma headers_into_kube_spec hs :
  headers_into_kube hs =
    (λ h, (header_into_kube h).1) <$> sort_by (λ a b, negb (header_replaces b && negb (header_replaces a))) (default [] hs).
Proof.
  unfold headers_into_kube. rewrite sort_by_fmap, <- list_fmap_compose. f_equal. apply sort_by_ext.
  intros x y. unfold header_before. by rewrite !header_into_replaces.
Qed.
Lemma headers_read_back hs :
  fmap (M:=list) header_from_kube <$> (match headers_into_kube hs with [] => None | _ => Some (headers_into_kube hs) end) =
  stored_headers hs.
Proof.
  rewrite headers_into_kube_spec. unfold stored_headers. destruct (sort_by _ (default [] hs)) as [|h l]; [done|].
  cbn. f_equal. f_equal; [by destruct h|]. rewrite <- list_fmap_compose. apply list_fmap_ext. by intros ? [] _.
Qed.

(** The path of a match as the cluster keeps it, without its rewrite. *)
Definition plain_path (p : SgHttpPathMatch) : SgHttpPathMatch := path_from_kube (path_into_kube p).1.
Definition plain_match (m : SgHttpRouteMatch) : SgHttpRouteMatch :=
  set_match_path (plain_path <$> sm_path m) m.
Definition match_filter (m : SgHttpRouteMatch) : option HttpRouteFilter := (match_path_into_kube m).2.

Lemma match_path_read m : path_from_kube <$> (match_path_into_kube m).1 = plain_path <$> sm_path m.
Proof.
  unfold match_path_into_kube. destruct (sm_path m) as [p|]; [|done]. cbn. unfold plain_path.
  by destruct (path_into_kube p).
Qed.
Lemma match_for_method_read m method :
  match_from_kube (match_for_method m method).1 =
  MkSgMatch (plain_path <$> sm_path m) (stored_headers (sm_header m)) (sm_query m) (Some [method]).
Proof.
  rewrite <- match_path_read, <- headers_read_back, <- (queries_read_back (sm_query m)).
  unfold match_for_method. by destruct (match_path_into_kube m).
Qed.
Lemma match_without_method_read m :
  match_from_kube (match_without_method m).1 = MkSgMatch (plain_path <$> sm_path m) None (sm_query m) None.
Proof.
  rewrite <- match_path_read, <- (queries_read_back (sm_query m)).
  unfold match_without_method. by destruct (match_path_into_kube m).
Qed.
Lemma match_for_method_filter m method : (match_for_method m method).2 = match_filter m.
Proof. unfold match_for_method, match_filter. by destruct (match_path_into_kube m). Qed.
Lemma match_without_method_filter m : (match_without_method m).2 = match_filter m.
Proof. unfold match_without_method, match_filter. by destruct (match_path_into_kube m). Qed.

(** The matches and the filters of a match. *)
Lemma match_into_kube_read m :
  match_from_kube <$> (match_into_kube m).1 = set_match_path (plain_path <$> sm_path m) <$> stored_match m.
Proof.
  unfold match_into_kube, stored_match. destruct (sm_method m) as [methods|]; cbn [fst].
  - rewrite <- !list_fmap_compose. apply list_fmap_ext. intros i method _. apply match_for_method_read.
  - cbn. by rewrite match_without_method_read.
Qed.
Definition match_copies (m : SgHttpRouteMatch) : nat := length (stored_match m).
Lemma match_filters m : (match_into_kube m).2 = match match_filter m with Some f => replicate (match_copies m) f | None => [] end.
Proof.
  unfold match_into_kube, match_copies, stored_match. destruct (sm_method m) as [methods|]; cbn [snd].
  - rewrite length_fmap. induction methods as [|method methods IH]; cbn; [by destruct (match_filter m)|].
    rewrite match_for_method_filter. destruct (match_filter m) as [f|]; [|done]. cbn. by f_equal.
  - cbn. rewrite match_without_method_filter. by destruct (match_filter m).
Qed.
Lemma match_filter_rewrite m f : match_filter m = Some f →
  is_url_rewrite f = true ∧ is_extension_ref f = false ∧ is_request_header_modifier f = false.
Proof.
  unfold match_filter, match_path_into_kube. destruct (sm_path m) as [[v r|v r|v r]|]; [| | |done]; cbn; unfold rewrite_filter;
    destruct r as [r|]; cbn; try done; destruct (str_is_empty (str_trim r)); cbn; naive_solver.
Qed.
(** Applied to the path without its rewrite, the filter gives the path that is kept. *)
Lemma match_filter_applied m :
  match match_filter m with Some f => rewritten_by f <$> (plain_path <$> sm_path m) | None => plain_path <$> sm_path m end =
  stored_path <$> sm_path m.
Proof.
  unfold match_filter, match_path_into_kube. destruct (sm_path m) as [[v r|v r|v r]|]; [| | |done]; cbn; unfold rewrite_filter, nonblank;
    destruct r as [r|]; cbn; try done; by destruct (str_is_empty (str_trim r)).
Qed.
Lemma match_filter_none m : match_filter m = None ↔ (p ← sm_path m; path_replace p) = None.
Proof.
  unfold match_filter, match_path_into_kube. destruct (sm_path m) as [[v r|v r|v r]|]; [| | |done]; cbn; unfold rewrite_filter, nonblank;
    destruct r as [r|]; cbn; try done; by destruct (str_is_empty (str_trim r)).
Qed.

Lemma stored_match_path m x : x ∈ stored_match m → sm_path x = stored_path <$> sm_path m.
Proof.
  unfold stored_match. destruct (sm_method m) as [methods|].
  - by intros (method & -> & _)%list_elem_of_fmap.
  - by intros ->%list_elem_of_singleton.
Qed.
Lemma stored_match_plain m : match_filter m = None →
  set_match_path (plain_path <$> sm_path m) <$> stored_match m = stored_match m.
Proof.
  intros Hf. pose proof (match_filter_applied m) as Ha. rewrite Hf in Ha. rewrite Ha.
  rewrite <- (list_fmap_id (stored_match m)) at 2. apply list_fmap_ext. intros i x Hx.
  apply list_elem_of_lookup_2, stored_match_path in Hx. unfold set_match_path. rewrite <- Hx. by destruct x.
Qed.
Lemma match_copies_zero m : match_copies m = 0%nat ↔ sm_method m = Some [].
Proof.
  unfold match_copies, stored_match. destruct (sm_method m) as [[|? ?]|]; cbn; rewrite ?length_fmap; naive_solver lia.
Qed.
Lemma match_rewrites_spec m : match_rewrites m = true ↔ is_Some (match_filter m) ∧ match_copies m ≠ 0%nat.
Proof.
  unfold match_rewrites. rewrite andb_true_iff, negb_true_iff, bool_decide_eq_true, bool_decide_eq_false, match_copies_zero.
  rewrite <- !not_eq_None_Some, match_filter_none. done.
Qed.

(** The filters of the matches: rewrites, none of them a reference. *)
Lemma matches_filters ms : (matches_into_kube ms).2 =
  mjoin ((λ m, match match_filter m with Some f => replicate (match_copies m) f | None => [] end) <$> ms).
Proof. unfold matches_into_kube. cbn [snd]. f_equal. rewrite <- list_fmap_compose. apply list_fmap_ext. intros i m _. apply match_filters. Qed.
Lemma matches_filters_elem ms f : f ∈ (matches_into_kube ms).2 →
  is_url_rewrite f = true ∧ is_extension_ref f = false ∧ is_request_header_modifier f = false.
Proof.
  rewrite matches_filters. intros (l & Hf & Hl)%list_elem_of_join. apply list_elem_of_fmap in Hl as (m & -> & _).
  destruct (match_filter m) as [g|] eqn:E; [|set_solver]. apply elem_of_replicate in Hf as [-> _].
  by eapply match_filter_rewrite.
Qed.
Lemma matches_read ms : match_from_kube <$> (matches_into_kube ms).1 =
  mjoin ((λ m, set_match_path (plain_path <$> sm_path m) <$> stored_match m) <$> ms).
Proof.
  unfold matches_into_kube. cbn [fst]. induction ms as [|m ms IH]; [done|]. cbn. rewrite fmap_app. f_equal; [|exact IH].
  apply match_into_kube_read.
Qed.
Lemma matches_length ms : length (matches_into_kube ms).1 = length (stored_matches ms).
Proof.
  rewrite <- (length_fmap match_from_kube), matches_read. unfold stored_matches. induction ms as [|m ms IH]; [done|].
  cbn. rewrite !length_app, length_fmap. by f_equal.
Qed.
Lemma matches_rewrite ms : existsb is_url_rewrite (matches_into_kube ms).2 = existsb match_rewrites ms.
Proof.
  apply eq_true_iff_eq. rewrite !existsb_Exists, !Exists_exists. split.
  - intros (f & Hf & _). rewrite matches_filters in Hf. apply list_elem_of_join in Hf as (l & Hf & Hl).
    apply list_elem_of_fmap in Hl as (m & -> & Hm). exists m. split; [done|]. apply match_rewrites_spec.
    destruct (match_filter m); [|set_solver]. apply elem_of_replicate in Hf as [_ ?]. done.
  - intros (m & Hm & ([f Hf] & Hc)%match_rewrites_spec). exists f.
    assert (f ∈ (matches_into_kube ms).2) as Hin; [|split; [exact Hin|]; by apply matches_filters_elem in Hin as [? _]].
    rewrite matches_filters. apply list_elem_of_join. exists (replicate (match_copies m) f). split; [by apply elem_of_replicate|].
    apply list_elem_of_fmap. exists m. by rewrite Hf.
Qed.

Lemma filter_all {A} (p : A → bool) l : (∀ x, x ∈ l → p x = true) → List.filter p l = l.
Proof. induction l as [|x l IH]; intros Hl; [done|]. cbn. rewrite Hl by left. f_equal. apply IH. intros y Hy. apply Hl. by right. Qed.
Lemma filter_none {A} (p : A → bool) l : (∀ x, x ∈ l → p x = false) → List.filter p l = [].
Proof. induction l as [|x l IH]; intros Hl; [done|]. cbn. rewrite Hl by left. apply IH. intros y Hy. apply Hl. by right. Qed.
Lemma existsb_none {A} (p : A → bool) l : (∀ x, x ∈ l → p x = false) → existsb p l = false.
Proof. intros Hl. apply not_true_iff_false. rewrite existsb_Exists, Exists_exists. intros (x & Hx & Hp). by rewrite Hl in Hp. Qed.

Lemma mjoin_cons {A} (x : list A) l : mjoin (x :: l) = x ++ mjoin l.
Proof. done. Qed.
(** One match in the cluster comes from one match of the rule. *)
Lemma one_stored_match ms : length (stored_matches ms) = 1%nat →
  ∃ m x, stored_matches ms = [x] ∧ stored_match m = [x] ∧
    mjoin ((λ m, set_match_path (plain_path <$> sm_path m) <$> stored_match m) <$> ms) = [set_match_path (plain_path <$> sm_path m) x] ∧
    (matches_into_kube ms).2 = match match_filter m with Some f => [f] | None => [] end.
Proof.
  rewrite matches_filters. unfold stored_matches. induction ms as [|m ms IH]; [done|].
  rewrite !fmap_cons, !mjoin_cons, length_app. intros Hl.
  destruct (stored_match m) as [|x [|y l]] eqn:E.
  - destruct (IH Hl) as (m' & x & -> & Hm & -> & ->). exists m', x. split_and!; [done..|].
    unfold match_copies. rewrite E. cbn. by destruct (match_filter m).
  - cbn in Hl. assert (length (mjoin (stored_match <$> ms)) = 0%nat) as H0 by lia. exists m, x.
    assert (∀ m', m' ∈ ms → stored_match m' = []) as Hms.
    { intros m' Hm'. apply nil_length_inv in H0. destruct (stored_match m') as [|z zs] eqn:Ez; [done|]. exfalso.
      assert (z ∈ mjoin (stored_match <$> ms)) as Hz; [|rewrite H0 in Hz; set_solver].
      apply list_elem_of_join. exists (stored_match m'). rewrite Ez. split; [left|]. apply list_elem_of_fmap. by exists m'. }
    assert (∀ {B} (g : SgHttpRouteMatch → list B), (∀ m', m' ∈ ms → g m' = []) → mjoin (g <$> ms) = []) as Hj.
    { clear. intros B g Hg. induction ms as [|m ms IH]; [done|]. cbn. rewrite Hg by left. apply IH. intros m' Hm'. apply Hg. by right. }
    rewrite (Hj _ stored_match Hms).
    rewrite (Hj _ (λ m, set_match_path (plain_path <$> sm_path m) <$> stored_match m)) by (intros m' Hm'; by rewrite Hms).
    rewrite Hj by (intros m' Hm'; unfold match_copies; rewrite Hms by done; by destruct (match_filter m')).
    unfold match_copies. rewrite E. split_and!; [done..|]. by destruct (match_filter m).
  - cbn in Hl. lia.
Qed.

Lemma matches_from_kube_many legacy k1 k2 ks : matches_from_kube legacy (k1 :: k2 :: ks) =
  if existsb is_url_rewrite legacy then Err "url_rewrite is not supported with multiple matches"
  else if existsb is_request_header_modifier legacy
  then Err "request_header_modifier is not supported with multiple matches"
  else Ok (match_from_kube <$> (k1 :: k2 :: ks)).
Proof. done. Qed.
Lemma set_match_path_get p m : sm_path (set_match_path p m) = p.
Proof. done. Qed.
Lemma set_match_path_same m : set_match_path (sm_path m) m = m.
Proof. by destruct m. Qed.
Lemma set_match_path_twice p q m : sm_path m = q → set_match_path q (set_match_path p m) = m.
Proof. intros <-. by destruct m. Qed.
Lemma matches_read_back ms :
  matches_from_kube (matches_into_kube ms).2 (matches_into_kube ms).1 =
    if Nat.ltb 1 (length (stored_matches ms)) && existsb match_rewrites ms
    then Err "url_rewrite is not supported with multiple matches" else Ok (stored_matches ms).
Proof.
  pose proof (matches_length ms) as Hlen. pose proof (matches_read ms) as Hread. pose proof (matches_rewrite ms) as Hrw.
  pose proof (matches_filters_elem ms) as Hfs.
  destruct (matches_into_kube ms).1 as [|k1 [|k2 ks]] eqn:Ek.
  - cbn in Hlen. destruct (stored_matches ms); [done|]. cbn in Hlen. lia.
  - destruct (one_stored_match ms (eq_sym Hlen)) as (m & x & Hx & Hm & Hj & Hf). rewrite Hx. rewrite Hj in Hread.
    assert (match_from_kube k1 = set_match_path (plain_path <$> sm_path m) x) as Hk by
      exact (f_equal (λ l, default x (head l)) Hread).
    cbn [length Nat.ltb Nat.leb andb]. unfold matches_from_kube. rewrite Hk.
    assert (stored_match m = [x] → sm_path x = stored_path <$> sm_path m) as Hp by
      (intros Hs; apply stored_match_path; rewrite Hs; left).
    specialize (Hp Hm). pose proof (match_filter_applied m) as Ha. rewrite Hf. destruct (match_filter m) as [f|] eqn:Em.
    + destruct (match_filter_rewrite m f Em) as [Hu _]. cbn [List.filter]. rewrite Hu.
      rewrite set_match_path_get, Ha, set_match_path_twice by done. done.
    + cbn [List.filter]. rewrite Ha, <- Hp. by rewrite set_match_path_same.
  - rewrite matches_from_kube_many, Hrw, Hread. rewrite <- Hlen. cbn [length Nat.ltb Nat.leb andb].
    rewrite (existsb_none is_request_header_modifier) by (intros f Hf; by apply Hfs).
    destruct (existsb match_rewrites ms) eqn:Eb; [done|]. f_equal. unfold stored_matches. f_equal.
    apply list_fmap_ext. intros i m Hm. apply list_elem_of_lookup_2 in Hm.
    destruct (decide (match_copies m = 0%nat)) as [Hc|Hc].
    { unfold match_copies in Hc. by apply nil_length_inv in Hc as ->. }
    apply stored_match_plain. destruct (match_filter m) eqn:Em; [|done]. exfalso.
    assert (existsb match_rewrites ms = true); [|congruence]. apply existsb_Exists, Exists_exists. exists m. split; [done|].
    apply match_rewrites_spec. by rewrite Em.
Qed.

Lemma rule_read_back r :
  rule_from_kube (rule_into_kube r) =
    if unreadable r then Err "url_rewrite is not supported with multiple matches" else Ok (stored_rule r).
Proof.
  unfold rule_from_kube, rule_into_kube, unreadable, stored_rule. destruct (sr_matches r) as [ms|].
  - pose proof (matches_filters_elem ms) as Hfs. pose proof (matches_read_back ms) as Hms.
    destruct (matches_into_kube ms) as [ks fs]. cbn [fst snd] in *.
    cbn [kr_filters kr_matches kr_backend_refs kr_timeout_ms kr_timeout_mode default from_option id transpose_map fmap option_fmap option_map].
    rewrite List.filter_app, (filter_all _ fs), (filter_none _ (filters_of_bindings _)), app_nil_r, Hms.
    + destruct (Nat.ltb 1 _ && existsb match_rewrites ms); [done|]. cbn [result_bind].
      rewrite backends_read_back, bindings_read_back; [done|]. apply filter_none. intros f Hf. by apply Hfs.
    + intros f Hf. rewrite <- filters_of_bindings_refs in Hf. apply list_elem_of_In, filter_In in Hf as [_ ->]. done.
    + intros f Hf. by rewrite (proj1 (proj2 (Hfs f Hf))).
  - cbn [kr_filters kr_matches kr_backend_refs kr_timeout_ms kr_timeout_mode default from_option id transpose_map fmap option_fmap option_map app result_bind].
    by rewrite backends_read_back, backend_bindings_read.
Qed.

(** ** What was read back is read back again *)

Definition numbered (bs : list PluginBinding) : Prop := Z.of_nat (length bs) ≤ 2 ^ 24.

Lemma sort_by_descending {A} (before : A → A → bool) l :
  StronglySorted (λ x y, before x y = true) l → sort_by before l = l.
Proof.
  induction 1 as [|x l Hl IH Hx]; [done|]. cbn [sort_by]. rewrite IH. destruct l as [|y l]; [done|].
  cbn. apply Forall_cons in Hx as [-> _]. done.
Qed.
Lemma imap_sorted (ids : list PluginInstanceId) i :
  Z.of_nat i + Z.of_nat (length ids) ≤ 2 ^ 24 →
  StronglySorted (λ x y, (binding_priority y <=? binding_priority x) = true) (imap (λ j, binding_of_index (i + j)) ids).
Proof.
  revert i. induction ids as [|id ids IH]; intros i Hi; [constructor|]. rewrite imap_cons. cbn [length] in Hi.
  assert (imap ((λ j, binding_of_index (i + j)) ∘ S) ids = imap (λ j, binding_of_index (S i + j)) ids) as ->.
  { apply imap_ext. intros j x _. cbn. f_equal. lia. }
  constructor; [apply IH; lia|]. apply Forall_forall. intros b (j & x & -> & Hx)%elem_of_lookup_imap_1.
  apply lookup_lt_Some in Hx. apply Z.leb_le. unfold binding_of_index. cbn [binding_priority].
  rewrite !swrap_id by (unfold in_signed; lia). lia.
Qed.
Lemma omap_named_imap (g : nat → PluginInstanceId → PluginBinding) ids : (∀ i id, binding_id (g i id) = id) →
  omap (λ b, named_id (binding_id b)) (imap g ids) = omap named_id ids.
Proof.
  revert g. induction ids as [|id ids IH]; intros g Hg; [done|]. rewrite imap_cons. cbn [omap list_omap]. rewrite Hg.
  destruct (named_id id); [f_equal|]; (apply IH; intros; apply Hg).
Qed.
Lemma named_ids_named (bs : list PluginBinding) :
  omap named_id (omap (λ b, named_id (binding_id b)) bs) = omap (λ b, named_id (binding_id b)) bs.
Proof.
  induction bs as [|b bs IH]; [done|]. cbn [omap list_omap]. destruct (named_id (binding_id b)) as [id|] eqn:E; [|exact IH].
  cbn [omap list_omap]. assert (named_id id = Some id) as ->.
  { unfold named_id in *. destruct (id_name (binding_id b)) eqn:En; simplify_eq. by rewrite En. }
  by f_equal.
Qed.
Lemma length_omap_le {A B} (f : A → option B) l : (length (omap f l) ≤ length l)%nat.
Proof. induction l as [|x l IH]; [done|]. cbn. destruct (f x); cbn; lia. Qed.
Lemma stored_bindings_again bs : numbered bs → stored_bindings (stored_bindings bs) = stored_bindings bs.
Proof.
  unfold numbered. intros Hn. unfold stored_bindings at 1. unfold order_plugin_bindings at 1.
  rewrite sort_by_descending.
  - unfold stored_bindings at 1. rewrite omap_named_imap by done. by rewrite named_ids_named.
  - apply (imap_sorted _ 0). pose proof (length_omap_le (λ b, named_id (binding_id b)) (order_plugin_bindings bs)) as Hl.
    rewrite (Permutation_length (proj1 (order_plugin_bindings_spec bs))) in Hl. lia.
Qed.
Lemma stored_backend_again b : numbered (b_plugins b) → stored_backend (stored_backend b) = stored_backend b.
Proof.
  intros Hb. destruct b as [[host|d|path] port ms mode protocol down weight plugins]; unfold stored_backend, stored_port, stored_protocol;
    cbn [b_host b_port b_timeout_ms b_timeout_mode b_protocol b_downgrade_http2 b_weight b_plugins] in *;
    by rewrite stored_bindings_again.
Qed.

Lemma nonblank_again r : nonblank (nonblank r) = nonblank r.
Proof. destruct r as [r|]; [|done]. cbn. destruct (str_is_empty (str_trim r)) eqn:E; [done|]. cbn. by rewrite E. Qed.
Lemma stored_path_again p : stored_path (stored_path p) = stored_path p.
Proof. destruct p; cbn; by rewrite ?nonblank_again. Qed.
Lemma stored_headers_again hs : stored_headers (stored_headers hs) = stored_headers hs.
Proof.
  unfold stored_headers at 2 3. set (l := sort_by _ (default [] hs)). clearbody l. destruct l as [|h l]; [done|].
  unfold stored_headers. cbn [default from_option id].
  assert (∀ l : list SgHttpHeaderMatch, sort_by (λ a b, negb (header_replaces b && negb (header_replaces a))) (plain_header <$> l) =
    plain_header <$> l) as Hs.
  { clear. intros l. apply sort_by_descending. induction l as [|h l IH]; constructor; [exact IH|].
    apply Forall_forall. intros y (x & -> & _)%list_elem_of_fmap. by destruct x. }
  rewrite (Hs (h :: l)). cbn. f_equal. f_equal; [by destruct h|]. rewrite <- list_fmap_compose. apply list_fmap_ext. by intros ? [] _.
Qed.
Lemma stored_match_again m x : x ∈ stored_match m → stored_match x = [x].
Proof.
  unfold stored_match at 1. destruct (sm_method m) as [methods|].
  - intros (method & -> & _)%list_elem_of_fmap. unfold stored_match. cbn. rewrite stored_headers_again.
    destruct (sm_path m); cbn; by rewrite ?stored_path_again.
  - intros ->%list_elem_of_singleton. unfold stored_match. cbn. destruct (sm_path m); cbn; by rewrite ?stored_path_again.
Qed.
Lemma stored_matches_elem ms x : x ∈ stored_matches ms ↔ ∃ m, m ∈ ms ∧ x ∈ stored_match m.
Proof. unfold stored_matches. rewrite list_elem_of_join. setoid_rewrite list_elem_of_fmap. naive_solver. Qed.
Lemma stored_matches_again ms : stored_matches (stored_matches ms) = stored_matches ms.
Proof.
  assert (∀ l, (∀ x, x ∈ l → stored_match x = [x]) → stored_matches l = l) as Hl.
  { intros l. unfold stored_matches. induction l as [|x l IH]; intros Hx; [done|]. rewrite fmap_cons, mjoin_cons, Hx by left.
    rewrite IH; [done|]. intros y Hy. apply Hx. by right. }
  apply Hl. intros x (m & _ & Hx)%stored_matches_elem. by eapply stored_match_again.
Qed.
Lemma stored_matches_rewrite ms : existsb match_rewrites ms = false → existsb match_rewrites (stored_matches ms) = false.
Proof.
  intros Hms. apply existsb_none. intros x (m & Hm & Hx)%stored_matches_elem. apply not_true_iff_false. intros [Hr _]%andb_true_iff.
  apply bool_decide_eq_true in Hr. apply stored_match_path in Hx as Hp. rewrite Hp in Hr.
  assert (existsb match_rewrites ms = true); [|congruence]. apply existsb_Exists, Exists_exists. exists m. split; [done|].
  unfold match_rewrites. apply andb_true_iff. split.
  - apply bool_decide_eq_true. destruct (sm_path m) as [[v r|v r|v r]|]; cbn in *; rewrite ?nonblank_again in Hr; [done..| |done].
    by destruct Hr.
  - apply negb_true_iff, bool_decide_eq_false. intros E. unfold stored_match in Hx. rewrite E in Hx. set_solver.
Qed.
Lemma stored_rule_again r : numbered (sr_plugins r) → Forall (λ b, numbered (b_plugins b)) (sr_backends r) →
  stored_rule (stored_rule r) = stored_rule r.
Proof.
  intros Hr Hb. unfold stored_rule at 1. cbn [sr_matches sr_plugins sr_backends sr_timeout_ms sr_timeout_mode stored_rule].
  rewrite stored_bindings_again by done. unfold stored_rule. f_equal.
  - destruct (sr_matches r) as [ms|]; [|done]. cbn. by rewrite stored_matches_again.
  - induction Hb as [|b bs Hb _ IH]; [done|]. rewrite !fmap_cons. by rewrite stored_backend_again, IH.
Qed.

(** C27: what the cluster keeps of a rule: a rule that is written is read back as [stored_rule]
    of it, with a match for each method, the bindings of its named plugins in their order, its
    timeouts and its backends, less the replacement of a path that is blank or of a regular
    expression, the replacements of headers and the balance policy; unless it was written as
    several matches of which one rewrites, when reading it is refused. What was read back is
    written and read back unchanged. *)
Theorem rule_reads_back r :
  numbered (sr_plugins r) → Forall (λ b, numbered (b_plugins b)) (sr_backends r) →
  rule_from_kube (rule_into_kube r) =
    (if unreadable r then Err "url_rewrite is not supported with multiple matches" else Ok (stored_rule r)) ∧
  (unreadable r = false → rule_from_kube (rule_into_kube (stored_rule r)) = Ok (stored_rule r)).
Proof.
  intros Hr Hb. split; [apply rule_read_back|]. intros Hu. rewrite rule_read_back, stored_rule_again by done.
  destruct (unreadable (stored_rule r)) eqn:E; [|done]. unfold unreadable, stored_rule in *. cbn [sr_matches] in E.
  destruct (sr_matches r) as [ms|]; [|done]. cbn [fmap option_fmap option_map] in E. rewrite stored_matches_again in E.
  apply andb_true_iff in E as [E1 E2]. rewrite E1 in Hu. by rewrite stored_matches_rewrite in E2.
Qed.

(** ** The requests of a rule that was read back *)

Section accepts.
Context `{HttpLib} `{!MatchParsers}.

Definition is_ok {A E} (r : result A E) : Prop := match r with Ok _ => True | Err _ => False end.
(** Whether the matcher that [f] makes of [x] accepts a request. *)
Definition accepts {A B} `{MatchRequest B} (f : A → result B ConvertError) (req : Request) (x : A) : bool :=
  match f x with Ok y => match_request y req | Err _ => false end.
Lemma collect_results_is_ok {A B E} (f : A → result B E) l : is_ok (collect_results f l) ↔ Forall (λ x, is_ok (f x)) l.
Proof.
  induction l as [|x l IH]; [done|]. rewrite Forall_cons, <- IH. cbn. destruct (f x); cbn; [|naive_solver].
  destruct (collect_results f l); cbn; naive_solver.
Qed.
Lemma collect_accepts {A B} `{MatchRequest B} (f : A → result B ConvertError) l req :
  is_ok (collect_results f l) → accepts (collect_results f) req l = existsb (accepts f req) l.
Proof.
  unfold accepts at 1. induction l as [|x l IH]; [done|]. cbn. unfold accepts at 1. destruct (f x) as [y|]; cbn; [|done].
  destruct (collect_results f l) as [ys|] eqn:E; cbn; [|done]. intros _. unfold match_request, match_vec. cbn.
  f_equal. by apply IH.
Qed.
Lemma transpose_is_ok {A B E} (f : A → result B E) o : is_ok (transpose_map f o) ↔ ∀ x, o = Some x → is_ok (f x).
Proof.
  destruct o as [x|]; cbn; [|naive_solver]. split.
  - intros Hx ? [= <-]. by destruct (f x).
  - intros Hx. specialize (Hx x eq_refl). by destruct (f x).
Qed.
Lemma transpose_accepts {A B} `{MatchRequest B} (f : A → result B ConvertError) o req :
  is_ok (transpose_map f o) → accepts (transpose_map f) req o = match o with Some x => accepts f req x | None => true end.
Proof. unfold accepts. destruct o as [x|]; cbn; [|done]. by destruct (f x). Qed.

(** The parts of a match. *)
Definition accepts_parts (req : Request) (m : SgHttpRouteMatch) : bool :=
  match sm_path m with Some p => accepts convert_path req p | None => true end &&
  match sm_header m with Some hs => existsb (accepts convert_header req) hs | None => true end &&
  match sm_query m with Some qs => existsb (accepts convert_query req) qs | None => true end &&
  match sm_method m with Some ms => existsb (eq_ignore_ascii_case (req_method req)) ms | None => true end.
Definition convertible (m : SgHttpRouteMatch) : Prop :=
  (∀ p, sm_path m = Some p → is_ok (convert_path p)) ∧
  (∀ hs, sm_header m = Some hs → Forall (λ h, is_ok (convert_header h)) hs) ∧
  (∀ qs, sm_query m = Some qs → Forall (λ q, is_ok (convert_query q)) qs).

Lemma convert_is_ok m : is_ok (convert_config_to_kernel m) ↔ convertible m.
Proof.
  unfold convertible. setoid_rewrite <- collect_results_is_ok. rewrite <- !transpose_is_ok. unfold convert_config_to_kernel.
  destruct (transpose_map convert_path _); cbn; [|naive_solver].
  destruct (transpose_map _ (sm_header m)); cbn; [|naive_solver].
  destruct (transpose_map _ (sm_query m)); cbn; naive_solver.
Qed.
Lemma methods_accept (ms : list string) req :
  existsb (λ m, match_request m req) (MkMethodMatch <$> ms) = existsb (eq_ignore_ascii_case (req_method req)) ms.
Proof. induction ms as [|m ms IH]; [done|]. cbn. by rewrite IH. Qed.
Lemma convert_accepts m req : convertible m → accepts convert_config_to_kernel req m = accepts_parts req m.
Proof.
  intros Hm. apply convert_is_ok in Hm as Hk. destruct Hm as (Hp & Hh & Hq).
  setoid_rewrite <- collect_results_is_ok in Hh. setoid_rewrite <- collect_results_is_ok in Hq.
  apply transpose_is_ok in Hp, Hh, Hq. unfold accepts_parts.
  rewrite <- (transpose_accepts convert_path) by done.
  assert (match sm_header m with Some hs => existsb (accepts convert_header req) hs | None => true end =
    accepts (transpose_map (collect_results convert_header)) req (sm_header m)) as ->.
  { rewrite transpose_accepts by done. destruct (sm_header m) as [hs|]; [|done]. symmetry. apply collect_accepts.
    by apply (proj1 (transpose_is_ok _ _) Hh). }
  assert (match sm_query m with Some qs => existsb (accepts convert_query req) qs | None => true end =
    accepts (transpose_map (collect_results convert_query)) req (sm_query m)) as ->.
  { rewrite transpose_accepts by done. destruct (sm_query m) as [qs|]; [|done]. symmetry. apply collect_accepts.
    by apply (proj1 (transpose_is_ok _ _) Hq). }
  unfold accepts, convert_config_to_kernel in *.
  destruct (transpose_map convert_path _); cbn in *; [|done].
  destruct (transpose_map _ (sm_header m)); cbn in *; [|done].
  destruct (transpose_map _ (sm_query m)); cbn in *; [|done].
  unfold match_request at 1, match_route. cbn [rm_path rm_header rm_query rm_method]. f_equal.
  destruct (sm_method m) as [ms|]; [|done]. apply methods_accept.
Qed.

(** The parts as the cluster keeps them. *)
Lemma stored_path_same p : (is_ok (convert_path p) → is_ok (convert_path (stored_path p))) ∧
  ∀ req, accepts convert_path req (stored_path p) = accepts convert_path req p.
Proof. destruct p; cbn; unfold accepts; cbn; unfold parse_regex; destruct (regex_new value); done. Qed.
Lemma plain_header_same h : is_ok (convert_header h) → is_ok (convert_header (plain_header h)) ∧
  ∀ req, accepts convert_header req (plain_header h) = accepts convert_header req h.
Proof.
  unfold accepts. destruct h as [n v r|n re r]; cbn.
  - destruct (ok_or _ _); cbn; [|done]. destruct (parse_header_value v); cbn; [|done].
    destruct (transpose_map parse_header_value r); done.
  - destruct (ok_or _ _); cbn; [|done]. by destruct (parse_regex re).
Qed.
Lemma existsb_perm {A} (f : A → bool) l k : l ≡ₚ k → existsb f l = existsb f k.
Proof. intros Hl. apply eq_true_iff_eq. rewrite !existsb_Exists. by rewrite Hl. Qed.
Lemma stored_headers_same hs : Forall (λ h, is_ok (convert_header h)) hs →
  match stored_headers (Some hs) with
  | Some hs' => Forall (λ h, is_ok (convert_header h)) hs' ∧
      ∀ req, existsb (accepts convert_header req) hs' = existsb (accepts convert_header req) hs
  | None => hs = []
  end.
Proof.
  intros Hhs. unfold stored_headers. cbn [default from_option id]. pose proof (sort_by_perm (λ a b, negb (header_replaces b && negb (header_replaces a))) hs) as Hp.
  destruct (sort_by _ hs) as [|h l]; [by apply Permutation_nil in Hp|]. rewrite <- Hp in Hhs. split.
  - apply Forall_fmap. eapply Forall_impl; [exact Hhs|]. intros x Hx. by apply plain_header_same.
  - intros req. rewrite <- (existsb_perm _ _ _ Hp). clear Hp. induction Hhs as [|x l' Hx Hl IH]; [done|]. cbn. f_equal; [|exact IH].
    by apply plain_header_same.
Qed.

(** The headers of a match that the cluster can keep: they come with methods. *)
Definition headers_kept (m : SgHttpRouteMatch) : Prop :=
  match sm_header m with Some hs => hs ≠ [] ∧ is_Some (sm_method m) | None => True end.

Lemma stored_match_convertible m x : convertible m → x ∈ stored_match m → convertible x.
Proof.
  intros (Hp & Hh & Hq). unfold stored_match.
  assert (∀ p, stored_path <$> sm_path m = Some p → is_ok (convert_path p)) as Hp'.
  { intros p (q & Hq' & ->)%fmap_Some. symmetry in Hq'. apply stored_path_same, Hp. done. }
  destruct (sm_method m) as [methods|].
  - intros (method & -> & _)%list_elem_of_fmap. split_and!; cbn; [done| |done].
    destruct (sm_header m) as [hs|]; [|by intros ? [=]]. pose proof (stored_headers_same hs (Hh hs eq_refl)) as Hs.
    destruct (stored_headers (Some hs)) as [hs'|]; [|by intros ? [=]]. intros ? [= <-]. apply Hs.
  - intros ->%list_elem_of_singleton. split_and!; cbn; done.
Qed.
Lemma existsb_fmap {A B} (f : B → bool) (g : A → B) l : existsb f (g <$> l) = existsb (λ x, f (g x)) l.
Proof. induction l as [|x l IH]; [done|]. cbn. by rewrite <- IH. Qed.
Lemma existsb_each {A} (f : A → bool) b l : existsb (λ x, b && existsb f [x]) l = b && existsb f l.
Proof.
  induction l as [|x l IH]; [by rewrite andb_false_r|]. cbn [existsb] in *. rewrite IH, orb_false_r. by destruct b.
Qed.
Lemma stored_match_accepts m req : convertible m →
  (accepts_parts req m = true → existsb (accepts_parts req) (stored_match m) = true) ∧
  (headers_kept m → existsb (accepts_parts req) (stored_match m) = true → accepts_parts req m = true).
Proof.
  intros (Hp & Hh & Hq). unfold stored_match, headers_kept.
  assert (match stored_path <$> sm_path m with Some p => accepts convert_path req p | None => true end =
    match sm_path m with Some p => accepts convert_path req p | None => true end) as Hpath.
  { destruct (sm_path m); [|done]. apply stored_path_same. }
  unfold accepts_parts. destruct (sm_method m) as [methods|]; [|cbn; rewrite Hpath].
  - rewrite existsb_fmap. cbn [sm_path sm_header sm_query sm_method]. rewrite Hpath, existsb_each.
    destruct (sm_header m) as [hs|]; [|done]. pose proof (stored_headers_same hs (Hh hs eq_refl)) as Hs.
    destruct (stored_headers (Some hs)) as [hs'|].
    + rewrite (proj2 Hs req). done.
    + subst hs. cbn. split; [by rewrite andb_false_r|]. intros [? _]. done.
  - rewrite orb_false_r. destruct (sm_header m) as [hs|]; [|done]. split.
    + rewrite !andb_true_iff. naive_solver.
    + intros [_ [? [=]]].
Qed.

Lemma convert_matches_accept ms req : Forall convertible ms →
  accepts (collect_results convert_config_to_kernel) req ms = existsb (accepts_parts req) ms.
Proof.
  intros Hms. rewrite collect_accepts.
  - induction Hms as [|m ms Hm _ IH]; [done|]. cbn. by rewrite convert_accepts, IH.
  - apply collect_results_is_ok. eapply Forall_impl; [exact Hms|]. intros m. apply convert_is_ok.
Qed.
Lemma stored_matches_accept ms req : Forall convertible ms →
  (existsb (accepts_parts req) ms = true → existsb (accepts_parts req) (stored_matches ms) = true) ∧
  (Forall headers_kept ms → existsb (accepts_parts req) (stored_matches ms) = true → existsb (accepts_parts req) ms = true).
Proof.
  induction 1 as [|m ms Hm _ [IH1 IH2]]; [done|]. unfold stored_matches. rewrite fmap_cons, mjoin_cons, existsb_app.
  cbn [existsb]. rewrite !orb_true_iff. destruct (stored_match_accepts m req Hm) as [H1 H2]. split; [naive_solver|].
  intros [Hk Hks]%Forall_cons. naive_solver.
Qed.
End accepts.


(** ** Gateway parameters *)

Ltac read_annotations :=
  repeat first [ rewrite bt_get_insert_eq
               | rewrite bt_get_insert_ne by (let E := fresh in intros E; discriminate E) ].

Lemma get_insert_some k v k' ann :
  bt_get k' (insert_some k v ann) = if decide (k = k') then opt_or v (bt_get k' ann) else bt_get k' ann.
Proof.
  destruct v as [v|]; cbn; [|by case_decide]. case_decide as E; [subst; by rewrite bt_get_insert_eq|by rewrite bt_get_insert_ne].
Qed.

Section parameters.
Context `{T : KubeText} `{!KubeTextLaws T}.

Lemma observability_absent ann :
  (∀ k, k ∈ [GATEWAY_ANNOTATION_OTEL_ENABLED; GATEWAY_ANNOTATION_OTEL_SERVICE_NAME; GATEWAY_ANNOTATION_OTEL_ENDPOINT;
     GATEWAY_ANNOTATION_OTEL_PROTOCOL; GATEWAY_ANNOTATION_OTEL_TRACES_ENABLED; GATEWAY_ANNOTATION_OTEL_TRACES_SAMPLE_RATIO;
     GATEWAY_ANNOTATION_OTEL_METRICS_ENABLED; GATEWAY_ANNOTATION_OTEL_METRICS_EXPORT_INTERVAL_MS;
     GATEWAY_ANNOTATION_OTEL_LOGS_ENABLED; GATEWAY_ANNOTATION_OTEL_LOGS_LEVEL] → bt_get k ann = None) →
  observability_from_kube ann = observability_default.
Proof. intros Hk. unfold observability_from_kube, annotation_bool. rewrite !Hk by set_solver. done. Qed.

Lemma observability_read ann o :
  ob_enabled o = true → tc_sample_ratio (ob_traces o) ≠ S754_nan → in_unsigned 64 (mc_export_interval_ms (ob_metrics o)) →
  observability_from_kube (insert_observability o ann) = o.
Proof.
  intros He Hr Hi. unfold observability_from_kube, insert_observability, annotation_bool. rewrite He.
  read_annotations. cbn [mbind option_bind]. rewrite !parse_bool_string, otlp_roundtrip, f64_text_roundtrip, parse_z_string by done.
  destruct o as [en sn ep pr [te tr] [me mi] [le ll]]. cbn in *. by subst en.
Qed.
Lemma insert_observability_get k ann o :
  k ∈ [GATEWAY_ANNOTATION_REDIS_URL; GATEWAY_ANNOTATION_LOG_LEVEL; GATEWAY_ANNOTATION_LANGUAGE;
       GATEWAY_ANNOTATION_IGNORE_TLS_VERIFICATION; GATEWAY_ANNOTATION_ENABLE_X_REQUEST_ID] →
  bt_get k (insert_observability o ann) = bt_get k ann.
Proof.
  unfold insert_observability. destruct (ob_enabled o); [|done]. rewrite !elem_of_cons, elem_of_nil.
  intros Hk. destruct_or?; subst; try done; by read_annotations.
Qed.

(** What the annotations keep of the parameters of a gateway. *)
Definition stored_parameters (p : SgParameters) : SgParameters :=
  MkSgParameters (p_redis_url p) (p_log_level p) (p_lang p) (p_ignore_tls_verification p) (p_enable_x_request_id p)
    (if ob_enabled (p_observability p) then p_observability p else observability_default).

(** The parameters of a gateway survive the annotations of its object: they are read back
    unchanged when observability is on, whatever the text of a floating point number is, as long
    as it can be read back; when it is off, its other settings are the defaults again. *)
Theorem parameters_read_back p g :
  tc_sample_ratio (ob_traces (p_observability p)) ≠ S754_nan →
  in_unsigned 64 (mc_export_interval_ms (ob_metrics (p_observability p))) →
  md_annotations (o_meta g) = Some (parameters_into_kube p) →
  parameters_from_kube g = stored_parameters p.
Proof.
  intros Hr Hi Hg. unfold parameters_from_kube, stored_parameters. rewrite Hg. unfold parameters_into_kube, annotation_bool.
  set (ann := insert_some GATEWAY_ANNOTATION_ENABLE_X_REQUEST_ID _ _).
  rewrite !insert_observability_get by set_solver. f_equal.
  - unfold ann. rewrite !get_insert_some. by destruct (p_redis_url p).
  - unfold ann. rewrite !get_insert_some. by destruct (p_log_level p).
  - unfold ann. rewrite !get_insert_some. by destruct (p_lang p).
  - unfold ann. rewrite !get_insert_some. by destruct (p_ignore_tls_verification p) as [[]|].
  - unfold ann. rewrite !get_insert_some. by destruct (p_enable_x_request_id p) as [[]|].
  - destruct (ob_enabled (p_observability p)) eqn:He; [by apply observability_read|].
    unfold insert_observability. rewrite He. apply observability_absent. intros k. rewrite !elem_of_cons, elem_of_nil.
    unfold ann. intros Hk. rewrite !get_insert_some. destruct_or?; subst; done.
Qed.
End parameters.

(** ** Examples *)

Definition named_binding (name : string) (priority : Z) : PluginBinding := MkBinding (MkPluginId "limit" (Named name)) priority.
Definition mono_binding : PluginBinding := MkBinding (MkPluginId "east-west" Mono) 0.
Definition api_match (methods : option (list string)) (replace : option string) : SgHttpRouteMatch :=
  MkSgMatch (Some (SgPathPrefix "/api" replace)) (Some [SgHeaderExact "x-tenant" "a" (Some "b")]) None methods.
Definition api_rule (ms : list SgHttpRouteMatch) : SgHttpRouteRule PluginBinding :=
  MkSgRule (Some ms) [named_binding "slow" 5; mono_binding; named_binding "fast" 7]
    [MkBackendRef (HostName "upstream") (Some 8080) None None None None (Some 1) []] (Some 1000) (Some TmDisabled) (Some SgIpHash).

Lemma rule_reads_back_witness :
  rule_from_kube (rule_into_kube (api_rule [api_match (Some ["GET"]) (Some "/")])) =
    Ok (MkSgRule (Some [MkSgMatch (Some (SgPathPrefix "/api" (Some "/"))) (Some [SgHeaderExact "x-tenant" "a" None]) None (Some ["GET"])])
          [named_binding "fast" 1000; named_binding "slow" 900]
          [MkBackendRef (HostName "upstream") (Some 8080) None None (Some BackendProtocolHttp) None (Some 1) []]
          (Some 1000) (Some TmDisabled) None).
Proof.
  rewrite (proj1 (rule_reads_back (api_rule [api_match (Some ["GET"]) (Some "/")]) ltac:(vm_compute; discriminate)
    ltac:(repeat constructor; vm_compute; discriminate))).
  vm_compute. reflexivity.
Defined.

(** With two methods the same rule is stored, and then cannot be read. *)
Example two_methods_unreadable :
  rule_from_kube (rule_into_kube (api_rule [api_match (Some ["GET"; "POST"]) (Some "/")])) =
    Err "url_rewrite is not supported with multiple matches".
Proof. reflexivity. Qed.

Definition tenant_request (tenant : string) : Request :=
  MkReq "GET" (MkUri None None (Some (MkPq "/api/jobs" None))) 11 [("x-tenant", tenant)] ext_empty "".
Definition tenant_matchers (method : option (list string)) : list HttpRouteMatch :=
  [MkRouteMatch (Some (PathPrefix "/api" None)) (Some [MkHeaderMatch "x-tenant" (HeaderExact "a" (Some "b"))]) None
     (fmap (M:=list) MkMethodMatch <$> method)].
(** Without methods the condition on the header is gone: requests of every tenant match. *)
Example header_condition_lost :
  collect_results convert_config_to_kernel [api_match None None] = Ok (tenant_matchers None) ∧
  rule_matches_req (Some (tenant_matchers None)) (tenant_request "c") = false ∧
  ∃ ks', collect_results convert_config_to_kernel (stored_matches [api_match None None]) = Ok ks' ∧
    rule_matches_req (Some ks') (tenant_request "c") = true.
Proof. split; [reflexivity|]. split; [reflexivity|]. eexists. split; reflexivity. Qed.

(** A text for every number, and a hash. *)
Definition float_code (x : spec_float) : option (bool * option (option (positive * Z))) :=
  match x with
  | S754_zero s => Some (s, None)
  | S754_infinity s => Some (s, Some None)
  | S754_nan => None
  | S754_finite s m e => Some (s, Some (Some (m, e)))
  end.
Definition float_decode (c : option (bool * option (option (positive * Z)))) : spec_float :=
  match c with
  | Some (s, None) => S754_zero s
  | Some (s, Some None) => S754_infinity s
  | None => S754_nan
  | Some (s, Some (Some (m, e))) => S754_finite s m e
  end.
Fixpoint pos_string (p : positive) : string :=
  match p with xH => "" | xO p => String "0" (pos_string p) | xI p => String "1" (pos_string p) end.
Fixpoint string_pos (s : string) : positive :=
  match s with "" => xH | String "0" s => xO (string_pos s) | String _ s => xI (string_pos s) end.
Lemma string_pos_string p : string_pos (pos_string p) = p.
Proof. induction p as [p IH|p IH|]; cbn; by rewrite ?IH. Qed.
#[export] Instance ref_kube_text : KubeText := {|
  f64_to_string x := pos_string (encode (float_code x));
  f64_parse s := float_decode <$> decode (string_pos s);
  default_hash s := Z.of_nat (String.length s);
|}.
#[export] Instance ref_kube_text_laws : KubeTextLaws ref_kube_text.
Proof. split. intros x _. cbn. rewrite string_pos_string, decode_encode. cbn. f_equal. by destruct x. Qed.

Definition traced_parameters : SgParameters :=
  MkSgParameters (Some "redis://r") None None (Some true) None
    (MkObservability true "gw" "http://otel:4317" OtlpHttp (MkTraceConfig true (S754_finite false 1 (-1))) (MkMetricConfig false 5) log_default).
Definition traced_gateway : KGateway :=
  MkObject (meta_new "gw" "default" (Some (parameters_into_kube traced_parameters))) (MkGatewaySpec "spacegate" []) None.
Lemma parameters_read_back_witness : parameters_from_kube traced_gateway = traced_parameters.
Proof. apply (parameters_read_back traced_parameters traced_gateway); [discriminate|split; [discriminate|reflexivity]|reflexivity]. Defined.

(** Of several HTTPS listeners with keys of their own, the secret of the last one is the only
    one that is stored. *)
Example one_secret_stored :
  let tls key := MkTls Terminate key "cert" None in
  let listener port key := MkSgListener "l" None port (ProtocolHttps (tls key)) None in
  (listeners_into_kube "ns" None [listener 443 "a"; listener 8443 "bb"]).2 = Some (tls_secret "ns" (tls "bb")).
Proof. reflexivity. Qed.
