(* ===== verification/K8sWasm.v ===== *)
(** * Kubernetes: WasmPlugin objects

    [crates/config/src/service/k8s/convert/higress_wasm_plugin_conv.rs], and the credentials of
    [retrieve.rs] that go with it. A WasmPlugin stands for several plugin instances, one for its
    default configuration and one for each of its rules; their identities are attached to
    gateways, routes and backends, and looked up again by name ([wasm_plugins_resolve]). *)

From S2P Require Export K8sTypes Middleware Fmt Trim Utf8.
From S2P Require Import RefHttp.
Local Open Scope string_scope.
Local Open Scope list_scope.
Local Open Scope Z_scope.

Definition WASM_CODE : string := "wasm".

(** [s.rsplit_once(p)] of a text [p] *)
Fixpoint str_rsplit_once_str (p s : string) : option (string * string) :=
  match s with
  | "" => None
  | String a s' =>
      match str_rsplit_once_str p s' with
      | Some (l, r) => Some (String a l, r)
      | None => pair "" <$> str_strip_prefix p s
      end
  end.
(** [s.to_ascii_uppercase()] and [s.replace('-', "_")] *)
Definition ascii_upper (a : ascii) : ascii :=
  let n := nat_of_ascii a in if Nat.leb 97 n && Nat.leb n 122 then ascii_of_nat (n - 32) else a.
Definition to_ascii_uppercase : string → string := str_map ascii_upper.
Definition replace_dash : string → string := str_map (λ a, if decide (a = "-"%char) then "_"%char else a).

Section plugin.
Implicit Types p : WasmPlugin.

Definition index_string (i : nat) : string := dec_string (Z.of_nat i).
Definition to_spacegate_plugin_id p : PluginInstanceId := MkPluginId WASM_CODE (Named ("higress-" +:+ name_any p)).
Definition to_spacegate_rule_plugin_id (rule_index : nat) p : PluginInstanceId :=
  MkPluginId WASM_CODE (Named ("higress-" +:+ name_any p +:+ "-rule-" +:+ index_string rule_index)).

(** ** Configurations *)

Definition normalize_fail_strategy (value : string) : option string :=
  let v := replace_dash (to_ascii_lowercase (str_trim value)) in
  if decide (v = "fail_open" ∨ v = "failopen") then Some "fail_open"
  else if decide (v = "fail_close" ∨ v = "failclose") then Some "fail_close" else None.
Definition not_blank (o : option string) : option string := s ← o; if str_is_empty (str_trim s) then None else Some s.

Definition wasm_display_name (spec : Json) : option string :=
  find_map (λ key, s ← json_str_field key spec; normalize_plugin_display_name (Some s)) ["display_name"; "title"; "plugin_name"].

Definition insert_opt (k : string) (v : option Json) (fields : list (string * Json)) : list (string * Json) :=
  match v with Some v => fields_insert k v fields | None => fields end.
Definition build_plugin_config p (id : PluginInstanceId) (plugin_config : Json) (instance_suffix : string)
    (oci_auth : option Json) : PluginConfig Json :=
  let ns := default "default" (namespace p) in
  let resource_version := default "unknown" (md_resource_version (o_meta p)) in
  let plugin_name := default (name_any p) (ws_plugin_name (o_spec p)) in
  let image_pull_always :=
    match ws_image_pull_policy (o_spec p) with Some v => eq_ignore_ascii_case v "always" | None => false end in
  let spec := [
    ("url", JString (ws_url (o_spec p)));
    ("plugin_config", plugin_config);
    ("plugin_name", JString plugin_name);
    ("plugin_root_id", JString ("higress-" +:+ name_any p +:+ "-root-" +:+ instance_suffix));
    ("plugin_vm_id", JString ("higress-" +:+ ns +:+ "-" +:+ name_any p +:+ "-" +:+ instance_suffix));
    ("module_cache_key",
      JString ("higress-wasmplugin:" +:+ ns +:+ ":" +:+ name_any p +:+ ":" +:+ resource_version +:+ ":" +:+ instance_suffix));
    ("use_cache", JBool (negb image_pull_always))] in
  let spec := insert_opt "sha256" (JString <$> not_blank (ws_sha256 (o_spec p))) spec in
  let spec := insert_opt "fail_strategy" (JString <$> (ws_fail_strategy (o_spec p) ≫= normalize_fail_strategy)) spec in
  let spec := JObject (insert_opt "oci_auth" oci_auth spec) in
  MkPluginConfig id (wasm_display_name spec) spec.

Definition value_to_object (v : Json) : list (string * Json) :=
  match v with JObject fields => fields | JNull => [] | other => [("_config_", other)] end.
Definition strings_value (l : list string) : Json := JArray (JString <$> l).
Definition insert_strings (k : string) (l : list string) (fields : list (string * Json)) : list (string * Json) :=
  match l with [] => fields | _ => fields_insert k (strings_value l) fields end.
Definition build_higress_rule_config (r : WasmMatchRule) : Json :=
  let config := value_to_object (wr_config r) in
  let config := insert_strings "_match_route_" (wr_ingress r) config in
  let config := insert_strings "_match_domain_" (wr_domain r) config in
  let config := insert_strings "_match_service_" (wr_service r) config in
  JObject (if wr_config_disable r then fields_insert "_config_disable_" (JBool true) config else config).

(** The rules that [q] selects, with their indices. *)
Definition rule_config p (oci_auth : option Json) (i : nat) (r : WasmMatchRule) : PluginConfig Json :=
  build_plugin_config p (to_spacegate_rule_plugin_id i p) (build_higress_rule_config r) ("rule-" +:+ index_string i) oci_auth.
Definition selected_rules (q : WasmMatchRule → bool) p : list (nat * WasmMatchRule) :=
  List.filter (λ ir, q ir.2) (imap pair (ws_match_rules (o_spec p))).
Definition rule_enabled (r : WasmMatchRule) : bool := negb (wr_config_disable r).
Definition to_spacegate_plugin_configs_with_oci_auth (oci_auth : option Json) p : list (PluginConfig Json) :=
  (if ws_default_config_disable (o_spec p) then []
   else [build_plugin_config p (to_spacegate_plugin_id p) (ws_default_config (o_spec p)) "default" oci_auth]) ++
  ((λ ir, rule_config p oci_auth ir.1 ir.2) <$> selected_rules rule_enabled p).
Definition to_spacegate_plugin_configs : WasmPlugin → list (PluginConfig Json) := to_spacegate_plugin_configs_with_oci_auth None.
Definition to_spacegate_plugin_config_by_id_with_oci_auth (id : PluginInstanceId) (oci_auth : option Json) p
  : option (PluginConfig Json) :=
  List.find (λ cfg, bool_decide (cfg_id cfg = id)) (to_spacegate_plugin_configs_with_oci_auth oci_auth p).

(** ** What a plugin is attached to *)

Definition domain_matches (pattern hostname : string) : bool :=
  let pattern := trim_end_matches "." (str_trim pattern) in
  let hostname := trim_end_matches "." (str_trim hostname) in
  if decide (pattern = "*") then true
  else match str_strip_prefix "*." pattern with
       | Some suffix =>
           eq_ignore_ascii_case hostname suffix ||
           ends_with (to_ascii_lowercase hostname) ("." +:+ to_ascii_lowercase suffix)
       | None => eq_ignore_ascii_case pattern hostname
       end.
Definition list_is_empty {A} (l : list A) : bool := match l with [] => true | _ => false end.
Definition rule_matches_route (r : WasmMatchRule) (route_name : string) (hostnames : option (list string)) : bool :=
  let route_match := negb (list_is_empty (wr_ingress r)) && existsb (λ name, eq_ignore_ascii_case name route_name) (wr_ingress r) in
  let domain_match := negb (list_is_empty (wr_domain r)) &&
    match hostnames with
    | Some hs => existsb (λ h, existsb (λ d, domain_matches d h) (wr_domain r)) hs
    | None => false
    end in
  let no_target := list_is_empty (wr_ingress r) && list_is_empty (wr_domain r) && list_is_empty (wr_service r) in
  route_match || domain_match || no_target.
Definition backend_matches_service (b : SgBackendRef PluginBinding) (service : string) : bool :=
  let service := str_trim service in
  match b_host b with
  | K8sService d =>
      eq_ignore_ascii_case (k8s_name d) service ||
      match k8s_namespace d with
      | Some ns => eq_ignore_ascii_case (k8s_name d +:+ "." +:+ ns) service
      | None => false
      end
  | _ => eq_ignore_ascii_case (get_host b) service
  end.
Definition rule_matches_backend (r : WasmMatchRule) (b : SgBackendRef PluginBinding) : bool :=
  negb (list_is_empty (wr_service r)) && existsb (backend_matches_service b) (wr_service r).

Definition gateway_plugin_id p : option PluginInstanceId :=
  if ws_default_config_disable (o_spec p) then None else Some (to_spacegate_plugin_id p).
Definition rule_ids (q : WasmMatchRule → bool) p : list PluginInstanceId :=
  (λ ir, to_spacegate_rule_plugin_id ir.1 p) <$> selected_rules (λ r, rule_enabled r && q r) p.
Definition route_plugin_ids (route_name : string) (hostnames : option (list string)) : WasmPlugin → list PluginInstanceId :=
  rule_ids (λ r, rule_matches_route r route_name hostnames).
Definition backend_plugin_ids (b : SgBackendRef PluginBinding) : WasmPlugin → list PluginInstanceId :=
  rule_ids (λ r, rule_matches_backend r b).

(** ** Order *)

Definition phase_rank (phase : option string) : Z :=
  let phase := to_ascii_uppercase (str_trim (default "" phase)) in
  if decide (phase = "AUTHN") then 10 else if decide (phase = "AUTHZ") then 20
  else if decide (phase = "STATS") then 90 else 50.
Definition wasm_priority p : Z := default 0 (ws_priority (o_spec p)).
(** [a] is not after [b]: phases ascend, then priorities descend, then names ascend. *)
Definition wasm_before (a b : WasmPlugin) : bool :=
  match Z.compare (phase_rank (ws_phase (o_spec a))) (phase_rank (ws_phase (o_spec b))) with
  | Lt => true
  | Gt => false
  | Eq =>
      match Z.compare (wasm_priority b) (wasm_priority a) with
      | Lt => true
      | Gt => false
      | Eq => negb (String.ltb (name_any b) (name_any a))
      end
  end.
Definition sort_higress_wasm_plugins : list WasmPlugin → list WasmPlugin := sort_by wasm_before.

(** ** Registries and credentials *)

Definition strip_any (prefixes : list string) (s : string) : option string := find_map (λ prefix, str_strip_prefix prefix s) prefixes.
Definition OCI_SCHEMES : list string := ["oci://"; "docker://"; "image://"; "oci+http://"].
Definition is_oci_url (url : string) : bool := existsb (λ scheme, starts_with (to_ascii_lowercase url) scheme) OCI_SCHEMES.
Definition parse_oci_registry (url : string) : option string :=
  rest ← strip_any OCI_SCHEMES (str_trim url);
  '(registry, repository) ← str_split_once "/" rest;
  if negb (str_is_empty (str_trim registry)) && negb (str_is_empty (str_trim repository)) then Some registry else None.
Definition oci_registry p : option string := parse_oci_registry (ws_url (o_spec p)).
Definition validate_for_spacegate p : result unit string :=
  let url := str_trim (ws_url (o_spec p)) in
  if str_is_empty url then Err "spec.url is empty"
  else if is_oci_url url && negb (bool_decide (is_Some (parse_oci_registry url)))
  then Err "spec.url must include OCI registry and repository"
  else Ok ().
Definition digest p : option string := ws_sha256 (o_spec p).
(** [plugin.spec.image_pull_secret.as_deref().map(str::trim).filter(..)] *)
Definition pull_secret p : option string :=
  s ← str_trim <$> ws_image_pull_secret (o_spec p); if str_is_empty s then None else Some s.
End plugin.

Section credentials.
Context `{!Base64} `{!JsonLib}.

Definition utf8_string (bytes : string) : option string := if utf8_valid bytes then Some bytes else None.
Definition secret_data (key : string) (s : Secret) : option string := d ← se_data (o_spec s); bt_get key d.
Definition secret_data_string (key : string) (s : Secret) : option string := secret_data key s ≫= utf8_string.

Definition credentials (registry username password : string) : Json :=
  JObject [("registry", JString registry); ("username", JString username); ("password", JString password)].
Definition entry_of_registry (registry : string) (auths : Json) : option Json :=
  match auths with
  | JObject _ =>
      find_map (λ key, json_get key auths)
        ([registry; "https://" +:+ registry; "http://" +:+ registry] ++
         if decide (registry = "docker.io")
         then ["https://index.docker.io/v1/"; "index.docker.io"; "registry-1.docker.io"] else [])
  | _ => None
  end.
Definition json_field_of (keys : list string) (entry : Json) : option Json := find_map (λ key, json_get key entry) keys.
Definition oci_auth_from_docker_config (bytes registry : string) : option Json :=
  config ← json_from_slice bytes;
  auths ← json_get "auths" config;
  entry ← entry_of_registry registry auths;
  match not_blank (json_field_of ["identitytoken"; "identity_token"] entry ≫= json_str) with
  | Some token => Some (JObject [("registry", JString registry); ("identity_token", JString token)])
  | None =>
      '(username, password) ←
        match not_blank (json_str_field "username" entry), json_str_field "password" entry with
        | Some username, Some password => Some (username, password)
        | _, _ =>
            auth ← json_str_field "auth" entry;
            decoded ← b64_decode auth;
            decoded ← utf8_string decoded;
            str_split_once ":" decoded
        end;
      Some (credentials registry username password)
  end.
Definition oci_auth_from_secret (s : Secret) (registry : string) : option Json :=
  data ← se_data (o_spec s);
  match opt_or (bt_get ".dockerconfigjson" data) (bt_get ".dockercfg" data) ≫= (λ bytes, oci_auth_from_docker_config bytes registry) with
  | Some auth => Some auth
  | None =>
      username ← opt_or (secret_data_string "username" s) (secret_data_string "user" s);
      Some (credentials registry username (default "" (secret_data_string "password" s)))
  end.
End credentials.

(** The name of the object that [retrieve_plugin] looks for. *)
Definition wasm_object_name (id : PluginInstanceId) : option string :=
  if decide (id_code id = WASM_CODE) then
    match id_name id with
    | Named name =>
        wasm_name ← str_strip_prefix "higress-" name;
        Some (match str_rsplit_once_str "-rule-" wasm_name with Some (base, _) => base | None => wasm_name end)
    | _ => None
    end
  else None.

(** ** Identities *)

(** What a plugin is attached to. *)
Inductive attached (p : WasmPlugin) : PluginInstanceId → Prop :=
| attached_gateway id : gateway_plugin_id p = Some id → attached p id
| attached_route name hostnames id : id ∈ route_plugin_ids name hostnames p → attached p id
| attached_backend b id : id ∈ backend_plugin_ids b p → attached p id.

Lemma parse_digits_no_dash acc s n : parse_digits 10 acc s = Some n → no_char "-" s.
Proof.
  revert acc. induction s as [|a s IH]; intros acc; cbn; [intros _; apply no_char_nil|].
  destruct (to_digit 10 a) as [d|] eqn:Ed; [|done]. cbn. intros Hs. apply no_char_cons. split; [|by eapply IH].
  intros ->. by vm_compute in Ed.
Qed.
Lemma index_string_no_dash i : no_char "-" (index_string i).
Proof.
  pose proof (parse_radix_string 10 (Z.of_nat i) ltac:(lia) ltac:(lia)) as Hp. unfold parse_radix in Hp.
  change (radix_string 10 (Z.of_nat i)) with (index_string i) in Hp. destruct (str_is_empty _); [done|].
  by eapply parse_digits_no_dash.
Qed.
Lemma index_string_inj i j : index_string i = index_string j → i = j.
Proof.
  intros Hij. pose proof (parse_radix_string 10 (Z.of_nat i) ltac:(lia) ltac:(lia)) as Hi.
  change (radix_string 10 (Z.of_nat i)) with (index_string i) in Hi. rewrite Hij in Hi.
  unfold index_string, dec_string in Hi. rewrite parse_radix_string in Hi by lia. injection Hi as Hi. lia.
Qed.

Lemma rsplit_cons a s : str_strip_prefix "-rule-" (String a s) = None → str_rsplit_once_str "-rule-" s = None →
  str_rsplit_once_str "-rule-" (String a s) = None.
Proof. intros H1 H2. unfold str_rsplit_once_str in *. fold str_rsplit_once_str in *. by rewrite H2, H1. Qed.
Lemma strip_rule_none s t : (∀ u, s = "-rule-" +:+ u → no_char "-" t → False) → no_char "-" t → str_strip_prefix "-rule-" s = None.
Proof. intros Hs Ht. destruct (str_strip_prefix "-rule-" s) as [u|] eqn:E; [|done]. apply str_strip_prefix_Some in E. by destruct (Hs u E Ht). Qed.
Lemma rsplit_no_dash t : no_char "-" t → str_rsplit_once_str "-rule-" t = None.
Proof.
  induction t as [|a t IH]; [done|]. intros [Ha Ht]%no_char_cons. apply rsplit_cons; [|by apply IH].
  apply (strip_rule_none _ t); [|done]. intros u [= -> _] _. done.
Qed.
Lemma rsplit_rule s t : no_char "-" t → str_rsplit_once_str "-rule-" (s +:+ "-rule-" +:+ t) = Some (s, t).
Proof.
  intros Ht. induction s as [|a s IH].
  - assert (str_rsplit_once_str "-rule-" ("rule-" +:+ t) = None) as Hr.
    { repeat (apply rsplit_cons; [apply (strip_rule_none _ t); [|done]; intros u Hu _; try discriminate Hu|]); [|by apply rsplit_no_dash].
      injection Hu as ->. apply (no_char_app "-" "rule-" u) in Ht as [Ht _]. discriminate Ht. }
    change ("" +:+ "-rule-" +:+ t) with (String "-" ("rule-" +:+ t)). unfold str_rsplit_once_str. fold str_rsplit_once_str.
    rewrite Hr. change (String "-" ("rule-" +:+ t)) with ("-rule-" +:+ t). by rewrite (proj2 (str_strip_prefix_Some "-rule-" _ t) eq_refl).
  - change ((String a s) +:+ "-rule-" +:+ t) with (String a (s +:+ "-rule-" +:+ t)). unfold str_rsplit_once_str. fold str_rsplit_once_str.
    by rewrite IH.
Qed.

Lemma rule_plugin_id_inj p i j : to_spacegate_rule_plugin_id i p = to_spacegate_rule_plugin_id j p → i = j.
Proof.
  unfold to_spacegate_rule_plugin_id. intros Hij. injection Hij as Hij. apply str_app_inj_l in Hij.
  apply (str_app_inj_l "-rule-") in Hij. by apply index_string_inj.
Qed.
Lemma rule_plugin_id_not_default p i : to_spacegate_rule_plugin_id i p ≠ to_spacegate_plugin_id p.
Proof.
  unfold to_spacegate_rule_plugin_id, to_spacegate_plugin_id. intros Hi. injection Hi as Hi.
  apply (f_equal String.length) in Hi. rewrite !str_length_app in Hi. cbn in Hi. lia.
Qed.

Lemma selected_rules_elem q p i r : (i, r) ∈ selected_rules q p ↔ ws_match_rules (o_spec p) !! i = Some r ∧ q r = true.
Proof.
  unfold selected_rules. rewrite list_elem_of_In, filter_In, <- list_elem_of_In. cbn. split.
  - intros [(j & x & [= -> ->] & Hx)%elem_of_lookup_imap_1 Hq]. done.
  - intros [Hr Hq]. split; [|done]. by apply (elem_of_lookup_imap_2 pair).
Qed.
Lemma rule_ids_elem q p id : id ∈ rule_ids q p ↔
  ∃ i r, ws_match_rules (o_spec p) !! i = Some r ∧ rule_enabled r = true ∧ q r = true ∧ id = to_spacegate_rule_plugin_id i p.
Proof.
  unfold rule_ids. rewrite list_elem_of_fmap. split.
  - intros ([i r] & -> & Hr). apply selected_rules_elem in Hr as [Hr [? ?]%andb_true_iff]. naive_solver.
  - intros (i & r & Hr & He & Hq & ->). exists (i, r). split; [done|]. apply selected_rules_elem. by rewrite He, Hq.
Qed.
Lemma attached_cases p id : attached p id →
  (ws_default_config_disable (o_spec p) = false ∧ id = to_spacegate_plugin_id p) ∨
  ∃ i r, ws_match_rules (o_spec p) !! i = Some r ∧ rule_enabled r = true ∧ id = to_spacegate_rule_plugin_id i p.
Proof.
  destruct 1 as [id Hid|name hosts id Hid|b id Hid].
  - unfold gateway_plugin_id in Hid. destruct (ws_default_config_disable _); naive_solver.
  - apply rule_ids_elem in Hid. naive_solver.
  - apply rule_ids_elem in Hid. naive_solver.
Qed.

(** The configuration of an instance. *)
Inductive config_of (p : WasmPlugin) (oci_auth : option Json) : PluginInstanceId → PluginConfig Json → Prop :=
| config_of_default : ws_default_config_disable (o_spec p) = false →
    config_of p oci_auth (to_spacegate_plugin_id p)
      (build_plugin_config p (to_spacegate_plugin_id p) (ws_default_config (o_spec p)) "default" oci_auth)
| config_of_rule i r : ws_match_rules (o_spec p) !! i = Some r → rule_enabled r = true →
    config_of p oci_auth (to_spacegate_rule_plugin_id i p) (rule_config p oci_auth i r).
Lemma configs_elem p oci_auth cfg :
  cfg ∈ to_spacegate_plugin_configs_with_oci_auth oci_auth p ↔ ∃ id, config_of p oci_auth id cfg.
Proof.
  unfold to_spacegate_plugin_configs_with_oci_auth. rewrite elem_of_app, list_elem_of_fmap. split.
  - intros [Hc|([i r] & -> & [Hr He]%selected_rules_elem)].
    + destruct (ws_default_config_disable _) eqn:E; [set_solver|]. apply list_elem_of_singleton in Hc as ->. eexists. by constructor.
    + eexists. by constructor.
  - intros [id [Hd|i r Hr He]].
    + left. rewrite Hd. by apply list_elem_of_singleton.
    + right. exists (i, r). split; [done|]. by apply selected_rules_elem.
Qed.
Lemma config_of_id p oci_auth id cfg : config_of p oci_auth id cfg → cfg_id cfg = id.
Proof. by destruct 1. Qed.

Definition example_wasm (name : string) : WasmPlugin :=
  MkObject (meta_new name "gw" None)
    (MkWasmSpec "oci://registry.example.com/auth:v1" None None (Some "AUTHN") (Some 10) None None false (JObject [])
       [MkWasmRule ["api"] [] [] false (JObject [("limit", JNumber "1")]); MkWasmRule [] ["*.example.com"] [] false JNull] None) None.

(** An object whose name looks like a rule is attached under an identity that is looked up under
    another object's name, and that may be the identity of a rule of the other. *)
Example wasm_ids_collide :
  gateway_plugin_id (example_wasm "auth-rule-0") = Some (to_spacegate_rule_plugin_id 0 (example_wasm "auth")) ∧
  wasm_object_name (to_spacegate_plugin_id (example_wasm "auth-rule-0")) = Some "auth".
Proof. split; reflexivity. Qed.
