(* ===== verification/K8sStore.v ===== *)
(** * Kubernetes: the configuration backend

    [crates/config/src/service/k8s/{mod,create,update,delete,retrieve,discovery}.rs] and the
    operations of [convert/filter_k8s_conv.rs] on plugin targets. The backend is an instance of
    the traits of [ConfigService] over the state of a cluster, which is reached through an
    interface ([KubeApi]): typed requests to the API server that may fail. What a client may
    expect of the server is [KubeLaws], for a view of the cluster as maps of objects. A loop over
    a [HashMap] or a [HashSet] is in any order ([HashOrder]).

    A panic on a secret that is not UTF-8 ends the operation like an error. *)

From S2P Require Export K8sConv K8sWasm.
Local Open Scope string_scope.
Local Open Scope list_scope.
Local Open Scope Z_scope.

(** ** The API server *)

Inductive Kind :=
| KdGateway | KdGatewayClass | KdSecret | KdHttpSpaceroute | KdHttpRoute | KdMcpRoute | KdSgFilter | KdWasmPlugin
| KdDaemonSet | KdPod | KdService.
#[export] Instance Kind_eq_dec : EqDecision Kind.
Proof. solve_decision. Defined.

Record PodStatus := MkPodStatus { pod_host_ip : option string }.
Definition Spec (k : Kind) : Type :=
  match k with
  | KdGateway => GatewaySpec | KdGatewayClass => GatewayClassSpec | KdSecret => SecretSpec
  | KdHttpSpaceroute => HttpSpacerouteSpec | KdHttpRoute => HttpRouteSpec | KdMcpRoute => McpRouteSpec
  | KdSgFilter => SgFilterSpec | KdWasmPlugin => WasmPluginSpec
  | KdDaemonSet | KdPod | KdService => unit
  end.
Definition Status (k : Kind) : Type :=
  match k with
  | KdGateway | KdSecret | KdSgFilter | KdDaemonSet | KdService => unit
  | KdGatewayClass => GatewayClassStatus
  | KdHttpSpaceroute | KdHttpRoute | KdMcpRoute => RouteStatus
  | KdWasmPlugin => WasmPluginStatus
  | KdPod => PodStatus
  end.
Notation Obj k := (Object (Spec k) (Status k)).

(** Requests to the server. A namespace is [None] for all namespaces ([Api::all]). *)
Class KubeApi (C : Type) := {
  api_get (k : Kind) : option string → string → Op C (option (Obj k));
  api_list (k : Kind) : option string → Op C (list (Obj k));
  api_create (k : Kind) : string → Obj k → Op C unit;
  api_replace (k : Kind) : string → string → Obj k → Op C unit;
  api_replace_status (k : Kind) : option string → string → Obj k → Op C unit;
  api_delete (k : Kind) : string → string → Op C unit;
}.
Class HashOrder := hash_visit : ∀ {A : Type}, list A → list A.
Class HashOrderLaws (V : HashOrder) : Prop := hash_visit_perm : ∀ (A : Type) (l : list A), hash_visit l ≡ₚ l.

(** ** The backend: [mod.rs] *)

Record K8s := MkK8s { k8s_namespace_ : string; k8s_gateway_class_name : string; k8s_gateway_instance : option string }.
Definition DEFAULT_GATEWAY_CLASS_NAME : string := "spacegate".
Definition DEFAULT_GATEWAY_INSTANCE : string := "spacegate.spacegate".
Definition KUBE_OBJECT_INSTANCE : string := "app.kubernetes.io/instance".
Definition k8s_new (ns : string) : K8s := MkK8s ns DEFAULT_GATEWAY_CLASS_NAME None.
Definition with_gateway_selection (class : string) (instance : option string) (k : K8s) : K8s :=
  MkK8s (k8s_namespace_ k) class instance.
Definition gateway_uses_class (g : KGateway) (class : string) : bool := bool_decide (gs_gateway_class_name (o_spec g) = class).

Definition accepted_condition (generation : option Z) : Condition :=
  MkCondition "Accepted" "True" "Accepted" "GatewayClass is managed by Spacegate" generation.
Fixpoint replace_condition (c : Condition) (cs : list Condition) : option (list Condition) :=
  match cs with
  | [] => None
  | d :: cs => if decide (cd_type d = cd_type c) then Some (c :: cs) else cons d <$> replace_condition c cs
  end.
Definition upsert_accepted_condition (status : option GatewayClassStatus) (generation : option Z) : option GatewayClassStatus :=
  let c := accepted_condition generation in
  let conditions := default [] (mjoin status) in
  Some (Some (match replace_condition c conditions with Some cs => cs | None => c :: conditions end)).

Definition progressing_condition : Condition :=
  MkCondition "Progressing" "False" "WaitingForController" "Load config or refresh config , waiting for complete" None.
(** The new status, or [None] when the class waits already. *)
Definition rejected_status (status : option GatewayClassStatus) : option (option GatewayClassStatus) :=
  match mjoin status with
  | Some (c :: _) =>
      if decide (cd_status c = "False" ∧ cd_type c = "Progressing") then None else Some (Some (Some [progressing_condition]))
  | _ => Some (Some (Some [progressing_condition]))
  end.

Section backend.
Context {C : Type} `{!KubeApi C} `{!KubeText} `{!Base64} `{!JsonLib} `{!HashOrder}.
Context (self : K8s).
Notation ns := (k8s_namespace_ self).
Notation class := (k8s_gateway_class_name self).
Notation Op_ A := (OpE C string A).

(** [api.get(name).await?] *)
Definition api_get_found (k : Kind) (n : option string) (name : string) : Op_ (Obj k) :=
  do o <- api_get k n name;
  match o with Some o => op_ret o | None => op_lift (Err ("not found: " +:+ name)) end.
(** [if let Ok(x) = m.await { k(x) }] *)
Definition op_if_ok {A} (m : Op_ A) (k : A → Op_ unit) : Op_ unit := λ c,
  match m c with (Ok a, c) => k a c | (Err _, c) => (Ok (), c) end.
(** [join_all(..).await.into_iter().collect()]: every future ends, then the first error counts. *)
Fixpoint op_join {A B} (f : A → Op_ B) (l : list A) : Op_ (list B) := λ c,
  match l with
  | [] => (Ok [], c)
  | x :: l =>
      let '(y, c) := f x c in
      let '(ys, c) := op_join f l c in
      (let? y := y in let? ys := ys in Ok (y :: ys), c)
  end.

Definition with_status {k} (s : option (Status k)) (o : Obj k) : Obj k := MkObject (o_meta o) (o_spec o) s.
Definition accept_gateway_class (name : string) : Op_ unit :=
  do gc <- api_get_found KdGatewayClass None name;
  if decide (gc_controller_name (o_spec gc) = GATEWAY_CONTROLLER_NAME) then
    api_replace_status KdGatewayClass None name
      (with_status (k:=KdGatewayClass) (upsert_accepted_condition (o_status gc) (md_generation (o_meta gc))) gc)
  else op_lift (Err ("GatewayClass '" +:+ name +:+ "' is managed by '" +:+ gc_controller_name (o_spec gc) +:+ "', expected '" +:+
                     GATEWAY_CONTROLLER_NAME +:+ "'")).
Definition reject_gateway_class (name : string) : Op_ unit :=
  do gc <- api_get_found KdGatewayClass None name;
  match rejected_status (o_status gc) with
  | Some status => api_replace_status KdGatewayClass None name (with_status (k:=KdGatewayClass) status gc)
  | None => op_ret ()
  end.

(** ** The targets of a plugin: [filter_k8s_conv.rs] *)

Definition set_target_refs (refs : list TargetRef) (s : SgFilterSpec) : SgFilterSpec := MkFilterSpec (fs_filters s) refs.
(** The first reference that is equal gets the priority. *)
Fixpoint set_first_priority (t : TargetRef) (p : Z) (refs : list TargetRef) : list TargetRef :=
  match refs with
  | [] => []
  | r :: refs => if target_eqb r t then set_target_priority p r :: refs else r :: set_first_priority t p refs
  end.
Definition replace_filter (f : SgFilter) (refs : list TargetRef) : Op_ unit :=
  api_replace KdSgFilter ns (name_any f) (with_spec (set_target_refs refs (o_spec f)) f).
Definition add_filter_target (id : PluginInstanceId) (target : TargetRef) (priority : Z) : Op_ unit :=
  op_if_ok (api_get_found KdSgFilter (Some ns) (to_raw_str (id_name id))) (λ f,
    let target := set_target_priority priority target in
    let refs := fs_target_refs (o_spec f) in
    match List.find (λ r, target_eqb r target) refs with
    | Some existing =>
        if decide (tr_priority existing = priority) then op_ret ()
        else replace_filter f (set_first_priority target priority refs)
    | None => replace_filter f (refs ++ [target])
    end).
Definition remove_filter_target (id : PluginInstanceId) (target : TargetRef) : Op_ unit :=
  op_if_ok (api_get_found KdSgFilter (Some ns) (to_raw_str (id_name id))) (λ f,
    let refs := fs_target_refs (o_spec f) in
    if existsb (λ r, target_eqb r target) refs
    then replace_filter f (List.filter (λ r, negb (target_eqb r target)) refs)
    else op_ret ()).

(** [update.rs]: the last binding of an identity counts; identities that are not bound any more
    lose the target. *)
Definition binding_map (bs : list PluginBinding) : gmap PluginInstanceId Z :=
  foldl (λ m b, <[binding_id b := binding_priority b]> m) ∅ bs.
Definition unbound_ids (old update : list PluginBinding) : list PluginInstanceId :=
  elements (list_to_set (binding_id <$> old) ∖ dom (binding_map update) : gset PluginInstanceId).
Definition update_plugin_ids_changes (old update : list PluginBinding) (target : TargetRef) : Op_ unit :=
  match old, update with
  | [], [] => op_ret ()
  | _, _ =>
      do _ <- op_for (λ kv, add_filter_target kv.1 target kv.2) (hash_visit (map_to_list (binding_map update)));
      op_for (λ id, remove_filter_target id target) (hash_visit (unbound_ids old update))
  end.

(** ** Reading: [retrieve.rs] *)

(** A reference that names the target in a query: the letters' case does not count, and a
    reference without a namespace is in [default]. *)
Definition target_matches (kind name ns' : string) (r : TargetRef) : bool :=
  eq_ignore_ascii_case (tr_kind r) kind && eq_ignore_ascii_case (tr_name r) name &&
  eq_ignore_ascii_case (default "default" (tr_namespace r)) ns'.
Definition binding_of_filter (kind name ns' : string) (f : SgFilter) : option PluginBinding :=
  match List.find (target_matches kind name ns') (fs_target_refs (o_spec f)) with
  | Some r => (λ config, MkBinding (cfg_id config) (tr_priority r)) <$> from_first_filter_obj f
  | None => None
  end.
Definition retrieve_config_item_filters (kind name : string) (namespace_ : option string) : Op_ (list PluginBinding) :=
  let ns' := default ns namespace_ in
  do filters <- api_list KdSgFilter None;
  op_ret (omap (binding_of_filter kind name ns') filters).

Definition sorted_wasm_plugins (namespace_ : option string) : Op_ (list WasmPlugin) :=
  do ps <- api_list KdWasmPlugin (Some (default ns namespace_));
  op_ret (sort_higress_wasm_plugins ps).
(** [PluginBinding::from(id)] *)
Definition unranked (id : PluginInstanceId) : PluginBinding := MkBinding id 0.
Definition retrieve_higress_gateway_plugins (namespace_ : option string) : Op_ (list PluginBinding) :=
  do ps <- sorted_wasm_plugins namespace_;
  op_ret (unranked <$> omap gateway_plugin_id ps).
Definition add_backend_plugins (p : WasmPlugin) (b : SgBackendRef PluginBinding) : SgBackendRef PluginBinding :=
  MkBackendRef (b_host b) (b_port b) (b_timeout_ms b) (b_timeout_mode b) (b_protocol b) (b_downgrade_http2 b) (b_weight b)
    (b_plugins b ++ (unranked <$> backend_plugin_ids b p)).
Definition add_rule_plugins (p : WasmPlugin) (r : SgHttpRouteRule PluginBinding) : SgHttpRouteRule PluginBinding :=
  MkSgRule (sr_matches r) (sr_plugins r) (add_backend_plugins p <$> sr_backends r) (sr_timeout_ms r) (sr_timeout_mode r)
    (sr_balance_policy r).
Definition add_route_plugins (r : SgHttpRoute PluginBinding) (p : WasmPlugin) : SgHttpRoute PluginBinding :=
  MkSgHttpRoute (hr_route_name r) (hr_hostnames r)
    (hr_plugins r ++ (unranked <$> route_plugin_ids (hr_route_name r) (hr_hostnames r) p))
    (add_rule_plugins p <$> hr_rules r) (hr_priority r).
Definition apply_higress_wasm_route_plugins (namespace_ : option string) (r : SgHttpRoute PluginBinding)
  : Op_ (SgHttpRoute PluginBinding) :=
  do ps <- sorted_wasm_plugins namespace_; op_ret (foldl add_route_plugins r ps).
Definition add_mcp_plugins (r : SgMcpRoute PluginBinding) (p : WasmPlugin) : SgMcpRoute PluginBinding :=
  MkSgMcpRoute (mr_route_name r) (mr_hostnames r) (mr_transport r) (mr_path r) (mr_legacy_sse r)
    (add_backend_plugins p <$> mr_backends r)
    (mr_plugins r ++ (unranked <$> route_plugin_ids (mr_route_name r) (mr_hostnames r) p))
    (mr_timeout_mode r) (mr_session_affinity r).
Definition apply_higress_wasm_mcp_route_plugins (namespace_ : option string) (r : SgMcpRoute PluginBinding)
  : Op_ (SgMcpRoute PluginBinding) :=
  do ps <- sorted_wasm_plugins namespace_; op_ret (foldl add_mcp_plugins r ps).

(** *** Gateways *)

Definition retrieve_http2_config (t : GatewayTlsConfig) : bool :=
  match gt_options t with Some options => bool_decide (bt_get HTTP2_KEY options = Some HTTP2_ENABLE) | None => false end.
(** The configuration of an HTTPS listener from its secret; [None] makes it a plain listener. *)
Definition tls_from_secret (t : GatewayTlsConfig) (s : Secret) : result (option SgTlsConfig) string :=
  match data ← se_data (o_spec s); crt ← bt_get "tls.crt" data; key ← bt_get "tls.key" data; Some (crt, key) with
  | None => Ok None
  | Some (crt, key) =>
      let? key := ok_or (utf8_string key) "[SG.Config] Gateway tls secret [tls.key] is not valid utf8" in
      let? crt := ok_or (utf8_string crt) "[SG.Config] Gateway tls secret [tls.cert] is not valid utf8" in
      Ok (Some (MkTls (tls_mode_from_option (gt_mode t)) key crt (Some (retrieve_http2_config t))))
  end.
Definition retrieve_protocol (l : Listener) : Op_ SgProtocolConfig :=
  let p := to_ascii_lowercase (li_protocol l) in
  if decide (p = "http") then op_ret ProtocolHttp
  else if decide (p = "https") then
    match t ← li_tls l; refs ← gt_certificate_refs t; r ← head refs; Some (t, r) with
    | None => op_ret ProtocolHttp
    | Some (t, r) =>
        do secret <- api_get KdSecret (Some ns) (sec_name r);
        match secret with
        | None => op_ret ProtocolHttp
        | Some s =>
            do tls <- op_lift (tls_from_secret t s);
            op_ret (match tls with Some tls => ProtocolHttps tls | None => ProtocolHttp end)
        end
    end
  else op_lift (Err "Unsupported protocol").
Definition retrieve_listener (l : Listener) : Op_ SgListener :=
  do protocol <- retrieve_protocol l;
  op_ret (MkSgListener (li_name l) None (li_port l) protocol (li_hostname l)).
Definition kube_gateway_2_sg_gateway (g : KGateway) : Op_ Gateway_ :=
  do plugins <- retrieve_config_item_filters (target_kind_to_string TargetGateway) (name_any g) (namespace g);
  do wasm <- retrieve_higress_gateway_plugins (namespace g);
  do listeners <- op_join retrieve_listener (gs_listeners (o_spec g));
  op_ret (MkSgGateway (name_any g) (parameters_from_kube g) listeners (plugins ++ wasm)).

(** *** Routes *)

Definition route_priority_of (r : HttpSpaceroute) : Z :=
  default 0 (a ← bt_get ANNOTATION_RESOURCE_PRIORITY (annotations r); parse_signed 16 a).
Definition route_kind_of (r : HttpSpaceroute) : string :=
  default (target_kind_to_string TargetHttpspaceroute) (bt_get RAW_HTTP_ROUTE_KIND (annotations r)).
Definition kube_httpspaceroute_2_sg_route (r : HttpSpaceroute) : Op_ (SgHttpRoute PluginBinding) :=
  do plugins <- retrieve_config_item_filters (route_kind_of r) (name_any r) (namespace r);
  do rules <- op_lift (transpose_map (collect_results rule_from_kube) (hs_rules (o_spec r)));
  apply_higress_wasm_route_plugins (namespace r)
    (MkSgHttpRoute (name_any r) (hs_hostnames (o_spec r)) plugins (default [] rules) (route_priority_of r)).
Definition kube_httproute_2_sg_route (r : KHttpRoute) : Op_ (SgHttpRoute PluginBinding) :=
  kube_httpspaceroute_2_sg_route (spaceroute_of_httproute r).
Definition kube_mcproute_2_sg_route (r : McpRoute) : Op_ (SgMcpRoute PluginBinding) :=
  do plugins <- retrieve_config_item_filters (target_kind_to_string TargetMcpRoute) (name_any r) (namespace r);
  let s := o_spec r in
  do backends <- op_lift (backends_from_kube (ms_backend_refs s));
  apply_higress_wasm_mcp_route_plugins (namespace r)
    (MkSgMcpRoute (name_any r) (ms_hostnames s) (ms_transport s) (ms_path s) (ms_legacy_sse s) backends plugins
       (ms_timeout_mode s) (ms_session_affinity s)).

(** Whether a route is attached to the gateway, in its own namespace. *)
Definition attached_to (gateway_name : string) (route_ns : option string) (refs : ParentRefs) : bool :=
  match refs with
  | Some refs => existsb (λ p, bool_decide (pr_namespace p = route_ns) && bool_decide (pr_name p = gateway_name)) refs
  | None => false
  end.
Definition mcp_attached (gateway_name : string) (r : McpRoute) : bool :=
  attached_to gateway_name (namespace r) (ms_parent_refs (o_spec r)).
Definition spaceroute_attached (gateway_name : string) (r : HttpSpaceroute) : bool :=
  attached_to gateway_name (namespace r) (hs_parent_refs (o_spec r)).
Definition httproute_attached (gateway_name : string) (r : KHttpRoute) : bool :=
  attached_to gateway_name (namespace r) (rs_parent_refs (o_spec r)).
Definition only_if {A} (p : A → bool) (o : option A) : option A := x ← o; if p x then Some x else None.

Definition k8s_retrieve_route (gateway_name route_name : string) : Op_ (option Route_) :=
  do mcp <- api_get KdMcpRoute (Some ns) route_name;
  match only_if (mcp_attached gateway_name) mcp with
  | Some r => do r <- kube_mcproute_2_sg_route r; op_ret (Some (RouteMcp r))
  | None =>
      do spaceroute <- api_get KdHttpSpaceroute (Some ns) route_name;
      match only_if (spaceroute_attached gateway_name) spaceroute with
      | Some r => do r <- kube_httpspaceroute_2_sg_route r; op_ret (Some (RouteHttp r))
      | None =>
          do httproute <- api_get KdHttpRoute (Some ns) route_name;
          match only_if (httproute_attached gateway_name) httproute with
          | Some r => do r <- kube_httproute_2_sg_route r; op_ret (Some (RouteHttp r))
          | None => op_ret None
          end
      end
  end.
Definition k8s_retrieve_route_names (name : string) : Op_ (list string) :=
  do mcps <- api_list KdMcpRoute (Some ns);
  do spaceroutes <- api_list KdHttpSpaceroute (Some ns);
  do httproutes <- api_list KdHttpRoute (Some ns);
  op_ret ((name_any <$> List.filter (mcp_attached name) mcps) ++
          (name_any <$> List.filter (spaceroute_attached name) spaceroutes) ++
          (name_any <$> List.filter (httproute_attached name) httproutes)).
Definition k8s_retrieve_gateway (gateway_name : string) : Op_ (option Gateway_) :=
  do g <- api_get KdGateway (Some ns) gateway_name;
  match only_if (λ g, gateway_uses_class g class) g with
  | Some g => do g <- kube_gateway_2_sg_gateway g; op_ret (Some g)
  | None => op_ret None
  end.
Definition k8s_retrieve_names : Op_ (list string) :=
  do gs <- api_list KdGateway (Some ns);
  op_ret (name_any <$> List.filter (λ g, gateway_uses_class g class) gs).

(** *** Plugins *)

Definition resolve_higress_wasm_oci_auth (p : WasmPlugin) : Op_ (option Json) :=
  match oci_registry p, pull_secret p with
  | Some registry, Some secret_name =>
      do secret <- api_get KdSecret (Some (default ns (namespace p))) secret_name;
      op_ret (s ← secret; oci_auth_from_secret s registry)
  | _, _ => op_ret None
  end.
Definition wasm_configs (p : WasmPlugin) : Op_ (list (PluginConfig Json)) :=
  do auth <- resolve_higress_wasm_oci_auth p; op_ret (to_spacegate_plugin_configs_with_oci_auth auth p).
Definition k8s_retrieve_all_plugins : Op_ (list (PluginConfig Json)) :=
  do filters <- api_list KdSgFilter (Some ns);
  do wasm <- api_list KdWasmPlugin (Some ns);
  do configs <- op_map wasm_configs (sort_higress_wasm_plugins wasm);
  op_ret (omap from_first_filter_obj filters ++ mjoin configs).
Definition k8s_retrieve_plugin (id : PluginInstanceId) : Op_ (option (PluginConfig Json)) :=
  match wasm_object_name id with
  | Some wasm_name =>
      do p <- api_get KdWasmPlugin (Some ns) wasm_name;
      match p with
      | Some p =>
          do auth <- resolve_higress_wasm_oci_auth p;
          op_ret (to_spacegate_plugin_config_by_id_with_oci_auth id auth p)
      | None => op_ret None
      end
  | None =>
      match id_name id with
      | Named name => do f <- api_get KdSgFilter (Some ns) name; op_ret (f ≫= from_first_filter_obj)
      | Anon _ | Mono => op_ret None
      end
  end.
Definition k8s_retrieve_plugins_by_code (code : string) : Op_ (list (PluginConfig Json)) :=
  do ps <- k8s_retrieve_all_plugins;
  op_ret (List.filter (λ p, bool_decide (id_code (cfg_id p) = code)) ps).

#[export] Instance k8s_retrieve : Retrieve C := {|
  retrieve_config_item_gateway := k8s_retrieve_gateway;
  retrieve_config_item_route := k8s_retrieve_route;
  retrieve_config_item_route_names := k8s_retrieve_route_names;
  retrieve_config_names := k8s_retrieve_names;
  retrieve_all_plugins := k8s_retrieve_all_plugins;
  retrieve_plugin := k8s_retrieve_plugin;
  retrieve_plugins_by_code := k8s_retrieve_plugins_by_code;
|}.

(** ** Writing: [update.rs] *)

Definition k8s_update_plugin (config : PluginConfig Json) : Op_ unit :=
  match to_singe_filter (cfg_id config) (cfg_spec config) (cfg_display_name config) None ns with
  | None => op_ret ()
  | Some filter =>
      do old <- api_get KdSgFilter (Some ns) (ss_name filter);
      match old with
      | Some old =>
          let new := filter_of_single filter in
          api_replace KdSgFilter ns (name_any old)
            (MkObject (set_resource_version (md_resource_version (o_meta old)) (o_meta new))
               (set_target_refs (fs_target_refs (o_spec old)) (o_spec new)) (o_status new))
      | None => op_lift (Err ("raw filter " +:+ id_to_string (cfg_id config) +:+ " not found"))
      end
  end.

Definition update_secret (old new : option Secret) : Op_ unit :=
  match old, new with
  | Some old, Some new =>
      if decide (name_any old = name_any new) then
        api_replace KdSecret ns (name_any new) (with_meta (set_resource_version (md_resource_version (o_meta old))) new)
      else api_create KdSecret ns new
  | Some old, None => api_delete KdSecret ns (name_any old)
  | None, Some new => api_create KdSecret ns new
  | None, None => op_ret ()
  end.
Definition k8s_update_gateway (gateway_name : string) (g : Gateway_) : Op_ unit :=
  let '(gateway, secret, update) := to_kube_gateway g ns class in
  do old <- k8s_retrieve_gateway gateway_name;
  match old with
  | None => op_lift (Err ("[Sg.Config] gateway [" +:+ gateway_name +:+ "] not found ,update failed"))
  | Some old =>
      let '(_, old_secret, old_plugins) := to_kube_gateway old ns class in
      do current <- api_get_found KdGateway (Some ns) gateway_name;
      let gateway := with_meta (set_resource_version (md_resource_version (o_meta current))) gateway in
      do _ <- api_replace KdGateway ns gateway_name gateway;
      do _ <- update_secret old_secret secret;
      update_plugin_ids_changes old_plugins update (object_target TargetGateway gateway)
  end.

(** [replace] with the version of the object that is there. *)
Definition replace_version (k : Kind) (o : Obj k) (old : Obj k) : Op_ unit :=
  api_replace k ns (name_any o) (with_meta (set_resource_version (md_resource_version (o_meta old))) o).
(** A route that is there in another kind is deleted, then created. *)
Definition recreate (from to : Kind) (o : Obj to) : Op_ unit :=
  do _ <- api_delete from ns (name_any o); api_create to ns o.
Definition put_route_object (k first second : Kind) (route_name : string) (o : Obj k) : Op_ unit :=
  do old <- api_get k (Some ns) (name_any o);
  match old with
  | Some old => replace_version k o old
  | None =>
      do r1 <- api_get first (Some ns) (name_any o);
      match r1 with
      | Some _ => recreate first k o
      | None =>
          do r2 <- api_get second (Some ns) (name_any o);
          match r2 with
          | Some _ => recreate second k o
          | None => op_lift (Err ("raw route " +:+ route_name +:+ " not found"))
          end
      end
  end.
Definition k8s_update_route (gateway_name route_name : string) (r : Route_) : Op_ unit :=
  let route := to_kube_route r gateway_name route_name ns in
  do old <- k8s_retrieve_route gateway_name route_name;
  do _ <- match route with
          | KubeHttp o _ => put_route_object KdHttpSpaceroute KdHttpRoute KdMcpRoute route_name o
          | KubeMcp o _ => put_route_object KdMcpRoute KdHttpSpaceroute KdHttpRoute route_name o
          end;
  update_plugin_ids_changes
    (match old with Some old => plugin_bindings (to_kube_route old gateway_name route_name ns) | None => [] end)
    (plugin_bindings route) (route_target_ref route).

#[export] Instance k8s_update : Update C := {|
  update_config_item_gateway := k8s_update_gateway;
  update_config_item_route := k8s_update_route;
  update_plugin := k8s_update_plugin;
|}.

(** ** [create.rs] *)

Definition bind_all (bs : list PluginBinding) (target : TargetRef) : Op_ unit :=
  op_for (λ b, add_filter_target (binding_id b) target (binding_priority b)) bs.
Definition k8s_create_gateway (_gateway_name : string) (g : Gateway_) : Op_ unit :=
  let '(gateway, secret, plugins) := to_kube_gateway g ns class in
  do _ <- api_create KdGateway ns gateway;
  do _ <- match secret with Some secret => api_create KdSecret ns secret | None => op_ret () end;
  bind_all plugins (object_target TargetGateway gateway).
Definition k8s_create_route (gateway_name route_name : string) (r : Route_) : Op_ unit :=
  let route := to_kube_route r gateway_name route_name ns in
  do _ <- match route with
          | KubeHttp o _ => api_create KdHttpSpaceroute ns o
          | KubeMcp o _ => api_create KdMcpRoute ns o
          end;
  bind_all (plugin_bindings route) (route_target_ref route).
Definition k8s_create_plugin (config : PluginConfig Json) : Op_ unit :=
  match to_singe_filter (cfg_id config) (cfg_spec config) (cfg_display_name config) None ns with
  | None => op_ret ()
  | Some filter =>
      do old <- api_get KdSgFilter (Some ns) (ss_name filter);
      match old with
      | None => api_create KdSgFilter ns (filter_of_single filter)
      | Some _ =>
          k8s_update_plugin (MkPluginConfig (extract_from_filter (ss_filter filter) (ss_name filter))
            (sf_display_name (ss_filter filter)) (sf_config (ss_filter filter)))
      end
  end.

#[export] Instance k8s_create : Create C := {|
  create_config_item_gateway := k8s_create_gateway;
  create_config_item_route := k8s_create_route;
  create_plugin := k8s_create_plugin;
|}.

(** ** [delete.rs] *)

Definition unbind_all (bs : list PluginBinding) (target : TargetRef) : Op_ unit :=
  op_for (λ b, remove_filter_target (binding_id b) target) bs.
Definition k8s_delete_gateway (gateway_name : string) : Op_ unit :=
  do old <- k8s_retrieve_gateway gateway_name;
  match old with
  | None => op_ret ()
  | Some g =>
      let '(gateway, secret, plugins) := to_kube_gateway g ns class in
      do _ <- match secret with Some secret => api_delete KdSecret ns (name_any secret) | None => op_ret () end;
      do _ <- unbind_all plugins (object_target TargetGateway gateway);
      api_delete KdGateway ns gateway_name
  end.
(** [l.join(sep)] *)
Fixpoint join_with (sep : string) (l : list string) : string :=
  match l with [] => "" | [s] => s | s :: l => s +:+ sep +:+ join_with sep l end.
(** The first deletion that is done. *)
Definition op_or_else {A} (m : Op_ A) (k : string → Op_ A) : Op_ A := λ c,
  match m c with (Ok a, c) => (Ok a, c) | (Err e, c) => k e c end.
Definition k8s_delete_route (gateway_name route_name : string) : Op_ unit :=
  do old <- k8s_retrieve_route gateway_name route_name;
  match old with
  | None => op_ret ()
  | Some r =>
      let route := to_kube_route r gateway_name route_name ns in
      do _ <- unbind_all (plugin_bindings route) (route_target_ref route);
      match route with
      | KubeHttp _ _ =>
          op_or_else (api_delete KdHttpSpaceroute ns route_name) (λ f_e,
            op_or_else (api_delete KdHttpRoute ns route_name) (λ s_e,
              op_lift (Err ("Failed to delete route " +:+ route_name +:+ ": httpspaceroute: " +:+ f_e +:+ ", httproute: " +:+ s_e))))
      | KubeMcp _ _ => api_delete KdMcpRoute ns route_name
      end
  end.
Definition k8s_delete_plugin (id : PluginInstanceId) : Op_ unit :=
  op_if_ok (api_get_found KdSgFilter (Some ns) (to_raw_str (id_name id))) (λ f,
    match fs_target_refs (o_spec f) with
    | [] => api_delete KdSgFilter ns (name_any f)
    | refs => op_lift (Err ("The filter have references [" +:+ join_with ", " (target_to_string <$> refs) +:+ "]"))
    end).

#[export] Instance k8s_delete : ConfigService.Delete C := {|
  delete_config_item_gateway := k8s_delete_gateway;
  delete_config_item_route := k8s_delete_route;
  delete_plugin := k8s_delete_plugin;
|}.

(** ** [discovery.rs] *)

Record K8sGatewayInstance := MkInstance { inst_name : string; inst_uri : string }.
Definition resolve_gateway_instance (explicit : option string) (labels_ : StrMap) : string :=
  default DEFAULT_GATEWAY_INSTANCE
    (opt_or (s ← str_trim <$> explicit; if str_is_empty s then None else Some s) (bt_get KUBE_OBJECT_INSTANCE labels_)).
Definition pod_instance (ds : Obj KdDaemonSet) (p : Obj KdPod) : option K8sGatewayInstance :=
  status ← o_status p; ip ← pod_host_ip status;
  if existsb (λ o, bool_decide (ow_uid o = default "" (md_uid (o_meta ds))) && bool_decide (ow_name o = name_any ds))
       (default [] (md_owner_references (o_meta p)))
  then Some (MkInstance (name_any ds) (ip +:+ ":" +:+ z_string DEFAULT_API_PORT)) else None.
Definition k8s_instances : Op_ (list K8sGatewayInstance) :=
  do gc <- api_get KdGatewayClass None class;
  match gc with
  | None => op_lift (Err ("gateway class '" +:+ class +:+ "' not found"))
  | Some gc =>
      let instance := resolve_gateway_instance (k8s_gateway_instance self) (labels gc) in
      let '(ds_ns, ds_name) := match str_split "." instance with
                               | [name; ns'] => (ns', name)
                               | _ => (ns, instance)
                               end in
      do ds <- api_get KdDaemonSet (Some ds_ns) ds_name;
      match ds with
      | None => op_lift (Err "spacegate instance not found")
      | Some ds => do pods <- api_list KdPod (Some ds_ns); op_ret (omap (pod_instance ds) pods)
      end
  end.
Definition k8s_backends : Op_ (list BackendHost) :=
  do services <- api_list KdService None;
  op_ret ((λ s, K8sService (MkK8sService (name_any s) (namespace s))) <$> services).
End backend.
