(* ===== verification/K8sStoreFacts.v ===== *)
(** * Kubernetes: what the backend guarantees

    The expectations of the API server ([KubeLaws]), and what an edit does to the objects: it
    leaves exactly the bindings it asks for ([bindings_after_update]). The server of [K8sCluster]
    meets the expectations. *)

From S2P Require Export K8sStore.
From S2P Require Import K8sRoundtrip.
Local Open Scope string_scope.
Local Open Scope list_scope.
Local Open Scope Z_scope.

(** ** The API server, seen as maps of objects by namespace and name

    A request that reads leaves the objects alone. A replacement that succeeds puts the object
    under its name, with what the server adds to its metadata, and changes no other object. An
    object is called by its name. *)

Notation View := (∀ k : Kind, gmap (string * string) (Obj k)).
Definition same_content {k} (o o' : Obj k) : Prop :=
  o_spec o = o_spec o' ∧ md_annotations (o_meta o) = md_annotations (o_meta o') ∧ md_labels (o_meta o) = md_labels (o_meta o').

Class KubeLaws {C} (A : KubeApi C) (view : C → View) : Prop := {
  view_named c k n name o : view c k !! (n, name) = Some o → name_any o = name ∧ namespace o = Some n;
  get_reads c k n name r c' : api_get k (Some n) name c = (r, c') →
    (∀ k, view c' k = view c k) ∧ ∀ o, r = Ok o → o = view c k !! (n, name);
  list_reads c k n r c' : api_list k n c = (r, c') →
    (∀ k, view c' k = view c k) ∧
    ∀ os, r = Ok os → ∀ o, o ∈ os ↔ ∃ n' name, view c k !! (n', name) = Some o ∧ (n = None ∨ n = Some n');
  replace_puts c k n name o c' : api_replace k n name o c = (Ok (), c') →
    (∃ o', view c' k !! (n, name) = Some o' ∧ same_content o o') ∧
    ∀ k' n' name', (k', n', name') ≠ (k, n, name) → view c' k' !! (n', name') = view c k' !! (n', name');
}.

Section bindings.
Context {C : Type} `{!KubeApi C} (view : C → View) `{!KubeLaws KubeApi0 view} {V : HashOrder} `{!HashOrderLaws V}.
Context (self : K8s).
Notation ns := (k8s_namespace_ self).

(** The plugin object of a name. *)
Definition plugin_spec (c : C) (name : string) : option SgFilterSpec := o_spec <$> view c KdSgFilter !! (ns, name).
Definition raw (id : PluginInstanceId) : string := to_raw_str (id_name id).

Definition with_target (target : TargetRef) (priority : Z) (s : SgFilterSpec) : SgFilterSpec :=
  let target := set_target_priority priority target in
  set_target_refs
    (if existsb (λ r, target_eqb r target) (fs_target_refs s) then set_first_priority target priority (fs_target_refs s)
     else fs_target_refs s ++ [target]) s.
Definition without_target (target : TargetRef) (s : SgFilterSpec) : SgFilterSpec :=
  set_target_refs (List.filter (λ r, negb (target_eqb r target)) (fs_target_refs s)) s.

(** The server answers when it is asked for a plugin object. *)
Definition reads_plugins : Prop := ∀ c name, ∃ o c', api_get KdSgFilter (Some ns) name c = (Ok o, c').
Context (Hreads : reads_plugins).

(** An operation that has the effect [f] on the object [name], if it is there, and no other. *)
Definition affects (m : OpE C string unit) (name : string) (f : SgFilterSpec → SgFilterSpec) : Prop :=
  ∀ c c', m c = (Ok (), c') →
    ∀ n, plugin_spec c' n = if decide (n = name) then f <$> plugin_spec c n else plugin_spec c n.

(** *** One plugin object *)

Lemma get_found_spec name c r c' : api_get_found KdSgFilter (Some ns) name c = (r, c') →
  (∀ k, view c' k = view c k) ∧
  match view c KdSgFilter !! (ns, name) with Some f => r = Ok f | None => ∃ e, r = Err e end.
Proof.
  unfold api_get_found, op_bind. destruct (Hreads c name) as (o & c1 & Hg). rewrite Hg.
  destruct (get_reads c KdSgFilter ns name _ _ Hg) as [Hv Ho]. rewrite <- (Ho o eq_refl). destruct o as [f|]; intros [= <- <-]; [done|].
  split; [done|]. by eexists.
Qed.
Lemma plugin_spec_view c c' : (∀ k, view c' k = view c k) → ∀ n, plugin_spec c' n = plugin_spec c n.
Proof. intros Hv n. unfold plugin_spec. by rewrite Hv. Qed.
Lemma plugin_spec_at c n (o : SgFilter) : view c KdSgFilter !! (ns, n) = Some o → plugin_spec c n = Some (o_spec o).
Proof. intros Ho. exact (f_equal (option_map o_spec) Ho). Qed.
Lemma plugin_spec_none c n : view c KdSgFilter !! (ns, n) = None → plugin_spec c n = None.
Proof. intros Ho. exact (f_equal (option_map o_spec) Ho). Qed.
Lemma plugin_spec_eq c c' n : view c' KdSgFilter !! (ns, n) = view c KdSgFilter !! (ns, n) → plugin_spec c' n = plugin_spec c n.
Proof. intros Ho. exact (f_equal (option_map o_spec) Ho). Qed.
Lemma replace_filter_affects c c' name f refs : view c KdSgFilter !! (ns, name) = Some f →
  replace_filter self f refs c = (Ok (), c') →
  ∀ n, plugin_spec c' n = if decide (n = name) then set_target_refs refs <$> plugin_spec c n else plugin_spec c n.
Proof.
  intros Hf Hr n. pose proof (proj1 (view_named c KdSgFilter ns name f Hf) : name_any (Spec:=SgFilterSpec) (Status:=unit) f = name) as Hn. unfold replace_filter in Hr. rewrite Hn in Hr.
  destruct (replace_puts c KdSgFilter ns name _ c' Hr) as [(o' & Ho' & Hc & _) Hother]. case_decide as E.
  - subst n. rewrite (plugin_spec_at _ _ _ Ho'), (plugin_spec_at _ _ _ Hf). exact (f_equal Some (eq_sym Hc)).
  - apply plugin_spec_eq, Hother. congruence.
Qed.

Lemma set_first_priority_same t p refs r :
  List.find (λ r, target_eqb r t) refs = Some r → tr_priority r = p → set_first_priority t p refs = refs.
Proof.
  induction refs as [|r' refs IH]; [done|]. cbn. destruct (target_eqb r' t); intros Hf Hp.
  - injection Hf as ->. f_equal. subst p. by destruct r.
  - f_equal. by apply IH.
Qed.
Lemma find_existsb {A} (p : A → bool) l : existsb p l = bool_decide (is_Some (List.find p l)).
Proof. induction l as [|x l IH]; [done|]. cbn. by destruct (p x). Qed.
Lemma set_target_refs_same s : set_target_refs (fs_target_refs s) s = s.
Proof. by destruct s. Qed.

Lemma add_filter_target_affects id target priority :
  affects (add_filter_target self id target priority) (raw id) (with_target target priority).
Proof.
  intros c c' Hm n. unfold add_filter_target, op_if_ok in Hm.
  destruct (api_get_found KdSgFilter (Some ns) (to_raw_str (id_name id)) c) as [r c1] eqn:Hg.
  apply get_found_spec in Hg as [Hv Hr]. pose proof (plugin_spec_view _ _ Hv n) as Hn.
  destruct (view c KdSgFilter !! (ns, to_raw_str (id_name id))) as [f|] eqn:Hf.
  - subst r. rewrite <- Hv in Hf.
    assert (plugin_spec c' n = if decide (n = raw id) then set_target_refs (fs_target_refs (with_target target priority (o_spec f))) <$> plugin_spec c1 n
                               else plugin_spec c1 n) as ->.
    + unfold with_target. cbn [set_target_refs fs_target_refs]. rewrite find_existsb.
      destruct (List.find _ (fs_target_refs (o_spec f))) as [existing|] eqn:Ef; [|by eapply replace_filter_affects].
      rewrite bool_decide_eq_true_2 by eauto. case_decide as Ep; [|by eapply replace_filter_affects].
      injection Hm as <-. rewrite (set_first_priority_same _ _ _ existing) by done. case_decide as E; [|done]. subst n.
      rewrite (plugin_spec_at c1 (raw id) f Hf). cbn. by rewrite set_target_refs_same.
    + rewrite Hn. case_decide as E; [|done]. subst n. rewrite <- Hn. by rewrite (plugin_spec_at c1 (raw id) f Hf).
  - destruct Hr as [e ->]. injection Hm as <-. rewrite Hn. case_decide as E; [|done]. subst n.
    by rewrite (plugin_spec_none c (raw id) Hf).
Qed.
Lemma filter_none_eq t refs : existsb (λ r, target_eqb r t) refs = false → List.filter (λ r, negb (target_eqb r t)) refs = refs.
Proof.
  intros H. apply filter_all. intros r Hr. apply negb_true_iff. apply not_true_iff_false. intros Ht.
  assert (existsb (λ r, target_eqb r t) refs = true); [|congruence]. apply existsb_Exists, Exists_exists. eauto.
Qed.
Lemma remove_filter_target_affects id target :
  affects (remove_filter_target self id target) (raw id) (without_target target).
Proof.
  intros c c' Hm n. unfold remove_filter_target, op_if_ok in Hm. fold (raw id) in Hm.
  destruct (api_get_found KdSgFilter (Some ns) (raw id) c) as [r c1] eqn:Hg.
  apply get_found_spec in Hg as [Hv Hr]. pose proof (plugin_spec_view _ _ Hv n) as Hn.
  destruct (view c KdSgFilter !! (ns, raw id)) as [f|] eqn:Hf.
  - subst r. rewrite <- Hv in Hf. destruct (existsb _ (fs_target_refs (o_spec f))) eqn:Ef.
    + rewrite (replace_filter_affects _ _ _ _ _ Hf Hm n), Hn. case_decide as E; [|done]. subst n. rewrite <- Hn.
      by rewrite (plugin_spec_at c1 (raw id) f Hf).
    + injection Hm as <-. rewrite Hn. case_decide as E; [|done]. subst n. rewrite <- Hn. rewrite (plugin_spec_at c1 (raw id) f Hf). cbn.
      unfold without_target. by rewrite filter_none_eq, set_target_refs_same.
  - destruct Hr as [e ->]. injection Hm as <-. rewrite Hn. case_decide as E; [|done]. subst n.
    by rewrite (plugin_spec_none c (raw id) Hf).
Qed.

(** *** Many *)

Lemma op_for_affects {A} (m : A → OpE C string unit) (name : A → string) (f : A → SgFilterSpec → SgFilterSpec) l :
  (∀ x, affects (m x) (name x) (f x)) →
  ∀ c c', op_for m l c = (Ok (), c') →
  ∀ n, plugin_spec c' n = foldl (λ s x, if decide (n = name x) then f x <$> s else s) (plugin_spec c n) l.
Proof.
  intros Hm. induction l as [|x l IH]; intros c c' Hl n; cbn in *; [by injection Hl as <-|].
  unfold op_bind in Hl. destruct (m x c) as [[[]|e] c1] eqn:Hx; [|done]. rewrite <- (Hm x _ _ Hx n). by apply IH.
Qed.
Lemma foldl_no_touch {A} (name : A → string) (f : A → SgFilterSpec → SgFilterSpec) l n (s : option SgFilterSpec) :
  (∀ x, x ∈ l → n ≠ name x) → foldl (λ s x, if decide (n = name x) then f x <$> s else s) s l = s.
Proof.
  revert s. induction l as [|x l IH]; intros s Hl; [done|]. cbn. rewrite decide_False by (apply Hl; left).
  apply IH. intros y Hy. apply Hl. by right.
Qed.
Lemma foldl_touch {A} (name : A → string) (f : A → SgFilterSpec → SgFilterSpec) l x (s : option SgFilterSpec) :
  x ∈ l → NoDup l → (∀ y, y ∈ l → name y = name x → y = x) →
  foldl (λ s y, if decide (name x = name y) then f y <$> s else s) s l = f x <$> s.
Proof.
  revert s. induction l as [|y l IH]; intros s Hx Hnd Hinj; [set_solver|]. apply NoDup_cons in Hnd as [Hy Hnd]. cbn.
  destruct (decide (name x = name y)) as [E|E].
  - assert (y = x) as -> by (apply Hinj; [left|done]). apply foldl_no_touch. intros z Hz Hzn.
    assert (z = x) as -> by (apply Hinj; [by right|done]). done.
  - apply IH; [|done|].
    + apply elem_of_cons in Hx as [->|Hx]; done.
    + intros z Hz. apply Hinj. by right.
Qed.

(** *** The bindings of a target *)

(** The priority with which an object is bound to a target. *)
Definition bound (target : TargetRef) (s : SgFilterSpec) : option Z :=
  tr_priority <$> List.find (λ r, target_eqb r target) (fs_target_refs s).
Lemma target_eqb_trans t u w : target_eqb t u = true → target_eqb t w = target_eqb u w.
Proof. intros Htu%target_eqb_spec. apply eq_true_iff_eq. by rewrite !target_eqb_spec, Htu. Qed.
Lemma find_set_first t p u refs :
  tr_priority <$> List.find (λ r, target_eqb r u) (set_first_priority t p refs) =
    if target_eqb t u && existsb (λ r, target_eqb r t) refs then Some p
    else tr_priority <$> List.find (λ r, target_eqb r u) refs.
Proof.
  induction refs as [|r refs IH]; [cbn; by rewrite andb_false_r|]. cbn. destruct (target_eqb r t) eqn:Et; cbn.
  - rewrite target_eqb_priority, andb_true_r. rewrite (target_eqb_trans _ _ u Et). by destruct (target_eqb t u).
  - destruct (target_eqb r u) eqn:Eu; [|exact IH]. destruct (target_eqb t u) eqn:Etu; [|done].
    rewrite target_eqb_sym in Et. rewrite (target_eqb_trans _ _ r Etu), target_eqb_sym, Eu in Et. done.
Qed.
Lemma find_app {A} (p : A → bool) l k :
  List.find p (l ++ k) = match List.find p l with Some x => Some x | None => List.find p k end.
Proof. induction l as [|x l IH]; [done|]. cbn. by destruct (p x). Qed.
Lemma bound_with_target t p u s : bound u (with_target t p s) = if target_eqb t u then Some p else bound u s.
Proof.
  unfold bound, with_target. cbn [set_target_refs fs_target_refs].
  destruct (existsb (λ r, target_eqb r (set_target_priority p t)) (fs_target_refs s)) eqn:E.
  - rewrite find_set_first, E, andb_true_r. done.
  - rewrite find_app. cbn. rewrite target_eqb_priority. rewrite find_existsb in E. apply bool_decide_eq_false in E.
    destruct (target_eqb t u) eqn:Etu; [|by destruct (List.find (λ r, target_eqb r u) (fs_target_refs s))].
    destruct (List.find (λ r, target_eqb r u) (fs_target_refs s)) as [r|] eqn:Er; [|done]. exfalso. apply E.
    destruct (List.find (λ r, target_eqb r (set_target_priority p t)) (fs_target_refs s)) eqn:E2; [done|].
    apply find_some in Er as [Hin Hr]. pose proof (find_none _ _ E2 _ Hin) as H2. cbn in H2.
    rewrite target_eqb_sym, target_eqb_priority in H2. rewrite (target_eqb_trans _ _ r Etu), target_eqb_sym in H2. congruence.
Qed.
Lemma bound_without_target t u s : bound u (without_target t s) = if target_eqb t u then None else bound u s.
Proof.
  unfold bound, without_target. cbn [set_target_refs fs_target_refs]. induction (fs_target_refs s) as [|r refs IH]; cbn.
  - by destruct (target_eqb t u).
  - destruct (target_eqb r t) eqn:Et; cbn.
    + rewrite IH. rewrite (target_eqb_trans _ _ u Et). by destruct (target_eqb t u).
    + destruct (target_eqb r u) eqn:Eu; [|exact IH]. destruct (target_eqb t u) eqn:Etu; [|done].
      rewrite target_eqb_sym in Et. rewrite (target_eqb_trans _ _ r Etu), target_eqb_sym in Et. congruence.
Qed.

(** The bindings of an edit on an object: what its identity gets, if the object has one of the
    identities of the edit. *)
Definition update_effect (old update : list PluginBinding) (target : TargetRef) (name : string)
    (s s' : option SgFilterSpec) : Prop :=
  (∀ id p, binding_map update !! id = Some p → raw id = name → s' = with_target target p <$> s) ∧
  (∀ id, id ∈ unbound_ids old update → raw id = name → s' = without_target target <$> s) ∧
  ((∀ id, id ∈ dom (binding_map update) ∨ id ∈ unbound_ids old update → raw id ≠ name) → s' = s).
Definition distinct_names (old update : list PluginBinding) : Prop :=
  ∀ i j, i ∈ binding_id <$> (old ++ update) → j ∈ binding_id <$> (old ++ update) → raw i = raw j → i = j.

Lemma binding_map_dom update id : id ∈ dom (binding_map update) ↔ id ∈ binding_id <$> update.
Proof.
  unfold binding_map. assert (∀ m : gmap PluginInstanceId Z, id ∈ dom (foldl (λ m b, <[binding_id b:=binding_priority b]> m) m update) ↔
    id ∈ dom m ∨ id ∈ binding_id <$> update) as Hm.
  { induction update as [|b bs IH]; intros m; [set_solver|]. cbn. rewrite IH, dom_insert. set_solver. }
  rewrite Hm. set_solver.
Qed.
Lemma unbound_ids_elem old update id : id ∈ unbound_ids old update ↔ id ∈ binding_id <$> old ∧ id ∉ dom (binding_map update).
Proof. unfold unbound_ids. rewrite elem_of_elements, elem_of_difference, elem_of_list_to_set. done. Qed.

Lemma update_changes old update target c c' :
  distinct_names old update → update_plugin_ids_changes self old update target c = (Ok (), c') →
  ∀ name, update_effect old update target name (plugin_spec c name) (plugin_spec c' name).
Proof.
  intros Hinj Hu name.
  assert (op_bind (op_for (λ kv, add_filter_target self kv.1 target kv.2) (hash_visit (map_to_list (binding_map update))))
    (λ _, op_for (λ id, remove_filter_target self id target) (hash_visit (unbound_ids old update))) c = (Ok (), c')) as Hb.
  { destruct old, update; try exact Hu. cbn in Hu. injection Hu as <-. unfold binding_map, unbound_ids. cbn.
    assert (∀ A, hash_visit (@nil A) = []) as Hv by (intros A; apply Permutation_nil, symmetry, (hash_visit_perm A [])).
    rewrite map_to_list_empty, Hv. cbn.
    assert (unbound_ids [] [] = []) as He by (vm_compute; reflexivity). unfold unbound_ids, binding_map in He. cbn in He.
    rewrite He, Hv. done. }
  unfold op_bind in Hb. destruct (op_for _ (hash_visit (map_to_list (binding_map update))) c) as [[[]|e] c1] eqn:H1; [|done].
  pose proof (op_for_affects _ (λ kv, raw kv.1) (λ kv, with_target target kv.2) _
    (λ kv, add_filter_target_affects kv.1 target kv.2) c c1 H1 name) as E1.
  pose proof (op_for_affects _ raw (λ _, without_target target) _
    (λ id, remove_filter_target_affects id target) c1 c' Hb name) as E2.
  assert (∀ id p, (id, p) ∈ hash_visit (map_to_list (binding_map update)) ↔ binding_map update !! id = Some p) as Hadd.
  { intros id p. rewrite hash_visit_perm. apply elem_of_map_to_list. }
  assert (∀ id, id ∈ hash_visit (unbound_ids old update) ↔ id ∈ unbound_ids old update) as Hrem.
  { intros id. by rewrite hash_visit_perm. }
  assert (∀ id p, binding_map update !! id = Some p → id ∈ binding_id <$> (old ++ update)) as Hin1.
  { intros id p Hp. rewrite fmap_app. apply elem_of_app. right. apply binding_map_dom. by eapply elem_of_dom_2. }
  assert (∀ id, id ∈ unbound_ids old update → id ∈ binding_id <$> (old ++ update)) as Hin2.
  { intros id Hid. rewrite fmap_app. apply elem_of_app. left. by apply unbound_ids_elem in Hid as [? _]. }
  split_and!.
  - intros id p Hp <-. rewrite E2, foldl_no_touch.
    + rewrite E1. apply (foldl_touch (λ kv : PluginInstanceId * Z, raw kv.1) (λ kv, with_target target kv.2) _ (id, p)).
      * by apply Hadd.
      * rewrite hash_visit_perm. apply NoDup_map_to_list.
      * intros [id' p'] Hp' E. apply Hadd in Hp'. cbn in E.
        assert (id' = id) as -> by (apply Hinj; eauto; congruence). by simplify_eq.
    + intros id' Hid'%Hrem E. assert (id' = id) as -> by (apply Hinj; eauto; congruence).
      apply unbound_ids_elem in Hid' as [_ Hid']. apply Hid'. by eapply elem_of_dom_2.
  - intros id Hid <-. rewrite E2.
    rewrite (foldl_touch raw (λ _, without_target target) _ id).
    + f_equal. rewrite E1. apply foldl_no_touch. intros [id' p] Hp%Hadd E. cbn in E.
      assert (id' = id) as -> by (apply Hinj; eauto; congruence). apply unbound_ids_elem in Hid as [_ Hid]. apply Hid. by eapply elem_of_dom_2.
    + by apply Hrem.
    + rewrite hash_visit_perm. apply NoDup_elements.
    + intros id' Hid' E. apply Hinj; [by apply Hin2, Hrem|by apply Hin2|done].
  - intros Hno. rewrite E2, foldl_no_touch.
    + rewrite E1. apply foldl_no_touch. intros [id p] Hp%Hadd E. eapply (Hno id); [left; by eapply elem_of_dom_2|done].
    + intros id Hid%Hrem E. by eapply (Hno id); [right|].
Qed.

End bindings.
