(* ===== verification/K8sCluster.v ===== *)
(** * Kubernetes: a cluster to run the backend on

    A reference instance of [KubeApi] that meets [KubeLaws], and examples of the backend on it. *)

From Stdlib Require Import Eqdep_dec SpecFloat.
From S2P Require Export K8sStoreFacts.
From S2P Require Import K8sRoundtrip.
Local Open Scope string_scope.
Local Open Scope list_scope.
Local Open Scope Z_scope.

(** The objects of each kind; a cluster-wide object is in the empty namespace. *)
Definition Cluster : Type := ∀ k : Kind, gmap (string * string) (Obj k).
Definition cluster_empty : Cluster := λ _, ∅.
Definition cluster_map (k : Kind) (f : gmap (string * string) (Obj k) → gmap (string * string) (Obj k)) (c : Cluster) : Cluster :=
  λ k', match decide (k = k') with
        | left e => eq_rect k (λ k, gmap (string * string) (Obj k)) (f (c k)) k' e
        | right _ => c k'
        end.

(** An object has the name it is stored under, and a version. *)
Definition meta_at (n name : string) (version : option string) (m : ObjectMeta) : ObjectMeta :=
  MkMeta (Some name) (md_generate_name m) (Some n) (md_annotations m) (md_labels m) version (Some (n +:+ "/" +:+ name))
    (md_generation m) (md_owner_references m).
Definition object_at {k} (key : string * string) (o : Obj k) : Obj k :=
  MkObject (meta_at key.1 key.2 (md_resource_version (o_meta o)) (o_meta o)) (o_spec o) (o_status o).
Definition cluster_view (c : Cluster) (k : Kind) : gmap (string * string) (Obj k) :=
  map_imap (λ key o, Some (object_at key o)) (c k).

Definition read {A} (f : Cluster → A) : Op Cluster A := λ c, (Ok (f c), c).
Definition next_version (o : option string) : option string := Some (default "" o +:+ "1").
Definition versioned {k} (v : option string) (o : Obj k) : Obj k := MkObject (set_resource_version v (o_meta o)) (o_spec o) (o_status o).
#[export] Instance cluster_api : KubeApi Cluster := {|
  api_get k n name := read (λ c, cluster_view c k !! (default "" n, name));
  api_list k n := read (λ c,
    omap (λ kv, if decide (n = None ∨ n = Some kv.1.1) then Some kv.2 else None) (map_to_list (cluster_view c k)));
  api_create k n o := λ c,
    let key := (n, name_any o) in
    match c k !! key with
    | Some _ => (Err "already exists", c)
    | None => (Ok (), cluster_map k <[key := versioned (Some "1") o]> c)
    end;
  api_replace k n name o := λ c,
    match c k !! (n, name) with
    | None => (Err "not found", c)
    | Some old =>
        let v := md_resource_version (o_meta old) in
        if decide (md_resource_version (o_meta o) = None ∨ md_resource_version (o_meta o) = v)
        then (Ok (), cluster_map k <[(n, name) := versioned (next_version v) o]> c)
        else (Err "conflict", c)
    end;
  api_replace_status k n name o := λ c,
    (Ok (), cluster_map k (alter (λ old, MkObject (o_meta old) (o_spec old) (o_status o)) (default "" n, name)) c);
  api_delete k n name := λ c,
    match c k !! (n, name) with
    | None => (Err "not found", c)
    | Some _ => (Ok (), cluster_map k (delete (n, name)) c)
    end;
|}.
#[export] Instance ref_hash_order : HashOrder := λ _ l, l.
#[export] Instance ref_hash_order_laws : HashOrderLaws ref_hash_order.
Proof. intros A l. reflexivity. Qed.

Lemma cluster_map_eq k f c : cluster_map k f c k = f (c k).
Proof. unfold cluster_map. destruct (decide (k = k)) as [e|]; [|done]. by rewrite (UIP_dec Kind_eq_dec e eq_refl). Qed.
Lemma cluster_map_ne k k' f c : k ≠ k' → cluster_map k f c k' = c k'.
Proof. intros Hk. unfold cluster_map. by destruct (decide (k = k')). Qed.
Lemma cluster_view_lookup c k key : cluster_view c k !! key = object_at key <$> c k !! key.
Proof. unfold cluster_view. rewrite map_lookup_imap. by destruct (c k !! key). Qed.

#[export] Instance cluster_laws : KubeLaws cluster_api cluster_view.
Proof.
  split.
  - intros c k n name o. rewrite cluster_view_lookup. intros (o' & _ & ->)%fmap_Some. done.
  - intros c k n name r c' [= <- <-]. split; [done|]. by intros o [= <-].
  - intros c k n r c' [= <- <-]. split; [done|]. intros os [= <-] o. rewrite list_elem_of_omap. split.
    + intros ([[n' name] o'] & Hin & Ho). apply elem_of_map_to_list in Hin. cbn in Ho. case_decide as E; [|done].
      injection Ho as ->. exists n', name. split; [exact Hin|]. destruct E as [E|E]; auto.
    + intros (n' & name & Hv & Hn). exists ((n', name), o). split; [by apply elem_of_map_to_list|]. cbn. by rewrite decide_True.
  - intros c k n name o c' Hr. cbn in Hr. destruct (c k !! (n, name)) as [old|] eqn:Eo; [|done].
    case_decide; [|done]. injection Hr as <-. split.
    + eexists. rewrite cluster_view_lookup, cluster_map_eq, lookup_insert_eq. split; [done|]. done.
    + intros k' n' name' Hne. rewrite !cluster_view_lookup. destruct (decide (k = k')) as [<-|Hk].
      * rewrite cluster_map_eq, lookup_insert_ne by congruence. done.
      * by rewrite cluster_map_ne.
Qed.
Lemma cluster_reads_plugins self : reads_plugins (C:=Cluster) self.
Proof. intros c name. by eexists _, _. Qed.

(** ** Examples *)

#[export] Instance ref_json_lib : JsonLib := λ _, None.
Definition run {A} (m : Op Cluster A) (c : Cluster) : result A string := (m c).1.
Definition after {A} (m : Op Cluster A) (c : Cluster) : Cluster := (m c).2.
Definition k8s : K8s := k8s_new "default".
Definition plugin_config (name : string) : PluginConfig Json :=
  MkPluginConfig (MkPluginId "limit" (Named name)) None (JObject []).
Definition with_plugins : Cluster :=
  after (k8s_create_plugin k8s (plugin_config "slow")) (after (k8s_create_plugin k8s (plugin_config "fast")) cluster_empty).

Definition route_target : TargetRef := MkTarget "HTTPSpaceroute" "api" (Some "default") 0.

Definition api_route (plugins : list PluginBinding) (r : SgHttpRouteRule PluginBinding) : Route_ :=
  RouteHttp (MkSgHttpRoute "api" None plugins [r] 1).
Definition upstream_rule (host : string) (plugins : list PluginBinding) : SgHttpRouteRule PluginBinding :=
  MkSgRule None [] [MkBackendRef (HostName host) (Some 8080) None None (Some BackendProtocolHttp) None (Some 1) plugins] None None None.
Definition route_read (c : Cluster) : result (option Route_) string := run (k8s_retrieve_route k8s "gw" "api") c.
Definition all_backend_plugins (r : result (option Route_) string) : list (list PluginBinding) :=
  match r with Ok (Some (RouteHttp r)) => b_plugins <$> (hr_rules r ≫= sr_backends) | _ => [] end.
Definition put_object (k : Kind) (name : string) (o : Obj k) (c : Cluster) : Cluster := cluster_map k <[("default", name) := o]> c.

(** A route that is created is read back, with the plugins that exist. *)
Example route_created_and_read :
  route_read (after (k8s_create_route k8s "gw" "api" (api_route [named_binding "fast" 7; named_binding "gone" 9] (upstream_rule "up" []))) with_plugins) =
    Ok (Some (api_route [named_binding "fast" 7] (upstream_rule "up" []))).
Proof. vm_compute. reflexivity. Qed.

(** An edit that is read, and written back unchanged, adds the WasmPlugin instances of a backend
    once more. *)
Definition on_upstream : WasmPlugin :=
  MkObject (meta_new "auth" "default" None)
    (MkWasmSpec "file:///auth.wasm" None None None None None None true JNull [MkWasmRule [] [] ["up"] false JNull] None) None.
Example backend_plugins_grow :
  let c := after (k8s_create_route k8s "gw" "api" (api_route [] (upstream_rule "up" []))) (put_object KdWasmPlugin "auth" on_upstream cluster_empty) in
  let read_and_write c := match route_read c with
    | Ok (Some r) => after (k8s_update_route k8s "gw" "api" r) c
    | _ => c
    end in
  length <$> all_backend_plugins (route_read c) = [1%nat] ∧
  length <$> all_backend_plugins (route_read (read_and_write c)) = [2%nat] ∧
  length <$> all_backend_plugins (route_read (read_and_write (read_and_write c))) = [3%nat].
Proof. vm_compute. done. Qed.

(** Of two HTTPS listeners, the first comes back without TLS. *)
Definition https (port : Z) (key : string) : SgListener :=
  MkSgListener "l" None port (ProtocolHttps (MkTls Terminate key "cert" None)) None.
Example https_listener_becomes_http :
  let c := after (k8s_create_gateway k8s "gw" (MkSgGateway "gw" parameters_default [https 443 "a"; https 8443 "bb"] [])) cluster_empty in
  match run (k8s_retrieve_gateway k8s "gw") c with
  | Ok (Some g) => protocol_to_string ∘ l_protocol <$> g_listeners g
  | _ => []
  end = ["http"; "https"].
Proof. vm_compute. reflexivity. Qed.

(** A route with a rule that cannot be read is stored, but is no part of the configuration, and
    can neither be replaced nor deleted. *)
Definition two_method_route : Route_ := api_route [] (api_rule [api_match (Some ["GET"; "POST"]) (Some "/")]).
Example unreadable_route_stuck :
  let c0 := after (k8s_create_gateway k8s "gw" (MkSgGateway "gw" parameters_default [] [])) cluster_empty in
  let m := k8s_create_route k8s "gw" "api" two_method_route in
  let c := after m c0 in
  let refused := Err "url_rewrite is not supported with multiple matches" in
  run m c0 = Ok () ∧
  run (retrieve_config_item_all_routes (H:=k8s_retrieve k8s) "gw") c = Ok [] ∧
  run (k8s_update_route k8s "gw" "api" (api_route [] (upstream_rule "up" []))) c = refused ∧
  run (k8s_delete_route k8s "gw" "api") c = refused.
Proof. split_and!; vm_compute; reflexivity. Qed.

(** A plugin is found by its name alone. *)
Example plugin_found_under_any_code :
  cfg_id <$> (match run (k8s_retrieve_plugin k8s (MkPluginId "redirect" (Named "fast"))) with_plugins with Ok o => o | Err _ => None end) =
    Some (MkPluginId "limit" (Named "fast")).
Proof. vm_compute. reflexivity. Qed.

(** The bindings of an HTTPRoute of the Gateway API outlive it, and keep their plugin from being
    deleted. *)
Definition raw_route : KHttpRoute :=
  MkObject (meta_new "api" "default" None) (MkRawSpec (Some [gateway_parent_ref "gw" "default"]) None (Some [])) None.
Definition raw_target : TargetRef := MkTarget "HTTPRoute" "api" (Some "default") 0.
Example binding_outlives_httproute :
  let c := after (add_filter_target k8s (binding_id (named_binding "fast" 7)) raw_target 7) (put_object KdHttpRoute "api" raw_route with_plugins) in
  let c' := after (k8s_delete_route k8s "gw" "api") c in
  route_read c = Ok (Some (RouteHttp (MkSgHttpRoute "api" None [named_binding "fast" 7] [] 0))) ∧
  route_read c' = Ok None ∧
  run (k8s_delete_plugin k8s (MkPluginId "limit" (Named "fast"))) c' = Err "The filter have references [HTTPRoute:api.default]".
Proof. split_and!; vm_compute; reflexivity. Qed.
