(* ===== verification/K8sWatch.v ===== *)
(** * Kubernetes: following changes

    [crates/config/src/service/k8s/listen.rs]: the tasks that watch the objects of a namespace
    and announce changes of the configuration. A task is a function from an event of its watcher
    and its memory to the announcements and the next memory; the tasks share only the queue.

    A watcher's stream is a list of events; an error of the stream ends its task ([watch_run]).
    The hash of a list of targets is a parameter ([TargetHash]). *)

From S2P Require Export K8sStore.
From S2P Require Import K8sRoundtrip.
Local Open Scope string_scope.
Local Open Scope list_scope.
Local Open Scope Z_scope.

(** ** Watchers *)

Inductive WatchEvent (A : Type) := Applied (x : A) | Deleted (x : A) | Restarted (xs : list A).
Arguments Applied {A}.
Arguments Deleted {A}.
Arguments Restarted {A}.
Definition event_map {A B} (f : A → B) (e : WatchEvent A) : WatchEvent B :=
  match e with Applied x => Applied (f x) | Deleted x => Deleted (f x) | Restarted xs => Restarted (f <$> xs) end.

(** [while let Some(event) = ew.try_next().await.unwrap_or_default() { .. }] *)
Fixpoint watch_run {E S} (step : E → S → list ListenEvent * S) (stream : list (result E string)) (s : S)
  : list ListenEvent * S :=
  match stream with
  | Ok e :: stream =>
      let '(sent, s) := step e s in
      let '(sent', s) := watch_run step stream s in (sent ++ sent', s)
  | _ => ([], s)
  end.

Notation UidMap := (gmap (option string) ObjectMeta).
Definition announce (t : ConfigEventType) (c : ConfigType) : ListenEvent := MkListenEvent t c.

(** ** Routes *)

Section routes.
Context `{!HashOrder}.
(** The object's metadata, and the gateway it belongs to. *)
Context {R : Type} (meta : R → ObjectMeta) (gateway_name : R → string).
Definition route_name_any (r : R) : string := default "" (opt_or (md_name (meta r)) (md_generate_name (meta r))).
Definition route_event (r : R) : ListenEvent := announce EvDelete (CtRoute (gateway_name r) (route_name_any r)).

Definition apply_route_event (names : list string) (r : R) (m : UidMap) : list ListenEvent * UidMap :=
  if decide (route_name_any r ∈ names ∧ m !! md_uid (meta r) = None)
  then ([], <[md_uid (meta r) := meta r]> m)
  else if decide (m !! md_uid (meta r) = Some (meta r)) then ([], m)
  else ([route_event r], m).
Fixpoint apply_route_events (names : list string) (rs : list R) (m : UidMap) : list ListenEvent * UidMap :=
  match rs with
  | [] => ([], m)
  | r :: rs =>
      let '(sent, m) := apply_route_event names r m in
      let '(sent', m) := apply_route_events names rs m in (sent ++ sent', m)
  end.

(** [process_http_spaceroute_event] *)
Definition process_http_spaceroute_event (names : list string) (e : WatchEvent R) (m : UidMap) : list ListenEvent * UidMap :=
  match e with
  | Applied r => apply_route_event names r m
  | Deleted r => ([route_event r], delete (md_uid (meta r)) m)
  | Restarted rs =>
      let '(sent, m') := apply_route_events names rs ∅ in
      let gone := foldl (λ m r, delete (md_uid (meta r)) m) m rs in
      (sent ++ ((λ kv, announce EvDelete (CtGateway (default "" (md_name kv.2)))) <$> hash_visit (map_to_list gone)), m')
  end.
(** [process_mcp_route_event] *)
Definition process_mcp_route_event (names : list string) (e : WatchEvent R) (m : UidMap) : list ListenEvent * UidMap :=
  match e with
  | Applied r => apply_route_event names r m
  | Deleted r => ([route_event r], delete (md_uid (meta r)) m)
  | Restarted rs => apply_route_events names rs m
  end.
End routes.

(** ** Gateways *)

Section gateways.
Context `{!HashOrder}.
Context (class : string) (names : list string).

Definition gateway_event (t : ConfigEventType) (g : KGateway) : ListenEvent := announce t (CtGateway (name_any g)).
Definition apply_gateway_event (g : KGateway) (m : UidMap) : list ListenEvent * UidMap :=
  let uid := md_uid (o_meta g) in
  if gateway_uses_class g class then
    if decide (name_any g ∈ names ∧ m !! uid = None) then ([], <[uid := o_meta g]> m)
    else if decide (md_resource_version <$> m !! uid = Some (md_resource_version (o_meta g))) then ([], m)
    else ([gateway_event EvUpdate g], <[uid := o_meta g]> m)
  else ([], m).
Fixpoint apply_gateway_events (gs : list KGateway) (m : UidMap) : list ListenEvent * UidMap :=
  match gs with
  | [] => ([], m)
  | g :: gs =>
      let '(sent, m) := apply_gateway_event g m in
      let '(sent', m) := apply_gateway_events gs m in (sent ++ sent', m)
  end.
Definition process_gateway_event (e : WatchEvent KGateway) (m : UidMap) : list ListenEvent * UidMap :=
  match e with
  | Applied g => apply_gateway_event g m
  | Deleted g => if gateway_uses_class g class then ([gateway_event EvDelete g], delete (md_uid (o_meta g)) m) else ([], m)
  | Restarted gs =>
      let '(sent, m') := apply_gateway_events gs ∅ in
      let gone := foldl (λ m g, delete (md_uid (o_meta g)) m) m gs in
      (sent ++ ((λ kv, announce EvDelete (CtGateway (default "" (md_name kv.2)))) <$> hash_visit (map_to_list gone)), m')
  end.
End gateways.

(** ** Plugins: SgFilter *)

Class TargetHash := hash_targets : list (string * string * string) → Z.

Record FilterMemory := MkFilterMemory {
  fm_versions : gmap string (option string);
  fm_digests : gmap string Z;
  fm_targets : gmap string (list TargetRef);
}.
Definition filter_memory_new : FilterMemory := MkFilterMemory ∅ ∅ ∅.

(** A [HashSet] of references: of equal ones the first is kept. *)
Fixpoint target_set (l seen : list TargetRef) : list TargetRef :=
  match l with
  | [] => []
  | t :: l => if existsb (target_eqb t) seen then target_set l seen else t :: target_set l (t :: seen)
  end.
Definition target_difference (a b : list TargetRef) : list TargetRef :=
  List.filter (λ t, negb (existsb (target_eqb t) b)) a.

Section filters.
Context {C : Type} `{!KubeApi C} `{!HashOrder} `{!TargetHash}.
Context (self : K8s) (known : list (string * PluginInstanceName)).
Notation ns := (k8s_namespace_ self).

Definition enabled_events (f : SgFilter) : list ListenEvent :=
  (λ p, announce EvUpdate (CtPlugin (extract_from_filter p (name_any f)))) <$> List.filter sf_enable (fs_filters (o_spec f)).
(** The route of a reference, in either kind. *)
Definition target_route (name : string) : C → option HttpSpaceroute * C := λ c,
  match api_get KdHttpSpaceroute (Some ns) name c with
  | (Ok (Some r), c) => (Some r, c)
  | (_, c) =>
      match api_get KdHttpRoute (Some ns) name c with
      | (Ok (Some r), c) => (Some (spaceroute_of_httproute r), c)
      | (_, c) => (None, c)
      end
  end.
Definition target_events (t : TargetRef) : C → list ListenEvent * C := λ c,
  if decide (tr_kind t = "Gateway") then ([announce EvUpdate (CtGateway (tr_name t))], c)
  else if decide (tr_kind t = "HTTPRoute" ∨ tr_kind t = "HTTPSpaceroute") then
    match target_route (tr_name t) c with
    | (Some r, c) => ([announce EvUpdate (CtRoute (spaceroute_gateway_name ns r) (tr_name t))], c)
    | (None, c) => ([], c)
    end
  else ([], c).
Fixpoint targets_events (ts : list TargetRef) : C → list ListenEvent * C := λ c,
  match ts with
  | [] => ([], c)
  | t :: ts =>
      let '(sent, c) := target_events t c in
      let '(sent', c) := targets_events ts c in (sent ++ sent', c)
  end.

Definition filter_is_known (f : SgFilter) : bool :=
  existsb (λ p, bool_decide ((sf_code p, name_from_option (sf_name p)) ∈ known)) (fs_filters (o_spec f)).
(** The references that changed: those that are new, then those that are gone. *)
Definition changed_targets (f : SgFilter) (old : list TargetRef) : list TargetRef :=
  let update_set := target_set (fs_target_refs (o_spec f)) [] in
  let old_set := target_set old [] in
  hash_visit (target_difference update_set old_set) ++ hash_visit (target_difference old_set update_set).
Definition remember_targets (name : string) (refs : list TargetRef) (m : gmap string (list TargetRef)) : gmap string (list TargetRef) :=
  match refs with [] => delete name m | _ => <[name := refs]> m end.

(** One round of the task, on an object that was touched. *)
Definition process_filter (f : SgFilter) (mc : FilterMemory * C) : list ListenEvent * (FilterMemory * C) :=
  let '(m, c) := mc in
  let name := name_any f in
  let version := md_resource_version (o_meta f) in
  let refs := fs_target_refs (o_spec f) in
  if filter_is_known f && negb (bool_decide (is_Some (fm_versions m !! name))) then
    ([], (MkFilterMemory (<[name := version]> (fm_versions m)) (fm_digests m) (fm_targets m), c))
  else if decide (fm_versions m !! name = Some version) then ([], (m, c))
  else
    let sent := enabled_events f in
    let digest := hash_targets (target_hash_input <$> refs) in
    if decide (fm_digests m !! name = Some digest) then (sent, (m, c))
    else if decide (refs = [] ∧ fm_targets m !! name = None) then (sent, (m, c))
    else
      let '(sent', c) := targets_events (changed_targets f (default [] (fm_targets m !! name))) c in
      (sent ++ sent',
       (MkFilterMemory (fm_versions m) (<[name := digest]> (fm_digests m)) (remember_targets name refs (fm_targets m)), c)).
End filters.

(** ** Plugins: WasmPlugin *)

Section wasm.
Context {C : Type} `{!KubeApi C} `{!Base64} `{!JsonLib}.
Context (self : K8s).
Notation ns := (k8s_namespace_ self).

Definition validate_wasm_plugin (p : WasmPlugin) : OpE C string unit :=
  do _ <- op_lift (validate_for_spacegate p);
  match oci_registry p, pull_secret p with
  | Some registry, Some secret_name => λ c,
      match api_get KdSecret (Some ns) secret_name c with
      | (Err e, c) => (Err ("read imagePullSecret " +:+ secret_name +:+ ": " +:+ e), c)
      | (Ok None, c) => (Err ("imagePullSecret " +:+ secret_name +:+ " not found"), c)
      | (Ok (Some secret), c) =>
          match oci_auth_from_secret secret registry with
          | Some _ => (Ok (), c)
          | None => (Err ("imagePullSecret " +:+ secret_name +:+ " does not contain credentials for " +:+ registry), c)
          end
      end
  | _, _ => op_ret ()
  end.
(** An error of the status update is logged. *)
Definition reconcile_wasm_plugin_status (p : WasmPlugin) : C → C := λ c,
  let '(r, c) := validate_wasm_plugin p c in
  let '(phase, message) := match r with
    | Ok _ => ("Accepted", "WasmPlugin accepted by Spacegate")
    | Err e => ("Unsupported", e)
    end in
  let status := MkWasmStatus (md_generation (o_meta p)) (Some phase) (digest p) (Some message) in
  (api_replace_status KdWasmPlugin (Some ns) (name_any p) (MkObject (o_meta p) (o_spec p) (Some status)) c).2.

Definition wasm_event (t : ConfigEventType) (p : WasmPlugin) : list ListenEvent :=
  [announce t (CtPlugin (to_spacegate_plugin_id p)); announce EvUpdate CtGlobal].
Definition process_wasm_event (e : WatchEvent WasmPlugin) (mc : UidMap * C) : list ListenEvent * (UidMap * C) :=
  let '(m, c) := mc in
  match e with
  | Applied p =>
      let c := reconcile_wasm_plugin_status p c in
      if decide (m !! md_uid (o_meta p) = Some (o_meta p)) then ([], (m, c))
      else (wasm_event EvUpdate p, (<[md_uid (o_meta p) := o_meta p]> m, c))
  | Deleted p => (wasm_event EvDelete p, (delete (md_uid (o_meta p)) m, c))
  | Restarted ps =>
      ([announce EvUpdate CtGlobal],
       (foldl (λ m p, <[md_uid (o_meta p) := o_meta p]> m) ∅ ps, foldl (λ c p, reconcile_wasm_plugin_status p c) c ps))
  end.
End wasm.

(** ** The listener *)

(** What the tasks know of the configuration that was read first. *)
Definition gateway_names (config : Config Json) : list string := g_name ∘ ci_gateway ∘ snd <$> c_gateways config.
Definition route_names (config : Config Json) : list string := c_gateways config ≫= λ kv, (ci_routes kv.2).*1.
Definition route_plugins (r : Route_) : list PluginBinding :=
  match r with RouteHttp r => hr_plugins r | RouteMcp r => mr_plugins r end.
Definition item_plugins (i : Item_) : list PluginBinding :=
  g_plugins (ci_gateway i) ++ ((ci_routes i).*2 ≫= route_plugins).
Definition filter_codes_names (config : Config Json) : list (string * PluginInstanceName) :=
  (λ b, (id_code (binding_id b), id_name (binding_id b))) <$> (c_gateways config ≫= λ kv, item_plugins kv.2).
Definition k8s_create_listener {C} `{!KubeApi C} `{!KubeText} `{!Base64} `{!JsonLib} (self : K8s) : OpE C string (Config Json) :=
  do config <- retrieve_config (H:=k8s_retrieve self);
  do _ <- accept_gateway_class (k8s_gateway_class_name self);
  op_ret config.
(** A signal asks for a reload of everything. *)
Definition hangup_event : ListenEvent := announce EvUpdate CtGlobal.
(** [poll_next] on the queue of the tasks; [None] when every sender is gone. *)
Definition k8s_poll_next (queue : option (list ListenEvent)) : Poll (result ListenEvent string) * option (list ListenEvent) :=
  match queue with
  | None => (Ready (Err "k8s event listener sender shutdown"), None)
  | Some [] => (Pending, Some [])
  | Some (e :: queue) => (Ready (Ok e), Some queue)
  end.

(** ** What the route watcher announces *)

Section announced.
Context `{!HashOrder}.
Context {R : Type} (meta : R → ObjectMeta) (gateway_name : R → string) (names : list string).
Notation uid r := (md_uid (meta r)).
Notation step := (process_http_spaceroute_event meta gateway_name names).
Notation event r := (route_event meta gateway_name r).

Lemma watch_run_app {E S} (f : E → S → list ListenEvent * S) s1 s2 (m : S) :
  watch_run f (Ok <$> (s1 ++ s2)) m =
    let '(sent, m) := watch_run f (Ok <$> s1) m in
    let '(sent', m) := watch_run f (Ok <$> s2) m in (sent ++ sent', m).
Proof.
  revert m. induction s1 as [|e s1 IH]; intros m; cbn; [by destruct (watch_run f _ m)|].
  destruct (f e m) as [sent m1]. rewrite fmap_app in IH. cbn in IH. rewrite fmap_app, IH.
  destruct (watch_run f (Ok <$> s1) m1) as [sent1 m2]. destruct (watch_run f (Ok <$> s2) m2). by rewrite app_assoc.
Qed.
Definition sent_by (stream : list (WatchEvent R)) : list ListenEvent := (watch_run step (Ok <$> stream) ∅).1.
Definition memory_of (stream : list (WatchEvent R)) : UidMap := (watch_run step (Ok <$> stream) ∅).2.
Lemma sent_at pre e post x : x ∈ (step e (memory_of pre)).1 → x ∈ sent_by (pre ++ e :: post).
Proof.
  unfold sent_by, memory_of. rewrite watch_run_app. destruct (watch_run step (Ok <$> pre) ∅) as [sent m]. cbn.
  destruct (step e m) as [sent1 m1]. destruct (watch_run step (Ok <$> post) m1). cbn. set_solver.
Qed.
Lemma memory_snoc pre e : memory_of (pre ++ [e]) = (step e (memory_of pre)).2.
Proof.
  unfold memory_of. rewrite watch_run_app. destruct (watch_run step (Ok <$> pre) ∅) as [sent m]. cbn. by destruct (step e m).
Qed.

(** The objects of an event. *)
Definition objects_of (e : WatchEvent R) : list R := match e with Applied r | Deleted r => [r] | Restarted rs => rs end.
Definition seen (stream : list (WatchEvent R)) (r : R) : Prop := ∃ e, e ∈ stream ∧ r ∈ objects_of e.
(** The memory holds versions that were seen, of routes that were configured at the start. *)
Definition remembered (objs : R → Prop) (m : UidMap) : Prop :=
  ∀ u v, m !! u = Some v → ∃ r, objs r ∧ uid r = u ∧ meta r = v ∧ route_name_any meta r ∈ names.

Lemma apply_remembered objs r m : remembered objs m → objs r → remembered objs (apply_route_event meta gateway_name names r m).2.
Proof.
  intros Hm Hr. unfold apply_route_event. case_decide as E; [|by case_decide]. cbn. intros u v.
  destruct (decide (uid r = u)) as [<-|Hu]; [rewrite lookup_insert_eq; intros [= <-]|rewrite lookup_insert_ne by done; apply Hm].
  exists r. naive_solver.
Qed.
Lemma applies_remembered objs rs m : remembered objs m → (∀ r, r ∈ rs → objs r) →
  remembered objs (apply_route_events meta gateway_name names rs m).2.
Proof.
  revert m. induction rs as [|r rs IH]; intros m Hm Hrs; [done|]. cbn.
  pose proof (apply_remembered objs r m Hm (Hrs r ltac:(left))) as Hm1.
  destruct (apply_route_event meta gateway_name names r m) as [sent m1]. cbn in Hm1.
  specialize (IH m1 Hm1 (λ r' H, Hrs r' ltac:(by right))). by destruct (apply_route_events _ _ _ rs m1).
Qed.
Lemma remembered_mono (o1 o2 : R → Prop) m : (∀ r, o1 r → o2 r) → remembered o1 m → remembered o2 m.
Proof. intros Ho Hm u v Hv. destruct (Hm u v Hv) as (r & Hr & ?). exists r. split; [by apply Ho|done]. Qed.
Lemma memory_remembered stream : remembered (seen stream) (memory_of stream).
Proof.
  induction stream as [|e stream IH] using rev_ind; [intros u v Hv; cbn in Hv; by rewrite lookup_empty in Hv|].
  rewrite memory_snoc. apply (remembered_mono _ (seen (stream ++ [e]))) in IH.
  2:{ intros r (e' & He & Hr). exists e'. split; [by apply elem_of_app; left|done]. }
  assert (∀ r, r ∈ objects_of e → seen (stream ++ [e]) r) as Hobj.
  { intros r Hr. exists e. split; [by apply elem_of_app; right; left|done]. }
  destruct e as [r|r|rs]; cbn.
  - apply apply_remembered; [done|]. apply Hobj. by left.
  - intros u v Hv. apply lookup_delete_Some in Hv as [_ Hv]. by apply IH.
  - pose proof (applies_remembered (seen (stream ++ [Restarted rs])) rs ∅ ltac:(intros u v Hv; by rewrite lookup_empty in Hv) Hobj) as Hm.
    destruct (apply_route_events _ _ _ rs ∅). exact Hm.
Qed.

(** An object's identity belongs to one name. *)
Definition identified (stream : list (WatchEvent R)) : Prop :=
  ∀ r r', seen stream r → seen stream r' → uid r = uid r' → route_name_any meta r = route_name_any meta r'.
Lemma unknown_applied objs r m : remembered objs m → route_name_any meta r ∉ names →
  (∀ r', objs r' → uid r' = uid r → route_name_any meta r' = route_name_any meta r) →
  apply_route_event meta gateway_name names r m = ([event r], m).
Proof.
  intros Hm Hr Hid. unfold apply_route_event. rewrite decide_False by naive_solver. rewrite decide_False; [done|].
  intros E. destruct (Hm _ _ E) as (r' & Ho & Hu & _ & Hn). apply Hr. by rewrite <- (Hid r').
Qed.
Lemma unknown_applies objs r rs m : remembered objs m → (∀ r, r ∈ rs → objs r) → r ∈ rs → route_name_any meta r ∉ names →
  (∀ r', objs r' → uid r' = uid r → route_name_any meta r' = route_name_any meta r) →
  event r ∈ (apply_route_events meta gateway_name names rs m).1.
Proof.
  intros Hm Hrs Hin Hr Hid. revert m Hm. induction rs as [|r' rs IH]; intros m Hm; [set_solver|]. cbn.
  pose proof (apply_remembered objs r' m Hm (Hrs r' ltac:(left))) as Hm1.
  apply elem_of_cons in Hin as [<-|Hin'].
  - rewrite (unknown_applied objs) in * by done. destruct (apply_route_events _ _ _ rs m). cbn. left.
  - destruct (apply_route_event meta gateway_name names r' m) as [sent m1]. cbn in Hm1.
    specialize (IH (λ r' H, Hrs r' ltac:(by right)) Hin' m1 Hm1). destruct (apply_route_events _ _ _ rs m1). cbn in *. set_solver.
Qed.

(** Events that keep what is known of an object. *)
Definition keeps (r : R) (e : WatchEvent R) : Prop :=
  match e with Applied _ => True | Deleted r' => uid r' ≠ uid r | Restarted _ => False end.
Lemma keeps_known r v mid m : Forall (keeps r) mid → m !! uid r = Some v → (watch_run step (Ok <$> mid) m).2 !! uid r = Some v.
Proof.
  intros Hmid. revert m. induction Hmid as [|e mid He _ IH]; intros m Hm; [done|]. cbn.
  assert ((step e m).2 !! uid r = Some v) as Hs.
  { destruct e as [r'|r'|rs]; cbn in *; [|by rewrite lookup_delete_ne|done].
    unfold apply_route_event. case_decide as E; [|by case_decide]. cbn. rewrite lookup_insert_ne; [done|].
    intros Hu. destruct E as [_ E]. rewrite Hu in E. congruence. }
  destruct (step e m) as [sent m1]. cbn in Hs. specialize (IH m1 Hs). by destruct (watch_run step (Ok <$> mid) m1).
Qed.

Lemma sighted_known pre r0 : route_name_any meta r0 ∈ names → is_Some (memory_of (pre ++ [Applied r0]) !! uid r0).
Proof.
  intros Hn. rewrite memory_snoc. cbn. unfold apply_route_event.
  destruct (memory_of pre !! uid r0) as [v|] eqn:Ev.
  - rewrite decide_False by naive_solver. case_decide; cbn; by rewrite Ev.
  - rewrite decide_True by done. cbn. by rewrite lookup_insert_eq.
Qed.
Lemma sighted_kept pre r0 mid r v : Forall (keeps r) mid → memory_of (pre ++ [Applied r0]) !! uid r = Some v →
  memory_of (pre ++ Applied r0 :: mid) !! uid r = Some v.
Proof.
  intros Hmid Hv. change (pre ++ Applied r0 :: mid) with (pre ++ [Applied r0] ++ mid). rewrite app_assoc.
  unfold memory_of in *. rewrite (watch_run_app step (pre ++ [Applied r0])).
  destruct (watch_run step (Ok <$> (pre ++ [Applied r0])) ∅) as [s m]. cbn in Hv.
  pose proof (keeps_known r v mid m Hmid Hv) as Hk. by destruct (watch_run step (Ok <$> mid) m).
Qed.

End announced.

(** ** Examples *)

Definition versioned_meta (name uid version : string) : ObjectMeta :=
  MkMeta (Some name) None (Some "default") None None (Some version) (Some uid) None None.
#[local] Instance in_order : HashOrder := λ _ l, l.
Definition api_event (t : ConfigEventType) : ListenEvent := announce t (CtRoute "gw" "api").
Definition meta_sent_by : list (WatchEvent ObjectMeta) → list ListenEvent := sent_by id (λ _, "gw") ["api"].


(** A configured route that is deleted and created again is not announced. *)
Example recreated_route_missed :
  meta_sent_by [Applied (versioned_meta "api" "u1" "1"); Deleted (versioned_meta "api" "u1" "1"); Applied (versioned_meta "api" "u2" "2")] =
    [api_event EvDelete].
Proof. vm_compute. reflexivity. Qed.
(** When the watch restarts, a new version of a configured route is taken for the known one, and a
    route that is gone is announced as a gateway of that name that is gone. *)
Example restart_misses_changes :
  meta_sent_by [Applied (versioned_meta "api" "u1" "1"); Restarted [versioned_meta "api" "u1" "2"]] = [] ∧
  meta_sent_by [Applied (versioned_meta "api" "u1" "1"); Restarted []] = [announce EvDelete (CtGateway "api")].
Proof. split; vm_compute; reflexivity. Qed.
(** After an error of the stream nothing is announced any more. *)
Example error_ends_watch :
  (watch_run (process_http_spaceroute_event id (λ _, "gw") ["api"])
     [Err "watch error"; Ok (Deleted (versioned_meta "api" "u1" "1"))] ∅).1 = [].
Proof. vm_compute. reflexivity. Qed.
