(* ===== verification/Admin.v ===== *)
(** * Administration server: the configuration endpoints

    [binary/admin-server/src]: arguments, the version counter and the middleware that checks it
    ([mw/version_control.rs]), authentication ([mw/authentication.rs], [service/auth.rs]), and the
    endpoints that read and edit the configuration ([service/config.rs]) over any backend of
    [ConfigService].

    A handler is a function from the parameters of the path, the request and the backend to the
    response and the backend. axum, serde and the JWT library are the class [AdminLib]: the
    extractors, each with the response of a rejection; the rendering of JSON; the choice of a
    route by path and of a handler by method. *)

From S2P Require Export ConfigService Http.
Local Open Scope string_scope.
Local Open Scope list_scope.
Local Open Scope Z_scope.

(** ** Arguments: [clap.rs] *)

Inductive ConfigBackend := BackendFile (path : string) | BackendK8s (namespace : string).
Definition config_backend_from_str (s : string) : result ConfigBackend string :=
  match str_split_once ":" s with
  | Some (kind, resource) =>
      if decide (kind = "file") then Ok (BackendFile resource)
      else if decide (kind = "k8s") then Ok (BackendK8s resource)
      else Err ("unknown backend kind: " +:+ kind)
  | None => Err "missing backend kind"
  end.
Definition config_backend_to_string (b : ConfigBackend) : string :=
  match b with BackendFile path => "file:" +:+ path | BackendK8s ns => "k8s:" +:+ ns end.

Inductive AdminFormat := FormatToml | FormatJson.
Definition format_from_str (s : string) : result AdminFormat string :=
  if decide (s = "toml") then Ok FormatToml
  else if decide (s = "json") then Ok FormatJson
  else Err ("unknown format: " +:+ s).
Definition format_to_string (f : AdminFormat) : string := match f with FormatToml => "toml" | FormatJson => "json" end.

(** ** The libraries *)

Record Claims := MkClaims { cl_sub : string; cl_exp : Z; cl_username : string }.
Record Login := MkLogin { lg_ak : string; lg_sk : string }.
(** The query of an edit of a plugin: its identity, and the name it is shown under. *)
Record PluginUpsertQuery := MkUpsert { pu_id : PluginInstanceId; pu_display_name : option string }.

(** What an endpoint sends as JSON *)
Inductive AdminData :=
| DGateway (g : option Gateway_)
| DRoute (r : option Route_)
| DItem (i : option Item_)
| DConfig (c : Config Json)
| DNames (names : list string)
| DRoutes (routes : list (string * Route_))
| DPlugin (p : option (PluginConfig Json))
| DPlugins (ps : list (PluginConfig Json))
| DUnit.

Class AdminLib `{HttpLib} := {
  (** the value of the first entry whose pattern matches a path, with the parameters of the path *)
  path_route : ∀ {A : Type}, list (string * A) → string → option (A * list string);
  (** the entry for a method *)
  method_route : ∀ {A : Type}, list (string * A) → string → option A;
  method_not_allowed : Response;
  path_one : list string → result string Response;
  path_two : list string → result (string * string) Response;
  query_id : Request → result PluginInstanceId Response;
  query_upsert : Request → result PluginUpsertQuery Response;
  json_gateway : Request → result Gateway_ Response;
  json_route : Request → result Route_ Response;
  json_item : Request → result Item_ Response;
  json_config : Request → result (Config Json) Response;
  json_value : Request → result Json Response;
  json_login : Request → result Login Response;
  (** [Json(v).into_response()]; the empty answer of a unit has status 200 *)
  json_reply : AdminData → Response;
  cookie_get : Request → string → option string;
  (** [jsonwebtoken] with HS256: a token of claims; the claims of a token that is valid at a time *)
  jwt_encode : Claims → string → result string string;
  jwt_decode : string → string → Z → option Claims;
  sha256_digest : string → string;
}.

(** ** The version counter: an [AtomicU64] *)

Definition version_update (v : Z) : Z := uwrap 64 (v + 1).
Definition version_equal (v client : Z) : bool := v =? client.

(** The counter, and the world the handlers act on *)
Record Server (C : Type) := MkServer { sv_version : Z; sv_world : C }.
Arguments MkServer {C}.
Arguments sv_version {C}.
Arguments sv_world {C}.

Section server.
Context `{AdminLib}.

Definition admin_response (status : Z) (headers : HeaderMap) (body : string) : Response := MkResp status headers ext_empty body.
(** [InternalError::into_response] *)
Definition internal_error (e : string) : Response := admin_response 500 hm_empty ("Internal error: " +:+ e).

(** ** Version control *)

Definition CLIENT_HEADER : string := "x-client-version".
Definition SERVER_HEADER : string := "x-server-version".

Definition client_version (req : Request) : Z :=
  default 0 (v ← hm_get (req_headers req) CLIENT_HEADER; v ← hv_to_str v; parse_unsigned 64 v).

Definition requires_version_control (method path : string) : bool :=
  if negb (bool_decide (method = "DELETE")) && negb (bool_decide (method = "POST")) && negb (bool_decide (method = "PUT"))
  then false
  else
    let is_read_only_post :=
      ends_with path "/wasm/schema/preview" || bool_decide (path = "/refresh") || ends_with path "/plugin/refresh" in
    negb is_read_only_post.

Definition versioned_request (req : Request) : bool := requires_version_control (req_method req) (uri_path (req_uri req)).
Definition conflict (version : Z) : Response := admin_response 409 (hm_insert SERVER_HEADER (z_string version) hm_empty) "".
Definition with_version (req : Request) (version : Z) (response : Response) : Response :=
  if decide (req_method req = "GET")
  then set_resp_headers (hm_insert SERVER_HEADER (z_string version) (resp_headers response)) response
  else response.

(** What is behind a middleware *)
Definition Next (C : Type) : Type := Request → C → Response * C.

(** [version_control], run without an interruption *)
Definition version_control {C} (next : Next C) (req : Request) (sv : Server C) : Response * Server C :=
  let run (v : Z) :=
    let '(response, c) := next req (sv_world sv) in (with_version req v response, MkServer v c) in
  if versioned_request req then
    if version_equal (sv_version sv) (client_version req) then run (version_update (sv_version sv))
    else (conflict (sv_version sv), sv)
  else run (sv_version sv).

(** ** Authentication *)

Definition bearer_token (req : Request) : option string :=
  opt_or (v ← hm_get (req_headers req) "authorization"; v ← hv_to_str v; str_strip_prefix "Bearer " v)
    (cookie_get req "jwt").
Definition authentication {C} (now : Z) (secret : option string) (next : Next C) : Next C := λ req c,
  match secret with
  | None => next req c
  | Some secret =>
      match bearer_token req with
      | None => (admin_response 401 hm_empty "expect jwt token", c)
      | Some jwt =>
          match jwt_decode jwt secret now with
          | None => (admin_response 401 hm_empty "invalid jwt token", c)
          | Some _ => next req c
          end
      end
  end.

(** [login]: the secret of the user, if one is set, is compared by its digest. [HeaderValue]
    accepts the text of a token ([hv_from_str]), or the handler panics. *)
Definition EXPIRE : Z := 3600.
Definition sk_accepted (sk_digest : option string) (sk : string) : bool :=
  match sk_digest with Some d => bool_decide (sha256_digest sk = d) | None => true end.
Definition login (now : Z) (secret sk_digest : option string) (lg : Login) : option Response :=
  if negb (sk_accepted sk_digest (lg_sk lg)) then Some (admin_response 401 hm_empty "")
  else
    match secret with
    | None => Some (admin_response 200 hm_empty "")
    | Some sec =>
        match jwt_encode (MkClaims "admin" (now + EXPIRE) (lg_ak lg)) sec with
        | Err e => Some (internal_error e)
        | Ok jwt =>
            v ← hv_from_str ("jwt=" +:+ jwt +:+ "; path=/; HttpOnly; Max-Age=3600");
            Some (admin_response 200 (hm_insert "set-cookie" v hm_empty) "")
        end
    end.
Definition login_endpoint (now : Z) (secret sk_digest : option string) (req : Request) : option Response :=
  match json_login req with Err rejection => Some rejection | Ok lg => login now secret sk_digest lg end.
End server.

(** ** Endpoints: [service/config.rs] *)

Section endpoints.
Context `{AdminLib} {C : Type} `{!Create C, !Retrieve C, !Update C, !ConfigService.Delete C}.

(** A handler, with the parameters of its path *)
Definition Handler : Type := list string → Request → C → Response * C.

Definition extract {A} (r : result A Response) (k : A → C → Response * C) : C → Response * C :=
  match r with Ok a => k a | Err rejection => λ c, (rejection, c) end.
Definition reply {A} (m : Op C A) (f : A → AdminData) : C → Response * C := λ c,
  match m c with
  | (Ok a, c) => (json_reply (f a), c)
  | (Err e, c) => (internal_error e, c)
  end.
Definition reply_unit (m : Op C unit) : C → Response * C := reply m (λ _, DUnit).

Definition into_config (q : PluginUpsertQuery) (spec : Json) : PluginConfig Json :=
  MkPluginConfig (pu_id q) (normalize_plugin_display_name (pu_display_name q)) spec.

Definition get_config_item_gateway : Handler := λ ps req,
  extract (path_one ps) (λ gateway_name, reply (retrieve_config_item_gateway gateway_name) DGateway).
Definition get_config_item_route : Handler := λ ps req,
  extract (path_two ps) (λ nr, reply (retrieve_config_item_route nr.1 nr.2) DRoute).
Definition get_config_item_route_names : Handler := λ ps req,
  extract (path_one ps) (λ name, reply (retrieve_config_item_route_names name) DNames).
Definition get_config_item_all_routes : Handler := λ ps req,
  extract (path_one ps) (λ name, reply (retrieve_config_item_all_routes name) DRoutes).
Definition get_config_item : Handler := λ ps req,
  extract (path_one ps) (λ name, reply (retrieve_config_item name) DItem).
Definition get_config_names : Handler := λ ps req, reply retrieve_config_names DNames.
Definition get_config : Handler := λ ps req, reply retrieve_config DConfig.
Definition get_config_all_plugin : Handler := λ ps req, reply retrieve_all_plugins DPlugins.
Definition get_config_plugin : Handler := λ ps req,
  extract (query_id req) (λ id, reply (retrieve_plugin id) DPlugin).
Definition get_config_plugins_by_code : Handler := λ ps req,
  extract (path_one ps) (λ code, reply (retrieve_plugins_by_code code) DPlugins).

Definition post_config_item : Handler := λ ps req,
  extract (path_one ps) (λ name, extract (json_item req) (λ item, reply_unit (create_config_item name item))).
Definition post_config : Handler := λ ps req,
  extract (json_config req) (λ config, reply_unit (create_config config)).
Definition post_config_item_gateway : Handler := λ ps req,
  extract (path_one ps) (λ gateway_name,
    extract (json_gateway req) (λ gateway, reply_unit (create_config_item_gateway gateway_name gateway))).
Definition post_config_item_route : Handler := λ ps req,
  extract (path_two ps) (λ nr,
    extract (json_route req) (λ route, reply_unit (create_config_item_route nr.1 nr.2 route))).
Definition post_config_plugin : Handler := λ ps req,
  extract (query_upsert req) (λ query,
    extract (json_value req) (λ spec, reply_unit (create_plugin (into_config query spec)))).

Definition put_config_item_gateway : Handler := λ ps req,
  extract (path_one ps) (λ gateway_name,
    extract (json_gateway req) (λ gateway, reply_unit (update_config_item_gateway gateway_name gateway))).
Definition put_config_item_route : Handler := λ ps req,
  extract (path_two ps) (λ nr,
    extract (json_route req) (λ route, reply_unit (update_config_item_route nr.1 nr.2 route))).
Definition put_config_item : Handler := λ ps req,
  extract (path_one ps) (λ name, extract (json_item req) (λ item, reply_unit (update_config_item name item))).
Definition put_config : Handler := λ ps req,
  extract (json_config req) (λ config, reply_unit (update_config config)).
Definition put_config_plugin : Handler := λ ps req,
  extract (query_upsert req) (λ query,
    extract (json_value req) (λ spec, reply_unit (update_plugin (into_config query spec)))).

Definition delete_config_item_gateway_ : Handler := λ ps req,
  extract (path_one ps) (λ gateway_name, reply_unit (delete_config_item_gateway gateway_name)).
Definition delete_config_item_route_ : Handler := λ ps req,
  extract (path_two ps) (λ nr, reply_unit (delete_config_item_route nr.1 nr.2)).
Definition delete_config_item_ : Handler := λ ps req,
  extract (path_one ps) (λ name, reply_unit (delete_config_item name)).
Definition delete_config_item_all_routes_ : Handler := λ ps req,
  extract (path_one ps) (λ name, reply_unit (delete_config_item_all_routes name)).
Definition delete_config_plugin : Handler := λ ps req,
  extract (query_id req) (λ id, reply_unit (delete_plugin id)).

(** [Router::nest] *)
Definition nest {A} (prefix : string) (table : list (string * A)) : list (string * A) :=
  (λ e, (prefix +:+ e.1, e.2)) <$> table.
Definition config_router : list (string * list (string * Handler)) :=
  [("/", [("GET", get_config); ("POST", post_config); ("PUT", put_config)]);
   ("/names", [("GET", get_config_names)])] ++
  nest "/item"
    [("/{name}", [("GET", get_config_item); ("POST", post_config_item); ("PUT", put_config_item); ("DELETE", delete_config_item_)]);
     ("/{name}/route/item/{route}",
      [("GET", get_config_item_route); ("POST", post_config_item_route); ("PUT", put_config_item_route);
       ("DELETE", delete_config_item_route_)]);
     ("/{name}/route/all", [("GET", get_config_item_all_routes); ("DELETE", delete_config_item_all_routes_)]);
     ("/{name}/route/names", [("GET", get_config_item_route_names)]);
     ("/{name}/gateway",
      [("GET", get_config_item_gateway); ("POST", post_config_item_gateway); ("PUT", put_config_item_gateway);
       ("DELETE", delete_config_item_gateway_)])] ++
  [("/plugin", [("GET", get_config_plugin); ("DELETE", delete_config_plugin); ("PUT", put_config_plugin); ("POST", post_config_plugin)]);
   ("/plugin-all", [("GET", get_config_all_plugin)]);
   ("/plugins/{code}", [("GET", get_config_plugins_by_code)])].

(** The handler of a request whose path has a route *)
Definition routed (methods : list (string * Handler)) (ps : list string) : Next C := λ req c,
  match method_route methods (req_method req) with
  | Some h => h ps req c
  | None => (method_not_allowed, c)
  end.

(** [service::router]: the layer added last is run first, so the version is checked, and
    counted, before the token. A path without a route is not handled here. *)
Definition config_service (now : Z) (secret : option string) (req : Request) (sv : Server C) : option (Response * Server C) :=
  '(methods, ps) ← path_route config_router (uri_path (req_uri req));
  Some (version_control (authentication now secret (routed methods ps)) req sv).
End endpoints.
