(* ===== verification/AdminRun.v ===== *)
(** * Administration server: what the version counter guarantees

    The requests of [Admin] as tasks whose steps are interleaved: the check of the version, its
    increment, its reading and the handler are four steps. [edits_guarded] says, for every
    interleaving, who can change the configuration; [no_lost_update] says, for requests that are
    served one after the other, that an edit is applied to what its client has read. The examples
    show what goes wrong when requests overlap. *)

From S2P Require Export Admin.
From S2P Require Import RefHttp.
Local Open Scope string_scope.
Local Open Scope list_scope.
Local Open Scope Z_scope.

(** ** What is expected of the libraries *)

(** A path matches a pattern segment by segment; a parameter is any segment but the empty one. *)
Definition is_param (p : string) : bool := starts_with p "{".
Definition segment_matches (p s : string) : Prop := if is_param p then s ≠ "" else p = s.
Definition path_matches (pattern path : string) : Prop := Forall2 segment_matches (str_split "/" pattern) (str_split "/" path).

Class AdminLaws `{HttpLib} (L : AdminLib) : Prop := {
  path_route_matches A (table : list (string * A)) path a ps :
    path_route table path = Some (a, ps) → ∃ pattern, (pattern, a) ∈ table ∧ path_matches pattern path;
  method_route_entry A (table : list (string * A)) method a :
    method_route table method = Some a → (method, a) ∈ table ∨ method = "HEAD" ∧ ("GET", a) ∈ table;
  (** a token is valid until a minute after its time has come *)
  jwt_decode_encode claims secret token now :
    jwt_encode claims secret = Ok token → now ≤ cl_exp claims + 60 → jwt_decode token secret now = Some claims;
  hv_to_str_version version : in_unsigned 64 version → hv_to_str (z_string version) = Some (z_string version);
}.

(** A backend whose reading leaves what it stores alone *)
Class ReadOnly {C S : Type} `{Retrieve C} (stored : C → S) : Prop := {
  ro_gateway n c : stored (retrieve_config_item_gateway n c).2 = stored c;
  ro_route n r c : stored (retrieve_config_item_route n r c).2 = stored c;
  ro_route_names n c : stored (retrieve_config_item_route_names n c).2 = stored c;
  ro_names c : stored (retrieve_config_names c).2 = stored c;
  ro_all_plugins c : stored (retrieve_all_plugins c).2 = stored c;
  ro_plugin id c : stored (retrieve_plugin id c).2 = stored c;
  ro_plugins_by_code code c : stored (retrieve_plugins_by_code code c).2 = stored c;
}.

(** ** Steps *)

Inductive Phase `{HttpLib} :=
| Arrived | Passed | Stale | Counted | Running (version : Z) | Answered (r : Response).

Section steps.
Context `{AdminLib} {C : Type}.

Definition phase_step (next : Next C) (req : Request) (ph : Phase) (sv : Server C) : Phase * Server C :=
  match ph with
  | Arrived =>
      if versioned_request req then
        if version_equal (sv_version sv) (client_version req) then (Passed, sv) else (Stale, sv)
      else (Counted, sv)
  | Passed => (Counted, MkServer (version_update (sv_version sv)) (sv_world sv))
  | Stale => (Answered (conflict (sv_version sv)), sv)
  | Counted => (Running (sv_version sv), sv)
  | Running v =>
      let '(r, c) := next req (sv_world sv) in (Answered (with_version req v r), MkServer (sv_version sv) c)
  | Answered r => (Answered r, sv)
  end.

(** A request that is not interrupted is answered after four steps, as the middleware answers. *)
Lemma steps_alone next req sv :
  Nat.iter 4 (λ s, phase_step next req s.1 s.2) (Arrived, sv) =
    (Answered (version_control next req sv).1, (version_control next req sv).2).
Proof.
  unfold version_control. cbn. destruct (versioned_request req); cbn.
  - destruct (version_equal _ _); cbn; [|done]. by destruct (next req (sv_world sv)).
  - by destruct (next req (sv_world sv)).
Qed.

(** The tasks, each with its request and the handler behind the middleware *)
Record Task := MkTask { tk_req : Request; tk_next : Next C; tk_phase : Phase }.
Definition System : Type := list Task * Server C.
Definition task_step (i : nat) (s : System) : System :=
  match s.1 !! i with
  | Some t =>
      let '(ph, sv) := phase_step (tk_next t) (tk_req t) (tk_phase t) s.2 in
      (<[i := MkTask (tk_req t) (tk_next t) ph]> s.1, sv)
  | None => s
  end.
Definition run (schedule : list nat) (s : System) : System := foldl (λ s i, task_step i s) s schedule.
End steps.
Arguments Task {_} C.
Arguments System {_} C.

(** ** Paths and methods of the configuration endpoints *)

Section paths.
Fixpoint may_start (pattern segs : list string) : bool :=
  match segs, pattern with
  | [], _ => true
  | s :: segs, p :: pattern => (is_param p || bool_decide (p = s)) && may_start pattern segs
  | _ :: _, [] => false
  end.

Lemma may_start_spec pattern segs l :
  Forall2 segment_matches pattern (segs ++ l) → may_start pattern segs = true.
Proof.
  revert pattern. induction segs as [|s segs IH]; [by destruct pattern|].
  intros pattern Hp. cbn [app] in Hp. apply Forall2_cons_inv_r in Hp as (p & pat & Hs & Hp & ->). cbn.
  apply andb_true_iff. split; [|by apply IH]. unfold segment_matches in Hs. destruct (is_param p); [done|].
  subst. by apply bool_decide_eq_true.
Qed.

(** A path that ends with some segments has a pattern that may end with them. *)
Lemma matches_suffix pattern path suffix :
  path_matches pattern path → ends_with path (String "/" suffix) = true →
  may_start (reverse (str_split "/" pattern)) (reverse (str_split "/" suffix)) = true.
Proof.
  intros Hm (t & ->)%ends_with_spec. unfold path_matches in Hm. rewrite str_split_app_sep in Hm.
  apply Forall2_reverse in Hm. rewrite reverse_app in Hm. by eapply may_start_spec.
Qed.

Definition read_only_post (path : string) : bool :=
  ends_with path "/wasm/schema/preview" || bool_decide (path = "/refresh") || ends_with path "/plugin/refresh".
Definition may_be_read_only (pattern : string) : bool :=
  let pat := reverse (str_split "/" pattern) in
  may_start pat ["preview"; "schema"; "wasm"] || may_start pat ["refresh"; ""] || may_start pat ["refresh"; "plugin"].

Lemma read_only_pattern pattern path :
  path_matches pattern path → read_only_post path = true → may_be_read_only pattern = true.
Proof.
  intros Hm Hr. unfold may_be_read_only. apply orb_true_iff in Hr as [[Hr|Hr]%orb_true_iff|Hr].
  - apply (matches_suffix _ _ "wasm/schema/preview") in Hm; [|done]. change (may_start _ _) with (may_start (reverse (str_split "/" pattern)) ["preview"; "schema"; "wasm"]) in Hm.
    by rewrite Hm.
  - apply bool_decide_eq_true in Hr as ->. apply Forall2_reverse in Hm.
    change (reverse (str_split "/" "/refresh")) with (["refresh"; ""] ++ []) in Hm. apply may_start_spec in Hm. rewrite Hm. by rewrite orb_true_r.
  - apply (matches_suffix _ _ "plugin/refresh") in Hm; [|done]. change (may_start _ _) with (may_start (reverse (str_split "/" pattern)) ["refresh"; "plugin"]) in Hm.
    rewrite Hm. by rewrite orb_true_r.
Qed.
End paths.

(** ** The endpoints *)

Section edits.
Context `{AdminLib} `{!AdminLaws _} {C S : Type} `{!Create C, !Retrieve C, !Update C, !ConfigService.Delete C}
  (stored : C → S) `{!ReadOnly stored}.

Definition keeps {A} (m : C → A * C) : Prop := ∀ c, stored (m c).2 = stored c.

Lemma keeps_ret {A} (a : A) : keeps (op_ret (E:=string) a).
Proof. done. Qed.
Lemma keeps_bind {A B} (m : Op C A) (k : A → Op C B) : keeps m → (∀ a, keeps (k a)) → keeps (op_bind m k).
Proof.
  intros Hm Hk c. specialize (Hm c). unfold op_bind. destruct (m c) as [[a|e] c'] eqn:E; [|done].
  cbn in Hm. by rewrite <- Hm, <- (Hk a c').
Qed.
Lemma keeps_extract {A} (r : result A Response) k : (∀ a, keeps (k a)) → keeps (extract r k).
Proof. intros Hk. by destruct r; cbn. Qed.
Lemma keeps_reply {A} (m : Op C A) f : keeps m → keeps (reply m f).
Proof. intros Hm c. specialize (Hm c). unfold reply. by destruct (m c) as [[] ?]. Qed.

Lemma keeps_collect_routes g names routes : keeps (collect_routes g names routes).
Proof.
  revert routes. induction names as [|n names IH]; intros routes c; cbn; [done|].
  pose proof (ro_route g n c) as Hr. destruct (retrieve_config_item_route g n c) as [[[]|] c']; cbn in Hr; by rewrite IH.
Qed.
Lemma keeps_all_routes n : keeps (retrieve_config_item_all_routes n).
Proof. apply keeps_bind; [exact (ro_route_names n)|]. intros names. apply keeps_collect_routes. Qed.
Lemma keeps_item n : keeps (retrieve_config_item n).
Proof.
  apply keeps_bind; [exact (ro_gateway n)|]. intros [g|]; [|apply keeps_ret].
  apply keeps_bind; [apply keeps_all_routes|]. intros ?. apply keeps_ret.
Qed.
Lemma keeps_collect_items names gs : keeps (collect_items names gs).
Proof.
  revert gs. induction names as [|n names IH]; intros gs; [apply keeps_ret|].
  apply keeps_bind; [apply keeps_item|]. intros ?. apply IH.
Qed.
Lemma keeps_config : keeps retrieve_config.
Proof.
  apply keeps_bind; [exact ro_names|]. intros names. apply keeps_bind; [apply keeps_collect_items|]. intros gs.
  apply keeps_bind; [exact ro_all_plugins|]. intros ps. apply keeps_ret.
Qed.

(** What [GET] runs only reads. *)
Lemma get_keeps pattern methods h ps req :
  (pattern, methods) ∈ config_router (C:=C) → ("GET", h) ∈ methods → keeps (h ps req).
Proof.
  intros Hm Hh. unfold config_router, nest in Hm. cbn [app fmap list_fmap fst snd] in Hm.
  repeat (apply elem_of_cons in Hm as [[= -> ->]|Hm]); [..|by apply elem_of_nil in Hm];
    (repeat (apply elem_of_cons in Hh as [[= ?]|Hh]); [..|by apply elem_of_nil in Hh]); subst;
    repeat first [apply keeps_extract; intros ?|apply keeps_reply]; intros c;
    first [apply keeps_config|apply ro_names|apply keeps_item|apply ro_route|apply keeps_all_routes|apply ro_route_names
          |apply ro_gateway|apply ro_plugin|apply ro_all_plugins|apply ro_plugins_by_code].
Qed.

Lemma router_methods pattern methods m h :
  (pattern, methods) ∈ config_router (C:=C) → (m, h) ∈ methods → m = "GET" ∨ m = "POST" ∨ m = "PUT" ∨ m = "DELETE".
Proof.
  intros Hm Hh. unfold config_router, nest in Hm. cbn [app fmap list_fmap fst snd] in Hm.
  repeat (apply elem_of_cons in Hm as [[= -> ->]|Hm]); [..|by apply elem_of_nil in Hm];
    (repeat (apply elem_of_cons in Hh as [[= ? _]|Hh]); [..|by apply elem_of_nil in Hh]); subst; tauto.
Qed.

Lemma router_patterns pattern methods : (pattern, methods) ∈ config_router (C:=C) → may_be_read_only pattern = false.
Proof.
  intros Hm. unfold config_router, nest in Hm. cbn [app fmap list_fmap fst snd] in Hm.
  repeat (apply elem_of_cons in Hm as [[= -> _]|Hm]); [..|by apply elem_of_nil in Hm]; by vm_compute.
Qed.

(** Only a request whose version is checked edits the configuration. *)
Lemma unversioned_keeps methods ps req :
  path_route config_router (uri_path (req_uri req)) = Some (methods, ps) → versioned_request req = false →
  keeps (routed methods ps req).
Proof.
  intros (pattern & Hin & Hp)%path_route_matches Hv c. unfold routed.
  destruct (method_route methods (req_method req)) as [h|] eqn:Hh; [|done].
  apply method_route_entry in Hh. cut (("GET", h) ∈ methods); [intros; by eapply get_keeps|].
  destruct Hh as [Hh|[_ Hh]]; [|done]. pose proof (router_methods _ _ _ _ Hin Hh) as Hm.
  assert (read_only_post (uri_path (req_uri req)) = false) as Hr.
  { apply not_true_is_false. intros Hr. apply (read_only_pattern pattern) in Hr; [|done]. by erewrite router_patterns in Hr. }
  unfold versioned_request, requires_version_control in Hv. fold (read_only_post (uri_path (req_uri req))) in Hv. rewrite Hr in Hv.
  destruct Hm as [<-|[Hm|[Hm|Hm]]]; [done|rewrite Hm in Hv; done..].
Qed.

Definition authenticated (now : Z) (secret : option string) (req : Request) : bool :=
  match secret with
  | None => true
  | Some secret => match bearer_token req with Some jwt => bool_decide (is_Some (jwt_decode jwt secret now)) | None => false end
  end.
Lemma unauthenticated_keeps now secret (next : Next C) req :
  authenticated now secret req = false → keeps (authentication now secret next req).
Proof.
  unfold authenticated, authentication. intros Ha c. destruct secret as [secret|]; [|done].
  destruct (bearer_token req) as [jwt|]; [|done]. destruct (jwt_decode jwt secret now); [|done].
  apply bool_decide_eq_false in Ha. by destruct Ha.
Qed.
Lemma authenticated_next now secret (next : Next C) req c :
  authenticated now secret req = true → authentication now secret next req c = next req c.
Proof.
  unfold authenticated, authentication. destruct secret as [secret|]; [|done].
  destruct (bearer_token req) as [jwt|]; [|done]. intros [cl Hcl]%bool_decide_eq_true. by rewrite Hcl.
Qed.

(** ** Any interleaving *)

Definition arrive (now : Z) (secret : option string) (req : Request) : option (Task C) :=
  '(methods, ps) ← path_route config_router (uri_path (req_uri req));
  Some (MkTask req (authentication now secret (routed methods ps)) Arrived).
Definition let_through (ph : Phase) : Prop := match ph with Passed | Counted | Running _ => True | _ => False end.

Lemma task_step_lookup i (s : System C) j t' :
  (task_step i s).1 !! j = Some t' →
  s.1 !! j = Some t' ∨
  i = j ∧ ∃ t, s.1 !! j = Some t ∧ tk_req t' = tk_req t ∧ tk_next t' = tk_next t ∧
    tk_phase t' = (phase_step (tk_next t) (tk_req t) (tk_phase t) s.2).1.
Proof.
  unfold task_step. destruct (s.1 !! i) as [t|] eqn:E; [|by left].
  destruct (phase_step (tk_next t) (tk_req t) (tk_phase t) s.2) as [ph sv] eqn:Ep. cbn [fst].
  destruct (decide (i = j)) as [->|Hij]; [|rewrite list_lookup_insert_ne by done; by left].
  rewrite list_lookup_insert_eq by (by eapply lookup_lt_Some). intros [= <-]. right. split; [done|].
  exists t. by rewrite Ep.
Qed.

(** A task keeps its request; one that was let through with a checked version carried the version
    the counter had at some time. *)
Lemma run_invariant (tasks : list (Task C)) sv schedule j t :
  (∀ j t, tasks !! j = Some t → tk_phase t = Arrived) →
  (run schedule (tasks, sv)).1 !! j = Some t →
  (∃ t0, tasks !! j = Some t0 ∧ tk_req t = tk_req t0 ∧ tk_next t = tk_next t0) ∧
  (let_through (tk_phase t) → versioned_request (tk_req t) = true →
   ∃ n, (n ≤ length schedule)%nat ∧ client_version (tk_req t) = sv_version (run (take n schedule) (tasks, sv)).2).
Proof.
  intros Hstart. revert t. induction schedule as [|i schedule IH] using rev_ind; intros t Ht.
  { split; [by exists t|]. apply Hstart in Ht. by rewrite Ht. }
  assert (∀ n, (n ≤ length schedule)%nat → take n (schedule ++ [i]) = take n schedule) as Htake
    by (intros n Hn; by rewrite take_app_le).
  assert (Hlen : (length schedule ≤ length (schedule ++ [i]))%nat) by (rewrite length_app; lia).
  unfold run in Ht. rewrite foldl_snoc in Ht. fold (run schedule (tasks, sv)) in Ht.
  apply task_step_lookup in Ht as [Ht|(-> & t0 & Ht0 & Hreq & Hnext & Hph)].
  - destruct (IH t Ht) as [Ha Hb]. split; [done|]. intros Hp Hv. destruct (Hb Hp Hv) as (n & Hn & Hcv).
    exists n. rewrite Htake by done. split; [lia|done].
  - destruct (IH t0 Ht0) as [(t1 & Ht1 & Hr1 & Hn1) Hb]. rewrite Hreq, Hnext. split; [by exists t1|]. rewrite Hph. clear Hph.
    intros Hp Hv. destruct (tk_phase t0) eqn:Eph; cbn in Hp.
    + rewrite Hv in Hp. destruct (version_equal _ _) eqn:Heq; [|done]. exists (length schedule).
      rewrite Htake, take_ge by lia. split; [done|]. symmetry. by apply Z.eqb_eq.
    + destruct (Hb I Hv) as (n & Hn & Hcv). exists n. rewrite Htake by done. split; [lia|done].
    + done.
    + destruct (Hb I Hv) as (n & Hn & Hcv). exists n. rewrite Htake by done. split; [lia|done].
    + by destruct (tk_next t0 (tk_req t0) (sv_world (run schedule (tasks, sv)).2)).
    + done.
Qed.

(** A step of a task that changes what is stored is a run of its handler. *)
Lemma changing_step i (s : System C) :
  stored (sv_world (task_step i s).2) ≠ stored (sv_world s.2) →
  ∃ t v, s.1 !! i = Some t ∧ tk_phase t = Running v ∧
    stored (tk_next t (tk_req t) (sv_world s.2)).2 ≠ stored (sv_world s.2).
Proof.
  unfold task_step. destruct (s.1 !! i) as [t|]; [|done]. intros Hc. exists t.
  destruct (tk_phase t) eqn:E; cbn in Hc; [|done..| |done].
  - destruct (versioned_request _); [destruct (version_equal _ _)|]; done.
  - exists version. destruct (tk_next t (tk_req t) (sv_world s.2)); done.
Qed.

(** C23: whoever changes the configuration through the administration server has a valid token, if
    the server has a secret, and carried the version that the counter had at some time of the run;
    and the request is a [POST], [PUT] or [DELETE]. This holds for any requests, in any
    interleaving of their steps. *)
Theorem edits_guarded now secret reqs tasks schedule i sv :
  mapM (arrive now secret) reqs = Some tasks →
  let s := run schedule (tasks, sv) in
  stored (sv_world (task_step i s).2) ≠ stored (sv_world s.2) →
  ∃ req, reqs !! i = Some req ∧ req_method req ∈ ["POST"; "PUT"; "DELETE"] ∧ authenticated now secret req = true ∧
    ∃ n, (n ≤ length schedule)%nat ∧ client_version req = sv_version (run (take n schedule) (tasks, sv)).2.
Proof.
  intros Ht s Hc. apply changing_step in Hc as (t & v & Hi & Hph & Hc). apply mapM_Some in Ht.
  assert (Hstart : ∀ j t, tasks !! j = Some t → tk_phase t = Arrived).
  { intros j t' Hj. eapply Forall2_lookup_r in Ht as (req & _ & Har); [|exact Hj]. unfold arrive in Har.
    destruct (path_route _ _) as [[]|]; [|done]. by injection Har as <-. }
  destruct (run_invariant tasks sv schedule i t Hstart Hi) as [(t0 & Ht0 & Hreq & Hnext) Hv].
  eapply Forall2_lookup_r in Ht as (req & Hreqs & Har); [|exact Ht0]. unfold arrive in Har.
  destruct (path_route _ _) as [[methods ps]|] eqn:Hroute; [|done]. injection Har as <-. cbn in Hreq, Hnext.
  rewrite Hreq, Hnext in Hc. rewrite Hreq in Hv. exists req. split; [done|].
  assert (authenticated now secret req = true) as Hauth.
  { apply not_false_is_true. intros Ha. apply Hc. by apply unauthenticated_keeps. }
  assert (versioned_request req = true) as Hver.
  { apply not_false_is_true. intros Hu. apply Hc. rewrite (authenticated_next now secret) by done.
    by apply unversioned_keeps. }
  split_and!; [|done|apply Hv; [by rewrite Hph|done]].
  unfold versioned_request, requires_version_control in Hver. rewrite !elem_of_cons.
  destruct (decide (req_method req = "DELETE")) as [->|Hm1]; [tauto|]. destruct (decide (req_method req = "POST")) as [->|Hm2]; [tauto|].
  destruct (decide (req_method req = "PUT")) as [->|Hm3]; [tauto|].
  by rewrite !bool_decide_eq_false_2 in Hver by done.
Qed.

(** ** Requests one after the other *)

(** A request that is not answered with a conflict counts, or changes nothing. *)
Lemma version_moves now secret req sv r sv' :
  config_service now secret req sv = Some (r, sv') →
  sv_version sv' = sv_version sv ∧ stored (sv_world sv') = stored (sv_world sv) ∨
  client_version req = sv_version sv ∧ sv_version sv' = version_update (sv_version sv).
Proof.
  unfold config_service. destruct (path_route _ _) as [[methods ps]|] eqn:Hroute; [|done]. cbn. intros [= Hs].
  set (next := authentication now secret (routed methods ps)) in *. unfold version_control in Hs.
  destruct (versioned_request req) eqn:Hv.
  - destruct (version_equal _ _) eqn:E; [|injection Hs as _ <-; by left]. right. apply Z.eqb_eq in E.
    destruct (next req (sv_world sv)). by injection Hs as _ <-.
  - left. assert (stored (next req (sv_world sv)).2 = stored (sv_world sv)) as Hk.
    { unfold next. destruct (authenticated now secret req) eqn:Ha; [|by apply unauthenticated_keeps].
      rewrite authenticated_next by done. by apply unversioned_keeps. }
    destruct (next req (sv_world sv)). by injection Hs as _ <-.
Qed.

Definition serve_next (secret : option string) (sv : Server C) (tr : Z * Request) : Server C :=
  match config_service tr.1 secret tr.2 sv with Some (_, sv') => sv' | None => sv end.

Lemma version_counts secret reqs sv :
  in_unsigned 64 (sv_version sv) →
  let sv' := foldl (serve_next secret) sv reqs in
  ∃ k, 0 ≤ k ≤ Z.of_nat (length reqs) ∧ sv_version sv' = uwrap 64 (sv_version sv + k) ∧
    (k = 0 → stored (sv_world sv') = stored (sv_world sv)).
Proof.
  intros Hin. induction reqs as [|tr reqs IH] using rev_ind; cbn.
  { exists 0. split; [lia|]. rewrite Z.add_0_r. by rewrite uwrap_id. }
  rewrite foldl_snoc, length_app. destruct IH as (k & Hk & Hv & Hs). cbn [length].
  set (sv1 := foldl (serve_next secret) sv reqs) in *. unfold serve_next.
  destruct (config_service tr.1 secret tr.2 sv1) as [[r sv']|] eqn:E.
  - apply version_moves in E as [[Hv' Hs']|[_ Hv']].
    + exists k. rewrite Hv', Hs'. split; [lia|]. done.
    + exists (k + 1). split; [lia|]. split; [|lia]. rewrite Hv', Hv. unfold version_update, uwrap.
      rewrite Zplus_mod_idemp_l. f_equal. lia.
  - exists k. split; [lia|]. done.
Qed.

Lemma client_version_of req version :
  in_unsigned 64 version → hm_get (req_headers req) CLIENT_HEADER = Some (z_string version) → client_version req = version.
Proof.
  intros Hv Hh. unfold client_version. rewrite Hh. cbn. rewrite hv_to_str_version by done. cbn. by rewrite parse_z_string.
Qed.

Context `{!HttpLaws _}.

(** C21: no update is lost when requests are served one after the other: if a client reads, then
    sends an edit with the version that came with the answer, and the edit changes the
    configuration, then it changes the configuration the client read, whatever requests were served
    in between (fewer than [2 ^ 64]). *)
Theorem no_lost_update secret t1 g sv0 r sv1 reqs t2 e r' sv3 :
  in_unsigned 64 (sv_version sv0) →
  req_method g = "GET" → config_service t1 secret g sv0 = Some (r, sv1) →
  Z.of_nat (length reqs) < 2 ^ 64 →
  hm_get (req_headers e) CLIENT_HEADER = hm_get (resp_headers r) SERVER_HEADER →
  let sv2 := foldl (serve_next secret) sv1 reqs in
  config_service t2 secret e sv2 = Some (r', sv3) →
  stored (sv_world sv3) ≠ stored (sv_world sv2) →
  stored (sv_world sv2) = stored (sv_world sv0).
Proof.
  intros Hin Hg Hr Hlen Hh sv2 He Hc. assert (sv_version sv1 = sv_version sv0 ∧ stored (sv_world sv1) = stored (sv_world sv0) ∧
    hm_get (resp_headers r) SERVER_HEADER = Some (z_string (sv_version sv0))) as (Hv1 & Hs1 & Hsent).
  { pose proof (version_moves _ _ _ _ _ _ Hr) as Hm. unfold config_service in Hr. destruct (path_route _ _) as [[methods ps]|]; [|done].
    cbn in Hr. injection Hr as Hr. unfold version_control, versioned_request, requires_version_control, with_version in Hr. rewrite Hg in Hr. cbn in Hr.
    destruct (authentication t1 secret (routed methods ps) g (sv_world sv0)) as [r0 c0]. injection Hr as <- <-. cbn in *.
    unfold hm_get. rewrite hm_get_all_insert, decide_True by done. split_and!; [done| |done].
    destruct Hm as [[_ Hm]|[_ Hm]]; [done|]. unfold version_update, uwrap in Hm. red in Hin.
    destruct (decide (sv_version sv0 = 2 ^ 64 - 1)) as [E|E]; [rewrite E in Hm; vm_compute in Hm; done|].
    rewrite Z.mod_small in Hm by lia. lia. }
  rewrite Hsent in Hh. apply client_version_of in Hh; [|done].
  destruct (version_counts secret reqs sv1) as (k & Hk & Hv2 & Hs2); [by rewrite Hv1|]. fold sv2 in Hv2, Hs2.
  apply version_moves in He as [[_ He]|[He _]]; [done|]. rewrite <- Hs1. apply Hs2.
  rewrite Hh, Hv2, Hv1 in He. unfold uwrap, in_unsigned in *.
  destruct (Z_lt_le_dec (sv_version sv0 + k) (2 ^ 64)); [rewrite Z.mod_small in He by lia; lia|].
  replace (sv_version sv0 + k) with (sv_version sv0 + k - 2 ^ 64 + 1 * 2 ^ 64) in He by lia.
  rewrite Z_mod_plus_full, Z.mod_small in He by lia. lia.
Qed.

(** What a login is worth: the answer to a login carries a token only if the secret of the user
    was right, or none is set, and with this token every request is authenticated for an hour
    (and the minute that [jsonwebtoken] allows for). *)
Theorem login_grants t secret sk_digest lg resp :
  login t (Some secret) sk_digest lg = Some resp →
  match hm_get (resp_headers resp) "set-cookie" with
  | Some cookie =>
      sk_accepted sk_digest (lg_sk lg) = true ∧
      ∃ jwt, hv_to_str cookie = Some ("jwt=" +:+ jwt +:+ "; path=/; HttpOnly; Max-Age=3600") ∧
        ∀ t' req, bearer_token req = Some jwt → t' ≤ t + 3660 → authenticated t' (Some secret) req = true
  | None => resp_status resp ≠ 200
  end.
Proof.
  unfold login. destruct (sk_accepted sk_digest (lg_sk lg)); cbn [negb]; [|intros [= <-]; unfold hm_get; cbn; by rewrite hm_get_all_empty].
  destruct (jwt_encode _ _) as [jwt|err] eqn:Hjwt; [|intros [= <-]; unfold hm_get; cbn; by rewrite hm_get_all_empty].
  destruct (hv_from_str _) as [v|] eqn:Hv; [|done]. cbn. intros [= <-]. unfold hm_get. cbn [admin_response resp_headers].
  rewrite hm_get_all_insert, decide_True by done. cbn. split; [done|]. exists jwt. split; [by apply hv_to_from|].
  intros t' req Hb Ht. cbn. rewrite Hb. apply bool_decide_eq_true.
  rewrite (jwt_decode_encode _ _ _ _ Hjwt) by (cbn; unfold EXPIRE; lia). done.
Qed.
End edits.
