(* ===== verification/AdminServer.v ===== *)
(** * Administration server: a reference instance

    Libraries that meet [AdminLaws] and a small backend in memory, to which the theorems of
    [AdminRun] are applied, and examples of requests that overlap. *)

From S2P Require Export AdminRun.
From S2P Require Import RefHttp.
Local Open Scope string_scope.
Local Open Scope list_scope.
Local Open Scope Z_scope.

(** ** The libraries *)

Fixpoint match_segments (pattern segs : list string) : option (list string) :=
  match pattern, segs with
  | [], [] => Some []
  | p :: pattern, s :: segs =>
      if is_param p then if str_is_empty s then None else cons s <$> match_segments pattern segs
      else if decide (p = s) then match_segments pattern segs else None
  | _, _ => None
  end.
Lemma match_segments_spec pattern segs ps : match_segments pattern segs = Some ps → Forall2 segment_matches pattern segs.
Proof.
  revert segs ps. induction pattern as [|p pattern IH]; intros [|s segs] ps; cbn; try done.
  intros Hm. unfold segment_matches. constructor; destruct (is_param p); try done.
  - intros ->. done.
  - by case_decide.
  - destruct (str_is_empty s); [done|]. apply fmap_Some in Hm as (ps' & Hm & _). by eapply IH.
  - case_decide; [|done]. by eapply IH.
Qed.

Definition find_entry {A B} (f : string → option B) (table : list (string * A)) : option (A * B) :=
  find_map (λ e, b ← f e.1; Some (e.2, b)) table.
Lemma find_entry_elem {A B} (f : string → option B) (table : list (string * A)) a b :
  find_entry f table = Some (a, b) → ∃ k, (k, a) ∈ table ∧ f k = Some b.
Proof.
  intros (l1 & [k a'] & l2 & -> & Hf & _)%find_map_Some. cbn in Hf. destruct (f k) as [b'|] eqn:E; [|done].
  injection Hf as -> ->. exists k. split; [|done]. apply elem_of_app. right. by left.
Qed.

Definition ref_token (c : Claims) (secret : string) : string :=
  secret +:+ " " +:+ cl_sub c +:+ " " +:+ cl_username c +:+ " " +:+ z_string (cl_exp c).
Definition ref_claims (token secret : string) (now : Z) : option Claims :=
  rest ← str_strip_prefix (secret +:+ " ") token;
  '(sub, rest) ← str_split_once " " rest;
  '(username, rest) ← str_split_once " " rest;
  exp ← parse_unsigned 64 rest;
  if decide (now ≤ exp + 60) then Some (MkClaims sub exp username) else None.

Definition one (ps : list string) : result string (Response (H:=ref_http)) :=
  match ps with [p] => Ok p | _ => Err (with_code_empty 500) end.
Definition two (ps : list string) : result (string * string) (Response (H:=ref_http)) :=
  match ps with [p; q] => Ok (p, q) | _ => Err (with_code_empty 500) end.
Definition bad_request {A} : result A (Response (H:=ref_http)) := Err (with_code_empty 400).

(** The body of a gateway is its name. *)
#[export] Instance ref_admin : AdminLib (H:=ref_http) := {|
  path_route _ table path := find_entry (λ pattern, match_segments (str_split "/" pattern) (str_split "/" path)) table;
  method_route _ table method :=
    fst <$> opt_or (find_entry (λ m, if decide (m = method) then Some () else None) table)
      (find_entry (λ m, if decide (method = "HEAD" ∧ m = "GET") then Some () else None) table);
  method_not_allowed := with_code_empty 405;
  path_one := one;
  path_two := two;
  query_id _ := bad_request;
  query_upsert _ := bad_request;
  json_gateway req := Ok (MkSgGateway (req_body req) parameters_default [] []);
  json_route _ := bad_request;
  json_item _ := bad_request;
  json_config _ := bad_request;
  json_value _ := bad_request;
  json_login _ := bad_request;
  json_reply d := admin_response 200 hm_empty (match d with DNames ns => str_join "," ns | _ => "" end);
  cookie_get _ _ := None;
  jwt_encode c secret :=
    if negb (str_contains_char " " (cl_sub c)) && negb (str_contains_char " " (cl_username c)) &&
       (0 <=? cl_exp c) && (cl_exp c <? 2 ^ 64) then Ok (ref_token c secret)
    else Err "InvalidToken";
  jwt_decode := ref_claims;
  sha256_digest s := s;
|}.

#[export] Instance ref_admin_laws : AdminLaws ref_admin.
Proof.
  split.
  - intros A table path a ps (k & Hk & Hm)%find_entry_elem. exists k. split; [done|]. by eapply match_segments_spec.
  - intros A table m a Hr. cbn in Hr. apply fmap_Some in Hr as ([a' []] & Hr & ->).
    apply opt_or_Some in Hr as [(k & Hk & Hm)%find_entry_elem|[_ (k & Hk & Hm)%find_entry_elem]]; case_decide; simplify_eq/=.
    + by left.
    + right. by destruct_and!; subst.
  - intros [sub exp user] secret token now He Hn. cbn [jwt_encode jwt_decode ref_admin cl_sub cl_exp cl_username] in *.
    destruct (_ && _) eqn:Hc in He; [|done]. injection He as <-. rewrite !andb_true_iff, !negb_true_iff in Hc.
    destruct Hc as (((Hsub & Huser) & Hlo%Z.leb_le) & Hhi%Z.ltb_lt). unfold ref_claims, ref_token. cbn [cl_sub cl_exp cl_username].
    replace (secret +:+ " " +:+ sub +:+ " " +:+ user +:+ " " +:+ z_string exp)
      with ((secret +:+ " ") +:+ (sub +:+ " " +:+ user +:+ " " +:+ z_string exp)) by by rewrite <- str_app_assoc.
    rewrite (proj2 (str_strip_prefix_Some _ _ _) eq_refl). cbn [mbind option_bind].
    rewrite (proj2 (str_split_once_Some _ _ sub (user +:+ " " +:+ z_string exp))) by done. cbn [mbind option_bind].
    rewrite (proj2 (str_split_once_Some _ _ user (z_string exp))) by done. cbn [mbind option_bind].
    rewrite parse_z_string by lia. cbn [mbind option_bind]. by rewrite decide_True.
  - done.
Qed.

(** ** A backend in memory that edits gateways *)

Definition set_gateways (gs : list (string * Item_)) (c : Memory) : Memory :=
  MkConfig gs (c_plugins c) (c_api_port c) (c_observability c).
Definition unsupported : Op Memory unit := op_lift (Err "unsupported").
#[export] Instance memory_create : Create Memory := {|
  create_config_item_gateway n g := λ c, (Ok (), set_gateways (bt_insert n (MkItem g []) (c_gateways c)) c);
  create_config_item_route _ _ _ := unsupported;
  create_plugin _ := unsupported;
|}.
#[export] Instance memory_update : Update Memory := {|
  update_config_item_gateway n g := λ c,
    (Ok (), set_gateways (bt_modify (λ i, MkItem g (ci_routes i)) n (c_gateways c)) c);
  update_config_item_route _ _ _ := unsupported;
  update_plugin _ := unsupported;
|}.
#[export] Instance memory_delete : ConfigService.Delete Memory := {|
  delete_config_item_gateway n := λ c, (Ok (), set_gateways (filter (λ kv, kv.1 ≠ n) (c_gateways c)) c);
  delete_config_item_route _ _ := unsupported;
  delete_plugin _ := unsupported;
|}.
#[export] Instance memory_read_only : ReadOnly (C:=Memory) (@c_gateways Json).
Proof. by split. Qed.

Definition memory_empty : Memory := MkConfig [] ∅ None observability_default.
Definition admin_request (method path body : string) (headers : list (string * string)) : Request (H:=ref_http) :=
  MkReq method (MkUri None None (Some (MkPq path None))) 1 headers ext_empty body.
Definition add_gateway (name version : string) : Request (H:=ref_http) :=
  admin_request "POST" ("/item/" +:+ name +:+ "/gateway") name [("x-client-version", version)].
Definition list_names : Request (H:=ref_http) := admin_request "GET" "/names" "" [].
Definition admin_token : string := "secret admin root 3600".
Definition with_token (req : Request (H:=ref_http)) : Request (H:=ref_http) :=
  set_headers (("authorization", "Bearer " +:+ admin_token) :: req_headers req) req.

(** ** The theorems on the server *)

Definition tasks_of (secret : option string) (reqs : list (Request (H:=ref_http))) : list (Task Memory) :=
  default [] (mapM (arrive (C:=Memory) 0 secret) reqs).
Definition answered (rs : option (Response (H:=ref_http) * Server Memory)) : Response (H:=ref_http) * Server Memory :=
  default (with_code_empty 404, MkServer 0 memory_empty) rs.

Lemma Some_default {A} (o : option A) d : bool_decide (is_Some o) = true → o = Some (default d o).
Proof. intros [x ->]%bool_decide_eq_true. done. Qed.
Lemma answered_Some rs : bool_decide (is_Some rs) = true → rs = Some ((answered rs).1, (answered rs).2).
Proof. intros [[] ->]%bool_decide_eq_true. done. Qed.
Lemma gateways_differ (gs gs' : list (string * Item_)) : bool_decide (gs.*1 = gs'.*1) = false → gs ≠ gs'.
Proof. intros Hn%bool_decide_eq_false ->. done. Qed.

Lemma edits_guarded_witness :
  let reqs := [with_token (add_gateway "gw" "0")] in
  ∃ req, reqs !! 0%nat = Some req ∧ req_method req ∈ ["POST"; "PUT"; "DELETE"] ∧
    authenticated 0 (Some "secret") req = true ∧
    ∃ n, (n ≤ 3)%nat ∧ client_version req =
      sv_version (run (take n [0; 0; 0]%nat) (tasks_of (Some "secret") reqs, MkServer 0 memory_empty)).2.
Proof.
  refine (edits_guarded (@c_gateways Json) 0 (Some "secret") _ (tasks_of (Some "secret") _) [0; 0; 0]%nat 0 (MkServer 0 memory_empty) _ _).
  - apply Some_default. vm_compute. reflexivity.
  - apply gateways_differ. vm_compute. reflexivity.
Defined.

Lemma no_lost_update_witness :
  let sv0 := MkServer 7 memory_empty in
  let read := answered (config_service 0 None list_names sv0) in
  let edited := answered (config_service 0 None (add_gateway "gw" "7") read.2) in
  c_gateways (sv_world edited.2) ≠ c_gateways (sv_world read.2) ∧
  c_gateways (sv_world read.2) = c_gateways (sv_world sv0).
Proof.
  intros sv0 read edited. assert (c_gateways (sv_world edited.2) ≠ c_gateways (sv_world read.2)) as Hd
    by (apply gateways_differ; vm_compute; reflexivity).
  split; [exact Hd|].
  refine (no_lost_update (@c_gateways Json) None 0 list_names sv0 read.1 read.2 [] 0 (add_gateway "gw" "7") edited.1 edited.2
    _ _ _ _ _ _ Hd).
  - vm_compute. done.
  - reflexivity.
  - apply answered_Some. vm_compute. reflexivity.
  - vm_compute. reflexivity.
  - vm_compute. reflexivity.
  - apply answered_Some. vm_compute. reflexivity.
Defined.

Lemma login_grants_witness :
  ∃ resp, login 0 (Some "secret") (Some "pw") (MkLogin "root" "pw") = Some resp ∧
  match hm_get (resp_headers resp) "set-cookie" with
  | Some cookie =>
      sk_accepted (Some "pw") "pw" = true ∧
      ∃ jwt, hv_to_str cookie = Some ("jwt=" +:+ jwt +:+ "; path=/; HttpOnly; Max-Age=3600") ∧
        ∀ t' req, bearer_token req = Some jwt → t' ≤ 0 + 3660 → authenticated t' (Some "secret") req = true
  | None => resp_status resp ≠ 200
  end.
Proof.
  destruct (login 0 (Some "secret") (Some "pw") (MkLogin "root" "pw")) as [resp|] eqn:E; [|done]. exists resp. split; [done|].
  exact (login_grants 0 "secret" (Some "pw") (MkLogin "root" "pw") resp E).
Defined.

(** ** Requests that overlap *)

Definition outcome (s : System Memory) : list (option Z) * Z * list string :=
  ((λ t, match tk_phase t with Answered r => Some (resp_status r) | _ => None end) <$> s.1, sv_version s.2, (c_gateways (sv_world s.2)).*1).

(** One after the other, the second edit with the same version is refused. *)
Example second_edit_refused :
  outcome (run [0; 0; 0; 0; 1; 1; 1; 1]%nat (tasks_of None [add_gateway "a" "0"; add_gateway "b" "0"], MkServer 0 memory_empty)) =
    ([Some 200; Some 409], 1, ["a"]).
Proof. vm_compute. reflexivity. Qed.

(** The version is checked and counted in two steps: both edits pass. *)
Example two_edits_one_version :
  outcome (run [0; 1; 0; 1; 0; 1; 0; 1]%nat (tasks_of None [add_gateway "a" "0"; add_gateway "b" "0"], MkServer 0 memory_empty)) =
    ([Some 200; Some 200], 2, ["a"; "b"]).
Proof. vm_compute. reflexivity. Qed.

(** The version is counted before the edit is made: a client that reads in between gets the new
    version with the old configuration, and its edit passes although it has not seen the other. *)
Definition names_and_version (t : Task Memory) : option (string * option string) :=
  match tk_phase t with Answered r => Some (resp_body r, hm_get (resp_headers r) SERVER_HEADER) | _ => None end.
Example stale_read_accepted :
  let s := run [0; 0; 1; 1; 1; 0; 0; 2; 2; 2; 2]%nat
    (tasks_of None [add_gateway "a" "0"; list_names; add_gateway "b" "1"], MkServer 0 memory_empty) in
  outcome s = ([Some 200; Some 200; Some 200], 2, ["a"; "b"]) ∧
  (t ← s.1 !! 1%nat; names_and_version t) = Some ("", Some "1").
Proof. vm_compute. done. Qed.

(** The version is checked before the token: a client without a token makes the next edit fail. *)
Example unauthenticated_request_counts :
  (λ rs, (resp_status rs.1, sv_version rs.2)) <$>
    config_service (C:=Memory) 0 (Some "secret") (add_gateway "a" "5") (MkServer 5 memory_empty) = Some (401, 6).
Proof. vm_compute. reflexivity. Qed.
