(* ===== verification/AdminPlugin.v ===== *)
(** * Administration server: plugins, instances and caches

    [binary/admin-server/src/service/plugin.rs] and [discovery.rs]: the attributes of plugins,
    fetched from a running gateway and cached for an hour; the schemas of WebAssembly plugins; the
    health of the gateways' instances and the orders to reload that are sent to them. The trait
    [Discovery] of [config/src/service.rs], which these handlers use, is a class.

    Times are milliseconds. The HTTP client is the class [InstanceHttp], the parsers of schemas
    are [SchemaLib]; a registry is read by [WasmLoad]. *)

From S2P Require Export K8sStore.
From S2P Require PluginRepo WasmAbi WasmConfig WasmLoad.
Local Open Scope string_scope.
Local Open Scope list_scope.
Local Open Scope Z_scope.
Notation PluginAttributes := PluginRepo.PluginAttributes.
Notation at_code := PluginRepo.at_code.

(** ** Instances *)

Record GatewayInstance := MkGatewayInstance { gi_id : string; gi_api_url : string }.
Class Discovery (C : Type) := {
  instances : Op C (list GatewayInstance);
  backends : Op C (list BackendHost);
}.
Definition discovered (i : K8sGatewayInstance) : GatewayInstance := MkGatewayInstance (inst_name i) (inst_uri i).
Definition k8s_discovery {C} `{!KubeApi C} (self : K8s) : Discovery C := {|
  instances := do l <- k8s_instances self; op_ret (discovered <$> l);
  backends := k8s_backends;
|}.

Class InstanceHttp (C : Type) := {
  (** the status of an answer, or an error of the client *)
  http_get_status : string → Op C Z;
  (** an answer, read as JSON *)
  http_get_attributes : string → Op C (list PluginAttributes);
  http_get_json : string → Op C (option Json);
  (** an event posted as JSON: the status, and the text of the answer *)
  http_post_event : string → ListenEvent → Op C (Z * result string string);
}.

(** ** The cache of plugin attributes *)

Definition ATTR_SYNC_INTERVAL : Z := 3600000.
Record PluginAttrCache := MkAttrCache { pc_attrs : gmap string PluginAttributes; pc_next_sync : Z }.
Definition attr_cache_new (now : Z) : PluginAttrCache := MkAttrCache ∅ now.
(** [collect] into a map: of several attributes with one code the last counts. *)
Definition by_code (attrs : list PluginAttributes) : gmap string PluginAttributes :=
  foldl (λ m a, <[at_code a := a]> m) ∅ attrs.

Section cache.
Context {C : Type}.

(** [sync_with]: the time is read before, and again behind the fetch. *)
Definition sync_with (force : bool) (now done_at : Z) (fetch : Op C (list PluginAttributes)) (cache : PluginAttrCache)
  : C → result unit string * PluginAttrCache * C := λ c,
  if negb force && (now <? pc_next_sync cache) then (Ok (), cache, c)
  else
    match fetch c with
    | (Ok attrs, c) => (Ok (), MkAttrCache (by_code attrs) (done_at + ATTR_SYNC_INTERVAL), c)
    | (Err e, c) => (Err e, cache, c)
    end.
Definition cache_values `{!HashOrder} (cache : PluginAttrCache) : list PluginAttributes :=
  snd <$> hash_visit (map_to_list (pc_attrs cache)).
Definition cache_keys `{!HashOrder} (cache : PluginAttrCache) : list string :=
  fst <$> hash_visit (map_to_list (pc_attrs cache)).
End cache.

(** ** The API of an instance *)

Definition DEFAULT_HEALTH_CACHE_EXPIRE : Z := 1000.
Record HealthCache := MkHealthCache { hc_health : bool; hc_expire : Z }.
(** [Instant::elapsed] is zero for a time to come. *)
Definition elapsed (now t : Z) : Z := Z.max 0 (now - t).
Definition set_health_cache (now : Z) (health : bool) : HealthCache := MkHealthCache health (now + DEFAULT_HEALTH_CACHE_EXPIRE).
Definition get_health_cache (now : Z) (cache : HealthCache) : option bool :=
  if 0 <=? elapsed now (hc_expire cache) then None else Some (hc_health cache).

Section instance_api.
Context {C : Type} `{!InstanceHttp C}.

Definition is_success_status (status : Z) : bool := (200 <=? status) && (status <? 300).
Definition instance_url (i : GatewayInstance) (path : string) : string :=
  "http://" +:+ gi_api_url i +:+ "/" +:+ trim_start_matches "/" path.
Definition instance_health_of (now done_at : Z) (i : GatewayInstance) (cache : HealthCache) : C → bool * HealthCache * C := λ c,
  match get_health_cache now cache with
  | Some health => (health, cache, c)
  | None =>
      let '(r, c) := http_get_status (instance_url i "/health") c in
      let health := match r with Ok status => is_success_status status | Err _ => false end in
      (health, set_health_cache done_at health, c)
  end.
Definition instance_schema (i : GatewayInstance) (plugin_code : string) : Op C (option Json) :=
  http_get_json ("http://" +:+ gi_api_url i +:+ "/plugin-schema?code=" +:+ plugin_code).
Definition instance_plugin_list (i : GatewayInstance) : Op C (list PluginAttributes) :=
  http_get_attributes ("http://" +:+ gi_api_url i +:+ "/plugin-list").
Definition push_event (i : GatewayInstance) (event : ListenEvent) : Op C unit :=
  do answer <- http_post_event ("http://" +:+ gi_api_url i +:+ "/control/push_event") event;
  if is_success_status answer.1 then op_ret ()
  else
    do message <- op_lift answer.2;
    op_lift (Err ("fail to transfer request, status: " +:+ z_string answer.1 +:+ ", message: " +:+ message)).

Context `{!Discovery C}.

(** [discovery.rs]. The times of the requests to the instances are given in their order. *)
Fixpoint healths_of (times : nat → Z) (ins : list GatewayInstance) (cache : HealthCache) (healths : gmap string bool)
  : C → gmap string bool * HealthCache * C := λ c,
  match ins with
  | [] => (healths, cache, c)
  | i :: ins =>
      let '(health, cache, c) := instance_health_of (times 0%nat) (times 1%nat) i cache c in
      healths_of (λ n, times (2 + n)%nat) ins cache (<[gi_id i := health]> healths) c
  end.
Definition instance_health (times : nat → Z) (cache : HealthCache) : C → result (gmap string bool) string * HealthCache * C := λ c,
  match instances c with
  | (Ok ins, c) => let '(healths, cache, c) := healths_of times ins cache ∅ c in (Ok healths, cache, c)
  | (Err e, c) => (Err e, cache, c)
  end.
Definition instance_list : Op C (list string) := do ins <- instances; op_ret (gi_id <$> ins).

(** The loop of the three handlers: the first instance with the identity gets the event. *)
Definition reload_with (instance : string) (config : ConfigType) : Op C unit :=
  do ins <- instances;
  match List.find (λ i, bool_decide (gi_id i = instance)) ins with
  | Some i => push_event i (MkListenEvent EvUpdate config)
  | None => op_lift (Err "instance not found")
  end.
Definition reload_gateway (instance gateway : string) : Op C unit := reload_with instance (CtGateway gateway).
Definition reload_global (instance : string) : Op C unit := reload_with instance CtGlobal.
Definition reload_route (instance gateway route : string) : Op C unit := reload_with instance (CtRoute gateway route).

(** ** Plugins: [plugin.rs] *)

Definition fetch_attributes : Op C (list PluginAttributes) :=
  do ins <- instances;
  match ins with
  | [] => op_lift (Err "spacegate instance not found")
  | remote :: _ => instance_plugin_list remote
  end.
Definition sync_attr_cache (refresh : bool) (now done_at : Z) : PluginAttrCache → C → result unit string * PluginAttrCache * C :=
  sync_with refresh now done_at fetch_attributes.
(** A list endpoint: the cache is refreshed, if it is time, then read. *)
Definition synced {A} (refresh : bool) (now done_at : Z) (read : PluginAttrCache → A) (cache : PluginAttrCache)
  : C → result A string * PluginAttrCache * C := λ c,
  let '(r, cache, c) := sync_attr_cache refresh now done_at cache c in (result_map (λ _, read cache) r, cache, c).
Context `{!HashOrder}.
Definition get_list (now done_at : Z) := synced false now done_at cache_keys.
Definition get_attr_all (now done_at : Z) := synced false now done_at cache_values.
Definition get_attr (plugin_code : string) (now done_at : Z) := synced false now done_at (λ cache, pc_attrs cache !! plugin_code).
Definition refresh_attr_cache (now done_at : Z) := synced true now done_at cache_values.

Definition get_schema_by_code (plugin_code : string) : Op C (option Json) :=
  do ins <- instances;
  match ins with
  | remote :: _ => instance_schema remote plugin_code
  | [] => op_ret None
  end.
End instance_api.

(** ** Schemas of WebAssembly plugins *)

Class SchemaLib := {
  json_schema_from_slice : string → result Json string;
  yaml_schema_from_slice : string → result Json string;
  oci_auth_from_value : Json → option WasmConfig.OciAuthConfig;
}.
Record WasmImageSchemaRequest := MkSchemaRequest {
  wr_image_url : string; wr_schema_path : option string; wr_oci_auth : option WasmConfig.OciAuthConfig }.

Section schema.
Context `{!SchemaLib} {C : Type} `{!WasmLoad.LoadLib C, !Retrieve C}.

Definition wasm_schema_request_from_plugin_config (config : PluginConfig Json) : option WasmImageSchemaRequest :=
  let spec := cfg_spec config in
  u ← opt_or (json_get "image_url" spec) (json_get "url" spec);
  u ← json_str u;
  let image_url := str_trim u in
  if str_is_empty image_url then None
  else Some (MkSchemaRequest image_url (json_str_field "schema_path" spec) (a ← json_get "oci_auth" spec; oci_auth_from_value a)).
Definition empty_schema : Json := JObject [].
Definition is_missing_schema_file_error (e : WasmAbi.WasmHostError) : bool :=
  match e with
  | WasmAbi.Fetch message =>
      str_contains message "does not contain `" || str_contains message "No such file or directory" ||
      str_contains message "404 Not Found" ||
      str_contains message "does not contain Docker/OCI tar layers; cannot read `"
  | _ => false
  end.
Definition parse_schema_bytes (bytes : string) : result Json string :=
  match json_schema_from_slice bytes with
  | Ok value => Ok value
  | Err json_err =>
      match yaml_schema_from_slice bytes with
      | Ok value => Ok value
      | Err yaml_err => Err ("schema file is not valid JSON or YAML: json=" +:+ json_err +:+ "; yaml=" +:+ yaml_err)
      end
  end.
Definition load_wasm_schema (req : WasmImageSchemaRequest) : Op C Json := λ c,
  let image_url := str_trim (wr_image_url req) in
  let schema_path := default "schema.json"
    (v ← str_trim <$> wr_schema_path req; if str_is_empty v then None else Some v) in
  match WasmLoad.fetch_wasm_image_file_sync_with_auth image_url schema_path (wr_oci_auth req) c with
  | (Ok bytes, c) => (parse_schema_bytes bytes, c)
  | (Err e, c) =>
      if is_missing_schema_file_error e then (Ok empty_schema, c) else (Err (WasmAbi.host_error_string e), c)
  end.
Definition get_wasm_config_schema (id : PluginInstanceId) : Op C Json :=
  do config <- retrieve_plugin id;
  match config ≫= wasm_schema_request_from_plugin_config with
  | Some req => load_wasm_schema req
  | None => op_ret empty_schema
  end.
End schema.

(** ** The cache is fresh *)

Record Sync := MkSync { sy_force : bool; sy_now : Z; sy_done : Z; sy_fetched : result (list PluginAttributes) string }.
(** A fetch with a given outcome *)
Definition fetched (s : Sync) : Op unit (list PluginAttributes) := λ c, (sy_fetched s, c).
Definition sync_step (cache : PluginAttrCache) (s : Sync) : result unit string * PluginAttrCache :=
  (sync_with (sy_force s) (sy_now s) (sy_done s) (fetched s) cache ()).1.
Definition syncs (start : Z) (l : list Sync) : PluginAttrCache := foldl (λ cache s, (sync_step cache s).2) (attr_cache_new start) l.

(** The calls follow each other: the lock is held during a call. *)
Fixpoint ordered (now : Z) (l : list Sync) : Prop :=
  match l with [] => True | s :: l => now ≤ sy_now s ∧ sy_now s ≤ sy_done s ∧ ordered (sy_done s) l end.
Definition last_time (now : Z) (l : list Sync) : Z := foldl (λ _ s, sy_done s) now l.

Lemma ordered_app now l l' : ordered now (l ++ l') ↔ ordered now l ∧ ordered (last_time now l) l'.
Proof. revert now. induction l as [|s l IH]; intros now; cbn; [tauto|]. rewrite IH. unfold last_time. cbn. tauto. Qed.
Lemma last_time_ge now l : ordered now l → now ≤ last_time now l ∧ ∀ s, s ∈ l → sy_done s ≤ last_time now l.
Proof.
  induction l as [|s l IH] using rev_ind; [split; [cbn; lia|by intros s Hs%elem_of_nil]|].
  intros [Ho (Hs & Hd & _)]%ordered_app. unfold last_time in *. rewrite foldl_snoc. destruct (IH Ho) as [H1 H2]. split; [lia|].
  intros s' [Hs'|Hs'%list_elem_of_singleton]%elem_of_app; [specialize (H2 s' Hs'); lia|by subst].
Qed.

(** The cache holds what some call fetched, or is as it was made. *)
Definition cache_of (start : Z) (l : list Sync) (cache : PluginAttrCache) : Prop :=
  cache = attr_cache_new start ∨
  ∃ s attrs, s ∈ l ∧ sy_fetched s = Ok attrs ∧ cache = MkAttrCache (by_code attrs) (sy_done s + ATTR_SYNC_INTERVAL).
Lemma syncs_cache start l : cache_of start l (syncs start l).
Proof.
  induction l as [|s l IH] using rev_ind; [by left|]. unfold syncs. rewrite foldl_snoc. fold (syncs start l).
  assert (∀ cache, cache_of start l cache → cache_of start (l ++ [s]) cache) as Hmono.
  { intros cache [->|(s' & attrs & Hs' & Hf & ->)]; [by left|]. right. exists s', attrs. split; [apply elem_of_app; by left|done]. }
  unfold sync_step, sync_with, fetched. destruct (_ && _); cbn; [by apply Hmono|].
  destruct (sy_fetched s) as [attrs|] eqn:E; cbn; [|by apply Hmono]. right. exists s, attrs.
  split; [apply elem_of_app; right; by left|done].
Qed.


Definition attr_of (code : string) : PluginAttributes := PluginRepo.MkAttributes PluginRepo.meta_default false code.

(** ** The cache of the health is never used *)

Lemma get_health_cache_None now cache : get_health_cache now cache = None.
Proof. unfold get_health_cache, elapsed. by rewrite (proj2 (Z.leb_le _ _)) by lia. Qed.

(** ** Reloading *)

Section reload.
Context {C : Type} `{!InstanceHttp C} `{!Discovery C}.

(** Who is told to reload: the first instance with the identity, and nobody else; without such an
    instance the handler fails. *)
Lemma reload_first instance config ins c c' :
  instances c = (Ok ins, c') →
  (∃ pre i post, ins = pre ++ i :: post ∧ gi_id i = instance ∧ Forall (λ j, gi_id j ≠ instance) pre ∧
     reload_with instance config c = push_event i (MkListenEvent EvUpdate config) c') ∨
  (Forall (λ j, gi_id j ≠ instance) ins ∧ reload_with instance config c = (Err "instance not found", c')).
Proof.
  intros Hi. unfold reload_with, op_bind. rewrite Hi. clear Hi. induction ins as [|i ins IH]; cbn; [by right|].
  case_bool_decide as Hd.
  - left. by exists [], i, ins.
  - destruct IH as [(pre & j & post & -> & Hj & Hpre & Hr)|[Hn Hr]].
    + left. exists (i :: pre), j, post. split_and!; [done|done|by constructor|done].
    + right. split; [by constructor|done].
Qed.
End reload.

(** All instances in a cluster have the name of their daemon set, so a reload reaches one of them. *)
Lemma k8s_instances_one_name {C} `{!KubeApi C} self (c : C) ins c' :
  k8s_instances self c = (Ok ins, c') → ∀ i j, i ∈ ins → j ∈ ins → inst_name i = inst_name j.
Proof.
  unfold k8s_instances, op_bind. destruct (api_get KdGatewayClass None _ c) as [[[gc|]|] c1]; [|done..].
  destruct (match str_split "." _ with [name; ns'] => _ | _ => _ end) as [ds_ns ds_name].
  destruct (api_get KdDaemonSet _ _ c1) as [[[ds|]|] c2]; [|done..]. destruct (api_list KdPod _ c2) as [[pods|] c3]; [|done].
  intros [= <- <-]. assert (∀ i, i ∈ omap (pod_instance ds) pods → inst_name i = name_any ds) as Hn.
  { intros i (p & _ & Hp)%list_elem_of_omap. unfold pod_instance in Hp. destruct (o_status p) as [st|]; [|done]. cbn in Hp.
    destruct (pod_host_ip st); [|done]. cbn in Hp. destruct (existsb _ _); [|done]. by injection Hp as <-. }
  intros i j Hi Hj. by rewrite (Hn i Hi), (Hn j Hj).
Qed.
