(* ===== verification/AxumServer.v ===== *)
(** * The global web server

    [crates/extension/axum/src/lib.rs]: the web server that the shell and its plugins share, with
    its address, router, cancellation token and task. A token is a number; the process is the set
    of cancelled tokens and the tasks that were spawned, each with what it serves and the token
    that ends it. Waiting for a task that no token ends does not return: [None].

    The [RwLock] around the server makes each operation atomic. The listener is the class
    [Listener]: whether an address can be bound. *)

From S2P Require Export Prelude.
Local Open Scope string_scope.
Local Open Scope list_scope.
Local Open Scope Z_scope.

Definition GLOBAL_SERVER_PORT : Z := 9876.
Definition GLOBAL_SERVER_HOST : string := "0.0.0.0".
Definition GLOBAL_SERVER_BIND : string * Z := (GLOBAL_SERVER_HOST, GLOBAL_SERVER_PORT).

Class Listener := can_bind : string * Z → bool.

Section server.
Context {R : Type} `{!Listener}.

Record AxumServerInner := MkAxum {
  ax_bind : string * Z;
  ax_router : R;
  ax_cancel_token : nat;
  ax_handle : option nat;
}.
(** A task of [axum::serve]: its listener, its router and its token *)
Record ServeTask := MkServe { st_bind : string * Z; st_router : R; st_token : nat }.
Record Process := MkProcess { pr_cancelled : gset nat; pr_tasks : list ServeTask }.
Definition process_empty : Process := MkProcess ∅ [].

(** A task serves until its token is cancelled. *)
Definition serving (t : ServeTask) (p : Process) : Prop := st_token t ∉ pr_cancelled p.

Definition server_default (router : R) (token : nat) : AxumServerInner := MkAxum GLOBAL_SERVER_BIND router token None.
Definition set_bind (b : string * Z) (s : AxumServerInner) : AxumServerInner := MkAxum b (ax_router s) (ax_cancel_token s) (ax_handle s).
Definition set_cancellation (token : nat) (s : AxumServerInner) : AxumServerInner := MkAxum (ax_bind s) (ax_router s) token (ax_handle s).
Definition modify_router (f : R → R) (s : AxumServerInner) : AxumServerInner :=
  MkAxum (ax_bind s) (f (ax_router s)) (ax_cancel_token s) (ax_handle s).

(** [handle.await]: the task ends once its token is cancelled. *)
Definition joined (task : nat) (p : Process) : option unit :=
  t ← pr_tasks p !! task; if decide (st_token t ∈ pr_cancelled p) then Some () else None.
Definition shutdown (s : AxumServerInner) (p : Process) : option (AxumServerInner * Process) :=
  match ax_handle s with
  | Some handle =>
      let s := MkAxum (ax_bind s) (ax_router s) (ax_cancel_token s) None in
      let p := MkProcess ({[ax_cancel_token s]} ∪ pr_cancelled p) (pr_tasks p) in
      _ ← joined handle p; Some (s, p)
  | None => Some (s, p)
  end.
Definition start (s : AxumServerInner) (p : Process) : option (bool * AxumServerInner * Process) :=
  '(s, p) ← shutdown s p;
  if can_bind (ax_bind s) then
    let task := MkServe (ax_bind s) (ax_router s) (ax_cancel_token s) in
    Some (true, MkAxum (ax_bind s) (ax_router s) (ax_cancel_token s) (Some (length (pr_tasks p))),
          MkProcess (pr_cancelled p) (pr_tasks p ++ [task]))
  else Some (false, s, p).

(** The task of a server *)
Definition task_of (s : AxumServerInner) (p : Process) : option ServeTask := ax_handle s ≫= λ h, pr_tasks p !! h.

(** ** What it does *)

(** A server that is not running serves its router at its address once it is started, until its
    token is cancelled; a change of the router or the address is not seen by the task. *)
Lemma started_serves s p :
  ax_handle s = None → can_bind (ax_bind s) = true →
  ∃ s' p' t, start s p = Some (true, s', p') ∧ task_of s' p' = Some t ∧
    st_bind t = ax_bind s ∧ st_router t = ax_router s ∧ st_token t = ax_cancel_token s ∧
    (serving t p' ↔ ax_cancel_token s ∉ pr_cancelled p) ∧
    ∀ f b, task_of (set_bind b (modify_router f s')) p' = Some t.
Proof.
  intros Hn Hb. unfold start, shutdown. rewrite Hn. cbn. rewrite Hb.
  eexists _, _, (MkServe (ax_bind s) (ax_router s) (ax_cancel_token s)). split; [done|].
  unfold task_of. cbn. rewrite lookup_app_r, Nat.sub_diag by done. done.
Qed.

(** A server that is started again, as the documentation of [start] allows, does not serve: the
    token that ended the old task ends the new one too. *)
Lemma restart_does_not_serve s p s' p' ok s'' p'' :
  ax_handle s = None → start s p = Some (true, s', p') → start s' p' = Some (ok, s'', p'') →
  match task_of s'' p'' with Some t => ¬ serving t p'' | None => ok = false end.
Proof.
  intros Hn. unfold start, shutdown. rewrite Hn. cbn. destruct (can_bind (ax_bind s)) eqn:Hb; [|done].
  intros [= <- <-]. cbn. unfold joined. cbn. rewrite lookup_app_r, Nat.sub_diag by done. cbn.
  rewrite decide_True by set_solver. cbn. rewrite Hb. intros [= <- <- <-]. unfold task_of. cbn.
  rewrite lookup_app_r, Nat.sub_diag by done. cbn. unfold serving. cbn. set_solver.
Qed.

(** If the token is replaced while a task runs, a shutdown waits for ever. *)
Lemma replaced_token_hangs s p t token :
  task_of s p = Some t → serving t p → token ≠ st_token t → shutdown (set_cancellation token s) p = None.
Proof.
  unfold task_of, shutdown, serving. cbn. destruct (ax_handle s) as [h|]; [|done]. cbn. intros Ht Hs Hne.
  unfold joined. cbn. rewrite Ht. cbn. by rewrite decide_False by set_solver.
Qed.
End server.
