(* ===== verification/Observability.v ===== *)
(** * Observability

    [kernel/src/observability.rs]: the fields that plugins add to the access log of a request, the
    labels and samples of the metrics, and the record of the access log; the handling of one
    request in [kernel/src/service.rs] ([HyperServiceAdapter::call]), which writes them; and in
    [shell/src/observability.rs] the settings from the environment and the providers that are built.

    The instruments of OpenTelemetry are not modelled, but what is added to them: a sample is an
    instrument, its attributes and a number. The telemetry and the access log of a request are
    shared by everyone who has the request, so a service gives back what they hold at its end. *)

From Stdlib Require Import SpecFloat.
From S2P Require Export Http Fmt Trim Config.
From S2P Require Import K8sConv RefHttp.
Local Open Scope string_scope.
Local Open Scope list_scope.
Local Open Scope Z_scope.

(** ** Telemetry fields *)

Definition MAX_TELEMETRY_KEY_LEN : Z := 128.
Definition MAX_TELEMETRY_VALUE_LEN : Z := 4096.
Inductive TelemetryError := EmptyKey | MissingNamespace | ReservedPrefix | InvalidKey | KeyTooLong | ValueTooLong.

Definition telemetry_char (a : ascii) : bool :=
  is_ascii_alphanumeric a || bool_decide (a ∈ ["."%char; "_"%char; "-"%char]).
Definition RESERVED_PREFIXES : list string := ["http."; "net."; "gateway."; "spacegate."; "otel."].
Definition validate_telemetry_key (key : string) : result unit TelemetryError :=
  if str_is_empty key then Err EmptyKey
  else if MAX_TELEMETRY_KEY_LEN <? str_len key then Err KeyTooLong
  else if negb (str_forallb telemetry_char key) then Err InvalidKey
  else if negb (str_contains_char "." key) then Err MissingNamespace
  else if existsb (starts_with key) RESERVED_PREFIXES then Err ReservedPrefix
  else Ok ().
Definition validate_telemetry_value (value : string) : result unit TelemetryError :=
  if MAX_TELEMETRY_VALUE_LEN <? str_len value then Err ValueTooLong else Ok ().

(** [TelemetryContext]: the fields by their keys *)
Definition TelemetryContext : Type := list (string * string).
Definition telemetry_insert (key value : string) (fields : TelemetryContext) : TelemetryContext := bt_insert key value fields.
Definition insert_checked (key value : string) (fields : TelemetryContext) : result unit TelemetryError * TelemetryContext :=
  match validate_telemetry_key key with
  | Err e => (Err e, fields)
  | Ok _ =>
      match validate_telemetry_value value with
      | Err e => (Err e, fields)
      | Ok _ => (Ok (), telemetry_insert key value fields)
      end
  end.
Definition insert_namespaced (namespace key value : string) : TelemetryContext → result unit TelemetryError * TelemetryContext :=
  insert_checked (namespace +:+ "." +:+ key) value.

(** [plugin/src/lib.rs]: what a plugin may add; a request without a context is left alone. *)
Definition set_telemetry_field (key value : string) (context : option TelemetryContext)
  : result unit TelemetryError * option TelemetryContext :=
  match context with
  | Some fields => let '(r, fields) := insert_checked key value fields in (r, Some fields)
  | None => (Ok (), None)
  end.
Definition set_plugin_telemetry_field (namespace key value : string) (context : option TelemetryContext)
  : result unit TelemetryError * option TelemetryContext :=
  match context with
  | Some fields => let '(r, fields) := insert_namespaced namespace key value fields in (r, Some fields)
  | None => (Ok (), None)
  end.

(** ** Labels *)

Inductive HttpErrorClass := ClassClient | ClassServer.
Definition is_client_error (status : Z) : bool := (400 <=? status) && (status <? 500).
Definition is_server_error (status : Z) : bool := (500 <=? status) && (status <? 600).
Definition status_error_class (status : Z) : option HttpErrorClass :=
  if is_client_error status then Some ClassClient else if is_server_error status then Some ClassServer else None.
Definition status_error_class_from_code (status_code : string) : option HttpErrorClass :=
  status ← parse_unsigned 16 status_code;
  if (100 <=? status) && (status <? 1000) then status_error_class status else None.

Definition http_protocol_version (version : Z) : string :=
  if decide (version = 10) then "1.0"
  else if decide (version = 11) then "1.1"
  else if decide (version = 20) then "2"
  else if decide (version = 30) then "3"
  else "unknown".

Record HttpMetricLabels := MkLabels {
  ml_gateway : string;
  ml_method : string;
  ml_status_code : string;
  ml_protocol_name : string;
  ml_protocol_version : string;
  ml_request_body_size : option Z;
  ml_response_body_size : option Z;
}.

Section headers.
Context `{HttpLib}.

Definition content_length (headers : HeaderMap) : option Z :=
  v ← hm_get headers "content-length"; v ← hv_to_str v; parse_unsigned 64 v.
Definition header_value (headers : HeaderMap) (name : string) : string :=
  default "" (v ← hm_get headers name; hv_to_str v).
Definition first_x_forwarded_for (headers : HeaderMap) : option string :=
  List.find not_empty (str_trim <$> str_split "," (header_value headers "x-forwarded-for")).
Definition client_ip (headers : HeaderMap) (peer_addr : IpAddr * Z) : string :=
  default (ip_string peer_addr.1) (first_x_forwarded_for headers).
Definition http_metric_labels (req : Request) (resp : Response) : HttpMetricLabels :=
  MkLabels (default "unknown" (ext_gateway_name (req_ext req))) (req_method req) (z_string (resp_status resp)) "http"
    (http_protocol_version (req_version req)) (content_length (req_headers req)) (content_length (resp_headers resp)).
End headers.

(** ** Samples *)

Definition Attributes : Type := list (string * string).
Inductive Sample :=
| Added (instrument : string) (n : Z) (attrs : Attributes)
| Recorded (instrument : string) (value : Z) (attrs : Attributes).

(** [record_http_server_metrics_with_labels]; durations are milliseconds. *)
Definition label_attrs (l : HttpMetricLabels) : Attributes :=
  [("gateway", ml_gateway l); ("http.request.method", ml_method l); ("http.response.status_code", ml_status_code l);
   ("network.protocol.name", ml_protocol_name l); ("network.protocol.version", ml_protocol_version l)].
Definition active_attrs (l : HttpMetricLabels) : Attributes :=
  [("gateway", ml_gateway l); ("http.request.method", ml_method l);
   ("network.protocol.name", ml_protocol_name l); ("network.protocol.version", ml_protocol_version l)].
Definition record_http_server_metrics_with_labels (l : HttpMetricLabels) (duration : Z) (is_error : bool) : list Sample :=
  let attrs := label_attrs l in
  [Added "http.server.requests" 1 attrs; Recorded "http.server.request.duration" duration attrs] ++
  match ml_request_body_size l with Some size => [Recorded "http.server.request.body.size" size attrs] | None => [] end ++
  match ml_response_body_size l with Some size => [Recorded "http.server.response.body.size" size attrs] | None => [] end ++
  (if is_error then [Added "http.server.errors" 1 attrs] else []) ++
  match status_error_class_from_code (ml_status_code l) with
  | Some ClassClient => [Added "http.server.errors.4xx" 1 attrs]
  | Some ClassServer => [Added "http.server.errors.5xx" 1 attrs]
  | None => []
  end.
Definition record_http_server_active_request (l : HttpMetricLabels) (delta : Z) : list Sample :=
  [Added "http.server.active_requests" delta (active_attrs l)].

(** ** The access log *)

Record AccessLogFields := MkAccessLogFields {
  af_gateway : string; af_method : string; af_path : string; af_host : string; af_client_ip : string;
  af_x_forwarded_for : string; af_user_agent : string; af_authority : string; af_downstream_remote_address : string;
  af_route_name : string; af_upstream_host : string; af_trace_id : string;
  af_protocol_name : string; af_protocol_version : string; af_status_code : Z; af_request_id : string; af_peer_addr : string;
  af_duration_ms : Z; af_request_body_size : option Z; af_response_body_size : option Z; af_telemetry : TelemetryContext;
}.

(** ** A request *)

Definition socket_addr_string (addr : IpAddr * Z) : string :=
  match addr.1 with
  | V4 _ => ip_string addr.1 +:+ ":" +:+ z_string addr.2
  | V6 _ => "[" +:+ ip_string addr.1 +:+ "]:" +:+ z_string addr.2
  end.

Section adapter.
Context `{HttpLib}.

(** What is left when a service has answered: the response, and what the shared contexts hold *)
Record Ended := MkEnded { en_response : Response; en_telemetry : TelemetryContext; en_access_log : AccessLogContext }.
Record HyperServiceAdapter := MkAdapter { ad_service : Request → option Ended; ad_peer : IpAddr * Z; ad_gateway_name : string }.

Definition request_host (req : Request) : string :=
  default "" (opt_or (uri_host (req_uri req)) (v ← hm_get (req_headers req) "host"; hv_to_str v)).
Definition active_labels (a : HyperServiceAdapter) (req : Request) : HttpMetricLabels :=
  MkLabels (ad_gateway_name a) (req_method req) "active" "http" (http_protocol_version (req_version req))
    (content_length (req_headers req)) None.
(** The request the service gets, its contexts empty *)
Definition adapted (a : HyperServiceAdapter) (req : Request) : Request :=
  Http.map_ext (λ e, ext_set_access_log (MkAccessLog "" "") (ext_set_peer_addr (ad_peer a) (ext_set_reflect (Some reflect_empty) e))) req.

(** What is recorded when the service has answered after a time *)
Definition call_labels (a : HyperServiceAdapter) (req : Request) (resp : Response) : HttpMetricLabels :=
  MkLabels (ad_gateway_name a) (req_method req) (z_string (resp_status resp)) "http" (http_protocol_version (req_version req))
    (content_length (req_headers req)) (content_length (resp_headers resp)).
Definition access_log_of (a : HyperServiceAdapter) (req : Request) (latency : Z) (trace_id : string) (e : Ended) : AccessLogFields :=
  let resp := en_response e in
  let host := request_host req in
  MkAccessLogFields (ad_gateway_name a) (req_method req) (uri_path (req_uri req)) host
    (client_ip (req_headers req) (ad_peer a)) (header_value (req_headers req) "x-forwarded-for")
    (header_value (req_headers req) "user-agent") host (socket_addr_string (ad_peer a))
    (default (al_route_name (en_access_log e)) (ext_route_name (resp_ext resp)))
    (default (al_upstream_host (en_access_log e)) (ext_backend_host (resp_ext resp)))
    trace_id "http" (http_protocol_version (req_version req)) (resp_status resp)
    (default (header_value (req_headers req) "x-request-id") (v ← hm_get (resp_headers resp) "x-request-id"; hv_to_str v))
    (socket_addr_string (ad_peer a)) latency (content_length (req_headers req)) (content_length (resp_headers resp))
    (en_telemetry e).

(** [HyperServiceAdapter::call]. [None] is a call that does not end: the service panics, or the
    connection is closed and the call is dropped. *)
Definition adapter_call (a : HyperServiceAdapter) (latency : Z) (trace_id : string) (req : Request)
  : option (Response * AccessLogFields) * list Sample :=
  let begun := record_http_server_active_request (active_labels a req) 1 in
  match ad_service a (adapted a req) with
  | Some e =>
      let status := resp_status (en_response e) in
      (Some (en_response e, access_log_of a req latency trace_id e),
       begun ++
       record_http_server_metrics_with_labels (call_labels a req (en_response e)) latency
         (is_server_error status || is_client_error status) ++
       record_http_server_active_request (active_labels a req) (-1))
  | None => (None, begun)
  end.
End adapter.

(** ** Settings from the environment: [shell/src/observability.rs] *)

Section settings.
Context `{KubeText}.

Definition config_with_env_overrides (config : ObservabilityConfig) (get_env : string → option string) : ObservabilityConfig :=
  let parsed {A} (key : string) (parse : string → option A) (old : A) : A := default old (v ← get_env key; parse v) in
  MkObservability
    (parsed "SPACEGATE_OTEL_ENABLED" parse_bool (ob_enabled config))
    (parsed "SPACEGATE_OTEL_SERVICE_NAME" Some (ob_service_name config))
    (parsed "SPACEGATE_OTEL_ENDPOINT" Some (ob_otlp_endpoint config))
    (parsed "SPACEGATE_OTEL_PROTOCOL" (λ v, result_ok (otlp_from_str v)) (ob_protocol config))
    (MkTraceConfig (parsed "SPACEGATE_OTEL_TRACES_ENABLED" parse_bool (tc_enabled (ob_traces config)))
       (parsed "SPACEGATE_OTEL_TRACES_SAMPLE_RATIO" f64_parse (tc_sample_ratio (ob_traces config))))
    (MkMetricConfig (parsed "SPACEGATE_OTEL_METRICS_ENABLED" parse_bool (mc_enabled (ob_metrics config)))
       (parsed "SPACEGATE_OTEL_METRICS_EXPORT_INTERVAL_MS" (parse_unsigned 64) (mc_export_interval_ms (ob_metrics config))))
    (MkLogConfig (parsed "SPACEGATE_OTEL_LOGS_ENABLED" parse_bool (lc_enabled (ob_logs config)))
       (parsed "SPACEGATE_OTEL_LOGS_LEVEL" Some (lc_level (ob_logs config)))).

(** [build_guard]: which providers there are. Whether an exporter can be built, and whether the
    subscriber can be installed, is not decided here. *)
Record ObservabilityGuard := MkGuard { og_tracer : bool; og_meter : bool; og_logger : bool }.
Record Exporters := MkExporters { ex_spans : bool; ex_metrics : bool; ex_logs : bool; ex_installed : result unit string }.
Definition guard_none : ObservabilityGuard := MkGuard false false false.
Definition build_guard (config : ObservabilityConfig) (ex : Exporters) : result ObservabilityGuard string :=
  let guard :=
    if negb (ob_enabled config) then guard_none
    else MkGuard (tc_enabled (ob_traces config) && ex_spans ex) (mc_enabled (ob_metrics config) && ex_metrics ex)
           (lc_enabled (ob_logs config) && ex_logs ex) in
  let? _ := ex_installed ex in Ok guard.
(** [init]: the first call decides for the process. *)
Definition observability_init (config : ObservabilityConfig) (get_env : string → option string) (ex : Exporters)
    (guard : option ObservabilityGuard) : ObservabilityGuard :=
  match guard with
  | Some guard => guard
  | None => default guard_none (result_ok (build_guard (config_with_env_overrides config get_env) ex))
  end.
End settings.

(** ** The fields of a request are well formed *)

Record telemetry_key_ok (key : string) : Prop := {
  tk_not_empty : key ≠ "";
  tk_length : str_len key ≤ MAX_TELEMETRY_KEY_LEN;
  tk_chars : str_forallb telemetry_char key = true;
  tk_namespace : ∃ namespace rest, key = namespace +:+ "." +:+ rest;
  tk_not_reserved : Forall (λ p, ¬ ∃ rest, key = p +:+ rest) RESERVED_PREFIXES;
}.
Definition telemetry_ok (fields : TelemetryContext) : Prop :=
  Forall (λ kv, telemetry_key_ok kv.1 ∧ str_len kv.2 ≤ MAX_TELEMETRY_VALUE_LEN) fields.

Lemma contains_char_split c s : str_contains_char c s = true ↔ ∃ p q, s = p +:+ String c q.
Proof.
  split.
  - intros Hc. destruct (str_split_once c s) as [[p q]|] eqn:E; [apply str_split_once_Some in E as [-> _]; eauto|].
    apply str_split_once_None in E. unfold no_char in E. congruence.
  - intros (p & q & ->). apply not_false_is_true. intros Hn. apply no_char_app in Hn as [_ Hn%no_char_cons]. by destruct Hn.
Qed.

Lemma validate_key_ok key : validate_telemetry_key key = Ok () ↔ telemetry_key_ok key.
Proof.
  unfold validate_telemetry_key. split.
  - destruct (str_is_empty key) eqn:E1; [done|]. destruct (_ <? _) eqn:E2; [done|]. destruct (str_forallb _ _) eqn:E3; [|done].
    destruct (str_contains_char _ _) eqn:E4; [|done]. destruct (existsb _ _) eqn:E5; [done|]. intros _. split.
    + intros ->. done.
    + lia.
    + done.
    + by apply contains_char_split.
    + apply Forall_forall. intros p Hp Hr. apply (starts_with_spec key p) in Hr.
      apply not_true_iff_false in E5. apply E5. apply existsb_Exists, Exists_exists. by exists p.
  - intros [H1 H2 H3 H4 H5]. destruct (str_is_empty key) eqn:E; [by apply str_is_empty_true in E|].
    rewrite (proj2 (Z.ltb_ge _ _)) by done. rewrite H3. apply contains_char_split in H4. rewrite H4. cbn [negb].
    destruct (existsb _ _) eqn:E5; [|done]. apply existsb_Exists, Exists_exists in E5 as (p & Hp & Hs).
    apply starts_with_spec in Hs. by eapply Forall_forall in Hp; [|exact H5].
Qed.
Lemma insert_checked_cases key value fields :
  telemetry_key_ok key ∧ str_len value ≤ MAX_TELEMETRY_VALUE_LEN ∧
    insert_checked key value fields = (Ok (), bt_insert key value fields) ∨
  ¬ (telemetry_key_ok key ∧ str_len value ≤ MAX_TELEMETRY_VALUE_LEN) ∧
    ∃ e, insert_checked key value fields = (Err e, fields).
Proof.
  unfold insert_checked, validate_telemetry_value. pose proof (validate_key_ok key) as Hk.
  destruct (validate_telemetry_key key) as [[]|e]; [|right; split; [intros [Hc _]; by apply Hk in Hc|by eexists]].
  apply proj1 in Hk. specialize (Hk eq_refl). destruct (_ <? _) eqn:E; [right|left].
  - split; [intros [_ Hv]; lia|by eexists].
  - split_and!; [done|lia|done].
Qed.

(** C24: the fields that plugins may add to a request's access log are well formed, after any calls
    of any plugins: each key has a namespace, is at most 128 bytes of letters, digits, dots,
    underscores and hyphens and is in none of the gateway's own namespaces, and each value is at
    most 4096 bytes. A call is accepted exactly if it keeps this, is then read back, and changes
    no other field; a call that is refused changes nothing. *)
Theorem telemetry_well_formed fields calls :
  telemetry_ok fields →
  let fields' := foldl (λ fs kv, (insert_checked kv.1 kv.2 fs).2) fields calls in
  telemetry_ok fields' ∧
  ∀ key value,
    let '(r, fields'') := insert_checked key value fields' in
    (r = Ok () ↔ telemetry_key_ok key ∧ str_len value ≤ MAX_TELEMETRY_VALUE_LEN) ∧
    (r = Ok () → bt_get key fields'' = Some value ∧ ∀ key', key ≠ key' → bt_get key' fields'' = bt_get key' fields') ∧
    (r ≠ Ok () → fields'' = fields').
Proof.
  intros Hok fields'. split.
  - subst fields'. revert fields Hok. induction calls as [|[k v] calls IH]; intros fields Hok; [done|]. cbn. apply IH.
    destruct (insert_checked_cases k v fields) as [(Hk & Hv & ->)|(_ & e & ->)]; [|done]. cbn.
    by apply (bt_insert_Forall (λ kv, telemetry_key_ok kv.1 ∧ str_len kv.2 ≤ MAX_TELEMETRY_VALUE_LEN)).
  - intros key value. destruct (insert_checked_cases key value fields') as [(Hk & Hv & ->)|(Hn & e & ->)].
    + split_and!; [done| |done]. intros _. split; [apply bt_get_insert_eq|]. intros key' Hne. by apply bt_get_insert_ne.
    + split_and!; [|done|done]. by split.
Qed.
Lemma telemetry_well_formed_witness :
  telemetry_ok (foldl (λ fs kv, (insert_checked kv.1 kv.2 fs).2) [] [("ai.tokens", "37"); ("http.status", "1")]) ∧
  bt_get "mcp.tool" (insert_checked "mcp.tool" "search"
    (foldl (λ fs kv, (insert_checked kv.1 kv.2 fs).2) [] [("ai.tokens", "37"); ("http.status", "1")])).2 = Some "search".
Proof.
  destruct (telemetry_well_formed [] [("ai.tokens", "37"); ("http.status", "1")]) as [Hok Hins]; [constructor|].
  split; [exact Hok|]. specialize (Hins "mcp.tool" "search"). destruct (insert_checked "mcp.tool" "search" _) as [r fs] eqn:E.
  apply Hins. vm_compute in E. by injection E as <- _.
Defined.

(** ** The samples add up *)

Definition sample_of (instrument : string) (q : Attributes → bool) (s : Sample) : Z :=
  match s with Added i n attrs => if decide (i = instrument) then if q attrs then n else 0 else 0 | Recorded _ _ _ => 0 end.
Definition total (instrument : string) (q : Attributes → bool) (log : list Sample) : Z :=
  foldr (λ s n, sample_of instrument q s + n) 0 log.
Lemma total_app i q l l' : total i q (l ++ l') = total i q l + total i q l'.
Proof. unfold total. induction l as [|s l IH]; [done|]. cbn [app foldr]. rewrite IH. lia. Qed.

Section totals.
Context `{HttpLib}.

Record Call := MkCall { ca_adapter : HyperServiceAdapter; ca_latency : Z; ca_trace : string; ca_request : Request }.
Definition call_result (c : Call) : option (Response * AccessLogFields) :=
  (adapter_call (ca_adapter c) (ca_latency c) (ca_trace c) (ca_request c)).1.
Definition samples (c : Call) : list Sample := (adapter_call (ca_adapter c) (ca_latency c) (ca_trace c) (ca_request c)).2.
Definition call_active (c : Call) : Attributes := active_attrs (active_labels (ca_adapter c) (ca_request c)).
(** Statuses have three digits. *)
Definition status_ok (c : Call) : Prop :=
  match call_result c with Some (resp, _) => 100 ≤ resp_status resp < 1000 | None => True end.
Definition count (f : Call → bool) (calls : list Call) : Z := Z.of_nat (length (List.filter f calls)).
Definition ended_with (f : Z → bool) (c : Call) : bool :=
  match call_result c with Some (resp, _) => f (resp_status resp) | None => false end.

Definition anything : Attributes → bool := λ _, true.

Lemma class_of_status status :
  100 ≤ status < 1000 → status_error_class_from_code (z_string status) = status_error_class status.
Proof.
  intros Hs. unfold status_error_class_from_code. rewrite parse_z_string by lia. cbn.
  by rewrite (proj2 (Z.leb_le _ _)), (proj2 (Z.ltb_lt _ _)) by lia.
Qed.

Lemma error_classes status : is_client_error status && is_server_error status = false.
Proof. unfold is_client_error, is_server_error. destruct (Z.ltb_spec status 500), (Z.leb_spec 500 status); lia. Qed.

Lemma call_totals c :
  status_ok c →
  (∀ attrs, total "http.server.active_requests" (λ x, bool_decide (x = attrs)) (samples c) =
     if bool_decide (call_result c = None) && bool_decide (call_active c = attrs) then 1 else 0) ∧
  total "http.server.requests" anything (samples c) = (if ended_with (λ _, true) c then 1 else 0) ∧
  total "http.server.errors.4xx" anything (samples c) = (if ended_with is_client_error c then 1 else 0) ∧
  total "http.server.errors.5xx" anything (samples c) = (if ended_with is_server_error c then 1 else 0) ∧
  total "http.server.errors" anything (samples c) = (if ended_with (λ s, is_client_error s || is_server_error s) c then 1 else 0).
Proof.
  unfold status_ok, samples, call_result, ended_with, call_result, call_active, adapter_call.
  destruct (ad_service _ _) as [e|]; cbn -[z_string status_error_class_from_code];
    [|intros _; split_and!; try done; intros attrs; by case_bool_decide].
  intros Hs. rewrite class_of_status by done. unfold status_error_class. pose proof (error_classes (resp_status (en_response e))) as Hc.
  destruct (is_client_error _), (is_server_error _); cbn in Hc; try done;
    destruct (content_length (req_headers _)), (content_length (resp_headers _)); cbn;
    split_and!; try done; intros attrs; by case_bool_decide.
Qed.

Lemma total_bind i q (f : Call → bool) calls :
  Forall (λ c, total i q (samples c) = if f c then 1 else 0) calls → total i q (calls ≫= samples) = count f calls.
Proof.
  unfold count. induction 1 as [|c calls Hc _ IH]; [done|]. rewrite bind_cons, total_app, Hc, IH. cbn [List.filter].
  destruct (f c); cbn [length]; lia.
Qed.

(** C25: the metrics of the gateway add up, for any calls of any services: the requests counted are
    those that were answered; the errors counted are those of clients plus those of servers; and
    the requests that are shown as active, for each gateway, method and protocol, are exactly the
    calls that did not end: those whose service panicked, or whose connection was closed while
    they ran, and these for ever. *)
Theorem metrics_add_up calls :
  Forall status_ok calls →
  let log := calls ≫= samples in
  (∀ attrs, total "http.server.active_requests" (λ x, bool_decide (x = attrs)) log =
     count (λ c, bool_decide (call_result c = None) && bool_decide (call_active c = attrs)) calls) ∧
  total "http.server.requests" anything log = count (ended_with (λ _, true)) calls ∧
  total "http.server.errors" anything log =
    total "http.server.errors.4xx" anything log + total "http.server.errors.5xx" anything log.
Proof.
  intros Ht log. eapply Forall_impl in Ht; [|exact call_totals]. split_and!.
  - intros attrs. apply total_bind. eapply Forall_impl; [exact Ht|]. intros c (Ha & _). apply Ha.
  - apply total_bind. eapply Forall_impl; [exact Ht|]. by intros c (_ & Ha & _).
  - unfold log. clear -Ht. induction Ht as [|c calls (_ & _ & H4 & H5 & He) _ IH]; [done|].
    rewrite bind_cons, !total_app, IH, H4, H5, He. unfold ended_with.
    destruct (call_result c) as [[resp ?]|]; [|done]. pose proof (error_classes (resp_status resp)) as Hc.
    destruct (is_client_error _), (is_server_error _); cbn in Hc |- *; try done; lia.
Qed.
End totals.

(** Two calls of a service that answers one path and panics on the others *)
Definition one_path : HyperServiceAdapter (H:=ref_http) :=
  MkAdapter (λ req, if decide (uri_path (req_uri req) = "/a") then Some (MkEnded (MkResp 404 [] ext_empty "") [] (MkAccessLog "r" "up")) else None)
    (V4 0, 80) "gw".
Definition get_path (path : string) : Request (H:=ref_http) := MkReq "GET" (MkUri None None (Some (MkPq path None))) 11 [] ext_empty "".
Definition two_calls : list (Call (H:=ref_http)) := (λ p, MkCall one_path 5 "" (get_path p)) <$> ["/a"; "/b"].
Lemma metrics_add_up_witness :
  let log := two_calls ≫= samples in
  total "http.server.active_requests" (λ x, bool_decide (x = active_attrs (active_labels one_path (get_path "/b")))) log = 1 ∧
  total "http.server.requests" anything log = 1 ∧
  total "http.server.errors" anything log =
    total "http.server.errors.4xx" anything log + total "http.server.errors.5xx" anything log.
Proof.
  destruct (metrics_add_up two_calls) as (Ha & Hr & He).
  { repeat constructor; done. }
  split_and!; [etransitivity; [apply Ha|]; by vm_compute|etransitivity; [exact Hr|]; by vm_compute|exact He].
Defined.

(** ** Settings *)

Lemma env_overrides_none `{KubeText} config : config_with_env_overrides config (λ _, None) = config.
Proof. by destruct config as [? ? ? ? [] [] []]. Qed.
(** The environment wins: reading it again changes nothing. *)
Lemma env_overrides_again `{KubeText} config env :
  config_with_env_overrides (config_with_env_overrides config env) env = config_with_env_overrides config env.
Proof.
  unfold config_with_env_overrides. cbn. f_equal; [..|f_equal|f_equal|f_equal];
    match goal with |- default _ ?o = _ => by destruct o end.
Qed.
(** Nothing is exported unless observability is on, wherever the setting comes from. *)
Lemma guard_off `{KubeText} config env ex :
  ob_enabled (config_with_env_overrides config env) = false → observability_init config env ex None = guard_none.
Proof. intros He. unfold observability_init, build_guard. rewrite He. by destruct (ex_installed ex). Qed.
