(* ===== verification/Traverse.v ===== *)
(** * Traversals

    The functions of [Config] that change the plugin references of a gateway, route, rule
    or backend share three laws, stated here as a class ([Traversal]) with an instance for
    each type: two passes in a row are one pass over the pairs of states ([tr_fuse]), a
    pass that returns each reference returns the whole ([tr_keep]), and a pass visits the
    references of the whole in the order of a list ([tr_visit]). What a client says of a
    pass then follows from what it says of a list. *)

From S2P Require Export Config.
Local Open Scope list_scope.

(** One step of a pass after the other. *)
Definition fuse {S U P Q T} (f : P → S → Q * S) (g : Q → U → T * U) (p : P) (st : S * U) : T * (S * U) :=
  let q := f p st.1 in let t := g q.1 st.2 in (t.1, (q.2, t.2)).
Arguments fuse : simpl never.
Lemma fuse_pair {S U P Q T} (f : P → S → Q * S) (g : Q → U → T * U) p s u :
  fuse f g p (s, u) = ((g (f p s).1 u).1, ((f p s).2, (g (f p s).1 u).2)).
Proof. done. Qed.

(** ** Lists *)

Section lists.
Context {S : Type}.

Lemma map_state_app {A B} (g : A → S → B * S) l1 l2 s :
  map_state g (l1 ++ l2) s =
  let '(ys, s) := map_state g l1 s in let '(zs, s) := map_state g l2 s in (ys ++ zs, s).
Proof.
  revert s. induction l1 as [|x l1 IH]; intros s; simpl; [by destruct (map_state g l2 s)|].
  destruct (g x s) as [y s1]. rewrite IH. destruct (map_state g l1 s1) as [ys s2].
  by destruct (map_state g l2 s2).
Qed.

Lemma map_state_state {A B} (g : A → S → B * S) x l s : (map_state g (x :: l) s).2 = (map_state g l (g x s).2).2.
Proof. simpl. destruct (g x s) as [y s1]. simpl. by destruct (map_state g l s1). Qed.

Lemma map_state_fuse {U A B C} (h : A → S * U → C * (S * U)) (f : A → S → B * S) (g : B → U → C * U) l s u :
  (∀ x s u, h x (s, u) = fuse f g x (s, u)) →
  map_state h l (s, u) = fuse (map_state f) (map_state g) l (s, u).
Proof.
  intros Hh. revert s u. induction l as [|x l IH]; intros s u; simpl; [done|].
  rewrite Hh, !fuse_pair. simpl. destruct (f x s) as [y s1]. simpl.
  destruct (g y u) as [z u1] eqn:Hg. rewrite IH, fuse_pair. destruct (map_state f l s1) as [ys s2]. simpl.
  rewrite Hg. by destruct (map_state g ys u1).
Qed.

Lemma map_state_keep {A} (h : A → S → A * S) l s :
  (∀ x s, (h x s).1 = x) → (map_state h l s).1 = l.
Proof.
  intros Hh. revert s. induction l as [|x l IH]; intros s; simpl; [done|].
  pose proof (Hh x s) as Hx. destruct (h x s) as [y s1]. simpl in Hx. subst.
  specialize (IH s1). destruct (map_state h l s1). simpl in *. by subst.
Qed.

Lemma keep_pair {A B} (p : A * B) x : p.1 = x → p = (x, p.2).
Proof. destruct p. simpl. by intros ->. Qed.

Lemma map_state_length {A B} (g : A → S → B * S) l s : length (map_state g l s).1 = length l.
Proof.
  revert s. induction l as [|x l IH]; intros s; simpl; [done|].
  destruct (g x s) as [y s1]. specialize (IH s1). destruct (map_state g l s1). simpl in *. by rewrite IH.
Qed.

(** Each element of a pass comes from its own. *)
Lemma map_state_Forall2 {A B} (R : A → B → Prop) (g : A → S → B * S) l s :
  (∀ x s, R x (g x s).1) → Forall2 R l (map_state g l s).1.
Proof.
  intros HR. revert s. induction l as [|x l IH]; intros s; simpl; [constructor|].
  pose proof (HR x s) as Hx. destruct (g x s) as [y s1]. specialize (IH s1).
  destruct (map_state g l s1). by constructor.
Qed.

(** A pass whose elements are passes over their own elements [el]. *)
Lemma map_state_visit {A B P Q} (elA : A → list P) (elB : B → list Q)
    (h : A → S → B * S) (f : P → S → Q * S) l s :
  (∀ x s, (elB (h x s).1, (h x s).2) = map_state f (elA x) s) →
  (l' ← (map_state h l s).1; elB l', (map_state h l s).2) = map_state f (l ≫= elA) s.
Proof.
  intros Hh. revert s. induction l as [|x l IH]; intros s; simpl; [done|].
  rewrite map_state_app, <- Hh. destruct (h x s) as [y s1]. simpl. rewrite <- IH.
  by destruct (map_state h l s1).
Qed.
End lists.

(** ** The laws *)

Class Traversal (F : Type → Type) (tm : ∀ S P T, (P → S → T * S) → F P → S → F T * S)
    (el : ∀ P, F P → list P) : Prop := {
  tr_fuse S U P Q T (f : P → S → Q * S) (g : Q → U → T * U) x s u :
    tm _ _ _ (fuse f g) x (s, u) = fuse (tm _ _ _ f) (tm _ _ _ g) x (s, u);
  tr_keep S P (f : P → S → P * S) x s : (∀ p s, (f p s).1 = p) → (tm _ _ _ f x s).1 = x;
  tr_visit S P T (f : P → S → T * S) x s :
    (el _ (tm _ _ _ f x s).1, (tm _ _ _ f x s).2) = map_state f (el _ x) s;
}.

(** The references of each type, in the order of a pass. *)
Definition rule_plugins {P} (r : SgHttpRouteRule P) : list P := sr_plugins r ++ (sr_backends r ≫= b_plugins).
Definition http_route_plugins {P} (r : SgHttpRoute P) : list P := hr_plugins r ++ (hr_rules r ≫= rule_plugins).
Definition mcp_route_plugins {P} (r : SgMcpRoute P) : list P := (mr_backends r ≫= b_plugins) ++ mr_plugins r.
Definition route_plugins {P} (r : SgRoute P) : list P :=
  match r with RouteMcp r => mcp_route_plugins r | RouteHttp r => http_route_plugins r end.
Definition item_plugins {P} (i : ConfigItem P) : list P :=
  g_plugins (ci_gateway i) ++ (ci_routes i ≫= λ kr, route_plugins kr.2).

(** The steps of the instances: name the pass over a part. *)
Ltac pass g l s := let y := fresh "y" in let t := fresh "t" in
  destruct (map_state g l s) as [y t]; simpl.

#[export] Instance list_traversal : Traversal list (λ S P T f l s, map_state f l s) (λ P l, l).
Proof.
  split.
  - intros. by apply map_state_fuse.
  - intros. by apply map_state_keep.
  - intros. by destruct (map_state f x s).
Qed.

#[export] Instance gateway_traversal : Traversal SgGateway (@gateway_map_plugins) (@g_plugins).
Proof.
  split; unfold gateway_map_plugins.
  - intros. rewrite (map_state_fuse _ f g), !fuse_pair by done. simpl.
    destruct (map_state f (g_plugins x) s) as [ps s1]. simpl. by destruct (map_state g ps u).
  - intros S P f [n p l ps] s Hf. simpl. by rewrite (keep_pair _ _ (map_state_keep f ps s Hf)).
  - intros S P T f [] s. simpl. by destruct (map_state f _ s).
Qed.

#[export] Instance backend_traversal : Traversal SgBackendRef (@backend_map_plugins) (@b_plugins).
Proof.
  split; unfold backend_map_plugins.
  - intros. rewrite (map_state_fuse _ f g), !fuse_pair by done. simpl.
    destruct (map_state f (b_plugins x) s) as [ps s1]. simpl. by destruct (map_state g ps u).
  - intros S P f [??????? ps] s Hf. simpl. by rewrite (keep_pair _ _ (map_state_keep f ps s Hf)).
  - intros S P T f [] s. simpl. by destruct (map_state f _ s).
Qed.

(** The laws of a list of parts, from those of its parts. *)
Section parts.
Context {F : Type → Type} {tm : ∀ S P T, (P → S → T * S) → F P → S → F T * S} {el : ∀ P, F P → list P}.
Context `{!Traversal F tm el}.

Lemma parts_fuse {S U P Q T} (f : P → S → Q * S) (g : Q → U → T * U) l s u :
  map_state (tm _ _ _ (fuse f g)) l (s, u) = fuse (map_state (tm _ _ _ f)) (map_state (tm _ _ _ g)) l (s, u).
Proof. apply map_state_fuse. intros. apply tr_fuse. Qed.
Lemma parts_keep {S P} (f : P → S → P * S) l s :
  (∀ p s, (f p s).1 = p) → (map_state (tm _ _ _ f) l s).1 = l.
Proof. intros Hf. apply map_state_keep. intros. by apply tr_keep. Qed.
Lemma parts_visit {S P T} (f : P → S → T * S) l s :
  ((map_state (tm _ _ _ f) l s).1 ≫= el _, (map_state (tm _ _ _ f) l s).2) = map_state f (l ≫= el _) s.
Proof. apply (map_state_visit (el P) (el T)). intros. apply tr_visit. Qed.
End parts.

#[export] Instance rule_traversal : Traversal SgHttpRouteRule (@rule_map_plugins) (@rule_plugins).
Proof.
  split; unfold rule_map_plugins.
  - intros. rewrite (map_state_fuse _ f g), !fuse_pair by done. simpl.
    rewrite (parts_fuse (F:=SgBackendRef) f g), fuse_pair. simpl.
    pass f (sr_plugins x) s. pass (backend_map_plugins f) (sr_backends x) t. pass g y u.
    by pass (backend_map_plugins g) y0 t1.
  - intros S P f [m ps bs ???] s Hf. simpl.
    rewrite (keep_pair _ _ (map_state_keep f ps s Hf)). by rewrite (keep_pair _ _ (parts_keep (F:=SgBackendRef) f bs _ Hf)).
  - intros. unfold rule_plugins. rewrite map_state_app. simpl.
    destruct (map_state f (sr_plugins x) s) as [ps s1]. simpl.
    rewrite <- (parts_visit (F:=SgBackendRef)).
    by pass (backend_map_plugins f) (sr_backends x) s1.
Qed.

#[export] Instance http_route_traversal : Traversal SgHttpRoute (@http_route_map_plugins) (@http_route_plugins).
Proof.
  split; unfold http_route_map_plugins.
  - intros. rewrite (map_state_fuse _ f g), !fuse_pair by done. simpl.
    rewrite (parts_fuse (F:=SgHttpRouteRule) f g), fuse_pair. simpl.
    pass f (hr_plugins x) s. pass (rule_map_plugins f) (hr_rules x) t. pass g y u.
    by pass (rule_map_plugins g) y0 t1.
  - intros S P f [?? ps rs ?] s Hf. simpl.
    rewrite (keep_pair _ _ (map_state_keep f ps s Hf)). by rewrite (keep_pair _ _ (parts_keep (F:=SgHttpRouteRule) f rs _ Hf)).
  - intros. unfold http_route_plugins. rewrite map_state_app. simpl.
    destruct (map_state f (hr_plugins x) s) as [ps s1]. simpl.
    rewrite <- (parts_visit (F:=SgHttpRouteRule)).
    by pass (rule_map_plugins f) (hr_rules x) s1.
Qed.

#[export] Instance mcp_route_traversal : Traversal SgMcpRoute (@mcp_route_map_plugins) (@mcp_route_plugins).
Proof.
  split; unfold mcp_route_map_plugins.
  - intros. rewrite (parts_fuse (F:=SgBackendRef) f g), !fuse_pair. simpl.
    rewrite (map_state_fuse _ f g), fuse_pair by done. simpl.
    pass (backend_map_plugins f) (mr_backends x) s. pass f (mr_plugins x) t.
    pass (backend_map_plugins g) y u. by pass g y0 t1.
  - intros S P f [????? bs ps ??] s Hf. simpl.
    rewrite (keep_pair _ _ (parts_keep (F:=SgBackendRef) f bs s Hf)). by rewrite (keep_pair _ _ (map_state_keep f ps _ Hf)).
  - intros. unfold mcp_route_plugins. rewrite map_state_app, <- (parts_visit (F:=SgBackendRef)).
    destruct (map_state (backend_map_plugins f) (mr_backends x) s) as [bs s1]. simpl.
    by pass f (mr_plugins x) s1.
Qed.

#[export] Instance route_traversal : Traversal SgRoute (@route_map_plugins) (@route_plugins).
Proof.
  split.
  - intros S U P Q T f g [r|r] s u; unfold route_map_plugins;
      [rewrite (tr_fuse (F:=SgMcpRoute))|rewrite (tr_fuse (F:=SgHttpRoute))]; rewrite !fuse_pair.
    + destruct (mcp_route_map_plugins f r s) as [r1 s1]. simpl. by destruct (mcp_route_map_plugins g r1 u).
    + destruct (http_route_map_plugins f r s) as [r1 s1]. simpl. by destruct (http_route_map_plugins g r1 u).
  - intros S P f [r|r] s Hf; unfold route_map_plugins.
    + by rewrite (keep_pair _ _ (tr_keep (F:=SgMcpRoute) _ _ f r s Hf)).
    + by rewrite (keep_pair _ _ (tr_keep (F:=SgHttpRoute) _ _ f r s Hf)).
  - intros S P T f [r|r] s; unfold route_map_plugins; simpl.
    + rewrite <- (tr_visit (F:=SgMcpRoute)). by destruct (mcp_route_map_plugins f r s).
    + rewrite <- (tr_visit (F:=SgHttpRoute)). by destruct (http_route_map_plugins f r s).
Qed.
