(* ===== verification/FsModel.v ===== *)
(** * The configuration as one document

    [crates/config/src/service/fs/model.rs]: the form of a configuration in which a plugin
    is written where it is used. An anonymous plugin is written at its use, with its
    configuration; the named ones and the single instances are listed apart. A document
    ([MainFileConfig]) becomes a configuration ([into_model_config]) by collecting the
    anonymous plugins into the instance map, and a configuration becomes a document
    ([main_file_config_from]) by moving each one to its use.

    The hasher of the standard library, whose function is unspecified, and the text of a
    JSON value are parameters. *)

From S2P Require Export Traverse Json.
From S2P Require Import Fmt.
Local Open Scope string_scope.
Local Open Scope list_scope.
Local Open Scope Z_scope.

(** [std::hash::DefaultHasher], and [Display for serde_json::Value]. *)
Class DocLib := {
  hasher : Type;
  hasher_new : hasher;
  hasher_write : string → hasher → hasher;
  hasher_finish : hasher → Z;
  json_display : Json → string;
}.

(** ** The data *)

Inductive FsAsmPluginConfig :=
| AsmAnon (uid code : string) (spec : Json) (priority : Z)
| AsmNamed (name code : string) (priority : Z)
| AsmMono (code : string) (priority : Z).

Inductive FsAsmPluginConfigMaybeUninitialized :=
| RawAnon (uid : option string) (code : string) (spec : Json) (priority : Z)
| RawNamed (name code : string) (priority : Z)
| RawMono (code : string) (priority : Z).

Record FsNamedPluginConfig := MkFsNamed { fn_name : string; fn_code : string; fn_spec : Json }.
Record FsMonoPluginConfig := MkFsMono { fm_code : string; fm_spec : Json }.
Record PluginConfigs := MkPluginConfigs { pc_named : list FsNamedPluginConfig; pc_mono : list FsMonoPluginConfig }.

Record MainFileConfigItem (P : Type) := MkMainItem { mi_gateway : SgGateway P; mi_routes : list (SgRoute P) }.
Arguments MkMainItem {P}.
Arguments mi_gateway {P}.
Arguments mi_routes {P}.

Record MainFileConfig (P : Type) := MkMain {
  mf_gateways : list (MainFileConfigItem P);
  mf_plugins : PluginConfigs;
  mf_api_port : Z;
  mf_observability : ObservabilityConfig;
}.
Arguments MkMain {P}.
Arguments mf_gateways {P}.
Arguments mf_plugins {P}.
Arguments mf_api_port {P}.
Arguments mf_observability {P}.

(** [Default for MainFileConfig] and for [MainFileConfigItem] *)
Definition main_default {P} : MainFileConfig P :=
  MkMain [] (MkPluginConfigs [] []) DEFAULT_API_PORT observability_default.
Definition main_item_default {P} : MainFileConfigItem P := MkMainItem gateway_default [].

(** ** The text of a plugin reference

    The derived implementations for an untagged enum: the fields of the variant, and the
    first variant whose fields are there, those unknown to it left aside. *)

(** An [i32] of a document, absent for its default. *)
Definition json_i32 (v : Json) : option Z :=
  match v with JNumber t => if decide (t = "-0") then None else parse_signed 32 t | _ => None end.
Arguments json_i32 : simpl never.
Definition json_priority (v : Json) : option Z :=
  match json_get "priority" v with Some p => json_i32 p | None => Some 0 end.

Definition asm_to_json (p : FsAsmPluginConfig) : Json :=
  JObject match p with
  | AsmAnon uid code spec priority =>
      [("uid", JString uid); ("code", JString code); ("spec", spec); ("priority", JNumber (z_string priority))]
  | AsmNamed name code priority =>
      [("name", JString name); ("code", JString code); ("priority", JNumber (z_string priority))]
  | AsmMono code priority => [("code", JString code); ("priority", JNumber (z_string priority))]
  end.

(** The two variants that both enums have. *)
Definition named_of_json {A} (mk : string → string → Z → A) (v : Json) : option A :=
  name ← json_str_field "name" v; code ← json_str_field "code" v; priority ← json_priority v;
  Some (mk name code priority).
Definition mono_of_json {A} (mk : string → Z → A) (v : Json) : option A :=
  code ← json_str_field "code" v; priority ← json_priority v; Some (mk code priority).
Definition or_else {A} (o o' : option A) : option A := match o with Some x => Some x | None => o' end.

Definition asm_of_json (v : Json) : option FsAsmPluginConfig :=
  or_else (uid ← json_str_field "uid" v; code ← json_str_field "code" v; spec ← json_get "spec" v;
           priority ← json_priority v; Some (AsmAnon uid code spec priority))
  (or_else (named_of_json AsmNamed v) (mono_of_json AsmMono v)).

(** An optional text: absent, or null for none. *)
Definition json_opt_str (k : string) (v : Json) : option (option string) :=
  match json_get k v with
  | None | Some JNull => Some None
  | Some (JString s) => Some (Some s)
  | Some _ => None
  end.
Definition raw_of_json (v : Json) : option FsAsmPluginConfigMaybeUninitialized :=
  or_else (uid ← json_opt_str "uid" v; code ← json_str_field "code" v; spec ← json_get "spec" v;
           priority ← json_priority v; Some (RawAnon uid code spec priority))
  (or_else (named_of_json RawNamed v) (mono_of_json RawMono v)).

(** ** Items *)

(** [From<ConfigItem> for MainFileConfigItem] and back *)
Definition main_item_from {P} (value : ConfigItem P) : MainFileConfigItem P :=
  MkMainItem (ci_gateway value) (snd <$> ci_routes value).
Definition config_item_from {P} (val : MainFileConfigItem P) : ConfigItem P :=
  MkItem (mi_gateway val) (bt_collect ((λ route, (sg_route_name route, route)) <$> mi_routes val)).

(** [MainFileConfigItem::map_plugins] *)
Definition main_item_map_plugins {S P T} (f : P → S → T * S) (i : MainFileConfigItem P) (s : S) :
    MainFileConfigItem T * S :=
  let '(g, s) := gateway_map_plugins f (mi_gateway i) s in
  let '(rs, s) := map_state (route_map_plugins f) (mi_routes i) s in
  (MkMainItem g rs, s).

(** ** [initialize_uid] *)

Section initialize.
Context `{DocLib}.

Definition set_uid (p : FsAsmPluginConfigMaybeUninitialized) (h : hasher) : FsAsmPluginConfig * hasher :=
  match p with
  | RawAnon (Some uid) code spec priority => (AsmAnon uid code spec priority, hasher_write uid h)
  | RawAnon None code spec priority =>
      let h := hasher_write (json_display spec) (hasher_write code h) in
      (AsmAnon (pad_zero 16 (hex_string (hasher_finish h))) code spec priority, h)
  | RawNamed name code priority => (AsmNamed name code priority, h)
  | RawMono code priority => (AsmMono code priority, h)
  end.

Definition initialize_uid (m : MainFileConfig FsAsmPluginConfigMaybeUninitialized) : MainFileConfig FsAsmPluginConfig :=
  MkMain (map_state (main_item_map_plugins set_uid) (mf_gateways m) hasher_new).1
    (mf_plugins m) (mf_api_port m) (mf_observability m).
End initialize.

(** ** From a document to a configuration *)

Definition insert_named (plugins : PluginInstanceMap Json) (named : FsNamedPluginConfig) : PluginInstanceMap Json :=
  <[MkPluginId (fn_code named) (Named (fn_name named)) := fn_spec named]> plugins.
Definition insert_mono (plugins : PluginInstanceMap Json) (mono : FsMonoPluginConfig) : PluginInstanceMap Json :=
  <[MkPluginId (fm_code mono) Mono := fm_spec mono]> plugins.

Definition collect_plugin (p : FsAsmPluginConfig) (plugins : PluginInstanceMap Json) :
    PluginBinding * PluginInstanceMap Json :=
  match p with
  | AsmAnon uid code spec priority =>
      let id := MkPluginId code (Anon uid) in (MkBinding id priority, <[id := spec]> plugins)
  | AsmNamed name code priority => (MkBinding (MkPluginId code (Named name)) priority, plugins)
  | AsmMono code priority => (MkBinding (MkPluginId code Mono) priority, plugins)
  end.

Definition into_item (item : MainFileConfigItem FsAsmPluginConfig) (plugins : PluginInstanceMap Json) :
    (string * ConfigItem PluginBinding) * PluginInstanceMap Json :=
  let '(i, plugins) := main_item_map_plugins collect_plugin item plugins in
  let config_item := config_item_from i in
  ((g_name (ci_gateway config_item), config_item), plugins).

Definition into_model_config (m : MainFileConfig FsAsmPluginConfig) : Config Json :=
  let plugins := foldl insert_named ∅ (pc_named (mf_plugins m)) in
  let plugins := foldl insert_mono plugins (pc_mono (mf_plugins m)) in
  let '(gateways, plugins) := map_state into_item (mf_gateways m) plugins in
  MkConfig (bt_collect gateways) plugins (Some (mf_api_port m)) (mf_observability m).

(** ** From a configuration to a document

    [entries] are the instance map's, in the order of the visit. *)

Definition sort_plugin (st : PluginConfigs * gmap string Json) (kv : PluginInstanceId * Json) :
    PluginConfigs * gmap string Json :=
  match id_name kv.1 with
  | Anon uid => (st.1, <[uid := kv.2]> st.2)
  | Named name => (MkPluginConfigs (pc_named st.1 ++ [MkFsNamed name (id_code kv.1) kv.2]) (pc_mono st.1), st.2)
  | Mono => (MkPluginConfigs (pc_named st.1) (pc_mono st.1 ++ [MkFsMono (id_code kv.1) kv.2]), st.2)
  end.

Definition write_plugin (binding : PluginBinding) (anon_plugins : gmap string Json) :
    FsAsmPluginConfig * gmap string Json :=
  let code := id_code (binding_id binding) in
  let priority := binding_priority binding in
  match id_name (binding_id binding) with
  | Anon uid =>
      match anon_plugins !! uid with
      | Some spec => (AsmAnon uid code spec priority, delete uid anon_plugins)
      | None => (AsmAnon uid code JNull priority, anon_plugins)
      end
  | Named name => (AsmNamed name code priority, anon_plugins)
  | Mono => (AsmMono code priority, anon_plugins)
  end.

Definition write_item (item : ConfigItem PluginBinding) (anon_plugins : gmap string Json) :
    MainFileConfigItem FsAsmPluginConfig * gmap string Json :=
  let '(i, anon_plugins) := item_map_plugins write_plugin item anon_plugins in
  (main_item_from i, anon_plugins).

Definition main_file_config_from (entries : list (PluginInstanceId * Json)) (value : Config Json) :
    MainFileConfig FsAsmPluginConfig :=
  let '(plugins, anon_plugins) := foldl sort_plugin (MkPluginConfigs [] [], ∅) entries in
  MkMain (map_state write_item (bt_values (c_gateways value)) anon_plugins).1 plugins
    (default DEFAULT_API_PORT (c_api_port value)) (c_observability value).

(** ** Lemmas on items *)

Definition main_item_plugins {P} (i : MainFileConfigItem P) : list P :=
  g_plugins (mi_gateway i) ++ (mi_routes i ≫= route_plugins).

#[export] Instance main_item_traversal : Traversal MainFileConfigItem (@main_item_map_plugins) (@main_item_plugins).
Proof.
  split; unfold main_item_map_plugins.
  - intros. rewrite (tr_fuse (F:=SgGateway) _ _ _ _ _ f g), !fuse_pair. simpl.
    rewrite (parts_fuse (F:=SgRoute) f g), fuse_pair. simpl.
    destruct (gateway_map_plugins f (mi_gateway x) s) as [y t]. simpl.
    pass (route_map_plugins f) (mi_routes x) t.
    destruct (gateway_map_plugins g y u) as [y' t']. simpl. by pass (route_map_plugins g) y0 t'.
  - intros S P f [gw rs] s Hf. simpl.
    rewrite (keep_pair _ _ (tr_keep (F:=SgGateway) _ _ f gw s Hf)).
    by rewrite (keep_pair _ _ (parts_keep (F:=SgRoute) f rs _ Hf)).
  - intros. unfold main_item_plugins. rewrite map_state_app, <- (tr_visit (F:=SgGateway)).
    destruct (gateway_map_plugins f (mi_gateway x) s) as [y t]. simpl.
    rewrite <- (parts_visit (F:=SgRoute)). by pass (route_map_plugins f) (mi_routes x) t.
Qed.

Lemma main_item_from_plugins {P} (i : ConfigItem P) : main_item_plugins (main_item_from i) = item_plugins i.
Proof. unfold main_item_plugins, item_plugins. simpl. by rewrite list_fmap_bind. Qed.

(** A pass over an item is a pass over its written form. *)
Lemma main_item_from_map {S P T} (f : P → S → T * S) (i : ConfigItem P) s :
  (let '(j, s') := item_map_plugins f i s in (main_item_from j, s')) =
  main_item_map_plugins f (main_item_from i) s.
Proof.
  unfold item_map_plugins, main_item_map_plugins. simpl.
  destruct (gateway_map_plugins f (ci_gateway i) s) as [g s1]. generalize s1. clear s s1. intros s.
  enough (∀ l : list (string * SgRoute P),
    (let '(rs, s') := map_state (λ kr s, let '(r, s) := route_map_plugins f kr.2 s in ((kr.1, r), s)) l s in
     (snd <$> rs, s')) = map_state (route_map_plugins f) (snd <$> l) s) as Hl.
  { specialize (Hl (ci_routes i)). rewrite <- Hl.
    by destruct (map_state (λ kr s, let '(r, s) := route_map_plugins f kr.2 s in ((kr.1, r), s)) (ci_routes i) s). }
  intros l. revert s. induction l as [|[k r] l IH]; intros s; simpl; [done|].
  destruct (route_map_plugins f r s) as [r' s1]. rewrite <- IH. by destruct (map_state _ l s1).
Qed.

(** Items whose routes are filed under their names, in order. *)
Definition item_filed {P} (i : ConfigItem P) : Prop :=
  bt_sorted (ci_routes i) ∧ Forall (λ kr, kr.1 = sg_route_name kr.2) (ci_routes i).

Lemma filed_again {A} (key : A → string) (m : list (string * A)) :
  bt_sorted m → Forall (λ kr, kr.1 = key kr.2) m →
  bt_collect ((λ x, (key x, x)) <$> (snd <$> m)) = m.
Proof.
  intros Hm Hk. rewrite <- list_fmap_compose.
  assert (((λ x, (key x, x)) ∘ snd) <$> m = m) as ->; [|by apply bt_rebuild].
  clear Hm. induction Hk as [|[k x] m Hx Hk IH]; [done|]. simpl in *.
  f_equal; [by rewrite <- Hx|apply IH].
Qed.

Lemma config_item_roundtrip {P} (i : ConfigItem P) : item_filed i → config_item_from (main_item_from i) = i.
Proof.
  intros [Hs Hk]. destruct i as [g rs]. unfold config_item_from, main_item_from. simpl in *. f_equal.
  by apply (filed_again sg_route_name).
Qed.

(** ** Lemmas on the passes *)

(** The steps of writing a reference and of collecting it again return the reference. *)
Lemma written_is_collected b anon plugins :
  (fuse write_plugin collect_plugin b (anon, plugins)).1 = b.
Proof.
  destruct b as [[code [uid|name|]] priority]; rewrite fuse_pair; unfold write_plugin; simpl; [|done..].
  by destruct (anon !! uid).
Qed.

Definition binding_uid (b : PluginBinding) : option string :=
  match id_name (binding_id b) with Anon uid => Some uid | _ => None end.
Definition bound_uids (bs : list PluginBinding) : list string := omap binding_uid bs.

Lemma omap_inj {A B} (f : A → option B) (l : list A) x y u :
  NoDup (omap f l) → x ∈ l → y ∈ l → f x = Some u → f y = Some u → x = y.
Proof.
  intros Hl Hx Hy Hfx Hfy. induction l as [|z l IH]; [by apply not_elem_of_nil in Hx|].
  assert (NoDup (omap f l)) as Hl'.
  { simpl in Hl. destruct (f z); [by apply NoDup_cons in Hl as [_ ?]|done]. }
  assert (∀ w, w ∈ l → f w = Some u → f z ≠ Some u) as Hno.
  { intros w Hw Hfw Hz. simpl in Hl. rewrite Hz in Hl. apply NoDup_cons in Hl as [Hn _].
    apply Hn, list_elem_of_omap. eauto. }
  apply elem_of_cons in Hx as [->|Hx]; apply elem_of_cons in Hy as [->|Hy]; [done| | |auto].
  all: exfalso; by eapply Hno.
Qed.

(** What the instance map holds after the passes over [bs]. *)
Lemma collected_lookup bs anon plugins id :
  NoDup (bound_uids bs) →
  (map_state (fuse write_plugin collect_plugin) bs (anon, plugins)).2.2 !! id =
  match id_name id with
  | Anon uid => if decide (id ∈ binding_id <$> bs) then Some (default JNull (anon !! uid)) else plugins !! id
  | _ => plugins !! id
  end.
Proof.
  revert anon plugins. induction bs as [|b bs IH]; intros anon plugins Hb.
  { by destruct (id_name id). }
  rewrite map_state_state, fuse_pair. unfold write_plugin.
  destruct b as [[code [uid|name|]] priority]; simpl in *.
  2,3: rewrite IH by done; destruct (id_name id) as [u| |] eqn:Hid; [|done..];
       apply decide_ext; rewrite elem_of_cons; split; [by right|]; intros [->|?]; done.
  apply NoDup_cons in Hb as [Hu Hbs].
  set (spec := default JNull (anon !! uid)).
  assert (∃ anon', (match anon !! uid with
    | Some spec => (AsmAnon uid code spec priority, delete uid anon)
    | None => (AsmAnon uid code JNull priority, anon) end) = (AsmAnon uid code spec priority, anon') ∧
    ∀ u, u ≠ uid → anon' !! u = anon !! u) as (anon'&->&Hanon).
  { subst spec. destruct (anon !! uid); eexists; (split; [done|]); intros u Hne; [|done]. by rewrite lookup_delete_ne. }
  simpl. rewrite IH by done. destruct (id_name id) as [u| |] eqn:Hid.
  2,3: apply lookup_insert_ne; intros <-; done.
  destruct (decide (u = uid)) as [->|Hne].
  - assert (id ∉ binding_id <$> bs) as Hid'.
    { intros (b&->&Hin)%list_elem_of_fmap. apply Hu. apply list_elem_of_omap. exists b. split; [done|].
      unfold binding_uid. by rewrite Hid. }
    rewrite decide_False by done. destruct id as [code' n]. simpl in Hid. subst n.
    destruct (decide (code' = code)) as [->|Hc].
    + by rewrite lookup_insert_eq, decide_True by set_solver.
    + rewrite lookup_insert_ne by congruence. rewrite decide_False; [done|].
      rewrite elem_of_cons. intros [?|?]; [congruence|done].
  - rewrite Hanon by done. rewrite lookup_insert_ne by (intros <-; simpl in Hid; congruence).
    apply decide_ext. rewrite elem_of_cons. split; [by right|]. intros [->|?]; [simpl in Hid; congruence|done].
Qed.

(** The lists and the anonymous plugins that a visit of the instance map gives. *)
Definition named_entry (kv : PluginInstanceId * Json) : option FsNamedPluginConfig :=
  match id_name kv.1 with Named name => Some (MkFsNamed name (id_code kv.1) kv.2) | _ => None end.
Definition mono_entry (kv : PluginInstanceId * Json) : option FsMonoPluginConfig :=
  match id_name kv.1 with Mono => Some (MkFsMono (id_code kv.1) kv.2) | _ => None end.
Definition anon_entry (kv : PluginInstanceId * Json) : option (string * Json) :=
  match id_name kv.1 with Anon uid => Some (uid, kv.2) | _ => None end.

Lemma sort_plugins entries :
  foldl sort_plugin (MkPluginConfigs [] [], ∅) entries =
  (MkPluginConfigs (omap named_entry entries) (omap mono_entry entries), collect (omap anon_entry entries)).
Proof.
  induction entries as [|kv entries IH] using rev_ind; [done|].
  rewrite foldl_app, IH, !omap_app. unfold sort_plugin, named_entry, mono_entry, anon_entry. simpl.
  destruct (id_name kv.1); simpl; rewrite ?app_nil_r; try done. by rewrite collect_snoc.
Qed.

(** A key whose entries all have one value has that value. *)
Lemma collect_lookup_unique `{Countable K} {V} (l : list (K * V)) k v :
  (k, v) ∈ l → (∀ v', (k, v') ∈ l → v' = v) → collect l !! k = Some v.
Proof.
  intros Hin Huniq. rewrite collect_reverse. apply elem_of_list_to_map_1'.
  - intros v' Hv'. symmetry. apply Huniq. by rewrite elem_of_reverse in Hv'.
  - by rewrite elem_of_reverse.
Qed.
Lemma collect_lookup_None `{Countable K} {V} (l : list (K * V)) k : k ∉ l.*1 → collect l !! k = None.
Proof.
  intros Hk. rewrite collect_reverse. apply not_elem_of_list_to_map_1.
  by rewrite fmap_reverse, elem_of_reverse.
Qed.

(** The instance map before the gateways are visited. *)
Definition listed (c : PluginConfigs) : list (PluginInstanceId * Json) :=
  ((λ n, (MkPluginId (fn_code n) (Named (fn_name n)), fn_spec n)) <$> pc_named c) ++
  ((λ m, (MkPluginId (fm_code m) Mono, fm_spec m)) <$> pc_mono c).

Lemma foldl_insert {A} (k : A → PluginInstanceId) (v : A → Json) l (m : PluginInstanceMap Json) :
  foldl (λ m x, <[k x := v x]> m) m l = foldl (λ m kv, <[kv.1 := kv.2]> m) m ((λ x, (k x, v x)) <$> l).
Proof. revert m. induction l as [|x l IH]; intros m; simpl; [done|]. apply IH. Qed.

Lemma listed_collected c :
  foldl insert_mono (foldl insert_named ∅ (pc_named c)) (pc_mono c) = collect (listed c).
Proof.
  unfold insert_mono, insert_named, collect, listed. rewrite foldl_app.
  by rewrite (foldl_insert (λ m, MkPluginId (fm_code m) Mono) fm_spec),
    (foldl_insert (λ n, MkPluginId (fn_code n) (Named (fn_name n))) fn_spec).
Qed.

Lemma listed_entries entries kv :
  kv ∈ listed (MkPluginConfigs (omap named_entry entries) (omap mono_entry entries)) ↔
  kv ∈ entries ∧ ∀ uid, id_name kv.1 ≠ Anon uid.
Proof.
  unfold listed. simpl. rewrite elem_of_app, !list_elem_of_fmap. setoid_rewrite list_elem_of_omap.
  unfold named_entry, mono_entry. destruct kv as [[code n] spec]. simpl. split.
  - intros [(x&?&([[code' n'] spec']&Hin&?))|(x&?&([[code' n'] spec']&Hin&?))]; simpl in *;
      destruct n'; simplify_eq/=; split; try done.
  - intros [Hin Hn]. destruct n as [uid|name|]; [by destruct (Hn uid)|left|right].
    + exists (MkFsNamed name code spec). split; [done|]. eexists. split; [exact Hin|done].
    + exists (MkFsMono code spec). split; [done|]. eexists. split; [exact Hin|done].
Qed.

(** The bindings of a configuration, in the order of a visit. *)
Definition config_bindings (c : Config Json) : list PluginBinding := bt_values (c_gateways c) ≫= item_plugins.

(** A configuration a document can say: gateways and routes filed under their names, a
    port, and each anonymous plugin used exactly once. *)
Record writable (c : Config Json) : Prop := {
  wr_sorted : bt_sorted (c_gateways c);
  wr_named : Forall (λ kv, kv.1 = g_name (ci_gateway kv.2) ∧ item_filed kv.2) (c_gateways c);
  wr_port : is_Some (c_api_port c);
  wr_once : NoDup (bound_uids (config_bindings c));
  wr_used id uid : id_name id = Anon uid →
    is_Some (c_plugins c !! id) ↔ id ∈ binding_id <$> config_bindings c;
}.

(** Two passes over the gateways: of the configuration into the document, and back. *)
Lemma items_written_collected (items : list (ConfigItem PluginBinding)) anon plugins :
  (let doc := (map_state write_item items anon).1 in map_state into_item doc plugins) =
  let '(js, st) := map_state (main_item_map_plugins (fuse write_plugin collect_plugin))
                     (main_item_from <$> items) (anon, plugins) in
  ((λ i, (g_name (mi_gateway i), config_item_from i)) <$> js, st.2).
Proof.
  revert anon plugins. induction items as [|i items IH]; intros anon plugins; simpl; [done|].
  unfold write_item at 1. pose proof (main_item_from_map write_plugin i anon) as Hi.
  destruct (item_map_plugins write_plugin i anon) as [j anon1].
  rewrite (tr_fuse (F:=MainFileConfigItem) _ _ _ _ _ write_plugin collect_plugin), fuse_pair, <- Hi. simpl.
  destruct (map_state write_item items anon1) as [doc anon2] eqn:Hdoc. simpl. unfold into_item at 1.
  destruct (main_item_map_plugins collect_plugin (main_item_from j) plugins) as [k plugins1]. simpl.
  specialize (IH anon1 plugins1). rewrite Hdoc in IH. simpl in IH. rewrite IH.
  change (list_fmap _ _ main_item_from items) with (main_item_from <$> items).
  by pass (main_item_map_plugins (fuse write_plugin collect_plugin)) (main_item_from <$> items) (anon1, plugins1).
Qed.

Lemma gateways_again (gs : list (string * ConfigItem PluginBinding)) :
  bt_sorted gs → Forall (λ kv, kv.1 = g_name (ci_gateway kv.2) ∧ item_filed kv.2) gs →
  bt_collect ((λ i, (g_name (mi_gateway i), config_item_from i)) <$> (main_item_from <$> bt_values gs)) = gs.
Proof.
  intros Hs Hgs. rewrite <- (filed_again (λ i, g_name (ci_gateway i)) gs) at 2; [|done|].
  2:{ eapply Forall_impl; [exact Hgs|]. by intros kv [? _]. }
  unfold bt_values. rewrite <- !list_fmap_compose. f_equal. apply list_fmap_ext. intros n [k i] Hi.
  apply list_elem_of_lookup_2 in Hi. rewrite Forall_forall in Hgs. destruct (Hgs _ Hi) as [_ Hf]. simpl.
  by rewrite config_item_roundtrip.
Qed.

Lemma listed_again entries (plugins : PluginInstanceMap Json) id :
  (∀ i v, (i, v) ∈ entries ↔ plugins !! i = Some v) → (∀ uid, id_name id ≠ Anon uid) →
  collect (listed (MkPluginConfigs (omap named_entry entries) (omap mono_entry entries))) !! id = plugins !! id.
Proof.
  intros Hin Hid. destruct (plugins !! id) as [v|] eqn:Hv.
  - apply collect_lookup_unique.
    + apply listed_entries. split; [by apply Hin|done].
    + intros v' [Hv' _]%listed_entries. apply Hin in Hv'. congruence.
  - apply collect_lookup_None. intros ([id' v]&->&[Hv' _]%listed_entries)%list_elem_of_fmap.
    apply Hin in Hv'. simpl in *. congruence.
Qed.

(** The instances that a document lists and those it collects are the configured ones. *)
Lemma instances_again c entries id :
  entries ≡ₚ map_to_list (c_plugins c) → writable c →
  (map_state (fuse write_plugin collect_plugin) (config_bindings c)
     (collect (omap anon_entry entries),
      collect (listed (MkPluginConfigs (omap named_entry entries) (omap mono_entry entries))))).2.2 !! id =
  c_plugins c !! id.
Proof.
  intros Hentries [_ _ _ Honce Hused].
  assert (∀ i v, (i, v) ∈ entries ↔ c_plugins c !! i = Some v) as Hin.
  { intros. by rewrite Hentries, elem_of_map_to_list. }
  rewrite collected_lookup by done.
  destruct (id_name id) as [uid| |] eqn:Hid.
  - pose proof (Hused id uid Hid) as Hu. case_decide as Hb.
    + apply Hu in Hb as [v Hv]. rewrite Hv. f_equal.
      rewrite (collect_lookup_unique _ _ v); [done| |].
      * apply list_elem_of_omap. exists (id, v). rewrite Hin. unfold anon_entry. simpl. by rewrite Hid.
      * intros v' ([id' v'']&Hv'&Ha)%list_elem_of_omap. rewrite Hin in Hv'. unfold anon_entry in Ha. simpl in Ha.
        destruct (id_name id') as [uid'| |] eqn:Hid'; simplify_eq.
        enough (id' = id) by congruence.
        assert (id ∈ binding_id <$> config_bindings c) as (b&->&Hb)%list_elem_of_fmap by (apply Hu; eauto).
        assert (id' ∈ binding_id <$> config_bindings c) as (b'&->&Hb')%list_elem_of_fmap
          by (apply (Hused id' uid Hid'); eauto).
        f_equal. apply (omap_inj binding_uid _ _ _ uid Honce); try done; unfold binding_uid; by rewrite ?Hid, ?Hid'.
    + rewrite collect_lookup_None. { symmetry. apply eq_None_not_Some. by rewrite Hu. }
      intros ([id' v]&->&Hv%listed_entries)%list_elem_of_fmap. by destruct Hv as [_ Hv]; apply (Hv uid).
  - apply listed_again; [done|]. intros uid. by rewrite Hid.
  - apply listed_again; [done|]. intros uid. by rewrite Hid.
Qed.


(** ** The text of a reference *)

Definition asm_priority (p : FsAsmPluginConfig) : Z :=
  match p with AsmAnon _ _ _ n | AsmNamed _ _ n | AsmMono _ n => n end.

Lemma json_i32_string n : in_signed 32 n → json_i32 (JNumber (z_string n)) = Some n.
Proof.
  intros Hn. unfold json_i32. rewrite parse_signed_z_string by done. rewrite decide_False; [done|].
  intros Hz. pose proof (parse_signed_z_string 32 n eq_refl Hn) as Hp. rewrite Hz in Hp. vm_compute in Hp.
  by simplify_eq.
Qed.

(** A reference is read back from its text. *)
Lemma asm_roundtrip p : in_signed 32 (asm_priority p) → asm_of_json (asm_to_json p) = Some p.
Proof.
  intros Hn. destruct p; simpl in Hn;
    unfold asm_of_json, named_of_json, mono_of_json, json_priority, asm_to_json, json_str_field; simpl;
    by rewrite json_i32_string by done.
Qed.

(** ** Lemmas on fresh identities *)

Section initialized.
Context `{DocLib}.

(** A reference with its identity: the written one if there is one. *)
Definition initialized (p : FsAsmPluginConfigMaybeUninitialized) (q : FsAsmPluginConfig) : Prop :=
  match p, q with
  | RawAnon uid code spec priority, AsmAnon uid' code' spec' priority' =>
      code' = code ∧ spec' = spec ∧ priority' = priority ∧ ∀ u, uid = Some u → uid' = u
  | RawNamed name code priority, AsmNamed name' code' priority' => name' = name ∧ code' = code ∧ priority' = priority
  | RawMono code priority, AsmMono code' priority' => code' = code ∧ priority' = priority
  | _, _ => False
  end.

Lemma set_uid_initialized p h : initialized p (set_uid p h).1.
Proof. destruct p as [[u|] ???|???|??]; simpl; split_and!; try done. by intros u' [= ->]. Qed.

(** Every reference of every gateway gets an identity and keeps the rest, at its place. *)
Lemma initialize_uid_references m :
  Forall2 (λ i j, Forall2 initialized (main_item_plugins i) (main_item_plugins j))
    (mf_gateways m) (mf_gateways (initialize_uid m)).
Proof.
  unfold initialize_uid. simpl. apply map_state_Forall2. intros i h.
  pose proof (f_equal fst (tr_visit (F:=MainFileConfigItem) _ _ _ set_uid i h)) as Hv. simpl in Hv. rewrite Hv.
  apply map_state_Forall2. intros. apply set_uid_initialized.
Qed.
End initialized.

(** ** Examples *)

Definition ex_anon : PluginInstanceId := MkPluginId "jwt" (Anon "1").
Definition ex_named : PluginInstanceId := MkPluginId "limit" (Named "slow").
Definition ex_document_gateway (bindings : list PluginBinding) : ConfigItem PluginBinding :=
  MkItem (MkSgGateway "gw" parameters_default [] bindings)
    [("a", RouteHttp (MkSgHttpRoute "a" None [MkBinding ex_named (-3)] [] 1))].
Definition ex_document (bindings : list PluginBinding) : Config Json :=
  MkConfig [("gw", ex_document_gateway bindings)]
    {[ ex_anon := JString "secret"; ex_named := JBool true ]} (Some 9876) observability_default.


(** An anonymous plugin that is used twice is written with its configuration at its first
    use and with none at its second, and the second is what reading keeps. *)
Example shared_plugin_loses_spec :
  let c := ex_document [MkBinding ex_anon 7; MkBinding ex_anon 7] in
  c_plugins (into_model_config (main_file_config_from (map_to_list (c_plugins c)) c)) !! ex_anon = Some JNull.
Proof. by vm_compute. Qed.

(** An anonymous plugin that is not used is not written. *)
Example unused_plugin_lost :
  let c := ex_document [] in
  c_plugins (into_model_config (main_file_config_from (map_to_list (c_plugins c)) c)) !! ex_anon = None.
Proof. by vm_compute. Qed.

(** A reference with an identity and no configuration is read as a single instance. *)
Example anon_without_spec :
  asm_of_json (JObject [("kind", JString "anon"); ("code", JString "jwt"); ("uid", JString "1")]) =
  Some (AsmMono "jwt" 0).
Proof. by vm_compute. Qed.
