(* ===== verification/SlidingWindow.v ===== *)
(** * Counting in a sliding window

    [crates/plugin/src/plugins/status/sliding_window.rs], of the plugin [status], which
    the build leaves out: how many errors there were in the last [window_size]. In memory
    the window is a ring of slots, each with the time it begins and a count; in Redis it
    is a sorted set of the times, kept by a script.

    A time is the number of nanoseconds since the epoch, and a duration a number of
    nanoseconds. [None] is a panic; a count is a natural number, for no slot is counted
    [2 ^ 64] times. *)

From S2P Require Export Prelude.
Local Open Scope Z_scope.

(** [chrono::Duration] *)
Definition milliseconds (n : Z) : Z := n * 1000000.
Definition num_milliseconds (d : Z) : Z := d `quot` 1000000.
(** The cast [as usize]. *)
Definition as_usize (n : Z) : Z := n `mod` 2 ^ 64.

Record Slot := MkSlot { slot_time : Z; slot_count : nat }.

Record SlidingWindowCounter := MkSliding {
  sw_window_size : Z;
  sw_data : list Slot;
  sw_slot_num : nat;
  sw_interval : Z;
  sw_start_slot : nat;
}.

Definition set_ring (data : list Slot) (start_slot : nat) (sw : SlidingWindowCounter) : SlidingWindowCounter :=
  MkSliding (sw_window_size sw) data (sw_slot_num sw) (sw_interval sw) start_slot.

(** The loop of [init] and of [init_part]: [len] slots, at [index], from [time] on. *)
Definition fill (interval : Z) (index : nat → nat) (len : nat) (time : Z) (data : list Slot) : list Slot :=
  (foldl (λ st i, (<[index i := MkSlot st.2 0]> st.1, st.2 + milliseconds interval)) (data, time) (seq 0 len)).1.

Definition sw_init (now : Z) (sw : SlidingWindowCounter) : SlidingWindowCounter :=
  set_ring (fill (sw_interval sw) (λ i, i) (sw_slot_num sw) now (sw_data sw)) 0 sw.

Definition sw_new (window_size : Z) (slot_num : nat) (now : Z) : option SlidingWindowCounter :=
  if decide (slot_num = 0%nat) then None
  else
    let interval := num_milliseconds window_size `quot` Z.of_nat slot_num in
    Some (sw_init now (MkSliding window_size (replicate slot_num (MkSlot 0 0)) slot_num interval 0)).

Definition init_part (move_index : Z) (sw : SlidingWindowCounter) : option (result SlidingWindowCounter string) :=
  if Z.of_nat (sw_slot_num sw) <? as_usize move_index then Some (Err "move index out of range"%string)
  else
    let len := Z.to_nat (as_usize move_index) in
    let last_slot_index := ((sw_start_slot sw + sw_slot_num sw - 1) `mod` sw_slot_num sw)%nat in
    last ← sw_data sw !! last_slot_index;
    let data := fill (sw_interval sw) (λ i, (i + sw_start_slot sw) `mod` sw_slot_num sw)%nat len
                  (slot_time last + milliseconds (sw_interval sw)) (sw_data sw) in
    Some (Ok (set_ring data ((len + sw_start_slot sw) `mod` sw_slot_num sw)%nat sw)).

(** The first step of [add_one]: the ring is moved so that [now] is in it. *)
Definition slide (now : Z) (sw : SlidingWindowCounter) : option SlidingWindowCounter :=
  start_slot ← sw_data sw !! sw_start_slot sw;
  let start_slot_time := slot_time start_slot in
  if start_slot_time + sw_window_size sw <=? now then
    if start_slot_time + sw_window_size sw * 2 <=? now then Some (sw_init now sw)
    else if decide (sw_interval sw = 0) then None
    else
      let move_index :=
        num_milliseconds (now - start_slot_time - sw_window_size sw) `quot` sw_interval sw + 1 in
      moved ← init_part move_index sw;
      match moved with Ok sw => Some sw | Err _ => None end
  else Some sw.

Definition add_one (now : Z) (sw : SlidingWindowCounter) : option SlidingWindowCounter :=
  sw ← slide now sw;
  start_slot ← sw_data sw !! sw_start_slot sw;
  if decide (sw_interval sw = 0) then None
  else
    let slot_index := num_milliseconds (now - slot_time start_slot) `quot` sw_interval sw in
    let add_slot_index := Z.to_nat (as_usize (as_usize slot_index + Z.of_nat (sw_start_slot sw)) `mod` Z.of_nat (sw_slot_num sw)) in
    slot ← sw_data sw !! add_slot_index;
    Some (set_ring (<[add_slot_index := MkSlot (slot_time slot) (S (slot_count slot))]> (sw_data sw))
            (sw_start_slot sw) sw).

Definition count_in_window (now : Z) (sw : SlidingWindowCounter) : nat :=
  sum_list_with (λ slot, if now - sw_window_size sw <=? slot_time slot then slot_count slot else 0%nat) (sw_data sw).

Definition add_and_count (now : Z) (sw : SlidingWindowCounter) : option (nat * SlidingWindowCounter) :=
  let result := count_in_window now sw in
  sw ← add_one now sw; Some (result, sw).

(** The errors at [times], one after the other. *)
Definition count_all (times : list Z) (sw : SlidingWindowCounter) : option SlidingWindowCounter :=
  foldl (λ sw now, sw ← sw; snd <$> add_and_count now sw) (Some sw) times.

(** The examples of the source's test. *)
Definition at_ms (n : Z) : Z := milliseconds n.
Example source_test :
  let data sw i := slot_count <$> sw_data sw !! i in
  (sw ← sw_new (milliseconds 60000) 12 0;
   sw ← add_one (at_ms 1100) sw; sw ← add_one (at_ms 1200) sw; sw ← add_one (at_ms 1300) sw;
   sw ← add_one (at_ms 59100) sw; sw ← add_one (at_ms 59200) sw; sw ← add_one (at_ms 59300) sw;
   let c := (data sw 0%nat, data sw 11%nat, count_in_window (at_ms 60000) sw, count_in_window (at_ms 120000) sw) in
   sw ← add_one (at_ms 60100) sw; sw ← add_one (at_ms 60200) sw; sw ← add_one (at_ms 60300) sw;
   Some (c, data sw 0%nat, sw_start_slot sw, count_in_window (at_ms 120000) sw)) =
  Some ((Some 3, Some 3, 6, 0), Some 3, 1, 3)%nat.
Proof. by vm_compute. Qed.

(** ** Lemmas on rings *)

Lemma fill_S interval index len time data :
  fill interval index (S len) time data =
  <[index len := MkSlot (time + Z.of_nat len * milliseconds interval) 0]> (fill interval index len time data).
Proof.
  unfold fill. rewrite seq_S, foldl_app. simpl. do 2 f_equal.
  induction len as [|len IH]; [simpl; lia|]. rewrite seq_S, foldl_app. simpl. rewrite IH. lia.
Qed.

Lemma length_fill interval index len time data : length (fill interval index len time data) = length data.
Proof. induction len as [|len IH]; [done|]. by rewrite fill_S, length_insert. Qed.

(** A position of the ring, as the source computes it. *)
Lemma ring_index (i start n : nat) : ((i + start) `mod` n)%nat = rotate_nat_add start i n.
Proof. unfold rotate_nat_add. by rewrite <- Nat2Z.inj_add, <- Nat2Z.inj_mod, Nat2Z.id, (Nat.add_comm i start). Qed.

(** A fill, in the order of the ring: its first slots are the new ones. *)
Lemma fill_ring interval len time (data : list Slot) start n :
  length data = n → (len ≤ n)%nat →
  rotate start (fill interval (λ i, (i + start) `mod` n)%nat len time data) =
  ((λ i, MkSlot (time + Z.of_nat i * milliseconds interval) 0) <$> seq 0 len) ++ drop len (rotate start data).
Proof.
  intros <-. induction len as [|len IH]; intros Hlen; [done|].
  rewrite fill_S, ring_index, <- (length_fill interval (λ i, (i + start) `mod` length data)%nat len time data) at 1.
  rewrite rotate_insert_l by (rewrite length_fill; lia). rewrite IH by lia. rewrite seq_S, fmap_app, <- app_assoc.
  rewrite insert_app_r_alt by (rewrite length_fmap, length_seq; done).
  rewrite length_fmap, length_seq, Nat.sub_diag. f_equal.
  destruct (rotate start data !! len) as [x|] eqn:Hx.
  - by rewrite (drop_S _ x) by done.
  - apply lookup_ge_None in Hx. rewrite length_rotate in Hx. lia.
Qed.

(** Moving the start of the ring by [m]. *)
Lemma ring_moved {A} m start (l : list A) :
  (m ≤ length l)%nat → (start < length l)%nat →
  rotate ((m + start) `mod` length l) l = drop m (rotate start l) ++ take m (rotate start l).
Proof.
  intros Hm Hs. apply list_eq. intros i. destruct (decide (i < length l)%nat) as [Hi|Hi].
  2:{ rewrite !lookup_ge_None_2; [done| |]; rewrite ?length_app, ?length_drop, ?length_take, ?length_rotate; lia. }
  rewrite lookup_rotate_r by done. rewrite <- rotate_nat_add_add_mod.
  destruct (decide (i < length l - m)%nat).
  - rewrite lookup_app_l by (rewrite length_drop, length_rotate; lia). rewrite lookup_drop.
    rewrite lookup_rotate_r by lia. f_equal. unfold rotate_nat_add. do 2 f_equal. lia.
  - rewrite lookup_app_r by (rewrite length_drop, length_rotate; lia).
    rewrite length_drop, length_rotate, lookup_take_lt by lia.
    rewrite lookup_rotate_r by lia. f_equal. unfold rotate_nat_add. f_equal.
    replace (Z.of_nat (m + start) + Z.of_nat i) with (Z.of_nat start + Z.of_nat (i - (length l - m)) + 1 * Z.of_nat (length l)) by lia.
    by rewrite Z.mod_add by lia.
Qed.

(** ** Counting *)

(** The errors from a time on, and those in an interval. *)
Definition since (from : Z) (times : list Z) : nat := length (filter (λ t, from ≤ t) times).
Definition hits (from to : Z) (times : list Z) : nat := length (filter (λ t, from ≤ t < to) times).

Lemma since_cons from t times : since from (t :: times) = ((if decide (from ≤ t)%Z then 1 else 0) + since from times)%nat.
Proof. unfold since. rewrite filter_cons. by case_decide. Qed.
Lemma hits_cons from to t times :
  hits from to (t :: times) = ((if decide (from ≤ t < to)%Z then 1 else 0) + hits from to times)%nat.
Proof. unfold hits. rewrite filter_cons. by case_decide. Qed.
Lemma hits_snoc from to t times :
  hits from to (times ++ [t]) = (hits from to times + if decide (from ≤ t < to)%Z then 1 else 0)%nat.
Proof. unfold hits. rewrite filter_app, length_app, filter_cons, filter_nil. by case_decide. Qed.
Lemma hits_none from to times : (∀ t, t ∈ times → t < from) → hits from to times = 0%nat.
Proof.
  intros Ht. induction times as [|t times IH]; [done|]. rewrite hits_cons, IH by (intros; apply Ht; by right).
  rewrite decide_False; [done|]. specialize (Ht t (list_elem_of_here _ _)). lia.
Qed.

Section window.
Context (T I lo : Z) (HI : 0 < I).

(** What one error contributes to the slots that the window takes in. *)
Definition contribution (t : Z) (i : nat) : nat :=
  if decide (lo ≤ T + Z.of_nat i * I) then
    if decide (T + Z.of_nat i * I ≤ t < T + Z.of_nat i * I + I) then 1%nat else 0%nat
  else 0%nat.

Lemma contribution_sum t n :
  sum_list_with (contribution t) (seq 0 n) =
  if decide (T ≤ t < T + Z.of_nat n * I ∧ lo ≤ T + (t - T) `div` I * I) then 1%nat else 0%nat.
Proof.
  induction n as [|n IH]; [simpl; rewrite decide_False; [done|lia]|].
  rewrite seq_S, sum_list_with_app, IH. simpl. unfold contribution at 1.
  pose proof (Z.div_mod (t - T) I ltac:(lia)) as Hq. pose proof (Z.mod_pos_bound (t - T) I HI) as Hr.
  set (q := (t - T) `div` I) in *. set (r := (t - T) `mod` I) in *.
  destruct (decide (T + Z.of_nat n * I ≤ t < T + Z.of_nat n * I + I)) as [Hin|Hin].
  - assert (q = Z.of_nat n) as Hqn by nia. rewrite Hqn in *.
    repeat case_decide; try done; try lia; exfalso; intuition nia.
  - repeat case_decide; try done; try lia; exfalso; intuition nia.
Qed.

(** The slots of the window: at most the errors since it began, and at least those since
    one slot later. *)
Definition window_sum (n : nat) (times : list Z) : nat :=
  sum_list_with (λ i, if decide (lo ≤ T + Z.of_nat i * I) then
    hits (T + Z.of_nat i * I) (T + Z.of_nat i * I + I) times else 0%nat) (seq 0 n).

Lemma window_sum_cons n t times :
  window_sum n (t :: times) = (sum_list_with (contribution t) (seq 0 n) + window_sum n times)%nat.
Proof.
  unfold window_sum. induction (seq 0 n) as [|i l IH]; [done|]. simpl. rewrite IH.
  generalize (sum_list_with (contribution t) l). intros s. unfold contribution. rewrite hits_cons.
  repeat case_decide; lia.
Qed.

Lemma window_sum_bounds n times :
  (∀ t, t ∈ times → lo + I ≤ t → T ≤ t < T + Z.of_nat n * I) →
  (since (lo + I) times ≤ window_sum n times ≤ since lo times)%nat.
Proof.
  induction times as [|t times IH]; intros Ht.
  { unfold window_sum. induction (seq 0 n) as [|i l IH]; simpl; [done|]. unfold hits at 1 3. simpl. by case_decide. }
  specialize (IH (λ t' Ht', Ht t' (list_elem_of_further _ _ _ Ht'))).
  specialize (Ht t (list_elem_of_here _ _)).
  rewrite window_sum_cons, !since_cons, contribution_sum.
  pose proof (Z.div_mod (t - T) I ltac:(lia)) as Hq. pose proof (Z.mod_pos_bound (t - T) I HI) as Hr.
  repeat case_decide; try lia; exfalso; intuition nia.
Qed.
End window.

(** ** The invariant of a counter whose interval divides its window *)

Section ring.
Context (n : nat) (k : Z) (Hn : (0 < n)%nat) (Hn64 : Z.of_nat n < 2 ^ 63) (Hk : 0 < k).
Let I := milliseconds k.
Let W := Z.of_nat n * I.

Definition slots (T : Z) (times : list Z) : list Slot :=
  (λ i, MkSlot (T + Z.of_nat i * I) (hits (T + Z.of_nat i * I) (T + Z.of_nat i * I + I) times)) <$> seq 0 n.

(** The ring begins at [T]; the errors were at [times], the last of them before [last]. *)
Record ring_ok (T last : Z) (times : list Z) (sw : SlidingWindowCounter) : Prop := {
  ro_window : sw_window_size sw = W;
  ro_num : sw_slot_num sw = n;
  ro_interval : sw_interval sw = k;
  ro_start : (sw_start_slot sw < n)%nat;
  ro_ring : rotate (sw_start_slot sw) (sw_data sw) = slots T times;
  ro_last : T ≤ last < T + W;
  ro_times t : t ∈ times → t ≤ last ∧ t < T + W;
  ro_gone t : t ∈ times → t < T → t < last - W + I;
}.

Lemma interval_pos : 0 < I.
Proof. unfold I, milliseconds. lia. Qed.
Lemma interval_window : I ≤ W.
Proof. pose proof interval_pos. unfold W. nia. Qed.
Lemma length_slots T times : length (slots T times) = n.
Proof. unfold slots. by rewrite length_fmap, length_seq. Qed.
Lemma slots_lookup T times i : (i < n)%nat →
  slots T times !! i = Some (MkSlot (T + Z.of_nat i * I) (hits (T + Z.of_nat i * I) (T + Z.of_nat i * I + I) times)).
Proof. intros Hi. unfold slots. by rewrite list_lookup_fmap, lookup_seq_lt by done. Qed.
Lemma ring_length start data T times : rotate start data = slots T times → length data = n.
Proof. intros H. by rewrite <- (length_rotate data start), H, length_slots. Qed.

(** Slots later than every error are empty. *)
Lemma slots_empty T times : (∀ t, t ∈ times → t < T) →
  slots T times = (λ i, MkSlot (T + Z.of_nat i * I) 0) <$> seq 0 n.
Proof.
  intros Ht. unfold slots. apply list_fmap_ext. intros i x _. rewrite hits_none; [done|].
  intros t Hin. specialize (Ht t Hin). pose proof interval_pos. nia.
Qed.

(** The quotients of the source are slots. *)
Lemma slot_quot d : 0 ≤ d → num_milliseconds d `quot` k = d `div` I.
Proof.
  intros Hd. unfold num_milliseconds, I, milliseconds.
  rewrite !Z.quot_div_nonneg by (try lia; apply Z.quot_pos; lia).
  rewrite (Z.mul_comm k). by rewrite <- Z.div_div by lia.
Qed.

(** The fill of [init] is a whole ring. *)
Lemma init_ring now times sw :
  sw_slot_num sw = n → sw_interval sw = k → length (sw_data sw) = n → (∀ t, t ∈ times → t < now) →
  rotate 0 (fill k (λ i, i) n now (sw_data sw)) = slots now times.
Proof.
  intros Hnum Hint Hlen Ht. rewrite slots_empty by done. unfold I.
  pose proof (fill_ring k n now (sw_data sw) 0 n Hlen) as Hf.
  assert (fill k (λ i, i) n now (sw_data sw) = fill k (λ i, (i + 0) `mod` n)%nat n now (sw_data sw)) as ->.
  { enough (∀ m, (m ≤ n)%nat → fill k (λ i, i) m now (sw_data sw) = fill k (λ i, (i + 0) `mod` n)%nat m now (sw_data sw))
      by auto.
    intros m. induction m as [|m IH]; intros Hm; [done|]. rewrite !fill_S, IH by lia.
    by rewrite Nat.add_0_r, Nat.mod_small by lia. }
  rewrite Hf by done. rewrite drop_ge, app_nil_r; [done|]. rewrite length_rotate. lia.
Qed.

Lemma slots_split T T' times m :
  (m ≤ n)%nat → T' = T + Z.of_nat m * I → (∀ t, t ∈ times → t < T + W) →
  drop m (slots T times) ++ ((λ i, MkSlot (T + W + Z.of_nat i * I) 0) <$> seq 0 m) = slots T' times.
Proof.
  intros Hm -> Ht. apply list_eq. intros i. unfold slots.
  destruct (decide (i < n)%nat) as [Hi|Hi].
  2:{ rewrite !lookup_ge_None_2; [done| |];
        rewrite ?length_app, ?length_drop, !length_fmap, !length_seq; lia. }
  rewrite list_lookup_fmap, (lookup_seq_lt _ _ i) by done. simpl.
  destruct (decide (i < n - m)%nat).
  - rewrite lookup_app_l by (rewrite length_drop, length_fmap, length_seq; lia).
    rewrite lookup_drop, list_lookup_fmap, lookup_seq_lt by lia. simpl.
    replace (T + Z.of_nat (m + i) * I) with (T + Z.of_nat m * I + Z.of_nat i * I) by lia. done.
  - rewrite lookup_app_r by (rewrite length_drop, length_fmap, length_seq; lia).
    rewrite length_drop, length_fmap, length_seq, list_lookup_fmap, lookup_seq_lt by lia. simpl.
    f_equal. replace (Z.of_nat (i - (n - m))) with (Z.of_nat i + Z.of_nat m - Z.of_nat n) by lia.
    f_equal; [unfold W; lia|]. symmetry. apply hits_none. intros t Hin. specialize (Ht t Hin).
    pose proof interval_pos as HI.
    assert (Z.of_nat n * I ≤ Z.of_nat (m + i) * I) by (apply Z.mul_le_mono_nonneg_r; lia). unfold W in Ht. lia.
Qed.

(** A move by [m] slots: the oldest [m] make room for as many later ones. *)
Lemma init_part_ring T last times sw m :
  ring_ok T last times sw → (0 < m ≤ n)%nat →
  ∃ sw', init_part (Z.of_nat m) sw = Some (Ok sw') ∧ sw_window_size sw' = W ∧ sw_slot_num sw' = n ∧
    sw_interval sw' = k ∧ (sw_start_slot sw' < n)%nat ∧
    rotate (sw_start_slot sw') (sw_data sw') = slots (T + Z.of_nat m * I) times.
Proof.
  intros [Hw Hnum Hint Hstart Hring Hlast Htimes _] Hm. pose proof (ring_length _ _ _ _ Hring) as Hlen.
  unfold init_part, as_usize. rewrite Hnum, Hint, Z.mod_small by lia.
  destruct (Z.ltb_spec (Z.of_nat n) (Z.of_nat m)); [lia|]. rewrite Nat2Z.id.
  replace (sw_start_slot sw + n - 1)%nat with (n - 1 + sw_start_slot sw)%nat by lia.
  assert (sw_data sw !! ((n - 1 + sw_start_slot sw) `mod` n)%nat = slots T times !! (n - 1)%nat) as ->.
  { by rewrite <- Hring, lookup_rotate_r, ring_index, Hlen by lia. }
  rewrite slots_lookup by lia. simpl.
  eexists. split; [done|]. simpl. split_and!; [done..|apply Nat.mod_upper_bound; lia|].
  set (data := fill _ _ _ _ _). assert (length data = n) as Hdata by (unfold data; rewrite length_fill; done).
  rewrite <- Hdata at 1. rewrite ring_moved by lia. unfold data.
  rewrite (fill_ring _ _ _ _ _ n), Hring by (done || lia).
  rewrite drop_app_length', take_app_length' by by rewrite length_fmap, length_seq.
  rewrite <- (slots_split T (T + Z.of_nat m * I) times m) by (lia || done || (intros t Ht; by apply Htimes)).
  f_equal. apply list_fmap_ext. intros i x _. f_equal.
  rewrite Nat2Z.inj_sub by lia. unfold W, I. lia.
Qed.

(** The ring after the first step of [add_one] holds the present. *)
Lemma slide_ring T last times now sw :
  ring_ok T last times sw → last ≤ now → ∃ T' sw', slide now sw = Some sw' ∧ ring_ok T' now times sw'.
Proof.
  intros Hok Hnow. pose proof Hok as [Hw Hnum Hint Hstart Hring Hlast Htimes Hgone].
  pose proof (ring_length _ _ _ _ Hring) as Hlen. pose proof interval_pos as HI. pose proof interval_window as HIW.
  assert (sw_data sw !! sw_start_slot sw = slots T times !! 0%nat) as Hfirst.
  { rewrite <- Hring, lookup_rotate_r, rotate_nat_add_0 by lia. done. }
  rewrite slots_lookup in Hfirst by lia. unfold slide. rewrite Hfirst. simpl.
  rewrite Z.add_0_r, Hw, Hint. destruct (Z.leb_spec (T + W) now) as [Hout|Hin].
  2:{ exists T, sw. split; [done|]. split; try done; [lia| |].
      - intros t Ht. specialize (Htimes t Ht). lia.
      - intros t Ht HtT. specialize (Hgone t Ht HtT). lia. }
  destruct (Z.leb_spec (T + W * 2) now) as [Hfar|Hnear].
  - exists now, (sw_init now sw). split; [done|]. unfold sw_init. split; simpl; try done; try lia.
    + rewrite Hnum, Hint. apply init_ring; try done. intros t Ht. specialize (Htimes t Ht). lia.
    + intros t Ht. specialize (Htimes t Ht). lia.
    + intros t Ht _. specialize (Htimes t Ht). lia.
  - rewrite decide_False by lia. rewrite slot_quot by lia.
    set (q := (now - T - W) `div` I).
    pose proof (Z.div_mod (now - T - W) I ltac:(lia)) as Hq. pose proof (Z.mod_pos_bound (now - T - W) I HI) as Hr.
    fold q in Hq. assert (0 ≤ q < Z.of_nat n) as Hqn.
    { split; [apply Z.div_pos; lia|]. apply Z.div_lt_upper_bound; [lia|]. unfold W in *. lia. }
    destruct (init_part_ring T last times sw (Z.to_nat (q + 1)) Hok) as (sw'&Hpart&Hw'&Hnum'&Hint'&Hstart'&Hring'); [lia|].
    rewrite Z2Nat.id in Hpart, Hring' by lia. rewrite Hpart. simpl.
    exists (T + (q + 1) * I), sw'. split; [done|]. split; try done; [lia| |].
    + intros t Ht. specialize (Htimes t Ht). lia.
    + intros t Ht HtT. lia.
Qed.

(** [add_one] counts the error in its slot. *)
Lemma add_one_ring T last times now sw :
  ring_ok T last times sw → last ≤ now →
  ∃ T' sw', add_one now sw = Some sw' ∧ ring_ok T' now (times ++ [now]) sw'.
Proof.
  intros Hok Hnow. destruct (slide_ring T last times now sw Hok Hnow) as (T'&sw1&Hslide&[Hw Hnum Hint Hstart Hring Hlast Htimes Hgone]).
  pose proof (ring_length _ _ _ _ Hring) as Hlen. pose proof interval_pos as HI.
  assert (sw_data sw1 !! sw_start_slot sw1 = slots T' times !! 0%nat) as Hfirst.
  { rewrite <- Hring, lookup_rotate_r, rotate_nat_add_0 by lia. done. }
  rewrite slots_lookup in Hfirst by lia. unfold add_one. rewrite Hslide. simpl. rewrite Hfirst. simpl.
  rewrite Z.add_0_r, Hint, Hnum, decide_False, slot_quot by lia.
  pose proof (Z.div_mod (now - T') I ltac:(lia)) as Hq. pose proof (Z.mod_pos_bound (now - T') I HI) as Hr.
  set (q := (now - T') `div` I) in *. assert (0 ≤ q < Z.of_nat n) as Hqn.
  { split; [apply Z.div_pos; lia|]. apply Z.div_lt_upper_bound; [lia|]. unfold W in *. lia. }
  unfold as_usize. rewrite (Z.mod_small q), (Z.mod_small (q + _)) by lia.
  assert (Z.to_nat ((q + Z.of_nat (sw_start_slot sw1)) `mod` Z.of_nat n) =
    rotate_nat_add (sw_start_slot sw1) (Z.to_nat q) (length (sw_data sw1))) as ->.
  { unfold rotate_nat_add. rewrite Hlen. do 2 f_equal. lia. }
  rewrite <- lookup_rotate_r, Hring, slots_lookup by lia. simpl.
  exists T'. eexists. split; [done|]. split; simpl; try done.
  - rewrite rotate_insert_l, Hring by lia. apply list_eq. intros i.
    destruct (decide (i < n)%nat) as [Hi|Hi].
    2:{ rewrite !lookup_ge_None_2; rewrite ?length_insert, ?length_slots; [done|lia..]. }
    rewrite list_lookup_insert, !slots_lookup, hits_snoc by (rewrite ?length_slots; lia).
    rewrite length_slots. destruct (decide (Z.to_nat q = i ∧ (Z.to_nat q < n)%nat)) as [[<- _]|Hne].
    + rewrite Z2Nat.id by lia. rewrite decide_True by lia. do 2 f_equal. lia.
    + rewrite decide_False; [by rewrite Nat.add_0_r|]. intros Hnow'. apply Hne.
      assert (q = Z.of_nat i) by nia. lia.
  - intros t [Ht| ->%list_elem_of_singleton]%elem_of_app; [by apply Htimes|lia].
  - intros t [Ht| ->%list_elem_of_singleton]%elem_of_app; [by apply Hgone|lia].
Qed.

Lemma sw_new_ring t0 : ∃ sw, sw_new W n t0 = Some sw ∧ ring_ok t0 t0 [] sw.
Proof.
  pose proof interval_pos as HI. unfold sw_new. rewrite decide_False by lia.
  assert (num_milliseconds W `quot` Z.of_nat n = k) as Hint.
  { unfold num_milliseconds, W, I, milliseconds. rewrite Z.mul_assoc, Z.quot_mul by lia.
    rewrite (Z.mul_comm (Z.of_nat n)). by rewrite Z.quot_mul by lia. }
  eexists. split; [done|]. rewrite Hint. unfold sw_init. split; simpl; try done.
  - apply (init_ring t0 [] (MkSliding W (replicate n (MkSlot 0 0)) n k 0)); simpl; rewrite ?length_replicate; try done.
    intros t []%elem_of_nil.
  - unfold W. nia.
  - intros t []%elem_of_nil.
  - intros t []%elem_of_nil.
Qed.

(** The count of the window is that of the slots that it takes in. *)
Lemma count_in_window_ring T last times now sw :
  ring_ok T last times sw → count_in_window now sw = window_sum T I (now - W) n times.
Proof.
  intros [Hw _ _ _ Hring _ _ _]. unfold count_in_window. rewrite Hw.
  assert (sw_data sw ≡ₚ slots T times) as ->.
  { rewrite <- Hring. unfold rotate. rewrite Permutation_app_comm. by rewrite take_drop. }
  unfold slots, window_sum. induction (seq 0 n) as [|i l IH]; [done|].
  rewrite fmap_cons. simpl. f_equal; [|exact IH]. case_decide; destruct (Z.leb_spec (now - W) (T + Z.of_nat i * I)); done || lia.
Qed.

Lemma count_all_ring times t0 : 
  StronglySorted Z.le (t0 :: times) →
  ∃ sw T, (sw_new W n t0 ≫= count_all times) = Some sw ∧ ring_ok T (default t0 (last times)) times sw.
Proof.
  destruct (sw_new_ring t0) as (sw0&->&Hok). simpl. induction times as [|t times IH] using rev_ind.
  { intros _. by exists sw0, t0. }
  intros Hsorted. destruct IH as (sw&T&Hrun&Hok').
  { by apply (StronglySorted_app_1_l Z.le (t0 :: times) [t]). }
  unfold count_all in *. rewrite foldl_app. simpl. rewrite Hrun. simpl.
  destruct (add_one_ring T (default t0 (last times)) times t sw Hok') as (T'&sw'&Hadd&Hok'').
  { apply (StronglySorted_app_1_elem_of Z.le (t0 :: times) [t]); [done| |by left].
    destruct (last times) as [x|] eqn:Hx; [right; by apply last_Some_elem_of|by left]. }
  unfold add_and_count. rewrite Hadd. simpl. exists sw', T'. split; [done|].
  by rewrite last_snoc.
Qed.
End ring.

(** ** The window in Redis

    The script [script]: the sorted set of a key is the set of its members, for a member
    is its own score, and a key expires at a time, in milliseconds. *)

Record RedisWindow := MkRedisWindow { rw_members : gset Z; rw_expire_at : Z }.
Definition redis_window_empty : RedisWindow := MkRedisWindow ∅ 0.

(** [now.timestamp()] and [now.timestamp_subsec_micros()] *)
Definition timestamp (now : Z) : Z := now `div` 1000000000.
Definition timestamp_subsec_micros (now : Z) : Z := (now `mod` 1000000000) `div` 1000.
Definition member_score (now : Z) : Z := (timestamp now `mod` 10000000) * 1000000 + timestamp_subsec_micros now.

Definition redis_add_and_count (window_size now : Z) (w : RedisWindow) : nat * RedisWindow :=
  let window_size := num_milliseconds window_size in
  let members := if rw_expire_at w <=? now `div` 1000000 then ∅ else rw_members w in
  let window_expire_at := timestamp now * 1000 + window_size in
  let kept := filter (λ s, ¬ (0 ≤ s ≤ member_score now - window_size * 1000)) members in
  (size kept, MkRedisWindow ({[ member_score now ]} ∪ kept) (now `div` 1000000 + window_expire_at)).

Definition redis_count_all (window_size : Z) (times : list Z) (w : RedisWindow) : RedisWindow :=
  foldl (λ w now, (redis_add_and_count window_size now w).2) w times.

(** ** The plugin [status]: [status.rs] and [status_plugin.rs] *)

Definition DEFAULT_CONF_WINDOW_KEY : string := "sg:plugin:filter:window:key".
(** The key that the script gets. *)
Definition window_key (key : string) : string := if decide (key = ""%string) then DEFAULT_CONF_WINDOW_KEY else key.

Record SgFilterStatusConfig := MkStatusConfig {
  st_host : string; st_port : Z; st_title : string;
  st_unhealthy_threshold : Z; st_interval : Z;
  st_status_cache_key : string; st_window_cache_key : string;
}.
Definition status_config_default : SgFilterStatusConfig :=
  MkStatusConfig "0.0.0.0" 8110 "System Status" 3 5 "sg:plugin:status" DEFAULT_CONF_WINDOW_KEY.
(** [CachePolicy::get_cache_key] *)
Definition get_cache_key (config : SgFilterStatusConfig) (gateway_name : string) : string :=
  (st_status_cache_key config +:+ ":" +:+ gateway_name)%string.

Inductive Status := Good | Minor | Major.
#[export] Instance Status_eq_dec : EqDecision Status.
Proof. solve_decision. Defined.

Record StatusState (C : Type) := MkStatusState { ss_counter : C; ss_status : gmap string Status }.
Arguments MkStatusState {C}.
Arguments ss_counter {C}.
Arguments ss_status {C}.

(** [update_status] and [get_status] *)
Definition update_status {C} (server_name : string) (status : Status) (st : StatusState C) : StatusState C :=
  MkStatusState (ss_counter st) (<[server_name := status]> (ss_status st)).
Definition get_status {C} (server_name : string) (st : StatusState C) : option Status := ss_status st !! server_name.
Definition clean_status {C} (st : StatusState C) : StatusState C := MkStatusState (ss_counter st) ∅.

Definition is_server_error (code : Z) : bool := (500 <=? code) && (code <=? 599).
Definition error_status (count : nat) (unhealthy_threshold : Z) : Status :=
  if unhealthy_threshold <=? Z.of_nat count then Major else Minor.

(** What both policies do with a response that is no error of the server. *)
Definition on_success {C} (backend_host : string) (st : StatusState C) : StatusState C :=
  match get_status backend_host st with
  | Some status => if decide (status = Good) then st else update_status backend_host Good st
  | None => st
  end.

(** [DefaultPolicy::on_response], with the task that it spawns; [backend_host] is the
    response's extension. *)
Definition default_on_response (unhealthy_threshold : Z) (backend_host : option string) (code now : Z)
    (st : StatusState SlidingWindowCounter) : option (StatusState SlidingWindowCounter) :=
  match backend_host with
  | None => Some st
  | Some backend_host =>
      if is_server_error code then
        counted ← add_and_count now (ss_counter st);
        Some (update_status backend_host (error_status counted.1 unhealthy_threshold)
                (MkStatusState counted.2 (ss_status st)))
      else Some (on_success backend_host st)
  end.

(** [CachePolicy::on_response], its client found and its commands answered *)
Definition cache_on_response (unhealthy_threshold interval : Z) (backend_host : option string) (code now : Z)
    (st : StatusState RedisWindow) : StatusState RedisWindow :=
  match backend_host with
  | None => st
  | Some backend_host =>
      if is_server_error code then
        let counted := redis_add_and_count interval now (ss_counter st) in
        update_status backend_host (error_status counted.1 unhealthy_threshold)
          (MkStatusState counted.2 (ss_status st))
      else on_success backend_host st
  end.

(** [Status::to_html_css_class] *)
Definition to_html_css_class (s : Status) : string :=
  match s with Good => "good" | Minor => "minor" | Major => "major" end.

(** [install_on_gateway]: the counter of an interval in seconds. *)
Definition status_counter (interval now : Z) : option SlidingWindowCounter :=
  sw_new (interval * 1000000000) 60 now.

(** ** Properties *)

(** C39: when the number of slots divides the window into intervals of whole milliseconds
    and the clock does not go back, the counter never panics, and the count that it gives
    at any time takes in every error since one interval after the beginning of the window
    and none before the beginning of the window. *)
Theorem window_count_bounds n k t0 times now :
  (0 < n)%nat → Z.of_nat n < 2 ^ 63 → 0 < k → StronglySorted Z.le (t0 :: times ++ [now]) →
  let W := milliseconds (Z.of_nat n * k) in
  ∃ sw c sw',
    (sw_new W n t0 ≫= count_all times) = Some sw ∧ add_and_count now sw = Some (c, sw') ∧
    (since (now - W + milliseconds k) times ≤ c ≤ since (now - W) times)%nat.
Proof.
  intros Hn Hn64 Hk Hsorted W.
  assert (W = Z.of_nat n * milliseconds k) as HW by (unfold W, milliseconds; lia).
  destruct (count_all_ring n k Hn Hn64 Hk times t0) as (sw&T&Hrun&Hok).
  { by apply (StronglySorted_app_1_l Z.le (t0 :: times) [now]). }
  assert (default t0 (last times) ≤ now) as Hnow.
  { apply (StronglySorted_app_1_elem_of Z.le (t0 :: times) [now]); [done| |by left].
    destruct (last times) as [x|] eqn:Hx; [right; by apply last_Some_elem_of|by left]. }
  destruct (add_one_ring n k Hn Hn64 Hk _ _ _ now sw Hok Hnow) as (T'&sw'&Hadd&_).
  exists sw, (count_in_window now sw), sw'. rewrite HW. split; [done|]. unfold add_and_count. rewrite Hadd.
  split; [done|]. rewrite (count_in_window_ring n k Hn T _ times now sw Hok).
  apply window_sum_bounds; [by apply (interval_pos n)|]. intros t Ht Hlate.
  destruct Hok as [_ _ _ _ _ _ Htimes Hgone]. destruct (Htimes t Ht) as [_ ?]. split; [|done].
  destruct (Z.le_gt_cases T t) as [|Hgt]; [done|]. specialize (Hgone t Ht Hgt). lia.
Qed.

Lemma window_count_bounds_witness :
  let times := [at_ms 10; at_ms 40; at_ms 2500] in
  ∃ sw c sw', (sw_new (milliseconds 1000) 10 0 ≫= count_all times) = Some sw ∧
    add_and_count (at_ms 3450) sw = Some (c, sw') ∧ (since (at_ms 2550) times ≤ c ≤ since (at_ms 2450) times)%nat.
Proof.
  apply (window_count_bounds 10 100 0 [at_ms 10; at_ms 40; at_ms 2500] (at_ms 3450)); [lia..|].
  repeat constructor; vm_compute; discriminate.
Defined.

(** An error makes its host unhealthy when more than [unhealthy_threshold] errors were
    counted, itself included; any other response makes it healthy again. *)
Lemma default_policy_status threshold host code now st st' :
  default_on_response threshold (Some host) code now st = Some st' →
  get_status host st' =
  if is_server_error code then
    Some (if threshold <? Z.of_nat (S (count_in_window now (ss_counter st))) then Major else Minor)
  else (λ _, Good) <$> get_status host st.
Proof.
  unfold default_on_response. destruct (is_server_error code).
  - unfold add_and_count. destruct (add_one now (ss_counter st)) as [sw|]; simpl; [|done]. intros [= <-].
    unfold get_status, update_status, error_status. simpl. rewrite lookup_insert_eq. f_equal.
    destruct (Z.leb_spec threshold (Z.of_nat (count_in_window now (ss_counter st))));
      destruct (Z.ltb_spec threshold (Z.of_nat (S (count_in_window now (ss_counter st))))); done || lia.
  - intros [= <-]. unfold on_success, get_status. destruct (ss_status st !! host) as [status|] eqn:Hs; [|by rewrite Hs].
    case_decide; subst; [by rewrite Hs|]. unfold update_status. simpl. by rewrite lookup_insert_eq.
Qed.

(** In Redis, within one period of the scores and before the key expires: the microseconds
    of the window in which there was an error. *)
Lemma redis_window_members W now w :
  0 ≤ now → now `div` 1000000 < rw_expire_at w → (∀ s, s ∈ rw_members w → 0 ≤ s) →
  let '(c, w') := redis_add_and_count W now w in
  c = size (filter (λ s, member_score now - num_milliseconds W * 1000 < s) (rw_members w)) ∧
  rw_members w' = {[ member_score now ]} ∪ filter (λ s, member_score now - num_milliseconds W * 1000 < s) (rw_members w).
Proof.
  intros Hnow Hexp Hpos. unfold redis_add_and_count. simpl.
  destruct (Z.leb_spec (rw_expire_at w) (now `div` 1000000)); [lia|].
  assert (∀ s, s ∈ rw_members w →
    ¬ (0 ≤ s ≤ member_score now - num_milliseconds W * 1000) ↔ member_score now - num_milliseconds W * 1000 < s) as Hiff.
  { intros s Hs. specialize (Hpos s Hs). lia. }
  assert (filter (λ s, ¬ (0 ≤ s ≤ member_score now - num_milliseconds W * 1000)) (rw_members w) =
    filter (λ s, member_score now - num_milliseconds W * 1000 < s) (rw_members w)) as ->; [|done].
  apply leibniz_equiv. intros s. rewrite !elem_of_filter. naive_solver.
Qed.

(** ** Examples *)

(** The default interval of five seconds is not divided by its sixty slots: an error in
    the last milliseconds of the second window panics, *)
Example default_interval_panics : (sw ← status_counter (st_interval status_config_default) 0; add_one (at_ms 9985) sw) = None.
Proof. by vm_compute. Qed.
(** and one in the last milliseconds of a window is counted in the first slot, so that it
    is forgotten at once. *)
Example default_interval_forgets :
  (sw ← status_counter 5 0; sw ← add_one (at_ms 4990) sw; Some (count_in_window (at_ms 5001) sw)) = Some 0%nat.
Proof. by vm_compute. Qed.
(** An interval of zero seconds has slots of no length. *)
Example zero_interval_panics : (sw ← status_counter 0 0; add_one 1 sw) = None.
Proof. by vm_compute. Qed.

(** The hosts share the counter: the errors of one make another unhealthy. *)
Example hosts_share_counter :
  (sw ← sw_new (milliseconds 6000) 60 0;
   let st := MkStatusState sw ∅ in
   st ← default_on_response 2 (Some "a"%string) 500 1 st; st ← default_on_response 2 (Some "a"%string) 500 2 st;
   st ← default_on_response 2 (Some "b"%string) 503 3 st; Some (get_status "a"%string st, get_status "b"%string st)) =
  Some (Some Minor, Some Major).
Proof. by vm_compute. Qed.

(** In Redis the errors of one microsecond are one, *)
Example same_microsecond :
  let W := milliseconds 1000 in
  (redis_add_and_count W (at_ms 20) (redis_count_all W [at_ms 10; at_ms 10; at_ms 10] redis_window_empty)).1 = 1%nat.
Proof. by vm_compute. Qed.
(** and after the score has wrapped around, errors of months ago are counted. *)
Example scores_wrap :
  let W := milliseconds 1000 in
  let before := at_ms 9999999999 in
  (redis_add_and_count W (before + at_ms 60000)
     (redis_count_all W [before] redis_window_empty)).1 = 1%nat.
Proof. by vm_compute. Qed.
