(* ===== verification/Retry.v ===== *)
(** * Retrying a request

    [crates/plugin/src/plugins/retry.rs], which the build leaves out: the policy that
    decides on another attempt, and the future that collects the body of the request,
    sends it and sends it again after a delay.

    The service is a function of its own state. [None] is a panic or, of [retry_loop],
    fuel that ran out; a delay is a [u64] of milliseconds, with its wrap-around. The
    choice of the random strategy is a parameter ([draw]). *)

From S2P Require Export Prelude.
Local Open Scope Z_scope.
Local Open Scope list_scope.

Inductive BackOff := Fixed | Exponential | Random.

Record SgPluginRetryConfig := MkRetryConfig {
  rc_retries : Z;
  rc_retirable_methods : list string;
  rc_backoff : BackOff;
  rc_base_interval : Z;
  rc_max_interval : Z;
}.
Definition retry_config_default : SgPluginRetryConfig := MkRetryConfig 3 ["*"%string] Exponential 100 10000.

Record RetryPolicy := MkRetryPolicy { rp_times : Z; rp_config : SgPluginRetryConfig }.

Definition wrap_u64 (n : Z) : Z := n `mod` 2 ^ 64.

(** [rng.gen_range(low..high)], which panics for an empty range. *)
Class RandomRange := draw : Z → Z → Z.
Class RandomRangeLaws `{RandomRange} : Prop := draw_in low high : low < high → low ≤ draw low high < high.

Section policy.
Context `{RandomRange}.

(** [RetryPolicy::retry]: the delay and the next policy, none to stop. *)
Definition policy_delay (p : RetryPolicy) : option Z :=
  match rc_backoff (rp_config p) with
  | Fixed => Some (rc_base_interval (rp_config p))
  | Exponential => Some (wrap_u64 (rc_base_interval (rp_config p) * wrap_u64 (2 ^ rp_times p)))
  | Random =>
      if rc_base_interval (rp_config p) <? rc_max_interval (rp_config p)
      then Some (draw (rc_base_interval (rp_config p)) (rc_max_interval (rp_config p))) else None
  end.
Definition policy_retry (p : RetryPolicy) (status : Z) : option (option (Z * RetryPolicy)) :=
  if (rp_times p <? rc_retries (rp_config p)) && (status =? 500) then
    delay ← policy_delay p; Some (Some (delay, MkRetryPolicy (rp_times p + 1) (rp_config p)))
  else Some None.

Section future.
Context {St Body Req Resp : Type} (svc : Req → St → Resp * St) (resp_status : Resp → Z).

(** What a future did: the requests that it sent and the delays between them. *)
Record Trace := MkTrace { tr_sent : list Req; tr_delays : list Z }.

(** [RetryFuture::poll], from the state [Requesting] on *)
Fixpoint retry_loop (fuel : nat) (request : Req) (p : RetryPolicy) (st : St) (t : Trace) :
    option (Resp * St * Trace) :=
  match fuel with
  | O => None
  | S fuel =>
      let '(resp, st) := svc request st in
      let sent := tr_sent t ++ [request] in
      next ← policy_retry p (resp_status resp);
      match next with
      | Some (delay, p) => retry_loop fuel request p st (MkTrace sent (tr_delays t ++ [delay]))
      | None => Some (resp, st, MkTrace sent (tr_delays t))
      end
  end.

(** [Retry::call]: the body is collected first, and an error is a bad request. *)
Definition retry_call (fuel : nat) (body : result Body string) (with_body : Body → Req) (bad_request : string → Resp)
    (config : SgPluginRetryConfig) (st : St) : option (Resp * St * Trace) :=
  match body with
  | Ok body => retry_loop fuel (with_body body) (MkRetryPolicy 0 config) st (MkTrace [] [])
  | Err e => Some (bad_request e, st, MkTrace [] [])
  end.
End future.
End policy.

(** ** Lemmas *)

(** The configurations that never panic, and the delay before the attempt [i + 1]. *)
Definition config_ok (c : SgPluginRetryConfig) : Prop :=
  rc_backoff c = Random → rc_base_interval c < rc_max_interval c.
Definition delay_ok (c : SgPluginRetryConfig) (i : nat) (delay : Z) : Prop :=
  match rc_backoff c with
  | Fixed => delay = rc_base_interval c
  | Exponential => delay = wrap_u64 (rc_base_interval c * wrap_u64 (2 ^ Z.of_nat i))
  | Random => rc_base_interval c ≤ delay < rc_max_interval c
  end.

Section lemmas.
Context `{RandomRangeLaws}.
Context {St Body Req Resp : Type} (svc : Req → St → Resp * St) (resp_status : Resp → Z).

Lemma policy_delay_ok p i :
  config_ok (rp_config p) → rp_times p = Z.of_nat i →
  ∃ delay, policy_delay p = Some delay ∧ delay_ok (rp_config p) i delay.
Proof.
  unfold config_ok, policy_delay, delay_ok. intros Hc ->. destruct (rc_backoff (rp_config p)); [eauto..|].
  destruct (Z.ltb_spec (rc_base_interval (rp_config p)) (rc_max_interval (rp_config p))); [|by specialize (Hc eq_refl); lia].
  eexists. split; [done|]. by apply draw_in.
Qed.

(** The attempts of a service: the states that they lead through, all answered by an error
    of the server but the last. *)
Fixpoint attempts (request : Req) (st : St) (k : nat) : list Resp * St :=
  match k with
  | O => ([], st)
  | S k =>
      let '(resp, st) := svc request st in let '(resps, st) := attempts request st k in (resp :: resps, st)
  end.

Lemma retry_loop_spec fuel request p st t i :
  config_ok (rp_config p) → rp_times p = Z.of_nat i → Z.of_nat i ≤ rc_retries (rp_config p) →
  rc_retries (rp_config p) - Z.of_nat i < Z.of_nat fuel →
  ∃ resp st' errors delays,
    retry_loop svc resp_status fuel request p st t =
      Some (resp, st', MkTrace (tr_sent t ++ replicate (S (length errors)) request) (tr_delays t ++ delays)) ∧
    attempts request st (S (length errors)) = (errors ++ [resp], st') ∧
    Forall (λ e, resp_status e = 500) errors ∧
    (resp_status resp ≠ 500 ∨ Z.of_nat (i + length errors) = rc_retries (rp_config p)) ∧
    Z.of_nat (i + length errors) ≤ rc_retries (rp_config p) ∧
    length delays = length errors ∧ ∀ j d, delays !! j = Some d → delay_ok (rp_config p) (i + j) d.
Proof.
  revert p st t i. induction fuel as [|fuel IH]; intros p st t i Hc Hi Hle Hfuel; [lia|]. simpl.
  destruct (svc request st) as [resp st1] eqn:Hsvc. unfold policy_retry.
  destruct (decide (rp_times p < rc_retries (rp_config p) ∧ resp_status resp = 500)) as [[Hlt H500]|Hstop].
  - rewrite (proj2 (Z.ltb_lt _ _) Hlt), (proj2 (Z.eqb_eq _ _) H500). simpl.
    destruct (policy_delay_ok p i Hc Hi) as (delay&->&Hdelay). simpl.
    destruct (IH (MkRetryPolicy (rp_times p + 1) (rp_config p)) st1
      (MkTrace (tr_sent t ++ [request]) (tr_delays t ++ [delay])) (S i))
      as (resp'&st'&errors&delays&Hrun&Hatt&Herr&Hlast&Hbound&Hlen&Hdelays); simpl; [done|lia..|].
    exists resp', st', (resp :: errors), (delay :: delays). simpl in *. rewrite Hrun, <- !app_assoc. simpl.
    rewrite ?Hsvc, Hatt. split_and!; try done; [by constructor| |lia|lia|].
    + destruct Hlast; [by left|right; lia].
    + intros [|j] d Hd; simplify_eq/=; [by rewrite Nat.add_0_r|]. rewrite <- Nat.add_succ_comm. by apply Hdelays.
  - assert ((rp_times p <? rc_retries (rp_config p)) && (resp_status resp =? 500) = false) as ->.
    { apply andb_false_iff. rewrite Z.ltb_ge, Z.eqb_neq. lia. }
    simpl. exists resp, st1, [], []. simpl. rewrite ?Hsvc, app_nil_r. split_and!; try done; lia.
Qed.

(** ** Properties *)

(** With a range to draw from, a retry ends after at most [retries + 1] attempts: it
    answers with the first response that is not an internal error, or with the last one;
    every attempt sends the same request, and between two attempts there is one delay of
    the strategy. A body that cannot be collected is answered at once, unsent. *)
Theorem retry_ends body (with_body : Body → Req) bad_request config st :
  config_ok config → 0 ≤ rc_retries config →
  match body with
  | Err e => retry_call svc resp_status (S (Z.to_nat (rc_retries config))) (Err e) with_body bad_request config st =
      Some (bad_request e, st, MkTrace [] [])
  | Ok b => ∃ resp st' errors delays,
      retry_call svc resp_status (S (Z.to_nat (rc_retries config))) (Ok b) with_body bad_request config st =
        Some (resp, st', MkTrace (replicate (S (length errors)) (with_body b)) delays) ∧
      attempts (with_body b) st (S (length errors)) = (errors ++ [resp], st') ∧
      Forall (λ e, resp_status e = 500) errors ∧
      (resp_status resp ≠ 500 ∨ Z.of_nat (length errors) = rc_retries config) ∧
      Z.of_nat (length errors) ≤ rc_retries config ∧
      length delays = length errors ∧ ∀ j d, delays !! j = Some d → delay_ok config j d
  end.
Proof.
  intros Hc Hr. destruct body as [b|e]; [|done].
  apply (retry_loop_spec (S (Z.to_nat (rc_retries config))) (with_body b) (MkRetryPolicy 0 config) st (MkTrace [] []) 0);
    simpl; done || lia.
Qed.
End lemmas.

(** ** Examples *)

Definition low_draw : RandomRange := λ low _, low.
Lemma low_draw_laws : @RandomRangeLaws low_draw.
Proof. intros low high Hlt. unfold draw, low_draw. lia. Qed.

(** A service that fails [n] times. *)
Definition failing (_ : string) (n : nat) : Z * nat := match n with O => (200, O) | S n => (500, n) end.

Lemma retry_ends_witness :
  config_ok retry_config_default ∧
  ∃ resp st' errors delays,
    retry_call (H:=low_draw) failing id 4 (Ok "b"%string) id (λ _, 400) retry_config_default 5%nat =
      Some (resp, st', MkTrace (replicate (S (length errors)) "b"%string) delays) ∧
    attempts failing "b"%string 5%nat (S (length errors)) = (errors ++ [resp], st') ∧
    Forall (λ e, id e = 500) errors ∧
    (id resp ≠ 500 ∨ Z.of_nat (length errors) = rc_retries retry_config_default) ∧
    Z.of_nat (length errors) ≤ rc_retries retry_config_default ∧
    length delays = length errors ∧ ∀ j d, delays !! j = Some d → delay_ok retry_config_default j d.
Proof.
  assert (config_ok retry_config_default) as Hc by by intros [=].
  split; [done|].
  apply (retry_ends (H:=low_draw) (H0:=low_draw_laws) failing id (Ok "b"%string) id (λ _, 400) retry_config_default 5%nat Hc).
  vm_compute. discriminate.
Defined.

(** The delays of the exponential strategy pass the largest interval, and fall to nothing
    when the power of two leaves 64 bits. *)
Example delay_exceeds_max :
  policy_delay (H:=low_draw) (MkRetryPolicy 7 (MkRetryConfig 8 [] Exponential 100 10000)) = Some 12800.
Proof. by vm_compute. Qed.
Example delay_wraps :
  policy_delay (H:=low_draw) (MkRetryPolicy 64 (MkRetryConfig 100 [] Exponential 100 10000)) = Some 0.
Proof. by vm_compute. Qed.
Example empty_range_panics :
  policy_retry (H:=low_draw) (MkRetryPolicy 0 (MkRetryConfig 3 [] Random 10000 10000)) 500 = None.
Proof. by vm_compute. Qed.
