(* ===== verification/Body.v ===== *)
(** * Bodies

    [crates/kernel/src/body.rs]: the body of a request or response, which is a stream and
    may be dumped, that is, kept as bytes too; only a dumped body can be cloned.
    [body/observer.rs]: a body that tells a state of every chunk that passes.

    A body is the list of what its successive polls give ([BoxBody]); after the last it
    is at its end. The bodies of [http-body-util] and its [collect] are the interface
    [BodyUtil], with laws and an instance. [is_end_stream] and [size_hint] pass the
    question on and are left out. *)

From S2P Require Export Service.
Local Open Scope string_scope.
Local Open Scope list_scope.

(** A frame: a chunk, or the trailers. *)
Inductive Frame := FData (data : string) | FTrailers (fields : list (string * string)).
Definition data_ref (f : Frame) : option string := match f with FData d => Some d | FTrailers _ => None end.

Notation FramePoll := (Poll (option (result Frame string))).
Notation BoxBody := (list FramePoll).

(** [Body::poll_frame] of a boxed body *)
Definition box_poll_frame (b : BoxBody) : FramePoll * BoxBody :=
  match b with [] => (Ready None, []) | p :: b => (p, b) end.

(** [Empty], [Full] and [BodyExt::collect] with [to_bytes]. *)
Class BodyUtil := {
  empty_body : BoxBody;
  full_body : string → BoxBody;
  collect : BoxBody → result string string;
}.

(** The chunks of a body up to its end, or its first error. *)
Fixpoint chunks (b : BoxBody) : result string string :=
  match b with
  | [] | Ready None :: _ => Ok ""
  | Pending :: b => chunks b
  | Ready (Some (Err e)) :: _ => Err e
  | Ready (Some (Ok f)) :: b => let? rest := chunks b in Ok (default "" (data_ref f) +:+ rest)
  end.

Class BodyUtilLaws `{BodyUtil} : Prop := {
  empty_chunks : chunks empty_body = Ok "";
  full_chunks b : chunks (full_body b) = Ok b;
  collect_chunks b : collect b = chunks b;
}.

(** ** [SgBody] *)

Record SgBody := MkSgBody { sg_body : BoxBody; sg_dump : option string }.

Section body.
Context `{BodyUtil}.

(** [SgBody::new], its error converted, [empty], [full] and [Default] *)
Definition body_new (body : BoxBody) : SgBody := MkSgBody body None.
Definition body_empty : SgBody := MkSgBody empty_body None.
Definition body_full (bytes : string) : SgBody := MkSgBody (full_body bytes) (Some bytes).
Definition body_default : SgBody := body_empty.

Definition is_dumped (b : SgBody) : bool := bool_decide (is_Some (sg_dump b)).
Definition body_dump (b : SgBody) : result SgBody string :=
  let? bytes := collect (sg_body b) in Ok (MkSgBody (full_body bytes) (Some bytes)).
Definition dump_clone (b : SgBody) : option SgBody :=
  (λ bytes, MkSgBody (full_body bytes) (Some bytes)) <$> sg_dump b.
Definition get_dumped (b : SgBody) : option string := sg_dump b.
(** [Clone for SgBody]: a panic before the dump *)
Definition body_clone (b : SgBody) : option SgBody := dump_clone b.

(** [Body for SgBody]: [poll_frame] *)
Definition sg_poll_frame (b : SgBody) : FramePoll * SgBody :=
  let '(p, body) := box_poll_frame (sg_body b) in (p, MkSgBody body (sg_dump b)).
End body.

(** ** [Observer] *)

(** The trait [State]. What [finish] and [error] do with the state they consume is their
    record. *)
Class State (S : Type) := { update_bytes : string → S → S }.
Inductive Ended (S : Type) := Finished (s : S) | Failed (s : S) (e : string).
Arguments Finished {S}.
Arguments Failed {S}.

Record Observer (S : Type) := MkObserver { ob_state : option S; ob_inner : SgBody }.
Arguments MkObserver {S}.
Arguments ob_state {S}.
Arguments ob_inner {S}.

Section observer.
Context {S : Type} `{State S}.

Definition observer_new (state : S) (inner : SgBody) : Observer S := MkObserver (Some state) inner.

(** [poll_frame], with the call of [finish] or [error] that it makes. *)
Definition observer_poll_frame (o : Observer S) : FramePoll * Observer S * option (Ended S) :=
  let '(poll_result, inner) := sg_poll_frame (ob_inner o) in
  let '(state, ended) :=
    match poll_result with
    | Ready (Some (Ok frame)) =>
        match data_ref frame with
        | Some data => (update_bytes data <$> ob_state o, None)
        | None => (ob_state o, None)
        end
    | Ready (Some (Err e)) => (None, (λ s, Failed s e) <$> ob_state o)
    | Ready None => (None, Finished <$> ob_state o)
    | Pending => (ob_state o, None)
    end in
  (poll_result, MkObserver state inner, ended).

(** [n] polls: what they give, and the calls that end the observation. *)
Fixpoint observe (n : nat) (o : Observer S) : list FramePoll * Observer S * list (Ended S) :=
  match n with
  | O => ([], o, [])
  | Datatypes.S n =>
      let '(p, o, ended) := observer_poll_frame o in
      let '(ps, o, rest) := observe n o in
      (p :: ps, o, match ended with Some e => e :: rest | None => rest end)
  end.
End observer.

(** [n] polls of a body. *)
Fixpoint poll_frames (n : nat) (b : SgBody) : list FramePoll * SgBody :=
  match n with
  | O => ([], b)
  | Datatypes.S n => let '(p, b) := sg_poll_frame b in let '(ps, b) := poll_frames n b in (p :: ps, b)
  end.

(** ** Layers over the answer: [helper_layers/{map_response,map_future}.rs] *)

Section layers.
Context `{HttpLib}.

(** [MapResponse::call] *)
Definition map_response (map : Response → Response) : BoxLayer := λ inner request, map <$> inner request.
(** [MapFuture::call]; the future of a service is its answer. *)
Definition map_future {R Fut Fut' : Type} (f : Fut → Fut') (inner : R → Fut) : R → Fut' := λ req, f (inner req).
End layers.

(** ** Lemmas on dumped bodies *)

Section laws.
Context `{BodyUtilLaws}.

(** What a body still gives. *)
Definition remaining (b : SgBody) : result string string := chunks (sg_body b).

Lemma full_remaining bytes : remaining (body_full bytes) = Ok bytes.
Proof. apply full_chunks. Qed.

(** A dump keeps what was left of the body, and nothing of an earlier dump. *)
Lemma dump_spec b :
  body_dump b = match remaining b with Ok bytes => Ok (body_full bytes) | Err e => Err e end.
Proof. unfold body_dump, remaining. rewrite collect_chunks. by destruct (chunks (sg_body b)). Qed.

Lemma dump_is_dumped b b' :
  body_dump b = Ok b' → is_dumped b' = true ∧ remaining b' = remaining b ∧ body_clone b' = Some b' ∧ body_dump b' = Ok b'.
Proof.
  rewrite dump_spec. destruct (remaining b) as [bytes|e] eqn:Hb; [|done]. intros [= <-].
  split_and!; [by apply bool_decide_eq_true_2; eexists|apply full_remaining|done|].
  by rewrite dump_spec, full_remaining.
Qed.

(** A clone has the dumped bytes, however much of the body was polled since. *)
Lemma clone_is_full b : body_clone b = body_full <$> get_dumped b.
Proof. done. Qed.
End laws.

(** ** Lemmas on observers *)

Section observed.
Context {S : Type} `{State S}.

(** What a state has seen, after each poll. *)
Definition seen (s : S) (p : FramePoll) : S :=
  match p with Ready (Some (Ok (FData d))) => update_bytes d s | _ => s end.
(** Whether a poll ends the observation. *)
Definition terminal (p : FramePoll) : bool :=
  match p with Ready None | Ready (Some (Err _)) => true | _ => false end.
Definition ending (s : S) (p : FramePoll) : option (Ended S) :=
  match p with
  | Ready None => Some (Finished s)
  | Ready (Some (Err e)) => Some (Failed s e)
  | _ => None
  end.

(** The only call that ends the observation of these polls. *)
Fixpoint only_ending (s : S) (ps : list FramePoll) : list (Ended S) :=
  match ps with
  | [] => []
  | p :: ps => match ending s p with Some e => [e] | None => only_ending (seen s p) ps end
  end.

Lemma observer_poll_spec (o : Observer S) :
  let '(p, inner) := sg_poll_frame (ob_inner o) in
  observer_poll_frame o =
  (p, MkObserver (if terminal p then None else (λ s, seen s p) <$> ob_state o) inner,
   s ← ob_state o; ending s p).
Proof.
  unfold observer_poll_frame. destruct (sg_poll_frame (ob_inner o)) as [[[[[d|t]|e]|]|] inner]; simpl; by destruct (ob_state o).
Qed.

Lemma observe_none n inner : observe n (MkObserver None inner) =
  let '(ps, inner') := poll_frames n inner in (ps, MkObserver (@None S) inner', []).
Proof.
  revert inner. induction n as [|n IH]; intros inner; [done|]. simpl.
  pose proof (observer_poll_spec (MkObserver None inner)) as Hp. simpl in Hp.
  destruct (sg_poll_frame inner) as [p inner1]. rewrite Hp. simpl.
  assert ((if terminal p then None else None) = @None S) as -> by by destruct (terminal p).
  rewrite IH. by destruct (poll_frames n inner1).
Qed.

(** ** Properties *)

(** An observer passes the polls of its body through unchanged; the state sees every
    chunk before the first error or the end, in order, and is then finished or failed
    exactly once; nothing that comes later reaches it. *)
Theorem observer_transparent n (s : S) inner :
  let '(ps, inner') := poll_frames n inner in
  observe n (observer_new s inner) =
  (ps, MkObserver (if existsb terminal ps then None else Some (foldl seen s ps)) inner', only_ending s ps).
Proof.
  unfold observer_new. revert s inner. induction n as [|n IH]; intros s inner; [done|]. simpl.
  pose proof (observer_poll_spec (MkObserver (Some s) inner)) as Hp. simpl in Hp.
  destruct (sg_poll_frame inner) as [p inner1]. rewrite Hp. destruct (terminal p) eqn:Ht; simpl.
  - rewrite observe_none. destruct (poll_frames n inner1) as [ps inner']. simpl. rewrite Ht.
    by destruct p as [[[?|?]|]|].
  - specialize (IH (seen s p) inner1). destruct (poll_frames n inner1) as [ps inner']. rewrite IH. simpl. rewrite Ht.
    by destruct p as [[[?|?]|]|].
Qed.
End observed.

(** ** A reference instance *)

#[export] Instance ref_body_util : BodyUtil := {|
  empty_body := [];
  full_body b := if str_is_empty b then [] else [Ready (Some (Ok (FData b)))];
  collect := chunks;
|}.
#[export] Instance ref_body_laws : BodyUtilLaws.
Proof. split; [done| |done]. intros b. destruct b; [done|]. simpl. by rewrite str_app_nil_r. Qed.

#[export] Instance ref_state : State (list string) := {| update_bytes d s := s ++ [d] |}.

Definition ex_stream : BoxBody :=
  [Pending; Ready (Some (Ok (FData "a"))); Ready (Some (Ok (FTrailers []))); Ready (Some (Err "reset")); Ready (Some (Ok (FData "b")))].

Example observed_error :
  let '(ps, _, ended) := observe 6 (observer_new [] (body_new ex_stream)) in
  (length ps, ended) = (6%nat, [Failed ["a"] "reset"]).
Proof. reflexivity. Qed.

(** A body that was polled after its dump still clones as a whole, and loses what was read
    when it is dumped again. *)
Example polled_after_dump :
  let '(_, b) := sg_poll_frame (body_full "abc") in
  (get_dumped b, remaining <$> body_clone b, (λ b, get_dumped b) <$> (match body_dump b with Ok b => Some b | Err _ => None end)) =
  (Some "abc", Some (Ok "abc"), Some (Some "")).
Proof. reflexivity. Qed.
(** An empty body is not dumped, and can not be cloned before it is. *)
Example empty_cannot_clone : body_clone body_default = None.
Proof. reflexivity. Qed.
