(* ===== verification/Startup.v ===== *)
(** * The start of a process

    [binary/spacegate/src/{args,main}.rs]: the backend that the argument [--config]
    names, the directories of plugin libraries, and what the process starts.
    [crates/shell/src/lib.rs]: the configuration service of each kind of start.

    The build has the feature [fs], without which the source does not compile beside
    [k8s] or [redis]; the features [k8s], [redis] and [dylib] are fields of [Build]. The
    file system, the loading of a library and the JSON of a static configuration are the
    interface [HostLib]; a path is its text. *)

From S2P Require Export ConfigService Trim.
Local Open Scope string_scope.
Local Open Scope list_scope.

Record Build := MkBuild { bl_k8s : bool; bl_redis : bool; bl_dylib : bool }.

(** ** The argument [--config]: [args.rs] *)

Inductive StartConfig :=
| StartFile (path : string)
| StartK8s (namespace : string)
| StartRedis (url : string)
| StartStatic (path : string).

(** [FromStr] and [Display for Config] *)
Definition start_config_from_str (build : Build) (s : string) : result StartConfig string :=
  match str_split_once ":" s with
  | Some (kind, resource) =>
      if decide (kind = "file") then Ok (StartFile resource)
      else if bl_k8s build && bool_decide (kind = "k8s") then Ok (StartK8s resource)
      else if bl_redis build && bool_decide (kind = "redis") then Ok (StartRedis resource)
      else if decide (kind = "static") then Ok (StartStatic resource)
      else Err ("unknown config backend kind: " +:+ kind)
  | None => Err "missing config backend kind"
  end.
Definition start_config_to_string (c : StartConfig) : string :=
  match c with
  | StartFile path => "file:" +:+ path
  | StartK8s ns => "k8s:" +:+ ns
  | StartRedis url => "redis:" +:+ url
  | StartStatic path => "static:" +:+ path
  end.

Record StartArgs := MkStartArgs {
  sa_config : StartConfig;
  sa_plugins : option string;
  sa_gateway_class_name : string;
}.

(** ** The plugin libraries: [main.rs] *)

(** [plugin_dirs] *)
Definition plugin_dirs (plugins : string) : list string :=
  filter (λ dir, dir ≠ "") (str_trim <$> str_split "," plugins).

Record DirEntry := MkDirEntry { de_path : string; de_extension : option string; de_is_file : bool }.

(** The extension of a library on the platform, the entries of a directory as they are
    read, and the registration of a library in the repository [R]. *)
Class HostLib (R : Type) := {
  dylib_extension : string;
  read_dir : string → result (list (result DirEntry string)) string;
  register_dylib : string → R → result unit string * R;
  read_config : string → result (Config Json) string;
  service_account_namespace : option string;
}.

Section host.
Context {R : Type} `{HostLib R}.

Definition is_library (e : DirEntry) : bool :=
  de_is_file e && bool_decide (de_extension e = Some dylib_extension).

(** The loop over the entries of a directory: an entry that can not be read ends the
    process, a library that can not be loaded does not. *)
Fixpoint load_entries (entries : list (result DirEntry string)) (repo : R) : result unit string * R :=
  match entries with
  | [] => (Ok tt, repo)
  | Err e :: _ => (Err e, repo)
  | Ok entry :: entries =>
      load_entries entries (if is_library entry then (register_dylib (de_path entry) repo).2 else repo)
  end.

(** The loop over the directories: one that can not be read is skipped. *)
Fixpoint load_dirs (dirs : list string) (repo : R) : result unit string * R :=
  match dirs with
  | [] => (Ok tt, repo)
  | dir :: dirs =>
      match read_dir dir with
      | Err _ => load_dirs dirs repo
      | Ok entries =>
          match load_entries entries repo with
          | (Ok _, repo) => load_dirs dirs repo
          | (Err e, repo) => (Err e, repo)
          end
      end
  end.

(** ** The service that is started *)

Inductive StartService :=
| ServeFile (conf_dir : string)
| ServeK8s (namespace gateway_class_name : string)
| ServeRedis (url : string)
| ServeMemory (config : Config Json).

(** [startup_k8s_with_gateway_class]: the namespace, or that of the pod; a panic outside
    of one. *)
Definition startup_k8s_with_gateway_class (namespace : option string) (gateway_class_name : string) :
    option StartService :=
  match namespace with
  | Some ns => Some (ServeK8s ns gateway_class_name)
  | None => (λ ns, ServeK8s (str_trim ns) gateway_class_name) <$> service_account_namespace
  end.
(** [startup_k8s] *)
Definition startup_k8s (namespace : option string) : option StartService :=
  startup_k8s_with_gateway_class namespace "spacegate".

(** [main]: the outcome, and the repository with the loaded plugins. [None] is a panic. *)
Definition start_service (args : StartArgs) : option (result StartService string) :=
  match sa_config args with
  | StartFile path => Some (Ok (ServeFile path))
  | StartK8s ns => Ok <$> startup_k8s_with_gateway_class (Some ns) (sa_gateway_class_name args)
  | StartRedis url => Some (Ok (ServeRedis url))
  | StartStatic path => Some (let? config := read_config path in Ok (ServeMemory config))
  end.

Definition spacegate_main (build : Build) (args : StartArgs) (repo : R) : option (result StartService string) * R :=
  let '(loaded, repo) :=
    match sa_plugins args with
    | Some plugins => if bl_dylib build then load_dirs (plugin_dirs plugins) repo else (Ok tt, repo)
    | None => (Ok tt, repo)
    end in
  match loaded with
  | Ok _ => (start_service args, repo)
  | Err e => (Some (Err e), repo)
  end.
End host.

(** ** Lemmas *)

Definition enabled (build : Build) (c : StartConfig) : bool :=
  match c with StartK8s _ => bl_k8s build | StartRedis _ => bl_redis build | _ => true end.

(** The argument is read back from its text, in a build that knows its kind. *)
Lemma start_config_roundtrip build c :
  start_config_from_str build (start_config_to_string c) = Ok c ↔ enabled build c = true.
Proof.
  destruct build as [[] [] d], c; done.
Qed.

(** What is read is what was written: the text of the argument is kept. *)
Lemma start_config_text build s c :
  start_config_from_str build s = Ok c → start_config_to_string c = s ∧ enabled build c = true.
Proof.
  unfold start_config_from_str. destruct (str_split_once ":" s) as [[kind resource]|] eqn:Hs; [|done].
  apply str_split_once_Some in Hs as [-> _]. destruct build as [k r d].
  repeat (case_decide || case_bool_decide || destruct k || destruct r); simpl; intros; simplify_eq; done.
Qed.

(** Every directory of the argument is trimmed and has a name. *)
Lemma plugin_dirs_spec plugins dir : dir ∈ plugin_dirs plugins ↔
  dir ≠ "" ∧ ∃ piece, piece ∈ str_split "," plugins ∧ dir = str_trim piece.
Proof.
  unfold plugin_dirs. rewrite list_elem_of_filter, list_elem_of_fmap. naive_solver.
Qed.

Section load_lemmas.
Context {R : Type} `{HostLib R}.

(** The libraries of a directory, in the order of its entries. *)
Definition libraries (entries : list (result DirEntry string)) : list string :=
  omap (λ e, match e with Ok e => if is_library e then Some (de_path e) else None | Err _ => None end) entries.
Definition register_all (paths : list string) (repo : R) : R := foldl (λ repo p, (register_dylib p repo).2) repo paths.

Lemma load_entries_spec entries repo :
  Forall (λ e, ∃ entry, e = Ok entry) entries →
  load_entries entries repo = (Ok tt, register_all (libraries entries) repo).
Proof.
  intros He. revert repo. induction He as [|e entries [entry ->] He IH]; intros repo; [done|].
  simpl. rewrite IH. by destruct (is_library entry).
Qed.

(** When no entry fails to be read, every library of every readable directory is
    registered once, in order, whatever the registrations answer. *)
Lemma load_dirs_spec dirs repo :
  (∀ dir entries, dir ∈ dirs → read_dir dir = Ok entries → Forall (λ e, ∃ entry, e = Ok entry) entries) →
  load_dirs dirs repo =
  (Ok tt, register_all (dirs ≫= λ dir, match read_dir dir with Ok entries => libraries entries | Err _ => [] end) repo).
Proof.
  revert repo. induction dirs as [|dir dirs IH]; intros repo Hd; [done|]. simpl.
  assert (∀ repo, load_dirs dirs repo = (Ok tt, register_all
    (dirs ≫= λ dir, match read_dir dir with Ok entries => libraries entries | Err _ => [] end) repo)) as Hrest.
  { intros. apply IH. intros d es Hin. apply Hd. by right. }
  destruct (read_dir dir) as [entries|e] eqn:Hr; [|apply Hrest].
  rewrite load_entries_spec by (by eapply Hd; [left|]). rewrite Hrest. f_equal.
  unfold register_all. by rewrite foldl_app.
Qed.
End load_lemmas.

(** ** Examples *)

Example plugin_dirs_source :
  plugin_dirs " /lib/spacegate/plugins, /var/lib/spacegate/plugins ,," =
  ["/lib/spacegate/plugins"; "/var/lib/spacegate/plugins"].
Proof. by vm_compute. Qed.

Definition ex_build : Build := MkBuild true false true.
Example start_redis_unknown : start_config_from_str ex_build "redis:redis://host" = Err "unknown config backend kind: redis".
Proof. by vm_compute. Qed.
Example start_url_keeps_colons : start_config_from_str (MkBuild true true true) "redis:redis://host:6379/0" = Ok (StartRedis "redis://host:6379/0").
Proof. by vm_compute. Qed.
