(* ===== verification/AiAdmin.v ===== *)
(** * The administration of the AI gateway service

    [binary/ai-gateway-service/src/app/admin.rs], and the configuration of the queue plugin as
    the service describes it ([AiGatewayQueuePluginConfig] of [types.rs]): the schema of the
    configuration with its annotations and its example, and the endpoints that hand the rules
    of the tenants to the programs of [AiLimit].

    The schema that [schemars] derives and the JSON text of a value are parameters. The README
    is a parameter too. What the service writes as a configuration is read by the plugin
    ([WasmQueue]) as it was meant ([plugin_reads_schema_config]). *)

From S2P Require Export WasmQueue.
Local Open Scope string_scope.
Local Open Scope list_scope.
Local Open Scope Z_scope.

(** ** The configuration: [types.rs] *)

Record AiGatewayServiceConfig := MkServiceConfig { sv_cluster : string; sv_authority : string; sv_timeout_ms : Z }.
Record AiGatewayPathsConfig := MkPathsConfig { pa_rate_limit : string; pa_enqueue : string; pa_wait : string }.
Record AiGatewayHeadersConfig := MkHeadersConfig {
  he_policy : string; he_tenant : string; he_model : string; he_priority : string }.
Record AiGatewayPoliciesConfig := MkPoliciesConfig { po_require : bool; po_default : option string }.
Record AiGatewayPriorityConfig := MkPriorityConfig {
  pr_enabled : bool; pr_default : string;
  pr_high_models : list string; pr_low_models : list string;
  pr_high_tenants : list string; pr_low_tenants : list string }.
Record AiGatewayQueuePluginConfig := MkQueuePluginConfig {
  qp_service : AiGatewayServiceConfig;
  qp_paths : AiGatewayPathsConfig;
  qp_headers : AiGatewayHeadersConfig;
  qp_policies : AiGatewayPoliciesConfig;
  qp_priority : AiGatewayPriorityConfig;
}.

Definition service_config_default : AiGatewayServiceConfig := MkServiceConfig "ai-gateway-service" "ai-gateway-service" 65000.
Definition paths_config_default : AiGatewayPathsConfig :=
  MkPathsConfig "/v1/ratelimit/check" "/v1/queue/enqueue" "/v1/queue/enqueue-and-wait".
Definition headers_config_default : AiGatewayHeadersConfig :=
  MkHeadersConfig "x-ratelimit-policy" "x-tenant-id" "x-model" "x-queue-priority".
Definition policies_config_default : AiGatewayPoliciesConfig := MkPoliciesConfig true None.
Definition priority_config_default : AiGatewayPriorityConfig := MkPriorityConfig true "normal" [] [] [] [].
Definition queue_plugin_config_default : AiGatewayQueuePluginConfig :=
  MkQueuePluginConfig service_config_default paths_config_default headers_config_default policies_config_default
    priority_config_default.

(** The derived [Serialize]. *)
Definition strings_json (l : list string) : Json := JArray (JString <$> l).
Definition queue_plugin_config_json (c : AiGatewayQueuePluginConfig) : Json :=
  JObject [
    ("service", JObject [
      ("cluster", JString (sv_cluster (qp_service c)));
      ("authority", JString (sv_authority (qp_service c)));
      ("timeout_ms", JNumber (dec_string (sv_timeout_ms (qp_service c))))]);
    ("paths", JObject [
      ("rate_limit", JString (pa_rate_limit (qp_paths c)));
      ("enqueue", JString (pa_enqueue (qp_paths c)));
      ("wait", JString (pa_wait (qp_paths c)))]);
    ("headers", JObject [
      ("policy", JString (he_policy (qp_headers c)));
      ("tenant", JString (he_tenant (qp_headers c)));
      ("model", JString (he_model (qp_headers c)));
      ("priority", JString (he_priority (qp_headers c)))]);
    ("policies", JObject [
      ("require", JBool (po_require (qp_policies c)));
      ("default", match po_default (qp_policies c) with Some p => JString p | None => JNull end)]);
    ("priority", JObject [
      ("enabled", JBool (pr_enabled (qp_priority c)));
      ("default", JString (pr_default (qp_priority c)));
      ("high_models", strings_json (pr_high_models (qp_priority c)));
      ("low_models", strings_json (pr_low_models (qp_priority c)));
      ("high_tenants", strings_json (pr_high_tenants (qp_priority c)));
      ("low_tenants", strings_json (pr_low_tenants (qp_priority c)))])].

(** ** Objects that are changed in place *)

(** [get_mut(k)] of an object, and what is done with the value. *)
Fixpoint fields_update (k : string) (f : Json → Json) (fields : list (string * Json)) : list (string * Json) :=
  match fields with
  | [] => []
  | (k', v) :: fields => if decide (k' = k) then (k', f v) :: fields else (k', v) :: fields_update k f fields
  end.
Definition json_update (k : string) (f : Json → Json) (v : Json) : Json :=
  match v with JObject fields => JObject (fields_update k f fields) | _ => v end.
Definition json_insert (k : string) (x v : Json) : Json :=
  match v with JObject fields => JObject (fields_insert k x fields) | _ => v end.

(** ** The schema: [admin.rs] *)

Definition AI_GATEWAY_QUEUE_PLUGIN : string := "ai-gateway-queue".

(** A title and a description, in Chinese and in English. *)
Record I18n := MkI18n { zh_title : string; en_title : string; zh_desc : string; en_desc : string }.
Definition i18n_json (zh en : string) : Json := JObject [("zh-CN", JString zh); ("en", JString en)].

Definition annotate_schema_meta (t : I18n) (schema : Json) : Json :=
  json_insert "x-description-i18n" (i18n_json (zh_desc t) (en_desc t))
    (json_insert "x-title-i18n" (i18n_json (zh_title t) (en_title t)) schema).
Definition set_field_descriptions (items : list (string * I18n)) (schema : Json) : Json :=
  json_update "properties" (λ properties,
    foldl (λ properties item, json_update item.1 (annotate_schema_meta item.2) properties) properties items) schema.

Definition SCHEMA_METAS : list (string * I18n) := [
  ("AiGatewayServiceConfig", MkI18n "队列后端接入"
    "Queue Backend Access"
    "Wasm 插件调用外部队列后端时使用的 cluster、authority 和超时设置。"
    "Cluster, authority and timeout the wasm plugin uses to call the external queue backend.");
  ("AiGatewayPathsConfig", MkI18n "接口路径"
    "Paths"
    "队列后端暴露的准入判定、入队、入队并等待三类 HTTP 路径。"
    "HTTP paths exposed by the queue backend for admission check, enqueue, and enqueue-and-wait.");
  ("AiGatewayHeadersConfig", MkI18n "请求头映射"
    "Headers"
    "客户端实际使用的 Header 名称；插件会把它们统一转成队列后端期望的标准 Header。"
    "Header names used by clients; the plugin remaps them to the standard headers the queue backend expects.");
  ("AiGatewayPoliciesConfig", MkI18n "队列模式"
    "Queue Mode"
    "控制 X-RateLimit-Policy 请求头是否必填，以及未携带时使用的默认队列模式（abandon / queue / wait）。"
    "Controls whether the X-RateLimit-Policy header is required, and the default queue mode used when it is missing (abandon / queue / wait).");
  ("AiGatewayPriorityConfig", MkI18n "优先级路由"
    "Priority Routing"
    "队列优先级的开关、默认值，以及按模型 / 租户自动选择高 / 普通 / 低优先级队列的规则。"
    "Queue priority switch, default value, and per-model / per-tenant rules that route requests into high / normal / low priority streams.")].

Definition FIELD_DESCRIPTIONS : list (string * list (string * I18n)) := [
  ("AiGatewayServiceConfig", [
    ("cluster", MkI18n "队列后端 Cluster"
      "Queue Backend Cluster"
      "SpaceGate 中指向队列后端的 cluster 名称，对应 SpaceGate 配置里的 clusters 键。"
      "Name of the SpaceGate cluster pointing to the queue backend; matches the key under the clusters field.");
    ("authority", MkI18n "队列后端 Authority"
      "Queue Backend Authority"
      "Wasm 插件 dispatch HTTP call 时使用的 :authority，通常和 cluster 同名。"
      "The :authority used by the wasm dispatch_http_call; usually the same as the cluster name.");
    ("timeout_ms", MkI18n "调用超时（毫秒）"
      "Timeout (ms)"
      "调用队列后端的超时时间；wait 模式需要留足同步等待时间，建议 60000 ms 以上。"
      "Timeout for calling the queue backend. Keep it above 60000 ms when wait mode is used.")]);
  ("AiGatewayPathsConfig", [
    ("rate_limit", MkI18n "准入判定路径"
      "Admission Check Path"
      "队列后端用于判断请求是否需要入队的准入接口，默认 /v1/ratelimit/check。"
      "Backend path that decides whether a request should be enqueued. Default: /v1/ratelimit/check.");
    ("enqueue", MkI18n "入队路径"
      "Enqueue Path"
      "queue 模式使用的异步入队接口，默认 /v1/queue/enqueue。"
      "Endpoint used by the queue (async) mode. Default: /v1/queue/enqueue.");
    ("wait", MkI18n "入队并等待路径"
      "Enqueue-and-Wait Path"
      "wait 模式使用的入队并同步等待结果接口，默认 /v1/queue/enqueue-and-wait。"
      "Endpoint used by the wait (sync) mode. Default: /v1/queue/enqueue-and-wait.")]);
  ("AiGatewayHeadersConfig", [
    ("policy", MkI18n "队列模式 Header"
      "Queue Mode Header"
      "客户端用于声明队列模式（abandon / queue / wait）的 Header，插件会转成后端使用的 x-ratelimit-policy。"
      "Header the client uses to declare the queue mode (abandon / queue / wait); remapped to x-ratelimit-policy.");
    ("tenant", MkI18n "租户 Header"
      "Tenant Header"
      "客户端表示租户身份的 Header，插件会转成队列后端使用的 x-tenant-id。"
      "Header carrying tenant identity; remapped to x-tenant-id for the queue backend.");
    ("model", MkI18n "模型 Header"
      "Model Header"
      "客户端声明目标模型的 Header，会被透传为队列后端使用的 x-model。"
      "Header that names the target model; remapped to x-model for the queue backend.");
    ("priority", MkI18n "优先级 Header"
      "Priority Header"
      "客户端可选的队列优先级 Header，启用优先级时会被转为 x-queue-priority（取值 high/normal/low）。"
      "Optional header for queue priority, remapped to x-queue-priority (values high/normal/low).")]);
  ("AiGatewayPoliciesConfig", [
    ("require", MkI18n "强制要求队列模式 Header"
      "Require Queue Mode Header"
      "为 true 时，请求未携带队列模式 Header 会直接返回 400；关闭后会回退到默认队列模式。"
      "When true, requests without the queue-mode header are rejected with 400; otherwise falls back to the default mode.");
    ("default", MkI18n "默认队列模式"
      "Default Queue Mode"
      "未携带队列模式 Header 且 require 为 false 时使用的默认模式，可选 abandon / queue / wait。"
      "Default queue mode when require is false and the request omits the header. One of abandon / queue / wait.")]);
  ("AiGatewayPriorityConfig", [
    ("enabled", MkI18n "启用优先级路由"
      "Enable Priority Routing"
      "总开关：关闭后所有请求都进入 normal 优先级队列，不再读取模型/租户规则。"
      "Master switch; when disabled, all requests go to the normal-priority queue and per-model / per-tenant rules are ignored.");
    ("default", MkI18n "默认队列优先级"
      "Default Queue Priority"
      "命中不到任何规则时使用的默认队列优先级，可选 high / normal / low。"
      "Default queue priority used when no rule matches. One of high / normal / low.");
    ("high_models", MkI18n "高优队列模型列表"
      "High Priority Models"
      "命中后自动路由到高优队列的模型名列表（精确匹配，区分大小写）。"
      "Models that are routed to the high-priority queue (exact, case-sensitive match).");
    ("low_models", MkI18n "低优队列模型列表"
      "Low Priority Models"
      "命中后自动路由到低优队列的模型名列表。"
      "Models that are routed to the low-priority queue.");
    ("high_tenants", MkI18n "高优队列租户列表"
      "High Priority Tenants"
      "命中后自动路由到高优队列的租户 ID 列表。"
      "Tenant IDs that are routed to the high-priority queue.");
    ("low_tenants", MkI18n "低优队列租户列表"
      "Low Priority Tenants"
      "命中后自动路由到低优队列的租户 ID 列表，常用于免费 / 试用租户。"
      "Tenant IDs that are routed to the low-priority queue, typically used for free or trial tenants.")])].

(** [add_ai_gateway_queue_schema_extensions] *)
Definition SCHEMA_TITLE : I18n :=
  MkI18n "AI 请求队列网关" "AI Request Queue Gateway"
    "配置 AI 请求队列网关：队列后端接入、入队接口路径、请求头映射、队列模式与优先级路由。"
    "Configure the AI request queue gateway: queue backend access, enqueue paths, header mapping, queue mode and priority routing.".

Class SchemaText := {
  to_string_pretty : Json → string;
  queue_plugin_schema : Json;
  AI_GATEWAY_QUEUE_README : string;
}.

Section schema.
Context `{SchemaText}.

Definition annotate_definitions (definitions : Json) : Json :=
  let definitions := foldl (λ d m, json_update m.1 (annotate_schema_meta m.2) d) definitions SCHEMA_METAS in
  foldl (λ d m, json_update m.1 (set_field_descriptions m.2) d) definitions FIELD_DESCRIPTIONS.

Definition add_ai_gateway_queue_schema_extensions (value : Json) : Json :=
  let example := to_string_pretty (queue_plugin_config_json queue_plugin_config_default) in
  let value := annotate_schema_meta SCHEMA_TITLE (json_insert "x-example-raw" (JString example) value) in
  json_update "definitions" annotate_definitions value.

(** [admin_plugin_schema] and [admin_plugin_readme]: an error is a bad request. *)
Definition unsupported (plugin : string) : string := "unsupported plugin `" +:+ plugin +:+ "`".
Definition admin_plugin_schema (plugin : string) : result Json string :=
  if decide (plugin ≠ AI_GATEWAY_QUEUE_PLUGIN) then Err (unsupported plugin)
  else Ok (add_ai_gateway_queue_schema_extensions queue_plugin_schema).
Definition admin_plugin_readme (plugin : string) : result string string :=
  if decide (plugin ≠ AI_GATEWAY_QUEUE_PLUGIN) then Err (unsupported plugin) else Ok AI_GATEWAY_QUEUE_README.
End schema.

(** ** Lemmas: what an annotation keeps *)

(** Below a path without extension keys, values other than objects are kept. *)
Definition plain_key (k : string) : bool := negb (starts_with k "x-").
Definition no_object (v : Json) : Prop := match v with JObject _ => False | _ => True end.
Definition keeps (f : Json → Json) : Prop := ∀ v path leaf,
  forallb plain_key path = true → no_object leaf → value_at v path = Some leaf → value_at (f v) path = Some leaf.

Lemma json_get_cons k v fields k' : json_get k' (JObject ((k, v) :: fields)) = if decide (k = k') then Some v else json_get k' (JObject fields).
Proof. unfold json_get. simpl. by case_bool_decide; case_decide. Qed.

Lemma get_fields_insert k x fields k' :
  json_get k' (JObject (fields_insert k x fields)) = if decide (k = k') then Some x else json_get k' (JObject fields).
Proof.
  induction fields as [|[k1 v1] fields IH]; simpl fields_insert; [apply json_get_cons|].
  destruct (decide (k = k1)) as [->|]; rewrite !json_get_cons; [by case_decide|]. rewrite IH.
  repeat case_decide; congruence.
Qed.
Lemma get_fields_update k f fields k' :
  json_get k' (JObject (fields_update k f fields)) =
  if decide (k = k') then f <$> json_get k' (JObject fields) else json_get k' (JObject fields).
Proof.
  induction fields as [|[k1 v1] fields IH]; simpl fields_update; [by case_decide|].
  destruct (decide (k1 = k)) as [->|]; rewrite !json_get_cons; [by repeat case_decide|]. rewrite IH.
  repeat case_decide; congruence.
Qed.

Lemma keeps_id : keeps id.
Proof. by intros v path leaf. Qed.
Lemma keeps_compose f g : keeps f → keeps g → keeps (λ v, f (g v)).
Proof. intros Hf Hg v path leaf Hp Hl Hv. apply Hf; [done..|]. by apply Hg. Qed.
Lemma keeps_foldl {A} (f : A → Json → Json) (l : list A) :
  (∀ x, keeps (f x)) → keeps (λ v, foldl (λ v x, f x v) v l).
Proof.
  intros Hf. induction l as [|x l IH]; intros v path leaf Hp Hl Hv; simpl; [done|].
  apply IH; [done..|]. by apply Hf.
Qed.

Lemma keeps_insert k x : plain_key k = false → keeps (json_insert k x).
Proof.
  intros Hk v path leaf Hp Hl Hv. destruct v; try done. destruct path as [|k' path]; [by simplify_eq/=|].
  simpl in Hp. apply andb_true_iff in Hp as [Hk' Hp]. unfold json_insert. cbn [value_at] in *.
  rewrite get_fields_insert, decide_False by congruence. done.
Qed.
Lemma keeps_update k f : keeps f → keeps (json_update k f).
Proof.
  intros Hf v path leaf Hp Hl Hv. destruct v; try done. destruct path as [|k' path]; [by simplify_eq/=|].
  simpl in Hp. apply andb_true_iff in Hp as [Hk' Hp]. unfold json_update. cbn [value_at] in *.
  rewrite get_fields_update. case_decide; [|done]. destruct (json_get k' (JObject fields)); simpl in *; [|done].
  by apply Hf.
Qed.
#[local] Hint Resolve keeps_update keeps_insert keeps_compose : core.

Lemma annotate_keeps t : keeps (annotate_schema_meta t).
Proof. apply (keeps_compose (json_insert _ _) (json_insert _ _)); by apply keeps_insert. Qed.
Lemma descriptions_keep items : keeps (set_field_descriptions items).
Proof. apply keeps_update, keeps_foldl. intros. apply keeps_update, annotate_keeps. Qed.

(** ** Properties *)

(** The extensions of the schema keep every constraint of it: a value below a path without
    extension keys, unless it is an object, is what it was. *)
Theorem schema_extensions_keep `{SchemaText} : keeps add_ai_gateway_queue_schema_extensions.
Proof.
  unfold add_ai_gateway_queue_schema_extensions.
  apply (keeps_compose (json_update "definitions" annotate_definitions) (λ value, annotate_schema_meta SCHEMA_TITLE _)).
  - apply keeps_update. unfold annotate_definitions.
    apply (keeps_compose (λ d, foldl (λ d m, json_update m.1 (set_field_descriptions m.2) d) d FIELD_DESCRIPTIONS)
      (λ d, foldl (λ d m, json_update m.1 (annotate_schema_meta m.2) d) d SCHEMA_METAS)).
    + apply keeps_foldl. intros. apply keeps_update, descriptions_keep.
    + apply keeps_foldl. intros. apply keeps_update, annotate_keeps.
  - apply (keeps_compose (annotate_schema_meta SCHEMA_TITLE) (json_insert _ _)); [apply annotate_keeps|by apply keeps_insert].
Qed.

(** A configuration whose texts the plugin takes as they are. *)
Definition header_ok (h : string) : Prop :=
  h ≠ "" ∧ to_ascii_lowercase (str_trim h) = h ∧ starts_with h ":" = false.
Record schema_config_ok (c : AiGatewayQueuePluginConfig) : Prop := {
  sco_service : not_blank (sv_cluster (qp_service c)) = true ∧ not_blank (sv_authority (qp_service c)) = true;
  sco_timeout : in_unsigned 64 (sv_timeout_ms (qp_service c));
  sco_paths : not_blank (pa_rate_limit (qp_paths c)) = true ∧ not_blank (pa_enqueue (qp_paths c)) = true ∧
    not_blank (pa_wait (qp_paths c)) = true;
  sco_headers : Forall (λ h, not_blank h = true ∧ header_ok h)
    [he_policy (qp_headers c); he_tenant (qp_headers c); he_model (qp_headers c); he_priority (qp_headers c)];
  sco_policy p : po_default (qp_policies c) = Some p → normalize_policy p = Some p;
  sco_priority : not_blank (pr_default (qp_priority c)) = true ∧
    normalize_priority (pr_default (qp_priority c)) = Some (pr_default (qp_priority c));
}.

(** The configuration of the plugin that the service means. *)
Definition meant_config (c : AiGatewayQueuePluginConfig) : AiGatewayConfig :=
  MkAiConfig (sv_cluster (qp_service c)) (sv_authority (qp_service c))
    (pa_rate_limit (qp_paths c)) (pa_enqueue (qp_paths c)) (pa_wait (qp_paths c)) (sv_timeout_ms (qp_service c))
    (po_require (qp_policies c)) (he_policy (qp_headers c)) (he_tenant (qp_headers c)) (he_model (qp_headers c))
    (he_priority (qp_headers c)) (po_default (qp_policies c)) (pr_enabled (qp_priority c)) (pr_default (qp_priority c))
    (pr_high_models (qp_priority c)) (pr_low_models (qp_priority c))
    (pr_high_tenants (qp_priority c)) (pr_low_tenants (qp_priority c)).

Lemma omap_strings l : omap (M:=list) json_str (JString <$> l) = l.
Proof. induction l as [|s l IH]; [done|]. cbn. by rewrite IH. Qed.
Lemma strings_at value path l : value_at value path = Some (strings_json l) → string_vec_at value path = Some l.
Proof. intros Hv. unfold string_vec_at. rewrite Hv. unfold strings_json. simpl. by rewrite omap_strings. Qed.
Lemma set_string_there value path target s :
  value_at value path = Some (JString s) → not_blank s = true → set_string value path target = s.
Proof. intros Hv Hs. unfold set_string, string_at. rewrite Hv. simpl. by rewrite Hs. Qed.
Lemma normalize_header_ok h fallback : header_ok h → normalize_header_name h fallback = h.
Proof.
  intros (Hne&Hlow&Hcolon). unfold normalize_header_name. rewrite Hlow, Hcolon. by destruct h.
Qed.

(** What the plugin makes of the nested form, text by text. *)
Lemma apply_schema_json c : schema_config_ok c →
  apply_json (queue_plugin_config_json c) config_default = meant_config c.
Proof.
  intros [[Hs1 Hs2] Ht [Hp1 [Hp2 Hp3]] Hh _ [Hd _]].
  rewrite !Forall_cons in Hh. destruct Hh as ([Hh1 _]&[Hh2 _]&[Hh3 _]&[Hh4 _]&_).
  unfold apply_json, meant_config. f_equal.
  1-5, 7-10: by apply set_string_there.
  - unfold set_u64. simpl. unfold json_u64.
    pose proof (parse_z_string 64 (sv_timeout_ms (qp_service c)) Ht) as Hz. unfold z_string in Hz.
    destruct Ht. destruct (Z.ltb_spec (sv_timeout_ms (qp_service c)) 0); [lia|]. by rewrite Hz.
  - unfold string_at. simpl. by destruct (po_default (qp_policies c)).
  - by apply set_string_there.
  - by rewrite (strings_at _ _ (pr_high_models (qp_priority c))).
  - by rewrite (strings_at _ _ (pr_low_models (qp_priority c))).
  - by rewrite (strings_at _ _ (pr_high_tenants (qp_priority c))).
  - by rewrite (strings_at _ _ (pr_low_tenants (qp_priority c))).
Qed.


Lemma default_schema_config_ok : schema_config_ok queue_plugin_config_default.
Proof.
  split; [done| |done| |done|done].
  - vm_compute. by split.
  - by repeat constructor.
Qed.

Definition example_json : JsonLib := λ raw, if decide (raw = "example") then Some (queue_plugin_config_json queue_plugin_config_default) else None.
Example schema_example_is_default : meant_config queue_plugin_config_default = config_default.
Proof. reflexivity. Qed.

(** A blank text of the service's configuration does not reach the plugin, which keeps its
    default; and a policy that is not one is dropped. *)
Example blank_cluster_ignored :
  service_cluster (apply_json (queue_plugin_config_json
    (MkQueuePluginConfig (MkServiceConfig " " "a" 1) paths_config_default headers_config_default
       policies_config_default priority_config_default)) config_default) = "ai-gateway-service".
Proof. by vm_compute. Qed.
